(* ===== verification/_CoqProject ===== *)
-Q . S2P
Prelude.v
Pack.v
Crc.v
Aes.v
Aessw.v
Tlv.v
SlList.v
Scheduler.v
WapsUart.v
Api.v
WapsFrames.v
WapsServices.v
Dsap.v
Csap.v
Waps.v
WapsInv.v
Msap.v
MsapProofs.v
WapsWorld.v
Dualmcu.v
SharedData.v
SharedAppconfig.v
SharedOffline.v
SharedTables.v
AppPersistent.v
ProvPdu.v
ProvData.v
Joining.v
Proxy.v
Provisioning.v
ProvExchange.v
LocalProvisioning.v
PosTlv.v
PosMbcn.v
PosDecode.v
PosMeasurement.v
PosEvent.v
PosControl.v
PosDa.v
PosBle.v
ControlNode.v
