(* ===== verification/Prelude.v ===== *)
(** * Wirepas SDK: a verification of its libraries

    The Wirepas SDK is C firmware for nodes of a mesh network.  The protocol
    stack is closed and called through tables of functions ([src/api]); the
    repository holds what runs on top of it: utilities ([src/util]), libraries
    that applications share ([src/libraries]) and the dual-MCU application,
    which makes a node the radio of another processor
    ([src/libraries/dualmcu]).  This development models the utilities and the
    libraries as functions, and proves what each promises to its callers.

    ** The parts and how they interact

    - The host of a dual-MCU device sends SLIP frames with a CRC over a serial
      line ([waps_uart.c]).  The engine ([waps.c], [waps_protocol.c],
      [waps_item.c]) checks and queues them, and its task gives each request to
      the data, configuration or management service ([dsap.c], [csap.c],
      [msap.c]), sends the confirmation, and sends the indications of the stack
      one by one, each until the host acknowledges it.  A pin tells the host that
      an indication waits; a feature lock, a small persistent area and a table
      of multicast groups sit below the services.
    - A new node listens for beacons, joins the network of a proxy, asks it for
      the network parameters with a START packet, opens the answer, which is
      sealed with AES under a factory key, acknowledges it, and applies the
      parameters.
    - An application registers its modules with libraries that each share one
      service of the stack: tasks ([app_scheduler.c]), received and sent packets
      ([shared_data.c]), app configs ([shared_appconfig.c]), going offline
      ([shared_offline.c]), events ([stack_state.c]), beacons
      ([shared_beacon.c], [shared_neighbors.c]), a flash area
      ([app_persistent.c]).  The stack calls the library, the library calls
      the modules, and the modules call the library back.
    - A provisioned node becomes a proxy, and an unprovisioned one a new node,
      under the local provisioning library: the application configuration of the
      network turns the proxy on and names the key.
    - The positioning library measures the strength of beacons around a node:
      the application configuration sets its modes and rates, mini-beacons are
      sent and received, a table keeps the strongest beacons and becomes a
      message for the sink; events connect its modules.  A state machine above
      them plans the updates, starts the scans, sends the messages and takes the
      configurations; a tag that is a directed advertiser sends its messages to
      the best neighbour; Bluetooth beacons carry the address of the node.
    - A directed advertiser sends each packet through the best router around
      it, and through a second one when the first fails ([control_node.c]); the
      router forwards its diagnostics to a sink ([control_router.c]).
    - All stand on [src/util]: packing, comparison of wrapping counters, CRC,
      TLV records, intrusive lists.

    ** The files

    Each file is named after the component it models; a C function keeps its
    name, a static variable is a field of the record [state], a call into the
    stack is a field of the record [env] (or [lib_time], [lib_data], ...), a
    function of the world [W].

    - [Prelude]: machine words, byte buffers, the state monad [st], the monad
      [sf] of programs that may fault, lemmas and tactics shared by all.
    - [Pack], [Crc], [Tlv], [SlList]: [util/pack.c], [util.c], [random.c],
      [crc.c], [tlv.c], [sl_list.c].
    - [Scheduler]: [libraries/scheduler/app_scheduler.c].
    - [Api]: structures and codes of [api/wms_app.h] and [api/wms_data.h].
    - [WapsUart]: [waps/comm/uart/waps_uart.c] and [waps_uart_power.c].
    - [WapsFrames], [WapsServices]: frames, function codes and addresses;
      [waps/sap/lock_bits.c], [persistent.c], [multicast.c].
    - [Dsap], [Csap], [Msap] with [MsapProofs]: the three services.
    - [Waps] with [WapsInv] and [WapsWorld]: the engine, its invariants, and the
      rule by which invariants of its surroundings pass through it.
    - [Dualmcu]: the device, every part above on one world.
    - [SharedData], [SharedAppconfig], [SharedOffline], [SharedTables],
      [AppPersistent]: the libraries of applications.
    - [Aes], [Aessw]: the AES-128 block cipher ([util/tinyaes/aes.c], key
      expansion and ECB) and the counter mode and message codes above it
      ([util/aessw.c]).
    - [ProvPdu], [ProvData], [Joining], [Proxy], [Provisioning],
      [ProvExchange]: [libraries/provisioning]: the packets, the CBOR map of
      parameters ([data.c]), the state machine that joins a network
      ([joining.c]), the proxy that answers new nodes ([proxy.c]), the state
      machine of the new node ([provisioning.c]), and the two ends together.
      The state of [Provisioning] is the world of [Joining], which it calls and
      which calls it back.
    - [LocalProvisioning]: [libraries/local_provisioning], on [Proxy] and
      [Provisioning]: its state holds that of the proxy and is the world of a
      session; and [configureNode] of [util/node_configuration.h].
    - [PosTlv], [PosMbcn], [PosDecode], [PosMeasurement], [PosEvent]:
      [libraries/positioning/poslib]: compact TLV records, mini-beacons,
      the application configuration, the table of measurements and its message,
      the queue of events and its subscribers.
    - [PosControl], [PosDa], [PosBle]: [poslib_control.c], [poslib_da.c] and
      [poslib_ble_beacon.c].  What [PosControl] asks of the other modules and of
      the stack is a value of the type [request], which an environment performs;
      [control_acts] is the interface that [PosEvent] needs of it.  [PosBle]
      stands on [SharedTables.SharedBeacon]: its state holds that of the shared
      beacon library.
    - [ControlNode], with the module [Router]: [libraries/control_node].

    ** What is proved

    - Codecs: [tlv_roundtrip], [crc_implementations_agree], [uart_roundtrip]
      and [uart_receive_refines] (any bytes, in any chunks, give the frames of a
      reference receiver, and the buffer is never overrun).
    - Data structures against specifications: [sl_list_refines] (a heap of
      cells against lists), [scheduler_refines] (the task table against a map
      of deadlines), [shared_data_calls], [stack_events_refine],
      [neighbors_refine], [beacon_interval].
    - The engine: no item of the pool is lost or used twice, two stay reserved
      for requests, the pin is right in every state, indications arrive in
      order, no request waits without the task being scheduled; these are
      invariants of a step relation in which frames arrive between any two
      steps of the task.  [dualmcu_device] carries the main ones to the bytes
      on the wire, for the composition of all the parts.
    - The services: every request is answered by one well-formed confirmation,
      each on its own branch; locked features have no effect; what is written
      reads back.
    - Dispatch under re-entrant callbacks: [received_dispatch],
      [appconfig_dispatch], [shared_data_stable] (no fault, no endless loop,
      whatever the callbacks call).
    - Time and ordering: [offline_arbitration], [wakeup_not_lost],
      [online_notifies], [cancelled_not_called], [periodic_work_progress].
    - Storage: [persistent_atomic] (a block is written as a whole or not at
      all, and the busy waits end).
    - Cryptography: [ecb_roundtrip] (for every key and block),
      [ctr_is_counter_mode] and [omac1_is_cmac] (the loops over words and bytes
      against the definitions of the standards on 128-bit numbers); the
      examples of FIPS 197 and RFC 4493 evaluate.
    - Provisioning: [data_decode_spec] (what maps are accepted, and what is
      kept of them), [data_dry_run] (the check of a packet tells what applying
      it will do), [joining_session] (a session goes on until it is ended, once),
      [proxy_answers] (every branch of the proxy), [provisioning_authentic] (over
      any events in any order only an authentic packet is applied),
      [provisioning_exchange] (what the proxy seals the node opens, to the same
      parameters), and [local_provisioning_exchange] (the same from the bytes of
      the application configuration and the start of a session to the settings
      of a new node).
    - Positioning: [mbcn_roundtrip] (what a node puts into its mini-beacons
      another one reads), [config_runs_commands] and [config_settings_ok] (a
      configuration does what its commands say; any bytes leave the settings in
      their ranges), [beacon_heard], [measurements_stay_ok], [payload_message]
      (the table keeps the strongest beacons, and its message is read back),
      [events_in_order] (events are processed once, in order, whatever their
      processing adds), [updates_end] (no fault, and no update goes on for ever,
      whatever calls, events and tasks come; the next one is planned on the grid
      of the periods), [da_send_first] and [da_forwarded] (a packet goes to the
      first neighbour that takes it; a router passes it on with its sender),
      [beacons_owned], [eddystone_read] and [ibeacon_read] (the module leaves no
      beacon behind and touches no other; what a receiver reads from a frame).
    - The control node: [router_choice], [sent_exactly_once] (every accepted
      packet is reported once), [busy_ends] (never busy for ever).

    Where the code does not do what its comments say, a lemma evaluates the
    model on the inputs that show it.

    ** Fuel and bounds

    Loops over a fixed table are folds over it and need no fuel.  A loop over
    a linked list has fuel for one more step than there are cells in memory,
    which is shown to be enough for every well-formed list ([SlList],
    [SharedData]).  The busy wait of [AppPersistent] takes any fuel, and is
    shown to return for all large enough fuel.  The loops of [Aessw] have the
    length of the text as fuel, that over a CBOR map any fuel above the number
    of its entries.  The end of joining and the reset of provisioning call each
    other: their depth is a parameter, and without room in the scheduler no
    depth is enough ([reset_never_ends]).  The loops of [PosMbcn] and
    [PosDecode] have the length of the buffer as fuel: each item takes a byte.
    The choice of a joining beacon has one more step than there are beacons.
    The receiver of [WapsUart] and the TLV decoder recurse on their input.  Integers have the width of
    the C type: [uwrap w] is applied where the code stores a result, and the
    theorems state the bounds under which nothing wraps.

    ** Parameters

    The stack, drivers and the functions of the application are arguments.
    Where a theorem needs something from them, a class states it: [EnvOk] and
    [EnvKeeps] for the surroundings of the engine, [LibsOk] and [StackOk] for the
    libraries of the stack, [SettingsWork], [StorageWorks] and [Stable] for
    settings and storage, [Observes] for the beacon library, [Flash] for a
    flash driver, [CborMap] and [CborWriter] for the CBOR parser and encoder,
    [Joining.Surroundings] for what joining uses, [ControlNode.Surroundings] for
    what the control node uses, [Modules] for those that events are given to,
    [PosControl.Node] for what the control of positioning asks for (its four
    tasks find room in the scheduler, the time is a 32-bit number, and a
    configuration from the shared library is shorter than the buffer, as the
    stack sends at most 80 bytes with their header), [BleNode] for the world of
    the BLE beacons (only the shared library gives an interval to the stack),
    [RadioOk] for a proxy that the stack does not refuse, [Quiet] for what provisioning uses
    ([JoiningKeeps] is what it needs of [Joining]).  Each has an instance, on
    which a witness evaluates the theorem.  Interrupts are explicit: they are calls or frames given to a step
    at the points where the code enables them.  Critical sections are atomic.
    The [qsort] of the C library is an argument of [PosDa], which is assumed to
    permute the table and nothing else.

    ** Not modelled

    The hardware layer, boards, the bootloader and the linker scripts (register
    accesses); vendored code (tinycbor, sensor drivers, CMSIS; of tinyaes
    the modes that nothing uses); applications under [src/source]
    (demonstrations of the API); start-up glue, logging and console output (no
    state).
    Of the positioning library the functions of [poslib.c], which only call the
    function of the same name of a module, and the branches under [ROUTE_CHECK],
    which no build sets, are left out. *)

From Stdlib Require Export ZArith Lia Btauto.
From stdpp Require Export prelude list numbers gmap.

#[export] Set Default Goal Selector "!".

Open Scope Z_scope.

Create HintDb words discriminated.
Create HintDb bits discriminated.

(** ** Machine words

    A C unsigned integer of width [w] is a [Z] kept in [0, 2^w).  Every
    arithmetic result that C stores in such a variable goes through the
    matching conversion below. *)

Definition uwrap (w x : Z) : Z := x mod 2 ^ w.

Abbreviation u8 := (uwrap 8).
Abbreviation u16 := (uwrap 16).
Abbreviation u32 := (uwrap 32).

Definition fits (w x : Z) : Prop := 0 <= x < 2 ^ w.

Abbreviation is_u8 := (fits 8).
Abbreviation is_u16 := (fits 16).
Abbreviation is_u32 := (fits 32).

(** Two's complement reading of a 32-bit word, the cast [(int32_t)]. *)
Definition s32 (x : Z) : Z :=
  let y := u32 x in if y <? 2 ^ 31 then y else y - 2 ^ 32.

Lemma uwrap_range w x : 0 <= w -> fits w (uwrap w x).
Proof. intros. apply Z.mod_pos_bound. lia. Qed.

Lemma uwrap_small w x : fits w x -> uwrap w x = x.
Proof. apply Z.mod_small. Qed.

Lemma uwrap_idem w x : 0 <= w -> uwrap w (uwrap w x) = uwrap w x.
Proof. intros. apply uwrap_small, uwrap_range; done. Qed.

Lemma uwrap_ge w x : 0 <= w -> 0 <= uwrap w x.
Proof. intros. by apply uwrap_range. Qed.

Lemma u8_range x : 0 <= u8 x < 256.
Proof. by apply (uwrap_range 8). Qed.

Lemma u16_range x : 0 <= u16 x < 65536.
Proof. by apply (uwrap_range 16). Qed.

Lemma u32_range x : 0 <= u32 x < 4294967296.
Proof. by apply (uwrap_range 32). Qed.

Lemma uwrap_add w x y : uwrap w (uwrap w x + uwrap w y) = uwrap w (x + y).
Proof. unfold uwrap. by rewrite <- Zplus_mod. Qed.

Lemma uwrap_add_l w x y : uwrap w (uwrap w x + y) = uwrap w (x + y).
Proof. unfold uwrap. by rewrite Zplus_mod_idemp_l. Qed.

Lemma uwrap_add_r w x y : uwrap w (x + uwrap w y) = uwrap w (x + y).
Proof. unfold uwrap. by rewrite Zplus_mod_idemp_r. Qed.

Lemma uwrap_sub_l w x y : uwrap w (uwrap w x - y) = uwrap w (x - y).
Proof. unfold uwrap. by rewrite Zminus_mod_idemp_l. Qed.

Lemma uwrap_sub_r w x y : uwrap w (x - uwrap w y) = uwrap w (x - y).
Proof. unfold uwrap. by rewrite Zminus_mod_idemp_r. Qed.

Lemma uwrap_add_period w x k : 0 <= w -> uwrap w (x + k * 2 ^ w) = uwrap w x.
Proof. intros. unfold uwrap. rewrite Z_mod_plus_full. done. Qed.

Lemma uwrap_land w x : 0 <= w -> uwrap w x = Z.land x (Z.ones w).
Proof. intros. by rewrite Z.land_ones. Qed.

Lemma uwrap_testbit w x i :
  0 <= w -> 0 <= i -> Z.testbit (uwrap w x) i = (i <? w) && Z.testbit x i.
Proof.
  intros. rewrite uwrap_land, Z.land_spec by done.
  rewrite Z.testbit_ones_nonneg by lia. btauto.
Qed.

Lemma fits_testbit w x i :
  0 <= w -> fits w x -> w <= i -> Z.testbit x i = false.
Proof.
  intros Hw Hx Hi. rewrite <- (uwrap_small w x Hx), uwrap_testbit by lia.
  by rewrite (proj2 (Z.ltb_ge _ _)).
Qed.

Lemma fits_weaken w w' x : 0 <= w <= w' -> fits w x -> fits w' x.
Proof.
  intros ? [? ?]. split; [done|].
  apply Z.lt_le_trans with (2 ^ w); [done|]. apply Z.pow_le_mono_r; lia.
Qed.

(** A non-negative number without bits from [w] on fits in [w] bits. *)
Lemma fits_of_bits w x :
  0 <= w -> 0 <= x -> (forall i, w <= i -> Z.testbit x i = false) -> fits w x.
Proof.
  intros Hw Hx Hb. cut (uwrap w x = x).
  { intros <-. by apply uwrap_range. }
  apply Z.bits_inj'. intros i Hi. rewrite uwrap_testbit by done.
  destruct (Z.ltb_spec i w); [done|]. by rewrite (Hb i) by lia.
Qed.

Lemma fits_lor w x y : 0 <= w -> fits w x -> fits w y -> fits w (Z.lor x y).
Proof.
  intros Hw Hx Hy. apply fits_of_bits; [done|apply Z.lor_nonneg; split; [apply Hx|apply Hy]|].
  intros i Hi. by rewrite Z.lor_spec, (fits_testbit w x), (fits_testbit w y) by done.
Qed.

Lemma fits_lxor w x y : 0 <= w -> fits w x -> fits w y -> fits w (Z.lxor x y).
Proof.
  intros Hw Hx Hy. apply fits_of_bits;
    [done|apply Z.lxor_nonneg; split; intros; [apply Hy|apply Hx]|].
  intros i Hi. by rewrite Z.lxor_spec, (fits_testbit w x), (fits_testbit w y) by done.
Qed.

Lemma fits_land_l w x y : 0 <= w -> fits w x -> fits w (Z.land x y).
Proof.
  intros Hw Hx. apply fits_of_bits; [done|apply Z.land_nonneg; left; apply Hx|].
  intros i Hi. by rewrite Z.land_spec, (fits_testbit w x) by done.
Qed.

(** A low part below a shifted high part: [|] is [+]. *)
Lemma lor_shiftl_add w hi lo :
  0 <= w -> fits w lo -> Z.lor (Z.shiftl hi w) lo = hi * 2 ^ w + lo.
Proof.
  intros Hw Hlo. rewrite <- Z.shiftl_mul_pow2 by done.
  assert (Hd : Z.land (Z.shiftl hi w) lo = 0).
  { apply Z.bits_inj'. intros i Hi. rewrite Z.land_spec, Z.bits_0.
    destruct (Z.ltb_spec i w); [by rewrite Z.shiftl_spec_low|].
    rewrite (fits_testbit w lo i) by done. btauto. }
  by rewrite Z.add_nocarry_lxor, Z.lxor_lor.
Qed.

#[export] Hint Resolve uwrap_range u8_range u16_range u32_range
  fits_lor fits_lxor fits_land_l : words.
#[export] Hint Rewrite uwrap_add uwrap_add_l uwrap_add_r uwrap_sub_l uwrap_sub_r : words.

(** ** Bit-level reasoning

    [bitwise] reduces an equality of words to an equality of bits and decides
    it by splitting on the positions that the masks and shifts mention. *)

#[export] Hint Rewrite Z.lxor_spec Z.land_spec Z.lor_spec : bits.
#[export] Hint Rewrite Z.shiftl_spec Z.shiftr_spec uwrap_testbit
  Z.testbit_ones_nonneg using lia : bits.

Ltac bit_split :=
  match goal with
  | |- context [?a <? ?b] => destruct (Z.ltb_spec a b); try lia
  end.

Ltac bitwise :=
  apply Z.bits_inj'; intros ?i ?Hi;
  repeat (autorewrite with bits in *; try bit_split);
  rewrite ?(Z.testbit_neg_r _ _) by lia;
  try btauto.

(** ** Exhaustive checks over a byte *)

Definition all_bytes (f : Z -> bool) : bool := forallb (fun n => f (Z.of_nat n)) (seq 0 256).

Lemma all_bytes_spec f i : all_bytes f = true -> is_u8 i -> f i = true.
Proof.
  intros Hf Hi. unfold all_bytes, fits in *. rewrite forallb_forall in Hf.
  rewrite <- (Z2Nat.id i) by lia. apply Hf, in_seq. lia.
Qed.

(** ** Byte buffers

    A byte buffer is a [list Z] whose elements are bytes.  Writing a block
    ([memcpy], a field assignment in a packed struct) keeps the length of the
    buffer; a write outside of the buffer has no effect in the model, and the
    bounds theorems of each component show that none happens. *)

Abbreviation bytes := (Forall is_u8).

(** [memcpy(&buf[off], bs, length bs)] *)
Definition blit (off : nat) (bs buf : list Z) : list Z := list_inserts off bs buf.

(** The [n] bytes of [buf] from [off] on. *)
Definition slice (off n : nat) (buf : list Z) : list Z := take n (drop off buf).

(** Little-endian value of a block of bytes, and its [n]-byte encoding. *)
Fixpoint le_get (bs : list Z) : Z :=
  match bs with
  | [] => 0
  | b :: bs => b + 256 * le_get bs
  end.

Fixpoint le_put (n : nat) (v : Z) : list Z :=
  match n with
  | O => []
  | S n => u8 v :: le_put n (v / 256)
  end.

Lemma length_le_put n v : length (le_put n v) = n.
Proof. revert v. induction n; intros; simpl; by rewrite ?IHn. Qed.

Lemma bytes_repeat x n : is_u8 x -> bytes (repeat x n).
Proof. intros Hx. induction n; cbn; by constructor. Qed.

Lemma le_put_bytes n v : bytes (le_put n v).
Proof. revert v. induction n; intros; simpl; constructor; [by apply uwrap_range|done]. Qed.

Lemma le_get_put n v : le_get (le_put n v) = uwrap (8 * Z.of_nat n) v.
Proof.
  revert v. induction n as [|n IH]; intros v.
  { unfold uwrap. by rewrite Z.mod_1_r. }
  cbn [le_get le_put]. rewrite IH. unfold uwrap.
  replace (8 * Z.of_nat (S n)) with (8 + 8 * Z.of_nat n) by lia.
  rewrite Z.pow_add_r, Z.rem_mul_r by lia. done.
Qed.

Lemma le_put_get bs : bytes bs -> le_put (length bs) (le_get bs) = bs.
Proof.
  induction 1 as [|b bs Hb _ IH]; cbn [le_get le_put length]; [done|].
  assert (0 <= b < 256) by exact Hb. f_equal.
  - unfold uwrap. rewrite Z.mul_comm, Z_mod_plus_full. by apply Z.mod_small.
  - rewrite Z.mul_comm, Z.div_add, Z.div_small by lia. done.
Qed.


Lemma le_put_wrap n v v' :
  uwrap (8 * Z.of_nat n) v = uwrap (8 * Z.of_nat n) v' -> le_put n v = le_put n v'.
Proof.
  intros E. rewrite <- (le_put_get (le_put n v)), <- (le_put_get (le_put n v')) by apply le_put_bytes.
  by rewrite !le_get_put, !length_le_put, E.
Qed.

Lemma le_get_app l1 l2 :
  le_get (l1 ++ l2) = le_get l1 + 2 ^ (8 * Z.of_nat (length l1)) * le_get l2.
Proof.
  induction l1 as [|b l1 IH]; cbn [le_get app length].
  { rewrite Nat2Z.inj_0, Z.mul_0_r, Z.pow_0_r. lia. }
  rewrite IH. replace (8 * Z.of_nat (S (length l1)))
    with (8 + 8 * Z.of_nat (length l1)) by lia.
  rewrite Z.pow_add_r by lia. lia.
Qed.

Lemma le_get_range bs : bytes bs -> fits (8 * Z.of_nat (length bs)) (le_get bs).
Proof.
  unfold fits. induction 1 as [|b bs Hb _ IH]; cbn [le_get length]; [done|].
  replace (8 * Z.of_nat (S (length bs))) with (8 + 8 * Z.of_nat (length bs)) by lia.
  rewrite Z.pow_add_r by lia. unfold fits in *. lia.
Qed.

Lemma length_blit off bs buf : length (blit off bs buf) = length buf.
Proof. apply length_inserts. Qed.

Lemma length_slice off n buf :
  (off + n <= length buf)%nat -> length (slice off n buf) = n.
Proof. intros. unfold slice. rewrite length_take, length_drop. lia. Qed.

Lemma slice_bytes off n buf : bytes buf -> bytes (slice off n buf).
Proof. intros. by apply Forall_take, Forall_drop. Qed.

Lemma blit_nil off buf : blit off [] buf = buf.
Proof. done. Qed.

Lemma blit_cons off b bs buf :
  blit off (b :: bs) buf = <[off := b]> (blit (S off) bs buf).
Proof. done. Qed.

Lemma blit_bytes off bs buf : bytes bs -> bytes buf -> bytes (blit off bs buf).
Proof.
  intros Hbs Hbuf. revert off. induction Hbs as [|b bs Hb _ IH]; intros off; [done|].
  rewrite blit_cons. by apply Forall_insert.
Qed.

Lemma lookup_blit_lt off bs buf i : (i < off)%nat -> blit off bs buf !! i = buf !! i.
Proof.
  revert off. induction bs as [|b bs IH]; intros off Hi; [done|].
  rewrite blit_cons, list_lookup_insert_ne by lia. apply IH. lia.
Qed.

Lemma lookup_blit_ge off bs buf i :
  (off + length bs <= i)%nat -> blit off bs buf !! i = buf !! i.
Proof.
  revert off. induction bs as [|b bs IH]; intros off Hi; [done|]. simpl in Hi.
  rewrite blit_cons, list_lookup_insert_ne by lia. apply IH. lia.
Qed.

Lemma lookup_blit_in off bs buf i :
  (off <= i < off + length bs)%nat -> (i < length buf)%nat ->
  blit off bs buf !! i = bs !! (i - off)%nat.
Proof.
  revert off. induction bs as [|b bs IH]; intros off Hi Hl; simpl in Hi; [lia|].
  rewrite blit_cons. destruct (decide (i = off)) as [->|].
  - rewrite list_lookup_insert_eq by (rewrite length_blit; lia). by rewrite Nat.sub_diag.
  - rewrite list_lookup_insert_ne, IH by lia.
    by replace (i - off)%nat with (S (i - S off)) by lia.
Qed.

Lemma lookup_slice off n buf i :
  slice off n buf !! i = if decide (i < n)%nat then buf !! (off + i)%nat else None.
Proof.
  unfold slice. case_decide.
  - by rewrite lookup_take_lt, lookup_drop by done.
  - by rewrite lookup_take_ge by lia.
Qed.

(** Reading back what was written, and reading elsewhere. *)
Lemma slice_blit off bs buf :
  (off + length bs <= length buf)%nat -> slice off (length bs) (blit off bs buf) = bs.
Proof.
  intros Hl. apply list_eq. intros i. rewrite lookup_slice. case_decide.
  - rewrite lookup_blit_in by lia. f_equal. lia.
  - symmetry. apply lookup_ge_None_2. lia.
Qed.

Lemma slice_blit_disj off n off' bs buf :
  (off + n <= off')%nat \/ (off' + length bs <= off)%nat ->
  slice off n (blit off' bs buf) = slice off n buf.
Proof.
  intros Hd. apply list_eq. intros i. rewrite !lookup_slice. case_decide; [|done].
  destruct Hd; [apply lookup_blit_lt|apply lookup_blit_ge]; lia.
Qed.

Lemma blit_app off bs buf :
  (off + length bs <= length buf)%nat ->
  blit off bs buf = take off buf ++ bs ++ drop (off + length bs) buf.
Proof.
  intros Hl. apply list_eq. intros i.
  destruct (decide (i < off)%nat).
  { rewrite lookup_blit_lt, lookup_app_l, lookup_take_lt
      by (rewrite ?length_take; lia). done. }
  rewrite lookup_app_r by (rewrite length_take; lia).
  rewrite length_take, Nat.min_l by lia.
  destruct (decide (i < off + length bs)%nat).
  - by rewrite lookup_blit_in, lookup_app_l by lia.
  - rewrite lookup_blit_ge, lookup_app_r, lookup_drop by lia. f_equal. lia.
Qed.

(** Two adjacent writes are one write. *)
Lemma blit_blit_app off b1 b2 buf :
  (off + length b1 + length b2 <= length buf)%nat ->
  blit (off + length b1) b2 (blit off b1 buf) = blit off (b1 ++ b2) buf.
Proof.
  intros Hl. apply list_eq. intros i.
  destruct (decide (i < off)%nat).
  { by rewrite !lookup_blit_lt by lia. }
  destruct (decide (i < off + length b1)%nat).
  { rewrite lookup_blit_lt, !lookup_blit_in, lookup_app_l
      by (rewrite ?length_app; lia). done. }
  destruct (decide (i < off + length b1 + length b2)%nat).
  - rewrite !lookup_blit_in, lookup_app_r by (rewrite ?length_app, ?length_blit; lia).
    f_equal. lia.
  - by rewrite !lookup_blit_ge by (rewrite ?length_app; lia).
Qed.

(** A list of blocks of the same size. *)
Lemma slice_concat n (ls : list (list Z)) i x :
  Forall (fun l => length l = n%nat) ls -> ls !! i = Some x -> slice (i * n) n (concat ls) = x.
Proof.
  revert i. induction ls as [|l ls IH]; intros i Hl Hi; [done|].
  apply Forall_cons in Hl as [Hl Hls]. cbn [concat]. destruct i as [|i].
  - cbn in Hi. injection Hi as ->. unfold slice. cbn [Nat.mul drop]. rewrite <- Hl.
    apply take_app_length.
  - cbn in Hi. rewrite <- (IH i Hls Hi). unfold slice.
    replace (S i * n)%nat with (length l + i * n)%nat by lia. by rewrite drop_app_add.
Qed.

Lemma length_concat_blocks n (ls : list (list Z)) :
  Forall (fun l => length l = n%nat) ls -> length (concat ls) = (length ls * n)%nat.
Proof.
  induction 1 as [|l ls Hl _ IH]; [done|]. cbn [concat length]. rewrite length_app, IH. lia.
Qed.

(** The field access of a packed little-endian structure. *)
Definition field (off n : nat) (buf : list Z) : Z := le_get (slice off n buf).
Definition set_field (off n : nat) (v : Z) (buf : list Z) : list Z :=
  blit off (le_put n v) buf.

Lemma length_set_field off n v buf : length (set_field off n v buf) = length buf.
Proof. apply length_blit. Qed.

Lemma set_field_bytes off n v buf : bytes buf -> bytes (set_field off n v buf).
Proof. intros. apply blit_bytes; [apply le_put_bytes|done]. Qed.

Lemma field_set_field off n v buf :
  (off + n <= length buf)%nat ->
  field off n (set_field off n v buf) = uwrap (8 * Z.of_nat n) v.
Proof.
  intros. unfold field, set_field. rewrite <- le_get_put.
  rewrite <- (length_le_put n v) at 1. rewrite slice_blit; [done|].
  by rewrite length_le_put.
Qed.

(** A second write of the same field replaces the first one. *)
Lemma blit_blit_same off b1 b2 buf :
  length b1 = length b2 -> blit off b1 (blit off b2 buf) = blit off b1 buf.
Proof.
  intros Hl. apply list_eq. intros i.
  destruct (decide (i < off)%nat); [by rewrite !lookup_blit_lt by lia|].
  destruct (decide (off + length b1 <= i)%nat); [by rewrite !lookup_blit_ge by lia|].
  destruct (decide (i < length buf)%nat).
  - by rewrite !lookup_blit_in by (rewrite ?length_blit; lia).
  - by rewrite !lookup_ge_None_2 by (rewrite ?length_blit; lia).
Qed.

Lemma set_field_set_field off n v v' buf :
  set_field off n v (set_field off n v' buf) = set_field off n v buf.
Proof. unfold set_field. apply blit_blit_same. by rewrite !length_le_put. Qed.

Lemma field_set_field_disj off n off' n' v buf :
  (off + n <= off')%nat \/ (off' + n' <= off)%nat ->
  field off n (set_field off' n' v buf) = field off n buf.
Proof.
  intros. unfold field, set_field. by rewrite slice_blit_disj by by rewrite length_le_put.
Qed.

Lemma field_blit_disj off n off' bs buf :
  (off + n <= off')%nat \/ (off' + length bs <= off)%nat ->
  field off n (blit off' bs buf) = field off n buf.
Proof. intros. unfold field. by rewrite slice_blit_disj. Qed.

Lemma field_range off n buf :
  bytes buf -> (off + n <= length buf)%nat -> fits (8 * Z.of_nat n) (field off n buf).
Proof.
  intros Hb Hl. rewrite <- (length_slice off n buf Hl) at 1.
  by apply le_get_range, slice_bytes.
Qed.

#[export] Hint Resolve blit_bytes slice_bytes set_field_bytes le_put_bytes : words.

(** ** A state monad

    [st S A] threads the state [S]; [m <- x ; k] notation of stdpp. *)

Definition st (S A : Type) : Type := S -> A * S.
#[export] Instance st_ret S : MRet (st S) := fun A x s => (x, s).
#[export] Instance st_bind S : MBind (st S) :=
  fun A B f m s => let '(x, s') := m s in f x s'.

Definition gets {S A} (f : S -> A) : st S A := fun s => (f s, s).
Definition modify {S} (f : S -> S) : st S unit := fun s => (tt, f s).

Lemma bindE {S A B} (m : st S A) (k : A -> st S B) s : (x ← m; k x) s = k (m s).1 (m s).2.
Proof. unfold mbind, st_bind. by destruct (m s). Qed.

(** Run [m] on a part of the state. *)
Definition zoom {S T A} (get : S -> T) (put : T -> S -> S) (m : st T A) : st S A :=
  fun s => let '(x, t) := m (get s) in (x, put t s).

Lemma zoomE {S T A} (get : S -> T) (put : T -> S -> S) (m : st T A) s :
  zoom get put m s = ((m (get s)).1, put (m (get s)).2 s).
Proof. unfold zoom. by destruct (m (get s)). Qed.

(** [m] started in [P] ends in [Q]. *)
Definition triple {S A} (P : S -> Prop) (m : st S A) (Q : A -> S -> Prop) : Prop :=
  forall s, P s -> Q (m s).1 (m s).2.

Lemma triple_ret {S A} (P : S -> Prop) (x : A) (Q : A -> S -> Prop) :
  (forall s, P s -> Q x s) -> triple P (mret x) Q.
Proof. intros H s. apply H. Qed.

Lemma triple_bind {S A B} (P : S -> Prop) (m : st S A) R (k : A -> st S B) Q :
  triple P m R -> (forall x, triple (R x) (k x) Q) -> triple P (x ← m; k x) Q.
Proof. intros Hm Hk s HP. rewrite bindE. by apply Hk, Hm. Qed.

Lemma triple_conseq {S A} (P P' : S -> Prop) (m : st S A) Q Q' :
  triple P' m Q' -> (forall s, P s -> P' s) -> (forall x s, Q' x s -> Q x s) -> triple P m Q.
Proof. intros Hm HP HQ s H. by apply HQ, Hm, HP. Qed.

Lemma triple_gets {S A} (P : S -> Prop) (f : S -> A) :
  triple P (gets f) (fun x s => x = f s /\ P s).
Proof. by intros s HP. Qed.

Lemma triple_modify {S} (P : S -> Prop) (f : S -> S) (Q : S -> Prop) :
  (forall s, P s -> Q (f s)) -> triple P (modify f) (fun _ => Q).
Proof. intros H s. apply H. Qed.

Lemma triple_pure {S A} (phi : Prop) (P : S -> Prop) (m : st S A) Q :
  (phi -> triple P m Q) -> triple (fun s => phi /\ P s) m Q.
Proof. intros H s [Hphi HP]. by apply H. Qed.

Lemma triple_skip {S A B} (P : S -> Prop) (m : st S A) (k : A -> st S B) Q :
  triple P m (fun _ => P) -> (forall x, triple P (k x) Q) -> triple P (x ← m; k x) Q.
Proof. intros. by eapply triple_bind. Qed.

(** [m] leaves [f] of the state alone. *)
Definition keeps {S A B} (f : S -> B) (m : st S A) : Prop := forall s, f (m s).2 = f s.

Lemma keeps_ret {S A B} (f : S -> B) (x : A) : keeps f (mret x).
Proof. by intros s. Qed.

Lemma keeps_bind {S A A' B} (f : S -> B) (m : st S A) (k : A -> st S A') :
  keeps f m -> (forall x, keeps f (k x)) -> keeps f (x ← m; k x).
Proof. intros Hm Hk s. rewrite bindE. by rewrite Hk, Hm. Qed.

Lemma keeps_gets {S A B} (f : S -> B) (g : S -> A) : keeps f (gets g).
Proof. by intros s. Qed.

Create HintDb keeps discriminated.
#[export] Hint Resolve keeps_ret keeps_bind keeps_gets : keeps.

(** Whatever the state, the result of [m] satisfies [P]. *)
Definition yields {S A} (m : st S A) (P : A -> Prop) : Prop := forall s, P (m s).1.

Lemma yields_ret {S A} (x : A) (P : A -> Prop) : P x -> yields (mret x : st S A) P.
Proof. by intros H s. Qed.

Lemma yields_bind {S A B} (m : st S A) (k : A -> st S B) (Q : A -> Prop) P :
  yields m Q -> (forall x, Q x -> yields (k x) P) -> yields (x ← m; k x) P.
Proof. intros Hm Hk s. rewrite bindE. by apply Hk. Qed.

Lemma yields_true {S A} (m : st S A) : yields m (fun _ => True).
Proof. by intros s. Qed.

Lemma yields_any {S A B} (m : st S A) (k : A -> st S B) P :
  (forall x, yields (k x) P) -> yields (x ← m; k x) P.
Proof. intros Hk. by apply (yields_bind m k (fun _ => True)). Qed.

Lemma yields_zoom {S T A} (get : S -> T) put (m : st T A) P : yields m P -> yields (zoom get put m) P.
Proof. intros Hm s. rewrite zoomE. by apply Hm. Qed.

Lemma yields_conseq {S A} (m : st S A) (P Q : A -> Prop) : yields m P -> (forall x, P x -> Q x) -> yields m Q.
Proof. intros Hm HPQ s. by apply HPQ, Hm. Qed.

(** ** A state monad with failure

    For code that walks memory: [None] is a dereference of [NULL] or of memory
    that holds no object, or a loop that used up its fuel.  The theorems show
    that neither happens. *)

Definition sf (S A : Type) : Type := S -> option (A * S).
#[export] Instance sf_ret S : MRet (sf S) := fun A x s => Some (x, s).
#[export] Instance sf_bind S : MBind (sf S) :=
  fun A B f m s => match m s with Some (x, s') => f x s' | None => None end.

Definition fault {S A} : sf S A := fun _ => None.
Definition reads {S A} (f : S -> option A) : sf S A :=
  fun s => match f s with Some x => Some (x, s) | None => None end.
Definition asks {S A} (f : S -> A) : sf S A := fun s => Some (f s, s).
Definition puts {S} (f : S -> S) : sf S unit := fun s => Some (tt, f s).

Lemma sf_bindE {S A B} (m : sf S A) (k : A -> sf S B) s x s' :
  m s = Some (x, s') -> (y ← m; k y) s = k x s'.
Proof. intros E. unfold mbind, sf_bind. by rewrite E. Qed.

Lemma asksE {S A B} (f : S -> A) (k : A -> sf S B) s : (y ← asks f; k y) s = k (f s) s.
Proof. done. Qed.

Lemma putsE {S B} (f : S -> S) (k : unit -> sf S B) s : (y ← puts f; k y) s = k tt (f s).
Proof. done. Qed.

Lemma readsE {S A B} (f : S -> option A) (k : A -> sf S B) s x :
  f s = Some x -> (y ← reads f; k y) s = k x s.
Proof. intros E. apply sf_bindE. unfold reads. by rewrite E. Qed.

Lemma sf_retE {S A B} (x : A) (k : A -> sf S B) s : (y ← mret x; k y) s = k x s.
Proof. done. Qed.

Lemma sf_assoc {S A B C} (m : sf S A) (f : A -> sf S B) (k : B -> sf S C) s :
  (y ← (x ← m; f x); k y) s = (x ← m; y ← f x; k y) s.
Proof. unfold mbind, sf_bind. by destruct (m s) as [[]|]. Qed.

(** Total correctness: from [P], [m] does not fail and ends in [Q]. *)
Definition runs {S A} (P : S -> Prop) (m : sf S A) (Q : A -> S -> Prop) : Prop :=
  forall s, P s -> exists x s', m s = Some (x, s') /\ Q x s'.

Lemma runs_ret {S A} (P : S -> Prop) (x : A) (Q : A -> S -> Prop) :
  (forall s, P s -> Q x s) -> runs P (mret x) Q.
Proof. intros H s HP. exists x, s. split; [done|auto]. Qed.

Lemma runs_bind {S A B} (P : S -> Prop) (m : sf S A) R (k : A -> sf S B) Q :
  runs P m R -> (forall x, runs (R x) (k x) Q) -> runs P (x ← m; k x) Q.
Proof.
  intros Hm Hk s HP. destruct (Hm s HP) as (x & s' & E & HR).
  rewrite (sf_bindE m k s x s' E). by apply Hk.
Qed.

Lemma runs_conseq {S A} (P P' : S -> Prop) (m : sf S A) Q Q' :
  runs P' m Q' -> (forall s, P s -> P' s) -> (forall x s, Q' x s -> Q x s) -> runs P m Q.
Proof. intros Hm HP HQ s H. destruct (Hm s (HP s H)) as (x & s' & E & HR). eauto 10. Qed.

(** Partial correctness: when [m] does not fail, it keeps [P]. *)
Definition sf_keeps {S A} (P : S -> Prop) (m : sf S A) : Prop := forall s x s', m s = Some (x, s') -> P s -> P s'.

Create HintDb sf_keeps discriminated.

Lemma sf_keeps_ret {S A} (P : S -> Prop) (x : A) : sf_keeps P (mret x).
Proof. by intros s y s' [= <- <-]. Qed.

Lemma sf_keeps_bind {S A B} (P : S -> Prop) (m : sf S A) (k : A -> sf S B) :
  sf_keeps P m -> (forall x, sf_keeps P (k x)) -> sf_keeps P (x ← m; k x).
Proof.
  intros Hm Hk s y s' H HP. unfold mbind, sf_bind in H. destruct (m s) as [[x s1]|] eqn:E; [|done].
  exact (Hk x s1 y s' H (Hm s x s1 E HP)).
Qed.

Lemma sf_keeps_asks {S A} (P : S -> Prop) (f : S -> A) : sf_keeps P (asks f).
Proof. by intros s x s' [= _ <-]. Qed.

Lemma sf_keeps_reads {S A} (P : S -> Prop) (f : S -> option A) : sf_keeps P (reads f).
Proof. intros s x s'. unfold reads. destruct (f s); [|done]. by intros [= _ <-]. Qed.

Lemma sf_keeps_puts {S} (P : S -> Prop) (f : S -> S) : (forall s, P s -> P (f s)) -> sf_keeps P (puts f).
Proof. intros H s x s' [= _ <-]. apply H. Qed.

Lemma sf_keeps_fault {S A} (P : S -> Prop) : sf_keeps P (@fault S A).
Proof. done. Qed.

#[export] Hint Resolve sf_keeps_ret sf_keeps_asks sf_keeps_reads sf_keeps_fault : sf_keeps.

(** The same, with another predicate on what [m] leaves. *)
Definition sf_leaves {S A} (P : S -> Prop) (m : sf S A) (Q : A -> S -> Prop) : Prop :=
  forall s x s', m s = Some (x, s') -> P s -> Q x s'.

Lemma sf_leaves_bind {S A B} (P : S -> Prop) (m : sf S A) R (k : A -> sf S B) Q :
  sf_leaves P m R -> (forall x, sf_leaves (R x) (k x) Q) -> sf_leaves P (x ← m; k x) Q.
Proof.
  intros Hm Hk s y s' H HP. unfold mbind, sf_bind in H. destruct (m s) as [[x s1]|] eqn:E; [|done].
  exact (Hk x s1 y s' H (Hm s x s1 E HP)).
Qed.

Lemma sf_leaves_ret {S A} (P : S -> Prop) (x : A) (Q : A -> S -> Prop) : (forall s, P s -> Q x s) -> sf_leaves P (mret x) Q.
Proof. intros H s y s' [= <- <-]. apply H. Qed.

Lemma sf_leaves_asks {S A B} (P : S -> Prop) (f : S -> A) (k : A -> sf S B) Q :
  (forall x, sf_leaves P (k x) Q) -> sf_leaves P (x ← asks f; k x) Q.
Proof. intros H s y s' E. exact (H (f s) s y s' E). Qed.

Lemma sf_leaves_puts {S B} (P P' : S -> Prop) (f : S -> S) (k : unit -> sf S B) Q :
  (forall s, P s -> P' (f s)) -> sf_leaves P' (k tt) Q -> sf_leaves P (x ← puts f; k x) Q.
Proof. intros Hf H s y s' E HP. exact (H (f s) y s' E (Hf s HP)). Qed.

Lemma sf_leaves_keeps {S A} (P : S -> Prop) (m : sf S A) (Q : A -> S -> Prop) :
  sf_keeps P m -> (forall x s, P s -> Q x s) -> sf_leaves P m Q.
Proof. intros H HQ s x s' E HP. apply HQ. by apply (H s x s' E). Qed.

(** ** Tactics *)

(** Prove a [sf_keeps] goal by the structure of the program. *)
Ltac sf_keep :=
  repeat match goal with
  | |- sf_keeps _ (mbind _ _) => apply sf_keeps_bind; [|intros ?]
  | |- sf_keeps _ (match ?x with _ => _ end) => destruct x
  | |- sf_keeps _ _ => solve [eauto with sf_keeps]
  end.

(** Prove a [keeps] goal by the structure of the program. *)
Ltac keep :=
  repeat match goal with
  | |- keeps _ (mbind _ _) => apply keeps_bind; [|intros ?]
  | |- keeps _ (mret _) => apply keeps_ret
  | |- keeps _ (gets _) => apply keeps_gets
  | |- keeps _ (match ?x with _ => _ end) => destruct x
  | |- keeps _ _ => solve [eauto with keeps | intros ?; reflexivity]
  end.

(** Turn the boolean tests of the source into propositions. *)
Ltac bool_props :=
  repeat match goal with
  | H : (_ && _)%bool = true |- _ => apply andb_true_iff in H as [? ?]
  | H : (_ || _)%bool = false |- _ => apply orb_false_iff in H as [? ?]
  | H : negb _ = true |- _ => apply negb_true_iff in H
  | H : negb _ = false |- _ => apply negb_false_iff in H
  | H : (_ =? _) = true |- _ => apply Z.eqb_eq in H
  | H : (_ =? _) = false |- _ => apply Z.eqb_neq in H
  | H : (_ <? _) = true |- _ => apply Z.ltb_lt in H
  | H : (_ <? _) = false |- _ => apply Z.ltb_ge in H
  | H : (_ <=? _) = true |- _ => apply Z.leb_le in H
  | H : (_ <=? _) = false |- _ => apply Z.leb_gt in H
  end.

(** An explicit list of bytes. *)
Ltac byte_list :=
  repeat match goal with
  | |- Forall _ [] => apply Forall_nil_2
  | |- Forall _ (_ :: _) => apply Forall_cons; split; [first [assumption | unfold fits; lia]|]
  end.

(** Case analysis on the tests and matches of an unfolded handler. *)
Ltac cases :=
  repeat (case_match; simplify_eq/=; try done).
