(* ===== verification/Pack.v ===== *)
(** * Byte packing, serial comparisons and the pseudo random generator

    Models [util/pack.c] (module [Pack]), [util/util.c] with the comparison
    macros of [util/util.h] (module [Util]) and [util/random.c] (module
    [Random]). *)

From S2P Require Import Prelude.

(** ** [util/pack.c] *)
Module Pack.

(** The loop of [Pack_unpackLe]: [p] starts one past the last byte and walks
    down, the accumulator is a [uint32_t]. *)
Fixpoint unpack_loop (bs : list Z) (num_bytes : nat) (result : Z) : Z :=
  match num_bytes with
  | O => result
  | S k => unpack_loop bs k (Z.lor (u32 (Z.shiftl result 8)) (bs !!! k))
  end.

Definition Pack_unpackLe (bs : list Z) (num_bytes : nat) : Z :=
  unpack_loop bs num_bytes 0.

(** The bytes stored by [Pack_packLe], first one first. *)
Fixpoint Pack_packLe (value : Z) (num_bytes : nat) : list Z :=
  match num_bytes with
  | O => []
  | S k => u8 (Z.land value 255) :: Pack_packLe (Z.shiftr value 8) k
  end.

Lemma Pack_packLe_le_put v n : Pack_packLe v n = le_put n v.
Proof.
  revert v. induction n as [|n IH]; intros v; [done|].
  cbn [Pack_packLe le_put]. rewrite IH, Z.shiftr_div_pow2 by lia. f_equal.
  change 255 with (Z.ones 8). rewrite <- uwrap_land by lia. by apply uwrap_idem.
Qed.

Lemma unpack_step acc b : is_u8 b -> Z.lor (u32 (Z.shiftl acc 8)) b = u32 (256 * acc + b).
Proof.
  intros Hb. replace (256 * acc + b) with (acc * 2 ^ 8 + b) by lia.
  rewrite <- lor_shiftl_add by done.
  apply Z.bits_inj'. intros i Hi. rewrite Z.lor_spec, !uwrap_testbit, Z.lor_spec by lia.
  destruct (Z.ltb_spec i 32); [done|]. by rewrite (fits_testbit 8 b i) by (done || lia).
Qed.

Lemma unpack_loop_spec bs n acc :
  bytes bs -> (n <= length bs)%nat ->
  unpack_loop bs n (u32 acc) = u32 (acc * 2 ^ (8 * Z.of_nat n) + le_get (take n bs)).
Proof.
  intros Hbs. revert acc. induction n as [|n IH]; intros acc Hn.
  { cbn [unpack_loop take le_get]. rewrite Nat2Z.inj_0, Z.mul_0_r, Z.pow_0_r, take_0. cbn [le_get]. f_equal. lia. }
  destruct (lookup_lt_is_Some_2 bs n) as [b Hb]; [lia|].
  cbn [unpack_loop]. rewrite (list_lookup_total_correct _ _ _ Hb), unpack_step
    by (by eapply Forall_lookup_1 in Hbs).
  replace (u32 (256 * u32 acc + b)) with (u32 (256 * acc + b)).
  2:{ unfold uwrap. rewrite <- (Zplus_mod_idemp_l (256 * (acc mod 2 ^ 32))).
      by rewrite Zmult_mod_idemp_r, Zplus_mod_idemp_l. }
  rewrite IH by lia. f_equal. erewrite take_S_r by done.
  rewrite le_get_app, length_take, Nat.min_l by lia. cbn [le_get].
  replace (8 * Z.of_nat (S n)) with (8 + 8 * Z.of_nat n) by lia.
  rewrite Z.pow_add_r by lia. lia.
Qed.

Lemma Pack_unpackLe_spec bs n :
  bytes bs -> (n <= length bs)%nat -> Pack_unpackLe bs n = u32 (le_get (take n bs)).
Proof.
  intros. unfold Pack_unpackLe. change 0 with (u32 0) at 1.
  by rewrite unpack_loop_spec.
Qed.

Lemma Pack_roundtrip v n rest :
  (n <= 4)%nat -> bytes rest ->
  Pack_unpackLe (Pack_packLe v n ++ rest) n = uwrap (8 * Z.of_nat n) v.
Proof.
  intros Hn Hr. rewrite Pack_packLe_le_put, Pack_unpackLe_spec.
  - rewrite take_app_le, take_ge by (rewrite length_le_put; lia).
    rewrite le_get_put. apply uwrap_small, (fits_weaken (8 * Z.of_nat n)); [lia|].
    apply uwrap_range. lia.
  - apply Forall_app. split; [apply le_put_bytes|done].
  - rewrite length_app, length_le_put. lia.
Qed.

End Pack.

(** ** [util/util.c] *)
Module Util.

Definition isLtUint32 (a b : Z) : bool := s32 (u32 (a - b)) <? 0.
Definition isGtOrEqUint32 (a b : Z) : bool := negb (isLtUint32 a b).
Definition isSmallest (a b c : Z) : bool := isLtUint32 a b && isLtUint32 b c.
Definition inBetween (a b c : Z) : bool := isGtOrEqUint32 b a && isGtOrEqUint32 c b.

(** [for (count = 0; value; value >>= 1) count += (value & 1);] on a [uint8_t]:
    eight rounds clear the value. *)
Fixpoint bit_count_loop (fuel : nat) (value count : Z) : Z :=
  match fuel with
  | O => count
  | S fuel =>
      if value =? 0 then count
      else bit_count_loop fuel (Z.shiftr value 1) (u8 (count + Z.land value 1))
  end.

Definition bitCountU8 (value : Z) : Z := bit_count_loop 8 value 0.

Lemma isLtUint32_spec a b : isLtUint32 a b = (2 ^ 31 <=? u32 (a - b)).
Proof.
  unfold isLtUint32, s32. rewrite uwrap_idem by lia.
  pose proof (u32_range (a - b)).
  destruct (Z.ltb_spec (u32 (a - b)) (2 ^ 31)).
  - destruct (Z.leb_spec (2 ^ 31) (u32 (a - b))); [lia|]. apply Z.ltb_ge. lia.
  - destruct (Z.leb_spec (2 ^ 31) (u32 (a - b))); [|lia]. apply Z.ltb_lt. lia.
Qed.

(** On time stamps less than half the range apart the comparison is the
    comparison of the unwrapped times. *)
Lemma isLtUint32_window t a b :
  0 <= a < 2 ^ 31 -> 0 <= b < 2 ^ 31 ->
  isLtUint32 (u32 (t + a)) (u32 (t + b)) = (a <? b).
Proof.
  intros Ha Hb. rewrite isLtUint32_spec, uwrap_sub_l, uwrap_sub_r.
  replace (t + a - (t + b)) with (a - b) by lia.
  destruct (Z.ltb_spec a b).
  - apply Z.leb_le. rewrite <- (uwrap_add_period 32 (a - b) 1) by lia.
    rewrite uwrap_small; unfold fits; lia.
  - apply Z.leb_gt. rewrite uwrap_small; unfold fits; lia.
Qed.

Lemma isLtUint32_irrefl a : isLtUint32 a a = false.
Proof. by rewrite isLtUint32_spec, Z.sub_diag. Qed.

(** [isSmallest] asks for [a < b < c]: it does not hold of every [a] that is
    smaller than both others. *)
Lemma isSmallest_order : isSmallest 1 3 2 = false /\ isSmallest 1 2 3 = true.
Proof. by vm_compute. Qed.

Lemma bitCountU8_spec v :
  is_u8 v ->
  bitCountU8 v = foldr (fun i n => n + Z.b2z (Z.testbit v (Z.of_nat i))) 0 (seq 0 8).
Proof.
  intros Hv.
  assert (Hall : forallb (fun n => bitCountU8 (Z.of_nat n) =?
     foldr (fun i m => m + Z.b2z (Z.testbit (Z.of_nat n) (Z.of_nat i))) 0 (seq 0 8))
     (seq 0 256) = true) by by vm_compute.
  rewrite forallb_forall in Hall. specialize (Hall (Z.to_nat v)).
  unfold fits in Hv. rewrite Z2Nat.id in Hall by lia. apply Z.eqb_eq, Hall.
  apply in_seq. lia.
Qed.

End Util.

(** ** [util/random.c]

    [lib_time->getTimestampHp] belongs to the stack: its successive readings
    are an argument. *)
Module Random.

Record state := { m_seed : Z; m_value : Z }.

Definition REMOVE_ZERO (seed : Z) : Z := Z.lxor 1 seed.

Definition Random_init (seed : Z) (s : state) : state :=
  {| m_seed := REMOVE_ZERO seed; m_value := m_value s |}.

Definition random_update (hp : Z) (s : state) : state :=
  let seed := u32 (1664525 * m_seed s + 1013904223) in
  {| m_seed := seed; m_value := u32 (hp + seed) |}.

Definition Random_get32 (hp : Z) (s : state) : Z * state :=
  let s := random_update hp s in (m_value s, s).

(** [byte_array[3]] and [word_array[1]] of the little-endian union. *)
Definition Random_get8 (hp : Z) (s : state) : Z * state :=
  let s := random_update hp s in (nth 3 (le_put 4 (m_value s)) 0, s).

Definition Random_get16 (hp : Z) (s : state) : Z * state :=
  let s := random_update hp s in (field 2 2 (le_put 4 (m_value s)), s).

(** The macro maps the seed 0 to 1, and the seed 1 to 0. *)
Lemma Random_init_zero seed s : m_seed (Random_init seed s) = 0 <-> seed = 1.
Proof.
  cbn. unfold REMOVE_ZERO. split; [|by intros ->].
  intros H. by apply Z.lxor_eq in H.
Qed.

(** The narrow generators return the high bits of the wide one. *)
Lemma Random_narrow hp s :
  (Random_get8 hp s).1 = (Random_get32 hp s).1 / 2 ^ 24 /\
  (Random_get16 hp s).1 = (Random_get32 hp s).1 / 2 ^ 16 /\
  (Random_get8 hp s).2 = (Random_get32 hp s).2 /\
  (Random_get16 hp s).2 = (Random_get32 hp s).2.
Proof.
  unfold Random_get8, Random_get16, Random_get32, field, slice. cbn [fst snd].
  split_and!; [..|done|done].
  all: cbn [m_value random_update]; set (x := u32 _).
  all: assert (0 <= x < 4294967296) by apply u32_range.
  all: cbn [le_put nth take drop le_get]; unfold uwrap.
  all: Z.div_mod_to_equations; lia.
Qed.

End Random.
