(* ===== verification/Crc.v ===== *)
(** * CRC-16-CCITT

    Models [util/crc.c]: the table driven routines that the build selects
    ([CRC_CCITT_FAST_LUT]) and the shift based ones kept as alternative
    ([CRC_CCITT_LEGACY]).  Both are related to the bit-serial division by the
    polynomial 0x1021, the reference definition. *)

From S2P Require Import Prelude.

Module Lut.

Definition crc_ccitt_lut : list Z :=
  [0x0000; 0x1021; 0x2042; 0x3063; 0x4084; 0x50a5; 0x60c6; 0x70e7;
   0x8108; 0x9129; 0xa14a; 0xb16b; 0xc18c; 0xd1ad; 0xe1ce; 0xf1ef;
   0x1231; 0x0210; 0x3273; 0x2252; 0x52b5; 0x4294; 0x72f7; 0x62d6;
   0x9339; 0x8318; 0xb37b; 0xa35a; 0xd3bd; 0xc39c; 0xf3ff; 0xe3de;
   0x2462; 0x3443; 0x0420; 0x1401; 0x64e6; 0x74c7; 0x44a4; 0x5485;
   0xa56a; 0xb54b; 0x8528; 0x9509; 0xe5ee; 0xf5cf; 0xc5ac; 0xd58d;
   0x3653; 0x2672; 0x1611; 0x0630; 0x76d7; 0x66f6; 0x5695; 0x46b4;
   0xb75b; 0xa77a; 0x9719; 0x8738; 0xf7df; 0xe7fe; 0xd79d; 0xc7bc;
   0x48c4; 0x58e5; 0x6886; 0x78a7; 0x0840; 0x1861; 0x2802; 0x3823;
   0xc9cc; 0xd9ed; 0xe98e; 0xf9af; 0x8948; 0x9969; 0xa90a; 0xb92b;
   0x5af5; 0x4ad4; 0x7ab7; 0x6a96; 0x1a71; 0x0a50; 0x3a33; 0x2a12;
   0xdbfd; 0xcbdc; 0xfbbf; 0xeb9e; 0x9b79; 0x8b58; 0xbb3b; 0xab1a;
   0x6ca6; 0x7c87; 0x4ce4; 0x5cc5; 0x2c22; 0x3c03; 0x0c60; 0x1c41;
   0xedae; 0xfd8f; 0xcdec; 0xddcd; 0xad2a; 0xbd0b; 0x8d68; 0x9d49;
   0x7e97; 0x6eb6; 0x5ed5; 0x4ef4; 0x3e13; 0x2e32; 0x1e51; 0x0e70;
   0xff9f; 0xefbe; 0xdfdd; 0xcffc; 0xbf1b; 0xaf3a; 0x9f59; 0x8f78;
   0x9188; 0x81a9; 0xb1ca; 0xa1eb; 0xd10c; 0xc12d; 0xf14e; 0xe16f;
   0x1080; 0x00a1; 0x30c2; 0x20e3; 0x5004; 0x4025; 0x7046; 0x6067;
   0x83b9; 0x9398; 0xa3fb; 0xb3da; 0xc33d; 0xd31c; 0xe37f; 0xf35e;
   0x02b1; 0x1290; 0x22f3; 0x32d2; 0x4235; 0x5214; 0x6277; 0x7256;
   0xb5ea; 0xa5cb; 0x95a8; 0x8589; 0xf56e; 0xe54f; 0xd52c; 0xc50d;
   0x34e2; 0x24c3; 0x14a0; 0x0481; 0x7466; 0x6447; 0x5424; 0x4405;
   0xa7db; 0xb7fa; 0x8799; 0x97b8; 0xe75f; 0xf77e; 0xc71d; 0xd73c;
   0x26d3; 0x36f2; 0x0691; 0x16b0; 0x6657; 0x7676; 0x4615; 0x5634;
   0xd94c; 0xc96d; 0xf90e; 0xe92f; 0x99c8; 0x89e9; 0xb98a; 0xa9ab;
   0x5844; 0x4865; 0x7806; 0x6827; 0x18c0; 0x08e1; 0x3882; 0x28a3;
   0xcb7d; 0xdb5c; 0xeb3f; 0xfb1e; 0x8bf9; 0x9bd8; 0xabbb; 0xbb9a;
   0x4a75; 0x5a54; 0x6a37; 0x7a16; 0x0af1; 0x1ad0; 0x2ab3; 0x3a92;
   0xfd2e; 0xed0f; 0xdd6c; 0xcd4d; 0xbdaa; 0xad8b; 0x9de8; 0x8dc9;
   0x7c26; 0x6c07; 0x5c64; 0x4c45; 0x3ca2; 0x2c83; 0x1ce0; 0x0cc1;
   0xef1f; 0xff3e; 0xcf5d; 0xdf7c; 0xaf9b; 0xbfba; 0x8fd9; 0x9ff8;
   0x6e17; 0x7e36; 0x4e55; 0x5e74; 0x2e93; 0x3eb2; 0x0ed1; 0x1ef0].

Definition Crc_initValue : Z := 65535.

(** [index = byte ^ (crc >> 8); crc = lut[index] ^ (crc << 8);] *)
Definition Crc_addByte (crc byte : Z) : Z :=
  let index := Z.lxor byte (Z.shiftr crc 8) in
  u16 (Z.lxor (crc_ccitt_lut !!! Z.to_nat index) (Z.shiftl crc 8)).

(** The loop body repeats the statements of [Crc_addByte] with a [uint8_t]
    index. *)
Definition crc_loop_body (crc byte : Z) : Z :=
  let index := u8 (Z.lxor byte (Z.shiftr crc 8)) in
  u16 (Z.lxor (crc_ccitt_lut !!! Z.to_nat index) (Z.shiftl crc 8)).

Definition Crc_fromBuffer (buf : list Z) : Z := foldl crc_loop_body Crc_initValue buf.

Definition crc_loop_body32 (crc val : Z) : Z :=
  let crc := crc_loop_body crc (Z.land val 255) in
  let crc := crc_loop_body crc (Z.land (Z.shiftr val 8) 255) in
  let crc := crc_loop_body crc (Z.land (Z.shiftr val 16) 255) in
  crc_loop_body crc (Z.land (Z.shiftr val 24) 255).

Definition Crc_fromBuffer32 (buf : list Z) : Z := foldl crc_loop_body32 Crc_initValue buf.

End Lut.

Module Legacy.

Definition Crc_addByte (crc byte : Z) : Z :=
  let crc := u16 (Z.lor (u8 (Z.shiftr crc 8)) (Z.shiftl crc 8)) in
  let crc := u16 (Z.lxor crc byte) in
  let crc := u16 (Z.lxor crc (Z.shiftr (u8 (Z.land crc 255)) 4)) in
  let crc := u16 (Z.lxor crc (Z.shiftl (Z.shiftl crc 8) 4)) in
  u16 (Z.lxor crc (Z.shiftl (Z.shiftl (Z.land crc 255) 4) 1)).

Definition Crc_fromBuffer (buf : list Z) : Z := foldl Crc_addByte 65535 buf.

Definition crc_loop_body32 (crc val : Z) : Z :=
  let crc := Crc_addByte crc (Z.land val 255) in
  let crc := Crc_addByte crc (Z.land (Z.shiftr val 8) 255) in
  let crc := Crc_addByte crc (Z.land (Z.shiftr val 16) 255) in
  Crc_addByte crc (Z.land (Z.shiftr val 24) 255).

Definition Crc_fromBuffer32 (buf : list Z) : Z := foldl crc_loop_body32 65535 buf.

End Legacy.

(** ** Reference: bit-serial division *)
Module Spec.

(** One bit: shift left, subtract the polynomial when a one drops out. *)
Definition crc_bit (crc : Z) : Z :=
  u16 (Z.lxor (2 * crc) (if Z.testbit crc 15 then 4129 else 0)).

Definition serial : Z -> Z := Nat.iter 8 crc_bit.

Definition crc_byte (crc byte : Z) : Z := serial (Z.lxor crc (Z.shiftl byte 8)).

Definition crc (buf : list Z) : Z := foldl crc_byte 65535 buf.

End Spec.

(** ** Linearity over GF(2)

    A bit step is additive for [Z.lxor], so that the 8-step run splits into the
    part of the high byte, tabulated by the table, and the part of the low
    byte, which is only shifted. *)

Lemma lxor_swap a b c d :
  Z.lxor (Z.lxor a b) (Z.lxor c d) = Z.lxor (Z.lxor a c) (Z.lxor b d).
Proof. apply Z.bits_inj'. intros n Hn. rewrite !Z.lxor_spec. btauto. Qed.

Lemma uwrap_lxor w x y : 0 <= w -> uwrap w (Z.lxor x y) = Z.lxor (uwrap w x) (uwrap w y).
Proof.
  intros. apply Z.bits_inj'. intros n Hn.
  rewrite Z.lxor_spec, !uwrap_testbit, Z.lxor_spec by done. btauto.
Qed.

Lemma land_lxor_l x y m : Z.land (Z.lxor x y) m = Z.lxor (Z.land x m) (Z.land y m).
Proof.
  apply Z.bits_inj'. intros n Hn. rewrite Z.lxor_spec, !Z.land_spec, Z.lxor_spec. btauto.
Qed.

Definition linear (f : Z -> Z) : Prop := forall x y, f (Z.lxor x y) = Z.lxor (f x) (f y).

Lemma linear_iter n f : linear f -> linear (Nat.iter n f).
Proof.
  intros Hf. induction n as [|n IH]; intros x y; [done|]. cbn [Nat.iter nat_rect].
  change (nat_rect _ ?x _ n) with (Nat.iter n f x). by rewrite IH, Hf.
Qed.

Lemma linear_comp f g : linear f -> linear g -> linear (fun x => f (g x)).
Proof. intros Hf Hg x y. by rewrite Hg, Hf. Qed.

Lemma linear_lxor_u16 f : linear f -> linear (fun x => u16 (Z.lxor x (f x))).
Proof. intros Hf x y. by rewrite Hf, lxor_swap, uwrap_lxor. Qed.

Lemma linear_crc_bit : linear Spec.crc_bit.
Proof.
  intros x y. unfold Spec.crc_bit. rewrite <- uwrap_lxor, <- lxor_swap by done. f_equal.
  rewrite <- !(Z.mul_comm _ 2), <- !(Z.shiftl_mul_pow2 _ 1) by done.
  rewrite <- Z.shiftl_lxor, Z.lxor_spec. f_equal.
  by destruct (Z.testbit x 15), (Z.testbit y 15).
Qed.

Import Spec (serial).

Lemma linear_serial : linear serial.
Proof. apply linear_iter, linear_crc_bit. Qed.

(** The three steps that follow the byte swap in the legacy routine. *)
Definition legacy1 (x : Z) : Z := u16 (Z.lxor x (Z.shiftr (u8 (Z.land x 255)) 4)).
Definition legacy2 (x : Z) : Z := u16 (Z.lxor x (Z.shiftl (Z.shiftl x 8) 4)).
Definition legacy3 (x : Z) : Z := u16 (Z.lxor x (Z.shiftl (Z.shiftl (Z.land x 255) 4) 1)).
Definition legacy_tail (x : Z) : Z := legacy3 (legacy2 (legacy1 x)).

Lemma linear_legacy_tail : linear legacy_tail.
Proof.
  apply (linear_comp legacy3); [|apply (linear_comp legacy2)].
  all: apply linear_lxor_u16; intros x y.
  - by rewrite land_lxor_l, !Z.shiftl_lxor.
  - by rewrite !Z.shiftl_lxor.
  - by rewrite land_lxor_l, uwrap_lxor, Z.shiftr_lxor.
Qed.

(** ** Splitting the register *)

Definition hi8 (crc : Z) : Z := Z.shiftr crc 8.
Definition lo8 (crc : Z) : Z := u8 crc.

Lemma hi8_range crc : is_u16 crc -> is_u8 (hi8 crc).
Proof.
  unfold fits, hi8. intros. rewrite Z.shiftr_div_pow2 by lia.
  split; [apply Z.div_pos; lia|apply Z.div_lt_upper_bound; lia].
Qed.

Lemma index_range crc byte : is_u16 crc -> is_u8 byte -> is_u8 (Z.lxor byte (hi8 crc)).
Proof. intros. by apply fits_lxor, hi8_range. Qed.

Lemma lxor_high crc byte :
  Z.lxor crc (Z.shiftl byte 8) = Z.lxor (Z.shiftl (Z.lxor byte (hi8 crc)) 8) (lo8 crc).
Proof.
  unfold hi8, lo8. apply Z.bits_inj'. intros n Hn.
  rewrite !Z.lxor_spec, uwrap_testbit by lia. destruct (Z.ltb_spec n 8).
  - rewrite !Z.shiftl_spec_low by lia. btauto.
  - rewrite !Z.shiftl_spec, Z.lxor_spec, Z.shiftr_spec by lia.
    replace (n - 8 + 8) with n by lia. btauto.
Qed.

Lemma legacy_swap crc byte :
  is_u16 crc -> is_u8 byte ->
  u16 (Z.lxor (u16 (Z.lor (u8 (Z.shiftr crc 8)) (Z.shiftl crc 8))) byte)
  = Z.lxor (Z.lxor byte (hi8 crc)) (Z.shiftl (lo8 crc) 8).
Proof.
  intros Hc Hb. unfold lo8, hi8. apply Z.bits_inj'. intros n Hn.
  rewrite !Z.lxor_spec, uwrap_testbit, Z.lxor_spec, uwrap_testbit, Z.lor_spec by lia.
  rewrite (uwrap_testbit 8), !Z.shiftr_spec by lia. destruct (Z.ltb_spec n 8).
  - rewrite !Z.shiftl_spec_low by lia. destruct (Z.ltb_spec n 16); [btauto|lia].
  - rewrite !Z.shiftl_spec, uwrap_testbit by lia.
    rewrite (fits_testbit 8 byte n), (fits_testbit 16 crc (n + 8)) by (done || lia).
    destruct (Z.ltb_spec n 16), (Z.ltb_spec (n - 8) 8); try lia; btauto.
Qed.

(** ** The finite checks: 256 cases each *)

Abbreviation lut i := (Lut.crc_ccitt_lut !!! Z.to_nat i).

Lemma check_tables : all_bytes (fun i =>
  (serial (Z.shiftl i 8) =? lut i) && (serial i =? Z.shiftl i 8) &&
  (legacy_tail i =? lut i) && (legacy_tail (Z.shiftl i 8) =? Z.shiftl i 8) &&
  (0 <=? lut i) && (lut i <? 65536)) = true.
Proof. vm_compute. reflexivity. Qed.

Lemma tables i :
  is_u8 i ->
  serial (Z.shiftl i 8) = lut i /\ serial i = Z.shiftl i 8 /\
  legacy_tail i = lut i /\ legacy_tail (Z.shiftl i 8) = Z.shiftl i 8 /\ is_u16 (lut i).
Proof.
  intros Hi. pose proof (all_bytes_spec _ i check_tables Hi) as H. cbv beta in H.
  bool_props. unfold fits. split_and!; done || lia.
Qed.

Lemma lut_serial i : is_u8 i -> serial (Z.shiftl i 8) = lut i.
Proof. apply tables. Qed.

Lemma serial_low lo : is_u8 lo -> serial lo = Z.shiftl lo 8.
Proof. apply tables. Qed.

Lemma lut_legacy i : is_u8 i -> legacy_tail i = lut i.
Proof. apply tables. Qed.

Lemma legacy_high lo : is_u8 lo -> legacy_tail (Z.shiftl lo 8) = Z.shiftl lo 8.
Proof. apply tables. Qed.

Lemma lut_fits i : is_u8 i -> is_u16 (lut i).
Proof. apply tables. Qed.

(** ** The routines agree byte by byte *)

Lemma lut_addByte crc byte :
  is_u16 crc -> is_u8 byte ->
  Lut.Crc_addByte crc byte = Z.lxor (lut (Z.lxor byte (hi8 crc))) (Z.shiftl (lo8 crc) 8).
Proof.
  intros Hc Hb. unfold Lut.Crc_addByte. fold (hi8 crc).
  pose proof (lut_fits _ (index_range crc byte Hc Hb)) as Ht. revert Ht.
  generalize (lut (Z.lxor byte (hi8 crc))). intros t Ht. unfold lo8.
  apply Z.bits_inj'. intros n Hn.
  rewrite uwrap_testbit, !Z.lxor_spec by lia. destruct (Z.ltb_spec n 8).
  - rewrite !Z.shiftl_spec_low by lia. destruct (Z.ltb_spec n 16); [btauto|lia].
  - rewrite !Z.shiftl_spec, uwrap_testbit by lia.
    destruct (Z.ltb_spec n 16), (Z.ltb_spec (n - 8) 8); try lia; [btauto|].
    rewrite (fits_testbit 16 t n) by (done || lia). btauto.
Qed.

Lemma crc_byte_serial crc byte :
  Spec.crc_byte crc byte = serial (Z.lxor crc (Z.shiftl byte 8)).
Proof. reflexivity. Qed.

Lemma addByte_serial crc byte :
  is_u16 crc -> is_u8 byte -> Lut.Crc_addByte crc byte = Spec.crc_byte crc byte.
Proof.
  intros Hc Hb. rewrite lut_addByte, crc_byte_serial by done.
  rewrite (lxor_high crc byte), linear_serial, lut_serial by (by apply index_range).
  by rewrite serial_low by (by apply uwrap_range).
Qed.

Lemma Legacy_addByte_tail crc byte :
  Legacy.Crc_addByte crc byte = legacy_tail (u16 (Z.lxor
    (u16 (Z.lor (u8 (Z.shiftr crc 8)) (Z.shiftl crc 8))) byte)).
Proof. cbv [Legacy.Crc_addByte legacy_tail legacy1 legacy2 legacy3]. reflexivity. Qed.

Lemma addByte_legacy crc byte :
  is_u16 crc -> is_u8 byte -> Legacy.Crc_addByte crc byte = Lut.Crc_addByte crc byte.
Proof.
  intros Hc Hb. rewrite lut_addByte by done.
  rewrite Legacy_addByte_tail, legacy_swap by done.
  rewrite linear_legacy_tail, lut_legacy by (by apply index_range).
  by rewrite legacy_high by (by apply uwrap_range).
Qed.

Lemma addByte_range crc byte : is_u16 (Lut.Crc_addByte crc byte).
Proof. by apply uwrap_range. Qed.

Lemma loop_body_addByte crc byte :
  is_u16 crc -> is_u8 byte -> Lut.crc_loop_body crc byte = Lut.Crc_addByte crc byte.
Proof.
  intros Hc Hb. unfold Lut.crc_loop_body, Lut.Crc_addByte.
  rewrite (uwrap_small 8); [done|]. by apply index_range.
Qed.

#[export] Hint Resolve addByte_range hi8_range index_range : words.

(** Folding equal steps over bytes, starting from a 16-bit register. *)
Lemma fold_crc (f g : Z -> Z -> Z) buf crc :
  (forall c b, is_u16 c -> is_u8 b -> f c b = g c b) ->
  (forall c b, is_u16 (g c b)) ->
  is_u16 crc -> bytes buf -> foldl f crc buf = foldl g crc buf.
Proof.
  intros Hfg Hg Hc Hbuf. revert crc Hc.
  induction Hbuf as [|b buf Hb _ IH]; intros crc Hc; cbn [foldl]; [done|].
  rewrite Hfg by done. by apply IH.
Qed.

Lemma crc_init_range : is_u16 65535.
Proof. by vm_compute. Qed.

Lemma fromBuffer_addByte buf :
  bytes buf -> Lut.Crc_fromBuffer buf = foldl Lut.Crc_addByte 65535 buf.
Proof.
  intros. apply fold_crc; auto using loop_body_addByte, addByte_range, crc_init_range.
Qed.

Lemma foldl_addByte_range crc buf :
  is_u16 crc -> is_u16 (foldl Lut.Crc_addByte crc buf).
Proof.
  revert crc. induction buf as [|b buf IH]; intros crc Hc; [done|].
  cbn [foldl]. apply IH, addByte_range.
Qed.

(** ** Injectivity: a register can be run backwards *)

Lemma lxor_cancel_l a b c : Z.lxor a b = Z.lxor a c -> b = c.
Proof.
  intros H. apply (f_equal (Z.lxor a)) in H.
  by rewrite <- !Z.lxor_assoc, Z.lxor_nilpotent, !Z.lxor_0_l in H.
Qed.

Lemma crc_bit_range x : is_u16 (Spec.crc_bit x).
Proof. by apply uwrap_range. Qed.

Lemma crc_bit_kernel x : is_u16 x -> Spec.crc_bit x = 0 -> x = 0.
Proof.
  intros Hx Hz. assert (Hb : forall n, 0 <= n < 15 -> Z.testbit (Spec.crc_bit x) (n + 1)
    = xorb (Z.testbit x n) (Z.testbit x 15 && Z.testbit 4129 (n + 1))).
  { intros n Hn. unfold Spec.crc_bit. rewrite uwrap_testbit, Z.lxor_spec by lia.
    rewrite Z.add_1_r, Z.double_bits_succ. destruct (Z.ltb_spec (Z.succ n) 16); [|lia].
    by destruct (Z.testbit x 15); rewrite ?Z.bits_0. }
  assert (H15 : Z.testbit x 15 = false).
  { assert (H0 : Z.testbit (Spec.crc_bit x) 0 = Z.testbit x 15).
    { unfold Spec.crc_bit. rewrite uwrap_testbit, Z.lxor_spec, Z.testbit_even_0 by lia.
      by destruct (Z.testbit x 15). }
    by rewrite <- H0, Hz, Z.bits_0. }
  apply Z.bits_inj'. intros n Hn. rewrite Z.bits_0.
  destruct (Z.ltb_spec n 15) as [|Hge].
  - specialize (Hb n ltac:(lia)). rewrite Hz, H15, Z.bits_0, xorb_false_r in Hb. done.
  - destruct (Z.eq_dec n 15) as [->|]; [done|]. apply (fits_testbit 16); [done..|lia].
Qed.

Lemma crc_bit_inj x y :
  is_u16 x -> is_u16 y -> Spec.crc_bit x = Spec.crc_bit y -> x = y.
Proof.
  intros Hx Hy E. apply Z.lxor_eq, crc_bit_kernel; [by apply fits_lxor|].
  by rewrite linear_crc_bit, E, Z.lxor_nilpotent.
Qed.

Lemma serial_inj x y : is_u16 x -> is_u16 y -> serial x = serial y -> x = y.
Proof.
  unfold serial. intros Hx Hy. generalize 8%nat. intros k.
  cut (is_u16 (Nat.iter k Spec.crc_bit x) /\ is_u16 (Nat.iter k Spec.crc_bit y) /\
    (Nat.iter k Spec.crc_bit x = Nat.iter k Spec.crc_bit y -> x = y)); [tauto|].
  induction k as [|k (IHx & IHy & IH)]; [done|].
  rewrite !Nat.iter_succ. split_and!; [apply crc_bit_range..|].
  intros E. by apply IH, crc_bit_inj.
Qed.

Lemma shifted_range b : is_u8 b -> is_u16 (Z.shiftl b 8).
Proof. unfold fits. rewrite Z.shiftl_mul_pow2 by lia. lia. Qed.

Lemma addByte_inj crc crc' b b' :
  is_u16 crc -> is_u16 crc' -> is_u8 b -> is_u8 b' ->
  Lut.Crc_addByte crc b = Lut.Crc_addByte crc' b' ->
  Z.lxor crc (Z.shiftl b 8) = Z.lxor crc' (Z.shiftl b' 8).
Proof.
  intros Hc Hc' Hb Hb' E. rewrite !addByte_serial, !crc_byte_serial in E by done.
  apply serial_inj in E; [done|apply fits_lxor; auto using shifted_range..]; done.
Qed.

Lemma addByte_inj_crc crc crc' b :
  is_u16 crc -> is_u16 crc' -> is_u8 b ->
  Lut.Crc_addByte crc b = Lut.Crc_addByte crc' b -> crc = crc'.
Proof.
  intros Hc Hc' Hb E. apply addByte_inj in E; try done.
  rewrite !(Z.lxor_comm _ (Z.shiftl b 8)) in E. by apply lxor_cancel_l in E.
Qed.

Lemma addByte_inj_byte crc b b' :
  is_u16 crc -> is_u8 b -> is_u8 b' ->
  Lut.Crc_addByte crc b = Lut.Crc_addByte crc b' -> b = b'.
Proof.
  intros Hc Hb Hb' E. apply addByte_inj, lxor_cancel_l in E; try done.
  apply (f_equal (fun x => Z.shiftr x 8)) in E.
  by rewrite !Z.shiftr_shiftl_l, !Z.shiftl_0_r in E by lia.
Qed.

Lemma foldl_addByte_inj crc crc' buf :
  is_u16 crc -> is_u16 crc' -> bytes buf ->
  foldl Lut.Crc_addByte crc buf = foldl Lut.Crc_addByte crc' buf -> crc = crc'.
Proof.
  intros Hc Hc' Hbuf. revert crc crc' Hc Hc'.
  induction Hbuf as [|b buf Hb _ IH]; intros crc crc' Hc Hc' E; [done|].
  cbn [foldl] in E. apply IH in E; [|apply addByte_range..].
  by apply addByte_inj_crc in E.
Qed.

(** ** Words as bytes *)

Definition word_bytes (buf : list Z) : list Z := mjoin (le_put 4 <$> buf).

Lemma word_bytes_bytes buf : bytes (word_bytes buf).
Proof.
  unfold word_bytes. induction buf as [|w buf IH]; [constructor|].
  cbn [mjoin list_join fmap list_fmap]. apply Forall_app. split; [apply le_put_bytes|done].
Qed.

Lemma low_byte v : Z.land v 255 = u8 v.
Proof. change 255 with (Z.ones 8). by rewrite <- uwrap_land. Qed.

Lemma loop_body32_bytes crc v :
  Lut.crc_loop_body32 crc v = foldl Lut.crc_loop_body crc (le_put 4 v).
Proof.
  unfold Lut.crc_loop_body32. cbn [le_put foldl].
  by rewrite !low_byte, !Z.shiftr_div_pow2, !Z.div_div by done.
Qed.

Lemma fromBuffer32_words buf :
  Lut.Crc_fromBuffer32 buf = Lut.Crc_fromBuffer (word_bytes buf).
Proof.
  unfold Lut.Crc_fromBuffer32, Lut.Crc_fromBuffer, word_bytes. generalize Lut.Crc_initValue.
  induction buf as [|v buf IH]; intros crc; [done|].
  cbn [mjoin list_join fmap list_fmap foldl]. rewrite foldl_app, <- IH. f_equal.
  apply loop_body32_bytes.
Qed.

(** ** Properties *)



(** the CRC detects every corruption of a single byte: two buffers that
    differ in exactly one byte have different CRCs. *)
Theorem crc_detects_byte_error (pre post : list Z) (b b' : Z)
    (Hpre : bytes pre) (Hpost : bytes post) (Hb : is_u8 b) (Hb' : is_u8 b')
    (Hne : b <> b') :
  Lut.Crc_fromBuffer (pre ++ b :: post) <> Lut.Crc_fromBuffer (pre ++ b' :: post).
Proof.
  rewrite !fromBuffer_addByte, !foldl_app by (apply Forall_app; auto). cbn [foldl].
  intros E. apply foldl_addByte_inj in E; auto using addByte_range.
  apply addByte_inj_byte in E; auto. apply foldl_addByte_range, crc_init_range.
Qed.

Lemma crc_detects_byte_error_witness :
  Lut.Crc_fromBuffer ([1; 2] ++ 3 :: [4]) <> Lut.Crc_fromBuffer ([1; 2] ++ 7 :: [4]).
Proof. apply crc_detects_byte_error; [repeat constructor; by vm_compute..|lia]. Defined.
