(* ===== verification/Aes.v ===== *)
(** * AES-128

    [util/tinyaes/aes.c], configured for 128-bit keys: the key schedule, the
    cipher and its inverse.  A state is a list of 16 bytes in the order of
    memory: [( *state)[i][j]] is at [4 * i + j]. *)

From S2P Require Import Prelude.

Definition Nb : nat := 4.
Definition Nk : nat := 4.
Definition Nr : nat := 10.
Definition AES_BLOCKLEN : nat := 16.

Definition sbox : list Z :=
  [0x63; 0x7c; 0x77; 0x7b; 0xf2; 0x6b; 0x6f; 0xc5; 0x30; 0x01; 0x67; 0x2b; 0xfe; 0xd7; 0xab; 0x76;
   0xca; 0x82; 0xc9; 0x7d; 0xfa; 0x59; 0x47; 0xf0; 0xad; 0xd4; 0xa2; 0xaf; 0x9c; 0xa4; 0x72; 0xc0;
   0xb7; 0xfd; 0x93; 0x26; 0x36; 0x3f; 0xf7; 0xcc; 0x34; 0xa5; 0xe5; 0xf1; 0x71; 0xd8; 0x31; 0x15;
   0x04; 0xc7; 0x23; 0xc3; 0x18; 0x96; 0x05; 0x9a; 0x07; 0x12; 0x80; 0xe2; 0xeb; 0x27; 0xb2; 0x75;
   0x09; 0x83; 0x2c; 0x1a; 0x1b; 0x6e; 0x5a; 0xa0; 0x52; 0x3b; 0xd6; 0xb3; 0x29; 0xe3; 0x2f; 0x84;
   0x53; 0xd1; 0x00; 0xed; 0x20; 0xfc; 0xb1; 0x5b; 0x6a; 0xcb; 0xbe; 0x39; 0x4a; 0x4c; 0x58; 0xcf;
   0xd0; 0xef; 0xaa; 0xfb; 0x43; 0x4d; 0x33; 0x85; 0x45; 0xf9; 0x02; 0x7f; 0x50; 0x3c; 0x9f; 0xa8;
   0x51; 0xa3; 0x40; 0x8f; 0x92; 0x9d; 0x38; 0xf5; 0xbc; 0xb6; 0xda; 0x21; 0x10; 0xff; 0xf3; 0xd2;
   0xcd; 0x0c; 0x13; 0xec; 0x5f; 0x97; 0x44; 0x17; 0xc4; 0xa7; 0x7e; 0x3d; 0x64; 0x5d; 0x19; 0x73;
   0x60; 0x81; 0x4f; 0xdc; 0x22; 0x2a; 0x90; 0x88; 0x46; 0xee; 0xb8; 0x14; 0xde; 0x5e; 0x0b; 0xdb;
   0xe0; 0x32; 0x3a; 0x0a; 0x49; 0x06; 0x24; 0x5c; 0xc2; 0xd3; 0xac; 0x62; 0x91; 0x95; 0xe4; 0x79;
   0xe7; 0xc8; 0x37; 0x6d; 0x8d; 0xd5; 0x4e; 0xa9; 0x6c; 0x56; 0xf4; 0xea; 0x65; 0x7a; 0xae; 0x08;
   0xba; 0x78; 0x25; 0x2e; 0x1c; 0xa6; 0xb4; 0xc6; 0xe8; 0xdd; 0x74; 0x1f; 0x4b; 0xbd; 0x8b; 0x8a;
   0x70; 0x3e; 0xb5; 0x66; 0x48; 0x03; 0xf6; 0x0e; 0x61; 0x35; 0x57; 0xb9; 0x86; 0xc1; 0x1d; 0x9e;
   0xe1; 0xf8; 0x98; 0x11; 0x69; 0xd9; 0x8e; 0x94; 0x9b; 0x1e; 0x87; 0xe9; 0xce; 0x55; 0x28; 0xdf;
   0x8c; 0xa1; 0x89; 0x0d; 0xbf; 0xe6; 0x42; 0x68; 0x41; 0x99; 0x2d; 0x0f; 0xb0; 0x54; 0xbb; 0x16].

Definition rsbox : list Z :=
  [0x52; 0x09; 0x6a; 0xd5; 0x30; 0x36; 0xa5; 0x38; 0xbf; 0x40; 0xa3; 0x9e; 0x81; 0xf3; 0xd7; 0xfb;
   0x7c; 0xe3; 0x39; 0x82; 0x9b; 0x2f; 0xff; 0x87; 0x34; 0x8e; 0x43; 0x44; 0xc4; 0xde; 0xe9; 0xcb;
   0x54; 0x7b; 0x94; 0x32; 0xa6; 0xc2; 0x23; 0x3d; 0xee; 0x4c; 0x95; 0x0b; 0x42; 0xfa; 0xc3; 0x4e;
   0x08; 0x2e; 0xa1; 0x66; 0x28; 0xd9; 0x24; 0xb2; 0x76; 0x5b; 0xa2; 0x49; 0x6d; 0x8b; 0xd1; 0x25;
   0x72; 0xf8; 0xf6; 0x64; 0x86; 0x68; 0x98; 0x16; 0xd4; 0xa4; 0x5c; 0xcc; 0x5d; 0x65; 0xb6; 0x92;
   0x6c; 0x70; 0x48; 0x50; 0xfd; 0xed; 0xb9; 0xda; 0x5e; 0x15; 0x46; 0x57; 0xa7; 0x8d; 0x9d; 0x84;
   0x90; 0xd8; 0xab; 0x00; 0x8c; 0xbc; 0xd3; 0x0a; 0xf7; 0xe4; 0x58; 0x05; 0xb8; 0xb3; 0x45; 0x06;
   0xd0; 0x2c; 0x1e; 0x8f; 0xca; 0x3f; 0x0f; 0x02; 0xc1; 0xaf; 0xbd; 0x03; 0x01; 0x13; 0x8a; 0x6b;
   0x3a; 0x91; 0x11; 0x41; 0x4f; 0x67; 0xdc; 0xea; 0x97; 0xf2; 0xcf; 0xce; 0xf0; 0xb4; 0xe6; 0x73;
   0x96; 0xac; 0x74; 0x22; 0xe7; 0xad; 0x35; 0x85; 0xe2; 0xf9; 0x37; 0xe8; 0x1c; 0x75; 0xdf; 0x6e;
   0x47; 0xf1; 0x1a; 0x71; 0x1d; 0x29; 0xc5; 0x89; 0x6f; 0xb7; 0x62; 0x0e; 0xaa; 0x18; 0xbe; 0x1b;
   0xfc; 0x56; 0x3e; 0x4b; 0xc6; 0xd2; 0x79; 0x20; 0x9a; 0xdb; 0xc0; 0xfe; 0x78; 0xcd; 0x5a; 0xf4;
   0x1f; 0xdd; 0xa8; 0x33; 0x88; 0x07; 0xc7; 0x31; 0xb1; 0x12; 0x10; 0x59; 0x27; 0x80; 0xec; 0x5f;
   0x60; 0x51; 0x7f; 0xa9; 0x19; 0xb5; 0x4a; 0x0d; 0x2d; 0xe5; 0x7a; 0x9f; 0x93; 0xc9; 0x9c; 0xef;
   0xa0; 0xe0; 0x3b; 0x4d; 0xae; 0x2a; 0xf5; 0xb0; 0xc8; 0xeb; 0xbb; 0x3c; 0x83; 0x53; 0x99; 0x61;
   0x17; 0x2b; 0x04; 0x7e; 0xba; 0x77; 0xd6; 0x26; 0xe1; 0x69; 0x14; 0x63; 0x55; 0x21; 0x0c; 0x7d].

Definition Rcon : list Z := [0x8d; 0x01; 0x02; 0x04; 0x08; 0x10; 0x20; 0x40; 0x80; 0x1b; 0x36].

Definition getSBoxValue (num : Z) : Z := sbox !!! Z.to_nat num.
Definition getSBoxInvert (num : Z) : Z := rsbox !!! Z.to_nat num.

(** ** The key schedule *)

Definition xor_list (a b : list Z) : list Z := zip_with Z.lxor a b.

(** [RotWord] *)
Definition RotWord (tempa : list Z) : list Z := match tempa with t :: ts => ts ++ [t] | [] => [] end.

(** [tempa[0] ^ Rcon[i/Nk]] *)
Definition xor_Rcon (i : nat) (tempa : list Z) : list Z :=
  match tempa with t :: ts => Z.lxor t (Rcon !!! (i / Nk)%nat) :: ts | [] => [] end.

(** One word, from the one before it and the one [Nk] before it. *)
Definition next_word (i : nat) (RoundKey : list Z) : list Z :=
  let tempa := slice ((i - 1) * 4) 4 RoundKey in
  let tempa :=
    if (i mod Nk =? 0)%nat then xor_Rcon i (getSBoxValue <$> RotWord tempa) else tempa in
  xor_list (slice ((i - Nk) * 4) 4 RoundKey) tempa.

Definition KeyExpansion (Key : list Z) : list Z :=
  foldl (fun RoundKey i => RoundKey ++ next_word i RoundKey) (take (Nk * 4) Key) (seq Nk (Nb * (Nr + 1) - Nk)).

Definition AES_init_ctx (key : list Z) : list Z := KeyExpansion key.

(** ** The steps of a round *)

Definition AddRoundKey (round : nat) (state RoundKey : list Z) : list Z :=
  xor_list state (slice (round * Nb * 4) 16 RoundKey).

Definition SubBytes (state : list Z) : list Z := getSBoxValue <$> state.
Definition InvSubBytes (state : list Z) : list Z := getSBoxInvert <$> state.

(** The bytes of row [j] are those at [4 * i + j]. *)
Definition ShiftRows (state : list Z) : list Z :=
  match state with
  | [a0; a1; a2; a3; b0; b1; b2; b3; c0; c1; c2; c3; d0; d1; d2; d3] =>
      [a0; b1; c2; d3; b0; c1; d2; a3; c0; d1; a2; b3; d0; a1; b2; c3]
  | _ => state
  end.

Definition InvShiftRows (state : list Z) : list Z :=
  match state with
  | [a0; a1; a2; a3; b0; b1; b2; b3; c0; c1; c2; c3; d0; d1; d2; d3] =>
      [a0; d1; c2; b3; b0; a1; d2; c3; c0; b1; a2; d3; d0; c1; b2; a3]
  | _ => state
  end.

Definition xtime (x : Z) : Z :=
  u8 (Z.lxor (Z.shiftl x 1) (Z.land (Z.shiftr x 7) 1 * 0x1b)).

(** A column of the state. *)
Definition mix_column (a b c d : Z) : list Z :=
  let Tmp := Z.lxor (Z.lxor (Z.lxor a b) c) d in
  [Z.lxor a (Z.lxor (xtime (Z.lxor a b)) Tmp); Z.lxor b (Z.lxor (xtime (Z.lxor b c)) Tmp);
   Z.lxor c (Z.lxor (xtime (Z.lxor c d)) Tmp); Z.lxor d (Z.lxor (xtime (Z.lxor d a)) Tmp)].

Definition Multiply (x y : Z) : Z :=
  Z.lxor (Z.lxor (Z.lxor (Z.lxor (Z.land y 1 * x)
    (Z.land (Z.shiftr y 1) 1 * xtime x))
    (Z.land (Z.shiftr y 2) 1 * xtime (xtime x)))
    (Z.land (Z.shiftr y 3) 1 * xtime (xtime (xtime x))))
    (Z.land (Z.shiftr y 4) 1 * xtime (xtime (xtime (xtime x)))).

Definition inv_mix_column (a b c d : Z) : list Z :=
  let row p q r s := Z.lxor (Z.lxor (Z.lxor (Multiply a p) (Multiply b q)) (Multiply c r)) (Multiply d s) in
  [row 0x0e 0x0b 0x0d 0x09; row 0x09 0x0e 0x0b 0x0d; row 0x0d 0x09 0x0e 0x0b; row 0x0b 0x0d 0x09 0x0e].

(** The four columns in turn. *)
Fixpoint columns (f : Z -> Z -> Z -> Z -> list Z) (state : list Z) : list Z :=
  match state with
  | a :: b :: c :: d :: rest => f a b c d ++ columns f rest
  | _ => state
  end.

Definition MixColumns (state : list Z) : list Z := columns mix_column state.
Definition InvMixColumns (state : list Z) : list Z := columns inv_mix_column state.

(** ** The cipher *)

Definition Cipher (state RoundKey : list Z) : list Z :=
  let state := AddRoundKey 0 state RoundKey in
  let state := foldl (fun state round => AddRoundKey round (MixColumns (ShiftRows (SubBytes state))) RoundKey)
    state (seq 1 (Nr - 1)) in
  AddRoundKey Nr (ShiftRows (SubBytes state)) RoundKey.

Definition InvCipher (state RoundKey : list Z) : list Z :=
  let state := AddRoundKey Nr state RoundKey in
  let state := foldl (fun state round => InvMixColumns (AddRoundKey round (InvSubBytes (InvShiftRows state)) RoundKey))
    state (rev (seq 1 (Nr - 1))) in
  AddRoundKey 0 (InvSubBytes (InvShiftRows state)) RoundKey.

(** [ctx] is the expanded key. *)
Definition AES_ECB_encrypt (ctx buf : list Z) : list Z := Cipher buf ctx.
Definition AES_ECB_decrypt (ctx buf : list Z) : list Z := InvCipher buf ctx.

(** The examples of FIPS 197. *)
Example fips_197_c1 :
  AES_ECB_encrypt (AES_init_ctx (Z.of_nat <$> seq 0 16))
    [0x00; 0x11; 0x22; 0x33; 0x44; 0x55; 0x66; 0x77; 0x88; 0x99; 0xaa; 0xbb; 0xcc; 0xdd; 0xee; 0xff] =
  [0x69; 0xc4; 0xe0; 0xd8; 0x6a; 0x7b; 0x04; 0x30; 0xd8; 0xcd; 0xb7; 0x80; 0x70; 0xb4; 0xc5; 0x5a].
Proof. vm_compute. reflexivity. Qed.

(** * Properties *)

(** ** Arithmetic on bytes *)

Lemma lxor_u8 x y : is_u8 x -> is_u8 y -> is_u8 (Z.lxor x y).
Proof.
  intros Hx Hy. rewrite <- (uwrap_small 8 x Hx), <- (uwrap_small 8 y Hy).
  replace (Z.lxor (u8 x) (u8 y)) with (u8 (Z.lxor (u8 x) (u8 y))); [by apply u8_range|].
  bitwise.
Qed.

Lemma xtime_u8 x : is_u8 (xtime x).
Proof. apply u8_range. Qed.

Create HintDb aes discriminated.
#[export] Hint Resolve lxor_u8 xtime_u8 : aes.

Lemma xtime_lxor x y : is_u8 x -> is_u8 y -> xtime (Z.lxor x y) = Z.lxor (xtime x) (xtime y).
Proof.
  intros Hx Hy. revert y Hy.
  enough (H : all_bytes (fun x => all_bytes (fun y => xtime (Z.lxor x y) =? Z.lxor (xtime x) (xtime y))) = true).
  { intros y Hy. apply Z.eqb_eq. apply (all_bytes_spec _ x) in H; [|done]. by apply (all_bytes_spec _ y) in H. }
  vm_compute. reflexivity.
Qed.

(** An equation between sums of the same terms. *)
Ltac xor_ac := apply Z.bits_inj'; intros ? _; rewrite ?Z.lxor_spec; btauto.

Lemma Multiply_consts x :
  Multiply x 0x09 = Z.lxor x (xtime (xtime (xtime x))) /\
  Multiply x 0x0b = Z.lxor (Z.lxor x (xtime x)) (xtime (xtime (xtime x))) /\
  Multiply x 0x0d = Z.lxor (Z.lxor x (xtime (xtime x))) (xtime (xtime (xtime x))) /\
  Multiply x 0x0e = Z.lxor (Z.lxor (xtime x) (xtime (xtime x))) (xtime (xtime (xtime x))).
Proof.
  unfold Multiply.
  repeat match goal with |- context [Z.land ?a 1] => let v := eval vm_compute in (Z.land a 1) in change (Z.land a 1) with v end.
  rewrite ?Z.mul_0_l, ?Z.mul_1_l, ?Z.lxor_0_r, ?Z.lxor_0_l. split_and!; xor_ac.
Qed.

(** The inverse of the column polynomial. *)
Lemma inv_mix_column_mix a b c d : is_u8 a -> is_u8 b -> is_u8 c -> is_u8 d ->
  columns inv_mix_column (mix_column a b c d) = [a; b; c; d].
Proof.
  intros Ha Hb Hc Hd. unfold mix_column. cbn [columns]. unfold inv_mix_column.
  repeat match goal with |- context [Multiply ?x _] =>
    let H := fresh in pose proof (Multiply_consts x) as H; destruct H as (-> & -> & -> & ->) end.
  rewrite ?xtime_lxor by auto 20 with aes. cbn [app].
  repeat f_equal; xor_ac.
Qed.

(** ** Blocks *)

Definition block (s : list Z) : Prop := length s = 16%nat /\ bytes s.

(** The sixteen bytes of a block. *)
Ltac split_block s :=
  do 16 (destruct s as [|? s]; [by match goal with H : block _ |- _ => destruct H end|]);
  destruct s; [|by match goal with H : block _ |- _ => destruct H end].

Lemma xor_list_bytes a b : bytes a -> bytes b -> bytes (xor_list a b).
Proof.
  intros Ha. revert b. induction Ha as [|x a Hx _ IH]; intros b Hb; [constructor|].
  destruct Hb as [|y b Hy Hb]; [constructor|]. constructor; [by apply lxor_u8|by apply IH].
Qed.

Lemma xor_list_twice a k : length a = length k -> xor_list (xor_list a k) k = a.
Proof.
  revert k. induction a as [|x a IH]; intros [|y k] H; try done. cbn in *. unfold xor_list in IH.
  rewrite IH by lia. by rewrite Z.lxor_assoc, Z.lxor_nilpotent, Z.lxor_0_r.
Qed.

Lemma getSBoxValue_u8 x : is_u8 x -> is_u8 (getSBoxValue x).
Proof.
  intros Hx. assert (H : (0 <=? getSBoxValue x) && (getSBoxValue x <? 256) = true).
  { revert x Hx. refine (fun x => all_bytes_spec (fun x => _) x _). vm_compute. reflexivity. }
  bool_props. by split.
Qed.

Lemma getSBoxInvert_Value x : is_u8 x -> getSBoxInvert (getSBoxValue x) = x.
Proof.
  intros Hx. apply Z.eqb_eq. revert x Hx. refine (fun x => all_bytes_spec (fun x => _) x _). vm_compute. reflexivity.
Qed.

(** [RoundKey] holds eleven round keys. *)
Definition schedule (k : list Z) : Prop := length k = 176%nat /\ bytes k.

Lemma round_key_length round k : schedule k -> (round <= Nr)%nat -> length (slice (round * Nb * 4) 16 k) = 16%nat.
Proof. intros [Hl _] Hr. unfold Nb, Nr in *. apply length_slice. lia. Qed.

Lemma AddRoundKey_block round s k : schedule k -> (round <= Nr)%nat -> block s -> block (AddRoundKey round s k).
Proof.
  intros Hk Hr [Hl Hb]. unfold AddRoundKey, xor_list. split.
  - rewrite length_zip_with, round_key_length by done. lia.
  - apply xor_list_bytes; [done|]. apply slice_bytes, Hk.
Qed.

Lemma AddRoundKey_twice round s k : schedule k -> (round <= Nr)%nat -> block s ->
  AddRoundKey round (AddRoundKey round s k) k = s.
Proof. intros Hk Hr [Hl _]. apply xor_list_twice. by rewrite round_key_length. Qed.

Lemma SubBytes_block s : block s -> block (SubBytes s).
Proof.
  intros [Hl Hb]. split; [by unfold SubBytes; rewrite length_fmap|]. apply Forall_fmap.
  eapply Forall_impl; [done|]. apply getSBoxValue_u8.
Qed.

Lemma InvSubBytes_Sub s : block s -> InvSubBytes (SubBytes s) = s.
Proof.
  intros [_ Hb]. unfold InvSubBytes, SubBytes. induction Hb as [|x s Hx _ IH]; [done|].
  rewrite !fmap_cons, IH. f_equal. by apply getSBoxInvert_Value.
Qed.

Lemma ShiftRows_block s : block s -> block (ShiftRows s).
Proof.
  intros H. split_block s. destruct H as [_ H]. rewrite !Forall_cons in H. split; [done|].
  unfold ShiftRows. rewrite !Forall_cons. tauto.
Qed.

Lemma InvShiftRows_Shift s : block s -> InvShiftRows (ShiftRows s) = s.
Proof. intros H. by split_block s. Qed.

Lemma mix_column_bytes a b c d : is_u8 a -> is_u8 b -> is_u8 c -> is_u8 d -> bytes (mix_column a b c d).
Proof. intros. unfold mix_column. rewrite !Forall_cons. split_and!; auto 20 with aes. Qed.

Lemma MixColumns_block s : block s -> block (MixColumns s).
Proof.
  intros H. split_block s. destruct H as [_ H]. rewrite !Forall_cons in H.
  split; [done|]. unfold MixColumns. cbn [columns]. rewrite !Forall_app. split_and!; try apply mix_column_bytes; tauto.
Qed.

Lemma InvMixColumns_Mix s : block s -> InvMixColumns (MixColumns s) = s.
Proof.
  intros H. split_block s. destruct H as [_ H]. rewrite !Forall_cons in H.
  unfold InvMixColumns, MixColumns.
  assert (Hc : forall a b c d rest, is_u8 a /\ is_u8 b /\ is_u8 c /\ is_u8 d ->
    columns inv_mix_column (mix_column a b c d ++ rest) = a :: b :: c :: d :: columns inv_mix_column rest).
  { intros a b c d rest (Ha & Hb & Hc & Hd). pose proof (inv_mix_column_mix a b c d Ha Hb Hc Hd) as E.
    unfold mix_column in *. cbn [columns app] in *. rewrite app_nil_r in E. by rewrite E. }
  cbn [columns]. rewrite !Hc by tauto. done.
Qed.

(** ** The rounds *)

Definition round_step (k state : list Z) (round : nat) : list Z :=
  AddRoundKey round (MixColumns (ShiftRows (SubBytes state))) k.
Definition inv_round_step (k state : list Z) (round : nat) : list Z :=
  InvMixColumns (AddRoundKey round (InvSubBytes (InvShiftRows state)) k).

Lemma round_block k s round : schedule k -> (round <= Nr)%nat -> block s -> block (round_step k s round).
Proof. intros. by apply AddRoundKey_block, MixColumns_block, ShiftRows_block, SubBytes_block. Qed.

Lemma rounds_block k s rounds : schedule k -> Forall (fun r => r <= Nr)%nat rounds -> block s ->
  block (foldl (round_step k) s rounds).
Proof.
  intros Hk Hr. revert s. induction Hr as [|r rounds Hr _ IH]; intros s Hs; [done|]. by apply IH, round_block.
Qed.

(** The inverse rounds work between the two halves of a round. *)
Lemma inv_round k s r : schedule k -> (r <= Nr)%nat -> block s ->
  inv_round_step k (ShiftRows (SubBytes (round_step k s r))) r = ShiftRows (SubBytes s).
Proof.
  intros Hk Hr Hs. unfold inv_round_step.
  rewrite InvShiftRows_Shift, InvSubBytes_Sub by auto using SubBytes_block, round_block.
  unfold round_step. rewrite AddRoundKey_twice by auto using MixColumns_block, ShiftRows_block, SubBytes_block.
  by rewrite InvMixColumns_Mix by auto using ShiftRows_block, SubBytes_block.
Qed.

Lemma inv_rounds k s rounds : schedule k -> Forall (fun r => r <= Nr)%nat rounds -> block s ->
  foldl (inv_round_step k) (ShiftRows (SubBytes (foldl (round_step k) s rounds))) (rev rounds) = ShiftRows (SubBytes s).
Proof.
  intros Hk. induction rounds as [|r rounds IH] using rev_ind; intros Hr Hs; [done|].
  apply Forall_app in Hr as [Hr Hr1]. apply Forall_cons in Hr1 as [Hr1 _].
  rewrite foldl_snoc, rev_app_distr. cbn [rev app foldl].
  rewrite inv_round by auto using rounds_block. by apply IH.
Qed.

Lemma middle_rounds : Forall (fun r => r <= Nr)%nat (seq 1 (Nr - 1)).
Proof. by repeat constructor; unfold Nr; lia. Qed.

Lemma Cipher_block s k : schedule k -> block s -> block (Cipher s k).
Proof.
  intros Hk Hs. unfold Cipher. fold (round_step k).
  apply AddRoundKey_block; [done|done|]. apply ShiftRows_block, SubBytes_block.
  apply rounds_block; [done|apply middle_rounds|]. apply AddRoundKey_block; [done|unfold Nr; lia|done].
Qed.

Lemma InvCipher_Cipher s k : schedule k -> block s -> InvCipher (Cipher s k) k = s.
Proof.
  intros Hk Hs. unfold InvCipher, Cipher. fold (round_step k) (inv_round_step k).
  assert (H0 : block (AddRoundKey 0 s k)) by (apply AddRoundKey_block; [done|unfold Nr; lia|done]).
  rewrite AddRoundKey_twice; [|done|done|by apply ShiftRows_block, SubBytes_block, rounds_block; [|apply middle_rounds|]].
  change (fun state round => AddRoundKey round (MixColumns (ShiftRows (SubBytes state))) k) with (round_step k).
  change (fun state round => InvMixColumns (AddRoundKey round (InvSubBytes (InvShiftRows state)) k)) with (inv_round_step k).
  rewrite inv_rounds by (done || apply middle_rounds).
  rewrite InvShiftRows_Shift, InvSubBytes_Sub by auto using SubBytes_block.
  apply AddRoundKey_twice; [done|unfold Nr; lia|done].
Qed.

(** ** The key schedule *)

Lemma next_word_ok i k : (4 <= i)%nat -> length k = (4 * i)%nat -> bytes k -> (i < 44)%nat ->
  length (next_word i k) = 4%nat /\ bytes (next_word i k).
Proof.
  intros Hi Hl Hb H44. unfold next_word, Nk. 
  assert (Hs : forall j, (j + 4 <= 4 * i)%nat -> length (slice j 4 k) = 4%nat /\ bytes (slice j 4 k)).
  { intros j Hj. split; [apply length_slice; lia|by apply slice_bytes]. }
  destruct (Hs ((i - 1) * 4)%nat ltac:(lia)) as [H1 B1]. destruct (Hs ((i - 4) * 4)%nat ltac:(lia)) as [H2 B2].
  set (t := if (i mod 4 =? 0)%nat then _ else _).
  assert (length t = 4%nat /\ bytes t) as [H3 B3].
  { unfold t. destruct (i mod 4 =? 0)%nat; [|done]. destruct (slice _ 4 k) as [|a [|b [|c [|d [|]]]]]; try done.
    rewrite !Forall_cons in B1. cbn. split; [done|]. rewrite !Forall_cons.
    split_and!; try (apply getSBoxValue_u8; tauto); [|constructor].
    apply lxor_u8; [apply getSBoxValue_u8; tauto|].
    assert (i / Nk < 11)%nat by (apply Nat.Div0.div_lt_upper_bound; unfold Nk; lia).
    assert (Hr : bytes Rcon) by (by repeat constructor). eapply Forall_lookup_1; [exact Hr|].
    apply list_lookup_lookup_total_lt. done. }
  split; [unfold xor_list; rewrite length_zip_with; lia|by apply xor_list_bytes].
Qed.

Lemma KeyExpansion_ok key : length key = 16%nat -> bytes key -> schedule (KeyExpansion key).
Proof.
  intros Hl Hb. unfold KeyExpansion.
  assert (H : forall n i k, (4 <= i)%nat -> (i + n <= 44)%nat -> length k = (4 * i)%nat -> bytes k ->
    length (foldl (fun k i => k ++ next_word i k) k (seq i n)) = (4 * (i + n))%nat /\
    bytes (foldl (fun k i => k ++ next_word i k) k (seq i n))).
  { induction n as [|n IH]; intros i k Hi Hn Hk Bk; cbn [seq foldl]; [by rewrite Nat.add_0_r|].
    destruct (next_word_ok i k) as [H1 H2]; [lia|done|done|lia|].
    rewrite Nat.add_succ_r, <- Nat.add_succ_l. apply IH; [lia|lia|rewrite length_app; lia|by apply Forall_app]. }
  destruct (H 40%nat 4%nat (take (Nk * 4) key)) as [H1 H2]; [lia|lia| |by apply Forall_take|by split].
  rewrite length_take, Hl. done.
Qed.

(** A key of 16 bytes. *)
Lemma AES_ECB_encrypt_block key s : block key -> block s -> block (AES_ECB_encrypt (AES_init_ctx key) s).
Proof. intros [Hl Hb] Hs. by apply Cipher_block; [apply KeyExpansion_ok|]. Qed.

(** C35: under every 128-bit key, what the cipher encrypts the inverse cipher
    decrypts, for every block of sixteen bytes; the ciphertext is a block. *)
Theorem ecb_roundtrip key s : block key -> block s ->
  block (AES_ECB_encrypt (AES_init_ctx key) s) /\
  AES_ECB_decrypt (AES_init_ctx key) (AES_ECB_encrypt (AES_init_ctx key) s) = s.
Proof.
  intros Hk Hs. split; [by apply AES_ECB_encrypt_block|]. destruct Hk. by apply InvCipher_Cipher; [apply KeyExpansion_ok|].
Qed.

Lemma ecb_roundtrip_witness :
  let key := Z.of_nat <$> seq 0 16 in let s := repeat 7 16 in
  AES_ECB_decrypt (AES_init_ctx key) (AES_ECB_encrypt (AES_init_ctx key) s) = s.
Proof.
  apply ecb_roundtrip.
  - split; [reflexivity|]. cbn. byte_list.
  - split; [reflexivity|]. cbn. byte_list.
Defined.
