(* ===== verification/Aessw.v ===== *)
(** * AES streams and message codes

    [util/aessw.c]: the CTR stream cipher and the OMAC1 message code (CMAC, RFC
    4493) on top of the block cipher of [Aes].  The words of a state are kept
    as the bytes that hold them in memory, in little-endian order. *)

From S2P Require Import Prelude Aes.

(** ** State *)

(** [iv_ctr] and [aes_in] are one field. *)
Record aes_data_stream_t := { key : list Z; iv_ctr : list Z; aes_out : list Z }.

Definition set_iv_ctr (x : list Z) (s : aes_data_stream_t) := {| key := key s; iv_ctr := x; aes_out := aes_out s |}.
Definition set_aes_out (x : list Z) (s : aes_data_stream_t) := {| key := key s; iv_ctr := iv_ctr s; aes_out := x |}.

Record aes_omac1_state_t := { data : aes_data_stream_t; hl1 : list Z; hl2 : list Z }.

Definition AES_OMAC1_CONSTANT : Z := 0x87.
Definition aes_plaintext_null : list Z := repeat 0 16.

(** ** Streams *)

Definition aes_setupStream (key128 iv : list Z) (s : aes_data_stream_t) : aes_data_stream_t :=
  {| key := take 16 key128; iv_ctr := take 16 iv; aes_out := aes_out s |}.

(** [++words[i]], and the words after it when it wraps around. *)
Fixpoint incr_words (n : nat) (i : nat) (iv : list Z) : list Z :=
  match n with
  | O => iv
  | S n =>
      let w := u32 (field (4 * i) 4 iv + 1) in
      let iv := set_field (4 * i) 4 w iv in
      if w =? 0 then incr_words n (S i) iv else iv
  end.

Fixpoint ctr_loop (fuel : nat) (ctx intext : list Z) (s : aes_data_stream_t) : list Z * aes_data_stream_t :=
  match fuel, intext with
  | S fuel, _ :: _ =>
      let s := set_aes_out (AES_ECB_encrypt ctx (iv_ctr s)) s in
      let s := set_iv_ctr (incr_words 4 0 (iv_ctr s)) s in
      let out := xor_list (take 16 intext) (aes_out s) in
      let '(rest, s) := ctr_loop fuel ctx (drop 16 intext) s in
      (out ++ rest, s)
  | _, _ => ([], s)
  end.

(** The output, for the input text. *)
Definition aes_crypto128Ctr (s : aes_data_stream_t) (intext : list Z) : list Z * aes_data_stream_t :=
  ctr_loop (length intext) (AES_init_ctx (key s)) intext s.

(** ** Message codes *)

(** The bytes from the last to the first, with the carry between them. *)
Fixpoint shift_left (src : list Z) (carry : Z) : list Z * Z :=
  match src with
  | [] => ([], carry)
  | b :: src =>
      let '(tgt, carry) := shift_left src carry in
      (u8 (Z.lor (Z.shiftl b 1) carry) :: tgt, if negb (Z.land b 0x80 =? 0) then 1 else 0)
  end.

Definition aes_omac1GenerateSubkey (src : list Z) : list Z :=
  let '(tgt, carry) := shift_left src 0 in
  if negb (carry =? 0) then alter (fun b => Z.lxor b AES_OMAC1_CONSTANT) 15%nat tgt else tgt.

Definition aes_initOmac1 (mic_key : list Z) (state : aes_omac1_state_t) : aes_omac1_state_t :=
  let s := aes_setupStream mic_key aes_plaintext_null (data state) in
  let '(_, s) := aes_crypto128Ctr s aes_plaintext_null in
  let hl1 := aes_omac1GenerateSubkey (aes_out s) in
  {| data := s; hl1 := hl1; hl2 := aes_omac1GenerateSubkey hl1 |}.

(** [aes_in] for the next bytes of the text: the last block is padded. *)
Definition omac1_block (state : aes_omac1_state_t) (intext : list Z) : list Z :=
  let bytes := take 16 intext in
  match drop 16 intext with
  | [] =>
      if (length bytes =? 16)%nat then xor_list bytes (hl1 state)
      else xor_list (bytes ++ 0x80 :: repeat 0 (15 - length bytes)) (hl2 state)
  | _ :: _ => bytes
  end.

Fixpoint omac1_loop (fuel : nat) (ctx intext : list Z) (state : aes_omac1_state_t) : aes_omac1_state_t :=
  match fuel, intext with
  | S fuel, _ :: _ =>
      let aes_in := xor_list (omac1_block state intext) (aes_out (data state)) in
      let s := set_aes_out (AES_ECB_encrypt ctx aes_in) (set_iv_ctr aes_in (data state)) in
      omac1_loop fuel ctx (drop 16 intext) {| data := s; hl1 := hl1 state; hl2 := hl2 state |}
  | _, _ => state
  end.

(** The first [mic_out_bytes] bytes of the code, and the state. *)
Definition aes_omac1 (state : aes_omac1_state_t) (mic_out_bytes : nat) (intext : list Z)
    : list Z * aes_omac1_state_t :=
  let ctx := AES_init_ctx (key (data state)) in
  let s := set_aes_out (repeat 0 16) (data state) in
  let state := omac1_loop (length intext) ctx intext {| data := s; hl1 := hl1 state; hl2 := hl2 state |} in
  (take mic_out_bytes (aes_out (data state)), state).

(** ** The examples of RFC 4493 *)

Module Rfc4493.
Definition rfc_key : list Z :=
  [0x2b; 0x7e; 0x15; 0x16; 0x28; 0xae; 0xd2; 0xa6; 0xab; 0xf7; 0x15; 0x88; 0x09; 0xcf; 0x4f; 0x3c].
Definition rfc_text : list Z :=
  [0x6b; 0xc1; 0xbe; 0xe2; 0x2e; 0x40; 0x9f; 0x96; 0xe9; 0x3d; 0x7e; 0x11; 0x73; 0x93; 0x17; 0x2a;
   0xae; 0x2d; 0x8a; 0x57; 0x1e; 0x03; 0xac; 0x9c; 0x9e; 0xb7; 0x6f; 0xac; 0x45; 0xaf; 0x8e; 0x51;
   0x30; 0xc8; 0x1c; 0x46; 0xa3; 0x5c; 0xe4; 0x11].
Definition no_state : aes_omac1_state_t :=
  {| data := {| key := []; iv_ctr := []; aes_out := [] |}; hl1 := []; hl2 := [] |}.

Example rfc_subkeys : let s := aes_initOmac1 rfc_key no_state in
  hl1 s = [0xfb; 0xee; 0xd6; 0x18; 0x35; 0x71; 0x33; 0x66; 0x7c; 0x85; 0xe0; 0x8f; 0x72; 0x36; 0xa8; 0xde] /\
  hl2 s = [0xf7; 0xdd; 0xac; 0x30; 0x6a; 0xe2; 0x66; 0xcc; 0xf9; 0x0b; 0xc1; 0x1e; 0xe4; 0x6d; 0x51; 0x3b].
Proof. vm_compute. split; reflexivity. Qed.

Example rfc_16 : (aes_omac1 (aes_initOmac1 rfc_key no_state) 16 (take 16 rfc_text)).1 =
  [0x07; 0x0a; 0x16; 0xb4; 0x6b; 0x4d; 0x41; 0x44; 0xf7; 0x9b; 0xdd; 0x9d; 0xd0; 0x4a; 0x28; 0x7c].
Proof. vm_compute. reflexivity. Qed.

Example rfc_40 : (aes_omac1 (aes_initOmac1 rfc_key no_state) 16 rfc_text).1 =
  [0xdf; 0xa6; 0x67; 0x47; 0xde; 0x9a; 0xe6; 0x30; 0x30; 0xca; 0x32; 0x61; 0x14; 0x97; 0xc8; 0x27].
Proof. vm_compute. reflexivity. Qed.

(** The code of an empty text is not computed: it would be
    [bb 1d 69 29 e9 59 37 28 7f a3 7d 12 9b 75 67 46]. *)
Lemma omac1_of_nothing : (aes_omac1 (aes_initOmac1 rfc_key no_state) 16 []).1 = repeat 0 16.
Proof. vm_compute. reflexivity. Qed.
End Rfc4493.

(** * Properties *)

#[local] Opaque AES_ECB_encrypt AES_init_ctx le_put.

(** ** Counter mode *)

Lemma le_get_split n bs : (n <= length bs)%nat ->
  le_get bs = le_get (take n bs) + 2 ^ (8 * Z.of_nat n) * le_get (drop n bs).
Proof. intros H. rewrite <- (take_drop n bs) at 1. rewrite le_get_app, length_take, Nat.min_l by lia. done. Qed.

Lemma incr_words_length n i iv : length (incr_words n i iv) = length iv.
Proof.
  revert i iv. induction n as [|n IH]; intros i iv; cbn [incr_words]; [done|].
  destruct (_ =? 0); rewrite ?IH, length_set_field; done.
Qed.

Lemma incr_words_bytes n i iv : bytes iv -> bytes (incr_words n i iv).
Proof.
  revert i iv. induction n as [|n IH]; intros i iv H; cbn [incr_words]; [done|].
  destruct (_ =? 0); [apply IH|]; by apply set_field_bytes.
Qed.

(** The carry runs through all the words. *)
Lemma incr_words_value n i iv : bytes iv -> length iv = (4 * (i + n))%nat ->
  le_get (incr_words n i iv) =
  le_get (take (4 * i) iv) + 2 ^ (32 * Z.of_nat i) * uwrap (32 * Z.of_nat n) (le_get (drop (4 * i) iv) + 1).
Proof.
  revert i iv. induction n as [|n IH]; intros i iv Hb Hl.
  { cbn [incr_words]. rewrite Nat.add_0_r in Hl. rewrite take_ge by lia. unfold uwrap.
    rewrite Z.mul_0_r, Z.pow_0_r, Z.mod_1_r. lia. }
  cbn [incr_words]. set (f := field (4 * i) 4 iv). set (pre := take (4 * i) iv). set (post := drop (4 * S i) iv).
  assert (Hf : 0 <= f < 2 ^ 32).
  { pose proof (le_get_range (slice (4 * i) 4 iv) (slice_bytes _ _ _ Hb)) as H.
    rewrite length_slice in H by lia. exact H. }
  assert (Hd : le_get (drop (4 * i) iv) = f + 2 ^ 32 * le_get post).
  { rewrite (le_get_split 4) by (rewrite length_drop; lia). rewrite drop_drop.
    replace (4 * i + 4)%nat with (4 * S i)%nat by lia. done. }
  assert (Hp : fits (32 * Z.of_nat n) (le_get post)).
  { pose proof (le_get_range post (Forall_drop _ _ _ Hb)) as H. unfold post in *. rewrite length_drop in H.
    replace (32 * Z.of_nat n) with (8 * Z.of_nat (length iv - 4 * S i)) by lia. done. }
  assert (Hs : forall w, set_field (4 * i) 4 w iv = pre ++ le_put 4 w ++ post).
  { intros w. unfold set_field. rewrite blit_app by (rewrite length_le_put; lia).
    rewrite length_le_put. replace (4 * i + 4)%nat with (4 * S i)%nat by lia. done. }
  assert (Hpre : Z.of_nat (length pre) = 4 * Z.of_nat i) by (unfold pre; rewrite length_take; lia).
  rewrite Hd. replace (32 * Z.of_nat (S n)) with (32 + 32 * Z.of_nat n) by lia.
  destruct (Z.eqb_spec (u32 (f + 1)) 0) as [Hz|Hz].
  - rewrite IH by (first [by apply set_field_bytes | rewrite length_set_field; lia]).
    assert (f = 2 ^ 32 - 1).
    { destruct (decide (f + 1 = 2 ^ 32)); [lia|]. rewrite uwrap_small in Hz by (unfold fits; lia). lia. }
    rewrite Hz, Hs, take_app_ge, drop_app_ge by lia.
    replace (4 * S i - length pre)%nat with 4%nat by lia.
    rewrite take_app_length', drop_app_length' by done.
    rewrite le_get_app, Hpre. unfold uwrap.
    replace (le_get (le_put 4 0)) with 0 by reflexivity.
    replace (f + 2 ^ 32 * le_get post + 1) with (2 ^ 32 * (le_get post + 1)) by lia.
    rewrite Z.pow_add_r, Z.mul_mod_distr_l by lia.
    replace (32 * Z.of_nat (S i)) with (32 * Z.of_nat i + 32) by lia. rewrite Z.pow_add_r by lia. lia.
  - rewrite Hs, !le_get_app, le_get_put, length_le_put, Hpre.
    assert (f + 1 < 2 ^ 32).
    { destruct (decide (f + 1 = 2 ^ 32)) as [E|]; [|lia]. rewrite E in Hz. done. }
    unfold fits in Hp. rewrite (uwrap_small (8 * Z.of_nat 4)) by exact (u32_range _).
    rewrite (uwrap_small 32) by (split; lia).
    rewrite uwrap_small by (unfold fits; rewrite Z.pow_add_r by lia; nia).
    replace (8 * (4 * Z.of_nat i)) with (32 * Z.of_nat i) by lia. change (8 * Z.of_nat 4) with 32. lia.
Qed.

Lemma incr_words_spec iv : bytes iv -> length iv = 16%nat -> incr_words 4 0 iv = le_put 16 (le_get iv + 1).
Proof.
  intros Hb Hl. rewrite <- (le_put_get (incr_words 4 0 iv)) by by apply incr_words_bytes.
  rewrite incr_words_length, Hl, incr_words_value by done. cbn [Nat.mul take drop].
  apply le_put_wrap. rewrite Z.add_0_l, Z.mul_1_l. by apply uwrap_idem.
Qed.

(** The key stream of counter mode: the block cipher of successive numbers. *)
Definition keystream (k : list Z) (ctr : Z) (n : nat) : list Z :=
  concat ((fun i => AES_ECB_encrypt (AES_init_ctx k) (le_put 16 (ctr + Z.of_nat i))) <$> seq 0 n).

Lemma keystream_ext k c c' n : (forall j, le_put 16 (c + j) = le_put 16 (c' + j)) -> keystream k c n = keystream k c' n.
Proof.
  intros H. unfold keystream. apply f_equal, list_fmap_ext. intros j x _. exact (f_equal _ (H (Z.of_nat x))).
Qed.

Definition num_blocks (n : nat) : nat := ((n + 15) / 16)%nat.

Lemma num_blocks_step n : (0 < n)%nat -> num_blocks n = S (num_blocks (n - 16)).
Proof.
  intros H. unfold num_blocks. destruct (decide (n <= 16)%nat) as [H16|H16].
  - replace (n - 16 + 15)%nat with 15%nat by lia. change (15 / 16)%nat with 0%nat.
    replace (n + 15)%nat with ((n - 1) + 1 * 16)%nat by lia. rewrite Nat.div_add, Nat.div_small by lia. done.
  - replace (n + 15)%nat with ((n - 16 + 15) + 1 * 16)%nat by lia. rewrite Nat.div_add by lia. lia.
Qed.

Lemma keystream_S k ctr n : keystream k ctr (S n) =
  AES_ECB_encrypt (AES_init_ctx k) (le_put 16 ctr) ++ keystream k (ctr + 1) n.
Proof.
  unfold keystream. cbn [seq]. rewrite fmap_cons. cbn [concat]. rewrite Z.add_0_r.
  apply (f_equal2 app); [done|]. rewrite <- fmap_S_seq, <- list_fmap_compose. apply f_equal, list_fmap_ext.
  intros j x _. cbn [compose]. unfold compose. by replace (ctr + Z.of_nat (S x)) with (ctr + 1 + Z.of_nat x) by lia.
Qed.

Lemma block_le_put v : block (le_put 16 v).
Proof. split; [apply length_le_put|apply le_put_bytes]. Qed.

Lemma length_keystream k ctr n : block k -> length (keystream k ctr n) = (16 * n)%nat.
Proof.
  intros Hk. revert ctr. induction n as [|n IH]; intros ctr; [done|].
  rewrite keystream_S, length_app, IH. destruct (AES_ECB_encrypt_block k (le_put 16 ctr) Hk (block_le_put _)) as [-> _]. lia.
Qed.

Lemma xor_list_app a k1 k2 : length (take (length k1) a) = length k1 \/ (length a <= length k1)%nat ->
  xor_list a (k1 ++ k2) = xor_list (take (length k1) a) k1 ++ xor_list (drop (length k1) a) k2.
Proof.
  unfold xor_list. revert k1. induction a as [|x a IH]; intros k1 H.
  { rewrite take_nil, drop_nil. done. }
  destruct k1 as [|y k1]; [by rewrite take_0|]. cbn. f_equal. apply IH. cbn in H. lia.
Qed.

Lemma le_put_block b : block b -> le_put 16 (le_get b) = b.
Proof. intros [Hl Hb]. by rewrite <- Hl, le_put_get. Qed.

Lemma same_stream s : block (iv_ctr s) ->
  {| key := key s; iv_ctr := le_put 16 (le_get (iv_ctr s) + Z.of_nat 0); aes_out := aes_out s |} = s.
Proof. intros Hs. rewrite Z.add_0_r, le_put_block by done. by destruct s. Qed.

Lemma ctr_loop_spec fuel k text s : (length text <= fuel)%nat -> block k -> block (iv_ctr s) ->
  ctr_loop fuel (AES_init_ctx k) text s =
    let n := num_blocks (length text) in
    let last := if (n =? 0)%nat then aes_out s
                else AES_ECB_encrypt (AES_init_ctx k) (le_put 16 (le_get (iv_ctr s) + Z.of_nat n - 1)) in
    (xor_list text (keystream k (le_get (iv_ctr s)) n),
     {| key := key s; iv_ctr := le_put 16 (le_get (iv_ctr s) + Z.of_nat n); aes_out := last |}).
Proof.
  intros Hf Hk. revert text s Hf. induction fuel as [|fuel IH]; intros text s Hf Hs.
  { destruct text; [|cbn in Hf; lia]. cbn zeta. change (num_blocks (length [])) with 0%nat. cbn [Nat.eqb].
    by rewrite same_stream. }
  destruct text as [|x text].
  { cbn zeta. change (num_blocks (length [])) with 0%nat. cbn [Nat.eqb]. by rewrite same_stream. }
  cbn [ctr_loop]. set (t := x :: text) in *.
  rewrite IH; [|rewrite length_drop; unfold t in *; cbn [length] in *; lia|].
  2:{ destruct Hs as [Hs1 Hs2]. split; [cbn [iv_ctr set_iv_ctr]; by rewrite incr_words_length|by apply incr_words_bytes]. }
  rewrite (num_blocks_step (length t)) by (unfold t; cbn; lia). rewrite length_drop.
  set (n := num_blocks (length t - 16)). cbn [iv_ctr set_iv_ctr set_aes_out aes_out key].
  rewrite incr_words_spec by apply Hs.
  set (v := le_get (iv_ctr s)).
  assert (Hv : forall j, le_put 16 (le_get (le_put 16 (v + 1)) + j) = le_put 16 (v + 1 + j)).
  { intros j. apply le_put_wrap. rewrite le_get_put. unfold uwrap. by rewrite Zplus_mod_idemp_l. }
  assert (Hks : forall m, keystream k (le_get (le_put 16 (v + 1))) m = keystream k (v + 1) m).
  { intros m. by apply keystream_ext. }
  rewrite Hks, Hv, keystream_S.
  assert (Hl : length (AES_ECB_encrypt (AES_init_ctx k) (le_put 16 v)) = 16%nat)
    by apply (AES_ECB_encrypt_block k _ Hk (block_le_put v)).
  cbn [Nat.eqb]. apply (f_equal2 pair).
  - rewrite xor_list_app, Hl; [|rewrite Hl, length_take; lia]. cbn [fst]. unfold v. by rewrite le_put_block.
  - replace (v + Z.of_nat (S n)) with (v + 1 + Z.of_nat n) by lia. apply f_equal. destruct (Nat.eqb_spec n 0) as [->|Hn].
    + replace (v + 1 + Z.of_nat 0 - 1) with v by lia. unfold v. by rewrite le_put_block.
    + rewrite <- Z.add_sub_assoc, Hv. by replace (v + 1 + (Z.of_nat n - 1)) with (v + 1 + Z.of_nat n - 1) by lia.
Qed.


Lemma crypto128Ctr_spec s text : block (key s) -> block (iv_ctr s) ->
  aes_crypto128Ctr s text =
    let n := num_blocks (length text) in
    let last := if (n =? 0)%nat then aes_out s
                else AES_ECB_encrypt (AES_init_ctx (key s)) (le_put 16 (le_get (iv_ctr s) + Z.of_nat n - 1)) in
    (xor_list text (keystream (key s) (le_get (iv_ctr s)) n),
     {| key := key s; iv_ctr := le_put 16 (le_get (iv_ctr s) + Z.of_nat n); aes_out := last |}).
Proof. intros. by apply ctr_loop_spec. Qed.

Lemma num_blocks_enough n : (n <= 16 * num_blocks n)%nat.
Proof. unfold num_blocks. pose proof (Nat.div_mod_eq (n + 15) 16). pose proof (Nat.mod_upper_bound (n + 15) 16). lia. Qed.

Lemma xor_list_cancel a k : (length a <= length k)%nat -> xor_list (xor_list a k) k = a.
Proof.
  revert k. induction a as [|x a IH]; intros [|y k] H; cbn in *; try (done || lia). unfold xor_list in IH.
  rewrite IH by lia. by rewrite Z.lxor_assoc, Z.lxor_nilpotent, Z.lxor_0_r.
Qed.

Lemma length_xor_list a k : (length a <= length k)%nat -> length (xor_list a k) = length a.
Proof. intros. unfold xor_list. rewrite length_zip_with. lia. Qed.

(** A text is read back with the key and the counter it was written with. *)
Lemma crypto128Ctr_cancel s s' text : block (key s) -> block (iv_ctr s) -> key s' = key s -> iv_ctr s' = iv_ctr s ->
  length (aes_crypto128Ctr s text).1 = length text /\
  (aes_crypto128Ctr s' (aes_crypto128Ctr s text).1).1 = text.
Proof.
  intros Hk Hi Ek Ei. rewrite (crypto128Ctr_spec s) by done. cbn zeta. cbn [fst].
  assert (Hl : (length text <= length (keystream (key s) (le_get (iv_ctr s)) (num_blocks (length text))))%nat)
    by (rewrite length_keystream by done; apply num_blocks_enough).
  rewrite crypto128Ctr_spec by (rewrite ?Ek, ?Ei; done). cbn zeta. cbn [fst].
  rewrite length_xor_list, Ek, Ei by done. split; [done|]. by apply xor_list_cancel.
Qed.

(** the stream cipher is AES in counter mode.  For every key, initial
    counter and text the output is the text added to the encryptions of the
    successive values of the 128-bit counter, whatever carries the increments
    make and however long the text is; the counter is left where a further
    call goes on; and the same call decrypts what it encrypted. *)
Theorem ctr_is_counter_mode s text : block (key s) -> block (iv_ctr s) ->
  let r := aes_crypto128Ctr s text in
  let n := num_blocks (length text) in
  r.1 = xor_list text (keystream (key s) (le_get (iv_ctr s)) n) /\
  iv_ctr r.2 = le_put 16 (le_get (iv_ctr s) + Z.of_nat n) /\
  (aes_crypto128Ctr s r.1).1 = text.
Proof.
  intros Hk Hi. cbn zeta. split_and!; [by rewrite crypto128Ctr_spec..|]. by apply crypto128Ctr_cancel.
Qed.

(** The counter wraps around in the middle of the text. *)
Lemma ctr_is_counter_mode_witness :
  let s := {| key := Rfc4493.rfc_key; iv_ctr := repeat 255 16; aes_out := [] |} in
  iv_ctr (aes_crypto128Ctr s Rfc4493.rfc_text).2 = le_put 16 2 /\
  (aes_crypto128Ctr s (aes_crypto128Ctr s Rfc4493.rfc_text).1).1 = Rfc4493.rfc_text.
Proof.
  intros s. destruct (ctr_is_counter_mode s Rfc4493.rfc_text) as (_ & H2 & H3).
  - split; [reflexivity|]. unfold s, Rfc4493.rfc_key. cbn [key]. byte_list.
  - split; [reflexivity|]. cbn. byte_list.
  - split; [|exact H3]. rewrite H2. vm_compute. reflexivity.
Defined.

(** ** The message code of RFC 4493 *)

(** A block as a number, the first byte the most significant. *)
Definition be_get (bs : list Z) : Z := le_get (rev bs).
Definition be_put (n : nat) (v : Z) : list Z := rev (le_put n v).

Definition dbl (x : Z) : Z :=
  let y := uwrap 128 (2 * x) in if Z.testbit x 127 then Z.lxor y 0x87 else y.

Definition cmac_K1 (k : list Z) : Z := dbl (be_get (AES_ECB_encrypt (AES_init_ctx k) (repeat 0 16))).
Definition cmac_K2 (k : list Z) : Z := dbl (cmac_K1 k).

Definition last_block (k m : list Z) : list Z :=
  if (length m =? 16)%nat then xor_list m (be_put 16 (cmac_K1 k))
  else xor_list (m ++ 0x80 :: repeat 0 (15 - length m)) (be_put 16 (cmac_K2 k)).

Definition cmac_blocks (k m : list Z) : list (list Z) :=
  let n := ((length m - 1) / 16)%nat in
  ((fun i => slice (16 * i) 16 m) <$> seq 0 n) ++ [last_block k (drop (16 * n) m)].

(** The code of a text that is not empty. *)
Definition cmac (k m : list Z) : list Z :=
  foldl (fun c b => AES_ECB_encrypt (AES_init_ctx k) (xor_list b c)) (repeat 0 16) (cmac_blocks k m).

Lemma be_get_cons b bs : be_get (b :: bs) = be_get bs + 2 ^ (8 * Z.of_nat (length bs)) * b.
Proof. unfold be_get. cbn [rev]. rewrite le_get_app, length_rev. cbn [le_get]. lia. Qed.

Lemma be_get_range bs : bytes bs -> 0 <= be_get bs < 2 ^ (8 * Z.of_nat (length bs)).
Proof.
  intros H. unfold be_get. rewrite <- (length_rev bs). apply le_get_range. by apply Forall_rev.
Qed.

Lemma be_put_get bs : bytes bs -> be_put (length bs) (be_get bs) = bs.
Proof.
  intros H. unfold be_put, be_get. rewrite <- (length_rev bs), le_put_get by by apply Forall_rev. apply rev_involutive.
Qed.

Lemma shift_byte b c : is_u8 b -> c = 0 \/ c = 1 ->
  u8 (Z.lor (Z.shiftl b 1) c) + 256 * (if negb (Z.land b 0x80 =? 0) then 1 else 0) = 2 * b + c.
Proof.
  intros Hb Hc. assert (H : all_bytes (fun b => forallb (fun c =>
    u8 (Z.lor (Z.shiftl b 1) c) + 256 * (if negb (Z.land b 0x80 =? 0) then 1 else 0) =? 2 * b + c) [0; 1]) = true)
    by (vm_compute; reflexivity).
  apply (all_bytes_spec _ b) in H; [|done]. cbn in H. bool_props. destruct Hc as [-> | ->]; done.
Qed.

Lemma shift_left_spec src : bytes src ->
  let r := shift_left src 0 in
  length r.1 = length src /\ bytes r.1 /\ (r.2 = 0 \/ r.2 = 1) /\
  be_get r.1 + 2 ^ (8 * Z.of_nat (length src)) * r.2 = 2 * be_get src.
Proof.
  induction 1 as [|b src Hb _ IH]; cbn zeta in *; [cbn; auto|]. cbn [shift_left].
  destruct (shift_left src 0) as [tgt c]. cbn [fst snd] in *. destruct IH as (H1 & H2 & H3 & H4).
  split_and!.
  - cbn. by rewrite H1.
  - constructor; [apply u8_range|done].
  - destruct (negb _); auto.
  - rewrite !be_get_cons, H1. pose proof (shift_byte b c Hb H3) as Hs. cbn [length].
    replace (8 * Z.of_nat (S (length src))) with (8 * Z.of_nat (length src) + 8) by lia.
    rewrite Z.pow_add_r by lia. change (2 ^ 8) with 256.
    set (p := 2 ^ (8 * Z.of_nat (length src))) in *. set (c' := if negb _ then 1 else 0) in *.
    set (b' := u8 _) in *. replace (be_get tgt + p * b' + p * 256 * c') with (be_get tgt + p * (b' + 256 * c')) by lia.
    rewrite Hs. lia.
Qed.

Lemma be_get_snoc bs b : be_get (bs ++ [b]) = b + 256 * be_get bs.
Proof. unfold be_get. by rewrite rev_app_distr. Qed.

Lemma lxor_low x y c : is_u8 y -> is_u8 c -> Z.lxor (y + 256 * x) c = Z.lxor y c + 256 * x.
Proof.
  intros Hy Hc. pose proof (lxor_u8 y c Hy Hc) as Hyc.
  assert (E : forall z, is_u8 z -> z + 256 * x = Z.lxor z (Z.shiftl x 8)).
  { intros z Hz. replace (256 * x) with (Z.shiftl x 8) by (rewrite Z.shiftl_mul_pow2; lia).
    rewrite <- (uwrap_small 8 z Hz). apply Z.add_nocarry_lxor, Z.bits_inj'. intros i Hi.
    rewrite Z.land_spec, Z.bits_0, uwrap_testbit, Z.shiftl_spec by lia.
    destruct (Z.ltb_spec i 8); [|done]. rewrite (Z.testbit_neg_r x) by lia. apply andb_false_r. }
  rewrite (E y Hy), (E _ Hyc). xor_ac.
Qed.

Lemma length_be_put n v : length (be_put n v) = n.
Proof. unfold be_put. by rewrite length_rev, length_le_put. Qed.

Lemma be_put_bytes n v : bytes (be_put n v).
Proof. apply Forall_rev, le_put_bytes. Qed.

Lemma be_put_spec bs v : bytes bs -> be_get bs = v -> be_put (length bs) v = bs.
Proof. intros H <-. by apply be_put_get. Qed.

(** The subkey is the doubled block. *)
Lemma subkey_spec bs : block bs -> aes_omac1GenerateSubkey bs = be_put 16 (dbl (be_get bs)).
Proof.
  intros [Hl Hb]. destruct (shift_left_spec bs Hb) as (H1 & H2 & H3 & H4). unfold aes_omac1GenerateSubkey.
  destruct (shift_left bs 0) as [tgt c]. cbn [fst snd] in *. rewrite Hl in H1, H4.
  change (8 * Z.of_nat 16) with 128 in H4.
  pose proof (be_get_range tgt H2) as Ht. pose proof (be_get_range bs Hb) as Hr.
  rewrite H1 in Ht. rewrite Hl in Hr. change (8 * Z.of_nat 16) with 128 in *.
  assert (Hy : uwrap 128 (2 * be_get bs) = be_get tgt).
  { rewrite <- H4. unfold uwrap. rewrite Z.mul_comm, Z_mod_plus_full. by apply Z.mod_small. }
  assert (Hc : Z.testbit (be_get bs) 127 = negb (c =? 0)).
  { rewrite Z.testbit_odd, Z.shiftr_div_pow2 by lia.
    assert (be_get bs / 2 ^ 127 = c) as ->.
    { replace (2 ^ 128) with (2 * 2 ^ 127) in * by done. symmetry.
      destruct H3 as [-> | ->]; [apply Z.div_unique with (be_get bs)|apply Z.div_unique with (be_get bs - 2 ^ 127)]; lia. }
    by destruct H3 as [-> | ->]. }
  unfold dbl. rewrite Hy, Hc. rewrite <- H1. destruct (negb (c =? 0)); [|by rewrite be_put_get].
  destruct tgt as [|z tgt _] using rev_ind; [done|].
  rewrite length_app in H1. cbn in H1. replace 15%nat with (length tgt + 0)%nat by lia.
  rewrite alter_app_r. cbn [alter list_alter]. rewrite length_app.
  replace (length tgt + length [z])%nat with (length (tgt ++ [Z.lxor z AES_OMAC1_CONSTANT])) by (by rewrite length_app).
  apply Forall_app in H2 as [H2 Hz]. apply Forall_cons in Hz as [Hz _].
  symmetry. apply be_put_spec.
  - apply Forall_app. split; [done|]. constructor; [|constructor]. by apply lxor_u8.
  - rewrite !be_get_snoc. symmetry. by apply lxor_low.
Qed.

Lemma zeros_block : block (repeat 0 16).
Proof. split; [done|]. by apply bytes_repeat. Qed.

Lemma initOmac1_spec k st : block k ->
  let s := aes_initOmac1 k st in
  key (data s) = k /\ hl1 s = be_put 16 (cmac_K1 k) /\ hl2 s = be_put 16 (cmac_K2 k).
Proof.
  intros Hk. unfold aes_initOmac1, aes_setupStream. rewrite take_ge by (rewrite (proj1 Hk); lia).
  change (take 16 aes_plaintext_null) with (repeat 0 16).
  rewrite crypto128Ctr_spec by (done || apply zeros_block). cbn zeta. cbn [data hl1 hl2 key aes_out iv_ctr].
  change (num_blocks (length aes_plaintext_null)) with 1%nat. cbn [Nat.eqb].
  replace (le_get (repeat 0 16) + Z.of_nat 1 - 1) with (le_get (repeat 0 16)) by lia.
  rewrite le_put_block by apply zeros_block.
  assert (H1 : aes_omac1GenerateSubkey (AES_ECB_encrypt (AES_init_ctx k) (repeat 0 16)) = be_put 16 (cmac_K1 k)).
  { apply subkey_spec. by apply AES_ECB_encrypt_block, zeros_block. }
  split_and!; [done|done|]. rewrite H1, subkey_spec by (split; [apply length_be_put|apply be_put_bytes]).
  unfold cmac_K2. do 2 apply f_equal. unfold be_get, be_put. rewrite rev_involutive, le_get_put.
  change (8 * Z.of_nat 16) with 128. apply uwrap_small. unfold cmac_K1, dbl. set (b := be_get _).
  destruct (Z.testbit b 127); [|by apply uwrap_range].
  destruct (decide (Z.lxor (uwrap 128 (2 * b)) 135 = 0)) as [->|Hne]; [by split|].
  pose proof (uwrap_range 128 (2 * b) ltac:(lia)) as [R1 R2].
  assert (0 <= Z.lxor (uwrap 128 (2 * b)) 135) by (by apply Z.lxor_nonneg).
  split; [done|]. apply Z.log2_lt_pow2; [lia|]. eapply Z.le_lt_trans; [by apply Z.log2_lxor|].
  apply Z.max_lub_lt; [|reflexivity]. destruct (decide (uwrap 128 (2 * b) = 0)) as [->|]; [done|].
  apply Z.log2_lt_pow2; lia.
Qed.

Lemma cmac_blocks_short k m : (0 < length m <= 16)%nat -> cmac_blocks k m = [last_block k m].
Proof. intros H. unfold cmac_blocks. rewrite Nat.div_small by lia. done. Qed.

Lemma cmac_blocks_long k m : (16 < length m)%nat -> cmac_blocks k m = take 16 m :: cmac_blocks k (drop 16 m).
Proof.
  intros H. unfold cmac_blocks. rewrite length_drop.
  replace (length m - 1)%nat with (length m - 16 - 1 + 1 * 16)%nat by lia.
  rewrite Nat.div_add, Nat.add_1_r by lia. set (n := ((length m - 16 - 1) / 16)%nat).
  cbn [seq]. rewrite fmap_cons, <- fmap_S_seq, <- list_fmap_compose. cbn [app].
  apply (f_equal2 cons); [done|]. apply (f_equal2 app).
  - apply list_fmap_ext. intros j x _. unfold compose, slice. rewrite drop_drop. do 2 f_equal. lia.
  - rewrite drop_drop. by replace (16 + 16 * n)%nat with (16 * S n)%nat by lia.
Qed.

Lemma omac1_loop_spec fuel k m st : (0 < length m <= fuel)%nat ->
  hl1 st = be_put 16 (cmac_K1 k) -> hl2 st = be_put 16 (cmac_K2 k) ->
  aes_out (data (omac1_loop fuel (AES_init_ctx k) m st)) =
  foldl (fun c b => AES_ECB_encrypt (AES_init_ctx k) (xor_list b c)) (aes_out (data st)) (cmac_blocks k m).
Proof.
  revert m st. induction fuel as [|fuel IH]; intros m st Hf H1 H2; [lia|].
  destruct m as [|x m]; [cbn in Hf; lia|]. set (t := x :: m) in *.
  change (omac1_loop (S fuel) (AES_init_ctx k) t st) with
    (let aes_in := xor_list (omac1_block st t) (aes_out (data st)) in
     let s := set_aes_out (AES_ECB_encrypt (AES_init_ctx k) aes_in) (set_iv_ctr aes_in (data st)) in
     omac1_loop fuel (AES_init_ctx k) (drop 16 t) {| data := s; hl1 := hl1 st; hl2 := hl2 st |}).
  cbn zeta. destruct (decide (length t <= 16)%nat) as [Hs|Hs].
  - rewrite (drop_ge t) by done. rewrite cmac_blocks_short by (unfold t in *; cbn [length] in *; lia).
    assert (Hb : omac1_block st t = last_block k t).
    { unfold omac1_block, last_block. rewrite drop_ge, take_ge, H1, H2 by done. done. }
    rewrite Hb. by destruct fuel.
  - rewrite cmac_blocks_long by lia. cbn [foldl].
    assert (Hb : omac1_block st t = take 16 t).
    { unfold omac1_block. destruct (drop 16 t) as [|y d] eqn:E; [|done].
      apply (f_equal length) in E. rewrite length_drop in E. cbn [length] in E. lia. }
    rewrite IH; [by rewrite Hb|rewrite length_drop; lia|done|done].
Qed.

(** What the callers use: the code of a text under a key. *)
Lemma omac1_spec k st n m : block k -> m <> [] ->
  (aes_omac1 (aes_initOmac1 k st) n m).1 = take n (cmac k m).
Proof.
  intros Hk Hm. destruct (initOmac1_spec k st Hk) as (H1 & H2 & H3). unfold aes_omac1.
  generalize dependent (aes_initOmac1 k st). intros s H1 H2 H3. rewrite H1. cbn [fst]. apply f_equal.
  assert (Hl : (0 < length m <= length m)%nat) by (destruct m; [done|cbn [length]; lia]).
  set (s0 := {| data := _; hl1 := _; hl2 := _ |}).
  pose proof (omac1_loop_spec (length m) k m s0 Hl H2 H3) as E. rewrite E. reflexivity.
Qed.

Lemma length_cmac k m : block k -> m <> [] -> bytes m -> block (cmac k m).
Proof.
  intros Hk Hm Hb. unfold cmac, cmac_blocks. rewrite foldl_snoc. apply AES_ECB_encrypt_block; [done|].
  set (n := ((length m - 1) / 16)%nat). assert (0 < length m)%nat by (destruct m; [done|cbn; lia]).
  assert (Hn : (16 * n < length m <= 16 * n + 16)%nat).
  { pose proof (Nat.div_mod_eq (length m - 1) 16). pose proof (Nat.mod_upper_bound (length m - 1) 16). unfold n. lia. }
  set (c := foldl _ _ _).
  assert (Hc : block c).
  { unfold c. assert (Hl : forall l z, Forall block l -> block z ->
      block (foldl (fun c b => AES_ECB_encrypt (AES_init_ctx k) (xor_list b c)) z l)).
    { induction l as [|b l IH]; intros z Hl Hz; [done|]. apply Forall_cons in Hl as [Hb' Hl]. cbn [foldl].
      apply IH; [done|]. apply AES_ECB_encrypt_block; [done|].
      split; [rewrite length_xor_list; [apply Hb'|by rewrite (proj1 Hb'), (proj1 Hz)]|by apply xor_list_bytes; [apply Hb'|apply Hz]]. }
    apply Hl; [|apply zeros_block]. apply Forall_fmap, Forall_forall. intros i Hi%elem_of_seq.
    split; [apply length_slice; lia|by apply slice_bytes]. }
  assert (Hd : length (drop (16 * n) m) = (length m - 16 * n)%nat) by apply length_drop.
  assert (Hl : block (last_block k (drop (16 * n) m))).
  { unfold last_block. destruct (Nat.eqb_spec (length (drop (16 * n) m)) 16) as [E|E].
    - split; [rewrite length_xor_list; rewrite ?length_be_put; lia|].
      apply xor_list_bytes; [by apply Forall_drop|apply be_put_bytes].
    - split; [rewrite length_xor_list; rewrite length_app; cbn [length]; rewrite repeat_length, ?length_be_put; lia|].
      apply xor_list_bytes; [|apply be_put_bytes]. apply Forall_app. split; [by apply Forall_drop|].
      constructor; [done|by apply bytes_repeat]. }
  split; [rewrite length_xor_list; [apply Hl|by rewrite (proj1 Hl), (proj1 Hc)]|by apply xor_list_bytes; [apply Hl|apply Hc]].
Qed.

(** C36: the message code is the CMAC of RFC 4493: for every key and every text
    that is not empty, the bytes written are the first ones of the reference
    code, with the subkeys obtained by doubling in GF(2^128), the last block
    padded when it is short, and the blocks chained; the state the code starts
    from does not matter. *)
Theorem omac1_is_cmac k st n m : block k -> m <> [] -> bytes m ->
  (aes_omac1 (aes_initOmac1 k st) n m).1 = take n (cmac k m) /\ length (cmac k m) = 16%nat.
Proof. intros Hk Hm Hb. split; [by apply omac1_spec|]. by apply length_cmac. Qed.

Lemma omac1_is_cmac_witness : cmac Rfc4493.rfc_key Rfc4493.rfc_text =
  [0xdf; 0xa6; 0x67; 0x47; 0xde; 0x9a; 0xe6; 0x30; 0x30; 0xca; 0x32; 0x61; 0x14; 0x97; 0xc8; 0x27].
Proof.
  destruct (omac1_is_cmac Rfc4493.rfc_key Rfc4493.no_state 16 Rfc4493.rfc_text) as [H Hl].
  - split; [reflexivity|]. unfold Rfc4493.rfc_key. byte_list.
  - discriminate.
  - unfold Rfc4493.rfc_text. byte_list.
  - rewrite take_ge in H by (rewrite Hl; apply Nat.le_refl). rewrite <- H. exact Rfc4493.rfc_40.
Defined.
