(* ===== verification/Tlv.v ===== *)
(** * Type-Length-Value buffers

    Models [util/tlv.c].  A [tlv_record] is a buffer with its length and the
    current index, both [uint8_t]; the value pointer of an item is the list of
    the bytes found at its address, of which the first [length] belong to the
    item. *)

From S2P Require Import Prelude.

Inductive tlv_res_e := TLV_RES_OK | TLV_RES_ERROR | TLV_RES_END.

#[export] Instance tlv_res_eq_dec : EqDecision tlv_res_e.
Proof. solve_decision. Defined.

Record tlv_item_t := { value : list Z; type : Z; length : Z }.

Record tlv_record := { rcd_buffer : list Z; rcd_length : Z; rcd_index : Z }.

Definition MINIMAL_TLV_SIZE : Z := 3.
Definition SIZE_EXTENDED_HEADER : Z := 3.
Definition SIZE_SHORT_HEADER : Z := 2.

Definition Tlv_init (buffer : list Z) (len : Z) : tlv_record :=
  {| rcd_buffer := buffer; rcd_length := len; rcd_index := 0 |}.

Definition with_index (r : tlv_record) (i : Z) : tlv_record :=
  {| rcd_buffer := rcd_buffer r; rcd_length := rcd_length r; rcd_index := u8 i |}.

Definition with_buffer (r : tlv_record) (b : list Z) : tlv_record :=
  {| rcd_buffer := b; rcd_length := rcd_length r; rcd_index := rcd_index r |}.

(** [rcd->buffer[i]] *)
Definition byte_at (r : tlv_record) (i : Z) : Z := rcd_buffer r !!! Z.to_nat i.

(** The last step of the decoder, once the header is behind the index. *)
Definition decode_value (r : tlv_record) (ty len : Z)
    : tlv_res_e * tlv_record * option tlv_item_t :=
  let remaining_bytes := u8 (rcd_length r - rcd_index r) in
  if remaining_bytes <? len then (TLV_RES_ERROR, r, None)
  else
    let item := {| type := ty; length := len;
                   value := drop (Z.to_nat (rcd_index r)) (rcd_buffer r) |} in
    (TLV_RES_OK, with_index r (rcd_index r + len), Some item).

Definition Tlv_Decode_getNextItem (r : tlv_record)
    : tlv_res_e * tlv_record * option tlv_item_t :=
  let remaining_bytes := u8 (rcd_length r - rcd_index r) in
  if remaining_bytes =? 0 then (TLV_RES_END, r, None)
  else if remaining_bytes <? MINIMAL_TLV_SIZE then (TLV_RES_ERROR, r, None)
  else
    let ty := Z.land (byte_at r (rcd_index r)) 255 in
    let len := Z.land (byte_at r (rcd_index r + 1)) 127 in
    let type_extended := negb (Z.land (byte_at r (rcd_index r + 1)) 128 =? 0) in
    let r := with_index r (rcd_index r + 2) in
    if type_extended then
      let ty := u16 (ty + Z.shiftl (Z.land (byte_at r (rcd_index r)) 255) 8) in
      decode_value (with_index r (rcd_index r + 1)) ty len
    else decode_value r ty len.

(** Stores through [rcd->buffer] followed by the move of the index. *)
Definition put (r : tlv_record) (bs : list Z) : tlv_record :=
  with_index (with_buffer r (blit (Z.to_nat (rcd_index r)) bs (rcd_buffer r)))
    (rcd_index r + Z.of_nat (List.length bs)).

(** [memcpy(&rcd->buffer[rcd->index], item->value, item->length)] *)
Definition item_bytes (item : tlv_item_t) : list Z := take (Z.to_nat (length item)) (value item).

Definition Tlv_Encode_addItem (r : tlv_record) (item : tlv_item_t) : tlv_res_e * tlv_record :=
  let remaining_bytes := u8 (rcd_length r - rcd_index r) in
  if 127 <? length item then (TLV_RES_ERROR, r)
  else if 255 <? type item then
    if remaining_bytes <? SIZE_EXTENDED_HEADER + length item then (TLV_RES_ERROR, r)
    else
      let r := put r [Z.land (type item) 255; Z.lor 128 (length item);
                      Z.land (Z.shiftr (type item) 8) 255] in
      (TLV_RES_OK, put r (item_bytes item))
  else
    if remaining_bytes <? SIZE_SHORT_HEADER + length item then (TLV_RES_ERROR, r)
    else
      let r := put r [Z.land (type item) 255; length item] in
      (TLV_RES_OK, put r (item_bytes item)).

Definition Tlv_Encode_getBufferSize (r : tlv_record) : Z := rcd_index r.

(** ** Well-formed records and items *)

(** The buffer holds [rcd_length] bytes and the index stays inside. *)
Record wf (r : tlv_record) : Prop := {
  wf_bytes : bytes (rcd_buffer r);
  wf_length : rcd_length r = Z.of_nat (List.length (rcd_buffer r));
  wf_u8 : is_u8 (rcd_length r);
  wf_index : 0 <= rcd_index r <= rcd_length r }.

(** What the C types and the caller of the encoder guarantee. *)
Record item_wf (item : tlv_item_t) : Prop := {
  item_type : is_u16 (type item);
  item_length : is_u8 (length item);
  item_value : bytes (value item);
  item_room : length item <= Z.of_nat (List.length (value item)) }.

Lemma wf_remaining r : wf r -> u8 (rcd_length r - rcd_index r) = rcd_length r - rcd_index r.
Proof. intros [_ _ Hu Hi]. apply uwrap_small. unfold fits in *. lia. Qed.

Lemma wf_init buf :
  bytes buf -> (List.length buf < 256)%nat -> wf (Tlv_init buf (Z.of_nat (List.length buf))).
Proof. intros Hb Hl. constructor; cbn; [done..|unfold fits; lia|lia]. Qed.

Lemma with_index_wf r i : wf r -> 0 <= i <= rcd_length r -> wf (with_index r i).
Proof.
  intros [Hb Hl Hu Hi] ?. constructor; cbn; [done..|].
  unfold fits in *. rewrite uwrap_small; unfold fits; lia.
Qed.

Lemma put_wf r bs :
  wf r -> bytes bs -> rcd_index r + Z.of_nat (List.length bs) <= rcd_length r -> wf (put r bs).
Proof.
  intros [Hb Hl Hu Hi] Hbs Hr. apply with_index_wf; [|cbn; lia].
  constructor; cbn; [by apply blit_bytes|by rewrite length_blit|done|done].
Qed.

Lemma byte_at_u8 r i : wf r -> 0 <= i < rcd_length r -> is_u8 (byte_at r i).
Proof.
  intros [Hb Hl _ _] Hi. destruct (lookup_lt_is_Some_2 (rcd_buffer r) (Z.to_nat i)) as [x Hx]; [lia|].
  unfold byte_at. rewrite (list_lookup_total_correct _ _ _ Hx). by eapply Forall_lookup_1 in Hb.
Qed.

Lemma land_255 x : is_u8 x -> Z.land x 255 = x.
Proof. intros. change 255 with (Z.ones 8). rewrite <- uwrap_land by done. by apply uwrap_small. Qed.

Lemma land_127_range x : 0 <= Z.land x 127 < 128.
Proof. change 127 with (Z.ones 7). rewrite Z.land_ones by done. by apply Z.mod_pos_bound. Qed.

(** ** The wire format *)

(** The bytes one item takes on the wire. *)
Definition wire (item : tlv_item_t) : list Z :=
  if 255 <? type item then
    [type item mod 256; 128 + length item; type item / 256] ++ item_bytes item
  else [type item; length item] ++ item_bytes item.

Lemma length_item_bytes item : item_wf item -> List.length (item_bytes item) = Z.to_nat (length item).
Proof.
  intros [_ Hl _ Hr]. unfold item_bytes, fits in *. rewrite length_take. lia.
Qed.

Lemma item_bytes_bytes item : item_wf item -> bytes (item_bytes item).
Proof. intros [_ _ Hv _]. by apply Forall_take. Qed.

Lemma or_128 x : 0 <= x <= 127 -> Z.lor 128 x = 128 + x.
Proof.
  intros. change 128 with (Z.shiftl 1 7) at 1. rewrite lor_shiftl_add; [done|done|].
  unfold fits. lia.
Qed.

Lemma high_byte ty : is_u16 ty -> Z.land (Z.shiftr ty 8) 255 = ty / 256.
Proof.
  intros Ht. rewrite Z.shiftr_div_pow2 by done. apply land_255. unfold fits in *.
  split; [apply Z.div_pos; lia|apply Z.div_lt_upper_bound; lia].
Qed.

Lemma ext_low_byte ty : Z.land ty 255 = ty mod 256.
Proof. change 255 with (Z.ones 8). by rewrite Z.land_ones. Qed.

Lemma wire_bytes item : item_wf item -> length item <= 127 -> bytes (wire item).
Proof.
  intros Hi Hl. pose proof (item_bytes_bytes _ Hi) as Hb. destruct Hi as [Ht Hn _ _].
  unfold wire. unfold fits in Ht, Hn. destruct (Z.ltb_spec 255 (type item)); cbn [app];
    repeat (apply Forall_cons; split; [unfold fits|]); try done; try lia.
  - pose proof (Z.mod_pos_bound (type item) 256). lia.
  - split; [apply Z.div_pos; lia|apply Z.div_lt_upper_bound; lia].
Qed.

Lemma length_wire item :
  item_wf item -> Z.of_nat (List.length (wire item)) =
    (if 255 <? type item then SIZE_EXTENDED_HEADER else SIZE_SHORT_HEADER) + length item.
Proof.
  intros Hi. pose proof (length_item_bytes _ Hi) as Hl. destruct Hi as [_ Hn _ _].
  unfold wire, SIZE_EXTENDED_HEADER, SIZE_SHORT_HEADER, fits in *.
  destruct (Z.ltb_spec 255 (type item)); rewrite length_app, Hl; cbn; lia.
Qed.

Lemma put_put r b1 b2 :
  wf r -> rcd_index r + Z.of_nat (List.length (b1 ++ b2)) <= rcd_length r ->
  put (put r b1) b2 = put r (b1 ++ b2).
Proof.
  intros [Hb Hl Hu Hi] Hr. rewrite length_app in Hr. unfold fits in Hu.
  unfold put, with_index, with_buffer. cbn. f_equal.
  - rewrite uwrap_small by (unfold fits; lia).
    replace (Z.to_nat (rcd_index r + Z.of_nat (List.length b1)))
      with (Z.to_nat (rcd_index r) + List.length b1)%nat by lia.
    apply blit_blit_app. lia.
  - rewrite uwrap_add_l. f_equal. rewrite length_app. lia.
Qed.

(** The encoder: it fails, without effect, exactly when the item is too long or
    does not fit, and otherwise appends the wire form of the item. *)
Lemma addItem_spec r item :
  wf r -> item_wf item ->
  Tlv_Encode_addItem r item =
    if (127 <? length item) ||
       (rcd_length r - rcd_index r <? Z.of_nat (List.length (wire item)))
    then (TLV_RES_ERROR, r) else (TLV_RES_OK, put r (wire item)).
Proof.
  intros Hr Hi. pose proof (item_type _ Hi) as Ht.
  unfold Tlv_Encode_addItem. rewrite wf_remaining, length_wire by done.
  destruct (Z.ltb_spec 127 (length item)) as [|Hl]; [done|]. cbn [orb].
  pose proof (length_wire _ Hi) as Hw. pose proof (item_length _ Hi) as Hn.
  unfold wire in *. destruct (Z.ltb_spec 255 (type item)) as [Hx|Hx]; case_match; try done;
    bool_props; f_equal.
  - rewrite put_put, high_byte, ext_low_byte, or_128; [done|unfold fits in *; lia|done..|].
    rewrite <- Hw in *. rewrite !length_app in *. cbn in *. lia.
  - rewrite put_put, land_255; [done|unfold fits in *; lia|done|].
    rewrite <- Hw in *. rewrite !length_app in *. cbn in *. lia.
Qed.

Lemma addItem_wf r item res r' :
  wf r -> item_wf item -> Tlv_Encode_addItem r item = (res, r') ->
  wf r' /\ rcd_length r' = rcd_length r /\ rcd_index r <= rcd_index r'.
Proof.
  intros Hr Hi. rewrite addItem_spec by done. case_match; intros; simplify_eq; [done|].
  bool_props. pose proof Hr as [_ _ Hu Hx]. split_and!.
  - apply put_wf; [done|apply wire_bytes; [done|lia]|lia].
  - done.
  - cbn. rewrite uwrap_small; unfold fits in *; lia.
Qed.

(** ** The decoder *)

(** The unread part of the buffer. *)
Definition rest (r : tlv_record) : list Z := drop (Z.to_nat (rcd_index r)) (rcd_buffer r).

Lemma byte_at_rest r i :
  wf r -> 0 <= i -> byte_at r (rcd_index r + i) = rest r !!! Z.to_nat i.
Proof.
  intros [_ _ _ Hi] ?. unfold byte_at, rest. rewrite lookup_total_drop. f_equal. lia.
Qed.

Lemma length_rest r : wf r -> Z.of_nat (List.length (rest r)) = rcd_length r - rcd_index r.
Proof. intros [_ Hl _ Hi]. unfold rest. rewrite length_drop. lia. Qed.

Lemma rest_with_index r i :
  wf r -> 0 <= i -> rcd_index r + i <= rcd_length r ->
  rest (with_index r (rcd_index r + i)) = drop (Z.to_nat i) (rest r).
Proof.
  intros [_ _ Hu Hi] ??. unfold rest. cbn. rewrite drop_drop, uwrap_small; [f_equal; lia|].
  unfold fits in *. lia.
Qed.

Lemma decode_value_spec r ty len :
  wf r -> 0 <= len <= 127 ->
  decode_value r ty len =
    if rcd_length r - rcd_index r <? len then (TLV_RES_ERROR, r, None)
    else (TLV_RES_OK, with_index r (rcd_index r + len),
          Some {| type := ty; length := len; value := rest r |}).
Proof. intros Hr ?. unfold decode_value. by rewrite wf_remaining. Qed.

(** The decoder on the bytes left in the buffer. *)
Lemma getNextItem_spec r :
  wf r ->
  Tlv_Decode_getNextItem r =
    match rest r with
    | [] => (TLV_RES_END, r, None)
    | [_] | [_; _] => (TLV_RES_ERROR, r, None)
    | t0 :: l :: t1 :: _ =>
        if negb (Z.land l 128 =? 0) then
          decode_value (with_index r (rcd_index r + 3)) (t0 + 256 * t1) (Z.land l 127)
        else decode_value (with_index r (rcd_index r + 2)) t0 (Z.land l 127)
    end.
Proof.
  intros Hr. pose proof (length_rest r Hr) as Hl. pose proof Hr as [Hb Hlen Hu Hi].
  unfold Tlv_Decode_getNextItem, MINIMAL_TLV_SIZE. rewrite wf_remaining by done.
  assert (Hbr : bytes (rest r)) by (by apply Forall_drop). unfold fits in Hu.
  destruct (rest r) as [|t0 [|l [|t1 tl]]] eqn:E; cbn [List.length] in Hl.
  1-3: repeat (case_match; bool_props; try lia); done.
  assert (Hat : forall k, 0 <= k -> byte_at r (rcd_index r + k) = (t0 :: l :: t1 :: tl) !!! Z.to_nat k).
  { intros k ?. by rewrite byte_at_rest, E by done. }
  apply Forall_cons in Hbr as [Ht0 Hbr]. apply Forall_cons in Hbr as [_ Hbr].
  apply Forall_cons in Hbr as [Ht1 _].
  pose proof (Hat 0 ltac:(done)) as H0. rewrite Z.add_0_r in H0. rewrite H0, (Hat 1) by done.
  change ((t0 :: l :: t1 :: tl) !!! Z.to_nat 0) with t0.
  change ((t0 :: l :: t1 :: tl) !!! Z.to_nat 1) with l.
  destruct (Z.eqb_spec (rcd_length r - rcd_index r) 0); [lia|].
  destruct (Z.ltb_spec (rcd_length r - rcd_index r) 3); [lia|].
  rewrite land_255 by done. case_match; [|done].
  replace (byte_at (with_index r (rcd_index r + 2)) (rcd_index (with_index r (rcd_index r + 2))))
    with t1.
  2:{ cbn. rewrite uwrap_small by (unfold fits; lia). unfold byte_at. cbn. symmetry. by apply (Hat 2). }
  rewrite land_255, Z.shiftl_mul_pow2 by done. rewrite uwrap_small by (unfold fits in *; lia).
  f_equal; [|lia]. unfold with_index. cbn. f_equal.
  rewrite (uwrap_small 8 (rcd_index r + 2)) by (unfold fits; lia). f_equal. lia.
Qed.

Lemma low7_bits x :
  0 <= x <= 127 ->
  Z.land x 127 = x /\ Z.land x 128 = 0 /\
  Z.land (128 + x) 127 = x /\ Z.land (128 + x) 128 = 128.
Proof.
  intros Hx.
  assert (Hc : all_bytes (fun x => negb (x <=? 127) ||
    (Z.land x 127 =? x) && (Z.land x 128 =? 0) &&
    (Z.land (128 + x) 127 =? x) && (Z.land (128 + x) 128 =? 128)) = true) by by vm_compute.
  apply (all_bytes_spec _ x) in Hc; [|unfold fits; lia]. cbv beta in Hc.
  rewrite (proj2 (Z.leb_le x 127)) in Hc by lia. cbn [negb orb] in Hc. by bool_props.
Qed.

(** Reading all items: calls until the result is not [TLV_RES_OK]. *)
Fixpoint decode_all (fuel : nat) (r : tlv_record)
    : option (list tlv_item_t * tlv_res_e * tlv_record) :=
  match fuel with
  | O => None
  | S fuel =>
      match Tlv_Decode_getNextItem r with
      | (TLV_RES_OK, r1, Some item) =>
          '(items, res, r2) ← decode_all fuel r1; Some (item :: items, res, r2)
      | (res, r1, _) => Some ([], res, r1)
      end
  end.

Lemma decode_all_S fuel r :
  decode_all (S fuel) r =
    match Tlv_Decode_getNextItem r with
    | (TLV_RES_OK, r1, Some item) =>
        '(items, res, r2) ← decode_all fuel r1; Some (item :: items, res, r2)
    | (res, r1, _) => Some ([], res, r1)
    end.
Proof. done. Qed.

Fixpoint encode_all (r : tlv_record) (items : list tlv_item_t) : option tlv_record :=
  match items with
  | [] => Some r
  | item :: items =>
      match Tlv_Encode_addItem r item with
      | (TLV_RES_OK, r1) => encode_all r1 items
      | _ => None
      end
  end.

(** One step on the wire form of an item. *)
Lemma getNextItem_wire r item tl :
  wf r -> item_wf item -> length item <= 127 ->
  rest r = wire item ++ tl -> (3 <= List.length (rest r))%nat ->
  Tlv_Decode_getNextItem r =
    (TLV_RES_OK, with_index r (rcd_index r + Z.of_nat (List.length (wire item))),
     Some {| type := type item; length := length item; value := item_bytes item ++ tl |}).
Proof.
  intros Hr Hi Hl E H3. pose proof (length_rest r Hr) as Hn. pose proof Hr as [_ _ Hu Hx].
  rewrite getNextItem_spec by done. rewrite E in H3, Hn |- *.
  rewrite length_app, Nat2Z.inj_add, length_wire in Hn by done. rewrite length_wire by done.
  pose proof (item_length _ Hi) as Hli. pose proof (item_type _ Hi) as Hti.
  destruct (low7_bits (length item)) as (B1 & B2 & B3 & B4); [unfold fits in *; lia|].
  unfold wire, SIZE_EXTENDED_HEADER, SIZE_SHORT_HEADER, fits in *.
  destruct (Z.ltb_spec 255 (type item)) as [Ht|Ht]; cbn [app].
  - rewrite B3, B4. cbn [negb Z.eqb].
    rewrite decode_value_spec by (try apply with_index_wf; done || lia).
    cbn [rcd_length with_index rcd_index]. rewrite uwrap_small by (unfold fits; lia).
    destruct (Z.ltb_spec (rcd_length r - (rcd_index r + 3)) (length item)); [lia|].
    fold (with_index r (rcd_index r + 3)). rewrite rest_with_index, E by (done || lia).
    f_equal; [f_equal; unfold with_index; cbn; f_equal; f_equal; lia|].
    f_equal. f_equal. pose proof (Z_div_mod_eq_full (type item) 256). lia.
  - assert (Htl : exists b tl', item_bytes item ++ tl = b :: tl').
    { cbn in H3. destruct (item_bytes item ++ tl); cbn in H3; [lia|eauto]. }
    destruct Htl as (b & tl' & Etl). rewrite Etl in *. rewrite B1, B2. cbn [negb Z.eqb].
    rewrite decode_value_spec by (try apply with_index_wf; done || lia).
    cbn [rcd_length with_index rcd_index]. rewrite uwrap_small by (unfold fits; lia).
    destruct (Z.ltb_spec (rcd_length r - (rcd_index r + 2)) (length item)); [lia|].
    fold (with_index r (rcd_index r + 2)). rewrite rest_with_index, E by (done || lia).
    f_equal; [f_equal; unfold with_index; cbn; do 2 f_equal; lia|].
    by rewrite <- Etl.
Qed.

(** ** Round trip *)

(** What a reader of an item can see of it. *)
Definition view (item : tlv_item_t) : Z * Z * list Z := (type item, length item, item_bytes item).

Definition wires (items : list tlv_item_t) : list Z := mjoin (wire <$> items).

Lemma wires_cons item items : wires (item :: items) = wire item ++ wires items.
Proof. done. Qed.

Lemma encode_all_spec items r r' :
  wf r -> Forall item_wf items -> encode_all r items = Some r' ->
  Forall (fun i => length i <= 127) items /\
  rcd_index r + Z.of_nat (List.length (wires items)) <= rcd_length r /\ r' = put r (wires items).
Proof.
  intros Hr Hi. revert r Hr. induction Hi as [|item items Hi Hall IH]; intros r Hr.
  { cbn. intros [= <-]. pose proof Hr as [Hb Hl Hu Hx].
    split_and!; [constructor|change (wires []) with (@nil Z); cbn; lia|].
    unfold put, with_index, with_buffer. change (wires []) with (@nil Z).
    cbn. rewrite Z.add_0_r, uwrap_small by (unfold fits in *; lia). by destruct r. }
  cbn [encode_all]. rewrite addItem_spec by done.
  destruct (_ || _) eqn:E; [done|]. bool_props.
  intros Henc. apply IH in Henc as (Hl & Hroom & ->);
    [|apply put_wf; [done|by apply wire_bytes|lia]].
  pose proof Hr as [_ _ Hu Hx]. cbn in Hroom.
  rewrite uwrap_small in Hroom by (unfold fits in *; lia).
  rewrite wires_cons. split_and!; [by constructor|rewrite length_app; lia|].
  apply put_put; [done|]. rewrite length_app. lia.
Qed.

(** The last item must take at least three bytes on the wire. *)
Definition last_readable (items : list tlv_item_t) : Prop :=
  match last items with Some i => (3 <= List.length (wire i))%nat | None => True end.

Lemma wire_length2 item : item_wf item -> (2 <= List.length (wire item))%nat.
Proof.
  intros Hi. pose proof (length_wire _ Hi) as Hw. destruct Hi as [_ Hl _ _].
  unfold SIZE_EXTENDED_HEADER, SIZE_SHORT_HEADER, fits in *. case_match; lia.
Qed.

Lemma last_readable_rest item items :
  Forall item_wf (item :: items) -> last_readable (item :: items) ->
  (3 <= List.length (wires (item :: items)))%nat /\ last_readable items.
Proof.
  intros Hi Hl. rewrite wires_cons, length_app.
  apply Forall_cons in Hi as [Hi Hall]. pose proof (wire_length2 _ Hi).
  destruct items as [|i items]; [split; [exact (Nat.le_trans _ _ _ Hl (Nat.le_add_r _ _))|done]|].
  split; [|exact Hl]. rewrite wires_cons, length_app.
  apply Forall_cons in Hall as [Hi' _]. pose proof (wire_length2 _ Hi'). lia.
Qed.

Lemma take_item_bytes item tl :
  item_wf item -> take (Z.to_nat (length item)) (item_bytes item ++ tl) = item_bytes item.
Proof.
  intros Hi. rewrite take_app_le by (rewrite length_item_bytes; done).
  apply take_ge. by rewrite length_item_bytes.
Qed.

Lemma decode_all_wires items r :
  wf r -> Forall item_wf items -> Forall (fun i => length i <= 127) items ->
  last_readable items -> rest r = wires items ->
  exists items' r', decode_all (S (List.length items)) r = Some (items', TLV_RES_END, r') /\
    view <$> items' = view <$> items /\ rcd_index r' = rcd_length r.
Proof.
  intros Hr Hi. revert r Hr. induction Hi as [|item items Hi Hall IH]; intros r Hr Hl Hlast E.
  { exists [], r. cbn [decode_all List.length]. rewrite getNextItem_spec, E by done.
    pose proof (length_rest r Hr) as Hn. rewrite E in Hn. change (wires []) with (@nil Z) in *.
    cbn in *. split_and!; [done..|lia]. }
  apply last_readable_rest in Hlast as [H3 Hlast]; [|by constructor].
  apply Forall_cons in Hl as [Hli Hl]. rewrite wires_cons in E, H3.
  pose proof (length_rest r Hr) as Hn. rewrite E, length_app in Hn.
  pose proof (length_app (wire item) (wires items)).
  cbn [List.length]. rewrite decode_all_S.
  rewrite (getNextItem_wire _ item (wires items)) by (done || by rewrite E).
  set (r1 := with_index _ _). pose proof Hr as [_ _ Hu Hx].
  destruct (IH r1) as (items' & r' & Hd & Hv & Hi'); [apply with_index_wf; done || lia|done..| |].
  { subst r1. rewrite rest_with_index, E, Nat2Z.id by (done || lia). by rewrite drop_app_length. }
  rewrite Hd. cbn [mbind option_bind]. eexists _, r'. split_and!; [done| |done].
  rewrite !fmap_cons, Hv. f_equal. unfold view. f_equal.
  exact (take_item_bytes item _ Hi).
Qed.

(** C23: what the encoder writes, the decoder reads.  Adding items one after the
    other to an empty record, every call succeeding, and decoding the encoded
    bytes gives back the same types, lengths and values in the same order,
    followed by TLV_RES_END, provided that the last item takes at least three
    bytes on the wire. *)
Theorem tlv_roundtrip (buf : list Z) (items : list tlv_item_t) (r : tlv_record)
    (Hbuf : bytes buf) (Hlen : (List.length buf < 256)%nat) (Hitems : Forall item_wf items)
    (Hlast : last_readable items)
    (Henc : encode_all (Tlv_init buf (Z.of_nat (List.length buf))) items = Some r) :
  let sent := take (Z.to_nat (Tlv_Encode_getBufferSize r)) (rcd_buffer r) in
  exists items' r',
    decode_all (S (List.length items)) (Tlv_init sent (Tlv_Encode_getBufferSize r))
      = Some (items', TLV_RES_END, r') /\
    view <$> items' = view <$> items.
Proof.
  apply encode_all_spec in Henc as (Hl & Hroom & ->); [|by apply wf_init|done].
  cbn in Hroom. intros sent. unfold Tlv_Encode_getBufferSize.
  set (n := List.length (wires items)) in *.
  assert (Hx : rcd_index (put (Tlv_init buf (Z.of_nat (List.length buf))) (wires items))
    = Z.of_nat n) by (cbn; apply uwrap_small; unfold fits; lia).
  assert (Hsent : sent = wires items).
  { subst sent. unfold Tlv_Encode_getBufferSize. rewrite Hx, Nat2Z.id. cbn.
    rewrite blit_app, take_0 by (cbn; lia). cbn [app]. apply take_app_length. }
  rewrite Hx, Hsent. clear Hsent sent.
  assert (Hb : bytes (wires items)).
  { unfold wires. apply Forall_join, Forall_fmap, Forall_forall. intros i Hin.
    rewrite Forall_forall in Hitems, Hl. apply wire_bytes; [by apply Hitems|by apply (Hl i)]. }
  destruct (decode_all_wires items (Tlv_init (wires items) (Z.of_nat (List.length (wires items)))))
    as (items' & r' & Hd & Hv & _); [apply wf_init; [done|lia]|done..|].
  by exists items', r'.
Qed.

Lemma tlv_roundtrip_witness :
  let items := [ {| type := 3; length := 2; value := [10; 11; 12] |};
                 {| type := 513; length := 1; value := [255] |} ] in
  exists r items' r',
    encode_all (Tlv_init (replicate 16 0) 16) items = Some r /\
    decode_all 3 (Tlv_init (take (Z.to_nat (rcd_index r)) (rcd_buffer r)) (rcd_index r))
      = Some (items', TLV_RES_END, r') /\ view <$> items' = view <$> items.
Proof.
  intros items. eexists. 
  destruct (tlv_roundtrip (replicate 16 0) items
    (default (Tlv_init [] 0) (encode_all (Tlv_init (replicate 16 0) 16) items)))
    as (items' & r' & Hd & Hv).
  - repeat constructor; by vm_compute.
  - vm_compute. lia.
  - repeat constructor; cbn; by vm_compute.
  - vm_compute. lia.
  - vm_compute. reflexivity.
  - exists items', r'. split; [vm_compute; reflexivity|]. split; [exact Hd|exact Hv].
Defined.

(** ** Totality and bounds of the decoder *)

Lemma decode_value_wf r ty len res r' o :
  wf r -> 0 <= len <= 127 -> is_u16 ty -> decode_value r ty len = (res, r', o) ->
  wf r' /\ rcd_index r <= rcd_index r' /\
  ((res = TLV_RES_ERROR /\ o = None) \/
   (res = TLV_RES_OK /\ exists item, o = Some item /\ item_wf item)).
Proof.
  intros Hr Hl Ht. rewrite decode_value_spec by done.
  pose proof Hr as [Hb Hlen Hu Hx].
  destruct (Z.ltb_spec (rcd_length r - rcd_index r) len); intros; simplify_eq.
  { split_and!; [done|done|by left]. }
  split_and!; [apply with_index_wf; done || lia| |].
  - cbn. rewrite uwrap_small; unfold fits in *; lia.
  - right. split; [done|]. eexists. split; [done|]. constructor; cbn; [done| | |].
    + unfold fits. lia.
    + by apply Forall_drop.
    + rewrite length_rest by done. lia.
Qed.

Lemma getNextItem_wf r res r' o :
  wf r -> Tlv_Decode_getNextItem r = (res, r', o) ->
  wf r' /\
  ((res = TLV_RES_OK /\ rcd_index r + 2 <= rcd_index r' /\
    exists item, o = Some item /\ item_wf item) \/
   (res <> TLV_RES_OK /\ o = None)).
Proof.
  intros Hr. rewrite getNextItem_spec by done. pose proof (length_rest r Hr) as Hn.
  pose proof Hr as [Hb Hlen Hu Hx].
  assert (Hbr : bytes (rest r)) by (by apply Forall_drop).
  destruct (rest r) as [|t0 [|l [|t1 tl]]]; [intros; simplify_eq; by auto..|].
  apply Forall_cons in Hbr as [Ht0 Hbr]. apply Forall_cons in Hbr as [_ Hbr].
  apply Forall_cons in Hbr as [Ht1 _]. cbn [List.length] in Hn.
  pose proof (land_127_range l) as Hl.
  case_match; intros Hd; apply decode_value_wf in Hd as (Hw & Hi & Hres);
    try (apply with_index_wf; done || lia); try (unfold fits in *; lia).
  all: cbn in Hi; rewrite uwrap_small in Hi by (unfold fits in *; lia).
  all: split; [done|]; destruct Hres as [[-> ->]|[-> ?]]; [by right|].
  all: left; split_and!; [done|lia|done].
Qed.

(** decoding any well-formed buffer ends: after at most half as many calls
    as there are bytes the decoder returns TLV_RES_END or TLV_RES_ERROR, the
    record is still well formed (the index never leaves the buffer), and each
    item returned has a 16-bit type, a length below 128 and a value that lies
    entirely inside the buffer. *)
Theorem tlv_decode_total (r : tlv_record) (Hr : wf r) :
  exists items res r',
    decode_all (S (Z.to_nat (rcd_length r) / 2)) r = Some (items, res, r') /\
    res <> TLV_RES_OK /\ wf r' /\ Forall item_wf items.
Proof.
  enough (Hgen : forall fuel r, wf r -> (Z.to_nat (rcd_length r - rcd_index r) / 2 < fuel)%nat ->
    exists items res r', decode_all fuel r = Some (items, res, r') /\
      res <> TLV_RES_OK /\ wf r' /\ Forall item_wf items).
  { apply Hgen; [done|]. destruct Hr as [_ _ _ Hx]. apply Nat.lt_succ_r, Nat.Div0.div_le_mono. lia. }
  clear r Hr. intros fuel. induction fuel as [|fuel IH]; intros r Hr Hf; [lia|].
  rewrite decode_all_S. destruct (Tlv_Decode_getNextItem r) as [[res r'] o] eqn:E.
  pose proof (getNextItem_wf _ _ _ _ Hr E) as [Hr' [(-> & Hi & item & -> & Hit)|[Hne ->]]].
  - assert (Hlen : rcd_length r' = rcd_length r).
    { revert E. rewrite getNextItem_spec by done. unfold decode_value.
      repeat case_match; intros; by simplify_eq. }
    destruct (IH r' Hr') as (items & res & r'' & Hd & Hres & Hw & Hall).
    { rewrite Hlen. pose proof Hr' as [_ _ _ Hx']. rewrite Hlen in Hx'.
      assert (Hle : (Z.to_nat (rcd_length r - rcd_index r') + 1 * 2
        <= Z.to_nat (rcd_length r - rcd_index r))%nat) by lia.
      apply (Nat.Div0.div_le_mono _ _ 2) in Hle. rewrite Nat.div_add in Hle by done. lia. }
    rewrite Hd. cbn [mbind option_bind]. eexists _, _, _. split_and!; eauto.
  - exists [], res, r'. split_and!; [by destruct res|done|done|constructor].
Qed.

Lemma tlv_decode_total_witness :
  let r := Tlv_init [7; 1; 42; 9; 200] 5 in
  wf r /\ exists items res r',
    decode_all 3 r = Some (items, res, r') /\ res <> TLV_RES_OK /\ wf r' /\ Forall item_wf items.
Proof.
  intros r. assert (Hr : wf r).
  { apply (wf_init [7; 1; 42; 9; 200]); [repeat constructor; by vm_compute|cbn; lia]. }
  split; [exact Hr|]. exact (tlv_decode_total r Hr).
Defined.

(** The encoder accepts an item without value bytes; as last item of a buffer
    the decoder rejects it, elsewhere it returns it. *)
Lemma tlv_empty_item ty b :
  0 <= ty <= 255 -> is_u8 b ->
  let item := {| type := ty; length := 0; value := [] |} in
  (Tlv_Encode_addItem (Tlv_init [0; 0] 2) item).1 = TLV_RES_OK /\
  (Tlv_Decode_getNextItem (Tlv_init (wire item) 2)).1.1 = TLV_RES_ERROR /\
  (Tlv_Decode_getNextItem (Tlv_init (wire item ++ [b]) 3)).1.1 = TLV_RES_OK.
Proof.
  intros Ht Hb item. assert (Hw : wire item = [ty; 0]).
  { unfold wire, item. cbn [type]. destruct (Z.ltb_spec 255 ty); [lia|done]. }
  assert (Hty : is_u8 ty) by (unfold fits; lia). rewrite Hw. split_and!; [|done|].
  - unfold Tlv_Encode_addItem. cbn. destruct (Z.ltb_spec 255 ty); [lia|done].
  - rewrite getNextItem_spec.
    + cbn. done.
    + apply (wf_init [ty; 0; b]); [byte_list|cbn; lia].
Qed.
