(* ===== verification/SlList.v ===== *)
(** * Intrusive singly linked lists

    Models [util/sl_list.c] on an explicit heap.  The first word of a list
    head and of an element is its [next] pointer, which is why the code casts
    [sl_list_head_t *] to [sl_list_t *]; a head has a [last] pointer and a
    [size] besides.  A dereference of [NULL] or of memory that is neither an
    element nor a head makes the operation return [None].

    The loops take fuel; the theorems show that one more than the length of
    the list is enough. *)

From S2P Require Import Prelude.

Abbreviation loc := positive.
Abbreviation ptr := (option positive).

Record sl_list_head_t := { h_last : ptr; h_size : Z }.

Record mem := { m_next : gmap loc ptr; m_head : gmap loc sl_list_head_t }.

(** ** Loads and stores *)

Definition load_next (m : mem) (p : ptr) : option ptr := x ← p; m_next m !! x.

Definition store_next (m : mem) (p : ptr) (v : ptr) : option mem :=
  x ← p; _ ← m_next m !! x;
  Some {| m_next := <[x := v]> (m_next m); m_head := m_head m |}.

Definition load_head (m : mem) (h : loc) : option sl_list_head_t := m_head m !! h.

Definition store_head (m : mem) (h : loc) (hd : sl_list_head_t) : option mem :=
  _ ← m_head m !! h; Some {| m_next := m_next m; m_head := <[h := hd]> (m_head m) |}.

Definition store_last (m : mem) (h : loc) (p : ptr) : option mem :=
  hd ← load_head m h; store_head m h {| h_last := p; h_size := h_size hd |}.

(** [list_head->size++] and [list_head->size--] on a [uint32_t]. *)
Definition add_size (m : mem) (h : loc) (d : Z) : option mem :=
  hd ← load_head m h; store_head m h {| h_last := h_last hd; h_size := u32 (h_size hd + d) |}.

(** ** The operations *)

Definition sl_list_init (m : mem) (h : loc) : option mem :=
  m ← store_next m (Some h) None;
  store_head m h {| h_last := None; h_size := 0 |}.

Definition sl_list_next (m : mem) (iter : ptr) : option ptr := load_next m iter.

Definition sl_list_push_back (m : mem) (h e : loc) : option mem :=
  hn ← load_next m (Some h);
  m ← match hn with
      | None => store_next m (Some h) (Some e)
      | Some _ => hd ← load_head m h; store_next m (h_last hd) (Some e)
      end;
  m ← store_last m h (Some e);
  m ← store_next m (Some e) None;
  add_size m h 1.

Definition sl_list_push_front (m : mem) (h e : loc) : option mem :=
  hn ← load_next m (Some h);
  m ← store_next m (Some e) hn;
  m ← store_next m (Some h) (Some e);
  hd ← load_head m h;
  m ← match h_last hd with None => store_last m h (Some e) | Some _ => Some m end;
  add_size m h 1.

(** [while (h->next != iter) h = h->next;] *)
Fixpoint find_prev (fuel : nat) (m : mem) (h iter : ptr) : option ptr :=
  match fuel with
  | O => None
  | S fuel =>
      n ← load_next m h;
      if decide (n = iter) then Some h else find_prev fuel m n iter
  end.

Definition sl_list_push_before (fuel : nat) (m : mem) (h : loc) (iter : ptr) (e : loc)
    : option mem :=
  p ← find_prev fuel m (Some h) iter;
  n ← load_next m p;
  m ← store_next m (Some e) n;
  m ← store_next m p (Some e);
  add_size m h 1.

(** [while (h->next != NULL) { prev = h; h = prev->next; }] *)
Fixpoint find_last (fuel : nat) (m : mem) (prev h : ptr) : option (ptr * ptr) :=
  match fuel with
  | O => None
  | S fuel =>
      n ← load_next m h;
      match n with
      | None => Some (prev, h)
      | Some _ => find_last fuel m h n
      end
  end.

Definition sl_list_pop_back (fuel : nat) (m : mem) (h : loc) : option (ptr * mem) :=
  hn ← load_next m (Some h);
  match hn with
  | None => Some (None, m)
  | Some _ =>
      '(prev, x) ← find_last fuel m None (Some h);
      m ← store_next m prev None;
      m ← add_size m h (-1);
      m ← (if decide (prev = Some h) then store_last m h None else store_last m h prev);
      m ← store_next m x None;
      Some (x, m)
  end.

Definition sl_list_pop_front (m : mem) (h : loc) : option (ptr * mem) :=
  ret ← load_next m (Some h);
  match ret with
  | None => Some (None, m)
  | Some _ =>
      m ← add_size m h (-1);
      n ← load_next m ret;
      m ← store_next m (Some h) n;
      m ← match n with None => store_last m h None | Some _ => Some m end;
      m ← store_next m ret None;
      Some (ret, m)
  end.

(** The search loop of [sl_list_remove]; [None] inside: the element was not
    found. *)
Fixpoint find_elem (fuel : nat) (m : mem) (p : ptr) (e : loc) : option (option ptr) :=
  match fuel with
  | O => None
  | S fuel =>
      n ← load_next m p;
      match n with
      | None => Some None
      | Some x => if decide (x = e) then Some (Some p) else find_elem fuel m n e
      end
  end.

Definition sl_list_remove (fuel : nat) (m : mem) (h e : loc) : option (ptr * mem) :=
  r ← find_elem fuel m (Some h) e;
  match r with
  | None => Some (Some e, m)
  | Some p =>
      n ← load_next m (Some e);
      m ← store_next m p n;
      m ← add_size m h (-1);
      hd ← load_head m h;
      m ← (if decide (h_last hd = Some e) then
             if decide (p = Some h) then store_last m h None else store_last m h p
           else Some m);
      Some (Some e, m)
  end.

Definition sl_list_pop (fuel : nat) (m : mem) (h e : loc) : option (ptr * mem) :=
  '(e, m) ← sl_list_remove fuel m h e;
  m ← store_next m e None;
  Some (e, m).

(** [while ((h != NULL) && (idx != 0)) { h = next(h); idx--; }] *)
Fixpoint at_loop (fuel : nat) (m : mem) (p : ptr) (idx : Z) : option ptr :=
  match fuel with
  | O => None
  | S fuel =>
      if decide (p <> None /\ idx <> 0)
      then n ← sl_list_next m p; at_loop fuel m n (idx - 1)
      else Some p
  end.

Definition sl_list_at (fuel : nat) (m : mem) (h : loc) (idx : Z) : option ptr :=
  n ← sl_list_next m (Some h); at_loop fuel m n idx.

(** The loop of [sl_list_search]; [sl_list_contains] compares addresses. *)
Fixpoint search_loop (fuel : nat) (m : mem) (f : loc -> bool) (p : ptr) : option ptr :=
  match fuel with
  | O => None
  | S fuel =>
      match p with
      | None => Some None
      | Some x => if f x then Some p else n ← sl_list_next m p; search_loop fuel m f n
      end
  end.

Definition sl_list_search (fuel : nat) (m : mem) (start : ptr) (f : loc -> bool) : option ptr :=
  n ← sl_list_next m start; search_loop fuel m f n.

Definition sl_list_contains (fuel : nat) (m : mem) (h e : loc) : option Z :=
  r ← sl_list_search fuel m (Some h) (fun x => bool_decide (x = e));
  Some (match r with Some _ => 1 | None => 0 end).

Definition sl_list_size (m : mem) (h : loc) : option Z := hd ← load_head m h; Some (h_size hd).

(** The three [memcpy]s exchange the three words of the two heads. *)
Definition sl_list_swap (m : mem) (h1 h2 : loc) : option mem :=
  n1 ← load_next m (Some h1); d1 ← load_head m h1;
  n2 ← load_next m (Some h2); d2 ← load_head m h2;
  m ← store_next m (Some h1) n2; m ← store_head m h1 d2;
  m ← store_next m (Some h2) n1; store_head m h2 d1.

(** ** Representation

    [seg m p l q]: following [next] from [p] visits the elements of [l] and
    ends at [q]. *)

Fixpoint seg (m : mem) (p : ptr) (l : list loc) (q : ptr) : Prop :=
  match l with
  | [] => p = q
  | x :: l => p = Some x /\ exists n, m_next m !! x = Some n /\ seg m n l q
  end.

(** The list with head [h] holds the elements [l]. *)
Definition is_list (m : mem) (h : loc) (l : list loc) : Prop :=
  (exists p, m_next m !! h = Some p /\ seg m p l None) /\
  m_head m !! h = Some {| h_last := last l; h_size := u32 (Z.of_nat (length l)) |} /\
  NoDup (h :: l).

(** [m'] differs from [m] at most in the [next] words of [fp] and the head [h]. *)
Definition same_off (m m' : mem) (fp : list loc) (h : loc) : Prop :=
  (forall x, x ∉ fp -> m_next m' !! x = m_next m !! x) /\
  (forall x, x <> h -> m_head m' !! x = m_head m !! x) /\
  (forall x, is_Some (m_next m !! x) -> is_Some (m_next m' !! x)).

Lemma seg_frame m m' p l q :
  (forall x, x ∈ l -> m_next m' !! x = m_next m !! x) -> seg m p l q -> seg m' p l q.
Proof.
  revert p. induction l as [|x l IH]; intros p Hm; [done|]. cbn.
  intros (-> & n & Hn & Hs). split; [done|]. exists n.
  split; [rewrite Hm; [done|left]|]. apply IH; [|done]. intros y Hy. apply Hm. by right.
Qed.

Lemma seg_app m p l1 l2 q :
  seg m p (l1 ++ l2) q <-> exists r, seg m p l1 r /\ seg m r l2 q.
Proof.
  revert p. induction l1 as [|x l1 IH]; intros p; cbn.
  - split; [intros; by exists p|]. by intros (r & -> & ?).
  - split.
    + intros (-> & n & Hn & Hs). apply IH in Hs as (r & ? & ?). eauto 10.
    + intros (r & (-> & n & Hn & Hs1) & Hs2). split; [done|]. exists n. split; [done|].
      apply IH. eauto.
Qed.

Lemma seg_snoc m p l x q :
  seg m p (l ++ [x]) q <-> seg m p l (Some x) /\ m_next m !! x = Some q.
Proof.
  rewrite seg_app. split.
  - intros (r & Hs & -> & n & Hn & ->). done.
  - intros [Hs Hn]. exists (Some x). split; [done|]. cbn. eauto.
Qed.

Lemma is_list_frame m m' h l fp h' :
  same_off m m' fp h' -> h <> h' -> h ∉ fp -> (forall x, x ∈ l -> x ∉ fp) ->
  is_list m h l -> is_list m' h l.
Proof.
  intros (Hn & Hh & _) Hne Hfp Hl ((p & Hp & Hs) & Hd & Hdup).
  split_and!; [|by rewrite Hh|done].
  exists p. split; [by rewrite Hn|]. apply (seg_frame m); [|done]. intros x Hx. by apply Hn, Hl.
Qed.

(** Unfold the loads and stores of an operation whose lookups are known. *)
Ltac heap_step :=
  unfold load_next, store_next, load_head, store_head, store_last, add_size, sl_list_next in *;
  cbn [mbind option_bind m_next m_head h_last h_size] in *.

Ltac heap :=
  repeat (heap_step; simplify_map_eq).

(** Each word of [same_off] after a chain of stores. *)
Ltac frame_tac :=
  split_and!; cbn [m_next m_head];
  [intros ? Hnotin; rewrite ?not_elem_of_cons in Hnotin; destruct_and?;
   rewrite ?lookup_insert_ne by congruence; try done
  |intros ? Hneq; rewrite ?lookup_insert_ne by congruence; try done
  |intros ? Hsome; rewrite ?lookup_insert; repeat case_decide; eauto].

Lemma push_size l (e : loc) :
  u32 (u32 (Z.of_nat (length l)) + 1) = u32 (Z.of_nat (length (l ++ [e]))).
Proof. rewrite uwrap_add_l, length_app. f_equal. cbn. lia. Qed.

Lemma init_spec m h :
  is_Some (m_next m !! h) -> is_Some (m_head m !! h) ->
  exists m', sl_list_init m h = Some m' /\ is_list m' h [] /\ same_off m m' [h] h.
Proof.
  intros [n Hn] [d Hd]. unfold sl_list_init. heap. eexists. split; [done|]. split.
  - split_and!; cbn; [exists None|..]; simplify_map_eq; [done|done|].
    apply NoDup_singleton.
  - frame_tac.
Qed.

Lemma push_back_spec m h l e :
  is_list m h l -> e ∉ h :: l -> is_Some (m_next m !! e) ->
  exists m', sl_list_push_back m h e = Some m' /\ is_list m' h (l ++ [e]) /\
    same_off m m' (h :: e :: l) h.
Proof.
  intros ((p & Hp & Hs) & Hd & Hdup) He [ne Hne].
  apply not_elem_of_cons in He as [Heh Hel]. unfold sl_list_push_back.
  assert (Hdup' : NoDup (h :: l ++ [e])).
  { rewrite app_comm_cons. apply NoDup_app. split_and!; [done| |apply NoDup_singleton].
    intros x Hx Hxe. apply list_elem_of_singleton in Hxe as ->. by apply elem_of_cons in Hx as [?|?]. }
  destruct l as [|z l _] using rev_ind.
  - cbn in Hs. subst p. heap. eexists. split; [done|]. split.
    + split_and!; [exists (Some e)| |done]; heap; [|done]. cbn. split; [done|].
      split; [done|]. exists None. by simplify_map_eq.
    + frame_tac.
  - apply NoDup_cons in Hdup as [Hhl Hdl].
    assert (Hzh : z <> h) by (intros ->; apply Hhl; set_solver).
    assert (Hze : z <> e) by (intros ->; apply Hel; set_solver).
    apply seg_snoc in Hs as [Hs Hz].
    assert (Hpn : is_Some p) by (destruct l; cbn in Hs; [|destruct Hs]; subst; eauto).
    destruct Hpn as [p0 ->]. rewrite last_snoc in Hd. heap. eexists. split; [done|]. split.
    + split_and!; [exists (Some p0)| |done].
      * split; [by simplify_map_eq|]. apply seg_snoc. split; [|by simplify_map_eq].
        apply seg_snoc. split; [|by simplify_map_eq].
        apply (seg_frame m); [|done]. intros x Hx. cbn.
        apply NoDup_app in Hdl as (_ & Hd2 & _).
        assert (x <> z) by (intros ->; apply (Hd2 z Hx); set_solver).
        assert (x <> e) by (intros ->; apply Hel; set_solver).
        by rewrite !lookup_insert_ne by congruence.
      * simplify_map_eq. rewrite last_snoc. by rewrite (push_size _ e).
    + assert (z ∈ h :: e :: l ++ [z]) by set_solver.
      split_and!; cbn; intros x Hx.
      * rewrite !lookup_insert_ne by (intros ->; set_solver). done.
      * by rewrite ?lookup_insert_ne by congruence.
      * rewrite !lookup_insert. repeat case_decide; eauto.
Qed.

Lemma push_front_spec m h l e :
  is_list m h l -> e ∉ h :: l -> is_Some (m_next m !! e) ->
  exists m', sl_list_push_front m h e = Some m' /\ is_list m' h (e :: l) /\
    same_off m m' (h :: e :: l) h.
Proof.
  intros ((p & Hp & Hs) & Hd & Hdup) He [ne Hne].
  apply not_elem_of_cons in He as [Heh Hel]. unfold sl_list_push_front.
  apply NoDup_cons in Hdup as [Hhl Hdl].
  assert (Hdup' : NoDup (h :: e :: l)).
  { apply NoDup_cons. split; [set_solver|]. by apply NoDup_cons. }
  assert (Hsz : u32 (u32 (Z.of_nat (length l)) + 1) = u32 (Z.of_nat (length (e :: l)))).
  { rewrite uwrap_add_l. f_equal. cbn. lia. }
  assert (Hseg : forall m', (forall x, x ∈ l -> m_next m' !! x = m_next m !! x) ->
    m_next m' !! h = Some (Some e) -> m_next m' !! e = Some p ->
    exists q, m_next m' !! h = Some q /\ seg m' q (e :: l) None).
  { intros m' Hm Hh He. exists (Some e). split; [done|]. split; [done|]. exists p.
    split; [done|]. by apply (seg_frame m). }
  destruct l as [|z l].
  - heap. eexists. split; [done|]. split.
    + split_and!; [apply Hseg; cbn; [set_solver|by simplify_map_eq..]|by heap|done].
    + frame_tac.
  - assert (Hl : exists w, last (z :: l) = Some w).
    { destruct (last (z :: l)) eqn:E; [eauto|]. by apply last_None in E. }
    destruct Hl as [w Hw]. heap. rewrite Hw. heap. eexists. split; [done|]. split.
    + split_and!; [apply Hseg|..]; cbn [m_next m_head]; [|by simplify_map_eq..| |done].
      * intros x Hx. rewrite !lookup_insert_ne by (intros ->; set_solver). done.
      * heap. by rewrite Hw, Hsz.
    + frame_tac.
Qed.

Lemma pop_size (n : nat) : u32 (u32 (Z.of_nat (S n)) + -1) = u32 (Z.of_nat n).
Proof. rewrite uwrap_add_l. f_equal. lia. Qed.

Lemma pop_front_nil m h :
  is_list m h [] -> sl_list_pop_front m h = Some (None, m).
Proof. intros ((p & Hp & Hs) & _). cbn in Hs. subst. unfold sl_list_pop_front. by heap. Qed.

Lemma pop_front_spec m h x l :
  is_list m h (x :: l) ->
  exists m', sl_list_pop_front m h = Some (Some x, m') /\ is_list m' h l /\
    same_off m m' (h :: x :: l) h.
Proof.
  intros ((p & Hp & (-> & n & Hn & Hs)) & Hd & Hdup). unfold sl_list_pop_front.
  apply NoDup_cons in Hdup as [Hhl Hdl]. apply NoDup_cons in Hdl as [Hxl Hdl].
  assert (Hhx : h <> x) by (intros ->; set_solver).
  assert (Hdup' : NoDup (h :: l)) by (apply NoDup_cons; split; [set_solver|done]).
  heap. destruct l as [|z l].
  - cbn in Hs. subst n. heap. eexists. split; [done|]. split.
    + split_and!; [exists None| |done]; cbn; simplify_map_eq; done.
    + frame_tac.
  - destruct Hs as (-> & n2 & Hn2 & Hs). heap. rewrite pop_size.
    eexists. split; [done|]. split.
    + split_and!; [exists (Some z)| |done]; cbn; simplify_map_eq; [|done].
      split; [done|]. split; [done|]. exists n2.
      assert (z <> h /\ z <> x) as [??] by (split; intros ->; set_solver).
      split; [by simplify_map_eq|]. apply (seg_frame m); [|done]. intros y Hy. cbn.
      assert (y <> h /\ y <> x) as [??] by (split; intros ->; set_solver).
      by rewrite !lookup_insert_ne by congruence.
    + frame_tac.
Qed.

(** ** Searching *)

(** [prev_of h l i]: the node in front of position [i] of the list. *)
Definition prev_of (h : loc) (l : list loc) (i : nat) : loc :=
  match i with O => h | S i => l !!! i end.

Lemma find_elem_in fuel m c l e p :
  m_next m !! c = Some p -> seg m p l None -> (length l < fuel)%nat -> NoDup l ->
  forall i, l !! i = Some e -> find_elem fuel m (Some c) e = Some (Some (Some (prev_of c l i))).
Proof.
  revert c l p. induction fuel as [|fuel IH]; intros c l p Hc Hs Hf Hd i Hi; [lia|].
  destruct l as [|x l]; [done|]. destruct Hs as (-> & n & Hn & Hs). cbn. rewrite Hc. cbn.
  apply NoDup_cons in Hd as [Hx Hd]. destruct i as [|i]; cbn in Hi.
  - simplify_eq. by rewrite decide_True.
  - assert (x <> e) by (intros ->; apply Hx; by eapply list_elem_of_lookup_2).
    rewrite decide_False by done. cbn in Hf. rewrite (IH x l n Hn Hs ltac:(lia) Hd i Hi).
    done.
Qed.

Lemma find_elem_notin fuel m c l e p :
  m_next m !! c = Some p -> seg m p l None -> (length l < fuel)%nat -> e ∉ l ->
  find_elem fuel m (Some c) e = Some None.
Proof.
  revert c l p. induction fuel as [|fuel IH]; intros c l p Hc Hs Hf Hi; [lia|]. cbn.
  rewrite Hc. cbn. destruct l as [|x l]; cbn in Hs; [by subst|].
  destruct Hs as (-> & n & Hn & Hs). apply not_elem_of_cons in Hi as [? ?].
  rewrite decide_False by congruence. cbn in Hf. apply (IH x l n); done || lia.
Qed.

Lemma find_prev_in fuel m c l1 x l2 p :
  m_next m !! c = Some p -> seg m p (l1 ++ x :: l2) None -> (length l1 < fuel)%nat -> x ∉ l1 ->
  find_prev fuel m (Some c) (Some x) = Some (Some (prev_of c (l1 ++ x :: l2) (length l1))).
Proof.
  revert c l1 p. induction fuel as [|fuel IH]; intros c l1 p Hc Hs Hf Hi; [lia|].
  cbn. rewrite Hc. cbn. destruct l1 as [|y l1]; cbn in Hs.
  - destruct Hs as (-> & _). by rewrite decide_True.
  - destruct Hs as (-> & n & Hn & Hs). apply not_elem_of_cons in Hi as [? ?].
    rewrite decide_False by congruence. cbn in Hf. rewrite (IH y l1 n) by (done || lia).
    done.
Qed.

Lemma find_last_spec fuel m c l x p q :
  m_next m !! c = Some p -> seg m p (l ++ [x]) None -> (S (length l) < fuel)%nat ->
  find_last fuel m q (Some c) = Some (Some (prev_of c (l ++ [x]) (length l)), Some x).
Proof.
  revert c l p q. induction fuel as [|fuel IH]; intros c l p q Hc Hs Hf; [lia|].
  cbn [find_last]. heap. destruct l as [|y l]; cbn in Hs.
  - destruct Hs as (-> & n & Hn & ->). cbn in Hf. destruct fuel; [lia|]. cbn. by heap.
  - destruct Hs as (-> & n & Hn & Hs). cbn in Hf. rewrite (IH y l n) by (done || lia).
    done.
Qed.

Lemma at_loop_spec fuel m p l i :
  seg m p l None -> (length l < fuel)%nat ->
  at_loop fuel m p i = Some (if decide (0 <= i) then l !! Z.to_nat i else None).
Proof.
  revert p l i. induction fuel as [|fuel IH]; intros p l i Hs Hf; [lia|].
  destruct l as [|x l]; cbn in Hs |- *.
  - subst p. rewrite decide_False by naive_solver. by case_decide.
  - destruct Hs as (-> & n & Hn & Hs). destruct (decide (i = 0)) as [->|Hi].
    + by rewrite decide_False by naive_solver.
    + rewrite decide_True by done. heap. cbn in Hf. rewrite (IH n l) by (done || lia).
      f_equal. repeat case_decide; try lia; [|done].
      by replace (Z.to_nat i) with (S (Z.to_nat (i - 1))) by lia.
Qed.

Lemma search_loop_spec fuel m f p l :
  seg m p l None -> (length l < fuel)%nat ->
  search_loop fuel m f p = Some (snd <$> list_find (fun x => Is_true (f x)) l).
Proof.
  revert p l. induction fuel as [|fuel IH]; intros p l Hs Hf; [lia|].
  destruct l as [|x l]; cbn in Hs; [by subst|]. destruct Hs as (-> & n & Hn & Hs). cbn in Hf.
  cbn. destruct (f x) eqn:E; case_decide; try done.
  heap. rewrite (IH n l) by (done || lia). f_equal.
  by destruct (list_find _ l) as [[? ?]|].
Qed.

(** ** Removal and insertion in the middle *)

(** Cutting [x] out of the segment behind [c]: the predecessor is redirected. *)
Lemma seg_split m c p l1 x l2 :
  m_next m !! c = Some p -> seg m p (l1 ++ x :: l2) None ->
  m_next m !! prev_of c (l1 ++ x :: l2) (length l1) = Some (Some x) /\
  exists n, m_next m !! x = Some n /\ seg m n l2 None.
Proof.
  revert c p. induction l1 as [|y l1 IH]; intros c p Hc Hs; cbn in Hs.
  - destruct Hs as (-> & n & Hn & Hs). cbn. eauto.
  - destruct Hs as (-> & n & Hn & Hs). exact (IH y n Hn Hs).
Qed.

Lemma prev_of_in c l1 x l2 :
  prev_of c (l1 ++ x :: l2) (length l1) ∈ c :: l1.
Proof.
  destruct l1 as [|y l1]; cbn; [left|].
  right. assert (Hlt : (length l1 < length ((y :: l1) ++ x :: l2))%nat)
    by (rewrite length_app; cbn; lia).
  apply lookup_lt_is_Some_2 in Hlt as [z Hz]. cbn in Hz. rewrite (list_lookup_total_correct _ _ _ Hz).
  rewrite app_comm_cons, lookup_app_l in Hz by (cbn; lia). by eapply list_elem_of_lookup_2.
Qed.

Lemma prev_of_head h l1 x l2 :
  NoDup (h :: l1) -> prev_of h (l1 ++ x :: l2) (length l1) = h -> l1 = [].
Proof.
  intros Hd E. destruct l1 as [|y l1]; [done|]. exfalso.
  pose proof (prev_of_in y l1 x l2) as Hin.
  change (prev_of h ((y :: l1) ++ x :: l2) (length (y :: l1)))
    with (prev_of y (l1 ++ x :: l2) (length l1)) in E.
  rewrite E in Hin. by apply NoDup_cons in Hd as [? _].
Qed.

(** The chain from [c] after redirecting the predecessor of position [l1] to
    [v], with the tail [l2] reachable from [v]. *)
Lemma seg_redirect m m' c p l1 x l2 l2' v :
  m_next m !! c = Some p -> seg m p (l1 ++ x :: l2) None -> NoDup (c :: l1) ->
  m_next m' !! prev_of c (l1 ++ x :: l2) (length l1) = Some v ->
  (forall y, y ∈ c :: l1 -> y <> prev_of c (l1 ++ x :: l2) (length l1) ->
    m_next m' !! y = m_next m !! y) ->
  seg m' v l2' None ->
  exists q, m_next m' !! c = Some q /\ seg m' q (l1 ++ l2') None.
Proof.
  revert c p. induction l1 as [|y l1 IH]; intros c p Hc Hs Hd Hv Hm Hs'.
  - cbn in *. eauto.
  - destruct Hs as (-> & n & Hn & Hs). apply NoDup_cons in Hd as [Hcd Hd].
    change (prev_of c ((y :: l1) ++ x :: l2) (length (y :: l1)))
      with (prev_of y (l1 ++ x :: l2) (length l1)) in *.
    exists (Some y). split.
    + rewrite Hm; [done|left|]. intros ->. apply Hcd, prev_of_in.
    + cbn. split; [done|]. apply (IH y n); try done. intros z Hz. apply Hm. by right.
Qed.

Lemma NoDup_middle (h : loc) (l1 l2 : list loc) (x : loc) :
  NoDup (h :: l1 ++ x :: l2) ->
  NoDup (h :: l1) /\ x ∉ h :: l1 /\ x ∉ l2 /\ (forall y, y ∈ h :: l1 -> y ∉ l2) /\
  NoDup (h :: l1 ++ l2).
Proof.
  rewrite app_comm_cons. intros Hd. apply NoDup_app in Hd as (Hd1 & Hd & Hd2).
  apply NoDup_cons in Hd2 as [Hx Hd2]. split_and!; [done| |done| |].
  - intros Hin. apply (Hd x Hin). left.
  - intros y Hy Hin. apply (Hd y Hy). by right.
  - rewrite app_comm_cons. apply NoDup_app. split_and!; [done| |done].
    intros y Hy Hin. apply (Hd y Hy). by right.
Qed.

Lemma last_remove (l1 l2 : list loc) (x : loc) (h : loc) :
  x ∉ l2 -> last (l1 ++ l2) =
    if decide (last (l1 ++ x :: l2) = Some x)
    then if decide (prev_of h (l1 ++ x :: l2) (length l1) = h /\ l1 = []) then None
         else Some (prev_of h (l1 ++ x :: l2) (length l1))
    else last (l1 ++ x :: l2).
Proof.
  intros Hx. destruct l2 as [|z l2 _] using rev_ind.
  - rewrite app_nil_r, last_snoc, decide_True by done.
    destruct l1 as [|y l1 _] using rev_ind; [by rewrite decide_True|].
    rewrite last_snoc, decide_False by (intros [_ ?]; by destruct l1).
    rewrite length_app, Nat.add_comm. cbn [prev_of length Init.Nat.add]. f_equal.
    symmetry. apply list_lookup_total_correct. rewrite <- app_assoc. by apply list_lookup_middle.
  - rewrite (app_comm_cons l2 [z] x), !app_assoc, !last_snoc.
    rewrite decide_False; [done|]. intros [= ->]. apply Hx. set_solver.
Qed.

Lemma remove_in_spec fuel m h l1 x l2 :
  is_list m h (l1 ++ x :: l2) -> (length (l1 ++ x :: l2) < fuel)%nat ->
  exists m', sl_list_remove fuel m h x = Some (Some x, m') /\ is_list m' h (l1 ++ l2) /\
    same_off m m' (h :: l1 ++ x :: l2) h.
Proof.
  intros ((p & Hp & Hs) & Hd & Hdup) Hf. pose proof Hdup as Hdup0.
  apply NoDup_middle in Hdup0 as (Hd1 & Hx1 & Hx2 & Hdis & Hdup').
  destruct (seg_split m h p l1 x l2 Hp Hs) as (Hprev & n & Hn & Hs2).
  assert (Hdl : NoDup (l1 ++ x :: l2)) by by apply NoDup_cons in Hdup as [].
  unfold sl_list_remove. rewrite (find_elem_in fuel m h _ x p Hp Hs Hf Hdl (length l1))
    by by apply list_lookup_middle.
  pose proof (prev_of_in h l1 x l2) as Hpin.
  assert (Hpx : (prev_of h (l1 ++ x :: l2) (length l1)) <> x) by (intros E; rewrite E in Hpin; done).
  assert (Hsz : u32 (u32 (Z.of_nat (length (l1 ++ x :: l2))) + -1)
    = u32 (Z.of_nat (length (l1 ++ l2)))).
  { rewrite !length_app. cbn [length]. rewrite Nat.add_succ_r, pop_size. done. }
  cbn [mbind option_bind]. heap.
  assert (Hseg : forall m' : mem, m_next m' = <[(prev_of h (l1 ++ x :: l2) (length l1)) := n]> (m_next m) ->
    exists q, m_next m' !! h = Some q /\ seg m' q (l1 ++ l2) None).
  { intros m' Hm'. apply (seg_redirect m m' h p l1 x l2 l2 n); try done.
    - rewrite Hm'. by simplify_map_eq.
    - intros y Hy Hne. rewrite Hm', lookup_insert_ne; [done|]. intros Ey. by apply Hne.
    - apply (seg_frame m); [|done]. intros y Hy. rewrite Hm', lookup_insert_ne; [done|].
      intros Ey. subst y. by apply (Hdis _ Hpin). }
  assert (Hoff : forall m' : mem, m_next m' = <[(prev_of h (l1 ++ x :: l2) (length l1)) := n]> (m_next m) ->
    (forall y, y <> h -> m_head m' !! y = m_head m !! y) -> same_off m m' (h :: l1 ++ x :: l2) h).
  { intros m' Hm' Hh. split_and!; [|done|].
    - intros y Hy. rewrite Hm', lookup_insert_ne; [done|]. intros <-.
      apply Hy. apply elem_of_cons in Hpin. set_solver.
    - intros y ?. rewrite Hm', lookup_insert. case_decide; eauto. }
  pose proof (last_remove l1 l2 x h Hx2) as Hlast.
  rewrite Hsz. revert Hlast.
  destruct (decide (last (l1 ++ x :: l2) = Some x)) as [El|El]; intros Hlast.
  - rewrite El.
    assert (Hph : Some (prev_of h (l1 ++ x :: l2) (length l1)) = Some h <-> (prev_of h (l1 ++ x :: l2) (length l1)) = h /\ l1 = []).
    { split; [|by intros [-> _]]. intros [= E]. split; [done|]. by eapply prev_of_head. }
    destruct (decide (Some (prev_of h (l1 ++ x :: l2) (length l1)) = Some h)) as [Eh|Eh];
      [rewrite decide_True in Hlast by by apply Hph
      |rewrite decide_False in Hlast by (intros Hc; by apply Eh, Hph)].
    all: heap; eexists; split; [done|]; split;
      [split_and!; [by apply Hseg|by heap; rewrite Hlast|done]
      |apply Hoff; [done|intros y Hy; cbn; by rewrite ?lookup_insert_ne by congruence]].
  - heap. eexists. split; [done|]. split.
    + split_and!; [by apply Hseg|by heap; rewrite Hlast|done].
    + apply Hoff; [done|]. intros y Hy. cbn. by rewrite ?lookup_insert_ne by congruence.
Qed.

(** Whatever it finds, [sl_list_remove] returns its argument. *)
Lemma remove_returns fuel m h e r m' : sl_list_remove fuel m h e = Some (r, m') -> r = Some e.
Proof. unfold sl_list_remove. intros. by repeat (case_match || simplify_option_eq). Qed.

Lemma remove_notin_spec fuel m h l x :
  is_list m h l -> (length l < fuel)%nat -> x ∉ l ->
  sl_list_remove fuel m h x = Some (Some x, m).
Proof.
  intros ((p & Hp & Hs) & _ & _) Hf Hx. unfold sl_list_remove.
  by rewrite (find_elem_notin fuel m h l x p).
Qed.

(** The part of an element that left its list is the element's own word. *)
Lemma pop_in_spec fuel m h l1 x l2 :
  is_list m h (l1 ++ x :: l2) -> (length (l1 ++ x :: l2) < fuel)%nat ->
  exists m', sl_list_pop fuel m h x = Some (Some x, m') /\ is_list m' h (l1 ++ l2) /\
    m_next m' !! x = Some None /\ same_off m m' (h :: l1 ++ x :: l2) h.
Proof.
  intros Hl Hf. pose proof Hl as (_ & _ & Hdup).
  destruct (remove_in_spec fuel m h l1 x l2 Hl Hf) as (m1 & Hr & Hl1 & Hoff).
  assert (Hx : is_Some (m_next m !! x)).
  { destruct Hl as ((p & Hp & Hs) & _). destruct (seg_split m h p l1 x l2 Hp Hs) as (_ & n & Hn & _).
    eauto. }
  destruct Hoff as (Ho1 & Ho2 & Ho3). destruct (Ho3 x Hx) as [nx Hnx].
  apply NoDup_middle in Hdup as (Hd1 & Hx1 & Hx2 & Hdis & Hdup').
  unfold sl_list_pop. rewrite Hr. heap. eexists. split; [done|]. split_and!.
  - apply (is_list_frame m1 _ h (l1 ++ l2) [x] x).
    + split_and!; cbn.
      * intros y Hy. rewrite lookup_insert_ne; [done|]. intros ->. set_solver.
      * done.
      * intros y ?. rewrite lookup_insert. case_decide; eauto.
    + intros ->. set_solver.
    + set_solver.
    + intros y Hy. apply not_elem_of_cons. split; [|set_solver]. intros ->.
      apply elem_of_app in Hy as [?|?]; set_solver.
    + done.
  - by simplify_map_eq.
  - split_and!; [|done|].
    + intros y Hy. cbn. rewrite lookup_insert_ne; [by apply Ho1|]. intros ->. set_solver.
    + intros y Hy. cbn. rewrite lookup_insert. case_decide; eauto.
Qed.

Lemma pop_back_nil fuel m h :
  is_list m h [] -> sl_list_pop_back fuel m h = Some (None, m).
Proof. intros ((p & Hp & Hs) & _). cbn in Hs. subst. unfold sl_list_pop_back. by heap. Qed.

Lemma pop_back_spec fuel m h l x :
  is_list m h (l ++ [x]) -> (S (length l) < fuel)%nat ->
  exists m', sl_list_pop_back fuel m h = Some (Some x, m') /\ is_list m' h l /\
    same_off m m' (h :: l ++ [x]) h.
Proof.
  intros ((p & Hp & Hs) & Hd & Hdup) Hf. pose proof Hdup as Hdup0.
  apply NoDup_middle in Hdup0 as (Hd1 & Hx1 & _ & _ & _).
  destruct (seg_split m h p l x [] Hp Hs) as (Hprev & n & Hn & Hs2). cbn in Hs2. subst n.
  assert (Hpn : exists y, p = Some y) by (destruct l; cbn in Hs; destruct Hs as (-> & _); eauto).
  destruct Hpn as [y ->]. unfold sl_list_pop_back.
  rewrite (find_last_spec fuel m h l x (Some y)) by done.
  pose proof (prev_of_in h l x []) as Hpin.
  assert (Hpx : prev_of h (l ++ [x]) (length l) <> x) by (intros E; rewrite E in Hpin; done).
  assert (Hsz : u32 (u32 (Z.of_nat (length (l ++ [x]))) + -1) = u32 (Z.of_nat (length l))).
  { by rewrite length_app, Nat.add_comm, pop_size. }
  cbn [mbind option_bind]. heap. rewrite Hsz.
  assert (Hlast : last l = if decide (Some (prev_of h (l ++ [x]) (length l)) = Some h) then None
    else Some (prev_of h (l ++ [x]) (length l))).
  { pose proof (last_remove l [] x h ltac:(set_solver)) as Hl.
    rewrite app_nil_r, last_snoc, decide_True in Hl by done. rewrite Hl.
    destruct (decide (_ /\ _)) as [[E El]|E], (decide (Some _ = Some h)) as [E'|E']; try done.
    - destruct E'. by rewrite E.
    - injection E' as E'. destruct E. split; [done|]. by eapply prev_of_head. }
  assert (Hgoal : forall m', m_next m' = <[x := None]> (<[prev_of h (l ++ [x]) (length l) := None]>
      (m_next m)) ->
    (forall y, y <> h -> m_head m' !! y = m_head m !! y) ->
    m_head m' !! h = Some {| h_last := last l; h_size := u32 (Z.of_nat (length l)) |} ->
    is_list m' h l /\ same_off m m' (h :: l ++ [x]) h).
  { intros m' Hn' Hh Hhd. split; [split_and!|split_and!].
    - rewrite <- (app_nil_r l). apply (seg_redirect m m' h (Some y) l x [] [] None); try done.
      + rewrite Hn', lookup_insert_ne by congruence. by simplify_map_eq.
      + intros z Hz Hne. rewrite Hn', !lookup_insert_ne; [done|congruence|].
        intros <-. done.
    - done.
    - done.
    - intros z Hz. rewrite Hn', !lookup_insert_ne; [done| |].
      + intros <-. apply Hz. apply elem_of_cons in Hpin. set_solver.
      + intros <-. set_solver.
    - done.
    - intros z Hz. rewrite Hn', !lookup_insert. repeat case_decide; eauto. }
  destruct (decide (Some (prev_of h (l ++ [x]) (length l)) = Some h)) as [Eh|Eh]; heap;
    (eexists; split; [done|]; apply Hgoal;
     [done|intros z Hz; cbn; by rewrite ?lookup_insert_ne by congruence|by heap; rewrite Hlast]).
Qed.

Lemma push_before_spec fuel m h l1 x l2 e :
  is_list m h (l1 ++ x :: l2) -> (length l1 < fuel)%nat -> e ∉ h :: l1 ++ x :: l2 ->
  is_Some (m_next m !! e) ->
  exists m', sl_list_push_before fuel m h (Some x) e = Some m' /\
    is_list m' h (l1 ++ e :: x :: l2) /\ same_off m m' (h :: e :: l1 ++ x :: l2) h.
Proof.
  intros ((p & Hp & Hs) & Hd & Hdup) Hf He [ne Hne]. pose proof Hdup as Hdup0.
  apply NoDup_middle in Hdup0 as (Hd1 & Hx1 & Hx2 & Hdis & _).
  destruct (seg_split m h p l1 x l2 Hp Hs) as (Hprev & n & Hn & Hs2).
  pose proof (prev_of_in h l1 x l2) as Hpin.
  assert (Hxl1 : x ∉ l1) by set_solver.
  assert (Hpe : prev_of h (l1 ++ x :: l2) (length l1) <> e).
  { intros E. rewrite E in Hpin. apply He. apply elem_of_cons in Hpin. set_solver. }
  unfold sl_list_push_before. rewrite (find_prev_in fuel m h l1 x l2 p) by done.
  cbn [mbind option_bind]. heap. eexists. split; [done|]. split.
  - split_and!.
    + apply (seg_redirect m _ h p l1 x l2 (e :: x :: l2) (Some e)); try done; cbn.
      * by simplify_map_eq.
      * intros z Hz Hnz. rewrite !lookup_insert_ne; [done| |congruence].
        intros <-. apply He. apply elem_of_cons in Hz. set_solver.
      * split; [done|]. exists (Some x). split; [by simplify_map_eq|]. split; [done|].
        exists n. split.
        -- rewrite !lookup_insert_ne; [done| |].
           ++ intros <-. apply He. set_solver.
           ++ intros E. rewrite E in Hpin. done.
        -- apply (seg_frame m); [|done]. intros z Hz. cbn. rewrite !lookup_insert_ne; [done| |].
           ++ intros <-. apply He. set_solver.
           ++ intros <-. by apply (Hdis _ Hpin).
    + heap. do 2 f_equal.
      * by rewrite !last_app_cons, last_cons_cons.
      * rewrite uwrap_add_l. f_equal. rewrite !length_app. cbn. lia.
    + rewrite app_comm_cons. rewrite app_comm_cons in Hdup.
      apply NoDup_app in Hdup as (Ha & Hb & Hc). apply NoDup_app. split_and!; [done| |].
      * intros z Hz. apply not_elem_of_cons. split; [intros ->; set_solver|by apply Hb].
      * apply NoDup_cons. split; [set_solver|done].
  - split_and!; cbn.
    + intros z Hz. rewrite !lookup_insert_ne; [done| |].
      * intros <-. set_solver.
      * intros <-. apply Hz. apply elem_of_cons in Hpin. set_solver.
    + intros z Hz. by rewrite lookup_insert_ne by congruence.
    + intros z Hz. rewrite !lookup_insert. repeat case_decide; eauto.
Qed.

Lemma at_spec fuel m h l i :
  is_list m h l -> (length l < fuel)%nat ->
  sl_list_at fuel m h i = Some (if decide (0 <= i) then l !! Z.to_nat i else None).
Proof.
  intros ((p & Hp & Hs) & _) Hf. unfold sl_list_at. heap. by apply at_loop_spec.
Qed.

Lemma next_begin m h l : is_list m h l -> sl_list_next m (Some h) = Some (head l).
Proof.
  intros ((p & Hp & Hs) & _). unfold sl_list_next. heap.
  destruct l as [|x l]; cbn in Hs; [by subst|by destruct Hs as (-> & _)].
Qed.

Lemma next_middle m h l1 x l2 :
  is_list m h (l1 ++ x :: l2) -> sl_list_next m (Some x) = Some (head l2).
Proof.
  intros ((p & Hp & Hs) & _). apply seg_app in Hs as (r & _ & (-> & n & Hn & Hs)).
  unfold sl_list_next. heap. destruct l2 as [|y l2]; cbn in Hs; [by subst|by destruct Hs as (-> & _)].
Qed.

Lemma contains_spec fuel m h l e :
  is_list m h l -> (length l < fuel)%nat ->
  sl_list_contains fuel m h e = Some (if decide (e ∈ l) then 1 else 0).
Proof.
  intros ((p & Hp & Hs) & _) Hf. unfold sl_list_contains, sl_list_search. heap.
  rewrite (search_loop_spec fuel m _ p l) by done. cbn [mbind option_bind]. f_equal.
  destruct (list_find _ l) as [[i x]|] eqn:E; cbn; case_decide as Hin; try done.
  - apply list_find_Some in E as (Hi & Hx & _). apply bool_decide_unpack in Hx. subst.
    destruct Hin. by eapply list_elem_of_lookup_2.
  - apply list_find_None in E. rewrite Forall_forall in E. destruct (E e Hin).
    by apply bool_decide_pack.
Qed.

Lemma swap_spec m h1 h2 l1 l2 :
  is_list m h1 l1 -> is_list m h2 l2 -> h1 <> h2 ->
  (forall x, x ∈ h1 :: l1 -> x ∉ h2 :: l2) ->
  exists m', sl_list_swap m h1 h2 = Some m' /\ is_list m' h1 l2 /\ is_list m' h2 l1 /\
    (forall x, x <> h1 -> x <> h2 ->
      m_next m' !! x = m_next m !! x /\ m_head m' !! x = m_head m !! x) /\
    (forall x, is_Some (m_next m !! x) -> is_Some (m_next m' !! x)).
Proof.
  intros ((p1 & Hp1 & Hs1) & Hd1 & Hdup1) ((p2 & Hp2 & Hs2) & Hd2 & Hdup2) Hne Hdis.
  unfold sl_list_swap. heap. eexists. split; [done|].
  apply NoDup_cons in Hdup1 as [? ?]. apply NoDup_cons in Hdup2 as [? ?].
  assert (forall x, x ∈ l1 -> x <> h1 /\ x <> h2) by (intros x Hx; split; intros ->; set_solver).
  assert (forall x, x ∈ l2 -> x <> h1 /\ x <> h2) by (intros x Hx; split; intros ->; set_solver).
  split_and!.
  - split_and!; [exists p2; split|..]; cbn; [by simplify_map_eq| |by simplify_map_eq|].
    + apply (seg_frame m); [|done]. intros x Hx. cbn.
      by rewrite !lookup_insert_ne by (intros <-; naive_solver).
    + apply NoDup_cons. set_solver.
  - split_and!; [exists p1; split|..]; cbn; [by simplify_map_eq| |by simplify_map_eq|].
    + apply (seg_frame m); [|done]. intros x Hx. cbn.
      by rewrite !lookup_insert_ne by (intros <-; naive_solver).
    + apply NoDup_cons. set_solver.
  - intros x ??. cbn. by rewrite !lookup_insert_ne by congruence.
  - intros x ?. cbn. rewrite !lookup_insert. repeat case_decide; eauto.
Qed.

(** ** All lists of a program at once

    The abstract state maps each list head to the elements of the list; [pool]
    is the set of element addresses.  Lists share no element. *)

Abbreviation lists := (gmap loc (list loc)).

Record rel (pool : gset loc) (m : mem) (σ : lists) : Prop := {
  rel_list h l : σ !! h = Some l -> is_list m h l;
  rel_disj h1 l1 h2 l2 x : σ !! h1 = Some l1 -> σ !! h2 = Some l2 -> h1 <> h2 ->
    x ∈ h1 :: l1 -> x ∉ h2 :: l2;
  rel_pool h l x : σ !! h = Some l -> x ∈ l -> x ∈ pool;
  rel_mapped x : x ∈ pool -> is_Some (m_next m !! x) }.

(** [e] belongs to no list and is no list head. *)
Definition free_in (σ : lists) (e : loc) : Prop :=
  map_Forall (fun h l => e ∉ h :: l) σ.

Inductive list_op :=
| PushBack (h e : loc)
| PushFront (h e : loc)
| PushBefore (h x e : loc)
| PopFront (h : loc)
| PopBack (h : loc)
| Remove (h e : loc)
| Pop (h e : loc)
| Swap (h1 h2 : loc).

(** The calls of the C functions. *)
Definition exec (fuel : nat) (o : list_op) (m : mem) : option (ptr * mem) :=
  match o with
  | PushBack h e => (None,.) <$> sl_list_push_back m h e
  | PushFront h e => (None,.) <$> sl_list_push_front m h e
  | PushBefore h x e => (None,.) <$> sl_list_push_before fuel m h (Some x) e
  | PopFront h => sl_list_pop_front m h
  | PopBack h => sl_list_pop_back fuel m h
  | Remove h e => sl_list_remove fuel m h e
  | Pop h e => sl_list_pop fuel m h e
  | Swap h1 h2 => (None,.) <$> sl_list_swap m h1 h2
  end.

(** What they mean. *)
Definition insert_before (x e : loc) (l : list loc) : list loc :=
  match list_find (x =.) l with
  | Some (i, _) => take i l ++ e :: drop i l
  | None => l
  end.

Definition remove_elem (e : loc) (l : list loc) : list loc := filter (.≠ e) l.

Definition sem (o : list_op) (σ : lists) : ptr * lists :=
  let get h := default [] (σ !! h) in
  match o with
  | PushBack h e => (None, <[h := get h ++ [e]]> σ)
  | PushFront h e => (None, <[h := e :: get h]> σ)
  | PushBefore h x e => (None, <[h := insert_before x e (get h)]> σ)
  | PopFront h => (hd_error (get h), <[h := tail (get h)]> σ)
  | PopBack h => (last (get h), <[h := take (pred (length (get h))) (get h)]> σ)
  | Remove h e | Pop h e => (Some e, <[h := remove_elem e (get h)]> σ)
  | Swap h1 h2 => (None, <[h1 := get h2]> (<[h2 := get h1]> σ))
  end.

(** The discipline of the callers: an element is inserted only while it is in
    no list, the position and the element to pop are in the list. *)
Definition enabled (pool : gset loc) (σ : lists) (o : list_op) : Prop :=
  match o with
  | PushBack h e | PushFront h e => is_Some (σ !! h) /\ e ∈ pool /\ free_in σ e
  | PushBefore h x e =>
      x ∈ default [] (σ !! h) /\ e ∈ pool /\ free_in σ e
  | PopFront h | PopBack h | Remove h _ => is_Some (σ !! h)
  | Pop h e => e ∈ default [] (σ !! h)
  | Swap h1 h2 => is_Some (σ !! h1) /\ is_Some (σ !! h2) /\ h1 <> h2
  end.

#[export] Instance enabled_dec pool σ o : Decision (enabled pool σ o).
Proof. destruct o; cbn; unfold free_in; apply _. Defined.

Lemma in_default (σ : lists) h (x : loc) :
  x ∈ default [] (σ !! h) -> exists l, σ !! h = Some l /\ x ∈ l.
Proof. destruct (σ !! h) as [l|]; cbn; [eauto|]. intros H. by apply elem_of_nil in H. Qed.

Lemma rel_update pool m m' σ h l l' fp :
  rel pool m σ -> σ !! h = Some l -> is_list m' h l' -> same_off m m' fp h ->
  (forall x h2 l2, x ∈ fp -> h2 <> h -> σ !! h2 = Some l2 -> x ∉ h2 :: l2) ->
  (forall x, x ∈ h :: l' -> x ∈ fp) -> (forall x, x ∈ l' -> x ∈ pool) ->
  rel pool m' (<[h := l']> σ).
Proof.
  intros [Rl Rd Rp Rm] Hh Hl' Hoff Hfp Hl'fp Hpool. constructor.
  - intros h2 l2 H2. destruct (decide (h2 = h)) as [->|Hne]; simplify_map_eq; [done|].
    apply (is_list_frame m m' h2 l2 fp h); [done..| | |by apply Rl].
    + intros Hin. apply (Hfp h2 h2 l2); [done..|left].
    + intros x Hx Hin. apply (Hfp x h2 l2); [done..|by right].
  - intros h1 l1 h2 l2 x H1 H2 Hne Hx1 Hx2.
    destruct (decide (h1 = h)) as [->|], (decide (h2 = h)) as [->|]; simplify_map_eq.
    + apply (Hfp x h2 l2); auto.
    + apply (Hfp x h1 l1); auto.
    + by apply (Rd h1 l1 h2 l2 x).
  - intros h2 l2 x H2 Hx. destruct (decide (h2 = h)) as [->|]; simplify_map_eq; eauto.
  - intros x Hx. destruct Hoff as (_ & _ & Ho). auto.
Qed.

(** The footprint of an operation: the list itself and a free element. *)
Lemma footprint_ok pool m σ h l e x h2 l2 :
  rel pool m σ -> σ !! h = Some l -> free_in σ e ->
  x ∈ h :: e :: l -> h2 <> h -> σ !! h2 = Some l2 -> x ∉ h2 :: l2.
Proof.
  intros [_ Rd _ _] Hh Hfree Hx Hne H2. apply elem_of_cons in Hx as [->|Hx].
  { apply (Rd h l); [done..|left]. }
  apply elem_of_cons in Hx as [->|Hx]; [by apply Hfree|]. apply (Rd h l); [done..|by right].
Qed.

Lemma footprint_ok0 pool m σ h l x h2 l2 :
  rel pool m σ -> σ !! h = Some l ->
  x ∈ h :: l -> h2 <> h -> σ !! h2 = Some l2 -> x ∉ h2 :: l2.
Proof. intros [_ Rd _ _] Hh Hx Hne H2. by apply (Rd h l). Qed.

Lemma rel_length pool m σ h l :
  rel pool m σ -> σ !! h = Some l -> (length l <= size pool)%nat.
Proof.
  intros R Hh. destruct (rel_list _ _ _ R h l Hh) as (_ & _ & Hd).
  apply NoDup_cons in Hd as [_ Hd]. rewrite <- (size_list_to_set (C := gset loc) l Hd).
  apply subseteq_size. intros x Hx. apply elem_of_list_to_set in Hx.
  by eapply (rel_pool _ _ _ R).
Qed.

Lemma remove_elem_id x l : x ∉ l -> remove_elem x l = l.
Proof.
  unfold remove_elem. induction l as [|y l IH]; intros Hx; [done|].
  apply not_elem_of_cons in Hx as [? ?]. rewrite filter_cons_True by congruence.
  by rewrite IH.
Qed.

Lemma remove_elem_middle l1 x l2 :
  x ∉ l1 -> x ∉ l2 -> remove_elem x (l1 ++ x :: l2) = l1 ++ l2.
Proof.
  intros H1 H2. unfold remove_elem. rewrite filter_app, filter_cons_False by naive_solver.
  fold (remove_elem x l1) (remove_elem x l2). by rewrite !remove_elem_id.
Qed.

Lemma insert_before_middle l1 x e l2 :
  x ∉ l1 -> insert_before x e (l1 ++ x :: l2) = l1 ++ e :: x :: l2.
Proof.
  intros Hx. unfold insert_before.
  replace (list_find (x =.) (l1 ++ x :: l2)) with (Some (length l1, x)).
  - by rewrite take_app_length, drop_app_length.
  - symmetry. apply list_find_app_Some. right. split; [lia|]. split.
    + apply list_find_None, Forall_forall. by intros y Hy <-.
    + rewrite Nat.sub_diag. cbn. by rewrite decide_True.
Qed.

Lemma elem_split (x : loc) l : NoDup l -> x ∈ l -> exists l1 l2, l = l1 ++ x :: l2 /\ x ∉ l1 /\ x ∉ l2.
Proof.
  intros Hd Hx. apply list_elem_of_split in Hx as (l1 & l2 & ->).
  exists l1, l2. apply NoDup_app in Hd as (_ & Hd1 & Hd2). apply NoDup_cons in Hd2 as [? _].
  split_and!; [done| |done]. intros Hin. apply (Hd1 x Hin). left.
Qed.

(** An operation on one list that inserts nothing. *)
Lemma rel_shrink pool m m' σ h l l' :
  rel pool m σ -> σ !! h = Some l -> is_list m' h l' -> same_off m m' (h :: l) h ->
  l' ⊆ l -> rel pool m' (<[h := l']> σ).
Proof.
  intros R Hh Hl' Hoff Hsub. apply (rel_update pool m m' σ h l l' (h :: l)); try done.
  - intros x h2 l2 Hx Hne H2. by apply (footprint_ok0 pool m σ h l x h2 l2).
  - intros x Hx. apply elem_of_cons in Hx as [->|Hx]; [left|right; by apply Hsub].
  - intros x Hx. eapply (rel_pool _ _ _ R); [done|]. by apply Hsub.
Qed.

(** An operation on one list that inserts the free element [e]. *)
Lemma rel_grow pool m m' σ h l l' e :
  rel pool m σ -> σ !! h = Some l -> is_list m' h l' -> same_off m m' (h :: e :: l) h ->
  e ∈ pool -> free_in σ e -> l' ⊆ e :: l -> rel pool m' (<[h := l']> σ).
Proof.
  intros R Hh Hl' Hoff He Hfree Hsub.
  apply (rel_update pool m m' σ h l l' (h :: e :: l)); try done.
  - intros x h2 l2 Hx Hne H2. by apply (footprint_ok pool m σ h l e x h2 l2).
  - intros x Hx. apply elem_of_cons in Hx as [->|Hx]; [left|right; by apply Hsub].
  - intros x Hx. apply Hsub, elem_of_cons in Hx as [->|Hx]; [done|].
    by eapply (rel_pool _ _ _ R).
Qed.

(** A list whose elements did not change is the same list. *)
Lemma rel_same pool m σ h l : rel pool m σ -> σ !! h = Some l -> rel pool m (<[h := l]> σ).
Proof. intros R Hh. by rewrite insert_id. Qed.

(** The list that swapping [h1] and [h2] leaves at [h] is the one of [swapped]. *)
Definition swapped (h1 h2 h : loc) : loc :=
  if decide (h = h1) then h2 else if decide (h = h2) then h1 else h.

Lemma swap_lookup (σ : lists) h1 h2 l1 l2 h :
  σ !! h1 = Some l1 -> σ !! h2 = Some l2 ->
  <[h1 := l2]> (<[h2 := l1]> σ) !! h = σ !! swapped h1 h2 h.
Proof.
  intros H1 H2. unfold swapped. rewrite !lookup_insert. repeat case_decide; congruence.
Qed.

Lemma rel_swap pool m σ h1 h2 l1 l2 :
  rel pool m σ -> σ !! h1 = Some l1 -> σ !! h2 = Some l2 -> h1 <> h2 ->
  exists m', sl_list_swap m h1 h2 = Some m' /\ rel pool m' (<[h1 := l2]> (<[h2 := l1]> σ)).
Proof.
  intros [Rl Rd Rp Rm] H1 H2 Hne.
  destruct (swap_spec m h1 h2 l1 l2 (Rl _ _ H1) (Rl _ _ H2) Hne) as (m' & E & L1 & L2 & Hf & Hs).
  { intros x. by apply Rd. }
  exists m'. split; [done|]. constructor.
  - intros h l Hl. rewrite !lookup_insert in Hl. repeat case_decide; simplify_eq; [done..|].
    assert (Hd : forall x, x ∈ h :: l -> x <> h1 /\ x <> h2).
    { intros x Hx. split; intros ->; [apply (Rd h l h1 l1 h1)|apply (Rd h l h2 l2 h2)];
        try done; left. }
    destruct (Rl h l Hl) as ((p & Hp & Hsg) & Hh & Hnd).
    destruct (Hd h ltac:(left)) as [? ?]. split_and!; [exists p; split|..]; try done.
    + by rewrite (proj1 (Hf h ltac:(done) ltac:(done))).
    + apply (seg_frame m); [|done]. intros x Hx. destruct (Hd x ltac:(by right)). by apply Hf.
    + by rewrite (proj2 (Hf h ltac:(done) ltac:(done))).
  - intros a la b lb x Ha Hb Hab Hxa Hxb. rewrite (swap_lookup σ h1 h2 l1 l2) in Ha, Hb by done.
    assert (Hsw : swapped h1 h2 a <> swapped h1 h2 b)
      by (unfold swapped; repeat case_decide; congruence).
    apply elem_of_cons in Hxa, Hxb. destruct Hxa as [->|Hxa], Hxb as [->|Hxb]; [done|..].
    + destruct (decide (swapped h1 h2 b = a)) as [E1|E1].
      * destruct (Rl _ _ Hb) as (_ & _ & Hnd). rewrite E1 in Hnd.
        by apply NoDup_cons in Hnd as [? _].
      * assert (is_Some (σ !! a)) as [lx Hlx].
        { unfold swapped in Ha. repeat case_decide; subst; eauto. }
        apply (Rd a lx _ lb a Hlx Hb); [congruence|left|by right].
    + destruct (decide (swapped h1 h2 a = b)) as [E1|E1].
      * destruct (Rl _ _ Ha) as (_ & _ & Hnd). rewrite E1 in Hnd.
        by apply NoDup_cons in Hnd as [? _].
      * assert (is_Some (σ !! b)) as [lx Hlx].
        { unfold swapped in Hb. repeat case_decide; subst; eauto. }
        apply (Rd b lx _ la b Hlx Ha); [congruence|left|by right].
    + apply (Rd _ la _ lb x Ha Hb Hsw); by right.
  - intros h l x Hl Hx. rewrite (swap_lookup σ h1 h2 l1 l2) in Hl by done. by eapply Rp.
  - intros x Hx. by apply Hs, Rm.
Qed.

(** ** Refinement *)

Lemma exec_step pool m σ o :
  rel pool m σ -> enabled pool σ o ->
  exists m', exec (S (S (size pool))) o m = Some ((sem o σ).1, m') /\
    rel pool m' (sem o σ).2.
Proof.
  intros R En. pose proof (rel_list _ _ _ R) as Rl. pose proof (rel_mapped _ _ _ R) as Rm.
  destruct o as [h e|h e|h x e|h|h|h e|h e|h1 h2]; cbn [enabled exec sem] in *.
  - destruct En as ([l Hh] & He & Hf). rewrite Hh; cbn [default from_option id hd_error tail].
    destruct (push_back_spec m h l e (Rl _ _ Hh) (Hf _ _ Hh) (Rm _ He)) as (m' & -> & ? & ?).
    exists m'. split; [done|]. eapply rel_grow; eauto. set_solver.
  - destruct En as ([l Hh] & He & Hf). rewrite Hh; cbn [default from_option id hd_error tail].
    destruct (push_front_spec m h l e (Rl _ _ Hh) (Hf _ _ Hh) (Rm _ He)) as (m' & -> & ? & ?).
    exists m'. split; [done|]. eapply rel_grow; eauto.
  - destruct En as ((l & Hh & Hx)%in_default & He & Hf). rewrite Hh; cbn [default from_option id].
    pose proof (rel_length _ _ _ _ _ R Hh). pose proof (Rl _ _ Hh) as (_ & _ & Hnd).
    apply NoDup_cons in Hnd as [_ Hnd]. apply elem_split in Hx as (l1 & l2 & -> & ? & ?); [|done].
    rewrite length_app in *.
    destruct (push_before_spec (S (S (size pool))) m h l1 x l2 e (Rl _ _ Hh)) as (m' & -> & ? & ?);
      [lia|by eapply Hf|by apply Rm|]. cbn. rewrite insert_before_middle by done.
    exists m'. split; [done|]. eapply rel_grow; eauto. set_solver.
  - destruct En as [l Hh]. rewrite Hh; cbn [default from_option id hd_error tail]. destruct l as [|x l].
    + rewrite pop_front_nil by eauto. exists m. split; [done|]. by apply rel_same.
    + destruct (pop_front_spec m h x l (Rl _ _ Hh)) as (m' & -> & ? & ?).
      exists m'. split; [done|]. eapply rel_shrink; eauto. set_solver.
  - destruct En as [l Hh]. rewrite Hh; cbn [default from_option id hd_error tail]. destruct l as [|x l _] using rev_ind.
    + rewrite pop_back_nil by eauto. exists m. split; [done|]. by apply rel_same.
    + pose proof (rel_length _ _ _ _ _ R Hh) as Hlen. rewrite length_app in Hlen. cbn in Hlen.
      destruct (pop_back_spec (S (S (size pool))) m h l x (Rl _ _ Hh)) as (m' & -> & ? & ?); [lia|].
      exists m'. rewrite last_snoc, length_app, Nat.add_1_r, Nat.pred_succ, take_app_length.
      split; [done|]. eapply rel_shrink; eauto. set_solver.
  - destruct En as [l Hh]. rewrite Hh; cbn [default from_option id hd_error tail]. pose proof (rel_length _ _ _ _ _ R Hh) as Hlen.
    destruct (decide (e ∈ l)) as [Hin|Hout].
    + pose proof (Rl _ _ Hh) as (_ & _ & Hnd). apply NoDup_cons in Hnd as [_ Hnd].
      apply elem_split in Hin as (l1 & l2 & -> & ? & ?); [|done].
      destruct (remove_in_spec (S (S (size pool))) m h l1 e l2 (Rl _ _ Hh)) as (m' & -> & ? & ?);
        [lia|]. exists m'. rewrite remove_elem_middle by done. split; [done|].
      eapply rel_shrink; eauto. set_solver.
    + rewrite (remove_notin_spec _ m h l e) by (eauto || lia). exists m.
      rewrite remove_elem_id by done. split; [done|]. by apply rel_same.
  - apply in_default in En as (l & Hh & Hin). rewrite Hh; cbn [default from_option id hd_error tail]. pose proof (rel_length _ _ _ _ _ R Hh) as Hlen.
    pose proof (Rl _ _ Hh) as (_ & _ & Hnd). apply NoDup_cons in Hnd as [_ Hnd].
    apply elem_split in Hin as (l1 & l2 & -> & ? & ?); [|done].
    destruct (pop_in_spec (S (S (size pool))) m h l1 e l2 (Rl _ _ Hh)) as (m' & -> & ? & _ & ?);
      [lia|]. exists m'. rewrite remove_elem_middle by done. split; [done|].
    eapply rel_shrink; eauto. set_solver.
  - destruct En as ([l1 H1] & [l2 H2] & Hne). rewrite H1, H2; cbn [default from_option id].
    destruct (rel_swap pool m σ h1 h2 l1 l2) as (m' & -> & ?); eauto.
Qed.

(** A program: operations one after the other, with the results they return. *)
Fixpoint exec_all (fuel : nat) (os : list list_op) (m : mem) : option (list ptr * mem) :=
  match os with
  | [] => Some ([], m)
  | o :: os => '(r, m) ← exec fuel o m; '(rs, m) ← exec_all fuel os m; Some (r :: rs, m)
  end.

Fixpoint sem_all (os : list list_op) (σ : lists) : list ptr * lists :=
  match os with
  | [] => ([], σ)
  | o :: os =>
      let '(r, σ) := sem o σ in let '(rs, σ) := sem_all os σ in (r :: rs, σ)
  end.

Fixpoint enabled_all (pool : gset loc) (σ : lists) (os : list list_op) : Prop :=
  match os with
  | [] => True
  | o :: os => enabled pool σ o /\ enabled_all pool (sem o σ).2 os
  end.

#[export] Instance enabled_all_dec pool σ os : Decision (enabled_all pool σ os).
Proof. revert σ. induction os; intros; cbn; apply _. Defined.

(** C20: any program that keeps each element in at most one list sees the
    pointer implementation of [sl_list.c] as mathematical lists: no operation
    dereferences a bad pointer, every loop ends within [size pool + 2] rounds,
    every returned element and every list (its links, its [last] pointer and
    its [size]) is what the list semantics says. *)
Theorem sl_list_refines pool m σ os :
  rel pool m σ -> enabled_all pool σ os ->
  exists m', exec_all (S (S (size pool))) os m = Some ((sem_all os σ).1, m') /\
    rel pool m' (sem_all os σ).2.
Proof.
  revert m σ. induction os as [|o os IH]; intros m σ R En; [by exists m|].
  destruct En as [Eo En]. destruct (exec_step pool m σ o R Eo) as (m1 & E1 & R1).
  cbn [exec_all sem_all]. rewrite E1. destruct (sem o σ) as [r σ1]. cbn [fst snd mbind option_bind] in *.
  destruct (IH m1 _ R1 En) as (m2 & -> & R2). exists m2. by destruct (sem_all os σ1).
Qed.

(** Two empty lists at 1 and 2, the elements 10, 11 and 12. *)
Definition pool0 : gset loc := {[10; 11; 12]}%positive.

Definition mem0 : mem :=
  {| m_next := {[1 := None; 2 := None; 10 := None; 11 := None; 12 := None]}%positive;
     m_head := {[1 := {| h_last := None; h_size := 0 |};
                 2 := {| h_last := None; h_size := 0 |}]}%positive |}.

Definition lists0 : lists := {[1 := []; 2 := []]}%positive.

Definition prog0 : list list_op :=
  [PushBack 1 10; PushFront 1 11; PushBefore 1 10 12; Swap 1 2; PopFront 2; Pop 2 10;
   PushBack 1 10; PopBack 2; Remove 1 11]%positive.

Lemma rel0 : rel pool0 mem0 lists0.
Proof.
  assert (Hl : forall h l, lists0 !! h = Some l -> l = [] /\ (h = 1 \/ h = 2)%positive).
  { intros h l. unfold lists0. rewrite lookup_insert, lookup_singleton.
    repeat case_decide; intros; simplify_eq; auto. }
  constructor.
  - intros h l Hh. apply Hl in Hh as [-> [-> | ->]]; (split_and!;
      [by exists None|done|apply NoDup_singleton]).
  - intros h1 l1 h2 l2 x H1 H2 Hne. apply Hl in H1 as [-> _], H2 as [-> _]. set_solver.
  - intros h l x Hh. apply Hl in Hh as [-> _]. set_solver.
  - intros x Hx. unfold pool0 in Hx. rewrite !elem_of_union, !elem_of_singleton in Hx.
    destruct Hx as [[-> | ->] | ->]; by eexists.
Qed.

Lemma sl_list_refines_witness :
  enabled_all pool0 lists0 prog0 /\
  exists m', exec_all 5 prog0 mem0
    = Some ([None; None; None; None; Some 11; Some 10; None; Some 12; Some 11]%positive, m') /\
    rel pool0 m' (sem_all prog0 lists0).2.
Proof.
  assert (E : enabled_all pool0 lists0 prog0).
  { apply (bool_decide_unpack _). vm_compute. exact I. }
  split; [done|]. exact (sl_list_refines pool0 mem0 lists0 prog0 rel0 E).
Defined.
