(* ===== verification/Scheduler.v ===== *)
(** * The application scheduler

    Models [libraries/scheduler/app_scheduler.c]: the task table, the choice of
    the next task, the periodic work the stack calls, and the two calls an
    application may make from a task or from an interrupt.

    The library state is one record threaded through a state monad.  The clock
    and the arithmetic of high-precision timestamps belong to the stack
    ([lib_time]); they are a record of functions over a world [W].  A task is
    known by the address of its callback; what the callback and the interrupts
    do to the scheduler is a list of calls, one for each point of
    [periodic_work] where interrupts are enabled.  Critical sections are
    atomic; reading one task's time stamp is taken as atomic too. *)

From S2P Require Import Prelude Pack.

Definition EXECUTION_TIME_NEEDED_FOR_SCHEDULING_US : Z := 20.
Definition MAX_EXECUTION_TIME_ALLOWED_BY_STACK_US : Z := 100 * 1000.
Definition APP_SCHEDULER_STOP_TASK : Z := u32 (-1).

(** A callback's address. *)
Abbreviation fid := positive.

(** The union of the two timestamps is one 32-bit word. *)
Record timestamp_t := { ts : Z; is_hp : bool }.

#[export] Instance timestamp_eq_dec : EqDecision timestamp_t.
Proof. solve_decision. Defined.

Record task_t := {
  func : option fid;
  next_ts : timestamp_t;
  exec_time_us : Z;
  updated : bool;
  removed : bool }.

Inductive app_scheduler_res_e :=
| APP_SCHEDULER_RES_OK
| APP_SCHEDULER_RES_NO_MORE_TASK
| APP_SCHEDULER_RES_UNKNOWN_TASK
| APP_SCHEDULER_RES_UNINITIALIZED
| APP_SCHEDULER_RES_TOO_LONG_EXECUTION_TIME.

#[export] Instance res_eq_dec : EqDecision app_scheduler_res_e.
Proof. solve_decision. Defined.

Definition task0 : task_t :=
  {| func := None; next_ts := {| ts := 0; is_hp := false |}; exec_time_us := 0;
     updated := false; removed := false |}.

(** What the stack's time library offers. *)
Record time_lib (W : Type) := {
  getTimestampHp : W -> Z * W;
  getTimestampCoarse : W -> Z * W;
  addUsToHpTimestamp : Z -> Z -> Z;
  isHpTimestampBefore : Z -> Z -> bool;
  getTimeDiffUs : Z -> Z -> Z;
  getMaxHpDelay : Z }.

Arguments getTimestampHp {W}. Arguments getTimestampCoarse {W}.
Arguments addUsToHpTimestamp {W}. Arguments isHpTimestampBefore {W}.
Arguments getTimeDiffUs {W}. Arguments getMaxHpDelay {W}.

(** The statics of the library; [m_next_task_p] is an index of the table.
    [m_periodic] is the last setting of the stack's periodic callback (delay
    and execution time), [ran] the callbacks called so far, latest first. *)
Record state (W : Type) := {
  m_max_time_ms : Z;
  m_initialized : bool;
  m_tasks : list task_t;
  m_next_task_p : option nat;
  m_force_reschedule : bool;
  m_periodic : option (Z * Z);
  ran : list fid;
  world : W }.

Arguments m_max_time_ms {W}. Arguments m_initialized {W}. Arguments m_tasks {W}.
Arguments m_next_task_p {W}. Arguments m_force_reschedule {W}. Arguments m_periodic {W}.
Arguments ran {W}. Arguments world {W}. Arguments Build_state {W}.

(** The calls an application makes. *)
Inductive call :=
| Add (cb : option fid) (delay_ms exec_time_us : Z)
| Cancel (cb : option fid).

(** One run of [periodic_work]: the calls interrupts make after the test of
    [m_force_reschedule], after the delay was read, after [removed] was read,
    the calls made while the callback runs and the value it returns, and the
    calls before the final critical section. *)
Record interference := {
  irq_entry : list call;
  irq_delay : list call;
  irq_removed : list call;
  body : list call;
  next : Z;
  irq_exit : list call }.

Section Scheduler.
Context {W : Type} (lib_time : time_lib W).

Abbreviation M := (st (state W)).

(** ** State access *)

Definition with_world (w : W) (s : state W) : state W :=
  Build_state (m_max_time_ms s) (m_initialized s) (m_tasks s) (m_next_task_p s)
    (m_force_reschedule s) (m_periodic s) (ran s) w.
Definition with_tasks (l : list task_t) (s : state W) : state W :=
  Build_state (m_max_time_ms s) (m_initialized s) l (m_next_task_p s)
    (m_force_reschedule s) (m_periodic s) (ran s) (world s).
Definition with_next (p : option nat) (s : state W) : state W :=
  Build_state (m_max_time_ms s) (m_initialized s) (m_tasks s) p
    (m_force_reschedule s) (m_periodic s) (ran s) (world s).
Definition with_force (b : bool) (s : state W) : state W :=
  Build_state (m_max_time_ms s) (m_initialized s) (m_tasks s) (m_next_task_p s)
    b (m_periodic s) (ran s) (world s).
Definition with_periodic (delay exec : Z) (s : state W) : state W :=
  Build_state (m_max_time_ms s) (m_initialized s) (m_tasks s) (m_next_task_p s)
    (m_force_reschedule s) (Some (delay, exec)) (ran s) (world s).
Definition with_ran (f : fid) (s : state W) : state W :=
  Build_state (m_max_time_ms s) (m_initialized s) (m_tasks s) (m_next_task_p s)
    (m_force_reschedule s) (m_periodic s) (f :: ran s) (world s).

Definition tick (f : W -> Z * W) : M Z :=
  fun s => let '(x, w) := f (world s) in (x, with_world w s).

Definition get_task (i : nat) : M task_t := gets (fun s => default task0 (m_tasks s !! i)).

Definition set_task (i : nat) (f : task_t -> task_t) : M unit :=
  modify (fun s => with_tasks (alter f i (m_tasks s)) s).

Definition set_func (f : option fid) (t : task_t) : task_t :=
  {| func := f; next_ts := next_ts t; exec_time_us := exec_time_us t;
     updated := updated t; removed := removed t |}.
Definition set_next_ts (x : timestamp_t) (t : task_t) : task_t :=
  {| func := func t; next_ts := x; exec_time_us := exec_time_us t;
     updated := updated t; removed := removed t |}.
Definition set_flags (u r : bool) (t : task_t) : task_t :=
  {| func := func t; next_ts := next_ts t; exec_time_us := exec_time_us t;
     updated := u; removed := r |}.
Definition set_updated (u : bool) (t : task_t) : task_t := set_flags u (removed t) t.

Definition setPeriodicCb (delay_us exec_us : Z) : M unit := modify (with_periodic delay_us exec_us).

(** ** Timestamps *)

(** The coarse units of a delay: [delta] of the second branch of
    [get_timestamp], before it is added to the clock. *)
Definition get_timestamp (ms : Z) : M timestamp_t :=
  max ← gets m_max_time_ms;
  if ms <? max then
    now ← tick (getTimestampHp lib_time);
    mret {| ts := addUsToHpTimestamp lib_time now (u32 (ms * 1000)); is_hp := true |}
  else
    coarse ← tick (getTimestampCoarse lib_time);
    let '(coarse, ms) :=
      if negb (Z.shiftr ms 25 =? 0) then
        let delay_high := Z.land ms 0xfe000000 in
        (u32 (coarse + u32 (delay_high / 1000 * 128)), Z.land ms 0x01ffffff)
      else (coarse, ms) in
    let coarse := u32 (coarse + u32 (ms * 128) / 1000) in
    let coarse := if negb (u32 (ms * 128) mod 1000 =? 0) then u32 (coarse + 1) else coarse in
    mret {| ts := coarse; is_hp := false |}.

Definition get_delay_from_now_us (t : timestamp_t) : M Z :=
  if is_hp t then
    now ← tick (getTimestampHp lib_time);
    mret (if isHpTimestampBefore lib_time (ts t) now then 0 else getTimeDiffUs lib_time now (ts t))
  else
    now ← tick (getTimestampCoarse lib_time);
    if Util.isLtUint32 (ts t) now then mret 0
    else
      let delta := u32 (ts t - now) in
      mret (if 549755 <? delta then u32 (-1)
            else u32 (u32 (u32 (ts t - now) * 1000) / 128 * 1000)).

Definition is_timestamp_before (t1 t2 : timestamp_t) : M bool :=
  if is_hp t1 && is_hp t2 then mret (isHpTimestampBefore lib_time (ts t1) (ts t2))
  else if negb (is_hp t1) && negb (is_hp t2) then mret (Util.isLtUint32 (ts t1) (ts t2))
  else
    d1 ← get_delay_from_now_us t1;
    d2 ← get_delay_from_now_us t2;
    mret (d1 <? d2).

(** ** The task table *)

Fixpoint get_next_loop (idx : list nat) (next : option nat) : M (option nat) :=
  match idx with
  | [] => mret next
  | i :: idx =>
      t ← get_task i;
      match func t with
      | None => get_next_loop idx next
      | Some _ =>
          if removed t then _ ← set_task i (set_func None); get_next_loop idx next
          else match next with
               | None => get_next_loop idx (Some i)
               | Some j =>
                   tj ← get_task j;
                   b ← is_timestamp_before (next_ts t) (next_ts tj);
                   get_next_loop idx (if (b : bool) then Some i else next)
               end
      end
  end.

Definition slots : M (list nat) := gets (fun s => seq 0 (length (m_tasks s))).

Definition get_next_task_locked : M (option nat) := idx ← slots; get_next_loop idx None.

Definition schedule_task (i : nat) : M unit :=
  max ← gets m_max_time_ms;
  next ← get_timestamp max;
  task ← get_task i;
  b ← is_timestamp_before (next_ts task) next;
  let '(next, exec) :=
    if (b : bool) then (next_ts task, u32 (exec_time_us task + EXECUTION_TIME_NEEDED_FOR_SCHEDULING_US))
    else (next, EXECUTION_TIME_NEEDED_FOR_SCHEDULING_US) in
  delay ← get_delay_from_now_us next;
  setPeriodicCb delay exec.

(** The loop of [add_task_to_table_locked]; [true]: the task was found and
    updated, otherwise the first free slot. *)
Fixpoint add_loop (idx : list nat) (task : task_t) (first_free : option nat)
    : M (bool * option nat) :=
  match idx with
  | [] => mret (false, first_free)
  | i :: idx =>
      t ← get_task i;
      if decide (func t = func task) then
        _ ← set_task i (fun t => set_flags true false (set_next_ts (next_ts task) t));
        mret (true, first_free)
      else
        let first_free :=
          match func t, first_free with None, None => Some i | _, _ => first_free end in
        add_loop idx task first_free
  end.

Definition add_task_to_table_locked (task : task_t) : M bool :=
  idx ← slots;
  r ← add_loop idx task None;
  match r with
  | (false, Some i) => _ ← set_task i (fun _ => task); mret true
  | (res, _) => mret res
  end.

Fixpoint remove_loop (idx : list nat) (cb : option fid) : M (option nat) :=
  match idx with
  | [] => mret None
  | i :: idx =>
      t ← get_task i;
      if decide (func t = cb) then _ ← set_task i (set_flags true true); mret (Some i)
      else remove_loop idx cb
  end.

Definition remove_task_from_table_locked (cb : option fid) : M (option nat) :=
  idx ← slots; remove_loop idx cb.

(** ** The calls of the application *)

Definition App_Scheduler_init : M unit :=
  ini ← gets m_initialized;
  if (ini : bool) then mret tt
  else modify (fun s =>
    Build_state (getMaxHpDelay lib_time / 1000) true (set_func None <$> m_tasks s) None false
      (m_periodic s) (ran s) (world s)).

Definition App_Scheduler_addTask_execTime (cb : option fid) (delay_ms exec_time_us : Z)
    : M app_scheduler_res_e :=
  ts ← get_timestamp delay_ms;
  let new_task := {| func := cb; next_ts := ts; exec_time_us := exec_time_us;
                     updated := false; removed := false |} in
  ini ← gets m_initialized;
  if negb ini then mret APP_SCHEDULER_RES_UNINITIALIZED
  else if MAX_EXECUTION_TIME_ALLOWED_BY_STACK_US
            <? u32 (exec_time_us + EXECUTION_TIME_NEEDED_FOR_SCHEDULING_US)
  then mret APP_SCHEDULER_RES_TOO_LONG_EXECUTION_TIME
  else
    ok ← add_task_to_table_locked new_task;
    if negb ok then mret APP_SCHEDULER_RES_NO_MORE_TASK
    else
      p ← gets m_next_task_p;
      resched ←
        match p with
        | None => mret true
        | Some i =>
            t ← get_task i;
            if decide (func t = cb) then mret true else is_timestamp_before ts (next_ts t)
        end;
      _ ← (if (resched : bool) then
             _ ← modify (with_force true);
             setPeriodicCb 0 EXECUTION_TIME_NEEDED_FOR_SCHEDULING_US
           else mret tt);
      mret APP_SCHEDULER_RES_OK.

Definition App_Scheduler_cancelTask (cb : option fid) : M app_scheduler_res_e :=
  ini ← gets m_initialized;
  if negb ini then mret APP_SCHEDULER_RES_UNINITIALIZED
  else
    r ← remove_task_from_table_locked cb;
    match r with
    | Some _ =>
        _ ← modify (with_force true);
        _ ← setPeriodicCb 0 EXECUTION_TIME_NEEDED_FOR_SCHEDULING_US;
        mret APP_SCHEDULER_RES_OK
    | None => mret APP_SCHEDULER_RES_UNKNOWN_TASK
    end.

Definition do_call (c : call) : M app_scheduler_res_e :=
  match c with
  | Add cb d x => App_Scheduler_addTask_execTime cb d x
  | Cancel cb => App_Scheduler_cancelTask cb
  end.

Fixpoint do_calls (cs : list call) : M unit :=
  match cs with
  | [] => mret tt
  | c :: cs => _ ← do_call c; do_calls cs
  end.

(** ** The periodic work *)

Definition perform_task (i : nat) (body : list call) (next : Z) : M unit :=
  task ← get_task i;
  match func task with
  | None => mret tt
  | Some f =>
      _ ← modify (with_ran f);
      _ ← do_calls body;
      task ← get_task i;
      if negb (updated task) && negb (removed task) then
        if next =? APP_SCHEDULER_STOP_TASK then set_task i (set_func None)
        else ts ← get_timestamp next; set_task i (set_next_ts ts)
      else mret tt
  end.

(** The first part: run the selected task when it is due. *)
Definition run_selected (e : interference) : M unit :=
  force ← gets m_force_reschedule;
  if negb force then
    _ ← do_calls (irq_entry e);
    p ← gets m_next_task_p;
    match p with
    | None => mret tt
    | Some i =>
        t ← get_task i;
        d ← get_delay_from_now_us (next_ts t);
        if d =? 0 then
          _ ← do_calls (irq_delay e);
          t ← get_task i;
          if negb (removed t) then
            _ ← do_calls (irq_removed e);
            perform_task i (body e) (next e)
          else mret tt
        else mret tt
    end
  else mret tt.

(** The second part: choose the next task. *)
Definition select_next : M unit :=
  p ← get_next_task_locked;
  _ ← modify (with_next p);
  _ ← match p with
      | None => mret tt
      | Some i => _ ← schedule_task i; set_task i (set_updated false)
      end;
  modify (with_force false).

Definition periodic_work (e : interference) : M unit :=
  _ ← run_selected e;
  _ ← do_calls (irq_exit e);
  select_next.

(** What happens to the library after [App_Scheduler_init]. *)
Inductive event :=
| Call (c : call)
| Periodic (e : interference).

Definition handle (ev : event) : M unit :=
  match ev with
  | Call c => _ ← do_call c; mret tt
  | Periodic e => periodic_work e
  end.

Fixpoint run (evs : list event) : M unit :=
  match evs with
  | [] => mret tt
  | ev :: evs => _ ← handle ev; run evs
  end.

(** ** Reading the clock changes nothing else *)

Definition reads {A} (m : M A) : Prop := forall s, exists x w, m s = (x, with_world w s).

Lemma tick_reads f : reads (tick f).
Proof. intros s. unfold tick. destruct (f (world s)) as [x w]. by exists x, w. Qed.

Lemma reads_ret {A} (x : A) : reads (mret x).
Proof. intros s. exists x, (world s). by destruct s. Qed.

Lemma reads_gets {A} (f : state W -> A) : reads (gets f).
Proof. intros s. exists (f s), (world s). by destruct s. Qed.

Lemma reads_bind {A B} (m : M A) (k : A -> M B) :
  reads m -> (forall x, reads (k x)) -> reads (x ← m; k x).
Proof.
  intros Hm Hk s. destruct (Hm s) as (x & w & E). destruct (Hk x (with_world w s)) as (y & w' & E').
  exists y, w'. cbn. unfold mbind, st_bind. rewrite E, E'. done.
Qed.

#[local] Hint Resolve tick_reads reads_ret reads_gets : words.

Ltac reads_tac :=
  repeat first
    [ progress auto with words | apply reads_bind; [|intros ?] | case_match ].

Lemma get_timestamp_reads ms : reads (get_timestamp ms).
Proof. unfold get_timestamp. reads_tac. Qed.

Lemma get_delay_reads t : reads (get_delay_from_now_us t).
Proof. unfold get_delay_from_now_us. reads_tac. Qed.

Lemma before_reads t1 t2 : reads (is_timestamp_before t1 t2).
Proof.
  unfold is_timestamp_before. pose proof get_delay_reads. reads_tac.
Qed.

(** ** Reference definitions of the table operations *)

Definition add_table (task : task_t) (l : list task_t) : option (list task_t) :=
  match list_find (fun t => func t = func task) l with
  | Some (i, _) =>
      Some (alter (fun t => set_flags true false (set_next_ts (next_ts task) t)) i l)
  | None =>
      match list_find (fun t => func t = None) l with
      | Some (i, _) => Some (<[i := task]> l)
      | None => None
      end
  end.

Definition remove_table (cb : option fid) (l : list task_t) : option (nat * list task_t) :=
  match list_find (fun t => func t = cb) l with
  | Some (i, _) => Some (i, alter (set_flags true true) i l)
  | None => None
  end.

(** The clean-up of [get_next_task_locked]. *)
Definition purge (t : task_t) : task_t := if removed t then set_func None t else t.

Lemma get_taskE j s : get_task j s = (default task0 (m_tasks s !! j), s).
Proof. done. Qed.

Lemma get_task_middle s pre t l :
  m_tasks s = pre ++ t :: l -> get_task (length pre) s = (t, s).
Proof. intros E. unfold get_task, gets. rewrite E. by rewrite list_lookup_middle. Qed.

Lemma with_tasks_id s : with_tasks (m_tasks s) s = s.
Proof. by destruct s. Qed.

Lemma alter_middle {A} (f : A -> A) pre x l : alter f (length pre) (pre ++ x :: l) = pre ++ f x :: l.
Proof. rewrite alter_app_r_alt by lia. by rewrite Nat.sub_diag. Qed.

Lemma snoc_middle {A} (pre : list A) x l : pre ++ x :: l = (pre ++ [x]) ++ l.
Proof. by rewrite <- app_assoc. Qed.

Lemma seq_snoc_S {A} (pre : list A) x n : seq (S (length pre)) n = seq (length (pre ++ [x])) n.
Proof. rewrite length_app. cbn. by rewrite Nat.add_1_r. Qed.

Lemma add_loop_spec task suf pre ff s :
  m_tasks s = pre ++ suf ->
  exists ff', add_loop (seq (length pre) (length suf)) task ff s =
    match list_find (fun t => func t = func task) suf with
    | Some (i, _) =>
        ((true, ff'),
         with_tasks (alter (fun t => set_flags true false (set_next_ts (next_ts task) t))
                       (length pre + i)%nat (m_tasks s)) s)
    | None => ((false, ff'), s)
    end /\
    (list_find (fun t => func t = func task) suf = None ->
     ff' = match ff with
           | Some _ => ff
           | None => (fun p => (length pre + p.1)%nat) <$> list_find (fun t => func t = None) suf
           end).
Proof.
  revert pre ff. induction suf as [|t suf IH]; intros pre ff E.
  - exists ff. split; [done|]. by destruct ff.
  - cbn [length seq add_loop list_find]. rewrite bindE, (get_task_middle s pre t suf E).
    cbn [fst snd]. destruct (decide (func t = func task)) as [Ht|Ht].
    + exists ff. split; [|done]. by rewrite Nat.add_0_r.
    + rewrite snoc_middle in E. rewrite (seq_snoc_S pre t).
      destruct (IH (pre ++ [t]) (match func t, ff with None, None => Some (length pre) | _, _ => ff end) E)
        as (ff' & E1 & Hff). exists ff'. rewrite E1. split.
      * destruct (list_find _ suf) as [[i x]|]; [|done]. cbn. rewrite length_app. cbn.
        by replace (length pre + 1 + i)%nat with (length pre + S i)%nat by lia.
      * intros Hn. rewrite Hff by by destruct (list_find _ suf) as [[i x]|].
        destruct ff; [by destruct (func t)|]. destruct (func t) eqn:Ef.
        -- rewrite decide_False by done. rewrite <- !option_fmap_compose.
           destruct (list_find (fun t => func t = None) suf) as [[i x]|]; [|done]. cbn.
           f_equal. rewrite length_app. cbn. lia.
        -- rewrite decide_True by done. cbn. f_equal. lia.
Qed.

Lemma add_task_to_table_spec task s :
  add_task_to_table_locked task s =
    match add_table task (m_tasks s) with
    | Some l => (true, with_tasks l s)
    | None => (false, s)
    end.
Proof.
  unfold add_task_to_table_locked, add_table. rewrite !bindE. unfold slots, gets. cbn [fst snd].
  destruct (add_loop_spec task (m_tasks s) [] None s eq_refl) as (ff & E & Hff).
  cbn [length] in E. rewrite E. clear E.
  destruct (list_find (fun t => func t = func task) (m_tasks s)) as [[i x]|]; [done|].
  rewrite (Hff eq_refl). destruct (list_find (fun t => func t = None) (m_tasks s)) as [[i x]|] eqn:E;
    [|done]. cbn [fst snd fmap option_fmap option_map length Init.Nat.add]. rewrite bindE. unfold set_task, modify. cbn.
  do 2 f_equal. apply list_find_Some in E as (Hi & _). apply list_eq. intros j.
  rewrite list_lookup_alter. destruct (decide (i = j)) as [->|].
  - rewrite Hi, list_lookup_insert_eq; [done|]. by eapply lookup_lt_Some.
  - by rewrite list_lookup_insert_ne.
Qed.

Lemma remove_loop_spec cb suf pre s :
  m_tasks s = pre ++ suf ->
  remove_loop (seq (length pre) (length suf)) cb s =
    match list_find (fun t => func t = cb) suf with
    | Some (i, _) => (Some (length pre + i)%nat,
        with_tasks (alter (set_flags true true) (length pre + i)%nat (m_tasks s)) s)
    | None => (None, s)
    end.
Proof.
  revert pre. induction suf as [|t suf IH]; intros pre E; [done|].
  cbn [length seq remove_loop list_find]. rewrite bindE, (get_task_middle s pre t suf E).
  cbn [fst snd]. destruct (decide (func t = cb)) as [Ht|Ht].
  - by rewrite Nat.add_0_r.
  - rewrite snoc_middle in E. rewrite (seq_snoc_S pre t), (IH (pre ++ [t]) E).
    destruct (list_find _ suf) as [[i x]|]; [|done]. cbn. rewrite length_app. cbn.
    by replace (length pre + 1 + i)%nat with (length pre + S i)%nat by lia.
Qed.

Lemma remove_task_from_table_spec cb s :
  remove_task_from_table_locked cb s =
    match remove_table cb (m_tasks s) with
    | Some (i, l) => (Some i, with_tasks l s)
    | None => (None, s)
    end.
Proof.
  unfold remove_task_from_table_locked, remove_table. rewrite bindE. unfold slots, gets.
  cbn [fst snd]. pose proof (remove_loop_spec cb (m_tasks s) [] s eq_refl) as E.
  cbn [length] in E. rewrite E.
  by destruct (list_find _ (m_tasks s)) as [[i x]|].
Qed.

Lemma purge_active t f : func t = Some f -> removed t = false -> purge t = t.
Proof. intros _ Hr. unfold purge. by rewrite Hr. Qed.

Lemma purge_free t : func t = None -> purge t = t.
Proof. intros Hf. unfold purge. destruct t, removed0; cbn in *; by subst. Qed.

(** An active slot: occupied and not cancelled. *)
Definition active (t : task_t) : Prop := is_Some (func t) /\ removed t = false.

#[export] Instance active_dec t : Decision (active t).
Proof. unfold active. apply _. Defined.

(** The choice made by [get_next_task_locked] among the cleaned slots. *)
Definition chosen (l : list task_t) (p : option nat) : Prop :=
  match p with
  | Some i => exists t, l !! i = Some t /\ active t
  | None => Forall (fun t => func t = None) l
  end.

Lemma chosen_snoc l p t :
  chosen l p -> (p = None -> func t = None) -> chosen (l ++ [t]) p.
Proof.
  intros Hp Ht. destruct p as [i|]; cbn in *.
  - destruct Hp as (x & Hx & ?). exists x. rewrite lookup_app_l; [done|]. by eapply lookup_lt_Some.
  - apply Forall_app. auto.
Qed.

Lemma chosen_last l t : active t -> chosen (l ++ [t]) (Some (length l)).
Proof. intros. exists t. by rewrite list_lookup_middle. Qed.

Lemma get_next_loop_spec suf pre p s :
  m_tasks s = pre ++ suf -> chosen pre p ->
  exists p' w, get_next_loop (seq (length pre) (length suf)) p s =
      (p', with_world w (with_tasks (pre ++ (purge <$> suf)) s)) /\
    chosen (pre ++ (purge <$> suf)) p'.
Proof.
  revert pre p s. induction suf as [|t suf IH]; intros pre p s E Hp.
  - exists p, (world s). cbn. rewrite !app_nil_r in *. subst pre. by destruct s.
  - cbn [length seq get_next_loop]. rewrite bindE, (get_task_middle s pre t suf E).
    cbn [fst snd]. rewrite fmap_cons, (snoc_middle pre (purge t)), (seq_snoc_S pre (purge t)).
    destruct (func t) as [f|] eqn:Ef.
    + destruct (removed t) eqn:Er.
      * rewrite bindE. unfold set_task at 1, modify. cbn [fst snd].
        destruct (IH (pre ++ [purge t]) p (with_tasks (alter (set_func None) (length pre) (m_tasks s)) s))
          as (p' & w & -> & Hp').
        -- cbn. rewrite E, alter_middle, <- !app_assoc. cbn. unfold purge. by rewrite Er.
        -- apply chosen_snoc; [done|]. intros _. unfold purge. by rewrite Er.
        -- by exists p', w.
      * assert (Ha : active t) by (split; [by rewrite Ef|done]).
        rewrite (purge_active t f Ef Er) in *. rewrite (snoc_middle pre t) in E.
        destruct p as [j|].
        -- rewrite bindE. rewrite get_taskE. cbn [fst snd]. rewrite bindE.
           destruct (before_reads (next_ts t) (next_ts (default task0 (m_tasks s !! j))) s)
             as (b & w & ->). cbn [fst snd].
           destruct (IH (pre ++ [t]) (if b then Some (length pre) else Some j) (with_world w s) E)
             as (p' & w' & -> & Hp').
           { destruct b; [by apply chosen_last|by apply chosen_snoc]. }
           by exists p', w'.
        -- destruct (IH (pre ++ [t]) (Some (length pre)) s E) as (p' & w' & -> & Hp').
           { by apply chosen_last. }
           by exists p', w'.
    + rewrite (purge_free t Ef) in *. rewrite (snoc_middle pre t) in E.
      destruct (IH (pre ++ [t]) p s E) as (p' & w' & -> & Hp').
      { by apply chosen_snoc. }
      by exists p', w'.
Qed.

Lemma get_next_task_locked_spec s :
  exists p w, get_next_task_locked s = (p, with_world w (with_tasks (purge <$> m_tasks s) s)) /\
    chosen (purge <$> m_tasks s) p.
Proof.
  unfold get_next_task_locked. rewrite bindE. unfold slots, gets. cbn [fst snd].
  apply (get_next_loop_spec (m_tasks s) [] None s); [done|by apply Forall_nil_2].
Qed.

(** One clock-reading step of a handler. *)
Ltac rd :=
  rewrite bindE;
  match goal with |- context [(?m ?s).1] =>
    let H := fresh in
    assert (H : reads m) by (first [apply get_timestamp_reads | apply get_delay_reads
      | apply before_reads | auto with words]);
    let x := fresh "x" in let w := fresh "w" in
    destruct (H s) as (x & w & ->); clear H; cbn [fst snd]
  end.

Lemma get_task_reads i : reads (get_task i).
Proof. apply reads_gets. Qed.

Lemma schedule_task_spec i s :
  exists w d x, schedule_task i s = (tt, with_periodic d x (with_world w s)).
Proof.
  unfold schedule_task. rd. rd. pose proof get_task_reads. rd. rd.
  match goal with |- context [let '(_, _) := ?c in _] => destruct c as [nx' ex] end. rd.
  eexists _, _, _. reflexivity.
Qed.

(** [select_next]: the cancelled slots are freed, an active one is chosen if
    there is any, its [updated] flag is cleared and the stack is asked to call
    again. *)
Lemma select_next_spec s :
  exists p w q, select_next s =
    (tt, Build_state (m_max_time_ms s) (m_initialized s)
           (match p with Some i => alter (set_updated false) i (purge <$> m_tasks s)
                       | None => purge <$> m_tasks s end)
           p false q (ran s) w) /\
    chosen (purge <$> m_tasks s) p /\
    (p = None -> q = m_periodic s) /\ (p <> None -> is_Some q).
Proof.
  destruct (get_next_task_locked_spec s) as (p & w & E & Hc).
  unfold select_next. rewrite bindE, E. cbn [fst snd]. rewrite bindE. unfold modify at 1.
  cbn [fst snd]. rewrite bindE. destruct p as [i|].
  - rewrite bindE. match goal with |- context [schedule_task i ?s] =>
      destruct (schedule_task_spec i s) as (w1 & d & x & ->) end.
    exists (Some i), w1, (Some (d, x)). by split_and!.
  - exists None, w, (m_periodic s). cbn. split_and!; done.
Qed.

(** ** The calls of the application, case by case *)

(** The timestamp [get_timestamp] computes for a delay at some time. *)
Definition ts_for (max ms : Z) (t : timestamp_t) : Prop :=
  exists s, m_max_time_ms s = max /\ (get_timestamp ms s).1 = t.

Definition too_long (x : Z) : bool :=
  MAX_EXECUTION_TIME_ALLOWED_BY_STACK_US
    <? u32 (x + EXECUTION_TIME_NEEDED_FOR_SCHEDULING_US).

(** The fields a call leaves alone. *)
Definition same_frame (s s' : state W) : Prop :=
  m_max_time_ms s' = m_max_time_ms s /\ m_initialized s' = m_initialized s /\
  m_next_task_p s' = m_next_task_p s /\ ran s' = ran s.

(** The request for an immediate reschedule. *)
Definition asap (s : state W) : Prop :=
  m_force_reschedule s = true /\ m_periodic s = Some (0, EXECUTION_TIME_NEEDED_FOR_SCHEDULING_US).

(** Nothing but the clock changed. *)
Definition unchanged (s s' : state W) : Prop := exists w, s' = with_world w s.

Lemma addTask_cases cb d x s r s' :
  App_Scheduler_addTask_execTime cb d x s = (r, s') ->
  exists t, ts_for (m_max_time_ms s) d t /\ same_frame s s' /\
  let new := {| func := cb; next_ts := t; exec_time_us := x; updated := false; removed := false |} in
  if negb (m_initialized s) then r = APP_SCHEDULER_RES_UNINITIALIZED /\ unchanged s s'
  else if too_long x then r = APP_SCHEDULER_RES_TOO_LONG_EXECUTION_TIME /\ unchanged s s'
  else match add_table new (m_tasks s) with
       | None => r = APP_SCHEDULER_RES_NO_MORE_TASK /\ unchanged s s'
       | Some l =>
           r = APP_SCHEDULER_RES_OK /\ m_tasks s' = l /\
           (asap s' \/
            m_force_reschedule s' = m_force_reschedule s /\ m_periodic s' = m_periodic s /\
            exists i, m_next_task_p s = Some i /\ func (default task0 (l !! i)) <> cb)
       end.
Proof.
  unfold App_Scheduler_addTask_execTime. rewrite bindE. intros E.
  destruct (get_timestamp_reads d s) as (t & w & Et). rewrite Et in E. cbn [fst snd] in E.
  exists t. split; [exists s; by rewrite Et|]. rewrite bindE in E. cbn [gets fst snd] in E.
  destruct (m_initialized s) eqn:Ei; cbn in E |- *; rewrite Ei in E; cbn in E.
  2:{ injection E as <- <-. split; [done|]. split; [done|]. by exists w. }
  unfold too_long. case_match eqn:Ex.
  { injection E as <- <-. split; [done|]. split; [done|]. by exists w. }
  rewrite bindE, add_task_to_table_spec in E. cbn [m_tasks with_world] in E.
  destruct (add_table _ (m_tasks s)) as [l|]; cbn [fst snd negb] in E.
  2:{ injection E as <- <-. split; [done|]. split; [done|]. by exists w. }
  rewrite bindE in E. cbn [gets fst snd m_next_task_p with_tasks with_world] in E.
  destruct (m_next_task_p s) as [i|] eqn:Ep.
  - rewrite bindE, (bindE (get_task i)), get_taskE in E. cbn [fst snd m_tasks with_tasks] in E.
    destruct (decide (func (default task0 (l !! i)) = cb)).
    + cbn in E. injection E as <- <-. split; [done|]. split; [done|]. split; [done|]. by left.
    + match type of E with context [is_timestamp_before ?a ?b ?s] =>
        destruct (before_reads a b s) as (b' & w2 & Eb) end. rewrite Eb in E. cbn in E.
      rewrite bindE in E. destruct b'; cbn in E; injection E as <- <-; cbn.
      * split; [done|]. split; [done|]. split; [done|]. by left.
      * split; [done|]. split; [done|]. split; [done|]. right. eauto.
  - cbn in E. injection E as <- <-. split; [done|]. split; [done|]. split; [done|]. by left.
Qed.

Lemma cancelTask_cases cb s r s' :
  App_Scheduler_cancelTask cb s = (r, s') ->
  same_frame s s' /\
  if negb (m_initialized s) then r = APP_SCHEDULER_RES_UNINITIALIZED /\ s' = s
  else match remove_table cb (m_tasks s) with
       | None => r = APP_SCHEDULER_RES_UNKNOWN_TASK /\ s' = s
       | Some (i, l) => r = APP_SCHEDULER_RES_OK /\ m_tasks s' = l /\ asap s'
       end.
Proof.
  unfold App_Scheduler_cancelTask. rewrite bindE. cbn [gets fst snd]. intros E.
  destruct (m_initialized s) eqn:Ei; cbn [negb] in *.
  - rewrite bindE, remove_task_from_table_spec in E.
    destruct (remove_table cb (m_tasks s)) as [[i l]|];
      cbn in E; injection E as <- <-; (split; [done|]); by split_and!.
  - cbn in E. by injection E as <- <-.
Qed.

(** ** One slot changes *)

Lemma add_table_some task l l' :
  add_table task l = Some l' ->
  exists k t t', l !! k = Some t /\ l' = <[k := t']> l /\
    func t' = func task /\ next_ts t' = next_ts task /\
    (removed task = false -> removed t' = false) /\
    (func t = func task /\ updated t' = true \/
     func t = None /\ forall j u, l !! j = Some u -> func u <> func task).
Proof.
  unfold add_table. destruct (list_find (fun t => func t = func task) l) as [[k t]|] eqn:E1.
  - intros [= <-]. apply list_find_Some in E1 as (Hk & Hf & _).
    exists k, t, (set_flags true false (set_next_ts (next_ts task) t)). split_and!; try done; [|by left].
    apply list_eq. intros j. rewrite list_lookup_alter. destruct (decide (k = j)) as [->|].
    + rewrite Hk, list_lookup_insert_eq; [done|]. by eapply lookup_lt_Some.
    + by rewrite list_lookup_insert_ne.
  - destruct (list_find (fun t => func t = None) l) as [[k t]|] eqn:E2; [|done]. intros [= <-].
    apply list_find_Some in E2 as (Hk & Hf & _). exists k, t, task. split_and!; try done.
    right. split; [done|]. intros j u Hj. apply list_find_None in E1.
    rewrite Forall_lookup in E1. by apply (E1 j).
Qed.

Lemma add_table_none task l :
  add_table task l = None -> forall j u, l !! j = Some u -> is_Some (func u) /\ func u <> func task.
Proof.
  unfold add_table. intros H j u Hj.
  destruct (list_find _ l) as [[k t]|] eqn:E1; [done|].
  destruct (list_find (fun t => func t = None) l) as [[k t]|] eqn:E2; [done|].
  apply list_find_None in E1, E2. rewrite Forall_lookup in E1, E2. split; [|by apply (E1 j)].
  destruct (func u) eqn:Eu; [eauto|]. by destruct (E2 j u Hj).
Qed.

Lemma remove_table_some cb l k l' :
  remove_table cb l = Some (k, l') ->
  exists t, l !! k = Some t /\ func t = cb /\ l' = <[k := set_flags true true t]> l.
Proof.
  unfold remove_table. destruct (list_find _ l) as [[j t]|] eqn:E; [|done]. intros [= -> <-].
  apply list_find_Some in E as (Hk & Hf & _). exists t. split_and!; try done.
  apply list_eq. intros j. rewrite list_lookup_alter. destruct (decide (k = j)) as [->|].
  - rewrite Hk, list_lookup_insert_eq; [done|]. by eapply lookup_lt_Some.
  - by rewrite list_lookup_insert_ne.
Qed.

Lemma remove_table_none cb l :
  remove_table cb l = None -> forall j u, l !! j = Some u -> func u <> cb.
Proof.
  unfold remove_table. destruct (list_find _ l) as [[j t]|] eqn:E; [done|]. intros _ j u Hj.
  apply list_find_None in E. rewrite Forall_lookup in E. by apply (E j).
Qed.

(** A callback occupies at most one slot. *)
Definition uniq (l : list task_t) : Prop :=
  forall i j x y f, l !! i = Some x -> l !! j = Some y ->
    func x = Some f -> func y = Some f -> i = j.

Lemma uniq_insert l k t t' :
  uniq l -> l !! k = Some t ->
  (forall f, func t' = Some f -> func t = Some f \/ forall j u, l !! j = Some u -> func u <> Some f) ->
  uniq (<[k := t']> l).
Proof.
  intros Hu Hk Hf i j x y f Hi Hj Hx Hy.
  destruct (decide (i = k)) as [->|Hik], (decide (j = k)) as [->|Hjk]; [done|..].
  - rewrite list_lookup_insert_eq in Hi by by eapply lookup_lt_Some.
    rewrite list_lookup_insert_ne in Hj by done. simplify_eq.
    destruct (Hf f Hx) as [?|Hno]; [by apply (Hu k j t y f)|]. by destruct (Hno j y Hj).
  - rewrite list_lookup_insert_eq in Hj by by eapply lookup_lt_Some.
    rewrite list_lookup_insert_ne in Hi by done. simplify_eq.
    destruct (Hf f Hy) as [?|Hno]; [by apply (Hu i k x t f)|]. by destruct (Hno i x Hi).
  - rewrite list_lookup_insert_ne in Hi, Hj by done. by apply (Hu i j x y f).
Qed.

Lemma uniq_fmap g l :
  (forall t f, func (g t) = Some f -> func t = Some f) -> uniq l -> uniq (g <$> l).
Proof.
  intros Hg Hu i j x y f Hi Hj Hx Hy. rewrite list_lookup_fmap in Hi, Hj.
  destruct (l !! i) as [x0|] eqn:Ei, (l !! j) as [y0|] eqn:Ej; simplify_eq/=.
  by apply (Hu i j x0 y0 f); auto.
Qed.

Lemma uniq_alter g i l :
  (forall t f, func (g t) = Some f -> func t = Some f) -> uniq l -> uniq (alter g i l).
Proof.
  intros Hg Hu a b x y f Ha Hb Hx Hy.
  assert (H : forall k z, alter g i l !! k = Some z ->
    func z = Some f -> exists z0, l !! k = Some z0 /\ func z0 = Some f).
  { intros k z Hz Hfz. rewrite list_lookup_alter in Hz. case_decide; [|eauto]. subst. destruct (l !! k) as [z0|]; simplify_eq/=; eauto. }
  destruct (H a x) as (x0 & ? & ?); [done..|]. destruct (H b y) as (y0 & ? & ?); [done..|].
  by apply (Hu a b x0 y0 f).
Qed.

Lemma purge_func t f : func (purge t) = Some f -> func t = Some f.
Proof. unfold purge. by destruct (removed t). Qed.

(** ** The invariant between two runs of the periodic work *)

Record inv (s : state W) : Prop := {
  inv_uniq : uniq (m_tasks s);
  inv_next i : m_next_task_p s = Some i -> exists t, m_tasks s !! i = Some t /\
    (m_force_reschedule s = false -> active t /\ updated t = false);
  inv_idle i t : m_next_task_p s = None -> m_force_reschedule s = false ->
    m_tasks s !! i = Some t -> func t = None;
  inv_clean i t : m_force_reschedule s = false -> m_tasks s !! i = Some t ->
    is_Some (func t) -> removed t = false;
  inv_req : m_force_reschedule s = true -> asap s }.

Lemma uniq_call c s r s' : do_call c s = (r, s') -> uniq (m_tasks s) -> uniq (m_tasks s').
Proof.
  intros E Hu. destruct c as [cb d x|cb]; cbn in E.
  - apply addTask_cases in E as (t & _ & _ & E). cbv zeta in E.
    repeat case_match; try (destruct E as [_ [w ->]]; done).
    destruct E as (_ & -> & _). apply add_table_some in H1 as (k & u & u' & Hk & -> & Hf & _ & _ & Hor).
    apply (uniq_insert _ k u); [done..|]. intros f Hf'. rewrite Hf in Hf'. cbn in *.
    destruct Hor as [[Hor _]|[_ Hno]]; [left; congruence|right]. intros j v Hv. rewrite <- Hf'. eauto.
  - apply cancelTask_cases in E as (_ & E). repeat case_match; try (destruct E as [_ ->]; done).
    destruct E as (_ & -> & _). apply remove_table_some in H0 as (u & Hk & Hf & ->).
    apply (uniq_insert _ n u); [done..|]. auto.
Qed.

Lemma inv_world w s : inv s -> inv (with_world w s).
Proof. by intros []. Qed.

Lemma inv_call c s r s' : do_call c s = (r, s') -> inv s -> inv s'.
Proof.
  intros E I. pose proof (uniq_call c s r s' E (inv_uniq s I)) as Hu. destruct I as [_ I1 I2 I3 I4].
  destruct c as [cb d x|cb]; cbn in E.
  - apply addTask_cases in E as (t & _ & (_ & _ & Hn & _) & E). cbv zeta in E.
    repeat case_match; try (destruct E as [_ [w ->]]; by constructor).
    destruct E as (_ & El & Ef). apply add_table_some in H1 as (k & u & u' & Hk & El' & Hf & _ & Hr & _).
    specialize (Hr eq_refl). cbn in Hf. rewrite El in *. subst l.
    assert (Hl : forall j v, <[k:=u']> (m_tasks s) !! j = Some v ->
      j = k /\ v = u' \/ j <> k /\ m_tasks s !! j = Some v).
    { intros j v Hj. destruct (decide (j = k)) as [->|].
      - rewrite list_lookup_insert_eq in Hj by by eapply lookup_lt_Some. simplify_eq. auto.
      - rewrite list_lookup_insert_ne in Hj by done. auto. }
    destruct Ef as [Ha | (Ef & Ep & i & Ei & Hi)].
    + pose proof Ha as [Hb _]. constructor; rewrite ?Hb, ?El; try done.
      intros i Hi. rewrite Hn in Hi. destruct (I1 i Hi) as (v & Hv & _).
      destruct (decide (i = k)) as [->|].
      * exists u'. by rewrite list_lookup_insert_eq by by eapply lookup_lt_Some.
      * exists v. by rewrite list_lookup_insert_ne.
    + constructor; rewrite ?Ef, ?Hn, ?El; try done.
      * intros j Hj. rewrite Ei in Hj. injection Hj as <-. destruct (I1 i Ei) as (v & Hv & Hf').
        assert (i <> k).
        { intros ->. apply Hi. by rewrite list_lookup_insert_eq by by eapply lookup_lt_Some. }
        exists v. by rewrite list_lookup_insert_ne.
      * congruence.
      * intros j v Hj Hv Hs. apply Hl in Hv as [[_ ->]|[_ Hv]]; [done|by apply (I3 j)].
      * intros Hforce. destruct (I4 Hforce). split; congruence.
  - apply cancelTask_cases in E as ((_ & _ & Hn & _) & E).
    repeat case_match; try (destruct E as [_ ->]; by constructor).
    destruct E as (_ & El & Ha). apply remove_table_some in H0 as (u & Hk & Hf & ->).
    rewrite El in Hu.
    pose proof Ha as [Hb _]. constructor; rewrite ?Hb, ?El; try done.
    intros i Hi. rewrite Hn in Hi. destruct (I1 i Hi) as (v & Hv & _).
    destruct (decide (i = n)) as [->|].
    + eexists. by rewrite list_lookup_insert_eq by by eapply lookup_lt_Some.
    + exists v. by rewrite list_lookup_insert_ne.
Qed.

(** ** Runs of calls *)

(** Calls one after the other, the clock moving on between them. *)
Inductive calls_run : list call -> state W -> state W -> Prop :=
| calls_nil s w : calls_run [] s (with_world w s)
| calls_cons c cs s w r s1 s2 :
    do_call c (with_world w s) = (r, s1) -> calls_run cs s1 s2 -> calls_run (c :: cs) s s2.

Lemma do_calls_run cs s : calls_run cs s (do_calls cs s).2.
Proof.
  revert s. induction cs as [|c cs IH]; intros s; cbn [do_calls].
  - replace s with (with_world (world s) s) at 2 by by destruct s. constructor.
  - rewrite bindE. destruct (do_call c s) as [r s1] eqn:E.
    apply (calls_cons c cs s (world s) r s1); [by destruct s|apply IH].
Qed.

Lemma calls_run_world cs s w s' : calls_run cs (with_world w s) s' -> calls_run cs s s'.
Proof. inversion 1; subst; [exact (calls_nil s _)|eapply (calls_cons _ _ s); eassumption]. Qed.

Lemma calls_run_app cs1 cs2 s s1 s2 :
  calls_run cs1 s s1 -> calls_run cs2 s1 s2 -> calls_run (cs1 ++ cs2) s s2.
Proof.
  induction 1 as [s w|c cs s w r s1 s' E _ IH]; cbn; intros H.
  - by eapply calls_run_world.
  - econstructor; eauto.
Qed.

(** What every call preserves, every run of calls does. *)
Lemma calls_run_pres (P : state W -> Prop) (ok : call -> Prop) cs s s' :
  (forall w s, P s -> P (with_world w s)) ->
  (forall c s r s', ok c -> do_call c s = (r, s') -> P s -> P s') ->
  Forall ok cs -> calls_run cs s s' -> P s -> P s'.
Proof.
  intros Hw Hc Hok. induction 1 as [s w|c cs s w r s1 s' E _ IH]; intros HP; [by apply Hw|].
  apply Forall_cons in Hok as [? ?]. eauto.
Qed.

Lemma call_frame c s r s' : do_call c s = (r, s') -> same_frame s s'.
Proof.
  destruct c as [cb d x|cb]; cbn; intros E.
  - by apply addTask_cases in E as (t & _ & ? & _).
  - by apply cancelTask_cases in E as (? & _).
Qed.

Lemma calls_run_frame cs s s' : calls_run cs s s' -> same_frame s s'.
Proof.
  induction 1 as [s w|c cs s w r s1 s' E _ IH]; [done|].
  apply call_frame in E as (? & ? & ? & ?). destruct IH as (? & ? & ? & ?).
  split_and!; cbn in *; congruence.
Qed.

Lemma calls_run_uniq cs s s' : calls_run cs s s' -> uniq (m_tasks s) -> uniq (m_tasks s').
Proof.
  intros H. apply (calls_run_pres (fun s => uniq (m_tasks s)) (fun _ => True) cs); try done.
  - intros. by eapply uniq_call.
  - by apply Forall_true.
Qed.

(** A task is due: the scheduler finds no delay left. *)
Definition due (t : timestamp_t) : Prop := exists s, (get_delay_from_now_us t s).1 = 0.

(** The last step of [perform_task]. *)
Definition settle (i : nat) (next : Z) (s s' : state W) : Prop :=
  let t := default task0 (m_tasks s !! i) in
  if negb (updated t) && negb (removed t) then
    if next =? APP_SCHEDULER_STOP_TASK
    then s' = with_tasks (alter (set_func None) i (m_tasks s)) s
    else exists x w, ts_for (m_max_time_ms s) next x /\
      s' = with_world w (with_tasks (alter (set_next_ts x) i (m_tasks s)) s)
  else s' = s.

(** The calls made when no task is called. *)
Definition idle_calls (e : interference) : list (list call) :=
  [[]; irq_entry e; irq_entry e ++ irq_delay e; irq_entry e ++ irq_delay e ++ irq_removed e].

Inductive selected_run (e : interference) (s : state W) : state W -> Prop :=
| run_idle cs s' :
    cs ∈ idle_calls e -> calls_run cs s s' -> selected_run e s s'
| run_task i f s1 s2 s3 s4 s5 :
    m_force_reschedule s = false -> m_next_task_p s = Some i ->
    calls_run (irq_entry e) s s1 -> due (next_ts (default task0 (m_tasks s1 !! i))) ->
    calls_run (irq_delay e) s1 s2 -> removed (default task0 (m_tasks s2 !! i)) = false ->
    calls_run (irq_removed e) s2 s3 -> func (default task0 (m_tasks s3 !! i)) = Some f ->
    calls_run (body e) (with_ran f s3) s4 -> settle i (next e) s4 s5 ->
    selected_run e s s5.

Lemma perform_task_settle i next s :
  settle i next s ((task ← get_task i;
   if negb (updated task) && negb (removed task) then
     if next =? APP_SCHEDULER_STOP_TASK then set_task i (set_func None)
     else ts ← get_timestamp next; set_task i (set_next_ts ts)
   else mret tt) s).2.
Proof.
  rewrite bindE, get_taskE. cbn [fst snd]. unfold settle.
  destruct (_ && _); [|done]. destruct (_ =? _); [done|].
  rewrite bindE. destruct (get_timestamp_reads next s) as (x & w & Ex). rewrite Ex.
  exists x, w. split; [|done]. exists s. by rewrite Ex.
Qed.

Lemma run_selected_run e s : selected_run e s (run_selected e s).2.
Proof.
  unfold run_selected. rewrite bindE. cbn [gets fst snd].
  assert (H0 : forall s, calls_run [] s s).
  { intros s0. replace s0 with (with_world (world s0) s0) at 2 by by destruct s0. constructor. }
  destruct (m_force_reschedule s) eqn:Ef; cbn [negb].
  { apply (run_idle e s []); [unfold idle_calls; set_solver|done]. }
  rewrite bindE. pose proof (do_calls_run (irq_entry e) s) as R1.
  set (s1 := (do_calls (irq_entry e) s).2) in *. rewrite bindE. cbn [gets fst snd].
  destruct (m_next_task_p s1) as [i|] eqn:Ei.
  2:{ apply (run_idle e s (irq_entry e)); [unfold idle_calls; set_solver|done]. }
  rewrite bindE, get_taskE. cbn [fst snd]. rewrite bindE.
  destruct (get_delay_reads (next_ts (default task0 (m_tasks s1 !! i))) s1) as (d & w & Ed).
  rewrite Ed. cbn [fst snd]. destruct (d =? 0) eqn:E0.
  2:{ apply (run_idle e s (irq_entry e)); [unfold idle_calls; set_solver|]. rewrite <- (app_nil_r (irq_entry e)).
      eapply calls_run_app; [done|constructor]. }
  apply Z.eqb_eq in E0. subst d. rewrite bindE.
  pose proof (calls_run_world _ _ _ _ (do_calls_run (irq_delay e) (with_world w s1))) as R2.
  set (s2 := (do_calls (irq_delay e) (with_world w s1)).2) in *.
  rewrite bindE, get_taskE. cbn [fst snd].
  destruct (removed (default task0 (m_tasks s2 !! i))) eqn:Er; cbn [negb].
  { apply (run_idle e s (irq_entry e ++ irq_delay e)); [unfold idle_calls; set_solver|].
    by eapply calls_run_app. }
  rewrite bindE. pose proof (do_calls_run (irq_removed e) s2) as R3.
  set (s3 := (do_calls (irq_removed e) s2).2) in *.
  unfold perform_task. rewrite bindE, get_taskE. cbn [fst snd].
  destruct (func (default task0 (m_tasks s3 !! i))) as [f|] eqn:Efn.
  2:{ apply (run_idle e s (irq_entry e ++ irq_delay e ++ irq_removed e)); [unfold idle_calls; set_solver|].
      eapply calls_run_app; [done|]. by eapply calls_run_app. }
  rewrite bindE. cbn [modify fst snd]. rewrite bindE.
  pose proof (do_calls_run (body e) (with_ran f s3)) as R4.
  apply (run_task e s i f s1 s2 s3 (do_calls (body e) (with_ran f s3)).2); try done.
  - apply calls_run_frame in R1 as (_ & _ & Hn & _). congruence.
  - exists s1. by rewrite Ed.
  - apply perform_task_settle.
Qed.

(** ** The abstract scheduler: a map from callbacks to execution times *)

(** The task a slot stands for. *)
Definition view (t : task_t) : option (fid * timestamp_t) :=
  match func t with
  | Some f => if removed t then None else Some (f, next_ts t)
  | None => None
  end.

Abbreviation sched := (gmap fid timestamp_t).

Definition abs (l : list task_t) (σ : sched) : Prop :=
  forall f t, σ !! f = Some t <-> exists i x, l !! i = Some x /\ view x = Some (f, t).

Lemma view_func x f t : view x = Some (f, t) -> func x = Some f.
Proof. unfold view. destruct (func x), (removed x); intros; congruence. Qed.

Lemma abs_ext l l' σ : view <$> l = view <$> l' -> abs l σ -> abs l' σ.
Proof.
  intros E Ha f t. rewrite (Ha f t).
  assert (H : forall i, view <$> l !! i = view <$> l' !! i)
    by (intros i; by rewrite <- !list_lookup_fmap, E).
  split; intros (i & x & Hi & Hx); specialize (H i); rewrite Hi in H; exists i.
  - destruct (l' !! i) as [y|]; [|done]. exists y. split; [done|]. cbn in H. congruence.
  - destruct (l !! i) as [y|]; [|done]. exists y. split; [done|]. cbn in H. congruence.
Qed.

(** The slot [k], of [f] or free while [f] has no slot, is overwritten. *)
Lemma abs_upd l σ k u u' f :
  abs l σ -> uniq l -> l !! k = Some u ->
  (func u = Some f \/ func u = None /\ forall j v, l !! j = Some v -> func v <> Some f) ->
  (forall g t, view u' = Some (g, t) -> g = f) ->
  abs (<[k := u']> l) (match view u' with Some (_, t) => <[f := t]> σ | None => delete f σ end).
Proof.
  intros Ha Hu Hk Hf Hv g t.
  assert (Hlt : (k < length l)%nat) by by eapply lookup_lt_Some.
  assert (Hother : forall i v, i <> k -> l !! i = Some v -> func v <> Some f).
  { intros i v Hne Hi Hfv. destruct Hf as [Hf|[_ Hno]]; [|by apply (Hno i v)].
    apply Hne. by apply (Hu i k v u f). }
  destruct (decide (g = f)) as [->|Hgf].
  - split.
    + destruct (view u') as [[f' t']|] eqn:Ev; [|by rewrite lookup_delete_eq].
      rewrite lookup_insert_eq. intros [= ->]. exists k, u'.
      rewrite list_lookup_insert_eq by done. by rewrite (Hv f' t eq_refl) in Ev.
    + intros (i & x & Hi & Hx). destruct (decide (i = k)) as [->|Hik].
      * rewrite list_lookup_insert_eq in Hi by done. simplify_eq. rewrite Hx. by simplify_map_eq.
      * rewrite list_lookup_insert_ne in Hi by done. by destruct (Hother i x Hik Hi (view_func _ _ _ Hx)).
  - replace (match view u' with Some (_, t0) => <[f:=t0]> σ | None => delete f σ end !! g)
      with (σ !! g) by (destruct (view u') as [[? ?]|]; by simplify_map_eq).
    rewrite (Ha g t). split; intros (i & x & Hi & Hx); exists i, x; (split; [|done]).
    + rewrite list_lookup_insert_ne; [done|]. intros ->. apply view_func in Hx. simplify_eq.
      destruct Hf as [Hf|[Hf _]]; congruence.
    + destruct (decide (i = k)) as [->|Hik]; [|by rewrite list_lookup_insert_ne in Hi].
      rewrite list_lookup_insert_eq in Hi by done. simplify_eq. by rewrite (Hv g t Hx) in Hgf.
Qed.

Lemma abs_none l σ f :
  abs l σ -> (forall j v, l !! j = Some v -> func v <> Some f) -> σ !! f = None.
Proof.
  intros Ha Hno. destruct (σ !! f) as [t|] eqn:E; [|done].
  apply Ha in E as (i & x & Hi & Hx). by destruct (Hno i x Hi (view_func _ _ _ Hx)).
Qed.

Lemma uniq_NoDup l : uniq l -> NoDup (omap view l).*1.
Proof.
  induction l as [|x l IH]; intros Hu; cbn; [apply NoDup_nil_2|].
  assert (Hu' : uniq l).
  { intros i j a b f Hi Hj Ha Hb. enough (S i = S j) by lia. by apply (Hu (S i) (S j) a b f). }
  destruct (view x) as [[f t]|] eqn:E; [|auto]. cbn. apply NoDup_cons. split; [|auto].
  intros Hin. apply list_elem_of_fmap in Hin as ([g t'] & Hg & Hin). cbn in Hg. subst g.
  apply list_elem_of_omap in Hin as (y & Hy & Hv). apply list_elem_of_lookup in Hy as (j & Hj).
  specialize (Hu O (S j) x y f). discriminate Hu; eauto using view_func.
Qed.

(** Every table without duplicates stands for a map. *)
Lemma abs_exists l : uniq l -> exists σ, abs l σ.
Proof.
  intros Hu. exists (list_to_map (omap view l)). intros f t.
  rewrite <- elem_of_list_to_map.
  - rewrite list_elem_of_omap. setoid_rewrite list_elem_of_lookup. naive_solver.
  - by apply uniq_NoDup.
Qed.

(** What a call does to the map, and what it returns. *)
Inductive acall (max : Z) (σ : sched) : call -> app_scheduler_res_e -> sched -> Prop :=
| acall_add f d x t :
    too_long x = false -> ts_for max d t ->
    acall max σ (Add (Some f) d x) APP_SCHEDULER_RES_OK (<[f := t]> σ)
| acall_full f d x :
    σ !! f = None -> acall max σ (Add (Some f) d x) APP_SCHEDULER_RES_NO_MORE_TASK σ
| acall_long cb d x :
    too_long x = true -> acall max σ (Add cb d x) APP_SCHEDULER_RES_TOO_LONG_EXECUTION_TIME σ
| acall_cancel f : acall max σ (Cancel (Some f)) APP_SCHEDULER_RES_OK (delete f σ)
| acall_unknown f :
    σ !! f = None -> acall max σ (Cancel (Some f)) APP_SCHEDULER_RES_UNKNOWN_TASK σ
| acall_add_null d x r : acall max σ (Add None d x) r σ
| acall_cancel_null r : acall max σ (Cancel None) r σ.

Lemma abs_same_view l σ k u u' :
  abs l σ -> l !! k = Some u -> view u' = view u -> abs (<[k := u']> l) σ.
Proof.
  intros Ha Hk Hv. apply (abs_ext l); [|done]. rewrite list_fmap_insert, Hv.
  symmetry. apply list_insert_id. by rewrite list_lookup_fmap, Hk.
Qed.

Lemma call_abs c s r s' σ :
  do_call c s = (r, s') -> m_initialized s = true -> uniq (m_tasks s) -> abs (m_tasks s) σ ->
  exists σ', acall (m_max_time_ms s) σ c r σ' /\ abs (m_tasks s') σ'.
Proof.
  intros E Hi Hu Ha. destruct c as [cb d x|cb]; cbn in E.
  - apply addTask_cases in E as (t & Ht & _ & E). cbv zeta in E. rewrite Hi in E. cbn [negb] in E.
    destruct (too_long x) eqn:Ex.
    { destruct E as (-> & w & ->). exists σ. split; [by constructor|done]. }
    destruct (add_table _ (m_tasks s)) as [l|] eqn:Et.
    + destruct E as (-> & -> & _). apply add_table_some in Et as (k & u & u' & Hk & -> & Hf & Hn & Hr & Hor).
      specialize (Hr eq_refl). cbn in Hf, Hn. destruct cb as [f|].
      * exists (<[f := t]> σ). split; [by constructor|].
        assert (Hv : view u' = Some (f, t)) by (unfold view; by rewrite Hf, Hr, Hn).
        pose proof (abs_upd (m_tasks s) σ k u u' f Ha Hu Hk) as H. rewrite Hv in H. apply H.
        -- cbn in Hor. destruct Hor as [[? _]|]; auto.
        -- intros g t' [= -> _]. done.
      * exists σ. split; [by constructor|]. apply (abs_same_view _ _ k u); [done..|].
        unfold view. rewrite Hf. destruct Hor as [[-> _]|[-> _]]; done.
    + destruct E as (-> & w & ->). exists σ. split; [|done].
      destruct cb as [f|]; constructor. apply (abs_none (m_tasks s)); [done|]. intros j v Hj.
      by apply (add_table_none _ _ Et j v).
  - apply cancelTask_cases in E as (_ & E). rewrite Hi in E. cbn [negb] in E.
    destruct (remove_table cb (m_tasks s)) as [[k l]|] eqn:Et.
    + destruct E as (-> & -> & _). apply remove_table_some in Et as (u & Hk & Hf & ->).
      destruct cb as [f|].
      * exists (delete f σ). split; [constructor|].
        assert (Hv : view (set_flags true true u) = None) by (unfold view; cbn; by rewrite Hf).
        pose proof (abs_upd (m_tasks s) σ k u (set_flags true true u) f Ha Hu Hk) as H.
        rewrite Hv in H. apply H; [by left|done].
      * exists σ. split; [constructor|]. apply (abs_same_view _ _ k u); [done..|].
        unfold view. cbn. by rewrite Hf.
    + destruct E as (-> & ->). exists σ. split; [|done]. destruct cb as [f|]; constructor.
      apply (abs_none (m_tasks s)); [done|]. by apply remove_table_none.
Qed.

Inductive acalls (max : Z) : sched -> list call -> sched -> Prop :=
| acalls_nil σ : acalls max σ [] σ
| acalls_cons σ c r σ1 cs σ2 :
    acall max σ c r σ1 -> acalls max σ1 cs σ2 -> acalls max σ (c :: cs) σ2.

Lemma acalls_app max σ1 cs1 σ2 cs2 σ3 :
  acalls max σ1 cs1 σ2 -> acalls max σ2 cs2 σ3 -> acalls max σ1 (cs1 ++ cs2) σ3.
Proof. induction 1; cbn; [done|]. intros. econstructor; eauto. Qed.

Lemma calls_abs cs s s' σ :
  calls_run cs s s' -> m_initialized s = true -> uniq (m_tasks s) -> abs (m_tasks s) σ ->
  exists σ', acalls (m_max_time_ms s) σ cs σ' /\ abs (m_tasks s') σ'.
Proof.
  intros R. revert σ. induction R as [s w|c cs s w r s1 s2 E R IH]; intros σ Hi Hu Ha.
  - exists σ. split; [constructor|done].
  - destruct (call_abs c _ r s1 σ E Hi Hu Ha) as (σ1 & A1 & Ha1).
    pose proof (call_frame _ _ _ _ E) as (Hm & Hi1 & _). cbn in Hm, Hi1.
    destruct (IH σ1) as (σ2 & A2 & Ha2); [congruence|by eapply uniq_call|done|].
    exists σ2. split; [|done]. econstructor; [done|]. by rewrite <- Hm.
Qed.

(** The calls that touch the slot of a scheduled callback. *)
Definition touches (f : fid) (c : call) : bool :=
  match c with
  | Add cb _ x => bool_decide (cb = Some f) && negb (too_long x)
  | Cancel cb => bool_decide (cb = Some f)
  end.

Lemma call_slot c s r s' i t f :
  do_call c s = (r, s') -> m_initialized s = true -> uniq (m_tasks s) ->
  m_tasks s !! i = Some t -> func t = Some f ->
  exists t', m_tasks s' !! i = Some t' /\ func t' = Some f /\
    updated t' = updated t || touches f c /\ (touches f c = false -> t' = t).
Proof.
  intros E Hi Hu Ht Hf. destruct c as [cb d x|cb]; cbn in E |- *.
  - apply addTask_cases in E as (t0 & _ & _ & E). cbv zeta in E. rewrite Hi in E. cbn [negb] in E.
    destruct (too_long x) eqn:Ex.
    { destruct E as (_ & w & ->). exists t. rewrite andb_false_r, orb_false_r. done. }
    rewrite andb_true_r. destruct (add_table _ (m_tasks s)) as [l|] eqn:Et.
    + destruct E as (_ & -> & _). apply add_table_some in Et as (k & u & u' & Hk & -> & Hfu & _ & _ & Hor).
      cbn in Hfu, Hor. destruct (decide (i = k)) as [->|Hik].
      * simplify_eq. exists u'. rewrite list_lookup_insert_eq by by eapply lookup_lt_Some.
        destruct Hor as [[Hcb Hup]|[? _]]; [|congruence].
        rewrite bool_decide_true by congruence. rewrite Hup, orb_true_r. split_and!; try done. congruence.
      * exists t. rewrite list_lookup_insert_ne by done. rewrite bool_decide_false.
        -- by rewrite orb_false_r.
        -- intros ->. destruct Hor as [[Hcb _]|[_ Hno]]; [|by apply (Hno i t)].
           apply Hik. by apply (Hu i k t u f).
    + destruct E as (_ & w & ->). exists t. rewrite bool_decide_false; [by rewrite orb_false_r|].
      intros ->. by destruct (add_table_none _ _ Et i t Ht) as [_ ?].
  - apply cancelTask_cases in E as (_ & E). rewrite Hi in E. cbn [negb] in E.
    destruct (remove_table cb (m_tasks s)) as [[k l]|] eqn:Et.
    + destruct E as (_ & -> & _). apply remove_table_some in Et as (u & Hk & Hfu & ->).
      destruct (decide (i = k)) as [->|Hik].
      * simplify_eq. exists (set_flags true true u).
        rewrite list_lookup_insert_eq by by eapply lookup_lt_Some.
        rewrite bool_decide_true by done. by rewrite orb_true_r.
      * exists t. rewrite list_lookup_insert_ne by done. rewrite bool_decide_false.
        -- by rewrite orb_false_r.
        -- intros ->. apply Hik. by apply (Hu i k t u f).
    + destruct E as (_ & ->). exists t. rewrite bool_decide_false; [by rewrite orb_false_r|].
      intros ->. by apply (remove_table_none _ _ Et i t Ht).
Qed.

Lemma calls_slot cs s s' i t f :
  calls_run cs s s' -> m_initialized s = true -> uniq (m_tasks s) ->
  m_tasks s !! i = Some t -> func t = Some f ->
  exists t', m_tasks s' !! i = Some t' /\ func t' = Some f /\
    updated t' = updated t || existsb (touches f) cs /\ (existsb (touches f) cs = false -> t' = t).
Proof.
  intros R. revert t. induction R as [s w|c cs s w r s1 s2 E R IH]; intros t Hi Hu Ht Hf; cbn.
  - exists t. by rewrite orb_false_r.
  - destruct (call_slot c _ r s1 i t f E Hi Hu Ht Hf) as (t1 & Ht1 & Hf1 & Hup1 & Heq1).
    pose proof (call_frame _ _ _ _ E) as (_ & Hi1 & _). cbn in Hi1.
    destruct (IH t1) as (t2 & Ht2 & Hf2 & Hup2 & Heq2); [congruence|by eapply uniq_call|done..|].
    exists t2. rewrite Hup2, Hup1, orb_assoc. split_and!; try done.
    intros [? ?]%orb_false_iff. by rewrite Heq2, Heq1.
Qed.

(** The end of [perform_task] on the slot of [f]. *)
Lemma settle_abs i next s s' t f σ :
  settle i next s s' -> uniq (m_tasks s) -> abs (m_tasks s) σ ->
  m_tasks s !! i = Some t -> func t = Some f ->
  uniq (m_tasks s') /\ same_frame s s' /\
  exists σ', abs (m_tasks s') σ' /\
    if updated t || removed t then σ' = σ
    else if next =? APP_SCHEDULER_STOP_TASK then σ' = delete f σ
    else exists x, ts_for (m_max_time_ms s) next x /\ σ' = <[f := x]> σ.
Proof.
  intros S Hu Ha Ht Hf. unfold settle in S. rewrite Ht in S. cbn [default from_option id] in S.
  rewrite <- negb_orb in S. destruct (updated t || removed t) eqn:Efl; cbn [negb] in S.
  { subst s'. split; [done|]. split; [done|]. by exists σ. }
  apply orb_false_iff in Efl as [_ Hr].
  assert (Halt : forall g, alter g i (m_tasks s) = <[i := g t]> (m_tasks s)).
  { intros g. apply list_eq. intros j. rewrite list_lookup_alter. case_decide; subst.
    - rewrite Ht, list_lookup_insert_eq; [done|]. by eapply lookup_lt_Some.
    - by rewrite list_lookup_insert_ne. }
  destruct (next =? APP_SCHEDULER_STOP_TASK).
  - subst s'. rewrite Halt. cbn. split; [by apply (uniq_insert _ i t)|].
    split; [done|]. exists (delete f σ). split; [|done].
    apply (abs_upd _ σ i t (set_func None t) f Ha Hu Ht); [by left|done].
  - destruct S as (x & w & Hx & ->). rewrite Halt. cbn.
    split; [apply (uniq_insert _ i t); auto|]. split; [done|]. exists (<[f := x]> σ). split; [|eauto].
    assert (Hv : view (set_next_ts x t) = Some (f, x)) by (unfold view; cbn; by rewrite Hf, Hr).
    pose proof (abs_upd _ σ i t (set_next_ts x t) f Ha Hu Ht) as H. rewrite Hv in H. apply H.
    + by left.
    + by intros g t' [= -> _].
Qed.

(** One run of the periodic work on the abstract map; [fs] are the callbacks
    it calls. *)
Inductive aselected (max : Z) (e : interference) (σ : sched) : list fid -> sched -> Prop :=
| aselected_idle cs σ' :
    cs ∈ idle_calls e -> acalls max σ cs σ' -> aselected max e σ [] σ'
| aselected_task f t σ1 σ2 σ3 σ' :
    σ !! f = Some t -> acalls max σ (irq_entry e) σ1 ->
    (forall t, σ1 !! f = Some t -> due t) ->
    acalls max σ1 (irq_delay e) σ2 -> is_Some (σ2 !! f) ->
    acalls max σ2 (irq_removed e ++ body e) σ3 ->
    (if existsb (touches f) (irq_entry e ++ irq_delay e ++ irq_removed e ++ body e)
     then σ' = σ3
     else if next e =? APP_SCHEDULER_STOP_TASK then σ' = delete f σ3
     else exists x, ts_for max (next e) x /\ σ' = <[f := x]> σ3) ->
    aselected max e σ [f] σ'.

Inductive astep (max : Z) (σ : sched) : event -> list fid -> sched -> Prop :=
| astep_call c r σ' : acall max σ c r σ' -> astep max σ (Call c) [] σ'
| astep_periodic e fs σ1 σ2 :
    aselected max e σ fs σ1 -> acalls max σ1 (irq_exit e) σ2 -> astep max σ (Periodic e) fs σ2.

Lemma view_slot l σ i t f :
  abs l σ -> uniq l -> l !! i = Some t -> func t = Some f ->
  σ !! f = if removed t then None else Some (next_ts t).
Proof.
  intros Ha Hu Ht Hf. destruct (removed t) eqn:Er.
  - destruct (σ !! f) as [x|] eqn:E; [|done]. apply Ha in E as (j & y & Hj & Hy).
    assert (j = i) as -> by (apply (Hu j i y t f); eauto using view_func).
    simplify_eq. unfold view in Hy. by rewrite Hf, Er in Hy.
  - apply Ha. exists i, t. unfold view. by rewrite Hf, Er.
Qed.

Lemma selected_abs e s s' σ :
  selected_run e s s' -> inv s -> m_initialized s = true -> abs (m_tasks s) σ ->
  uniq (m_tasks s') /\ m_max_time_ms s' = m_max_time_ms s /\ m_initialized s' = true /\
  exists fs σ', aselected (m_max_time_ms s) e σ fs σ' /\ abs (m_tasks s') σ' /\
    ran s' = fs ++ ran s.
Proof.
  intros R I Hi Ha. pose proof (inv_uniq s I) as Hu.
  destruct R as [cs s' Hcs R|i f s1 s2 s3 s4 s5 Hforce Hnext R1 Hdue R2 Hrem R3 Hfunc R4 S].
  - destruct (calls_abs cs s s' σ R Hi Hu Ha) as (σ' & A & Ha').
    pose proof (calls_run_frame _ _ _ R) as (? & ? & ? & Hran).
    split; [by eapply calls_run_uniq|]. split; [done|]. split; [congruence|].
    exists [], σ'. split; [by eapply aselected_idle|done].
  - destruct (inv_next s I i Hnext) as (t & Ht & Hact). destruct (Hact Hforce) as [[[g Hg] Hr] Hup].
    destruct (calls_slot _ _ _ i t g R1 Hi Hu Ht Hg) as (t1 & Ht1 & Hf1 & Hup1 & Heq1).
    pose proof (calls_run_frame _ _ _ R1) as (Hm1 & Hi1 & _ & Hran1).
    pose proof (calls_run_uniq _ _ _ R1 Hu) as Hu1.
    destruct (calls_slot _ _ _ i t1 g R2 ltac:(congruence) Hu1 Ht1 Hf1) as (t2 & Ht2 & Hf2 & Hup2 & _).
    pose proof (calls_run_frame _ _ _ R2) as (Hm2 & Hi2 & _ & Hran2).
    pose proof (calls_run_uniq _ _ _ R2 Hu1) as Hu2.
    pose proof (calls_run_frame _ _ _ R3) as (Hm3 & Hi3 & _ & Hran3).
    pose proof (calls_run_uniq _ _ _ R3 Hu2) as Hu3.
    destruct (calls_slot _ _ _ i t2 g R3 ltac:(congruence) Hu2 Ht2 Hf2)
      as (t3 & Ht3 & Hf3 & Hup3 & Heq3).
    rewrite Ht3 in Hfunc. cbn in Hfunc. assert (g = f) as -> by congruence.
    destruct (calls_slot _ _ _ i t3 f R4 ltac:(cbn; congruence) Hu3 Ht3 Hf3)
      as (t4 & Ht4 & Hf4 & Hup4 & Heq4).
    pose proof (calls_run_uniq _ _ _ R4 Hu3) as Hu4.
    pose proof (calls_run_frame _ _ _ R4) as (Hm4 & Hi4 & _ & Hran4). cbn in Hm4, Hi4, Hran4.
    destruct (calls_abs _ _ _ σ R1 Hi Hu Ha) as (σ1 & A1 & Ha1).
    destruct (calls_abs _ _ _ σ1 R2 ltac:(congruence) Hu1 Ha1) as (σ2 & A2 & Ha2).
    destruct (calls_abs _ _ _ σ2 R3 ltac:(congruence) Hu2 Ha2) as (σ3 & A3 & Ha3).
    destruct (calls_abs _ _ _ σ3 R4 ltac:(cbn; congruence) Hu3 Ha3) as (σ4 & A4 & Ha4).
    destruct (settle_abs i (next e) s4 s5 t4 f σ4 S Hu4 Ha4 Ht4 Hf4)
      as (Hu5 & (Hm5 & Hi5 & _ & Hran5) & σ5 & Ha5 & Hσ5).
    split; [done|]. split; [congruence|]. split; [congruence|].
    exists [f], σ5. split; [|split; [done|cbn; congruence]].
    rewrite Ht1 in Hdue. rewrite Ht2 in Hrem. cbn in Hdue, Hrem, A4.
    rewrite <- Hm4, <- Hm3, <- Hm2, <- Hm1 in *.
    apply (aselected_task _ e σ f (next_ts t) σ1 σ2 σ4); [|done| |done| | |].
    + by rewrite (view_slot _ σ i t f Ha Hu Ht Hg), Hr.
    + intros x. rewrite (view_slot _ σ1 i t1 f Ha1 Hu1 Ht1 Hf1). destruct (removed t1); [done|].
      by intros [= <-].
    + rewrite (view_slot _ σ2 i t2 f Ha2 Hu2 Ht2 Hf2), Hrem. eauto.
    + by eapply acalls_app.
    + replace (existsb _ _) with (updated t4 || removed t4); [done|].
      rewrite !existsb_app, Hup4, Hup3, Hup2, Hup1, Hup. cbn [orb].
      destruct (existsb (touches f) (irq_entry e)); [done|].
      destruct (existsb (touches f) (irq_delay e)) eqn:E2; [done|].
      destruct (existsb (touches f) (irq_removed e)) eqn:E3; [done|].
      destruct (existsb (touches f) (body e)) eqn:E4; [done|]. cbn.
      by rewrite Heq4, Heq3.
Qed.

Lemma purge_view t : view (purge t) = view t.
Proof. unfold purge. destruct (removed t) eqn:E; [|done]. unfold view. cbn. rewrite E. by destruct (func t). Qed.

Lemma purge_fmap_view (l : list task_t) : view <$> (purge <$> l) = view <$> l.
Proof. rewrite <- list_fmap_compose. apply list_fmap_ext. intros ? t _. apply purge_view. Qed.

Lemma alter_updated_view (i : nat) (l : list task_t) : view <$> alter (set_updated false) i l = view <$> l.
Proof.
  apply list_eq. intros j. rewrite !list_lookup_fmap, list_lookup_alter. case_decide; [subst|done].
  by destruct (l !! j).
Qed.

Definition same_max (s s' : state W) : Prop :=
  m_max_time_ms s' = m_max_time_ms s /\ m_initialized s' = m_initialized s /\ ran s' = ran s.

(** After [select_next] the invariant holds and the map is the same. *)
Lemma select_next_inv s :
  uniq (m_tasks s) -> inv (select_next s).2 /\
  view <$> m_tasks (select_next s).2 = view <$> m_tasks s /\ same_max s (select_next s).2.
Proof.
  intros Hu. destruct (select_next_spec s) as (p & w & q & -> & Hc & _). cbn [snd].
  split; [|split; [|done]].
  - assert (Hup : uniq (purge <$> m_tasks s)) by (apply uniq_fmap; [apply purge_func|done]).
    assert (Hpr : forall j t, (purge <$> m_tasks s) !! j = Some t -> is_Some (func t) -> removed t = false).
    { intros j t Hj [f Hf]. rewrite list_lookup_fmap in Hj.
      destruct (m_tasks s !! j) as [u|]; simplify_eq/=. unfold purge in *. by destruct (removed u) eqn:E. }
    destruct p as [i|]; constructor; cbn; try done.
    + apply uniq_alter; [done|done].
    + intros j [= <-]. destruct Hc as (t & Ht & Hf & Hr). exists (set_updated false t).
      rewrite list_lookup_alter, decide_True, Ht by done. by split.
    + intros j t _ Hj. rewrite list_lookup_alter in Hj. case_decide; [subst|by apply (Hpr j)].
      destruct ((purge <$> m_tasks s) !! j) as [u|] eqn:Eu; simplify_eq/=. by apply (Hpr j).
    + intros j t _ _ Hj. cbn in Hc. rewrite Forall_lookup in Hc. by apply (Hc j).
    + intros j t _. apply Hpr.
  - cbn. destruct p; [rewrite alter_updated_view|]; apply purge_fmap_view.
Qed.

Lemma handle_refines ev s σ :
  inv s -> m_initialized s = true -> abs (m_tasks s) σ ->
  let s' := (handle ev s).2 in
  inv s' /\ m_max_time_ms s' = m_max_time_ms s /\ m_initialized s' = true /\
  exists fs σ', astep (m_max_time_ms s) σ ev fs σ' /\ abs (m_tasks s') σ' /\ ran s' = fs ++ ran s.
Proof.
  intros I Hi Ha. destruct ev as [c|e]; cbn [handle].
  - rewrite bindE. cbn [snd mret st_ret]. destruct (do_call c s) as [r s1] eqn:E. cbn [snd].
    pose proof (call_frame _ _ _ _ E) as (Hm & Hi1 & _ & Hran).
    destruct (call_abs c s r s1 σ E Hi (inv_uniq s I) Ha) as (σ' & A & Ha').
    split; [by eapply inv_call|]. split; [done|]. split; [congruence|].
    exists [], σ'. split; [by econstructor|done].
  - unfold periodic_work. rewrite bindE. cbn [snd].
    destruct (selected_abs e s _ σ (run_selected_run e s) I Hi Ha)
      as (Hu1 & Hm1 & Hi1 & fs & σ1 & A1 & Ha1 & Hran1).
    set (s1 := (run_selected e s).2) in *. rewrite bindE. cbn [snd].
    pose proof (do_calls_run (irq_exit e) s1) as R. set (s2 := (do_calls (irq_exit e) s1).2) in *.
    pose proof (calls_run_frame _ _ _ R) as (Hm2 & Hi2 & _ & Hran2).
    destruct (calls_abs _ _ _ σ1 R Hi1 Hu1 Ha1) as (σ2 & A2 & Ha2).
    destruct (select_next_inv s2 (calls_run_uniq _ _ _ R Hu1)) as (I3 & Hv3 & Hm3 & Hi3 & Hran3).
    split; [done|]. split; [congruence|]. split; [congruence|]. exists fs, σ2.
    split; [econstructor; [done|by rewrite <- Hm1]|]. split; [|congruence].
    by apply (abs_ext (m_tasks s2)).
Qed.

(** The abstract runs; the callbacks called, latest first. *)
Inductive arun (max : Z) : sched -> list event -> list fid -> sched -> Prop :=
| arun_nil σ : arun max σ [] [] σ
| arun_cons σ ev fs σ1 evs gs σ2 :
    astep max σ ev fs σ1 -> arun max σ1 evs gs σ2 -> arun max σ (ev :: evs) (gs ++ fs) σ2.

Lemma init_state s :
  m_initialized s = false ->
  let s' := (App_Scheduler_init s).2 in
  inv s' /\ m_initialized s' = true /\ abs (m_tasks s') ∅ /\ ran s' = ran s /\
  m_max_time_ms s' = getMaxHpDelay lib_time / 1000.
Proof.
  intros Hi. unfold App_Scheduler_init. rewrite bindE. cbn [gets fst snd]. rewrite Hi. cbn.
  assert (H0 : forall j t, (set_func None <$> m_tasks s) !! j = Some t -> func t = None).
  { intros j t Hj. rewrite list_lookup_fmap in Hj. by destruct (m_tasks s !! j); simplify_eq/=. }
  split; [|split; [done|split; [|done]]].
  - constructor; cbn; try done.
    + intros i j x y f Hx _ Hf. by rewrite (H0 i x Hx) in Hf.
    + eauto.
    + intros j t _ Hj [f Hf]. by rewrite (H0 j t Hj) in Hf.
  - intros f t. rewrite lookup_empty. split; [done|]. intros (i & x & Hx & Hv).
    apply view_func in Hv. by rewrite (H0 i x Hx) in Hv.
Qed.

Lemma run_refines evs s σ :
  inv s -> m_initialized s = true -> abs (m_tasks s) σ ->
  let s' := (run evs s).2 in
  inv s' /\ exists fs σ', arun (m_max_time_ms s) σ evs fs σ' /\ abs (m_tasks s') σ' /\
    ran s' = fs ++ ran s.
Proof.
  revert s σ. induction evs as [|ev evs IH]; intros s σ I Hi Ha; cbn [run].
  - split; [done|]. exists [], σ. split; [apply arun_nil|done].
  - rewrite bindE. destruct (handle_refines ev s σ I Hi Ha)
      as (I1 & Hm1 & Hi1 & fs & σ1 & A & Ha1 & Hr1).
    destruct (IH _ σ1 I1 Hi1 Ha1) as (I2 & gs & σ2 & A2 & Ha2 & Hr2). split; [done|].
    exists (gs ++ fs), σ2. split; [|split; [done|]].
    + rewrite Hm1 in A2. by econstructor.
    + by rewrite Hr2, Hr1, app_assoc.
Qed.


(** ** Cancellation *)

Definition adds (f : fid) (c : call) : bool :=
  match c with Add cb _ _ => bool_decide (cb = Some f) | Cancel _ => false end.

(** No call of an event adds [f]. *)
Definition quiet (f : fid) (ev : event) : bool :=
  match ev with
  | Call c => negb (adds f c)
  | Periodic e => negb (existsb (adds f)
      (irq_entry e ++ irq_delay e ++ irq_removed e ++ body e ++ irq_exit e))
  end.

Lemma acalls_quiet max f σ cs σ' :
  acalls max σ cs σ' -> existsb (adds f) cs = false -> σ !! f = None -> σ' !! f = None.
Proof.
  induction 1 as [|σ c r σ1 cs σ2 A _ IH]; cbn; [done|]. intros [Hc Hcs]%orb_false_iff Hf.
  apply IH; [done|]. destruct A; cbn in Hc; try done.
  - rewrite lookup_insert_ne; [done|]. intros ->. by rewrite bool_decide_true in Hc.
  - rewrite lookup_delete. by case_decide.
Qed.

Lemma astep_quiet max f σ ev fs σ' :
  astep max σ ev fs σ' -> quiet f ev = true -> σ !! f = None -> f ∉ fs /\ σ' !! f = None.
Proof.
  intros A Hq Hf. destruct A as [c r σ' A|e fs σ1 σ2 A A2]; cbn in Hq.
  - split; [set_solver|]. apply (acalls_quiet max f σ [c] σ').
    + econstructor; [done|constructor].
    + cbn. rewrite orb_false_r. by apply negb_true_iff.
    + done.
  - apply negb_true_iff in Hq. rewrite !existsb_app in Hq.
    apply orb_false_iff in Hq as [H1 Hq]. apply orb_false_iff in Hq as [H2 Hq].
    apply orb_false_iff in Hq as [H3 Hq]. apply orb_false_iff in Hq as [H4 H5].
    assert (f ∉ fs /\ σ1 !! f = None) as [? ?].
    { destruct A as [cs σ' Hcs A|g t s1 s2 s3 s4 Hg A1 _ A3 _ A5 Hend].
      - split; [set_solver|]. apply (acalls_quiet _ f _ _ _ A); [|done].
        unfold idle_calls in Hcs. rewrite !elem_of_cons in Hcs.
        destruct Hcs as [-> |[-> |[-> |[-> |Hcs]]]]; [..|by apply elem_of_nil in Hcs];
          rewrite ?existsb_app, ?H1, ?H2, ?H3; done.
      - assert (Hne : f <> g) by congruence. split; [set_solver|].
        assert (s3 !! f = None).
        { apply (acalls_quiet _ f _ _ _ A5); [by rewrite existsb_app, H3, H4|].
          apply (acalls_quiet _ f _ _ _ A3); [done|]. by apply (acalls_quiet _ f _ _ _ A1). }
        destruct (existsb _ _); [by subst|]. destruct (_ =? _); [subst; by rewrite lookup_delete_ne|].
        destruct Hend as (x & _ & ->). by rewrite lookup_insert_ne. }
    split; [done|]. by apply (acalls_quiet _ f _ _ _ A2).
Qed.

(** once [App_Scheduler_cancelTask] returned [APP_SCHEDULER_RES_OK] outside
    a run of the periodic work, the callback is not called again until it is
    added again, whatever else the application and interrupts do. *)
Theorem cancelled_not_called s f r s1 evs :
  inv s -> App_Scheduler_cancelTask (Some f) s = (r, s1) -> r = APP_SCHEDULER_RES_OK ->
  forallb (quiet f) evs = true ->
  exists fs, ran (run evs s1).2 = fs ++ ran s /\ f ∉ fs.
Proof.
  intros I E -> Hq. change (do_call (Cancel (Some f)) s = (APP_SCHEDULER_RES_OK, s1)) in E.
  assert (Hi : m_initialized s = true).
  { apply cancelTask_cases in E as (_ & E). by destruct (m_initialized s); [|destruct E]. }
  destruct (abs_exists (m_tasks s) (inv_uniq s I)) as (σ & Ha).
  destruct (call_abs _ _ _ _ σ E Hi (inv_uniq s I) Ha) as (σ1 & A & Ha1).
  pose proof (call_frame _ _ _ _ E) as (_ & Hi1 & _ & Hr1).
  pose proof (inv_call _ _ _ _ E I) as I1.
  destruct (run_refines evs s1 σ1 I1 ltac:(congruence) Ha1) as (_ & fs & σ2 & A2 & _ & Hr2).
  exists fs. split; [by rewrite Hr2, Hr1|].
  assert (Hf : σ1 !! f = None) by (inversion A; subst; by rewrite ?lookup_delete_eq).
  clear -A2 Hf Hq. induction A2 as [|σ ev fs σ1 evs gs σ2 A _ IH]; [set_solver|].
  cbn in Hq. apply andb_true_iff in Hq as [Hq1 Hq2].
  destruct (astep_quiet _ f _ _ _ _ A Hq1 Hf) as [Hn Hf1].
  intros Hin. apply elem_of_app in Hin as [Hin|Hin]; [by apply IH|done].
Qed.

(** ** The chosen task runs *)

(** C22: a run of the periodic work that no interrupt disturbs calls the
    selected task when its time has come; when a reschedule is pending or the
    time has not come it calls nothing.  In both cases a task is selected
    afterwards as long as one is left, and the stack is asked to call again. *)
Theorem periodic_work_progress s e :
  inv s -> m_initialized s = true ->
  irq_entry e = [] -> irq_delay e = [] -> irq_removed e = [] -> body e = [] -> irq_exit e = [] ->
  let s' := (periodic_work e s).2 in
  (ran s' =
    match m_next_task_p s with
    | Some i =>
        let t := default task0 (m_tasks s !! i) in
        if negb (m_force_reschedule s) && ((get_delay_from_now_us (next_ts t) s).1 =? 0)
        then match func t with Some f => f :: ran s | None => ran s end
        else ran s
    | None => ran s
    end) /\
  (Exists active (m_tasks s') -> is_Some (m_next_task_p s') /\ is_Some (m_periodic s')) /\
  m_force_reschedule s' = false.
Proof.
  intros I Hi E1 E2 E3 E4 E5. unfold periodic_work. rewrite bindE. cbn [snd]. rewrite E5, bindE.
  cbn [do_calls mret st_ret snd].
  split; [|].
  - destruct (select_next_spec (run_selected e s).2) as (p & w & q & -> & _). cbn [snd ran].
    unfold run_selected. rewrite bindE. cbn [gets fst snd].
    destruct (m_force_reschedule s) eqn:Ef; cbn [negb andb]; [by destruct (m_next_task_p s)|].
    rewrite E1, bindE. cbn [do_calls mret st_ret snd]. rewrite bindE. cbn [gets fst snd].
    destruct (m_next_task_p s) as [i|] eqn:Ei; [|done].
    destruct (inv_next s I i Ei) as (t & Ht & Hact). destruct (Hact Ef) as [[[f Hf] Hr] Hu].
    rewrite bindE, get_taskE, Ht. cbn [default from_option id fst snd]. rewrite bindE.
    destruct (get_delay_reads (next_ts t) s) as (d & w' & ->). cbn [fst snd].
    destruct (d =? 0); [|done]. rewrite E2, bindE. cbn [do_calls mret st_ret snd].
    rewrite bindE, get_taskE. cbn [m_tasks with_world fst snd]. rewrite Ht. cbn [default from_option id].
    rewrite Hr, E3. cbn [negb]. rewrite bindE. cbn [do_calls mret st_ret snd].
    unfold perform_task. rewrite bindE, get_taskE. cbn [m_tasks with_world fst snd]. rewrite Ht.
    cbn [default from_option id]. rewrite Hf, bindE. cbn [modify fst snd].
    rewrite E4, bindE. cbn [do_calls mret st_ret snd]. rewrite bindE, get_taskE.
    cbn [m_tasks with_world with_ran fst snd]. rewrite Ht. cbn [default from_option id].
    rewrite Hu, Hr. cbn [negb andb]. destruct (_ =? _); [done|]. rewrite bindE.
    match goal with |- context [get_timestamp ?n ?s] =>
      destruct (get_timestamp_reads n s) as (x & w3 & ->) end.
    done.
  - destruct (select_next_spec (run_selected e s).2) as (p & w' & q & -> & Hc & Hq0 & Hq). cbn.
    split; [|done]. destruct p as [i|]; [intros _; split; [eauto|by apply Hq]|].
    intros Hex. apply Exists_exists in Hex as (t & Ht & [[f Hf] _]). cbn in Hc.
    rewrite Forall_forall in Hc. specialize (Hc t Ht). congruence.
Qed.

(** ** Timestamps *)

Lemma ms_split ms :
  is_u32 ms ->
  Z.land ms 0xfe000000 = ms / 2 ^ 25 * 2 ^ 25 /\ Z.land ms 0x01ffffff = ms mod 2 ^ 25 /\
  Z.shiftr ms 25 = ms / 2 ^ 25.
Proof.
  intros Hms. split; [|split; [apply (Z.land_ones ms 25); lia|by apply Z.shiftr_div_pow2]].
  rewrite <- Z.shiftl_mul_pow2, <- Z.shiftr_div_pow2 by lia.
  apply Z.bits_inj'. intros n Hn. change 0xfe000000 with (Z.shiftl (Z.ones 7) 25).
  rewrite Z.land_spec, !Z.shiftl_spec by lia. destruct (Z.ltb_spec n 25).
  - by rewrite !(Z.testbit_neg_r _ (n - 25)), andb_false_r by lia.
  - rewrite Z.shiftr_spec, Z.testbit_ones_nonneg by lia. replace (n - 25 + 25) with n by lia.
    destruct (Z.ltb_spec (n - 25) 7); [apply andb_true_r|].
    by rewrite (fits_testbit 32 ms n) by (done || lia).
Qed.

Lemma ms_low_range ms : 0 <= ms mod 2 ^ 25 < 2 ^ 25.
Proof. apply Z.mod_pos_bound. lia. Qed.

(** Division rounded up, as the source does it. *)
Lemma coarse_ceil low :
  0 <= low < 2 ^ 25 -> exists c,
  (forall x, (if negb (u32 (low * 128) mod 1000 =? 0) then u32 (u32 (x + u32 (low * 128) / 1000) + 1)
    else u32 (x + u32 (low * 128) / 1000)) = u32 (x + c)) /\ 0 <= c /\
  128 * low <= 1000 * c < 128 * low + 1000.
Proof.
  intros Hl. rewrite (uwrap_small 32 (low * 128)) by (unfold fits; lia).
  pose proof (Z.div_mod (low * 128) 1000 ltac:(lia)). pose proof (Z.mod_pos_bound (low * 128) 1000 ltac:(lia)).
  pose proof (Z.div_pos (low * 128) 1000 ltac:(lia) ltac:(lia)).
  destruct (Z.eqb_spec (low * 128 mod 1000) 0) as [E|E]; cbn [negb].
  - exists (low * 128 / 1000). split; [done|]. lia.
  - exists (low * 128 / 1000 + 1). split; [|lia]. intros x. rewrite uwrap_add_l. f_equal. lia.
Qed.

(** no arithmetic of [get_timestamp] overflows.  Delays below the limit
    use the high-precision clock.  From the limit on the coarse clock is used:
    the task is never due more than one unit (1/128 s) late; below 2^25 ms it
    is due at the first unit that is not early, above it is due less than 128
    units early. *)
Theorem get_timestamp_bounds ms s :
  is_u32 ms -> is_u32 (getMaxHpDelay lib_time) ->
  m_max_time_ms s = getMaxHpDelay lib_time / 1000 ->
  let t := (get_timestamp ms s).1 in
  if ms <? m_max_time_ms s then
    is_hp t = true /\
    ts t = addUsToHpTimestamp lib_time (getTimestampHp lib_time (world s)).1 (ms * 1000) /\
    ms * 1000 < getMaxHpDelay lib_time
  else exists d, is_hp t = false /\
    ts t = u32 ((getTimestampCoarse lib_time (world s)).1 + d) /\
    128 * ms - 128 * 1000 < 1000 * d < 128 * ms + 1000 /\ 0 <= d /\
    (ms < 2 ^ 25 -> 128 * ms <= 1000 * d).
Proof.
  intros Hms Hmax Hm. unfold is_u32, fits in *. unfold get_timestamp. rewrite bindE. cbn [gets fst snd].
  destruct (Z.ltb_spec ms (m_max_time_ms s)) as [Hlt|Hge].
  - rewrite bindE. cbn [mret st_ret fst is_hp ts]. unfold tick.
    destruct (getTimestampHp lib_time (world s)) as [now w]. cbn [fst snd].
    assert (ms * 1000 < getMaxHpDelay lib_time).
    { rewrite Hm in Hlt. pose proof (Z.mul_div_le (getMaxHpDelay lib_time) 1000). lia. }
    rewrite (uwrap_small 32) by (unfold fits; lia). done.
  - rewrite bindE. unfold tick. destruct (getTimestampCoarse lib_time (world s)) as [now w].
    cbn [fst snd].
    pose proof (ms_split ms Hms) as (Hhigh & Hlow & Hshift). pose proof (ms_low_range ms) as Hlr.
    assert (Hq : 0 <= ms / 2 ^ 25 < 2 ^ 7)
      by (split; [apply Z.div_pos; lia|apply Z.div_lt_upper_bound; lia]).
    pose proof (Z.div_mod ms (2 ^ 25) ltac:(lia)) as Hdm.
    destruct (coarse_ceil (ms mod 2 ^ 25) Hlr) as (c & Hc & Hc0 & Hc1).
    pose proof (Z.div_pos (ms / 2 ^ 25 * 2 ^ 25) 1000 ltac:(lia) ltac:(lia)) as Hh0.
    pose proof (Z.mul_div_le (ms / 2 ^ 25 * 2 ^ 25) 1000 ltac:(lia)) as Hh1.
    pose proof (Z.mul_succ_div_gt (ms / 2 ^ 25 * 2 ^ 25) 1000 ltac:(lia)) as Hh2.
    exists (ms / 2 ^ 25 * 2 ^ 25 / 1000 * 128 + c). rewrite Hhigh, Hlow, Hshift.
    destruct (Z.eqb_spec (ms / 2 ^ 25) 0) as [E0|E0]; cbn [negb].
    + replace (ms mod 2 ^ 25) with ms in * by lia. rewrite E0 in *. change (0 * 2 ^ 25 / 1000 * 128) with 0 in *.
      cbn [mret st_ret fst is_hp ts]. rewrite Hc. split; [done|]. split; [done|]. lia.
    + cbn [mret st_ret fst is_hp ts]. rewrite Hc, uwrap_add_l.
      split; [done|]. split.
      * rewrite <- Z.add_assoc, (Z.add_comm _ c), Z.add_assoc, uwrap_add_r. f_equal. lia.
      * lia.
Qed.

(** the delay to a coarse timestamp never overflows: it is 0 exactly when
    the timestamp is not in the future half of the clock's range, saturates
    from 549756 units on, and otherwise is the distance in microseconds rounded
    down by less than 1 ms.  549755 is the largest bound that is safe. *)
Theorem get_delay_coarse_bounds t s :
  is_hp t = false ->
  let delta := u32 (ts t - (getTimestampCoarse lib_time (world s)).1) in
  let d := (get_delay_from_now_us t s).1 in
  is_u32 d /\
  (d = 0 <-> delta = 0 \/ 2 ^ 31 <= delta) /\
  (549755 < delta < 2 ^ 31 -> d = 2 ^ 32 - 1) /\
  (0 < delta <= 549755 -> d * 128 <= delta * 1000000 < (d + 1000) * 128) /\
  2 ^ 32 <= 549756 * 1000 / 128 * 1000.
Proof.
  intros Ht. unfold get_delay_from_now_us. rewrite Ht, bindE. unfold tick.
  destruct (getTimestampCoarse lib_time (world s)) as [now w]. cbn [fst snd].
  rewrite Util.isLtUint32_spec. pose proof (u32_range (ts t - now)) as Hr.
  generalize dependent (u32 (ts t - now)). intros delta Hr.
  destruct (Z.leb_spec (2 ^ 31) delta) as [Hpast|Hfut]; cbn [fst mret st_ret].
  { unfold fits. split_and!; try lia. by vm_compute. }
  destruct (Z.ltb_spec 549755 delta) as [Hbig|Hsmall]; cbn [fst mret st_ret].
  { change (u32 (-1)) with (2 ^ 32 - 1). unfold fits. split_and!; try lia. by vm_compute. }
  rewrite (uwrap_small 32 (delta * 1000)) by (unfold fits; lia).
  pose proof (Z.div_mod (delta * 1000) 128 ltac:(lia)) as H1.
  pose proof (Z.mod_pos_bound (delta * 1000) 128 ltac:(lia)) as H2.
  pose proof (Z.div_pos (delta * 1000) 128 ltac:(lia) ltac:(lia)) as H3.
  rewrite uwrap_small by (unfold fits; lia). unfold fits. split_and!; try lia. by vm_compute.
Qed.

(** ** The choice is the earliest task *)

(** [key] orders the timestamps of the table the way the scheduler compares
    them at any time. *)
Definition keyed (key : timestamp_t -> Z) (l : list task_t) : Prop :=
  forall x y s, x ∈ l -> y ∈ l ->
    (is_timestamp_before (next_ts x) (next_ts y) s).1 = (key (next_ts x) <? key (next_ts y)).

(** No active slot among [l] is before the slot [p]. *)
Definition earliest (key : timestamp_t -> Z) (l : list task_t) (p : option nat) : Prop :=
  forall i t x, p = Some i -> l !! i = Some t -> x ∈ l -> active x ->
    key (next_ts t) <= key (next_ts x).

Lemma purge_next_ts t : next_ts (purge t) = next_ts t.
Proof. unfold purge. by destruct (removed t). Qed.

Lemma get_next_loop_earliest key suf pre p s :
  m_tasks s = pre ++ suf -> keyed key (pre ++ suf) -> chosen pre p -> earliest key pre p ->
  earliest key (pre ++ (purge <$> suf)) (get_next_loop (seq (length pre) (length suf)) p s).1.
Proof.
  revert pre p s. induction suf as [|t suf IH]; intros pre p s E Hk Hp He.
  - cbn. by rewrite app_nil_r.
  - cbn [length seq get_next_loop]. rewrite bindE, (get_task_middle s pre t suf E).
    cbn [fst snd]. rewrite fmap_cons, (snoc_middle pre (purge t)), (seq_snoc_S pre (purge t)).
    assert (Hk' : keyed key ((pre ++ [purge t]) ++ suf)).
    { intros x y s0 Hx Hy.
      assert (Hin : forall z, z ∈ (pre ++ [purge t]) ++ suf ->
        exists z', z' ∈ pre ++ t :: suf /\ next_ts z' = next_ts z).
      { intros z Hz. rewrite <- app_assoc in Hz. apply elem_of_app in Hz as [Hz|Hz].
        - exists z. set_solver.
        - apply elem_of_cons in Hz as [->|Hz]; [|exists z; set_solver].
          exists t. rewrite purge_next_ts. set_solver. }
      destruct (Hin x Hx) as (x' & Hx' & <-). destruct (Hin y Hy) as (y' & Hy' & <-).
      by apply Hk. }
    assert (Hskip : ~ active (purge t) -> earliest key (pre ++ [purge t]) p).
    { intros Hna i u x -> Hi Hx Hax. destruct Hp as (v & Hv & _).
      rewrite lookup_app_l in Hi by by eapply lookup_lt_Some.
      apply elem_of_app in Hx as [Hx|Hx]; [by apply (He i u x)|].
      apply list_elem_of_singleton in Hx as ->. done. }
    destruct (func t) as [f|] eqn:Ef.
    + destruct (removed t) eqn:Er.
      * rewrite bindE. unfold set_task at 1, modify. cbn [fst snd].
        assert (Hpt : func (purge t) = None) by (unfold purge; by rewrite Er).
        apply IH; [|done|by apply chosen_snoc|].
        -- cbn. rewrite E, alter_middle, <- !app_assoc. cbn. unfold purge. by rewrite Er.
        -- apply Hskip. intros [[? ?] _]. congruence.
      * assert (Ha : active t) by (split; [by rewrite Ef|done]).
        rewrite (purge_active t f Ef Er) in *. rewrite (snoc_middle pre t) in E.
        destruct p as [j|].
        -- rewrite bindE, get_taskE. cbn [fst snd]. rewrite bindE.
           destruct Hp as (v & Hv & Hav).
           assert (Hj : m_tasks s !! j = Some v)
             by (rewrite E, <- app_assoc, lookup_app_l; [done|by eapply lookup_lt_Some]).
           rewrite Hj. cbn [default from_option id].
           assert (Hvin : v ∈ pre) by by eapply list_elem_of_lookup_2.
           pose proof (Hk t v s ltac:(set_solver) ltac:(set_solver)) as Hb.
           destruct (before_reads (next_ts t) (next_ts v) s) as (b & w & Eb). rewrite Eb in Hb |- *.
           cbn [fst snd] in Hb |- *. subst b.
           destruct (Z.ltb_spec (key (next_ts t)) (key (next_ts v))) as [Hlt|Hge].
           ++ apply IH; [done..|by apply chosen_last|]. intros i u x [= <-] Hi Hx Hax.
              rewrite list_lookup_middle in Hi by done. injection Hi as <-.
              apply elem_of_app in Hx as [Hx|Hx]; [|apply list_elem_of_singleton in Hx as ->; lia].
              pose proof (He j v x eq_refl Hv Hx Hax). lia.
           ++ apply IH; [done..| |].
              { apply chosen_snoc; [by exists v|done]. }
              intros i u x [= <-] Hi Hx Hax. rewrite lookup_app_l in Hi by by eapply lookup_lt_Some.
              replace u with v by congruence.
              apply elem_of_app in Hx as [Hx|Hx]; [by apply (He j v x)|].
              apply list_elem_of_singleton in Hx as ->. done.
        -- apply IH; [done..|by apply chosen_last|]. intros i u x [= <-] Hi Hx [[g Hg] _].
           rewrite list_lookup_middle in Hi by done. injection Hi as <-.
           apply elem_of_app in Hx as [Hx|Hx]; [|apply list_elem_of_singleton in Hx as ->; lia].
           cbn in Hp. rewrite Forall_forall in Hp. specialize (Hp x Hx). congruence.
    + rewrite (purge_free t Ef) in *. rewrite (snoc_middle pre t) in E.
      apply IH; [done..|by apply chosen_snoc|]. apply Hskip. intros [[? ?] _]. congruence.
Qed.

(** the slot [get_next_task_locked] selects is active and no active slot
    is before it, whenever the comparisons of the source agree with an order
    of the timestamps in the table; no slot is selected only if none is
    active. *)
Theorem get_next_task_earliest key s :
  keyed key (m_tasks s) ->
  let '(p, s') := get_next_task_locked s in
  chosen (m_tasks s') p /\ earliest key (m_tasks s') p /\ m_tasks s' = purge <$> m_tasks s.
Proof.
  intros Hk. destruct (get_next_task_locked_spec s) as (p & w & E & Hc).
  assert (He : earliest key (purge <$> m_tasks s) (get_next_task_locked s).1).
  { unfold get_next_task_locked. rewrite bindE. unfold slots, gets. cbn [fst snd].
    apply (get_next_loop_earliest key (m_tasks s) [] None s); [done|done|by apply Forall_nil_2|done]. }
  rewrite E in He |- *. done.
Qed.

End Scheduler.

(** A table of coarse timestamps less than 2^31 units after [base] is ordered. *)
Lemma keyed_coarse {W} (lib : time_lib W) base l :
  Forall (fun t => is_hp (next_ts t) = false /\ is_u32 (ts (next_ts t)) /\
    u32 (ts (next_ts t) - base) < 2 ^ 31) l ->
  keyed lib (fun t => u32 (ts t - base)) l.
Proof.
  intros Hl x y s Hx Hy. rewrite Forall_forall in Hl.
  destruct (Hl x Hx) as (Hx1 & Hx2 & Hx3), (Hl y Hy) as (Hy1 & Hy2 & Hy3).
  unfold is_timestamp_before. rewrite Hx1, Hy1. cbn [andb negb mret st_ret fst].
  rewrite <- (Util.isLtUint32_window base) by (split; [apply u32_range|done]).
  rewrite !uwrap_add_r. replace (base + (ts (next_ts x) - base)) with (ts (next_ts x)) by lia.
  replace (base + (ts (next_ts y) - base)) with (ts (next_ts y)) by lia.
  by rewrite !uwrap_small.
Qed.

(** ** Concrete runs *)

(** A clock in microseconds that moves on by 10 us with each reading. *)
Definition lib0 : time_lib Z :=
  {| getTimestampHp w := (u32 w, w + 10);
     getTimestampCoarse w := (u32 (w * 128 / 1000000), w + 10);
     addUsToHpTimestamp t d := u32 (t + d);
     isHpTimestampBefore := Util.isLtUint32;
     getTimeDiffUs a b := u32 (b - a);
     getMaxHpDelay := 1800000000 |}.

(** The statics at reset, with room for two tasks. *)
Definition boot : state Z := Build_state 0 false [task0; task0] None false None [] 0.

Definition calm (n : Z) : interference :=
  {| irq_entry := []; irq_delay := []; irq_removed := []; body := []; next := n; irq_exit := [] |}.

(** Two tasks; the first runs, asks for 50 ms and is cancelled by an interrupt;
    the second stops. *)
Definition evs0 : list event :=
  [Call (Add (Some 1%positive) 0 100); Call (Add (Some 2%positive) 0 100); Periodic (calm 0);
   Periodic {| irq_entry := []; irq_delay := []; irq_removed := []; body := []; next := 50;
               irq_exit := [Cancel (Some 1%positive)] |};
   Periodic (calm 0); Periodic (calm APP_SCHEDULER_STOP_TASK)].


(** The state after both tasks were added and one was selected. *)
Definition busy : state Z :=
  ((_ ← App_Scheduler_init lib0; run lib0 (take 3 evs0)) boot).2.

Lemma busy_inv : inv busy.
Proof.
  unfold busy. rewrite bindE. cbn [snd]. destruct (init_state lib0 boot eq_refl) as (I & Hi & Ha & _).
  by apply (run_refines lib0 (take 3 evs0) _ ∅ I Hi Ha).
Qed.

Lemma cancelled_not_called_witness :
  exists s1, App_Scheduler_cancelTask (Some 1%positive) busy = (APP_SCHEDULER_RES_OK, s1) /\
  exists fs, ran (run lib0 [Periodic (calm 0); Periodic (calm 0)] s1).2 = fs ++ ran busy /\
    1%positive ∉ fs.
Proof.
  eexists. split; [reflexivity|].
  exact (cancelled_not_called lib0 busy 1%positive APP_SCHEDULER_RES_OK _
    [Periodic (calm 0); Periodic (calm 0)] busy_inv eq_refl eq_refl eq_refl).
Defined.

Lemma periodic_work_progress_witness :
  ran (periodic_work lib0 (calm 50) busy).2 = [1%positive] /\
  is_Some (m_next_task_p (periodic_work lib0 (calm 50) busy).2).
Proof.
  destruct (periodic_work_progress lib0 busy (calm 50) busy_inv eq_refl eq_refl eq_refl eq_refl
    eq_refl eq_refl) as (H1 & H2 & _).
  split; [by rewrite H1; vm_compute|]. apply H2. apply Exists_cons_hd. split; [by eexists|by vm_compute].
Defined.

Lemma get_timestamp_bounds_witness :
  (get_timestamp lib0 3600000 busy).1 = {| ts := 460800; is_hp := false |} /\
  exists d, 128 * 3600000 <= 1000 * d /\ 1000 * d < 128 * 3600000 + 1000.
Proof.
  split; [by vm_compute|].
  destruct (get_timestamp_bounds lib0 3600000 busy) as (d & _ & _ & H1 & _ & H2);
    [by split|by split|by vm_compute|].
  exists d. split; [by apply H2|by apply H1].
Defined.

Lemma get_delay_coarse_bounds_witness :
  (get_delay_from_now_us lib0 {| ts := 460800; is_hp := false |} busy).1 = 3600000000 /\
  is_u32 (get_delay_from_now_us lib0 {| ts := 460800; is_hp := false |} busy).1.
Proof.
  split; [by vm_compute|].
  exact (proj1 (get_delay_coarse_bounds lib0 {| ts := 460800; is_hp := false |} busy eq_refl)).
Defined.

(** Three tasks of which the second is the earliest and the third cancelled. *)
Definition three : state Z :=
  Build_state 0 true
    ((fun p => {| func := Some p.1; next_ts := {| ts := p.2.1; is_hp := false |}; exec_time_us := 10;
                  updated := false; removed := p.2.2 |})
     <$> [(1%positive, (5, false)); (2%positive, (2 ^ 32 - 3, false)); (3%positive, (2 ^ 32 - 9, true))])
    None false None [] 0.

Lemma get_next_task_earliest_witness :
  (get_next_task_locked lib0 three).1 = Some 1%nat /\
  earliest (fun t => u32 (ts t - (2 ^ 32 - 100))) (m_tasks (get_next_task_locked lib0 three).2) (Some 1%nat).
Proof.
  split; [by vm_compute|].
  assert (Hk : keyed lib0 (fun t => u32 (ts t - (2 ^ 32 - 100))) (m_tasks three)).
  { apply keyed_coarse. repeat constructor; by vm_compute. }
  destruct (get_next_task_earliest lib0 _ three Hk) as (_ & He & _). exact He.
Defined.

(** A cancellation by an interrupt between the test of [removed] and the call
    reports success although the callback is called afterwards. *)
Lemma cancel_race :
  let e := {| irq_entry := []; irq_delay := []; irq_removed := [Cancel (Some 1%positive)];
              body := []; next := 0; irq_exit := [] |} in
  (App_Scheduler_cancelTask (Some 1%positive) busy).1 = APP_SCHEDULER_RES_OK /\
  ran (periodic_work lib0 e busy).2 = [1%positive].
Proof. split; by vm_compute. Qed.

(** Re-adding a task keeps the execution time it was first added with. *)
Lemma readd_keeps_exec_time :
  let s := (App_Scheduler_addTask_execTime lib0 (Some 1%positive) 0 5000 busy).2 in
  (exec_time_us <$> m_tasks s !! 0%nat) = Some 100.
Proof. by vm_compute. Qed.

(** From 2^25 ms on a task may be due before its delay is over. *)
Lemma long_delay_is_early :
  let t := (get_timestamp lib0 (2 ^ 25) (busy)).1 in
  ts t * 1000 < 2 ^ 25 * 128.
Proof. by vm_compute. Qed.
