(* ===== verification/WapsUart.v ===== *)
(** * The WAPS serial line

    Models [libraries/dualmcu/waps/comm/uart]: [Module Uart] is
    [waps_uart.c], SLIP framing with a CRC in both directions; [Module Power]
    is [waps_uart_power.c], the receiver's automatic power switch.

    The calls to other modules and drivers are actions appended to a log (the
    frame callback, the scheduler, the USART).  Reading the serial port is not
    modelled: [waps_uart_receive] is called with the bytes it delivers, in
    chunks of any size. *)

From S2P Require Import Prelude Crc.

Module Uart.

Definition SLIP_END : Z := 0xC0.
Definition SLIP_ESC : Z := 0xDB.
Definition SLIP_ESC_END : Z := 0xDC.
Definition SLIP_ESC_ESC : Z := 0xDD.

(** Sizes of the packed frame structures: a header of three bytes and the
    largest payload, a fragmented reception indication. *)
Definition WAPS_MIN_FRAME_LENGTH : nat := 3.
Definition WAPS_MAX_FRAME_PAYLOAD : nat := 21 + 102.
Definition WAPS_MAX_FRAME_LENGTH : nat := WAPS_MIN_FRAME_LENGTH + WAPS_MAX_FRAME_PAYLOAD.
Definition WAPS_TX_BUFFER_SIZE : nat := 2 * WAPS_MAX_FRAME_LENGTH + 2 * 2 + 2.
Definition WAPS_RX_BUFFER_SIZE : nat := WAPS_MAX_FRAME_LENGTH + 2 + 2.

(** What the module asks others to do, oldest first. *)
Inductive action :=
| KeepPowerOn
| PowerOff
| FrameCb (frame : list Z)
| SendBuffer (bytes : list Z).

Record state := {
  m_tx_buffer_idx : nat;
  m_tx_buffer : list Z;
  m_rx_buffer_idx : nat;
  m_rx_buffer : list Z;
  m_rx_crc : Z;
  m_escaped : bool;
  log : list action }.

Definition with_tx (idx : nat) (buf : list Z) (s : state) : state :=
  {| m_tx_buffer_idx := idx; m_tx_buffer := buf; m_rx_buffer_idx := m_rx_buffer_idx s;
     m_rx_buffer := m_rx_buffer s; m_rx_crc := m_rx_crc s; m_escaped := m_escaped s; log := log s |}.
Definition with_rx (idx : nat) (buf : list Z) (crc : Z) (s : state) : state :=
  {| m_tx_buffer_idx := m_tx_buffer_idx s; m_tx_buffer := m_tx_buffer s; m_rx_buffer_idx := idx;
     m_rx_buffer := buf; m_rx_crc := crc; m_escaped := m_escaped s; log := log s |}.
Definition with_escaped (b : bool) (s : state) : state :=
  {| m_tx_buffer_idx := m_tx_buffer_idx s; m_tx_buffer := m_tx_buffer s;
     m_rx_buffer_idx := m_rx_buffer_idx s; m_rx_buffer := m_rx_buffer s; m_rx_crc := m_rx_crc s;
     m_escaped := b; log := log s |}.
Definition act (a : action) (s : state) : state :=
  {| m_tx_buffer_idx := m_tx_buffer_idx s; m_tx_buffer := m_tx_buffer s;
     m_rx_buffer_idx := m_rx_buffer_idx s; m_rx_buffer := m_rx_buffer s; m_rx_crc := m_rx_crc s;
     m_escaped := m_escaped s; log := log s ++ [a] |}.

(** ** Sending *)

Definition write_tx_buffer (ch : Z) (s : state) : state :=
  if (m_tx_buffer_idx s <? WAPS_TX_BUFFER_SIZE)%nat
  then with_tx (S (m_tx_buffer_idx s)) (<[m_tx_buffer_idx s := ch]> (m_tx_buffer s)) s
  else s.

Definition slip_put (ch : Z) (s : state) : state :=
  if ch =? SLIP_ESC then write_tx_buffer SLIP_ESC_ESC (write_tx_buffer SLIP_ESC s)
  else if ch =? SLIP_END then write_tx_buffer SLIP_ESC_END (write_tx_buffer SLIP_ESC s)
  else write_tx_buffer ch s.

(** [usart_send] is what [Usart_sendBuffer] returns for the bytes. *)
Definition Waps_uart_send (usart_send : list Z -> Z) (buffer : list Z) (s : state) : bool * state :=
  let size_in := length buffer in
  let crc := Lut.Crc_fromBuffer buffer in
  let s := with_tx 0 (m_tx_buffer s) s in
  let s := write_tx_buffer SLIP_END s in
  let s := foldl (fun s ch => slip_put ch s) s buffer in
  let s := slip_put (u8 crc) s in
  let s := slip_put (Z.shiftr crc 8) s in
  let s := write_tx_buffer SLIP_END s in
  if (m_tx_buffer_idx s <? size_in)%nat then (false, s)
  else
    let out := take (m_tx_buffer_idx s) (m_tx_buffer s) in
    (usart_send out =? Z.of_nat (m_tx_buffer_idx s), act (SendBuffer out) s).

(** ** Receiving *)

Definition reset_rx_buffer (s : state) : state := with_rx 0 (m_rx_buffer s) Lut.Crc_initValue s.

Definition Waps_uart_clean : state -> state := reset_rx_buffer.

Definition write_rx_buffer (ch : Z) (s : state) : state :=
  if (m_rx_buffer_idx s <? WAPS_RX_BUFFER_SIZE)%nat
  then with_rx (S (m_rx_buffer_idx s)) (<[m_rx_buffer_idx s := ch]> (m_rx_buffer s))
         (Lut.Crc_addByte (m_rx_crc s) ch) s
  else s.

(** The byte [i] of the receive buffer, which is as long as its declaration. *)
Definition rx_byte (s : state) (i : nat) : Z := default 0 (m_rx_buffer s !! i).

Definition frame_completed (s : state) : state :=
  let s :=
    if (2 <=? m_rx_buffer_idx s)%nat then
      let pld_size := (m_rx_buffer_idx s - 2)%nat in
      if (WAPS_MIN_FRAME_LENGTH <=? pld_size)%nat && (pld_size <=? WAPS_MAX_FRAME_LENGTH)%nat then
        let crc_1 := m_rx_crc s in
        let lsb := rx_byte s pld_size in
        let msb := rx_byte s (S pld_size) in
        let crc_2 := Z.lor lsb (Z.shiftl msb 8) in
        let crc_2 := Lut.Crc_addByte crc_2 lsb in
        let crc_2 := Lut.Crc_addByte crc_2 msb in
        if crc_1 =? crc_2
        then act (FrameCb (take pld_size (m_rx_buffer s))) (act PowerOff s)
        else s
      else s
    else s in
  reset_rx_buffer s.

Definition receive_char (s : state) (ch : Z) : state :=
  if m_escaped s then
    let s :=
      if ch =? SLIP_ESC_END then write_rx_buffer SLIP_END s
      else if ch =? SLIP_ESC_ESC then write_rx_buffer SLIP_ESC s
      else reset_rx_buffer s in
    with_escaped false s
  else if ch =? SLIP_END then
    if (m_rx_buffer_idx s =? 0)%nat then s else frame_completed s
  else if ch =? SLIP_ESC then with_escaped true s
  else write_rx_buffer ch s.

Definition waps_uart_receive (chars : list Z) (s : state) : state :=
  let s := act KeepPowerOn s in
  if (length chars =? 0)%nat || (WAPS_RX_BUFFER_SIZE * 2 <=? length chars)%nat then s
  else foldl receive_char s chars.

(** [usart_init] is what [Usart_init] returns; the power settings the function
    ends with are those of [Module Power]. *)
Definition Waps_uart_init (usart_init : bool) (tx_buffer rx_buffer : list Z) (s : state)
    : bool * state :=
  let s := with_escaped false s in
  let s := with_rx (m_rx_buffer_idx s) rx_buffer (m_rx_crc s) s in
  let s := with_tx 0 tx_buffer s in
  (usart_init, reset_rx_buffer s).

(** ** The bytes on the line *)

Definition slip_byte (ch : Z) : list Z :=
  if ch =? SLIP_ESC then [SLIP_ESC; SLIP_ESC_ESC]
  else if ch =? SLIP_END then [SLIP_ESC; SLIP_ESC_END]
  else [ch].

Definition slip (l : list Z) : list Z := flat_map slip_byte l.

Definition with_crc (buf : list Z) : list Z :=
  let crc := Lut.Crc_fromBuffer buf in buf ++ [u8 crc; Z.shiftr crc 8].

Definition wire (buf : list Z) : list Z := SLIP_END :: slip (with_crc buf) ++ [SLIP_END].

Lemma slip_cons ch l : slip (ch :: l) = slip_byte ch ++ slip l.
Proof. done. Qed.

Lemma length_slip l : (length (slip l) <= 2 * length l)%nat.
Proof.
  induction l as [|ch l IH]; [done|]. rewrite slip_cons, length_app. cbn [length].
  assert (length (slip_byte ch) <= 2)%nat by (unfold slip_byte; repeat case_match; cbn; lia).
  lia.
Qed.

Lemma length_slip_ge l : (length l <= length (slip l))%nat.
Proof.
  induction l as [|ch l IH]; [done|]. rewrite slip_cons, length_app. cbn [length].
  assert (1 <= length (slip_byte ch))%nat by (unfold slip_byte; repeat case_match; cbn; lia).
  lia.
Qed.

Lemma length_frame_wire buf :
  (length buf <= WAPS_MAX_FRAME_LENGTH)%nat -> (length (wire buf) <= WAPS_TX_BUFFER_SIZE)%nat.
Proof.
  intros H. unfold wire. cbn [length]. rewrite length_app. pose proof (length_slip (with_crc buf)) as Hs.
  unfold with_crc in *. rewrite length_app in Hs. cbn [length] in *.
  unfold WAPS_TX_BUFFER_SIZE, WAPS_MAX_FRAME_LENGTH in *. lia.
Qed.

(** [s] differs from [s0] in the transmit buffer, which holds [out]. *)
Definition tx_holds (s0 : state) (out : list Z) (s : state) : Prop :=
  length (m_tx_buffer s) = WAPS_TX_BUFFER_SIZE /\ m_tx_buffer_idx s = length out /\
  take (length out) (m_tx_buffer s) = out /\
  s = with_tx (m_tx_buffer_idx s) (m_tx_buffer s) s0.

Lemma write_tx_holds s0 out s ch :
  tx_holds s0 out s -> (length out < WAPS_TX_BUFFER_SIZE)%nat ->
  tx_holds s0 (out ++ [ch]) (write_tx_buffer ch s).
Proof.
  intros (Hl & Hi & Ht & Hs) Hlt. unfold write_tx_buffer. rewrite Hi.
  destruct (Nat.ltb_spec (length out) WAPS_TX_BUFFER_SIZE); [|lia].
  split_and!; cbn [m_tx_buffer m_tx_buffer_idx with_tx].
  - by rewrite length_insert.
  - rewrite length_app. cbn. lia.
  - rewrite length_app. cbn [length]. rewrite Nat.add_1_r.
    rewrite (take_S_r _ _ ch) by (apply list_lookup_insert_eq; lia).
    by rewrite take_insert_ge, Ht by lia.
  - by rewrite Hs.
Qed.

Lemma slip_put_holds s0 out s ch :
  tx_holds s0 out s -> (length out + length (slip_byte ch) <= WAPS_TX_BUFFER_SIZE)%nat ->
  tx_holds s0 (out ++ slip_byte ch) (slip_put ch s).
Proof.
  intros H Hl. unfold slip_put, slip_byte in *.
  assert (H2 : forall a b, (length out + 2 <= WAPS_TX_BUFFER_SIZE)%nat ->
    tx_holds s0 (out ++ [a; b]) (write_tx_buffer b (write_tx_buffer a s))).
  { intros a b ?. replace (out ++ [a; b]) with ((out ++ [a]) ++ [b]) by by rewrite <- app_assoc.
    apply write_tx_holds; [apply write_tx_holds; [done|lia]|]. rewrite length_app. cbn [length]. lia. }
  destruct (ch =? SLIP_ESC); [by apply H2|]. destruct (ch =? SLIP_END); [by apply H2|].
  apply write_tx_holds; [done|]. cbn [length] in Hl. lia.
Qed.

Lemma slip_fold_holds s0 l out s :
  tx_holds s0 out s -> (length out + length (slip l) <= WAPS_TX_BUFFER_SIZE)%nat ->
  tx_holds s0 (out ++ slip l) (foldl (fun s ch => slip_put ch s) s l).
Proof.
  revert out s. induction l as [|ch l IH]; intros out s H Hl.
  - by rewrite app_nil_r.
  - rewrite slip_cons in *. rewrite length_app in Hl. rewrite app_assoc. apply IH.
    + apply slip_put_holds; [done|lia].
    + rewrite length_app. lia.
Qed.

Lemma slip_app l1 l2 : slip (l1 ++ l2) = slip l1 ++ slip l2.
Proof. apply flat_map_app. Qed.

(** What [Waps_uart_send] hands to the USART. *)
Lemma send_out usart_send buf s :
  (length buf <= WAPS_MAX_FRAME_LENGTH)%nat -> length (m_tx_buffer s) = WAPS_TX_BUFFER_SIZE ->
  exists idx tx, Waps_uart_send usart_send buf s =
    (usart_send (wire buf) =? Z.of_nat (length (wire buf)),
     act (SendBuffer (wire buf)) (with_tx idx tx s)).
Proof.
  intros Hl Htx. pose proof (length_frame_wire buf Hl) as Hw. unfold Waps_uart_send.
  set (s1 := write_tx_buffer SLIP_END (with_tx 0 (m_tx_buffer s) s)).
  assert (H1 : tx_holds s [SLIP_END] s1).
  { apply (write_tx_holds s []); [|unfold WAPS_TX_BUFFER_SIZE, WAPS_MAX_FRAME_LENGTH; cbn; lia].
    by split_and!. }
  unfold wire, with_crc in *. rewrite slip_app, !slip_cons, app_nil_r in *.
  cbn [length] in Hw. rewrite !length_app in Hw. cbn [length] in Hw.
  set (crc := Lut.Crc_fromBuffer buf) in *.
  assert (H5 : tx_holds s (SLIP_END :: (slip buf ++ slip_byte (u8 crc) ++ slip_byte (Z.shiftr crc 8)) ++ [SLIP_END])
    (write_tx_buffer SLIP_END (slip_put (Z.shiftr crc 8) (slip_put (u8 crc)
      (foldl (fun s ch => slip_put ch s) s1 buf))))).
  { rewrite !app_comm_cons. apply write_tx_holds; [|cbn [length]; rewrite ?length_app; cbn [length]; rewrite ?length_app; cbn [length]; lia].
    rewrite !app_assoc. apply slip_put_holds; [|cbn [length]; rewrite ?length_app; cbn [length]; rewrite ?length_app; cbn [length]; lia].
    apply slip_put_holds; [|cbn [length]; rewrite ?length_app; cbn [length]; rewrite ?length_app; cbn [length]; lia].
    apply (slip_fold_holds s buf [SLIP_END]); [done|cbn [length]; lia]. }
  destruct H5 as (_ & Hi & Ht & Hs). set (s5 := write_tx_buffer _ (slip_put _ _)) in *.
  rewrite Hi, Ht. destruct (Nat.ltb_spec (length (SLIP_END :: (slip buf ++ slip_byte (u8 crc)
    ++ slip_byte (Z.shiftr crc 8)) ++ [SLIP_END])) (length buf)) as [Hshort|_].
  - exfalso. cbn [length] in Hshort. rewrite !length_app in Hshort. pose proof (length_slip_ge buf). lia.
  - revert Hs. generalize (m_tx_buffer s5). generalize (m_tx_buffer_idx s5). intros idx tx ->.
    by exists idx, tx.
Qed.

Lemma send_log usart_send buf s :
  (length buf <= WAPS_MAX_FRAME_LENGTH)%nat -> length (m_tx_buffer s) = WAPS_TX_BUFFER_SIZE ->
  log (Waps_uart_send usart_send buf s).2 = log s ++ [SendBuffer (wire buf)].
Proof. intros Hl Ht. by destruct (send_out usart_send buf s Hl Ht) as (idx & tx & ->). Qed.

(** Whatever is sent, only the transmit buffer changes and at most one buffer
    goes to the USART. *)
Definition tx_only (s s' : state) : Prop :=
  s' = with_tx (m_tx_buffer_idx s') (m_tx_buffer s') s /\ length (m_tx_buffer s') = length (m_tx_buffer s).

Lemma write_tx_only s s' ch : tx_only s s' -> tx_only s (write_tx_buffer ch s').
Proof.
  intros [H1 H2]. unfold write_tx_buffer. destruct (_ <? _)%nat; [|done].
  split; [|by rewrite <- H2; cbn; rewrite length_insert]. rewrite H1. done.
Qed.

Lemma slip_put_only s s' ch : tx_only s s' -> tx_only s (slip_put ch s').
Proof. intros H. unfold slip_put. repeat case_match; by repeat apply write_tx_only. Qed.

Lemma send_only usart_send buf s :
  let s' := (Waps_uart_send usart_send buf s).2 in
  exists s1, tx_only s s1 /\
    (s' = s1 \/ exists out, s' = act (SendBuffer out) s1).
Proof.
  intros s'. unfold s', Waps_uart_send. set (s5 := write_tx_buffer SLIP_END (slip_put _ _)).
  assert (H5 : tx_only s s5).
  { apply write_tx_only. do 2 apply slip_put_only.
    assert (Hf : forall l s1, tx_only s s1 -> tx_only s (foldl (fun s ch => slip_put ch s) s1 l)).
    { intros l. induction l as [|ch l IH]; intros s1 H1; [done|]. cbn [foldl]. by apply IH, slip_put_only. }
    apply Hf, write_tx_only. by split. }
  exists s5. split; [done|]. destruct (m_tx_buffer_idx s5 <? length buf)%nat; [by left|right].
  by eexists.
Qed.

(** a frame of legal size is sent whole: the transmit buffer always has
    room, the USART gets the escaped frame and its CRC between two END bytes,
    and the result says whether the USART took all of it. *)
Theorem uart_send_wire usart_send buf s :
  (length buf <= WAPS_MAX_FRAME_LENGTH)%nat -> length (m_tx_buffer s) = WAPS_TX_BUFFER_SIZE ->
  let '(ok, s') := Waps_uart_send usart_send buf s in
  ok = (usart_send (wire buf) =? Z.of_nat (length (wire buf))) /\
  log s' = log s ++ [SendBuffer (wire buf)] /\
  exists idx tx, s' = act (SendBuffer (wire buf)) (with_tx idx tx s).
Proof.
  intros Hl Ht. destruct (send_out usart_send buf s Hl Ht) as (idx & tx & ->).
  split; [done|]. split; [done|]. by exists idx, tx.
Qed.

(** ** A reference receiver

    It collects the bytes between END characters without bound, undoes the
    escapes and keeps what is a frame of legal size followed by its CRC. *)

Definition frame_of (acc : list Z) : list (list Z) :=
  let buf := take (length acc - 2) acc in
  if (WAPS_MIN_FRAME_LENGTH <=? length buf)%nat && (length buf <=? WAPS_MAX_FRAME_LENGTH)%nat &&
     bool_decide (acc = with_crc buf)
  then [buf] else [].

Record receiver := { acc : list Z; esc : bool; out : list (list Z) }.

Definition ref_char (r : receiver) (ch : Z) : receiver :=
  if esc r then
    {| acc := if ch =? SLIP_ESC_END then acc r ++ [SLIP_END]
              else if ch =? SLIP_ESC_ESC then acc r ++ [SLIP_ESC] else [];
       esc := false; out := out r |}
  else if ch =? SLIP_END then {| acc := []; esc := false; out := out r ++ frame_of (acc r) |}
  else if ch =? SLIP_ESC then {| acc := acc r; esc := true; out := out r |}
  else {| acc := acc r ++ [ch]; esc := false; out := out r |}.

Definition ref_receive (r : receiver) (l : list Z) : receiver := foldl ref_char r l.

(** The frames handed to the upper layer. *)
Definition delivered (s : state) : list (list Z) :=
  omap (fun a => match a with FrameCb f => Some f | _ => None end) (log s).

Record rx_rel (s : state) (r : receiver) : Prop := {
  rel_len : length (m_rx_buffer s) = WAPS_RX_BUFFER_SIZE;
  rel_idx : m_rx_buffer_idx s = Nat.min WAPS_RX_BUFFER_SIZE (length (acc r));
  rel_buf : take (m_rx_buffer_idx s) (m_rx_buffer s) = take WAPS_RX_BUFFER_SIZE (acc r);
  rel_crc : m_rx_crc s = foldl Lut.Crc_addByte 65535 (take WAPS_RX_BUFFER_SIZE (acc r));
  rel_esc : m_escaped s = esc r;
  rel_bytes : bytes (acc r);
  rel_out : delivered s = out r }.

(** [SIZE] stays folded in the arithmetic below. *)
Lemma rx_size : WAPS_RX_BUFFER_SIZE = (WAPS_MAX_FRAME_LENGTH + 4)%nat.
Proof. done. Qed.

Lemma write_rx_rel s r ch :
  rx_rel s r -> is_u8 ch -> rx_rel (write_rx_buffer ch s)
    {| acc := acc r ++ [ch]; esc := esc r; out := out r |}.
Proof.
  intros [Hl Hi Hb Hc He Hby Ho] Hch. unfold write_rx_buffer.
  assert (Hby' : bytes (acc r ++ [ch])) by (apply Forall_app; auto).
  destruct (Nat.ltb_spec (m_rx_buffer_idx s) WAPS_RX_BUFFER_SIZE) as [Hlt|Hge].
  - assert (Hi' : m_rx_buffer_idx s = length (acc r)) by lia. rewrite Hi' in *.
    constructor; cbn [acc esc out m_rx_buffer m_rx_buffer_idx m_rx_crc m_escaped with_rx]; try done.
    + by rewrite length_insert.
    + rewrite length_app. cbn [length]. lia.
    + rewrite (take_S_r _ _ ch) by (apply list_lookup_insert_eq; lia).
      rewrite take_insert_ge, Hb by lia. rewrite !take_ge by (rewrite ?length_app; cbn [length]; lia).
      done.
    + rewrite Hc, !take_ge by (rewrite ?length_app; cbn [length]; lia). by rewrite foldl_app.
  - constructor; cbn [acc esc out]; try done.
    + rewrite length_app. cbn [length]. lia.
    + rewrite take_app_le by lia. done.
    + rewrite take_app_le by lia. done.
Qed.

Lemma reset_rx_rel s r :
  rx_rel s r -> rx_rel (reset_rx_buffer s) {| acc := []; esc := esc r; out := out r |}.
Proof.
  intros [Hl _ _ _ He _ Ho]. constructor; cbn [acc esc out]; try done.
Qed.

Lemma delivered_act a s : delivered (act a s) =
  delivered s ++ match a with FrameCb f => [f] | _ => [] end.
Proof. unfold delivered. cbn [log act]. rewrite omap_app. by destruct a. Qed.

(** The CRC check of [frame_completed]: the register after the two CRC bytes
    is compared with the bytes pushed through the register themselves. *)
Lemma crc_check buf lsb msb :
  bytes buf -> is_u8 lsb -> is_u8 msb ->
  let crc_2 := Z.lor lsb (Z.shiftl msb 8) in
  foldl Lut.Crc_addByte 65535 (buf ++ [lsb; msb]) =
    Lut.Crc_addByte (Lut.Crc_addByte crc_2 lsb) msb <->
  buf ++ [lsb; msb] = with_crc buf.
Proof.
  intros Hb Hl Hm crc_2. rewrite foldl_app. cbn [foldl].
  pose proof (foldl_addByte_range 65535 buf crc_init_range) as Hr.
  assert (H2 : crc_2 = lsb + msb * 256).
  { unfold crc_2. rewrite Z.lor_comm, Z.add_comm. apply (lor_shiftl_add 8); [lia|done]. }
  assert (Hr2 : is_u16 crc_2) by (unfold fits in *; lia).
  unfold with_crc. rewrite (fromBuffer_addByte buf Hb).
  set (crc := foldl Lut.Crc_addByte 65535 buf) in *.
  transitivity (crc = crc_2).
  - split; [|by intros ->]. intros E.
    apply addByte_inj_crc in E; auto using addByte_range. by apply addByte_inj_crc in E.
  - rewrite Z.shiftr_div_pow2 by lia. unfold uwrap. change (2 ^ 8) with 256.
    split.
    + intros ->. rewrite H2. do 2 f_equal; [|f_equal].
      * rewrite Z_mod_plus_full. symmetry. by apply Z.mod_small.
      * rewrite Z.div_add, Z.div_small by (unfold fits in *; lia). lia.
    + intros E. apply app_inv_head in E. injection E as -> ->. rewrite H2.
      pose proof (Z.div_mod crc 256 ltac:(lia)). lia.
Qed.

Lemma frame_of_split buf lsb msb :
  bytes buf -> is_u8 lsb -> is_u8 msb ->
  frame_of (buf ++ [lsb; msb]) =
    if (WAPS_MIN_FRAME_LENGTH <=? length buf)%nat && (length buf <=? WAPS_MAX_FRAME_LENGTH)%nat &&
       (foldl Lut.Crc_addByte 65535 (buf ++ [lsb; msb]) =?
        Lut.Crc_addByte (Lut.Crc_addByte (Z.lor lsb (Z.shiftl msb 8)) lsb) msb)
    then [buf] else [].
Proof.
  intros Hb Hl Hm. unfold frame_of. rewrite length_app. cbn [length].
  replace (length buf + 2 - 2)%nat with (length buf) by lia. rewrite take_app_length.
  pose proof (crc_check buf lsb msb Hb Hl Hm) as Hc. cbv zeta in Hc.
  destruct (Z.eqb_spec (foldl Lut.Crc_addByte 65535 (buf ++ [lsb; msb]))
    (Lut.Crc_addByte (Lut.Crc_addByte (Z.lor lsb (Z.shiftl msb 8)) lsb) msb)) as [E|E].
  - by rewrite bool_decide_true by by apply Hc.
  - by rewrite bool_decide_false by by intros ?%Hc.
Qed.

Lemma split_crc (l : list Z) :
  (2 <= length l)%nat -> exists buf lsb msb, l = buf ++ [lsb; msb] /\ length buf = (length l - 2)%nat.
Proof.
  intros H. exists (take (length l - 2) l).
  assert (Hd : length (drop (length l - 2) l) = 2%nat) by (rewrite length_drop; lia).
  destruct (drop (length l - 2) l) as [|lsb [|msb [|]]] eqn:E; try done.
  exists lsb, msb. split; [by rewrite <- E, take_drop|]. rewrite length_take. lia.
Qed.

Lemma frame_of_short l : (length l < 5)%nat -> frame_of l = [].
Proof.
  intros H. unfold frame_of. rewrite length_take.
  destruct (Nat.leb_spec WAPS_MIN_FRAME_LENGTH (Nat.min (length l - 2) (length l))); [|done].
  unfold WAPS_MIN_FRAME_LENGTH in *. lia.
Qed.

Lemma frame_of_long l : (WAPS_MAX_FRAME_LENGTH + 2 < length l)%nat -> frame_of l = [].
Proof.
  intros H. unfold frame_of. rewrite length_take.
  destruct (Nat.leb_spec (Nat.min (length l - 2) (length l)) WAPS_MAX_FRAME_LENGTH); [lia|].
  by rewrite andb_false_r.
Qed.

Lemma delivered_reset s : delivered (reset_rx_buffer s) = delivered s.
Proof. done. Qed.

Lemma rx_tail s buf lsb msb :
  take (length buf + 2) (m_rx_buffer s) = buf ++ [lsb; msb] ->
  take (length buf) (m_rx_buffer s) = buf /\ rx_byte s (length buf) = lsb /\
  rx_byte s (S (length buf)) = msb.
Proof.
  intros E. unfold rx_byte.
  assert (H : forall i, (i < length buf + 2)%nat -> m_rx_buffer s !! i = (buf ++ [lsb; msb]) !! i).
  { intros i Hi. rewrite <- E. symmetry. by apply lookup_take_lt. }
  split_and!.
  - apply (f_equal (take (length buf))) in E. rewrite take_take, take_app_length in E.
    by rewrite Nat.min_l in E by lia.
  - rewrite H by lia. rewrite lookup_app_r, Nat.sub_diag by lia. done.
  - rewrite H by lia. rewrite lookup_app_r by lia.
    by replace (S (length buf) - length buf)%nat with 1%nat by lia.
Qed.

Lemma completed_rel s r :
  rx_rel s r -> rx_rel (frame_completed s)
    {| acc := []; esc := esc r; out := out r ++ frame_of (acc r) |}.
Proof.
  intros R. pose proof R as [Hl Hi Hb Hc He Hby Ho]. unfold frame_completed.
  assert (Hsame : frame_of (acc r) = [] -> rx_rel (reset_rx_buffer s)
    {| acc := []; esc := esc r; out := out r ++ frame_of (acc r) |}).
  { intros ->. rewrite app_nil_r. by apply reset_rx_rel. }
  pose proof rx_size as Hsz.
  destruct (Nat.leb_spec 2 (m_rx_buffer_idx s)) as [H2|H2].
  2:{ apply Hsame, frame_of_short. lia. }
  destruct (Nat.ltb_spec (WAPS_MAX_FRAME_LENGTH + 2) (length (acc r))) as [Hlong|Hfit].
  { destruct (Nat.leb_spec (m_rx_buffer_idx s - 2) WAPS_MAX_FRAME_LENGTH); [lia|].
    rewrite andb_false_r.
    by apply Hsame, frame_of_long. }
  assert (Hi' : m_rx_buffer_idx s = length (acc r)) by lia.
  rewrite (take_ge (acc r)) in Hb, Hc by lia. rewrite Hi' in *.
  destruct (split_crc (acc r) H2) as (buf & lsb & msb & Ea & Hlb).
  rewrite Ea in Hby. apply Forall_app in Hby as [Hbuf Hby].
  inversion_clear Hby as [|? ? Hlsb Hby']. inversion_clear Hby' as [|? ? Hmsb _].
  rewrite <- Hlb. replace (length (acc r)) with (length buf + 2)%nat in Hb by lia. rewrite Ea in Hb.
  destruct (rx_tail s buf lsb msb Hb) as (Htk & Hlo & Hhi). rewrite Hlo, Hhi, Htk, Hc, Ea.
  rewrite (frame_of_split buf lsb msb Hbuf Hlsb Hmsb).
  destruct (_ <=? _)%nat; cbn [andb]; [|rewrite app_nil_r; by apply reset_rx_rel].
  destruct (_ <=? _)%nat; cbn [andb]; [|rewrite app_nil_r; by apply reset_rx_rel].
  destruct (_ =? _); [|rewrite app_nil_r; by apply reset_rx_rel].
  constructor; cbn [acc esc out]; try done.
  rewrite delivered_reset, !delivered_act, app_nil_r. by rewrite Ho.
Qed.

Lemma with_escaped_rel s r b :
  rx_rel s r -> rx_rel (with_escaped b s) {| acc := acc r; esc := b; out := out r |}.
Proof. by intros []. Qed.

Lemma receive_char_rel s r ch :
  rx_rel s r -> is_u8 ch -> rx_rel (receive_char s ch) (ref_char r ch).
Proof.
  intros R Hch. unfold receive_char, ref_char. rewrite (rel_esc s r R).
  destruct (esc r) eqn:Ee.
  - apply (with_escaped_rel _ {| acc := _; esc := esc r; out := out r |}).
    destruct (ch =? SLIP_ESC_END); [by apply write_rx_rel|].
    destruct (ch =? SLIP_ESC_ESC); [by apply write_rx_rel|]. by apply reset_rx_rel.
  - rewrite <- Ee. destruct (ch =? SLIP_END) eqn:E1.
    + destruct (Nat.eqb_spec (m_rx_buffer_idx s) 0) as [E0|E0].
      * assert (Ha : acc r = []).
        { rewrite (rel_idx s r R) in E0. destruct (acc r); [done|]. cbn in E0. unfold WAPS_RX_BUFFER_SIZE in E0. lia. }
        rewrite Ha. cbn [frame_of]. rewrite frame_of_short by (cbn; lia). rewrite app_nil_r.
        destruct R; constructor; cbn [acc esc out]; rewrite ?Ha in *; try done.
      * by apply completed_rel.
    + destruct (ch =? SLIP_ESC); [by apply with_escaped_rel|]. by apply write_rx_rel.
Qed.

Lemma receive_rel l s r :
  rx_rel s r -> bytes l -> rx_rel (foldl receive_char s l) (ref_receive r l).
Proof.
  revert s r. induction l as [|ch l IH]; intros s r R Hl; [done|]. cbn.
  inversion_clear Hl. apply IH; [|done]. by apply receive_char_rel.
Qed.

Lemma rx_rel_act a s r :
  (forall f, a <> FrameCb f) -> rx_rel s r -> rx_rel (act a s) r.
Proof.
  intros Ha []. constructor; try done. rewrite delivered_act.
  destruct a; rewrite ?app_nil_r; try done. by destruct (Ha frame).
Qed.

(** The chunks the USART driver may deliver at once. *)
Definition chunk_ok (c : list Z) : Prop :=
  bytes c /\ (0 < length c < WAPS_RX_BUFFER_SIZE * 2)%nat.

Definition receive_all (chunks : list (list Z)) (s : state) : state :=
  foldl (fun s c => waps_uart_receive c s) s chunks.

Lemma receive_all_rel chunks s r :
  rx_rel s r -> Forall chunk_ok chunks ->
  rx_rel (receive_all chunks s) (ref_receive r (concat chunks)).
Proof.
  revert s r. induction chunks as [|c chunks IH]; intros s r R Hc; [done|].
  apply Forall_cons in Hc as [[Hb Hl] Hc]. cbn [receive_all foldl concat].
  unfold ref_receive. rewrite foldl_app. apply IH; [|done]. unfold waps_uart_receive.
  destruct (Nat.eqb_spec (length c) 0); [lia|].
  destruct (Nat.leb_spec (WAPS_RX_BUFFER_SIZE * 2) (length c)); [lia|]. cbn [orb].
  apply receive_rel; [|done]. by apply rx_rel_act.
Qed.

(** Steps that leave the receiver as it is: sending, and cleaning. *)
Lemma send_rel usart_send buf s r : rx_rel s r -> rx_rel (Waps_uart_send usart_send buf s).2 r.
Proof.
  intros [H1 H2 H3 H4 H5 H6 H7].
  destruct (send_only usart_send buf s) as (s1 & [E _] & [->|(out & ->)]); rewrite E.
  - by constructor.
  - constructor; try done. by rewrite delivered_act, app_nil_r.
Qed.

Lemma clean_rel s r : rx_rel s r -> rx_rel (Waps_uart_clean s) {| acc := []; esc := esc r; out := out r |}.
Proof. intros []. by constructor. Qed.

(** Chunks of any length: those that the driver cannot deliver are ignored. *)
Lemma receive_any_rel c s r :
  rx_rel s r -> bytes c -> exists c', bytes c' /\ rx_rel (waps_uart_receive c s) (ref_receive r c').
Proof.
  intros R Hc. pose proof (rx_rel_act KeepPowerOn s r ltac:(done) R) as R'. unfold waps_uart_receive.
  destruct (_ || _); [by exists []|]. exists c. split; [done|]. by apply receive_rel.
Qed.

Definition frame_legal (f : list Z) : Prop :=
  bytes f /\ (WAPS_MIN_FRAME_LENGTH <= length f <= WAPS_MAX_FRAME_LENGTH)%nat.

Lemma frame_of_legal a : bytes a -> Forall frame_legal (frame_of a).
Proof.
  intros Ha. unfold frame_of.
  destruct (Nat.leb_spec WAPS_MIN_FRAME_LENGTH (length (take (length a - 2) a))); cbn [andb]; [|done].
  destruct (Nat.leb_spec (length (take (length a - 2) a)) WAPS_MAX_FRAME_LENGTH); cbn [andb]; [|done].
  case_bool_decide; [|done]. constructor; [|done]. split; [by apply Forall_take|done].
Qed.

Lemma ref_receive_legal l r :
  bytes l -> bytes (acc r) -> Forall frame_legal (out r) -> Forall frame_legal (out (ref_receive r l)).
Proof.
  intros Hl. revert r. induction Hl as [|ch l Hch Hl IH]; intros r Ha Ho; [done|]. cbn.
  assert (Hs : forall x, is_u8 x -> bytes (acc r ++ [x])) by (intros x Hx; apply Forall_app; auto).
  apply IH; unfold ref_char; repeat case_match; cbn [acc out]; try done; auto.
  all: first [by apply Hs | by constructor | apply Forall_app; split; [done|by apply frame_of_legal]].
Qed.

Definition receiver0 : receiver := {| acc := []; esc := false; out := [] |}.

Lemma init_rel u tx rx s :
  length rx = WAPS_RX_BUFFER_SIZE -> log s = [] -> rx_rel (Waps_uart_init u tx rx s).2 receiver0.
Proof.
  intros Hrx Hlog. constructor; cbn [acc esc out receiver0 snd Waps_uart_init]; try done.
  unfold delivered. cbn. by rewrite Hlog.
Qed.

(** C7: for any bytes in any chunks, the frames handed to the upper layer are
    those of the reference receiver: exactly the unescaped blocks between END
    characters that have a legal size and end with their CRC. *)
Theorem uart_receive_refines u tx rx s chunks :
  length rx = WAPS_RX_BUFFER_SIZE -> log s = [] -> Forall chunk_ok chunks ->
  let s' := receive_all chunks (Waps_uart_init u tx rx s).2 in
  delivered s' = out (ref_receive receiver0 (concat chunks)) /\
  length (m_rx_buffer s') = WAPS_RX_BUFFER_SIZE /\
  (m_rx_buffer_idx s' <= WAPS_RX_BUFFER_SIZE)%nat.
Proof.
  intros Hrx Hlog Hc. pose proof (receive_all_rel chunks _ _ (init_rel u tx rx s Hrx Hlog) Hc) as R.
  split; [by apply R|]. split; [by apply R|]. rewrite (rel_idx _ _ R). lia.
Qed.

(** ** Round trip *)

Lemma ref_receive_app r l1 l2 : ref_receive r (l1 ++ l2) = ref_receive (ref_receive r l1) l2.
Proof. apply foldl_app. Qed.

Lemma ref_slip l a o :
  ref_receive {| acc := a; esc := false; out := o |} (slip l) =
    {| acc := a ++ l; esc := false; out := o |}.
Proof.
  revert a. induction l as [|ch l IH]; intros a; [by rewrite app_nil_r|].
  rewrite slip_cons, ref_receive_app.
  assert (E : ref_receive {| acc := a; esc := false; out := o |} (slip_byte ch) =
    {| acc := a ++ [ch]; esc := false; out := o |}).
  { unfold slip_byte. destruct (Z.eqb_spec ch SLIP_ESC) as [->|H1]; [done|].
    destruct (Z.eqb_spec ch SLIP_END) as [->|H2]; [done|]. cbn. unfold ref_char. cbn [esc acc out].
    by rewrite (proj2 (Z.eqb_neq _ _) H1), (proj2 (Z.eqb_neq _ _) H2). }
  rewrite E, IH, <- app_assoc. done.
Qed.

Lemma frame_of_with_crc buf :
  (WAPS_MIN_FRAME_LENGTH <= length buf <= WAPS_MAX_FRAME_LENGTH)%nat ->
  frame_of (with_crc buf) = [buf].
Proof.
  intros H. unfold frame_of.
  assert (E : take (length (with_crc buf) - 2) (with_crc buf) = buf).
  { unfold with_crc. rewrite length_app. cbn [length].
    replace (length buf + 2 - 2)%nat with (length buf) by lia. apply take_app_length. }
  rewrite E, bool_decide_true by done.
  rewrite (proj2 (Nat.leb_le _ _)) by lia. by rewrite (proj2 (Nat.leb_le _ _)) by lia.
Qed.

(** Two END characters bring the receiver back to the start of a frame. *)
Lemma ref_resync r : exists o, ref_receive r [SLIP_END; SLIP_END] =
  {| acc := []; esc := false; out := o |}.
Proof.
  cbn. unfold ref_char at 2. destruct (esc r) eqn:E; cbn; rewrite ?app_nil_r; eauto.
Qed.

Lemma ref_wire o buf :
  (WAPS_MIN_FRAME_LENGTH <= length buf <= WAPS_MAX_FRAME_LENGTH)%nat ->
  ref_receive {| acc := []; esc := false; out := o |} (wire buf) =
    {| acc := []; esc := false; out := o ++ [buf] |}.
Proof.
  intros H. unfold wire. change (SLIP_END :: slip (with_crc buf) ++ [SLIP_END])
    with ([SLIP_END] ++ slip (with_crc buf) ++ [SLIP_END]).
  rewrite !ref_receive_app.
  replace (ref_receive {| acc := []; esc := false; out := o |} [SLIP_END])
    with {| acc := []; esc := false; out := o |} by (cbn; by rewrite app_nil_r).
  rewrite ref_slip. cbn [app ref_receive foldl ref_char esc acc out].
  by rewrite Z.eqb_refl, frame_of_with_crc.
Qed.

(** C21: whatever the line carried before, after two END characters a frame
    sent by [Waps_uart_send] on the other side is received, as it was sent and
    once, and nothing else is. *)
Theorem uart_roundtrip u tx rx s usart_send t buf sent garbage chunks :
  length rx = WAPS_RX_BUFFER_SIZE -> log s = [] ->
  length (m_tx_buffer t) = WAPS_TX_BUFFER_SIZE -> log t = [] ->
  (WAPS_MIN_FRAME_LENGTH <= length buf <= WAPS_MAX_FRAME_LENGTH)%nat ->
  log (Waps_uart_send usart_send buf t).2 = [SendBuffer sent] ->
  Forall chunk_ok chunks -> concat chunks = garbage ++ [SLIP_END; SLIP_END] ++ sent ->
  delivered (receive_all chunks (Waps_uart_init u tx rx s).2) =
    out (ref_receive receiver0 (garbage ++ [SLIP_END; SLIP_END])) ++ [buf].
Proof.
  intros Hrx Hlog Htx Hlogt Hbuf Hsent Hc Ew.
  rewrite (send_log usart_send buf t ltac:(lia) Htx), Hlogt in Hsent. injection Hsent as <-.
  rewrite app_assoc in Ew.
  rewrite (rel_out _ _ (receive_all_rel chunks _ _ (init_rel u tx rx s Hrx Hlog) Hc)), Ew.
  rewrite ref_receive_app. rewrite (ref_receive_app receiver0 garbage).
  destruct (ref_resync (ref_receive receiver0 garbage)) as (o & ->).
  by rewrite ref_wire.
Qed.

Definition idle0 : state :=
  {| m_tx_buffer_idx := 0; m_tx_buffer := repeat 0 WAPS_TX_BUFFER_SIZE; m_rx_buffer_idx := 0;
     m_rx_buffer := repeat 0 WAPS_RX_BUFFER_SIZE; m_rx_crc := 65535; m_escaped := false; log := [] |}.

(** A poll request whose bytes need escaping. *)
Definition frame0 : list Z := [0x04; 0xC0; 0x01; 0xDB].

Lemma uart_send_wire_witness :
  log (Waps_uart_send (fun l => Z.of_nat (length l)) frame0 idle0).2 = [SendBuffer (wire frame0)] /\
  (Waps_uart_send (fun l => Z.of_nat (length l)) frame0 idle0).1 = true.
Proof.
  pose proof (uart_send_wire (fun l => Z.of_nat (length l)) frame0 idle0) as H.
  destruct (Waps_uart_send (fun l => Z.of_nat (length l)) frame0 idle0) as [ok s'].
  destruct H as (Hok & Hlog & _); [cbn; unfold WAPS_MAX_FRAME_LENGTH; lia|done|].
  cbn [fst snd]. rewrite Hok, Hlog. split; [done|by apply Z.eqb_eq].
Defined.

Lemma uart_receive_refines_witness :
  delivered (receive_all [[0x11; 0xDB]; [0x00; 0xC0]; wire frame0] (Waps_uart_init true [] (repeat 0 WAPS_RX_BUFFER_SIZE) idle0).2)
    = [frame0].
Proof.
  rewrite (proj1 (uart_receive_refines true [] (repeat 0 WAPS_RX_BUFFER_SIZE) idle0
    [[0x11; 0xDB]; [0x00; 0xC0]; wire frame0] (repeat_length _ _) eq_refl
    ltac:(repeat constructor; by vm_compute))).
  by vm_compute.
Defined.

Lemma uart_roundtrip_witness :
  delivered (receive_all ([[0x00; 0x01]; [SLIP_END; SLIP_END]; wire frame0])
      (Waps_uart_init true [] (repeat 0 WAPS_RX_BUFFER_SIZE) idle0).2) = [frame0].
Proof.
  rewrite (uart_roundtrip true [] (repeat 0 WAPS_RX_BUFFER_SIZE) idle0 (fun _ => 0) idle0 frame0
    (wire frame0) [0x00; 0x01]).
  - by vm_compute.
  - done.
  - done.
  - done.
  - done.
  - cbn. unfold WAPS_MIN_FRAME_LENGTH, WAPS_MAX_FRAME_LENGTH. lia.
  - by vm_compute.
  - repeat constructor; by vm_compute.
  - by vm_compute.
Defined.

End Uart.

Module Power.

(** [app_lib_settings_role_t] of [api/wms_settings.h]. *)
Definition APP_LIB_SETTINGS_ROLE_SINK_LE : Z := 0x00.
Definition APP_LIB_SETTINGS_ROLE_SINK_LL : Z := 0x10.
Definition APP_LIB_SETTINGS_ROLE_HEADNODE_LL : Z := 0x11.
Definition APP_LIB_SETTINGS_ROLE_SUBNODE_LL : Z := 0x12.
Definition APP_LIB_SETTINGS_ROLE_AUTOROLE_LL : Z := 0x52.

Definition MAX_BAUDRATE_FOR_AUTOPOWER : Z := 125000.
Definition USART_SHUTDOWN_TIMEOUT_MS : Z := 100.
Definition APP_SCHEDULER_SCHEDULE_ASAP : Z := 0.

Inductive usart_power_state_e := USART_POWER_OFF | USART_POWER_UP | USART_POWER_ON.
Inductive edge := RISING | FALLING.

(** The statics of the module and the last settings it asked the drivers for:
    the USART, the edge interrupt of the RX pin ([None]: disabled), the deep
    sleep lock, and the delay of the shutdown task while it is scheduled. *)
Record state := {
  m_autopower_enabled : bool;
  m_power_on : usart_power_state_e;
  usart_enabled : bool;
  receiver_on : bool;
  edge_irq : option edge;
  ds_disabled : bool;
  shutdown_task : option Z;
  uart : Uart.state }.

Definition set_power (auto : bool) (p : usart_power_state_e) (s : state) : state :=
  {| m_autopower_enabled := auto; m_power_on := p; usart_enabled := usart_enabled s;
     receiver_on := receiver_on s; edge_irq := edge_irq s; ds_disabled := ds_disabled s;
     shutdown_task := shutdown_task s; uart := uart s |}.
Definition set_usart (en rx : bool) (s : state) : state :=
  {| m_autopower_enabled := m_autopower_enabled s; m_power_on := m_power_on s; usart_enabled := en;
     receiver_on := rx; edge_irq := edge_irq s; ds_disabled := ds_disabled s;
     shutdown_task := shutdown_task s; uart := uart s |}.
Definition Wakeup_setEdgeIRQ (e : edge) (enable : bool) (s : state) : state :=
  {| m_autopower_enabled := m_autopower_enabled s; m_power_on := m_power_on s;
     usart_enabled := usart_enabled s; receiver_on := receiver_on s;
     edge_irq := if enable then Some e else None; ds_disabled := ds_disabled s;
     shutdown_task := shutdown_task s; uart := uart s |}.
Definition set_ds (b : bool) (s : state) : state :=
  {| m_autopower_enabled := m_autopower_enabled s; m_power_on := m_power_on s;
     usart_enabled := usart_enabled s; receiver_on := receiver_on s; edge_irq := edge_irq s;
     ds_disabled := b; shutdown_task := shutdown_task s; uart := uart s |}.
Definition set_task (t : option Z) (s : state) : state :=
  {| m_autopower_enabled := m_autopower_enabled s; m_power_on := m_power_on s;
     usart_enabled := usart_enabled s; receiver_on := receiver_on s; edge_irq := edge_irq s;
     ds_disabled := ds_disabled s; shutdown_task := t; uart := uart s |}.
Definition set_uart (u : Uart.state) (s : state) : state :=
  {| m_autopower_enabled := m_autopower_enabled s; m_power_on := m_power_on s;
     usart_enabled := usart_enabled s; receiver_on := receiver_on s; edge_irq := edge_irq s;
     ds_disabled := ds_disabled s; shutdown_task := shutdown_task s; uart := u |}.

(** [role] is what [lib_settings->getNodeRole] returns, [None] for an error. *)
Definition is_autopower_in_use (m_baudrate : Z) (role : option Z) : bool :=
  if MAX_BAUDRATE_FOR_AUTOPOWER <? m_baudrate then false
  else match role with
       | None => true
       | Some r =>
           negb ((r =? APP_LIB_SETTINGS_ROLE_SINK_LE) || (r =? APP_LIB_SETTINGS_ROLE_SINK_LL) ||
                 (r =? APP_LIB_SETTINGS_ROLE_HEADNODE_LL) || (r =? APP_LIB_SETTINGS_ROLE_SUBNODE_LL) ||
                 (r =? APP_LIB_SETTINGS_ROLE_AUTOROLE_LL))
       end.

Definition Waps_uart_AutoPowerOn (s : state) : state :=
  set_power true USART_POWER_OFF (Wakeup_setEdgeIRQ FALLING true s).

Definition Waps_uart_AutoPowerOff (s : state) : state :=
  set_power false USART_POWER_OFF (Wakeup_setEdgeIRQ FALLING false s).

Definition Waps_uart_powerReset (baud : Z) (role : option Z) (s : state) : state :=
  if is_autopower_in_use baud role
  then Waps_uart_AutoPowerOn (set_usart false false s)
  else set_usart true true (Waps_uart_AutoPowerOff s).

Definition Waps_uart_keepPowerOn (s : state) : state :=
  if negb (m_autopower_enabled s) then s else set_task (Some USART_SHUTDOWN_TIMEOUT_MS) s.

Definition Waps_uart_powerOff (s : state) : state :=
  if negb (m_autopower_enabled s) then s else set_task (Some APP_SCHEDULER_SCHEDULE_ASAP) s.

Definition uart_gpio_isr (s : state) : state :=
  match m_power_on s with
  | USART_POWER_OFF =>
      set_ds true (set_power (m_autopower_enabled s) USART_POWER_UP (Wakeup_setEdgeIRQ RISING true s))
  | USART_POWER_UP =>
      Wakeup_setEdgeIRQ FALLING false
        (set_ds false (set_power (m_autopower_enabled s) USART_POWER_ON (set_usart true true s)))
  | USART_POWER_ON => s
  end.

Definition power_off (s : state) : state :=
  match m_power_on s with
  | USART_POWER_OFF => s
  | p =>
      let s :=
        match p with
        | USART_POWER_ON => set_uart (Uart.Waps_uart_clean (uart s)) (set_usart false false s)
        | _ => set_ds false s
        end in
      Wakeup_setEdgeIRQ FALLING true (set_power (m_autopower_enabled s) USART_POWER_OFF s)
  end.

(** The task; it returns [APP_SCHEDULER_STOP_TASK]. *)
Definition shutdown_uart (s : state) : state := set_task None (power_off s).

(** Bytes from the serial port, with the requests of the UART to the power
    switch carried out in their order. *)
Definition power_action (a : Uart.action) (s : state) : state :=
  match a with
  | Uart.KeepPowerOn => Waps_uart_keepPowerOn s
  | Uart.PowerOff => Waps_uart_powerOff s
  | _ => s
  end.

Definition receive (chars : list Z) (s : state) : state :=
  let u := Uart.waps_uart_receive chars (uart s) in
  foldl (fun s a => power_action a s) (set_uart u s) (drop (length (Uart.log (uart s))) (Uart.log u)).

(** What happens to the switch: an edge interrupt only while it is enabled,
    the shutdown task only while it is scheduled, bytes only while the receiver
    is on. *)
Inductive step : state -> state -> Prop :=
| step_isr s e : edge_irq s = Some e -> step s (uart_gpio_isr s)
| step_shutdown s d : shutdown_task s = Some d -> step s (shutdown_uart s)
| step_receive s chars : receiver_on s = true -> step s (receive chars s)
| step_reset s baud role : step s (Waps_uart_powerReset baud role s).

Record inv (s : state) : Prop := {
  inv_usart : usart_enabled s = receiver_on s;
  inv_state :
    if m_autopower_enabled s then
      match m_power_on s with
      | USART_POWER_OFF => receiver_on s = false /\ edge_irq s = Some FALLING
      | USART_POWER_UP => receiver_on s = false /\ edge_irq s = Some RISING /\ ds_disabled s = true
      | USART_POWER_ON => receiver_on s = true /\ edge_irq s = None
      end
    else m_power_on s = USART_POWER_OFF /\ receiver_on s = true /\ edge_irq s = None }.

Definition frozen (s s' : state) : Prop :=
  m_autopower_enabled s' = m_autopower_enabled s /\ m_power_on s' = m_power_on s /\
  usart_enabled s' = usart_enabled s /\ receiver_on s' = receiver_on s /\
  edge_irq s' = edge_irq s /\ ds_disabled s' = ds_disabled s.

Lemma actions_frozen l s : frozen s (foldl (fun s a => power_action a s) s l).
Proof.
  revert s. induction l as [|a l IH]; intros s; [done|]. cbn [foldl].
  assert (H : frozen s (power_action a s)).
  { destruct a; cbn; unfold Waps_uart_keepPowerOn, Waps_uart_powerOff; by repeat case_match. }
  destruct H as (? & ? & ? & ? & ? & ?), (IH (power_action a s)) as (? & ? & ? & ? & ? & ?).
  split_and!; congruence.
Qed.

Lemma receive_frozen chars s : frozen s (receive chars s).
Proof. exact (actions_frozen _ (set_uart _ s)). Qed.

Lemma frozen_inv s s' : frozen s s' -> inv s -> inv s'.
Proof.
  intros (H1 & H2 & H3 & H4 & H5 & H6) [I1 I2]. constructor; [congruence|].
  by rewrite H1, H2, H4, H5, H6.
Qed.

Lemma reset_inv baud role s : inv (Waps_uart_powerReset baud role s).
Proof. unfold Waps_uart_powerReset. destruct (is_autopower_in_use baud role); by constructor. Qed.

Lemma step_inv s s' : step s s' -> inv s -> inv s'.
Proof.
  intros S I. destruct S as [s e He|s d Hd|s chars Hr|s baud role].
  - destruct I as [I1 I2]. unfold uart_gpio_isr.
    destruct (m_autopower_enabled s) eqn:Ea, (m_power_on s) eqn:Ep; destruct_and?; try congruence;
      constructor; cbn; rewrite ?Ea; by split_and?.
  - destruct I as [I1 I2]. unfold shutdown_uart, power_off.
    destruct (m_autopower_enabled s) eqn:Ea, (m_power_on s) eqn:Ep; destruct_and?; try congruence;
      constructor; cbn; rewrite ?Ea, ?Ep; try done; by split_and?.
  - by apply (frozen_inv s), I; apply receive_frozen.
  - apply reset_inv.
Qed.

(** the power switch never gets stuck: whatever edges, bytes, time-outs and
    role changes come, the receiver is powered exactly in the state the switch
    believes, and a receiver that is off has an edge interrupt armed such that
    at most two edges turn it on and release the deep sleep lock. *)
Theorem power_switch_safe baud role s0 s :
  rtc step (Waps_uart_powerReset baud role s0) s ->
  inv s /\
  (receiver_on s = false -> exists e, edge_irq s = Some e /\
    let s1 := uart_gpio_isr s in
    let s2 := if receiver_on s1 then s1 else uart_gpio_isr s1 in
    receiver_on s2 = true /\ usart_enabled s2 = true /\ ds_disabled s2 = false).
Proof.
  intros R. assert (I : inv s).
  { pose proof (reset_inv baud role s0) as I. induction R; [done|]. eauto using step_inv. }
  split; [done|]. intros Hoff. destruct I as [_ I]. unfold uart_gpio_isr.
  destruct (m_autopower_enabled s), (m_power_on s) eqn:Ep; destruct_and?; try congruence;
    eexists; (split; [done|]); cbn; rewrite ?Hoff, ?Ep; done.
Qed.

(** Without a received byte nothing switches the receiver off again: the two
    edges of a glitch do not schedule the shutdown task. *)
Lemma glitch_keeps_power_on s :
  inv s -> m_autopower_enabled s = true -> m_power_on s = USART_POWER_OFF -> shutdown_task s = None ->
  let s' := uart_gpio_isr (uart_gpio_isr s) in
  m_power_on s' = USART_POWER_ON /\ shutdown_task s' = None /\ edge_irq s' = None.
Proof. intros I Ha Hp Ht. unfold uart_gpio_isr. rewrite Hp. by cbn. Qed.

(** A role change while the receiver is powering up leaves the deep sleep lock
    taken when the switch is disabled. *)
Lemma reset_keeps_lock baud role s :
  inv s -> m_autopower_enabled s = true -> m_power_on s = USART_POWER_UP ->
  is_autopower_in_use baud role = false ->
  let s' := Waps_uart_powerReset baud role s in
  ds_disabled s' = true /\ edge_irq s' = None /\ m_power_on s' = USART_POWER_OFF.
Proof.
  intros I Ha Hp Hr. unfold Waps_uart_powerReset. rewrite Hr. cbn.
  destruct I as [_ I]. rewrite Ha, Hp in I. by destruct I as (_ & _ & ->).
Qed.

Definition off : state :=
  {| m_autopower_enabled := false; m_power_on := USART_POWER_OFF; usart_enabled := false;
     receiver_on := false; edge_irq := None; ds_disabled := false; shutdown_task := None;
     uart := {| Uart.m_tx_buffer_idx := 0; Uart.m_tx_buffer := repeat 0 Uart.WAPS_TX_BUFFER_SIZE;
                Uart.m_rx_buffer_idx := 0; Uart.m_rx_buffer := repeat 0 Uart.WAPS_RX_BUFFER_SIZE;
                Uart.m_rx_crc := 65535; Uart.m_escaped := false; Uart.log := [] |} |}.

Lemma power_switch_safe_witness :
  let s := shutdown_uart (receive [0x41] (uart_gpio_isr (uart_gpio_isr
    (Waps_uart_powerReset 115200 None off)))) in
  m_power_on s = USART_POWER_OFF /\ inv s.
Proof.
  split; [by vm_compute|].
  refine (proj1 (power_switch_safe 115200 None off _ _)).
  eapply rtc_l; [by eapply (step_isr _ FALLING)|].
  eapply rtc_l; [by eapply (step_isr _ RISING)|].
  eapply rtc_l; [by apply (step_receive _ [0x41])|].
  eapply rtc_l; [by eapply (step_shutdown _ USART_SHUTDOWN_TIMEOUT_MS)|]. apply rtc_refl.
Defined.

End Power.
