(* ===== verification/Api.v ===== *)
(** * The API types of the SDK

    The result codes and the structures of [api/] that the components exchange
    with the protocol stack.  The stack itself is not part of the repository:
    what a component calls in it is a field of a record of functions over a
    world [W], declared beside the component. *)

From S2P Require Import Prelude.

(** [app_res_e] of [api/wms_app.h]. *)
Definition APP_RES_OK : Z := 0.
Definition APP_RES_UNSPECIFIED_ERROR : Z := 1.
Definition APP_RES_NOT_IMPLEMENTED : Z := 2.
Definition APP_RES_INVALID_VALUE : Z := 3.
Definition APP_RES_INVALID_NULL_POINTER : Z := 4.
Definition APP_RES_INVALID_CONFIGURATION : Z := 5.
Definition APP_RES_RESOURCE_UNAVAILABLE : Z := 6.
Definition APP_RES_INVALID_STACK_STATE : Z := 7.
Definition APP_RES_ACCESS_DENIED : Z := 8.

(** ** [api/wms_data.h] *)

Definition APP_LIB_DATA_SEND_FLAG_NONE : Z := 0.
Definition APP_LIB_DATA_SEND_FLAG_TRACK : Z := 1.
Definition APP_LIB_DATA_SEND_SET_HOP_LIMITING : Z := 4.
Definition APP_LIB_DATA_SEND_FLAG_UNACK_CSMA_CA : Z := 8.
Definition APP_LIB_DATA_SEND_FRAGMENTED_PACKET : Z := 32.

Definition APP_LIB_DATA_SEND_RES_SUCCESS : Z := 0.
Definition APP_LIB_DATA_SEND_RES_INVALID_NUM_BYTES : Z := 6.
Definition APP_LIB_DATA_SEND_RES_OUT_OF_TRACKING_IDS : Z := 7.
Definition APP_LIB_DATA_SEND_RES_INVALID_TRACKING_ID : Z := 8.
Definition APP_LIB_DATA_SEND_RES_ACCESS_DENIED : Z := 10.
Definition APP_LIB_DATA_SEND_RES_UNINITIALIZED : Z := 12.

Definition APP_LIB_DATA_RECEIVE_RES_HANDLED : Z := 0.
Definition APP_LIB_DATA_RECEIVE_RES_NOT_FOR_APP : Z := 1.
Definition APP_LIB_DATA_RECEIVE_RES_NO_SPACE : Z := 2.

(** [app_lib_data_tracking_id_t] is a [uint16_t]. *)
Definition APP_LIB_DATA_NO_TRACKING_ID : Z := u16 (-1).

Record app_lib_data_fragment_t := {
  packet_id : Z; fragment_offset : Z; last_fragment : bool }.

Record app_lib_data_to_send_t := {
  to_bytes : list Z;
  to_num_bytes : Z;
  to_dest_address : Z;
  to_delay : Z;
  to_tracking_id : Z;
  to_qos : Z;
  to_flags : Z;
  to_src_endpoint : Z;
  to_dest_endpoint : Z;
  to_hop_limit : Z;
  to_fragment_info : app_lib_data_fragment_t }.

(** The fields that the modelled components read. *)
Record app_lib_data_received_t := {
  rx_bytes : list Z;
  rx_num_bytes : Z;
  rx_src_address : Z;
  rx_delay : Z;
  rx_qos : Z;
  rx_src_endpoint : Z;
  rx_dest_endpoint : Z;
  rx_hops : Z;
  rx_dest_address : Z;
  rx_fragment_info : option app_lib_data_fragment_t }.

Definition APP_ADDR_ANYSINK : Z := 0xfffffffe.
Definition APP_ADDR_BROADCAST : Z := 0xffffffff.
Definition APP_ADDR_MULTICAST : Z := 0x80000000.

(** The result codes of the application configuration. *)
Definition APP_LIB_DATA_APP_CONFIG_RES_SUCCESS : Z := 0.
Definition APP_LIB_DATA_APP_CONFIG_RES_INVALID_ROLE : Z := 1.
Definition APP_LIB_DATA_APP_CONFIG_RES_INVALID_APP_CONFIG : Z := 2.
Definition APP_LIB_DATA_APP_CONFIG_RES_INVALID_SEQ : Z := 3.
Definition APP_LIB_DATA_APP_CONFIG_RES_INVALID_INTERVAL : Z := 4.
Definition APP_LIB_DATA_APP_CONFIG_RES_INVALID_NULL_POINTER : Z := 5.
Definition APP_LIB_DATA_MAX_APP_CONFIG_NUM_BYTES : nat := 80.

(** ** [api/wms_state.h] *)

Definition APP_LIB_STATE_STARTED : Z := 0.
Definition APP_LIB_STATE_ROUTE_STATE_VALID : Z := 2.
Definition APP_LIB_STATE_NEIGHBOR_IS_NEXT_HOP : Z := 0.
Definition APP_LIB_STATE_NEIGHBOR_IS_MEMBER : Z := 1.

(** The fields that the dual-MCU library reads. *)
Record app_lib_state_nbor_info_t := {
  nb_address : Z;
  nb_last_update : Z;
  nb_link_reliability : Z;
  nb_norm_rssi : Z;
  nb_cost : Z;
  nb_channel : Z;
  nb_type : Z;
  nb_tx_power : Z;
  nb_rx_power : Z }.

(** ** [api/wms_otap.h] *)

Definition APP_LIB_OTAP_WRITE_RES_OK : Z := 0.
Definition APP_LIB_OTAP_WRITE_RES_COMPLETED_OK : Z := 1.
Definition APP_LIB_OTAP_WRITE_RES_COMPLETED_ERROR : Z := 2.
Definition APP_LIB_OTAP_WRITE_RES_NOT_ONGOING : Z := 3.
Definition APP_LIB_OTAP_WRITE_RES_INVALID_START : Z := 4.
Definition APP_LIB_OTAP_WRITE_RES_INVALID_NUM_BYTES : Z := 5.
Definition APP_LIB_OTAP_WRITE_RES_INVALID_HEADER : Z := 6.
Definition APP_LIB_OTAP_WRITE_RES_INVALID_NULL_BYTES : Z := 7.
