(* ===== verification/WapsFrames.v ===== *)
(** * WAPS frames and items

    What the dual-MCU components share: the function codes
    ([waps/sap/function_codes]), the frame layout ([waps/waps_frames.h] and the
    packed structures of [waps/sap]), the items that carry frames
    ([waps/waps_item.h]) and the address mapping ([waps/waddr.c]). *)

From S2P Require Import Prelude WapsUart Api.

(** ** Function codes *)

Definition WAPS_FUNC_DSAP_DATA_TX_REQ : Z := 0x01.
Definition WAPS_FUNC_DSAP_DATA_TX_IND : Z := 0x02.
Definition WAPS_FUNC_DSAP_DATA_RX_IND : Z := 0x03.
Definition WAPS_FUNC_DSAP_DATA_TX_FRAG_REQ : Z := 0x0F.
Definition WAPS_FUNC_DSAP_DATA_RX_FRAG_IND : Z := 0x10.
Definition WAPS_FUNC_DSAP_DATA_TX_TT_REQ : Z := 0x1F.
Definition WAPS_FUNC_MSAP_INDICATION_POLL_CNF : Z := 0x84.
Definition WAPS_FUNC_MSAP_APP_CONFIG_RX_IND : Z := 0x3F.
Definition WAPS_FUNC_MSAP_SCAN_NBORS_IND : Z := 0x22.
Definition WAPS_FUNC_MSAP_INDICATION_POLL_REQ : Z := 0x04.
Definition WAPS_FUNC_MSAP_STACK_START_REQ : Z := 0x05.
Definition WAPS_FUNC_MSAP_STACK_START_CNF : Z := 0x85.
Definition WAPS_FUNC_MSAP_STACK_STOP_REQ : Z := 0x06.
Definition WAPS_FUNC_MSAP_STACK_STOP_CNF : Z := 0x86.
Definition WAPS_FUNC_MSAP_ATTR_WRITE_REQ : Z := 0x0B.
Definition WAPS_FUNC_MSAP_ATTR_WRITE_CNF : Z := 0x8B.
Definition WAPS_FUNC_MSAP_ATTR_READ_REQ : Z := 0x0C.
Definition WAPS_FUNC_MSAP_ATTR_READ_CNF : Z := 0x8C.
Definition WAPS_FUNC_MSAP_SCRATCHPAD_START_REQ : Z := 0x17.
Definition WAPS_FUNC_MSAP_SCRATCHPAD_START_CNF : Z := 0x97.
Definition WAPS_FUNC_MSAP_SCRATCHPAD_BLOCK_REQ : Z := 0x18.
Definition WAPS_FUNC_MSAP_SCRATCHPAD_BLOCK_CNF : Z := 0x98.
Definition WAPS_FUNC_MSAP_SCRATCHPAD_STATUS_REQ : Z := 0x19.
Definition WAPS_FUNC_MSAP_SCRATCHPAD_STATUS_CNF : Z := 0x99.
Definition WAPS_FUNC_MSAP_SCRATCHPAD_BOOTABLE_REQ : Z := 0x1A.
Definition WAPS_FUNC_MSAP_SCRATCHPAD_BOOTABLE_CNF : Z := 0x9A.
Definition WAPS_FUNC_MSAP_SCRATCHPAD_CLEAR_REQ : Z := 0x1B.
Definition WAPS_FUNC_MSAP_SCRATCHPAD_CLEAR_CNF : Z := 0x9B.
Definition WAPS_FUNC_MSAP_REMOTE_STATUS_REQ : Z := 0x1C.
Definition WAPS_FUNC_MSAP_REMOTE_STATUS_CNF : Z := 0x9C.
Definition WAPS_FUNC_MSAP_REMOTE_UPDATE_REQ : Z := 0x1E.
Definition WAPS_FUNC_MSAP_REMOTE_UPDATE_CNF : Z := 0x9E.
Definition WAPS_FUNC_MSAP_GET_NBORS_REQ : Z := 0x20.
Definition WAPS_FUNC_MSAP_GET_NBORS_CNF : Z := 0xA0.
Definition WAPS_FUNC_MSAP_SCAN_NBORS_REQ : Z := 0x21.
Definition WAPS_FUNC_MSAP_SCAN_NBORS_CNF : Z := 0xA1.
Definition WAPS_FUNC_MSAP_GET_INSTALL_QUALITY_REQ : Z := 0x23.
Definition WAPS_FUNC_MSAP_GET_INSTALL_QUALITY_CNF : Z := 0xA3.
Definition WAPS_FUNC_MSAP_SCRATCHPAD_TARGET_WRITE_REQ : Z := 0x26.
Definition WAPS_FUNC_MSAP_SCRATCHPAD_TARGET_WRITE_CNF : Z := 0xA6.
Definition WAPS_FUNC_MSAP_SCRATCHPAD_TARGET_READ_REQ : Z := 0x27.
Definition WAPS_FUNC_MSAP_SCRATCHPAD_TARGET_READ_CNF : Z := 0xA7.
Definition WAPS_FUNC_MSAP_SCRATCHPAD_BLOCK_READ_REQ : Z := 0x28.
Definition WAPS_FUNC_MSAP_SCRATCHPAD_BLOCK_READ_CNF : Z := 0xA8.
Definition WAPS_FUNC_MSAP_SINK_COST_WRITE_REQ : Z := 0x38.
Definition WAPS_FUNC_MSAP_SINK_COST_WRITE_CNF : Z := 0xB8.
Definition WAPS_FUNC_MSAP_SINK_COST_READ_REQ : Z := 0x39.
Definition WAPS_FUNC_MSAP_SINK_COST_READ_CNF : Z := 0xB9.
Definition WAPS_FUNC_MSAP_APP_CONFIG_WRITE_REQ : Z := 0x3A.
Definition WAPS_FUNC_MSAP_APP_CONFIG_WRITE_CNF : Z := 0xBA.
Definition WAPS_FUNC_MSAP_APP_CONFIG_READ_REQ : Z := 0x3B.
Definition WAPS_FUNC_MSAP_APP_CONFIG_READ_CNF : Z := 0xBB.
Definition WAPS_FUNC_MSAP_STACK_SLEEP_REQ : Z := 0x40.
Definition WAPS_FUNC_MSAP_STACK_SLEEP_REQ_CNF : Z := 0xC0.
Definition WAPS_FUNC_MSAP_STACK_SLEEP_STOP_REQ : Z := 0x41.
Definition WAPS_FUNC_MSAP_STACK_SLEEP_STOP_CNF : Z := 0xC1.
Definition WAPS_FUNC_MSAP_STACK_SLEEP_STATE_GET_REQ : Z := 0x42.
Definition WAPS_FUNC_MSAP_STACK_SLEEP_STATE_GET_RSP : Z := 0xC2.
Definition WAPS_FUNC_MSAP_STACK_SLEEP_GOTOSLEEPINFO_REQ : Z := 0x4C.
Definition WAPS_FUNC_MSAP_STACK_SLEEP_GOTOSLEEPINFO_RSP : Z := 0xCC.
Definition WAPS_FUNC_MSAP_MAX_MSG_QUEUEING_TIME_WRITE_REQ : Z := 0x4F.
Definition WAPS_FUNC_MSAP_MAX_MSG_QUEUEING_TIME_WRITE_CNF : Z := 0xCF.
Definition WAPS_FUNC_MSAP_MAX_MSG_QUEUEING_TIME_READ_REQ : Z := 0x50.
Definition WAPS_FUNC_MSAP_MAX_MSG_QUEUEING_TIME_READ_CNF : Z := 0xD0.
Definition WAPS_FUNC_CSAP_ATTR_WRITE_REQ : Z := 0x0D.
Definition WAPS_FUNC_CSAP_ATTR_WRITE_CNF : Z := 0x8D.
Definition WAPS_FUNC_CSAP_ATTR_READ_REQ : Z := 0x0E.
Definition WAPS_FUNC_CSAP_ATTR_READ_CNF : Z := 0x8E.
Definition WAPS_FUNC_CSAP_FACTORY_RESET_REQ : Z := 0x16.
Definition WAPS_FUNC_CSAP_FACTORY_RESET_CNF : Z := 0x96.

(** The tables, in the order of the macros. *)
Definition DSAP_REQUESTS : list Z := [0x01; 0x1F; 0x0F].
Definition MSAP_REQUESTS : list Z :=
  [0x04; 0x05; 0x06; 0x0B; 0x0C; 0x17; 0x18; 0x19; 0x1A; 0x1B; 0x1C; 0x1E; 0x20; 0x21; 0x23;
   0x38; 0x39; 0x3A; 0x3B; 0x40; 0x41; 0x42; 0x4C; 0x4F; 0x50; 0x27; 0x26; 0x28].
Definition CSAP_REQUESTS : list Z := [0x0D; 0x0E; 0x16].
Definition WAPS_CONFIRMATIONS : list Z :=
  [0x81; 0x8F; 0x84; 0x85; 0x86; 0xBA; 0xBB; 0x8B; 0x8C; 0xA0; 0xA1; 0xA3; 0xB8; 0xB9; 0x8D; 0x8E;
   0x96; 0x97; 0x98; 0x99; 0x9A; 0x9B; 0x9C; 0x9E; 0x9F; 0xBA; 0xBB; 0xC0; 0xC1; 0xCF; 0xD0; 0xA7;
   0xA6; 0xA8].
Definition WAPS_INDICATIONS : list Z := [0x02; 0x10; 0x03; 0x07; 0x3F; 0x1D; 0x22].
Definition WAPS_RESPONSES : list Z := [0x82; 0x90; 0x83; 0x87; 0xBF; 0x9D; 0xA2; 0xC2; 0xCC].

Fixpoint find (array : list Z) (value : Z) : bool :=
  match array with
  | [] => false
  | x :: array => if x =? value then true else find array value
  end.

Definition WapsFunc_isDsapRequest (func : Z) : bool := find DSAP_REQUESTS func.
Definition WapsFunc_isMsapRequest (func : Z) : bool := find MSAP_REQUESTS func.
Definition WapsFunc_isCsapRequest (func : Z) : bool := find CSAP_REQUESTS func.
Definition WapsFunc_isRequest (func : Z) : bool :=
  WapsFunc_isDsapRequest func || WapsFunc_isMsapRequest func || WapsFunc_isCsapRequest func.
Definition WapsFunc_isConfirmation (func : Z) : bool := find WAPS_CONFIRMATIONS func.
Definition WapsFunc_isIndication (func : Z) : bool := find WAPS_INDICATIONS func.
Definition WapsFunc_isResponse (func : Z) : bool := find WAPS_RESPONSES func.

Lemma find_spec l v : find l v = true <-> v ∈ l.
Proof.
  induction l as [|x l IH]; cbn; [set_solver|]. destruct (Z.eqb_spec x v); set_solver.
Qed.

(** ** Frames

    A frame is its buffer of [WAPS_MAX_FRAME_LENGTH] bytes: function, frame
    id and payload length, then the payload.  [pld off n] is the [n]-byte
    little-endian field at payload offset [off]. *)

Abbreviation frame := (list Z).

Definition HEADER : nat := Uart.WAPS_MIN_FRAME_LENGTH.
Definition FRAME_SIZE : nat := Uart.WAPS_MAX_FRAME_LENGTH.

Definition sfunc (f : frame) : Z := field 0 1 f.
Definition sfid (f : frame) : Z := field 1 1 f.
Definition splen (f : frame) : Z := field 2 1 f.
Definition pld (off n : nat) (f : frame) : Z := field (HEADER + off) n f.
Definition set_sfunc (v : Z) (f : frame) : frame := set_field 0 1 v f.
Definition set_sfid (v : Z) (f : frame) : frame := set_field 1 1 v f.
Definition set_splen (v : Z) (f : frame) : frame := set_field 2 1 v f.
Definition set_pld (off n : nat) (v : Z) (f : frame) : frame := set_field (HEADER + off) n v f.
Definition pld_bytes (off n : nat) (f : frame) : list Z := slice (HEADER + off) n f.
Definition set_pld_bytes (off : nat) (bs : list Z) (f : frame) : frame := blit (HEADER + off) bs f.

Definition wf_frame (f : frame) : Prop := length f = FRAME_SIZE /\ bytes f.

(** ** Attribute frames: [waps/sap/attribute_frames.h] *)

Definition ATTR_SUCCESS : Z := 0.
Definition ATTR_UNSUPPORTED_ATTRIBUTE : Z := 1.
Definition ATTR_INVALID_STACK_STATE : Z := 2.
Definition ATTR_INV_LENGTH : Z := 3.
Definition ATTR_INV_VALUE : Z := 4.
Definition ATTR_WRITE_ONLY : Z := 5.
Definition ATTR_ACCESS_DENIED : Z := 6.

Definition WAPS_MAX_ATTR_LEN : Z := 16.
Definition FRAME_READ_CNF_HEADER_SIZE : Z := 4.
Definition FRAME_WRITE_REQ_HEADER_SIZE : Z := 3.

(** [sizeof] of [read_req_t] and [simple_cnf_t] *)
Definition READ_REQ_SIZE : Z := 2.
Definition SIMPLE_CNF_SIZE : Z := 1.

(** ** Items *)

(** The functions installed as [pre_cb] and [post_cb]. *)
Inductive waps_pre_tx_cb := update_packet_delay | updateIndicationCount | updateTime.
Inductive waps_post_tx_cb := reboot_callback.

Record waps_item_t := {
  time : Z;
  pre_cb : option waps_pre_tx_cb;
  post_cb : option waps_post_tx_cb;
  item_frame : frame }.

Definition with_frame (f : frame) (i : waps_item_t) : waps_item_t :=
  {| time := time i; pre_cb := pre_cb i; post_cb := post_cb i; item_frame := f |}.
Definition with_time (t : Z) (i : waps_item_t) : waps_item_t :=
  {| time := t; pre_cb := pre_cb i; post_cb := post_cb i; item_frame := item_frame i |}.
Definition with_cbs (pre : option waps_pre_tx_cb) (post : option waps_post_tx_cb) (i : waps_item_t)
    : waps_item_t :=
  {| time := time i; pre_cb := pre; post_cb := post; item_frame := item_frame i |}.

Definition on_frame (g : frame -> frame) (i : waps_item_t) : waps_item_t := with_frame (g (item_frame i)) i.

Definition Waps_item_init (func len : Z) (i : waps_item_t) : waps_item_t :=
  on_frame (fun f => set_splen len (set_sfunc func f)) (with_cbs None None i).

Definition wf_item (i : waps_item_t) : Prop := wf_frame (item_frame i).

(** ** Field lemmas *)

Lemma field1_range off f : bytes f -> (off < length f)%nat -> 0 <= field off 1 f < 256.
Proof. intros Hb Hl. apply (field_range off 1 f Hb). lia. Qed.

Lemma wf_set_field off n v f : wf_frame f -> wf_frame (set_field off n v f).
Proof. intros [Hl Hb]. split; [by rewrite length_set_field|by apply set_field_bytes]. Qed.

Lemma wf_blit off bs f : bytes bs -> wf_frame f -> wf_frame (blit off bs f).
Proof. intros Hbs [Hl Hb]. split; [by rewrite length_blit|by apply blit_bytes]. Qed.

Lemma wf_item_init func len i : wf_item i -> wf_item (Waps_item_init func len i).
Proof. intros H. apply (wf_set_field 2 1 len), (wf_set_field 0 1 func). exact H. Qed.

(** An item with the request [func], [payload]. *)
Definition request (func : Z) (payload : list Z) : waps_item_t :=
  {| time := 0; pre_cb := None; post_cb := None;
     item_frame := [func; 1; Z.of_nat (length payload)] ++ payload ++ repeat 0 (123 - length payload) |}.

Lemma request_wf func payload :
  is_u8 func -> bytes payload -> (length payload <= 123)%nat -> wf_item (request func payload).
Proof.
  intros Hf Hb Hl. split.
  - cbn [item_frame request app length]. rewrite length_app, repeat_length.
    unfold FRAME_SIZE. cbn. lia.
  - repeat (apply Forall_cons; split; [first [done | unfold fits; lia]|]).
    apply Forall_app. split; [done|]. by apply bytes_repeat.
Qed.

#[export] Hint Resolve wf_set_field wf_blit wf_item_init : words.

(** Reading a field back from a chain of field updates. *)
Lemma field_same off n v f :
  (off + n <= length f)%nat -> field off n (set_field off n v f) = uwrap (8 * Z.of_nat n) v.
Proof. apply field_set_field. Qed.

Ltac frame_unfold :=
  unfold sfunc, sfid, splen, pld, set_sfunc, set_sfid, set_splen, set_pld, pld_bytes, set_pld_bytes,
    HEADER, Uart.WAPS_MIN_FRAME_LENGTH in *; cbn [Nat.add] in *.

Ltac frame_read :=
  repeat first
    [ rewrite field_same by (rewrite ?length_set_field, ?length_blit; lia)
    | rewrite field_set_field_disj by lia
    | rewrite field_blit_disj by lia
    | rewrite uwrap_small by (unfold fits; lia) ].

(** ** Well-sized items *)

Definition sized (x : waps_item_t) : Prop := wf_item x /\ splen (item_frame x) <= 123.

Lemma sized_pld off n v x : sized x -> sized (on_frame (set_pld off n v) x).
Proof.
  intros [Hwf Hs]. split; [by apply wf_set_field|]. cbn [item_frame on_frame with_frame].
  frame_unfold. by rewrite field_set_field_disj by lia.
Qed.

Lemma sized_bytes off bs x : bytes bs -> sized x -> sized (on_frame (set_pld_bytes off bs) x).
Proof.
  intros Hb [Hwf Hs]. split; [by apply wf_blit|]. cbn [item_frame on_frame with_frame].
  frame_unfold. by rewrite field_blit_disj by lia.
Qed.

Lemma sized_sfid v x : sized x -> sized (on_frame (set_sfid v) x).
Proof.
  intros [Hwf Hs]. split; [by apply wf_set_field|]. cbn [item_frame on_frame with_frame].
  frame_unfold. by rewrite field_set_field_disj by lia.
Qed.

Lemma sized_time t x : sized x -> sized (with_time t x).
Proof. done. Qed.

Lemma sized_cbs a b x : sized x -> sized (with_cbs a b x).
Proof. done. Qed.

Lemma splen_init func len x :
  wf_item x -> is_u8 len -> splen (item_frame (Waps_item_init func len x)) = len.
Proof.
  intros [Hl _] Hlen. change FRAME_SIZE with 126%nat in Hl.
  cbn [item_frame on_frame with_frame Waps_item_init with_cbs]. frame_unfold.
  rewrite field_same by (rewrite length_set_field; lia). by apply uwrap_small.
Qed.

Lemma sized_init func len x : wf_item x -> 0 <= len <= 123 -> sized (Waps_item_init func len x).
Proof.
  intros Hwf Hlen. split; [by apply wf_item_init|]. rewrite splen_init; [lia|done|unfold fits; lia].
Qed.

Lemma on_frame_comp g h x : on_frame (fun f => g (h f)) x = on_frame g (on_frame h x).
Proof. done. Qed.

#[export] Hint Resolve sized_pld sized_bytes sized_sfid sized_time sized_cbs : sized.

(** ** Addresses *)

Definition WADDR_BCAST : Z := u32 (-1).
Definition WADDR_ANYSINK : Z := u32 (-2).

Definition Waddr_to_Addr (waddr : Z) : Z :=
  if waddr =? WADDR_BCAST then APP_ADDR_BROADCAST
  else if (waddr =? 0) || (waddr =? WADDR_ANYSINK) then APP_ADDR_ANYSINK
  else waddr.

Definition Addr_to_Waddr (app_addr : Z) : Z :=
  if app_addr =? APP_ADDR_BROADCAST then WADDR_BCAST
  else if app_addr =? APP_ADDR_ANYSINK then WADDR_ANYSINK
  else app_addr.

Lemma addr_plain a : a <> 4294967295 -> a <> 4294967294 -> Addr_to_Waddr a = a.
Proof.
  intros H1 H2. unfold Addr_to_Waddr, APP_ADDR_BROADCAST, APP_ADDR_ANYSINK.
  by rewrite (proj2 (Z.eqb_neq _ _) H1), (proj2 (Z.eqb_neq _ _) H2).
Qed.

Lemma waddr_plain a : a <> 0 -> a <> 4294967295 -> a <> 4294967294 -> Waddr_to_Addr a = a.
Proof.
  intros H0 H1 H2. unfold Waddr_to_Addr. change WADDR_BCAST with 4294967295.
  change WADDR_ANYSINK with 4294967294.
  by rewrite (proj2 (Z.eqb_neq _ _) H0), (proj2 (Z.eqb_neq _ _) H1), (proj2 (Z.eqb_neq _ _) H2).
Qed.

Lemma addr_there_back a :
  is_u32 a -> Waddr_to_Addr (Addr_to_Waddr a) = if a =? 0 then APP_ADDR_ANYSINK else a.
Proof.
  intros Ha. destruct (Z.eqb_spec a 4294967295) as [->|H1]; [done|].
  destruct (Z.eqb_spec a 4294967294) as [->|H2]; [done|].
  destruct (Z.eqb_spec a 0) as [->|H0]; [done|]. by rewrite (addr_plain a), (waddr_plain a) by done.
Qed.

Lemma waddr_there_back a :
  is_u32 a -> Addr_to_Waddr (Waddr_to_Addr a) = if a =? 0 then WADDR_ANYSINK else a.
Proof.
  intros Ha. destruct (Z.eqb_spec a 4294967295) as [->|H1]; [done|].
  destruct (Z.eqb_spec a 4294967294) as [->|H2]; [done|].
  destruct (Z.eqb_spec a 0) as [->|H0]; [done|]. by rewrite (waddr_plain a), (addr_plain a) by done.
Qed.

(** the address mapping loses nothing but the legacy any-sink address 0. *)
Theorem waddr_roundtrip a :
  is_u32 a ->
  Waddr_to_Addr (Addr_to_Waddr a) = (if a =? 0 then APP_ADDR_ANYSINK else a) /\
  Addr_to_Waddr (Waddr_to_Addr a) = (if a =? 0 then WADDR_ANYSINK else a) /\
  is_u32 (Waddr_to_Addr a) /\ is_u32 (Addr_to_Waddr a).
Proof.
  intros Ha. split; [by apply addr_there_back|]. split; [by apply waddr_there_back|].
  unfold Waddr_to_Addr, Addr_to_Waddr. split; by repeat case_match.
Qed.

Lemma waddr_roundtrip_witness :
  Waddr_to_Addr (Addr_to_Waddr 0x80000012) = 0x80000012 /\ Waddr_to_Addr (Addr_to_Waddr 0) = 0xfffffffe.
Proof.
  split; [exact (proj1 (waddr_roundtrip 0x80000012 ltac:(by vm_compute)))|
          exact (proj1 (waddr_roundtrip 0 ltac:(by vm_compute)))].
Defined.

(** The facts about one function code, as a test. *)
Definition code_check (func : Z) : bool :=
  implb (WapsFunc_isRequest func) (negb (WapsFunc_isConfirmation func) &&
    negb (WapsFunc_isIndication func) && negb (WapsFunc_isResponse func) && (func <? 0x80)) &&
  implb (WapsFunc_isIndication func) (WapsFunc_isResponse (Z.lor func 0x80) && (func <? 0x80)) &&
  implb (WapsFunc_isConfirmation func) (negb (WapsFunc_isResponse func) &&
    WapsFunc_isRequest (Z.land func 0x7F)) &&
  negb (WapsFunc_isDsapRequest func && WapsFunc_isMsapRequest func) &&
  negb (WapsFunc_isDsapRequest func && WapsFunc_isCsapRequest func) &&
  negb (WapsFunc_isMsapRequest func && WapsFunc_isCsapRequest func).

Lemma code_checks : all_bytes code_check = true.
Proof. by vm_compute. Qed.

(** no function code has two roles: requests and indications are below
    0x80, each belongs to one service, each indication has its response and
    each confirmation answers a request. *)
Theorem function_codes_disjoint func :
  is_u8 func ->
  (WapsFunc_isRequest func = true -> WapsFunc_isConfirmation func = false /\
    WapsFunc_isIndication func = false /\ WapsFunc_isResponse func = false /\ func < 0x80) /\
  (WapsFunc_isIndication func = true -> WapsFunc_isResponse (Z.lor func 0x80) = true /\ func < 0x80) /\
  (WapsFunc_isConfirmation func = true -> WapsFunc_isResponse func = false /\
    WapsFunc_isRequest (Z.land func 0x7F) = true) /\
  (WapsFunc_isDsapRequest func && WapsFunc_isMsapRequest func = false) /\
  (WapsFunc_isDsapRequest func && WapsFunc_isCsapRequest func = false) /\
  (WapsFunc_isMsapRequest func && WapsFunc_isCsapRequest func = false).
Proof.
  intros Hf. pose proof (all_bytes_spec code_check func code_checks Hf) as H. unfold code_check in H.
  rewrite !andb_true_iff, !negb_true_iff in H.
  destruct H as (((((H1 & H2) & H3) & H4) & H5) & H6). split_and!; try done.
  - intros E. rewrite E in H1. cbn in H1. rewrite !andb_true_iff, !negb_true_iff in H1.
    destruct H1 as (((? & ?) & ?) & ?%Z.ltb_lt). done.
  - intros E. rewrite E in H2. cbn in H2. apply andb_true_iff in H2 as [? ?%Z.ltb_lt]. done.
  - intros E. rewrite E in H3. cbn in H3. apply andb_true_iff in H3 as [?%negb_true_iff ?]. done.
Qed.

Lemma function_codes_disjoint_witness :
  WapsFunc_isResponse (Z.lor WAPS_FUNC_DSAP_DATA_RX_IND 0x80) = true.
Proof.
  exact (proj1 (proj1 (proj2 (function_codes_disjoint WAPS_FUNC_DSAP_DATA_RX_IND ltac:(by vm_compute)))
    eq_refl)).
Defined.
