(* ===== verification/WapsServices.v ===== *)
(** * Services under the access points

    [Module LockBits] is [waps/sap/lock_bits.c], [Module Persistent] is
    [waps/sap/persistent.c] and [Module Multicast] is [waps/sap/multicast.c].
    The stack's settings and storage libraries are records of functions over a
    world [W]; the laws of the storage that the round trips need are a class. *)

From S2P Require Import Prelude Api WapsFrames.

Module LockBits.

(** The part of [lib_settings] that guards features.  [getFeatureLockKey] is
    called with [NULL]; [getFeatureLockBits] gets the old content of the
    variable it may set. *)
Record locks (W : Type) := {
  getFeatureLockKey : st W Z;
  getFeatureLockBits : Z -> st W (Z * Z) }.

Arguments getFeatureLockKey {W}. Arguments getFeatureLockBits {W}.

Definition LOCK_BITS_DSAP_DATA_TX : Z := 0x00000001.
Definition LOCK_BITS_MSAP_STACK_START : Z := 0x00000004.
Definition LOCK_BITS_MSAP_STACK_STOP : Z := 0x00000008.
Definition LOCK_BITS_MSAP_APP_CONFIG_WRITE : Z := 0x00000010.
Definition LOCK_BITS_MSAP_APP_CONFIG_READ : Z := 0x00000020.
Definition LOCK_BITS_MSAP_ATTR_WRITE : Z := 0x00000040.
Definition LOCK_BITS_MSAP_ATTR_READ : Z := 0x00000080.
Definition LOCK_BITS_CSAP_ATTR_WRITE : Z := 0x00000100.
Definition LOCK_BITS_CSAP_ATTR_READ : Z := 0x00000200.
Definition LOCK_BITS_CSAP_FACTORY_RESET : Z := 0x00001000.
Definition LOCK_BITS_MSAP_SCRATCHPAD_START : Z := 0x00002000.
Definition LOCK_BITS_MSAP_SCRATCHPAD_STATUS : Z := 0x00008000.
Definition LOCK_BITS_MSAP_GET_NBORS : Z := 0x00200000.
Definition LOCK_BITS_MSAP_SCAN_NBORS : Z := 0x00400000.
Definition LOCK_BITS_MSAP_SINK_COST_WRITE : Z := 0x02000000.
Definition LOCK_BITS_MSAP_SINK_COST_READ : Z := 0x04000000.

Section LockBits.
Context {W : Type} (lib : locks W).

Definition LockBits_isKeySet : st W bool :=
  r ← getFeatureLockKey lib; mret (r =? APP_RES_OK).

Definition LockBits_isFeaturePermitted (lock_bits : Z) : st W bool :=
  set ← LockBits_isKeySet;
  if negb set then mret true
  else
    r ← getFeatureLockBits lib 0xffffffff;
    mret (Z.land r.2 lock_bits =? lock_bits).

(** The settings are read without changing the world. *)
Class Stable (key : W -> Z) (lock : W -> Z * Z) : Prop := {
  stable_key w : getFeatureLockKey lib w = (key w, w);
  stable_bits old w : getFeatureLockBits lib old w = (lock w, w) }.

Lemma isKeySet_spec key lock `{!Stable key lock} w :
  LockBits_isKeySet w = (key w =? APP_RES_OK, w).
Proof. unfold LockBits_isKeySet, mbind, st_bind. by rewrite stable_key. Qed.

(** A feature is permitted when no key is set or all of its bits are. *)
Definition permitted (key : W -> Z) (lock : W -> Z * Z) (w : W) (bits : Z) : bool :=
  negb (key w =? APP_RES_OK) || (Z.land (lock w).2 bits =? bits).

Lemma isFeaturePermitted_spec key lock `{!Stable key lock} w bits :
  LockBits_isFeaturePermitted bits w = (permitted key lock w bits, w).
Proof.
  unfold LockBits_isFeaturePermitted, mbind, st_bind. rewrite (isKeySet_spec key lock).
  unfold permitted. destruct (key w =? APP_RES_OK); cbn; [|done]. by rewrite stable_bits.
Qed.

End LockBits.
End LockBits.

Definition MULTICAST_ADDRESS_AMOUNT : nat := 10.
Definition GROUP_ADDR_SIZE : nat := 3.

Module Persistent.

Definition GROUPS_SIZE : nat := MULTICAST_ADDRESS_AMOUNT * GROUP_ADDR_SIZE.

(** [sizeof(persistent_area_t)]: the flags, then the groups. *)
Definition IMAGE_SIZE : nat := 1 + GROUPS_SIZE.

(** [readPersistent] gets the old content of the buffer it fills and the number
    of bytes to read. *)
Record lib_storage (W : Type) := {
  readPersistent : list Z -> nat -> W -> (Z * list Z) * W;
  writePersistent : list Z -> W -> Z * W }.

Arguments readPersistent {W}. Arguments writePersistent {W}.

Record state (W : Type) := { m_persistent_image : list Z; world : W }.
Arguments m_persistent_image {W}. Arguments world {W}. Arguments Build_state {W}.

Section Persistent.
Context {W : Type} (lib : lib_storage W).

Abbreviation M := (st (state W)).

Definition update_image : M Z := fun s =>
  let '((r, img), w) := readPersistent lib (m_persistent_image s) IMAGE_SIZE (world s) in
  (r, Build_state img w).

Definition write_image : M Z := fun s =>
  let '(r, w) := writePersistent lib (m_persistent_image s) (world s) in
  (r, Build_state (m_persistent_image s) w).

Definition flags (s : state W) : Z := field 0 1 (m_persistent_image s).

Definition set_image (f : list Z -> list Z) : M unit :=
  modify (fun s => Build_state (f (m_persistent_image s)) (world s)).

(** The bit fields [autostart] and [firstboot] of the first byte. *)
Definition set_bit (n : Z) (b : bool) (img : list Z) : list Z :=
  let v := field 0 1 img in
  set_field 0 1 (if b then Z.setbit v n else Z.clearbit v n) img.

Definition get_bit (n : Z) (s : state W) : bool := Z.testbit (flags s) n.

Definition Persistent_init : M unit :=
  _ ← update_image;
  f ← gets flags;
  if f =? 0xFF then _ ← set_image (set_field 0 1 0); _ ← write_image; mret tt
  else mret tt.

Definition Persistent_getAutostart : M (Z * bool) :=
  r ← update_image; b ← gets (get_bit 0); mret (r, b).

Definition write_if_ok (r : Z) : M Z := if r =? APP_RES_OK then write_image else mret r.

Definition Persistent_setAutostart (autostart : bool) : M Z :=
  r ← update_image; _ ← set_image (set_bit 0 autostart); write_if_ok r.

Definition Persistent_isFirstboot : M (Z * bool) :=
  r ← update_image; b ← gets (get_bit 1); mret (r, negb b).

Definition Persistent_setFirstboot (firstboot : bool) : M Z :=
  r ← update_image; _ ← set_image (set_bit 1 (negb firstboot)); write_if_ok r.

Definition Persistent_getGroups : M (Z * list Z) :=
  r ← update_image; img ← gets m_persistent_image; mret (r, slice 1 GROUPS_SIZE img).

Definition Persistent_setGroups (addr : list Z) : M Z :=
  r ← update_image; _ ← set_image (blit 1 addr); write_if_ok r.

(** A storage that works: reading gives what was written last. *)
Class StorageWorks (stored : W -> list Z) : Prop := {
  works_size w : length (stored w) = IMAGE_SIZE;
  works_bytes w : bytes (stored w);
  works_read old n w : (n <= IMAGE_SIZE)%nat ->
    readPersistent lib old n w = ((APP_RES_OK, take n (stored w)), w);
  works_write img w : length img = IMAGE_SIZE -> bytes img ->
    exists w', writePersistent lib img w = (APP_RES_OK, w') /\ stored w' = img }.

Context (stored : W -> list Z) `{!StorageWorks stored}.

Lemma update_image_spec s : update_image s = (APP_RES_OK, Build_state (stored (world s)) (world s)).
Proof.
  unfold update_image. rewrite works_read by done. by rewrite take_ge by by rewrite works_size.
Qed.

Lemma get_spec {A} (f : list Z -> A) s :
  (r ← update_image; x ← gets (fun s => f (m_persistent_image s)); mret (r, x)) s =
    ((APP_RES_OK, f (stored (world s))), Build_state (stored (world s)) (world s)).
Proof. unfold mbind, st_bind. by rewrite update_image_spec. Qed.

Lemma getGroups_spec s :
  Persistent_getGroups s =
    ((APP_RES_OK, slice 1 GROUPS_SIZE (stored (world s))), Build_state (stored (world s)) (world s)).
Proof. unfold Persistent_getGroups, mbind, st_bind. by rewrite update_image_spec. Qed.

Lemma set_spec (f : list Z -> list Z) s :
  (forall img, length img = IMAGE_SIZE -> bytes img -> length (f img) = IMAGE_SIZE /\ bytes (f img)) ->
  exists s', (r ← update_image; _ ← set_image f; write_if_ok r) s = (APP_RES_OK, s') /\
    stored (world s') = f (stored (world s)).
Proof.
  intros Hf. unfold mbind, st_bind. rewrite update_image_spec. cbn.
  destruct (Hf (stored (world s)) (works_size _) (works_bytes _)) as [Hl Hb].
  destruct (works_write (f (stored (world s))) (world s) Hl Hb) as (w' & Ew & Es).
  unfold write_if_ok, write_image. cbn. rewrite Ew. eauto.
Qed.

Lemma set_bit_wf n b img :
  length img = IMAGE_SIZE -> bytes img -> length (set_bit n b img) = IMAGE_SIZE /\ bytes (set_bit n b img).
Proof. intros. unfold set_bit. split; [by rewrite length_set_field|by apply set_field_bytes]. Qed.

Lemma blit_groups_wf addr img :
  bytes addr -> length img = IMAGE_SIZE -> bytes img ->
  length (blit 1 addr img) = IMAGE_SIZE /\ bytes (blit 1 addr img).
Proof. intros. split; [by rewrite length_blit|by apply blit_bytes]. Qed.

Lemma image_u8 img : length img = IMAGE_SIZE -> bytes img -> is_u8 (field 0 1 img).
Proof. intros Hl Hb. apply (field_range 0 1 img Hb). rewrite Hl. unfold IMAGE_SIZE. lia. Qed.

Lemma setbit_u8 v n : is_u8 v -> 0 <= n < 8 -> is_u8 (Z.setbit v n).
Proof.
  intros Hv Hn. rewrite Z.setbit_spec'. apply fits_lor; [lia|done|].
  split; [apply Z.pow_nonneg; lia|apply Z.pow_lt_mono_r; lia].
Qed.

Lemma clearbit_u8 v n : is_u8 v -> 0 <= n < 8 -> is_u8 (Z.clearbit v n).
Proof.
  intros Hv Hn. rewrite Z.clearbit_spec'.
  apply fits_of_bits; [lia|apply Z.ldiff_nonneg; left; apply Hv|]. intros i Hi. rewrite Z.ldiff_spec.
  by rewrite (fits_testbit 8 v i).
Qed.

(** The bits after one was set. *)
Lemma get_set_bit n m b img :
  length img = IMAGE_SIZE -> bytes img -> 0 <= n < 8 -> 0 <= m ->
  Z.testbit (field 0 1 (set_bit n b img)) m = if decide (n = m) then b else Z.testbit (field 0 1 img) m.
Proof.
  intros Hl Hb Hn Hm. pose proof (image_u8 img Hl Hb) as Hu. unfold set_bit.
  rewrite field_set_field by (rewrite Hl; unfold IMAGE_SIZE; lia). change (8 * Z.of_nat 1) with 8.
  destruct b; rewrite uwrap_small by auto using setbit_u8, clearbit_u8.
  - destruct (decide (n = m)) as [->|]; [by rewrite Z.setbit_eq by lia|by rewrite Z.setbit_neq by lia].
  - destruct (decide (n = m)) as [->|]; [by rewrite Z.clearbit_eq by lia|by rewrite Z.clearbit_neq by lia].
Qed.

Lemma groups_set_bit n b img : slice 1 GROUPS_SIZE (set_bit n b img) = slice 1 GROUPS_SIZE img.
Proof. apply slice_blit_disj. rewrite length_le_put. lia. Qed.

(** What the area says: autostart, first boot, groups. *)
Definition observe (s : state W) : bool * bool * list Z :=
  let img := stored (world s) in
  (Z.testbit (field 0 1 img) 0, negb (Z.testbit (field 0 1 img) 1), slice 1 GROUPS_SIZE img).

Lemma set_bit_spec n b s :
  0 <= n < 2 ->
  exists s', (r ← update_image; _ ← set_image (set_bit n b); write_if_ok r) s = (APP_RES_OK, s') /\
    observe s' = (if decide (n = 0) then b else (observe s).1.1,
                  if decide (n = 1) then negb b else (observe s).1.2, (observe s).2).
Proof.
  intros Hn. destruct (set_spec (set_bit n b) s) as (s' & E & Es).
  { intros. by apply set_bit_wf. }
  exists s'. split; [done|]. unfold observe. rewrite Es, groups_set_bit. cbn [fst snd].
  pose proof (works_size (world s)) as Hl. pose proof (works_bytes (world s)) as Hb.
  rewrite !get_set_bit by (done || lia). by repeat case_decide.
Qed.

(** over a storage that works, the three settings are independent: each
    getter returns what the last matching setter stored, whatever was set
    besides, and the first start after flashing reads as a first boot without
    autostart. *)
Theorem persistent_settings s b addr :
  length addr = GROUPS_SIZE -> bytes addr ->
  let '(auto, first, groups) := observe s in
  (Persistent_getAutostart s).1 = (APP_RES_OK, auto) /\
  (Persistent_isFirstboot s).1 = (APP_RES_OK, first) /\
  (Persistent_getGroups s).1 = (APP_RES_OK, groups) /\
  observe (Persistent_setAutostart b s).2 = (b, first, groups) /\
  observe (Persistent_setFirstboot b s).2 = (auto, b, groups) /\
  observe (Persistent_setGroups addr s).2 = (auto, first, addr) /\
  (field 0 1 (stored (world s)) = 0xFF -> observe (Persistent_init s).2 = (false, true, groups)) /\
  (field 0 1 (stored (world s)) <> 0xFF -> observe (Persistent_init s).2 = observe s).
Proof.
  intros Hl Hb. pose proof (works_size (world s)) as Hsz.
  pose proof (works_bytes (world s)) as Hby.
  unfold observe at 1. split_and!.
  - unfold Persistent_getAutostart. by rewrite (get_spec (fun img => Z.testbit (field 0 1 img) 0)).
  - unfold Persistent_isFirstboot, mbind, st_bind. by rewrite update_image_spec.
  - by rewrite getGroups_spec.
  - destruct (set_bit_spec 0 b s) as (s' & E & Eo); [lia|]. unfold Persistent_setAutostart.
    rewrite E. cbn [snd]. by rewrite Eo.
  - destruct (set_bit_spec 1 (negb b) s) as (s' & E & Eo); [lia|]. unfold Persistent_setFirstboot.
    rewrite E. cbn [snd]. rewrite Eo. cbn. by rewrite negb_involutive.
  - destruct (set_spec (blit 1 addr) s) as (s' & E & Es).
    { intros. by apply blit_groups_wf. }
    unfold Persistent_setGroups. rewrite E. unfold observe. cbn [snd]. rewrite Es.
    rewrite !field_blit_disj by lia. rewrite <- Hl, slice_blit; [done|].
    rewrite Hsz, Hl. unfold IMAGE_SIZE. lia.
  - intros Hff. unfold Persistent_init. rewrite bindE, update_image_spec. cbn [fst snd].
    rewrite bindE. cbn [gets fst snd]. unfold flags. cbn [m_persistent_image].
    rewrite Hff, Z.eqb_refl, bindE. cbn [set_image modify fst snd]. rewrite bindE.
    destruct (works_write (set_field 0 1 0 (stored (world s))) (world s)) as (w' & Ew & Es).
    + by rewrite length_set_field.
    + by apply set_field_bytes.
    + unfold write_image. cbn [m_persistent_image world]. rewrite Ew. cbn [snd mret st_ret].
      unfold observe. cbn [world]. rewrite Es.
      rewrite field_set_field by (rewrite Hsz; unfold IMAGE_SIZE; lia).
      unfold set_field. rewrite slice_blit_disj by (rewrite length_le_put; lia). done.
  - intros Hff. unfold Persistent_init. rewrite bindE, update_image_spec. cbn [fst snd].
    rewrite bindE. cbn [gets fst snd]. unfold flags. cbn [m_persistent_image].
    by rewrite (proj2 (Z.eqb_neq _ _) Hff).
Qed.

End Persistent.

(** A storage of one page, erased to 0xFF. *)
Definition page_image (w : list Z) : list Z := u8 <$> take IMAGE_SIZE (w ++ repeat 0xFF IMAGE_SIZE).

Definition page : lib_storage (list Z) :=
  {| readPersistent old n w := ((APP_RES_OK, take n (page_image w)), w);
     writePersistent img w := (APP_RES_OK, img) |}.

Lemma u8_bytes_id l : bytes l -> u8 <$> l = l.
Proof.
  induction 1 as [|x l Hx _ IH]; [done|]. rewrite fmap_cons, IH. f_equal. by apply uwrap_small.
Qed.

#[export] Instance page_works : StorageWorks page page_image.
Proof.
  constructor.
  - intros w. unfold page_image. rewrite length_fmap, length_take, length_app, repeat_length. lia.
  - intros w. apply Forall_fmap, Forall_true. intros x. by apply uwrap_range.
  - done.
  - intros img w Hl Hb. exists img. split; [done|]. unfold page_image.
    rewrite take_app_le by lia. rewrite take_ge by lia. by apply u8_bytes_id.
Qed.

Definition erased : state (list Z) := Build_state [] [].

Lemma persistent_settings_witness :
  (Persistent_getAutostart page erased).1 = (APP_RES_OK, true) /\
  observe page_image (Persistent_setGroups page (repeat 7 30) erased).2 = (true, false, repeat 7 30).
Proof.
  pose proof (persistent_settings page page_image erased true (repeat 7 30) eq_refl
    (bytes_repeat 7 30 ltac:(by vm_compute))) as H.
  destruct (observe page_image erased) as [[au fi] gr] eqn:E.
  destruct H as (H1 & _ & _ & _ & _ & H6 & _). rewrite H1, H6.
  assert (au = true /\ fi = false) as [-> ->] by by vm_compute in E; injection E.
  done.
Defined.

End Persistent.

Module Multicast.
Import Persistent.

(** A group address of three bytes as a 32-bit address, and back. *)
Definition mcast_group_addr_to_app_addr (addr : list Z) : Z :=
  le_get (blit 0 addr (le_put 4 APP_ADDR_MULTICAST)).
Definition waddr_to_mcast_group_addr (from : list Z) : list Z := take GROUP_ADDR_SIZE from.
Definition mcast_group_addr_to_waddr (from : list Z) : list Z := blit 0 from (le_put 4 0).

(** The group [i] of the packed groups and of the 32-bit addresses. *)
Definition group (i : nat) (groups : list Z) : list Z :=
  slice (i * GROUP_ADDR_SIZE) GROUP_ADDR_SIZE groups.

Definition indices : list nat := seq 0 MULTICAST_ADDRESS_AMOUNT.

Section Multicast.
Context {W : Type} (lib : lib_storage W).

Fixpoint is_group_loop (idx : list nat) (addresses : list Z) (group_addr : Z) : bool :=
  match idx with
  | [] => false
  | i :: idx =>
      if mcast_group_addr_to_app_addr (group i addresses) =? group_addr then true
      else is_group_loop idx addresses group_addr
  end.

Definition Multicast_isGroupCb (group_addr : Z) : st (state W) bool :=
  r ← Persistent_getGroups lib;
  mret (if negb (r.1 =? APP_RES_OK) then false else is_group_loop indices r.2 group_addr).

Definition Multicast_setGroups (groups : list Z) : st (state W) Z :=
  Persistent_setGroups lib
    (concat ((fun i => waddr_to_mcast_group_addr (drop (i * 4) groups)) <$> indices)).

Definition Multicast_getGroups (groups : list Z) : st (state W) (Z * list Z) :=
  r ← Persistent_getGroups lib;
  mret (r.1, if r.1 =? APP_RES_OK
             then blit 0 (concat ((fun i => mcast_group_addr_to_waddr (group i r.2)) <$> indices)) groups
             else groups).

Context (stored : W -> list Z) `{!StorageWorks lib stored}.

(** The address [i] of the attribute: 32 bits, least significant byte first. *)
Definition waddr (i : nat) (groups : list Z) : Z := field (i * 4) 4 groups.

Lemma group_bytes i groups :
  bytes groups -> length groups = (MULTICAST_ADDRESS_AMOUNT * 4)%nat -> (i < MULTICAST_ADDRESS_AMOUNT)%nat ->
  exists b0 b1 b2 b3, slice (i * 4) 4 groups = [b0; b1; b2; b3] /\
    take GROUP_ADDR_SIZE (drop (i * 4) groups) = [b0; b1; b2] /\ bytes [b0; b1; b2; b3].
Proof.
  intros Hb Hl Hi. unfold MULTICAST_ADDRESS_AMOUNT in *.
  assert (Hs : length (slice (i * 4) 4 groups) = 4%nat) by (apply length_slice; lia).
  pose proof (slice_bytes (i * 4) 4 groups Hb) as Hsb.
  assert (Ht : take GROUP_ADDR_SIZE (drop (i * 4) groups) = take 3 (slice (i * 4) 4 groups))
    by (unfold slice; rewrite take_take; done).
  rewrite Ht. destruct (slice (i * 4) 4 groups) as [|b0 [|b1 [|b2 [|b3 [|]]]]]; try done.
  by exists b0, b1, b2, b3.
Qed.

Definition packed (groups : list Z) : list (list Z) :=
  (fun i => waddr_to_mcast_group_addr (drop (i * 4) groups)) <$> indices.

Lemma packed_blocks groups :
  length groups = (MULTICAST_ADDRESS_AMOUNT * 4)%nat ->
  Forall (fun l => length l = GROUP_ADDR_SIZE) (packed groups).
Proof.
  intros Hl. apply Forall_fmap, Forall_forall. intros i Hi. cbn.
  apply elem_of_seq in Hi. unfold waddr_to_mcast_group_addr, MULTICAST_ADDRESS_AMOUNT, GROUP_ADDR_SIZE in *.
  rewrite length_take, length_drop. lia.
Qed.

Lemma packed_lookup groups i :
  (i < MULTICAST_ADDRESS_AMOUNT)%nat ->
  packed groups !! i = Some (waddr_to_mcast_group_addr (drop (i * 4) groups)).
Proof. intros Hi. unfold packed, indices. rewrite list_lookup_fmap, lookup_seq_lt by done. done. Qed.

Lemma packed_group groups i :
  length groups = (MULTICAST_ADDRESS_AMOUNT * 4)%nat -> (i < MULTICAST_ADDRESS_AMOUNT)%nat ->
  group i (concat (packed groups)) = take GROUP_ADDR_SIZE (drop (i * 4) groups).
Proof. intros Hl Hi. apply slice_concat; [by apply packed_blocks|by apply packed_lookup]. Qed.

Lemma packed_bytes groups : bytes groups -> bytes (concat (packed groups)).
Proof.
  intros Hb. apply Forall_concat, Forall_fmap, Forall_true. intros i.
  by apply Forall_take, Forall_drop.
Qed.

Lemma le_get4 b0 b1 b2 b3 :
  bytes [b0; b1; b2; b3] -> le_get [b0; b1; b2] = le_get [b0; b1; b2; b3] mod 2 ^ 24.
Proof.
  intros Hb. rewrite !Forall_cons in Hb. cbn [le_get]. destruct Hb as (? & ? & ? & ? & _). unfold fits in *.
  replace (b0 + 256 * (b1 + 256 * (b2 + 256 * (b3 + 256 * 0))))
    with (b0 + 256 * (b1 + 256 * (b2 + 256 * 0)) + b3 * 2 ^ 24) by lia.
  rewrite Z_mod_plus_full, Z.mod_small; lia.
Qed.

(** What [Multicast_getGroups] writes in the place of group [i]. *)
Lemma got_group groups old i :
  length groups = (MULTICAST_ADDRESS_AMOUNT * 4)%nat -> length old = length groups ->
  (i < MULTICAST_ADDRESS_AMOUNT)%nat ->
  slice (i * 4) 4 (blit 0 (concat ((fun i => mcast_group_addr_to_waddr
    (group i (concat (packed groups)))) <$> indices)) old) =
  blit 0 (take GROUP_ADDR_SIZE (drop (i * 4) groups)) (le_put 4 0).
Proof.
  intros Hl Ho Hi. set (ls := _ <$> indices).
  assert (Hls : Forall (fun l => length l = 4%nat) ls).
  { apply Forall_fmap, Forall_true. intros j. apply length_blit. }
  rewrite blit_app; rewrite (length_concat_blocks 4 ls Hls) || idtac.
  - rewrite take_0, app_nil_l. unfold ls, indices. rewrite length_fmap, length_seq.
    fold indices. rewrite drop_ge by lia. rewrite app_nil_r.
    apply slice_concat; [done|]. unfold indices. rewrite list_lookup_fmap, lookup_seq_lt by done.
    unfold compose; cbn [option_map fmap option_fmap Nat.add]. change (Some (mcast_group_addr_to_waddr (group i (concat (packed groups)))) = Some (blit 0 (take GROUP_ADDR_SIZE (drop (i * 4) groups)) (le_put 4 0))). by rewrite packed_group.
  - unfold ls, indices. rewrite length_fmap, length_seq. lia.
Qed.

Lemma app_addr_group groups i :
  length groups = (MULTICAST_ADDRESS_AMOUNT * 4)%nat -> bytes groups -> (i < MULTICAST_ADDRESS_AMOUNT)%nat ->
  mcast_group_addr_to_app_addr (group i (concat (packed groups))) =
    APP_ADDR_MULTICAST + waddr i groups mod 2 ^ 24.
Proof.
  intros Hl Hb Hi. destruct (group_bytes i groups Hb Hl Hi) as (b0 & b1 & b2 & b3 & E4 & E3 & Hb4).
  unfold mcast_group_addr_to_app_addr. rewrite packed_group, E3 by done.
  unfold waddr, field. rewrite E4, <- (le_get4 b0 b1 b2 b3) by done.
  change (blit 0 [b0; b1; b2] (le_put 4 APP_ADDR_MULTICAST)) with [b0; b1; b2; 0x80].
  unfold APP_ADDR_MULTICAST. cbn [le_get]. lia.
Qed.

Lemma is_group_loop_spec idx addresses a :
  is_group_loop idx addresses a = true <->
  exists i, i ∈ idx /\ mcast_group_addr_to_app_addr (group i addresses) = a.
Proof.
  induction idx as [|i idx IH]; cbn [is_group_loop].
  { split; [done|]. intros (i & Hi & _). by apply elem_of_nil in Hi. }
  destruct (Z.eqb_spec (mcast_group_addr_to_app_addr (group i addresses)) a) as [E|E].
  { split; [|done]. intros _. exists i. split; [apply elem_of_cons; by left|done]. }
  rewrite IH. split; intros (j & Hj & Ej); exists j; (split; [|done]).
  - apply elem_of_cons. by right.
  - apply elem_of_cons in Hj as [->|Hj]; [done|exact Hj].
Qed.

(** Writing stores the packed groups, and reading unpacks what is stored. *)
Lemma setGroups_packed groups s :
  length groups = (MULTICAST_ADDRESS_AMOUNT * 4)%nat -> bytes groups ->
  exists s', Multicast_setGroups groups s = (APP_RES_OK, s') /\
    slice 1 GROUPS_SIZE (stored (world s')) = concat (packed groups).
Proof.
  intros Hl Hb. unfold Multicast_setGroups. fold (packed groups).
  assert (Hpl : length (concat (packed groups)) = GROUPS_SIZE).
  { rewrite (length_concat_blocks GROUP_ADDR_SIZE) by by apply packed_blocks.
    unfold packed, indices. by rewrite length_fmap, length_seq. }
  destruct (set_spec lib stored (blit 1 (concat (packed groups))) s) as (s' & E & Es).
  { intros. apply blit_groups_wf; [by apply packed_bytes|done..]. }
  exists s'. split; [done|]. rewrite Es, <- Hpl, slice_blit; [done|].
  rewrite (@works_size W lib stored _), Hpl. unfold IMAGE_SIZE. lia.
Qed.

Lemma getGroups_packed groups old s :
  length groups = (MULTICAST_ADDRESS_AMOUNT * 4)%nat -> bytes groups -> length old = length groups ->
  slice 1 GROUPS_SIZE (stored (world s)) = concat (packed groups) ->
  exists groups' s', Multicast_getGroups old s = ((APP_RES_OK, groups'), s') /\ world s' = world s /\
    length groups' = length old /\ (bytes old -> bytes groups') /\
    forall i, (i < MULTICAST_ADDRESS_AMOUNT)%nat -> waddr i groups' = waddr i groups mod 2 ^ 24.
Proof.
  intros Hl Hb Hold Hst. unfold Multicast_getGroups. rewrite bindE, (getGroups_spec lib stored), Hst.
  cbn [fst snd mret st_ret]. rewrite Z.eqb_refl. eexists _, _. split; [done|]. split; [done|].
  split; [apply length_blit|]. split.
  { intros Hbo. apply blit_bytes; [|done]. apply Forall_concat, Forall_fmap, Forall_true. intros i.
    apply blit_bytes; [by apply slice_bytes, packed_bytes|apply le_put_bytes]. }
  intros i Hi.
  destruct (group_bytes i groups Hb Hl Hi) as (b0 & b1 & b2 & b3 & E4 & E3 & Hb4).
  unfold waddr, field. rewrite E4, (got_group groups old i) by done. rewrite E3.
  rewrite <- (le_get4 b0 b1 b2 b3) by done.
  change (blit 0 [b0; b1; b2] (le_put 4 0)) with [b0; b1; b2; 0]. cbn [le_get]. lia.
Qed.

Lemma isGroup_packed groups a s :
  length groups = (MULTICAST_ADDRESS_AMOUNT * 4)%nat -> bytes groups ->
  slice 1 GROUPS_SIZE (stored (world s)) = concat (packed groups) ->
  (Multicast_isGroupCb a s).1 = true <->
  exists i, (i < MULTICAST_ADDRESS_AMOUNT)%nat /\ a = APP_ADDR_MULTICAST + waddr i groups mod 2 ^ 24.
Proof.
  intros Hl Hb Hst. unfold Multicast_isGroupCb. rewrite bindE, (getGroups_spec lib stored), Hst.
  cbn [fst snd mret st_ret]. rewrite Z.eqb_refl. cbn [negb]. rewrite is_group_loop_spec. split.
  - intros (i & Hi & <-). apply elem_of_seq in Hi. exists i. split; [lia|]. apply app_addr_group; [done..|lia].
  - intros (i & Hi & ->). exists i. split; [apply elem_of_seq; lia|]. by apply app_addr_group.
Qed.

(** the multicast groups written as 32-bit addresses are stored as 24 bits
    each: reading them back gives every address with its top byte cleared, and
    the device belongs to exactly the multicast addresses (top byte 0x80) of
    the stored groups. *)
Theorem multicast_groups_roundtrip groups old s :
  length groups = (MULTICAST_ADDRESS_AMOUNT * 4)%nat -> bytes groups -> length old = length groups ->
  let '(r, s') := Multicast_setGroups groups s in
  let '(r', groups') := (Multicast_getGroups old s').1 in
  r = APP_RES_OK /\ r' = APP_RES_OK /\
  (forall i, (i < MULTICAST_ADDRESS_AMOUNT)%nat -> waddr i groups' = waddr i groups mod 2 ^ 24) /\
  (forall a, (Multicast_isGroupCb a s').1 = true <->
    exists i, (i < MULTICAST_ADDRESS_AMOUNT)%nat /\ a = APP_ADDR_MULTICAST + waddr i groups mod 2 ^ 24).
Proof.
  intros Hl Hb Hold. destruct (setGroups_packed groups s Hl Hb) as (s' & E & Hst). rewrite E.
  destruct (getGroups_packed groups old s' Hl Hb Hold Hst) as (groups' & s2 & E2 & _ & _ & _ & Hg). rewrite E2.
  cbn [fst]. split_and!; [done..|]. intros a. by apply isGroup_packed.
Qed.

End Multicast.

(** Ten addresses, the first one 0x80010203. *)
Definition some_groups : list Z := [0x03; 0x02; 0x01; 0x80] ++ repeat 0xFF 36.

Lemma multicast_groups_roundtrip_witness :
  (Multicast_isGroupCb page 0x80010203 (Multicast_setGroups page some_groups erased).2).1 = true.
Proof.
  pose proof (multicast_groups_roundtrip page page_image some_groups (repeat 0 40) erased eq_refl
    ltac:(apply Forall_app; split; [byte_list|by apply bytes_repeat]) eq_refl) as H.
  destruct (Multicast_setGroups page some_groups erased) as [r s'].
  destruct (Multicast_getGroups page (repeat 0 40) s').1 as [r' g].
  destruct H as (_ & _ & _ & Hg). apply Hg. exists 0%nat. split; [apply (bool_decide_unpack _); by vm_compute|by vm_compute].
Defined.
End Multicast.
