(* ===== verification/Dsap.v ===== *)
(** * Data service access point

    [waps/sap/dsap.c]: the host's data requests become calls of the data
    library, sent and received packets become indications.  Requests and
    indications are checked against the values a host encodes and decodes. *)

From S2P Require Import Prelude Api WapsUart WapsFrames WapsServices.
Import LockBits.

(** [dsap_frames.h] *)
Definition DSAP_IND_SUCCESS : Z := 0.
Definition DSAP_IND_TIMEOUT : Z := 1.
Definition TX_OPTS_IND_REQ : Z := 1.
Definition TX_OPTS_UNACK_CSMA_CA : Z := 2.
Definition TX_OPTS_HOPLIMIT_MASK : Z := 0x3c.
Definition TX_OPTS_HOPLIMIT_OFFSET : Z := 2.
Definition APDU_MAX_SIZE : Z := 102.
Definition FRAME_DSAP_DATA_TX_REQ_HEADER_SIZE : Z := 11.
Definition FRAME_DSAP_DATA_TX_TT_REQ_HEADER_SIZE : Z := 15.
Definition FRAME_DSAP_DATA_TX_FRAG_REQ_HEADER_SIZE : Z := 19.
Definition FRAME_DSAP_DATA_RX_IND_HEADER_SIZE : Z := 17.
Definition FRAME_DSAP_DATA_RX_FRAG_IND_HEADER_SIZE : Z := 21.
Definition RX_IND_INFO_QOS_MASK : Z := 0x3.
Definition RX_IND_INFO_QOS_OFFSET : Z := 0.
Definition RX_IND_INFO_HOPCOUNT_MASK : Z := 0xfc.
Definition RX_IND_INFO_HOPCOUNT_OFFSET : Z := 2.
Definition RX_IND_INFO_MAX_HOPCOUNT : Z :=
  Z.shiftr RX_IND_INFO_HOPCOUNT_MASK RX_IND_INFO_HOPCOUNT_OFFSET.
Definition DSAP_FRAG_LENGTH_MASK : Z := 0x0fff.
Definition DSAP_FRAG_LAST_FLAG_MASK : Z := 0x8000.

(** [sizeof(dsap_data_tx_ind_t)] and [sizeof(dsap_data_tx_cnf_t)] *)
Definition DSAP_DATA_TX_IND_SIZE : Z := 14.
Definition DSAP_DATA_TX_CNF_SIZE : Z := 4.

Definition get_singlemcu_flag_from_dualmcu_tx_option (tx_opts : Z) : Z :=
  let flags := if negb (Z.land tx_opts TX_OPTS_IND_REQ =? 0)
               then APP_LIB_DATA_SEND_FLAG_TRACK else APP_LIB_DATA_SEND_FLAG_NONE in
  let flags := if negb (Z.land tx_opts TX_OPTS_UNACK_CSMA_CA =? 0)
               then Z.lor flags APP_LIB_DATA_SEND_FLAG_UNACK_CSMA_CA else flags in
  if negb (Z.land tx_opts TX_OPTS_HOPLIMIT_MASK =? 0)
  then Z.lor flags APP_LIB_DATA_SEND_SET_HOP_LIMITING else flags.

Definition get_single_mcu_hop_limit_from_dualmcu_tx_option (tx_opts : Z) : Z :=
  Z.shiftr (Z.land tx_opts TX_OPTS_HOPLIMIT_MASK) TX_OPTS_HOPLIMIT_OFFSET.

(** What the service calls: the coarse clock, [Shared_Data_sendData] (told
    whether the sent callback is installed) and the data library's count of
    free buffers, which gets the old content of the variable it may set. *)
Record data_env (W : Type) := {
  getTimestampCoarse : st W Z;
  Shared_Data_sendData : app_lib_data_to_send_t -> bool -> st W Z;
  getNumFreeBuffers : Z -> st W Z }.

Arguments getTimestampCoarse {W}. Arguments Shared_Data_sendData {W}. Arguments getNumFreeBuffers {W}.

Section Dsap.
Context {W : Type} (env : data_env W) (lib : locks W).

Definition no_fragment : app_lib_data_fragment_t :=
  {| packet_id := 0; fragment_offset := 0; last_fragment := false |}.

(** The common part of the three requests: [hdr] is the
    offset of the APDU. *)
Definition to_send (f : frame) (hdr : nat) (flags delay : Z) (frag : app_lib_data_fragment_t)
    : app_lib_data_to_send_t :=
  let apdu_len := pld (hdr - 1) 1 f in
  {| to_bytes := pld_bytes hdr (Z.to_nat apdu_len) f;
     to_num_bytes := apdu_len;
     to_dest_address := Waddr_to_Addr (pld 3 4 f);
     to_delay := delay;
     to_tracking_id := pld 0 2 f;
     to_qos := pld 8 1 f;
     to_flags := flags;
     to_src_endpoint := pld 2 1 f;
     to_dest_endpoint := pld 7 1 f;
     to_hop_limit := get_single_mcu_hop_limit_from_dualmcu_tx_option (pld 9 1 f);
     to_fragment_info := frag |}.

(** From the permission check on. *)
Definition send_and_confirm (item : waps_item_t) (apdu_id : Z) (data : app_lib_data_to_send_t)
    : st W (bool * waps_item_t) :=
  permitted ← LockBits_isFeaturePermitted lib LOCK_BITS_DSAP_DATA_TX;
  res ← (if negb permitted then mret APP_LIB_DATA_SEND_RES_ACCESS_DENIED
         else if APDU_MAX_SIZE <? to_num_bytes data then mret APP_LIB_DATA_SEND_RES_INVALID_NUM_BYTES
         else Shared_Data_sendData env data
                (negb (Z.land (to_flags data) APP_LIB_DATA_SEND_FLAG_TRACK =? 0)));
  capacity ← getNumFreeBuffers env 0;
  let item := Waps_item_init (sfunc (item_frame item) + 0x80) DSAP_DATA_TX_CNF_SIZE item in
  mret (true, on_frame (fun f => set_pld 2 1 res (set_pld 3 1 capacity (set_pld 0 2 apdu_id f))) item).

Definition Dsap_handleFrame (item : waps_item_t) : st W (bool * waps_item_t) :=
  let f := item_frame item in
  if sfunc f =? WAPS_FUNC_DSAP_DATA_TX_REQ then
    if negb (splen f =? FRAME_DSAP_DATA_TX_REQ_HEADER_SIZE + pld 10 1 f) then mret (false, item)
    else
      let flags := get_singlemcu_flag_from_dualmcu_tx_option (pld 9 1 f) in
      now ← getTimestampCoarse env;
      send_and_confirm item (pld 0 2 f) (to_send f 11 flags (u32 (now - time item)) no_fragment)
  else if sfunc f =? WAPS_FUNC_DSAP_DATA_TX_TT_REQ then
    if negb (splen f =? FRAME_DSAP_DATA_TX_TT_REQ_HEADER_SIZE + pld 14 1 f) then mret (false, item)
    else
      let flags := get_singlemcu_flag_from_dualmcu_tx_option (pld 9 1 f) in
      now ← getTimestampCoarse env;
      send_and_confirm item (pld 0 2 f)
        (to_send f 15 flags (u32 (now + pld 10 4 f - time item)) no_fragment)
  else if sfunc f =? WAPS_FUNC_DSAP_DATA_TX_FRAG_REQ then
    if negb (splen f =? FRAME_DSAP_DATA_TX_FRAG_REQ_HEADER_SIZE + pld 18 1 f) then mret (false, item)
    else
      let flags := get_singlemcu_flag_from_dualmcu_tx_option (pld 9 1 f) in
      let flags := Z.lor flags APP_LIB_DATA_SEND_FRAGMENTED_PACKET in
      let last := Z.land (pld 16 2 f) DSAP_FRAG_LAST_FLAG_MASK =? DSAP_FRAG_LAST_FLAG_MASK in
      let offset := Z.land (pld 16 2 f) DSAP_FRAG_LENGTH_MASK in
      now ← getTimestampCoarse env;
      send_and_confirm item (pld 0 2 f)
        (to_send f 19 flags (u32 (now + pld 10 4 f - time item))
          {| packet_id := Z.land (pld 14 2 f) 0xFFF; fragment_offset := offset; last_fragment := last |})
  else mret (false, item).

Definition Dsap_packetSent (id src_ep dst_ep queue_time dst : Z) (success : bool) (output : waps_item_t)
    : waps_item_t :=
  let output := with_time 0 (Waps_item_init WAPS_FUNC_DSAP_DATA_TX_IND DSAP_DATA_TX_IND_SIZE output) in
  on_frame (fun f =>
    let f := set_pld 1 2 id f in
    let f := set_pld 4 4 dst f in
    let f := set_pld 8 1 dst_ep f in
    let f := set_pld 9 4 queue_time f in
    let f := set_pld 0 1 0 f in
    let f := set_pld 3 1 src_ep f in
    set_pld 13 1 (if success then DSAP_IND_SUCCESS else DSAP_IND_TIMEOUT) f) output.

(** The [info] byte: quality of service and hop count. *)
Definition rx_info (data : app_lib_data_received_t) : Z :=
  let info := u8 (Z.land (Z.shiftl (rx_qos data) RX_IND_INFO_QOS_OFFSET) RX_IND_INFO_QOS_MASK) in
  let hops := if RX_IND_INFO_MAX_HOPCOUNT <? rx_hops data then RX_IND_INFO_MAX_HOPCOUNT
              else rx_hops data in
  u8 (Z.lor info (Z.land (Z.shiftl hops RX_IND_INFO_HOPCOUNT_OFFSET) RX_IND_INFO_HOPCOUNT_MASK)).

(** The fields both indications have at the same place. *)
Definition rx_common (data : app_lib_data_received_t) (dst_addr : Z) (f : frame) : frame :=
  let f := set_pld 5 1 (rx_src_endpoint data) f in
  let f := set_pld 1 4 (rx_src_address data) f in
  let f := set_pld 6 4 dst_addr f in
  let f := set_pld 10 1 (rx_dest_endpoint data) f in
  let f := set_pld 11 1 (rx_info data) f in
  let f := set_pld 12 4 (rx_delay data) f in
  set_pld 0 1 0 f.

Definition Dsap_packetReceived (data : app_lib_data_received_t) (dst_addr : Z) (output : waps_item_t)
    : st W waps_item_t :=
  let output :=
    match rx_fragment_info data with
    | Some frag =>
        on_frame (fun f =>
          let f := rx_common data dst_addr f in
          let f := set_pld 20 1 (rx_num_bytes data) f in
          let f := set_pld 18 2 (Z.land (fragment_offset frag) DSAP_FRAG_LENGTH_MASK) f in
          let f := if last_fragment frag
                   then set_pld 18 2 (Z.lor (pld 18 2 f) DSAP_FRAG_LAST_FLAG_MASK) f else f in
          let f := set_pld 16 2 (packet_id frag) f in
          set_pld_bytes 21 (take (Z.to_nat (rx_num_bytes data)) (rx_bytes data)) f)
        (Waps_item_init WAPS_FUNC_DSAP_DATA_RX_FRAG_IND
           (FRAME_DSAP_DATA_RX_FRAG_IND_HEADER_SIZE + rx_num_bytes data) output)
    | None =>
        on_frame (fun f =>
          let f := rx_common data dst_addr f in
          let f := set_pld 16 1 (rx_num_bytes data) f in
          set_pld_bytes 17 (take (Z.to_nat (rx_num_bytes data)) (rx_bytes data)) f)
        (Waps_item_init WAPS_FUNC_DSAP_DATA_RX_IND
           (FRAME_DSAP_DATA_RX_IND_HEADER_SIZE + rx_num_bytes data) output)
    end in
  now ← getTimestampCoarse env;
  mret (with_cbs (Some update_packet_delay) (post_cb output) (with_time now output)).

(** The second test repeats the first one, as in the source. *)
Definition Dsap_update_packet_delay (item : waps_item_t) : st W waps_item_t :=
  now ← getTimestampCoarse env;
  let local_delay := u32 (now - time item) in
  let item := with_time now item in
  mret (on_frame (fun f =>
    if sfunc f =? WAPS_FUNC_DSAP_DATA_RX_IND then set_pld 12 4 (pld 12 4 f + local_delay) f
    else if sfunc f =? WAPS_FUNC_DSAP_DATA_RX_IND then set_pld 12 4 (pld 12 4 f + local_delay) f
    else f) item).

End Dsap.

(** ** The requests a host encodes *)

Inductive tx_kind :=
| TxPlain
| TxTravelTime (travel_time : Z)
| TxFragment (travel_time id offset : Z) (last : bool).

Record tx_request := {
  rq_kind : tx_kind;
  rq_id : Z;
  rq_src : Z;
  rq_dst : Z;
  rq_dst_ep : Z;
  rq_qos : Z;
  rq_track : bool;
  rq_unack : bool;
  rq_hop_limit : Z;
  rq_apdu : list Z }.

Definition kind_func (k : tx_kind) : Z :=
  match k with
  | TxPlain => WAPS_FUNC_DSAP_DATA_TX_REQ
  | TxTravelTime _ => WAPS_FUNC_DSAP_DATA_TX_TT_REQ
  | TxFragment _ _ _ _ => WAPS_FUNC_DSAP_DATA_TX_FRAG_REQ
  end.

Definition kind_bytes (k : tx_kind) : list Z :=
  match k with
  | TxPlain => []
  | TxTravelTime dt => le_put 4 dt
  | TxFragment dt id off last => le_put 4 dt ++ le_put 2 id ++ le_put 2 (off + if last then 2 ^ 15 else 0)
  end.

Definition travel_time (k : tx_kind) : Z :=
  match k with TxPlain => 0 | TxTravelTime dt => dt | TxFragment dt _ _ _ => dt end.

Definition kind_valid (k : tx_kind) : Prop :=
  match k with
  | TxPlain => True
  | TxTravelTime dt => is_u32 dt
  | TxFragment dt id off _ => is_u32 dt /\ fits 12 id /\ fits 12 off
  end.

Definition kind_fragment (k : tx_kind) : app_lib_data_fragment_t :=
  match k with
  | TxFragment _ id off last => {| packet_id := id; fragment_offset := off; last_fragment := last |}
  | _ => no_fragment
  end.

Definition is_fragment (k : tx_kind) : bool :=
  match k with TxFragment _ _ _ _ => true | _ => false end.

Definition rq_opts (r : tx_request) : Z :=
  Z.b2z (rq_track r) + 2 * Z.b2z (rq_unack r) + 4 * rq_hop_limit r.

Definition rq_payload (r : tx_request) : list Z :=
  le_put 2 (rq_id r) ++ le_put 1 (rq_src r) ++ le_put 4 (rq_dst r) ++ le_put 1 (rq_dst_ep r) ++
  le_put 1 (rq_qos r) ++ le_put 1 (rq_opts r) ++ kind_bytes (rq_kind r) ++
  le_put 1 (Z.of_nat (length (rq_apdu r))) ++ rq_apdu r.

(** The frame with its header; [pad] is what follows in the item. *)
Definition rq_frame (r : tx_request) (fid : Z) (pad : list Z) : frame :=
  le_put 1 (kind_func (rq_kind r)) ++ le_put 1 fid ++ le_put 1 (Z.of_nat (length (rq_payload r))) ++
  rq_payload r ++ pad.

Record rq_valid (r : tx_request) : Prop := {
  v_id : is_u16 (rq_id r); v_src : is_u8 (rq_src r); v_dst : is_u32 (rq_dst r);
  v_dst_ep : is_u8 (rq_dst_ep r); v_qos : is_u8 (rq_qos r); v_hop_limit : fits 4 (rq_hop_limit r);
  v_apdu : bytes (rq_apdu r); v_kind : kind_valid (rq_kind r);
  v_size : (length (rq_payload r) <= Uart.WAPS_MAX_FRAME_PAYLOAD)%nat }.

(** What the data library is asked to send for it, [delay] after it was made. *)
Definition rq_data (r : tx_request) (delay : Z) : app_lib_data_to_send_t :=
  {| to_bytes := rq_apdu r;
     to_num_bytes := Z.of_nat (length (rq_apdu r));
     to_dest_address := Waddr_to_Addr (rq_dst r);
     to_delay := u32 (delay + travel_time (rq_kind r));
     to_tracking_id := rq_id r;
     to_qos := rq_qos r;
     to_flags := Z.b2z (rq_track r) + 4 * Z.b2z (negb (rq_hop_limit r =? 0)) +
                 8 * Z.b2z (rq_unack r) + 32 * Z.b2z (is_fragment (rq_kind r));
     to_src_endpoint := rq_src r;
     to_dest_endpoint := rq_dst_ep r;
     to_hop_limit := rq_hop_limit r;
     to_fragment_info := kind_fragment (rq_kind r) |}.

(** ** Requests *)

Definition opts_check (track unack : bool) (h : Z) : bool :=
  implb (h <? 16)
    (let o := Z.b2z track + 2 * Z.b2z unack + 4 * h in
     (get_singlemcu_flag_from_dualmcu_tx_option o =?
        Z.b2z track + 4 * Z.b2z (negb (h =? 0)) + 8 * Z.b2z unack) &&
     (get_single_mcu_hop_limit_from_dualmcu_tx_option o =? h) && (o <? 64)).

Lemma opts_spec track unack h :
  fits 4 h ->
  let o := Z.b2z track + 2 * Z.b2z unack + 4 * h in
  let fl := Z.b2z track + 4 * Z.b2z (negb (h =? 0)) + 8 * Z.b2z unack in
  get_singlemcu_flag_from_dualmcu_tx_option o = fl /\
  get_single_mcu_hop_limit_from_dualmcu_tx_option o = h /\ 0 <= o < 64.
Proof.
  intros Hh o fl.
  assert (H : all_bytes (opts_check track unack) = true) by (by destruct track, unack; vm_compute).
  apply (all_bytes_spec _ h) in H; [|by apply (fits_weaken 4)]. unfold opts_check in H.
  unfold fits in Hh. rewrite (proj2 (Z.ltb_lt h 16)) in H by lia. cbn [implb] in H.
  bool_props. unfold o, fl. destruct track, unack; cbn [Z.b2z] in *; split_and!; try done; lia.
Qed.

Lemma fragment_flag track unack h :
  let fl := Z.b2z track + 4 * Z.b2z (negb (h =? 0)) + 8 * Z.b2z unack in
  Z.lor fl APP_LIB_DATA_SEND_FRAGMENTED_PACKET = fl + 32 * Z.b2z true.
Proof. intros fl. unfold fl. by destruct track, unack, (h =? 0). Qed.

(** The flag word of a fragment. *)
Lemma fragment_word off (last : bool) :
  fits 12 off ->
  let v := off + (if last then 2 ^ 15 else 0) in
  is_u16 v /\ Z.land v DSAP_FRAG_LENGTH_MASK = off /\
  (Z.land v DSAP_FRAG_LAST_FLAG_MASK =? DSAP_FRAG_LAST_FLAG_MASK) = last.
Proof.
  intros Ho v. unfold fits in *. 
  assert (Hv : v = Z.lor (Z.shiftl (if last then 8 else 0) 12) off).
  { rewrite lor_shiftl_add by done. unfold v. destruct last; lia. }
  split; [unfold v; destruct last; lia|].
  assert (Hbit : forall i, Z.testbit v i = Z.testbit (if last then 8 else 0) (i - 12) || Z.testbit off i).
  { intros i. destruct (Z.ltb_spec i 0) as [|Hi]; [by rewrite !Z.testbit_neg_r by lia|].
    by rewrite Hv, Z.lor_spec, Z.shiftl_spec by lia. }
  split.
  - change DSAP_FRAG_LENGTH_MASK with (Z.ones 12). rewrite <- uwrap_land by lia. unfold uwrap, v.
    replace (off + (if last then 2 ^ 15 else 0)) with (off + (if last then 8 else 0) * 2 ^ 12)
      by (destruct last; lia).
    rewrite Z_mod_plus_full. by apply Z.mod_small.
  - assert (H15 : Z.testbit v 15 = last).
    { rewrite Hbit, (fits_testbit 12 off) by (done || lia). by destruct last. }
    assert (Hm : Z.land v DSAP_FRAG_LAST_FLAG_MASK = (if last then 0x8000 else 0)).
    { change DSAP_FRAG_LAST_FLAG_MASK with (2 ^ 15). apply Z.bits_inj'. intros i Hi.
      rewrite Z.land_spec, Z.pow2_bits_eqb by lia. destruct (Z.eqb_spec 15 i) as [<-|Hne].
      - rewrite H15. by destruct last.
      - rewrite andb_false_r. destruct last; [|by rewrite Z.bits_0].
        change 0x8000 with (2 ^ 15). by rewrite Z.pow2_bits_false by lia. }
    rewrite Hm. by destruct last.
Qed.

(** Reading a field of an explicit frame. *)
Lemma read_put f off n v :
  slice off n f = le_put n v -> fits (8 * Z.of_nat n) v -> field off n f = v.
Proof. intros E Hv. unfold field. by rewrite E, le_get_put, uwrap_small. Qed.

Lemma kind_func_u8 k : is_u8 (kind_func k).
Proof. by destruct k. Qed.

Lemma rq_opts_u8 r : rq_valid r -> is_u8 (rq_opts r).
Proof.
  intros Hv. pose proof (opts_spec (rq_track r) (rq_unack r) _ (v_hop_limit r Hv)) as (_ & _ & H).
  unfold rq_opts, fits. lia.
Qed.

Lemma rq_len r :
  length (rq_payload r) = (11 + length (kind_bytes (rq_kind r)) + length (rq_apdu r))%nat.
Proof. unfold rq_payload. rewrite !length_app, !length_le_put. lia. Qed.

Lemma rq_common r fid pad :
  rq_valid r -> is_u8 fid ->
  let f := rq_frame r fid pad in
  sfunc f = kind_func (rq_kind r) /\ sfid f = fid /\ splen f = Z.of_nat (length (rq_payload r)) /\
  pld 0 2 f = rq_id r /\ pld 2 1 f = rq_src r /\ pld 3 4 f = rq_dst r /\ pld 7 1 f = rq_dst_ep r /\
  pld 8 1 f = rq_qos r /\ pld 9 1 f = rq_opts r.
Proof.
  intros Hv Hf f. pose proof (v_size r Hv) as Hs. unfold Uart.WAPS_MAX_FRAME_PAYLOAD in Hs.
  split_and!; (apply read_put; [exact eq_refl|]);
    first [apply Hv | apply kind_func_u8 | exact Hf | by apply rq_opts_u8 | unfold fits; lia].
Qed.

(** The fields after the common ones, from payload offset 10 on. *)
Lemma rq_tail r fid pad :
  rq_valid r ->
  let f := rq_frame r fid pad in
  let k := length (kind_bytes (rq_kind r)) in
  pld (10 + k) 1 f = Z.of_nat (length (rq_apdu r)) /\
  pld_bytes (11 + k) (length (rq_apdu r)) f = rq_apdu r /\
  slice (HEADER + 10) k f = kind_bytes (rq_kind r).
Proof.
  intros Hv f k. pose proof (v_size r Hv) as Hs. rewrite rq_len in Hs.
  unfold Uart.WAPS_MAX_FRAME_PAYLOAD in Hs.
  assert (Ed : drop 13 f = kind_bytes (rq_kind r) ++ le_put 1 (Z.of_nat (length (rq_apdu r))) ++
    rq_apdu r ++ pad).
  { unfold f, rq_frame, rq_payload. rewrite <- !(assoc_L (++)). reflexivity. }
  assert (Es : forall n m, slice (13 + n) m f = slice n m (drop 13 f)).
  { intros. unfold slice. by rewrite drop_drop. }
  unfold pld, pld_bytes. change (HEADER + (10 + k))%nat with (13 + k)%nat.
  change (HEADER + (11 + k))%nat with (14 + k)%nat.
  assert (Ek : forall n m, slice (13 + (k + n)) m f =
    slice n m (le_put 1 (Z.of_nat (length (rq_apdu r))) ++ rq_apdu r ++ pad)).
  { intros n m. rewrite Es, Ed. unfold slice, k. by rewrite drop_app_add. }
  split_and!.
  - apply read_put; [|unfold fits; lia]. rewrite <- (Nat.add_0_r k), Ek. reflexivity.
  - replace (14 + k)%nat with (13 + (k + 1))%nat by lia. rewrite Ek. apply take_app_length.
  - change (HEADER + 10)%nat with (13 + 0)%nat. rewrite Es, Ed. apply take_app_length.
Qed.

(** A field inside the bytes of the kind. *)
Lemma rq_kind_field r fid pad off n v :
  rq_valid r -> (off + n <= length (kind_bytes (rq_kind r)))%nat ->
  slice off n (kind_bytes (rq_kind r)) = le_put n v -> fits (8 * Z.of_nat n) v ->
  pld (10 + off) n (rq_frame r fid pad) = v.
Proof.
  intros Hv Hl E Hf. destruct (rq_tail r fid pad Hv) as (_ & _ & Hk). apply read_put; [|done].
  rewrite <- E, <- Hk. unfold slice. rewrite skipn_firstn_comm, drop_drop, take_take.
  by rewrite Nat.min_l by lia.
Qed.

Section Requests.
Context {W : Type} (env : data_env W) (lib : locks W).

(** Any of the three requests reaches the data library as [rq_data]. *)
Lemma handle_encoded r fid pad item w :
  rq_valid r -> is_u8 fid -> item_frame item = rq_frame r fid pad ->
  Dsap_handleFrame env lib item w =
    (now ← getTimestampCoarse env;
     send_and_confirm env lib item (rq_id r) (rq_data r (now - time item))) w.
Proof.
  intros Hv Hf Hi. destruct (rq_common r fid pad Hv Hf) as (Ef & _ & El & E0 & E2 & E3 & E7 & E8 & E9).
  destruct (rq_tail r fid pad Hv) as (Ea & Eb & _).
  destruct (opts_spec (rq_track r) (rq_unack r) _ (v_hop_limit r Hv)) as (Efl & Eh & _).
  pose proof (rq_len r) as Hlen. pose proof (v_kind r Hv) as Hk.
  pose proof (fun off n v => rq_kind_field r fid pad off n v Hv) as Hkf.
  fold (rq_opts r) in Efl, Eh.
  unfold Dsap_handleFrame, to_send. rewrite Hi, Ef, El, E0, E2, E3, E7, E8, E9, Efl, Eh, Hlen.
  unfold rq_data. destruct (rq_kind r) as [|dt|dt id off last];
    cbn [kind_func kind_bytes kind_valid length travel_time is_fragment kind_fragment Z.b2z] in *;
    rewrite ?length_app, ?length_le_put in *.
  - rewrite Z.eqb_refl. cbn [Nat.add Nat.sub] in *. rewrite Ea, Nat2Z.id, Eb.
    rewrite (proj2 (Z.eqb_eq _ _)) by (unfold FRAME_DSAP_DATA_TX_REQ_HEADER_SIZE; lia).
    cbn [negb]. rewrite !bindE. by rewrite Z.mul_0_r, !Z.add_0_r.
  - rewrite (proj2 (Z.eqb_neq _ _)) by done.
    rewrite Z.eqb_refl. cbn [Nat.add Nat.sub] in *. rewrite Ea, Nat2Z.id, Eb.
    rewrite (proj2 (Z.eqb_eq _ _)) by (unfold FRAME_DSAP_DATA_TX_TT_REQ_HEADER_SIZE; lia).
    cbn [negb]. rewrite !bindE.
    rewrite (Hkf 0%nat 4%nat dt) by (done || lia).
    by rewrite Z.mul_0_r, Z.add_0_r, Z.add_sub_swap.
  - destruct Hk as (Hdt & Hid & Hoff). destruct (fragment_word off last Hoff) as (Hw & Ho & Hl).
    do 2 (rewrite (proj2 (Z.eqb_neq _ _)) by done).
    rewrite Z.eqb_refl. cbn [Nat.add Nat.sub] in *. rewrite Ea, Nat2Z.id, Eb.
    rewrite (proj2 (Z.eqb_eq _ _)) by (unfold FRAME_DSAP_DATA_TX_FRAG_REQ_HEADER_SIZE; lia).
    cbn [negb]. rewrite !bindE.
    rewrite (Hkf 0%nat 4%nat dt) by (done || lia).
    rewrite (Hkf 4%nat 2%nat id)
      by (done || lia || by apply (fits_weaken 12)).
    rewrite (Hkf 6%nat 2%nat (off + if last then 2 ^ 15 else 0)) by (done || lia).
    rewrite Ho, Hl, fragment_flag, Z.add_sub_swap.
    change 0xFFF with (Z.ones 12). rewrite <- uwrap_land by lia.
    by rewrite (uwrap_small 12 id) by done.
Qed.

(** The confirmation that answers request [r]. *)
Definition confirms (r : tx_request) (fid res cap : Z) (f : frame) : Prop :=
  sfunc f = kind_func (rq_kind r) + 0x80 /\ sfid f = fid /\ splen f = DSAP_DATA_TX_CNF_SIZE /\
  pld 0 2 f = rq_id r /\ pld 2 1 f = u8 res /\ pld 3 1 f = u8 cap.

Lemma confirmation_fields r fid pad item res cap :
  rq_valid r -> is_u8 fid -> item_frame item = rq_frame r fid pad ->
  length (item_frame item) = FRAME_SIZE ->
  let item' := on_frame (fun f => set_pld 2 1 res (set_pld 3 1 cap (set_pld 0 2 (rq_id r) f)))
    (Waps_item_init (sfunc (item_frame item) + 0x80) DSAP_DATA_TX_CNF_SIZE item) in
  confirms r fid res cap (item_frame item') /\ length (item_frame item') = FRAME_SIZE.
Proof.
  intros Hv Hf Hi Hl item'. destruct (rq_common r fid pad Hv Hf) as (Ef & Eid & _).
  rewrite <- Hi in Ef, Eid. unfold item', confirms. cbn [item_frame on_frame with_frame Waps_item_init
    with_cbs]. rewrite Ef. pose proof (v_id r Hv) as Hid. unfold FRAME_SIZE in Hl. cbn in Hl.
  frame_unfold. split; [|by rewrite !length_set_field].
  split_and!; frame_read; first [done | by apply uwrap_small | by destruct (rq_kind r)].
Qed.

Lemma track_flag r delay :
  rq_valid r ->
  negb (Z.land (to_flags (rq_data r delay)) APP_LIB_DATA_SEND_FLAG_TRACK =? 0) = rq_track r.
Proof.
  intros _. unfold rq_data. cbn [to_flags].
  by destruct (rq_track r), (rq_unack r), (rq_hop_limit r =? 0), (is_fragment (rq_kind r)).
Qed.

(** C28: every data request a host can encode (plain, with travel time, or a
    fragment) is sent to the data library with exactly the requested
    addresses, endpoints, options, fragment position and bytes, its delay
    increased by the time the request spent in the queue; without the
    permission or with more than 102 bytes the library is not called; in all
    cases the request becomes its confirmation, with the result, the request's
    identifier and the free capacity after the call. *)
Theorem dsap_tx_request r fid pad item w0 :
  rq_valid r -> is_u8 fid -> item_frame item = rq_frame r fid pad ->
  length (item_frame item) = FRAME_SIZE ->
  let '(now, w) := getTimestampCoarse env w0 in
  let '(permitted, w) := LockBits_isFeaturePermitted lib LOCK_BITS_DSAP_DATA_TX w in
  let '(res, w) :=
    if negb permitted then (APP_LIB_DATA_SEND_RES_ACCESS_DENIED, w)
    else if 102 <? Z.of_nat (length (rq_apdu r)) then (APP_LIB_DATA_SEND_RES_INVALID_NUM_BYTES, w)
    else Shared_Data_sendData env (rq_data r (now - time item)) (rq_track r) w in
  let '(cap, w) := getNumFreeBuffers env 0 w in
  exists item', Dsap_handleFrame env lib item w0 = ((true, item'), w) /\
    confirms r fid res cap (item_frame item') /\ length (item_frame item') = FRAME_SIZE /\
    pre_cb item' = None /\ post_cb item' = None.
Proof.
  intros Hv Hf Hi Hl. pose proof (handle_encoded r fid pad item w0 Hv Hf Hi) as E.
  rewrite bindE in E. destruct (getTimestampCoarse env w0) as [now w]. cbn [fst snd] in E.
  unfold send_and_confirm in E. rewrite bindE in E.
  destruct (LockBits_isFeaturePermitted lib LOCK_BITS_DSAP_DATA_TX w) as [ok w1]. cbn [fst snd] in E.
  rewrite track_flag in E by done. cbn [to_num_bytes rq_data] in E. rewrite bindE in E.
  assert (Er : (if negb ok then mret APP_LIB_DATA_SEND_RES_ACCESS_DENIED
     else if APDU_MAX_SIZE <? Z.of_nat (length (rq_apdu r))
          then mret APP_LIB_DATA_SEND_RES_INVALID_NUM_BYTES
          else Shared_Data_sendData env (rq_data r (now - time item)) (rq_track r)) w1 =
    (if negb ok then (APP_LIB_DATA_SEND_RES_ACCESS_DENIED, w1)
     else if 102 <? Z.of_nat (length (rq_apdu r)) then (APP_LIB_DATA_SEND_RES_INVALID_NUM_BYTES, w1)
     else Shared_Data_sendData env (rq_data r (now - time item)) (rq_track r) w1)).
  { unfold APDU_MAX_SIZE. by destruct ok, (102 <? _). }
  cbn [rq_data to_num_bytes] in Er. rewrite Er in E. clear Er.
  destruct (if negb ok then _ else _) as [res w2]. cbn [fst snd] in E. rewrite bindE in E.
  destruct (getNumFreeBuffers env 0 w2) as [cap w3]. cbn [fst snd] in E.
  destruct (confirmation_fields r fid pad item res cap Hv Hf Hi Hl) as [Hc Hlen].
  eexists. split; [exact E|]. done.
Qed.

(** The size of the fields before the APDU. *)
Definition apdu_offset (func : Z) : option nat :=
  if func =? WAPS_FUNC_DSAP_DATA_TX_REQ then Some 11%nat
  else if func =? WAPS_FUNC_DSAP_DATA_TX_TT_REQ then Some 15%nat
  else if func =? WAPS_FUNC_DSAP_DATA_TX_FRAG_REQ then Some 19%nat
  else None.

Definition size_ok (f : frame) : bool :=
  match apdu_offset (sfunc f) with
  | Some hdr => splen f =? Z.of_nat hdr + pld (hdr - 1) 1 f
  | None => false
  end.

(** The data of a request whose APDU is at [hdr]. *)
Definition request_data (item : waps_item_t) (hdr : nat) (now : Z) : app_lib_data_to_send_t :=
  let f := item_frame item in
  to_send f hdr
    (let fl := get_singlemcu_flag_from_dualmcu_tx_option (pld 9 1 f) in
     if (hdr =? 19)%nat then Z.lor fl APP_LIB_DATA_SEND_FRAGMENTED_PACKET else fl)
    (u32 (if (hdr =? 11)%nat then now - time item else now + pld 10 4 f - time item))
    (if (hdr =? 19)%nat then
       {| packet_id := Z.land (pld 14 2 f) 0xFFF;
          fragment_offset := Z.land (pld 16 2 f) DSAP_FRAG_LENGTH_MASK;
          last_fragment := Z.land (pld 16 2 f) DSAP_FRAG_LAST_FLAG_MASK
            =? DSAP_FRAG_LAST_FLAG_MASK |}
     else no_fragment).

Lemma handle_cases item w :
  Dsap_handleFrame env lib item w =
    match apdu_offset (sfunc (item_frame item)) with
    | Some hdr =>
        if size_ok (item_frame item)
        then (now ← getTimestampCoarse env;
              send_and_confirm env lib item (pld 0 2 (item_frame item))
                (request_data item hdr now)) w
        else ((false, item), w)
    | None => ((false, item), w)
    end.
Proof.
  unfold Dsap_handleFrame, size_ok, apdu_offset, request_data.
  destruct (sfunc (item_frame item) =? WAPS_FUNC_DSAP_DATA_TX_REQ).
  { cbn. by destruct (_ =? _). }
  destruct (sfunc (item_frame item) =? WAPS_FUNC_DSAP_DATA_TX_TT_REQ).
  { cbn. by destruct (_ =? _). }
  destruct (sfunc (item_frame item) =? WAPS_FUNC_DSAP_DATA_TX_FRAG_REQ); [|done].
  cbn. by destruct (_ =? _).
Qed.

Lemma send_and_confirm_shape item id data w :
  exists item' w', send_and_confirm env lib item id data w = ((true, item'), w') /\
    (wf_item item -> wf_item item').
Proof.
  unfold send_and_confirm. rewrite !bindE. eexists _, _. split; [reflexivity|].
  intros H. unfold wf_item. cbn [item_frame on_frame with_frame].
  by repeat apply wf_set_field.
Qed.

(** a data request is accepted exactly when its length field is the fixed
    part plus the APDU length it announces; a rejected frame is left as it was,
    with no call into the stack; the APDU handed to the data library never
    reaches beyond the received frame; and the item stays well formed. *)
Theorem dsap_size_guard item w :
  wf_item item -> splen (item_frame item) <= Z.of_nat Uart.WAPS_MAX_FRAME_PAYLOAD ->
  let '((ok, item'), w') := Dsap_handleFrame env lib item w in
  ok = size_ok (item_frame item) /\ wf_item item' /\
  (ok = false -> item' = item /\ w' = w) /\
  (ok = true -> exists hdr data, apdu_offset (sfunc (item_frame item)) = Some hdr /\
    (item', w') = ((r ← send_and_confirm env lib item (pld 0 2 (item_frame item))
                      (data (getTimestampCoarse env w).1); mret r.2) (getTimestampCoarse env w).2) /\
    forall now, Z.of_nat (length (to_bytes (data now))) = to_num_bytes (data now) /\
      Z.of_nat hdr + to_num_bytes (data now) = splen (item_frame item)).
Proof.
  intros Hwf Hs. rewrite handle_cases. unfold size_ok.
  destruct (apdu_offset (sfunc (item_frame item))) as [hdr|] eqn:Eh; [|done].
  destruct (Z.eqb_spec (splen (item_frame item)) (Z.of_nat hdr + pld (hdr - 1) 1 (item_frame item)))
    as [Es|Es]; [|done].
  rewrite bindE.
  destruct (send_and_confirm_shape item (pld 0 2 (item_frame item)) 
    (request_data item hdr (getTimestampCoarse env w).1) (getTimestampCoarse env w).2) as (item' & w' & E & Hwf').
  rewrite E. split_and!; auto; [done|]. intros _. exists hdr, (request_data item hdr).
  split; [done|]. split; [by rewrite bindE, E|].
  intros now. unfold request_data, to_send. cbn [to_bytes to_num_bytes]. split; [|lia].
  destruct Hwf as [Hl Hb]. unfold pld_bytes.
  assert (Hpos : 0 <= pld (hdr - 1) 1 (item_frame item) < 256).
  { apply field1_range; [done|]. rewrite Hl. unfold apdu_offset in Eh.
    repeat case_match; simplify_eq; unfold HEADER, FRAME_SIZE; cbn; lia. }
  rewrite length_slice; [lia|]. rewrite Hl. unfold HEADER, FRAME_SIZE, Uart.WAPS_MIN_FRAME_LENGTH,
    Uart.WAPS_MAX_FRAME_LENGTH, Uart.WAPS_MIN_FRAME_LENGTH. lia.
Qed.

End Requests.

(** ** Indications *)

Definition info_check (qos hops : Z) : bool :=
  let h := if RX_IND_INFO_MAX_HOPCOUNT <? hops then RX_IND_INFO_MAX_HOPCOUNT else hops in
  let i := u8 (Z.lor (u8 (Z.land qos 3)) (Z.land (Z.shiftl h 2) 0xfc)) in
  (Z.land i 3 =? Z.land qos 3) && (Z.shiftr i 2 =? Z.min hops 63).

Lemma rx_info_spec data :
  is_u8 (rx_qos data) -> is_u8 (rx_hops data) ->
  Z.land (rx_info data) 3 = rx_qos data mod 4 /\ Z.shiftr (rx_info data) 2 = Z.min (rx_hops data) 63 /\
  is_u8 (rx_info data).
Proof.
  intros Hq Hh. split_and!; [| |by apply uwrap_range].
  all: assert (H : all_bytes (fun q => all_bytes (info_check q)) = true) by (by vm_compute).
  all: apply (all_bytes_spec _ (rx_qos data)) in H; [|done].
  all: apply (all_bytes_spec _ (rx_hops data)) in H; [|done].
  all: unfold info_check in H; apply andb_true_iff in H as [H1%Z.eqb_eq H2%Z.eqb_eq].
  all: unfold rx_info; rewrite Z.shiftl_0_r.
  - etransitivity; [exact H1|]. change 3 with (Z.ones 2). by rewrite Z.land_ones.
  - exact H2.
Qed.

Record rx_valid (data : app_lib_data_received_t) : Prop := {
  rv_len : rx_num_bytes data = Z.of_nat (length (rx_bytes data));
  rv_max : rx_num_bytes data <= APDU_MAX_SIZE;
  rv_bytes : bytes (rx_bytes data);
  rv_src : is_u32 (rx_src_address data); rv_delay : is_u32 (rx_delay data);
  rv_qos : is_u8 (rx_qos data); rv_hops : is_u8 (rx_hops data);
  rv_src_ep : is_u8 (rx_src_endpoint data); rv_dst_ep : is_u8 (rx_dest_endpoint data);
  rv_frag : forall g, rx_fragment_info data = Some g -> fits 12 (packet_id g) /\ is_u16 (fragment_offset g) }.

(** The APDU offset and the function code of the indication. *)
Definition rx_offset (data : app_lib_data_received_t) : nat :=
  match rx_fragment_info data with Some _ => 21 | None => 17 end.
Definition rx_func (data : app_lib_data_received_t) : Z :=
  match rx_fragment_info data with
  | Some _ => WAPS_FUNC_DSAP_DATA_RX_FRAG_IND | None => WAPS_FUNC_DSAP_DATA_RX_IND end.

(** What the host reads in the fragment word. *)
Definition decodes_fragment (g : app_lib_data_fragment_t) (f : frame) : Prop :=
  pld 16 2 f = packet_id g /\ Z.land (pld 18 2 f) 0xfff = fragment_offset g mod 2 ^ 12 /\
  Z.testbit (pld 18 2 f) 15 = last_fragment g.

Lemma decode_word off last :
  is_u16 off ->
  let v := Z.land off DSAP_FRAG_LENGTH_MASK in
  let v := if last : bool then Z.lor v DSAP_FRAG_LAST_FLAG_MASK else v in
  is_u16 v /\ Z.land v 0xfff = off mod 2 ^ 12 /\ Z.testbit v 15 = last.
Proof.
  intros Ho v0 v. change DSAP_FRAG_LENGTH_MASK with (Z.ones 12) in *.
  assert (E0 : v0 = off mod 2 ^ 12) by (by apply Z.land_ones).
  assert (H0 : fits 12 v0) by (rewrite E0; apply Z.mod_pos_bound; lia).
  destruct (fragment_word (off mod 2 ^ 12) last) as (H1 & H2 & H3); [by rewrite <- E0|].
  assert (Ev : v = off mod 2 ^ 12 + (if last then 2 ^ 15 else 0)).
  { unfold v. rewrite E0. destruct last; [|lia].
    rewrite Z.lor_comm. change DSAP_FRAG_LAST_FLAG_MASK with (Z.shiftl 8 12).
    rewrite lor_shiftl_add by (done || by rewrite <- E0). lia. }
  rewrite Ev. split_and!; [done|done|]. rewrite <- H3 at 2.
  change DSAP_FRAG_LAST_FLAG_MASK with (2 ^ 15).
  set (x := _ + _). destruct (Z.testbit x 15) eqn:Eb.
  - symmetry. apply Z.eqb_eq. apply Z.bits_inj'. intros i Hi.
    rewrite Z.land_spec, Z.pow2_bits_eqb by lia. destruct (Z.eqb_spec 15 i) as [<-|]; [by rewrite Eb|btauto].
  - symmetry. apply Z.eqb_neq. intros E. apply (f_equal (fun y => Z.testbit y 15)) in E.
    by rewrite Z.land_spec, Eb, Z.pow2_bits_true in E.
Qed.

(** The fragment word is written, then completed with the last bit. *)
Lemma word_step (last : bool) word f :
  is_u16 word -> length f = FRAME_SIZE ->
  let f1 := set_pld 18 2 word f in
  (if last then set_pld 18 2 (Z.lor (pld 18 2 f1) DSAP_FRAG_LAST_FLAG_MASK) f1 else f1) =
    set_pld 18 2 (if last then Z.lor word DSAP_FRAG_LAST_FLAG_MASK else word) f.
Proof.
  intros Hw Hl f1. unfold f1. change FRAME_SIZE with 126%nat in Hl. destruct last; [|done].
  frame_unfold. rewrite set_field_set_field, field_same by lia. by rewrite uwrap_small.
Qed.

(** Read one field of a built indication. *)
Ltac indication_field :=
  unfold rx_common; frame_unfold; frame_read;
  first [ done
        | by apply uwrap_small
        | rewrite uwrap_small;
          unfold FRAME_DSAP_DATA_RX_IND_HEADER_SIZE, FRAME_DSAP_DATA_RX_FRAG_IND_HEADER_SIZE, fits; lia
        | rewrite uwrap_small by done; done ].

Section Indications.
Context {W : Type} (env : data_env W).

(** a received packet of at most 102 bytes becomes an indication from
    which the host reads the packet back: addresses, endpoints, quality of
    service, hop count (saturated at 63), delay, fragment position and bytes;
    the indication fits in the frame and is stamped with the current time. *)
Theorem dsap_rx_indication data dst_addr item w :
  rx_valid data -> is_u32 dst_addr -> wf_item item ->
  let '(item', w') := Dsap_packetReceived env data dst_addr item w in
  let f := item_frame item' in
  let hdr := rx_offset data in
  (time item', w') = getTimestampCoarse env w /\ pre_cb item' = Some update_packet_delay /\
  wf_item item' /\ sfunc f = rx_func data /\ splen f = Z.of_nat hdr + rx_num_bytes data /\
  pld 0 1 f = 0 /\ pld 1 4 f = rx_src_address data /\ pld 5 1 f = rx_src_endpoint data /\
  pld 6 4 f = dst_addr /\ pld 10 1 f = rx_dest_endpoint data /\
  Z.land (pld 11 1 f) 3 = rx_qos data mod 4 /\ Z.shiftr (pld 11 1 f) 2 = Z.min (rx_hops data) 63 /\
  pld 12 4 f = rx_delay data /\ pld (hdr - 1) 1 f = rx_num_bytes data /\
  pld_bytes hdr (length (rx_bytes data)) f = rx_bytes data /\
  (forall g, rx_fragment_info data = Some g -> decodes_fragment g f).
Proof.
  intros Hv Hd [Hl Hb]. destruct (rx_info_spec data (rv_qos _ Hv) (rv_hops _ Hv)) as (Hq & Hh & Hi).
  pose proof (rv_len _ Hv) as Hlen. pose proof (rv_max _ Hv) as Hmax. unfold APDU_MAX_SIZE in Hmax.
  unfold Dsap_packetReceived. rewrite bindE. rewrite take_ge by lia.
  destruct (getTimestampCoarse env w) as [now w']. cbn [fst snd mret st_ret].
  unfold rx_offset, rx_func. change FRAME_SIZE with 126%nat in Hl.
  pose proof (rv_src _ Hv). pose proof (rv_delay _ Hv). pose proof (rv_src_ep _ Hv).
  pose proof (rv_dst_ep _ Hv). pose proof (rv_frag _ Hv) as Hfr. pose proof (rv_bytes _ Hv).
  assert (Hin : forall off f, (off + length (rx_bytes data) <= length f)%nat ->
    slice off (length (rx_bytes data)) (blit off (rx_bytes data) f) = rx_bytes data)
    by (intros; by apply slice_blit).
  destruct (rx_fragment_info data) as [g|].
  - destruct (Hfr g eq_refl) as [Hid Hoff]. set (word := Z.land (fragment_offset g) DSAP_FRAG_LENGTH_MASK).
    destruct (decode_word (fragment_offset g) (last_fragment g) Hoff) as (Hw & Hw1 & Hw2).
    fold word in Hw, Hw1, Hw2.
    pose proof (fits_weaken 12 16 (packet_id g) ltac:(lia) Hid) as Hid16.
    cbn [item_frame on_frame with_frame with_cbs with_time time pre_cb Waps_item_init Nat.sub].
    rewrite word_step; [|by apply fits_land_l|unfold rx_common; frame_unfold; by rewrite !length_set_field].
    split_and!; try done; try indication_field.
    + unfold wf_item. cbn [item_frame]. unfold rx_common. apply wf_blit; [done|].
      destruct (last_fragment g); by repeat apply wf_set_field.
    + frame_unfold. apply Hin. unfold rx_common. frame_unfold. rewrite !length_set_field. lia.
    + intros ? [= <-]. set (wd := if last_fragment g then _ else word) in *.
      unfold decodes_fragment. rewrite <- Hw1, <- Hw2. split_and!; indication_field.
  - cbn [item_frame on_frame with_frame with_cbs with_time time pre_cb Waps_item_init Nat.sub].
    split_and!; try done; try indication_field.
    + unfold wf_item. cbn [item_frame]. unfold rx_common. apply wf_blit; [done|].
      repeat apply wf_set_field. done.
    + frame_unfold. apply Hin. unfold rx_common. frame_unfold. rewrite !length_set_field. lia.
Qed.
(** the indication of a sent packet carries the identifier, addresses,
    queueing delay and outcome the stack reported. *)
Theorem dsap_tx_indication id src_ep dst_ep queue_time dst success item :
  is_u16 id -> is_u8 src_ep -> is_u8 dst_ep -> is_u32 queue_time -> is_u32 dst -> wf_item item ->
  let item' := Dsap_packetSent id src_ep dst_ep queue_time dst success item in
  let f := item_frame item' in
  wf_item item' /\ time item' = 0 /\ pre_cb item' = None /\ sfunc f = WAPS_FUNC_DSAP_DATA_TX_IND /\
  splen f = DSAP_DATA_TX_IND_SIZE /\ pld 0 1 f = 0 /\ pld 1 2 f = id /\ pld 3 1 f = src_ep /\
  pld 4 4 f = dst /\ pld 8 1 f = dst_ep /\ pld 9 4 f = queue_time /\
  (pld 13 1 f = DSAP_IND_SUCCESS <-> success = true).
Proof.
  intros ? ? ? ? ? [Hl Hb]. change FRAME_SIZE with 126%nat in Hl.
  unfold Dsap_packetSent. cbn zeta.
  cbn [item_frame on_frame with_frame with_cbs with_time time pre_cb Waps_item_init].
  split_and!; try done; try indication_field.
  - unfold wf_item. cbn [item_frame]. by repeat apply wf_set_field.
  - frame_unfold. frame_read. by destruct success.
Qed.

(** One transmission attempt after the other, in the worlds [ws]. *)
Definition attempts (ws : list W) (item : waps_item_t) : waps_item_t :=
  foldl (fun item w => (Dsap_update_packet_delay env item w).1) item ws.

Lemma attempt_step item w :
  let item' := (Dsap_update_packet_delay env item w).1 in
  time item' = (getTimestampCoarse env w).1 /\
  item_frame item' =
    if sfunc (item_frame item) =? WAPS_FUNC_DSAP_DATA_RX_IND
    then set_pld 12 4 (pld 12 4 (item_frame item) + u32 ((getTimestampCoarse env w).1 - time item))
           (item_frame item)
    else item_frame item.
Proof.
  unfold Dsap_update_packet_delay. rewrite bindE. cbn [mret st_ret fst time item_frame on_frame
    with_frame with_time]. split; [done|].
  by destruct (sfunc (item_frame item) =? WAPS_FUNC_DSAP_DATA_RX_IND).
Qed.

(** whatever the number of attempts it takes, the delay of a received packet
    that reaches the host has grown by exactly the time the indication stayed
    in the device, and the attempts change nothing else in the frame. *)
Theorem dsap_delay_accumulates item ws w :
  wf_item item -> sfunc (item_frame item) = WAPS_FUNC_DSAP_DATA_RX_IND ->
  let item' := attempts (ws ++ [w]) item in
  let now := (getTimestampCoarse env w).1 in
  time item' = now /\
  item_frame item' = set_pld 12 4 (pld 12 4 (item_frame item) + (now - time item)) (item_frame item).
Proof.
  revert item. induction ws as [|w0 ws IH]; intros item Hwf Hf; cbn zeta in *;
    unfold attempts in *; cbn [app foldl].
  - destruct (attempt_step item w) as [Et Ef]. rewrite Hf, Z.eqb_refl in Ef.
    split; [exact Et|]. rewrite Ef. unfold set_pld, set_field. f_equal.
    apply le_put_wrap. by rewrite (uwrap_add_r 32).
  - destruct (attempt_step item w0) as [Et Ef]. rewrite Hf, Z.eqb_refl in Ef.
    destruct (IH (Dsap_update_packet_delay env item w0).1) as [Et' Ef'].
    + unfold wf_item. rewrite Ef. by apply wf_set_field.
    + rewrite Ef, <- Hf. frame_unfold. by rewrite field_set_field_disj by lia.
    + split; [exact Et'|]. etransitivity; [exact Ef'|]. rewrite Ef, Et.
      destruct Hwf as [Hl _]. change FRAME_SIZE with 126%nat in Hl. frame_unfold.
      rewrite set_field_set_field, field_same by lia. unfold set_field. f_equal.
      apply le_put_wrap. change (8 * Z.of_nat 4) with 32. rewrite uwrap_add_l.
      set (t0 := (getTimestampCoarse env w0).1). set (t := (getTimestampCoarse env w).1).
      replace (_ + _) with (field 15 4 (item_frame item) + (t - t0) + uwrap 32 (t0 - time item)) by lia.
      rewrite uwrap_add_r. f_equal. lia.
Qed.

(** The delay of a fragment never grows: the second test of
    [update_packet_delay] repeats the function code of the first one. *)
Lemma fragment_delay_not_updated item ws :
  sfunc (item_frame item) = WAPS_FUNC_DSAP_DATA_RX_FRAG_IND ->
  item_frame (attempts ws item) = item_frame item.
Proof.
  unfold attempts. revert item. induction ws as [|w ws IH]; intros item Hf; [done|]. cbn [foldl].
  destruct (attempt_step item w) as [_ Ef]. rewrite Hf in Ef. cbn [Z.eqb] in Ef.
  rewrite IH; rewrite Ef; done.
Qed.

End Indications.

(** ** A concrete stack

    It records what it is asked to send; the clock stands at 1000. *)

Definition demo_world : Type := list (app_lib_data_to_send_t * bool).
Definition demo_env : data_env demo_world :=
  {| getTimestampCoarse := fun w => (1000, w);
     Shared_Data_sendData := fun d tracked w => (APP_LIB_DATA_SEND_RES_SUCCESS, w ++ [(d, tracked)]);
     getNumFreeBuffers := fun _ w => (16, w) |}.
Definition unlocked : locks demo_world :=
  {| getFeatureLockKey := fun w => (APP_RES_INVALID_CONFIGURATION, w);
     getFeatureLockBits := fun _ w => ((APP_RES_OK, 0), w) |}.
Definition demo_request : tx_request :=
  {| rq_kind := TxFragment 5 0x123 0x456 true; rq_id := 7; rq_src := 1; rq_dst := 0; rq_dst_ep := 2;
     rq_qos := 0; rq_track := true; rq_unack := false; rq_hop_limit := 3; rq_apdu := [0xAA; 0xBB] |}.
Definition demo_pad : list Z := repeat 0 102.
Definition blank : waps_item_t :=
  {| time := 990; pre_cb := None; post_cb := None; item_frame := repeat 0 FRAME_SIZE |}.
Definition demo_item : waps_item_t := with_frame (rq_frame demo_request 9 demo_pad) blank.

Lemma demo_request_valid : rq_valid demo_request.
Proof.
  constructor; try by vm_compute.
  - cbn. byte_list.
  - vm_compute. lia.
Qed.

Lemma blank_wf : wf_item blank.
Proof. split; [done|]. by apply bytes_repeat. Qed.

Lemma dsap_tx_request_witness :
  exists item', Dsap_handleFrame demo_env unlocked demo_item [] =
      ((true, item'), [(rq_data demo_request 10, true)]) /\
    confirms demo_request 9 APP_LIB_DATA_SEND_RES_SUCCESS 16 (item_frame item').
Proof.
  pose proof (dsap_tx_request demo_env unlocked demo_request 9 demo_pad demo_item [] demo_request_valid
    ltac:(by vm_compute) eq_refl eq_refl) as H.
  cbn in H. destruct H as (item' & E & Hc & _). exists item'. split; [exact E|exact Hc].
Defined.

Lemma dsap_size_guard_witness :
  Dsap_handleFrame demo_env unlocked (with_frame (set_splen 20 (rq_frame demo_request 9 demo_pad)) blank) [] =
    ((false, with_frame (set_splen 20 (rq_frame demo_request 9 demo_pad)) blank), []).
Proof.
  assert (Hwf : wf_item (with_frame (set_splen 20 (rq_frame demo_request 9 demo_pad)) blank)).
  { apply wf_set_field. split; [done|]. apply (bool_decide_unpack _). by vm_compute. }
  pose proof (dsap_size_guard demo_env unlocked
    (with_frame (set_splen 20 (rq_frame demo_request 9 demo_pad)) blank) [] Hwf
    ltac:(by vm_compute)) as H.
  destruct (Dsap_handleFrame _ _ _ _) as [[ok item'] w'].
  destruct H as (Hok & _ & Hno & _).
  assert (Hf : ok = false) by (rewrite Hok; by vm_compute).
  destruct (Hno Hf) as [-> ->]. by rewrite Hf.
Defined.

Definition demo_received : app_lib_data_received_t :=
  {| rx_bytes := [1; 2; 3]; rx_num_bytes := 3; rx_src_address := 0x11; rx_delay := 40; rx_qos := 1;
     rx_src_endpoint := 5; rx_dest_endpoint := 6; rx_hops := 200; rx_dest_address := 0;
     rx_fragment_info := Some {| packet_id := 0xABC; fragment_offset := 0x102; last_fragment := true |} |}.

Lemma dsap_rx_indication_witness :
  Z.shiftr (pld 11 1 (item_frame (Dsap_packetReceived demo_env demo_received 0x22 blank []).1)) 2 = 63.
Proof.
  assert (Hv : rx_valid demo_received).
  { constructor; try by vm_compute.
    - cbn. byte_list.
    - intros g [= <-]. split; by vm_compute. }
  pose proof (dsap_rx_indication demo_env demo_received 0x22 blank [] Hv ltac:(by vm_compute) blank_wf) as H.
  destruct (Dsap_packetReceived _ _ _ _ _) as [item' w'].
  destruct H as (_ & _ & _ & _ & _ & _ & _ & _ & _ & _ & _ & H & _). exact H.
Defined.

Lemma dsap_tx_indication_witness :
  pld 9 4 (item_frame (Dsap_packetSent 7 1 2 300 0x22 true blank)) = 300.
Proof.
  pose proof (dsap_tx_indication 7 1 2 300 0x22 true blank ltac:(by vm_compute) ltac:(by vm_compute)
    ltac:(by vm_compute) ltac:(by vm_compute) ltac:(by vm_compute) blank_wf) as H.
  apply H.
Defined.

(** An indication stamped at 990 with delay 40 leaves at 1000 with delay 50. *)
Lemma dsap_delay_accumulates_witness :
  let item := Dsap_packetReceived demo_env
    {| rx_bytes := []; rx_num_bytes := 0; rx_src_address := 1; rx_delay := 40; rx_qos := 0;
       rx_src_endpoint := 1; rx_dest_endpoint := 1; rx_hops := 1; rx_dest_address := 0; rx_fragment_info := None |} 2 blank [] in
  pld 12 4 (item_frame (attempts demo_env [[]; []] (with_time 990 item.1))) = 50.
Proof.
  intros item.
  assert (Hwf : wf_item (with_time 990 item.1)).
  { split; [done|]. apply (bool_decide_unpack _). by vm_compute. }
  pose proof (dsap_delay_accumulates demo_env (with_time 990 item.1) [[]] [] Hwf
    ltac:(by vm_compute)) as [_ E].
  etransitivity; [exact (f_equal (pld 12 4) E)|by vm_compute].
Defined.
