(* ===== verification/Csap.v ===== *)
(** * Configuration service access point

    [waps/sap/csap.c]: reading and writing of the node's attributes and the
    factory reset, from the request frame to the confirmation.  The settings
    library of the stack is a record of functions over a world [W]; the
    persistent area and the power switch of the serial line are the components
    of this repository. *)

From S2P Require Import Prelude Api WapsUart WapsFrames WapsServices.
Import LockBits.

(** ** Codes *)

Definition RESET_KEY : Z := 0x74496f44.

(** [csap_reset_e] *)
Definition CSAP_RESET_OK : Z := 0.
Definition CSAP_RESET_INVALID_STATE : Z := 1.
Definition CSAP_RESET_INVALID_KEY : Z := 2.
Definition CSAP_RESET_ACCESS_DENIED : Z := 3.

(** [csap_attr_e] *)
Definition CSAP_ATTR_NODE_ID : Z := 1.
Definition CSAP_ATTR_NETWORK_ADDR : Z := 2.
Definition CSAP_ATTR_NETWORK_CHANNEL : Z := 3.
Definition CSAP_ATTR_NODE_ROLE : Z := 4.
Definition CSAP_ATTR_APP_MAXT_TRANS_UNIT : Z := 5.
Definition CSAP_ATTR_PDU_BUFF_SIZE : Z := 6.
Definition CSAP_ATTR_SCRATCHPAD_SEQ : Z := 7.
Definition CSAP_ATTR_WAPS_VERSION : Z := 8.
Definition CSAP_ATTR_FIRMWARE_MAJOR : Z := 9.
Definition CSAP_ATTR_FIRMWARE_MINOR : Z := 10.
Definition CSAP_ATTR_FIRMWARE_MAINTENANCE : Z := 11.
Definition CSAP_ATTR_FIRMWARE_DEVELOPMENT : Z := 12.
Definition CSAP_ATTR_CIPHER_KEY : Z := 13.
Definition CSAP_ATTR_AUTHENTICATION_KEY : Z := 14.
Definition CSAP_ATTR_CHANNEL_LIMITS : Z := 15.
Definition CSAP_ATTR_APPCFG_MAX_SIZE : Z := 16.
Definition CSAP_ATTR_HWMAGIC : Z := 17.
Definition CSAP_ATTR_STACK_PROFILE : Z := 18.
Definition CSAP_ATTR_OFFLINE_SCAN : Z := 20.
Definition CSAP_ATTR_FEATURE_LOCK_BITS : Z := 22.
Definition CSAP_ATTR_FEATURE_LOCK_KEY : Z := 23.
Definition CSAP_ATTR_RESERVED_CHANNELS : Z := 25.

Definition m_attr_size_lut : list Z :=
  [4; 3; 1; 1; 1; 1; 1; 2; 2; 2; 2; 2; 16; 16; 2; 1; 2; 2; 0; 2; 0; 4; 16; 0; 0].

Definition WAPS_VERSION : Z := 18.

(** [sizeof(csap_reset_req_t)] *)
Definition CSAP_RESET_REQ_SIZE : Z := 4.

(** ** Node roles: [node_role_e] and [app_lib_settings_role_t] *)

Definition role_of_app (role : Z) : Z :=
  if role =? 0x00 then 0x01
  else if role =? 0x10 then 0x11
  else if role =? 0x01 then 0x02
  else if role =? 0x11 then 0x12
  else if role =? 0x02 then 0x03
  else if role =? 0x12 then 0x13
  else if role =? 0x42 then 0x83
  else if role =? 0x52 then 0x93
  else 0x00.

(** [None] is the early return for [NODE_ROLE_INVALID]. *)
Definition app_of_role (role : Z) : option Z :=
  if role =? 0x01 then Some 0x00
  else if role =? 0x02 then Some 0x01
  else if role =? 0x03 then Some 0x02
  else if role =? 0x11 then Some 0x10
  else if role =? 0x12 then Some 0x11
  else if role =? 0x13 then Some 0x12
  else if (role =? 0x82) || (role =? 0x83) then Some 0x42
  else if (role =? 0x92) || (role =? 0x93) then Some 0x52
  else if role =? 0x00 then None
  else Some 0xff.

Definition appRes2attrRes (res : Z) : Z :=
  if res =? APP_RES_OK then ATTR_SUCCESS
  else if res =? APP_RES_NOT_IMPLEMENTED then ATTR_UNSUPPORTED_ATTRIBUTE
  else if (res =? APP_RES_INVALID_VALUE) || (res =? APP_RES_INVALID_NULL_POINTER) ||
          (res =? APP_RES_INVALID_CONFIGURATION) then ATTR_INV_VALUE
  else if res =? APP_RES_RESOURCE_UNAVAILABLE then ATTR_WRITE_ONLY
  else if res =? APP_RES_INVALID_STACK_STATE then ATTR_INVALID_STACK_STATE
  else if res =? APP_RES_ACCESS_DENIED then ATTR_ACCESS_DENIED
  else ATTR_UNSUPPORTED_ATTRIBUTE.

(** ** The stack

    A getter returns its result code and the value it stores when that is
    [APP_RES_OK]; the ones called with an initialised variable whatever the
    result get its content.  [getEncryptionKey] and [getAuthenticationKey] are
    called with [NULL]. *)
Record stack (W : Type) := {
  stack_locks : locks W;
  stack_storage : Persistent.lib_storage W;
  getNodeAddress : st W (Z * Z);
  setNodeAddress : Z -> st W Z;
  getNetworkAddress : st W (Z * Z);
  setNetworkAddress : Z -> st W Z;
  getNetworkChannel : st W (Z * Z);
  setNetworkChannel : Z -> st W Z;
  getNodeRole : st W (Z * Z);
  setNodeRole : Z -> st W Z;
  getDataMaxNumBytes : st W Z;
  getSeq : st W Z;
  getStackFirmwareVersion : st W (Z * Z * Z * Z);
  getNumBuffers : st W Z;
  getEncryptionKey : st W Z;
  setEncryptionKey : list Z -> st W Z;
  getAuthenticationKey : st W Z;
  setAuthenticationKey : list Z -> st W Z;
  getNetworkChannelLimits : Z * Z -> st W (Z * Z);
  getAppConfigNumBytes : st W Z;
  getRadioInfo : st W (Z * Z);
  getOfflineScan : Z -> st W (Z * Z);
  setOfflineScan : Z -> st W Z;
  setFeatureLockBits : Z -> st W Z;
  setFeatureLockKey : list Z -> st W Z;
  getReservedChannels : Z -> list Z -> st W (Z * list Z);
  setReservedChannels : list Z -> Z -> st W Z;
  setTargetScratchpadAndAction : Z -> Z -> Z -> Z -> st W Z;
  resetAll : st W Z }.

Arguments stack_locks {W}. Arguments stack_storage {W}.
Arguments getNodeAddress {W}. Arguments setNodeAddress {W}.
Arguments getNetworkAddress {W}. Arguments setNetworkAddress {W}.
Arguments getNetworkChannel {W}. Arguments setNetworkChannel {W}.
Arguments getNodeRole {W}. Arguments setNodeRole {W}.
Arguments getDataMaxNumBytes {W}. Arguments getSeq {W}. Arguments getStackFirmwareVersion {W}.
Arguments getNumBuffers {W}. Arguments getEncryptionKey {W}. Arguments setEncryptionKey {W}.
Arguments getAuthenticationKey {W}. Arguments setAuthenticationKey {W}.
Arguments getNetworkChannelLimits {W}. Arguments getAppConfigNumBytes {W}.
Arguments getRadioInfo {W}. Arguments getOfflineScan {W}. Arguments setOfflineScan {W}.
Arguments setFeatureLockBits {W}. Arguments setFeatureLockKey {W}.
Arguments getReservedChannels {W}. Arguments setReservedChannels {W}.
Arguments setTargetScratchpadAndAction {W}. Arguments resetAll {W}.

(** The state the handler works on: the persistent area (with the world) and
    the power switch. *)
Record state (W : Type) := { persistent : Persistent.state W; power : Power.state }.
Arguments persistent {W}. Arguments power {W}. Arguments Build_state {W}.

Definition world {W} (s : state W) : W := Persistent.world (persistent s).

Section Csap.

(** [tmp0] is the content of [readAttr]'s variable [tmp] before it is assigned,
    [num_channels] and [m_baudrate] are set at initialisation, and
    [otap_force_legacy] is the build option [OTAP_FORCE_LEGACY]. *)
Context {W : Type} (lib : stack W).
Context (tmp0 num_channels m_baudrate : Z) (otap_force_legacy : bool).

Abbreviation M := (st (state W)).

Definition in_persistent {A} (m : st (Persistent.state W) A) : M A := fun s =>
  let '(x, p) := m (persistent s) in (x, Build_state p (power s)).

Definition in_world {A} (m : st W A) : M A :=
  in_persistent (fun p =>
    let '(x, w) := m (Persistent.world p) in
    (x, Persistent.Build_state (Persistent.m_persistent_image p) w)).

Definition isFeaturePermitted (bits : Z) : M bool :=
  in_world (LockBits_isFeaturePermitted (stack_locks lib) bits).

(** ** Reading *)

(** A getter whose value goes to [tmp] when it succeeds. *)
Definition get_tmp (get : st W (Z * Z)) (conv : Z -> Z) : M (Z * Z) :=
  r ← in_world get; mret (r.1, if r.1 =? APP_RES_OK then conv r.2 else tmp0).

Definition get_ok (get : st W Z) : M (Z * Z) := v ← in_world get; mret (APP_RES_OK, v).

Definition key_is_set (get : st W Z) : M (Z * Z) :=
  r ← in_world get;
  mret (if r =? APP_RES_OK then APP_RES_RESOURCE_UNAVAILABLE else APP_RES_INVALID_CONFIGURATION, tmp0).

Definition fw_version (part : Z * Z * Z * Z -> Z) : M (Z * Z) :=
  v ← in_world (getStackFirmwareVersion lib); mret (APP_RES_OK, part v).

(** The switch of [readAttr]: [result] and [tmp]. *)
Definition read_tmp (attr_id : Z) : M (Z * Z) :=
  if attr_id =? CSAP_ATTR_NODE_ID then get_tmp (getNodeAddress lib) Addr_to_Waddr
  else if attr_id =? CSAP_ATTR_NETWORK_ADDR then get_tmp (getNetworkAddress lib) id
  else if attr_id =? CSAP_ATTR_NETWORK_CHANNEL then get_tmp (getNetworkChannel lib) id
  else if attr_id =? CSAP_ATTR_NODE_ROLE then get_tmp (getNodeRole lib) role_of_app
  else if attr_id =? CSAP_ATTR_APP_MAXT_TRANS_UNIT then get_ok (getDataMaxNumBytes lib)
  else if attr_id =? CSAP_ATTR_SCRATCHPAD_SEQ then get_ok (getSeq lib)
  else if attr_id =? CSAP_ATTR_WAPS_VERSION then mret (APP_RES_OK, WAPS_VERSION)
  else if attr_id =? CSAP_ATTR_FIRMWARE_MAJOR then fw_version (fun v => v.1.1.1)
  else if attr_id =? CSAP_ATTR_FIRMWARE_MINOR then fw_version (fun v => v.1.1.2)
  else if attr_id =? CSAP_ATTR_FIRMWARE_MAINTENANCE then fw_version (fun v => v.1.2)
  else if attr_id =? CSAP_ATTR_FIRMWARE_DEVELOPMENT then fw_version (fun v => v.2)
  else if attr_id =? CSAP_ATTR_PDU_BUFF_SIZE then get_ok (getNumBuffers lib)
  else if attr_id =? CSAP_ATTR_CIPHER_KEY then key_is_set (getEncryptionKey lib)
  else if attr_id =? CSAP_ATTR_AUTHENTICATION_KEY then key_is_set (getAuthenticationKey lib)
  else if attr_id =? CSAP_ATTR_CHANNEL_LIMITS then
    l ← in_world (getNetworkChannelLimits lib (0, 0));
    mret (APP_RES_OK, Z.lor (Z.land l.1 0xff) (Z.shiftl (Z.land l.2 0xff) 8))
  else if attr_id =? CSAP_ATTR_APPCFG_MAX_SIZE then get_ok (getAppConfigNumBytes lib)
  else if attr_id =? CSAP_ATTR_HWMAGIC then
    i ← in_world (getRadioInfo lib); mret (APP_RES_OK, i.1)
  else if attr_id =? CSAP_ATTR_STACK_PROFILE then
    i ← in_world (getRadioInfo lib); mret (APP_RES_OK, i.2)
  else if attr_id =? CSAP_ATTR_OFFLINE_SCAN then in_world (getOfflineScan lib 0)
  else if attr_id =? CSAP_ATTR_FEATURE_LOCK_BITS then
    in_world (getFeatureLockBits (stack_locks lib) tmp0)
  else if attr_id =? CSAP_ATTR_FEATURE_LOCK_KEY then
    r ← in_world (getFeatureLockKey (stack_locks lib)); mret (r, tmp0)
  else mret (APP_RES_NOT_IMPLEMENTED, tmp0).

(** The size of the reserved channels' bit array. *)
Definition reserved_size : Z := Z.min ((num_channels + 7) / 8) WAPS_MAX_ATTR_LEN.

(** [readAttr]: the result, the new content of [value] (in the frame, at the
    attribute of the confirmation) and of [*attr_size_p].  [None] stands for a
    copy that reads beyond the four bytes of [tmp]. *)
Definition readAttr (attr_id : Z) (f : frame) (attr_size : Z) : M (option (Z * frame * Z)) :=
  if attr_id =? CSAP_ATTR_RESERVED_CHANNELS then
    r ← in_world (getReservedChannels lib reserved_size (pld_bytes 4 (Z.to_nat reserved_size) f));
    mret (Some (appRes2attrRes r.1,
                set_pld_bytes 4 (take (Z.to_nat reserved_size) r.2) f, reserved_size))
  else
    r ← read_tmp attr_id;
    mret (if (r.1 =? APP_RES_OK) && (0 <? attr_size) then
            if 4 <? attr_size then None
            else Some (appRes2attrRes r.1,
                       set_pld_bytes 4 (le_put (Z.to_nat attr_size) r.2) f, attr_size)
          else Some (appRes2attrRes r.1, f, attr_size)).

(** From [build_response] on. *)
Definition read_response (attr_id result attr_size : Z) (item : waps_item_t) : waps_item_t :=
  let item := Waps_item_init WAPS_FUNC_CSAP_ATTR_READ_CNF FRAME_READ_CNF_HEADER_SIZE item in
  on_frame (fun f =>
    let f := if result =? ATTR_SUCCESS
             then set_pld 3 1 attr_size (set_splen (splen f + attr_size) f)
             else set_pld 3 1 0 f in
    set_pld 1 2 attr_id (set_pld 0 1 result f)) item.

Definition read_permission (attr_id : Z) : Z :=
  if attr_id =? CSAP_ATTR_SCRATCHPAD_SEQ then LOCK_BITS_MSAP_SCRATCHPAD_STATUS
  else LOCK_BITS_CSAP_ATTR_READ.

Definition attrReadReq (item : waps_item_t) : M (option (bool * waps_item_t)) :=
  let f := item_frame item in
  let attr_id := pld 0 2 f in
  let idx := u32 (attr_id - 1) in
  if negb (splen f =? READ_REQ_SIZE) then mret (Some (false, item))
  else if Z.of_nat (length m_attr_size_lut) <=? idx then
    mret (Some (true, read_response attr_id ATTR_UNSUPPORTED_ATTRIBUTE 0 item))
  else
    ok ← isFeaturePermitted (read_permission attr_id);
    if negb ok then mret (Some (true, read_response attr_id ATTR_ACCESS_DENIED 0 item))
    else
      r ← readAttr attr_id f (nth (Z.to_nat idx) m_attr_size_lut 0);
      mret (match r with
            | None => None
            | Some (result, f, attr_size) =>
                Some (true, read_response attr_id result attr_size (with_frame f item))
            end).

(** ** Writing *)

Definition power_reset : M unit :=
  if Power.MAX_BAUDRATE_FOR_AUTOPOWER <? m_baudrate then
    modify (fun s => Build_state (persistent s) (Power.Waps_uart_powerReset m_baudrate None (power s)))
  else
    r ← in_world (getNodeRole lib);
    modify (fun s => Build_state (persistent s)
      (Power.Waps_uart_powerReset m_baudrate
         (if r.1 =? APP_RES_OK then Some r.2 else None) (power s))).

Definition APP_LIB_OTAP_ACTION_LEGACY : Z := 4.

(** Sinks of a legacy network keep their scratchpad action on first boot. *)
Definition force_legacy (app_role : Z) : M unit :=
  r ← in_persistent (Persistent.Persistent_isFirstboot (stack_storage lib));
  if ((app_role =? 0x00) || (app_role =? 0x10)) && r.2 then
    t ← in_world (setTargetScratchpadAndAction lib 0x00 0x0000 APP_LIB_OTAP_ACTION_LEGACY 0x00);
    if t =? APP_RES_OK then
      _ ← in_persistent (Persistent.Persistent_setFirstboot (stack_storage lib) false); mret tt
    else mret tt
  else mret tt.

Definition write_role (app_role : Z) : M Z :=
  r ← in_world (setNodeRole lib app_role);
  if r =? APP_RES_OK then
    _ ← power_reset;
    _ ← (if otap_force_legacy then force_legacy app_role else mret tt);
    mret (appRes2attrRes r)
  else mret (appRes2attrRes r).

Definition set_attr (set : st W Z) : M Z := r ← in_world set; mret (appRes2attrRes r).

(** [value] is the attribute in the request, from its first byte on. *)
Definition writeAttr (attr_id : Z) (value : list Z) (attr_size : Z) : M Z :=
  let tmp := if attr_size <=? 4 then le_get (take (Z.to_nat attr_size) value) else 0 in
  if attr_id =? CSAP_ATTR_NODE_ID then set_attr (setNodeAddress lib (Waddr_to_Addr tmp))
  else if attr_id =? CSAP_ATTR_NETWORK_ADDR then set_attr (setNetworkAddress lib tmp)
  else if attr_id =? CSAP_ATTR_NETWORK_CHANNEL then set_attr (setNetworkChannel lib (u8 tmp))
  else if attr_id =? CSAP_ATTR_NODE_ROLE then
    match app_of_role (u8 tmp) with
    | None => mret ATTR_INV_VALUE
    | Some app_role => write_role app_role
    end
  else if attr_id =? CSAP_ATTR_CIPHER_KEY then set_attr (setEncryptionKey lib (take 16 value))
  else if attr_id =? CSAP_ATTR_AUTHENTICATION_KEY then
    set_attr (setAuthenticationKey lib (take 16 value))
  else if attr_id =? CSAP_ATTR_OFFLINE_SCAN then set_attr (setOfflineScan lib (u16 tmp))
  else if attr_id =? CSAP_ATTR_FEATURE_LOCK_BITS then set_attr (setFeatureLockBits lib tmp)
  else if attr_id =? CSAP_ATTR_FEATURE_LOCK_KEY then set_attr (setFeatureLockKey lib (take 16 value))
  else if attr_id =? CSAP_ATTR_RESERVED_CHANNELS then
    set_attr (setReservedChannels lib (take (Z.to_nat attr_size) value) attr_size)
  else mret (appRes2attrRes APP_RES_NOT_IMPLEMENTED).

Definition write_response (result : Z) (item : waps_item_t) : waps_item_t :=
  on_frame (set_pld 0 1 result) (Waps_item_init WAPS_FUNC_CSAP_ATTR_WRITE_CNF SIMPLE_CNF_SIZE item).

(** The two conditions on the feature lock, evaluated in order. *)
Definition lock_bits_locked (attr_id : Z) : M bool :=
  if attr_id =? CSAP_ATTR_FEATURE_LOCK_BITS then in_world (LockBits_isKeySet (stack_locks lib))
  else mret false.

Definition write_permitted (attr_id : Z) : M bool :=
  if negb (attr_id =? CSAP_ATTR_FEATURE_LOCK_KEY)
  then isFeaturePermitted LOCK_BITS_CSAP_ATTR_WRITE else mret true.

(** The checks before the attribute is written: [inl] is the result of a failed
    one, [inr] the size to write. *)
Definition write_guard (attr_id attr_len : Z) : M (Z + Z) :=
  let idx := u32 (attr_id - 1) in
  if Z.of_nat (length m_attr_size_lut) <=? idx then mret (inl ATTR_UNSUPPORTED_ATTRIBUTE)
  else
    locked ← lock_bits_locked attr_id;
    if (locked : bool) then mret (inl ATTR_ACCESS_DENIED)
    else
      ok ← write_permitted attr_id;
      if negb ok then mret (inl ATTR_ACCESS_DENIED)
      else
        let attr_size := nth (Z.to_nat idx) m_attr_size_lut 0 in
        if attr_size =? 0 then mret (inr attr_len)
        else if negb (attr_size =? attr_len) then mret (inl ATTR_INV_LENGTH)
        else mret (inr attr_size).

Definition attrWriteReq (item : waps_item_t) : M (option (bool * waps_item_t)) :=
  let f := item_frame item in
  let attr_id := pld 0 2 f in
  let attr_len := pld 2 1 f in
  if negb (splen f =? FRAME_WRITE_REQ_HEADER_SIZE + attr_len) then mret (Some (false, item))
  else
    g ← write_guard attr_id attr_len;
    result ← (match g with
              | inl result => mret result
              | inr attr_size => writeAttr attr_id (drop (HEADER + 3) f) attr_size
              end);
    mret (Some (true, write_response result item)).

(** ** Factory reset *)

Definition reset_result (reset_key : Z) : M Z :=
  ok ← isFeaturePermitted LOCK_BITS_CSAP_FACTORY_RESET;
  if negb ok then mret CSAP_RESET_ACCESS_DENIED
  else if negb (reset_key =? RESET_KEY) then mret CSAP_RESET_INVALID_KEY
  else
    r ← in_world (resetAll lib);
    if negb (r =? APP_RES_OK) then mret CSAP_RESET_INVALID_STATE
    else
      _ ← in_persistent (Persistent.Persistent_init (stack_storage lib));
      mret CSAP_RESET_OK.

Definition resetReq (item : waps_item_t) : M (option (bool * waps_item_t)) :=
  let f := item_frame item in
  if negb (splen f =? CSAP_RESET_REQ_SIZE) then mret (Some (false, item))
  else
    result ← reset_result (pld 0 4 f);
    mret (Some (true, on_frame (set_pld 0 1 result)
      (Waps_item_init WAPS_FUNC_CSAP_FACTORY_RESET_CNF SIMPLE_CNF_SIZE item))).

Definition Csap_handleFrame (item : waps_item_t) : M (option (bool * waps_item_t)) :=
  let func := sfunc (item_frame item) in
  if func =? WAPS_FUNC_CSAP_ATTR_READ_REQ then attrReadReq item
  else if func =? WAPS_FUNC_CSAP_ATTR_WRITE_REQ then attrWriteReq item
  else if func =? WAPS_FUNC_CSAP_FACTORY_RESET_REQ then resetReq item
  else mret (Some (false, item)).

End Csap.

(** ** Lemmas *)

Lemma state_eta {W} (s : state W) : Build_state (Persistent.Build_state
  (Persistent.m_persistent_image (persistent s)) (world s)) (power s) = s.
Proof. by destruct s as [[? ?] ?]. Qed.

(** A call that leaves the world alone leaves the state alone. *)
Lemma in_world_stable {W A} (m : st W A) x (s : state W) :
  m (world s) = (x, world s) -> in_world m s = (x, s).
Proof.
  intros E. unfold in_world, in_persistent. change (Persistent.world (persistent s)) with (world s).
  rewrite E. by rewrite state_eta.
Qed.

Lemma in_world_val {W A} (m : st W A) (s : state W) : (in_world m s).1 = (m (world s)).1.
Proof.
  unfold in_world, in_persistent, world. by destruct (m (Persistent.world (persistent s))).
Qed.

(** The attributes whose size exceeds four bytes. *)
Lemma lut_sizes attr_id :
  is_u16 attr_id -> u32 (attr_id - 1) < 25 ->
  let size := nth (Z.to_nat (u32 (attr_id - 1))) m_attr_size_lut 0 in
  1 <= attr_id <= 25 /\ 0 <= size <= 16 /\
  (4 < size -> attr_id = CSAP_ATTR_CIPHER_KEY \/ attr_id = CSAP_ATTR_AUTHENTICATION_KEY \/
    attr_id = CSAP_ATTR_FEATURE_LOCK_KEY).
Proof.
  intros Ha Hi size. unfold fits in Ha.
  assert (Hr : 1 <= attr_id <= 25).
  { destruct (Z.eqb_spec attr_id 0) as [->|]; [by vm_compute in Hi|].
    rewrite uwrap_small in Hi by (unfold fits; lia). lia. }
  split; [done|].
  assert (H : forallb (fun n => let a := Z.of_nat n + 1 in
     let sz := nth (Z.to_nat (u32 (a - 1))) m_attr_size_lut 0 in
     (0 <=? sz) && (sz <=? 16) && implb (4 <? sz) ((a =? 13) || (a =? 14) || (a =? 23))) (seq 0 25) = true)
    by (by vm_compute).
  rewrite forallb_forall in H. specialize (H (Z.to_nat (attr_id - 1)) ltac:(apply in_seq; lia)).
  cbn zeta in H. rewrite Z2Nat.id in H by lia. replace (attr_id - 1 + 1) with attr_id in H by lia.
  fold size in H. rewrite !andb_true_iff in H. destruct H as ((H0%Z.leb_le & H16%Z.leb_le) & Himp).
  split; [lia|]. intros H4. rewrite (proj2 (Z.ltb_lt 4 size)) in Himp by done.
  unfold CSAP_ATTR_CIPHER_KEY, CSAP_ATTR_AUTHENTICATION_KEY, CSAP_ATTR_FEATURE_LOCK_KEY.
  cbn [implb] in Himp. lia.
Qed.

Section ReadProofs.
Context {W : Type} (lib : stack W) (tmp0 num_channels : Z).
Context (key : W -> Z) (lock : W -> Z * Z) `{!Stable (stack_locks lib) key lock}.

(** The two assumptions on the environment: the number of channels is a byte
    and the bit array of the reserved channels is made of bytes. *)
Context (num_channels_u8 : is_u8 num_channels).
Context (reserved_bytes : forall n old w, bytes old -> bytes (getReservedChannels lib n old w).1.2).

Lemma permitted_spec bits s :
  isFeaturePermitted lib bits s = (permitted key lock (world s) bits, s).
Proof. apply in_world_stable. exact (isFeaturePermitted_spec (stack_locks lib) key lock (world s) bits). Qed.

Lemma reserved_size_range : 0 <= reserved_size num_channels <= 16.
Proof.
  unfold reserved_size, WAPS_MAX_ATTR_LEN, fits in *.
  assert (0 <= (num_channels + 7) / 8) by (apply Z.div_pos; lia). lia.
Qed.

(** The key attributes never have a value. *)
Lemma read_tmp_key a s :
  a = CSAP_ATTR_CIPHER_KEY \/ a = CSAP_ATTR_AUTHENTICATION_KEY ->
  (read_tmp lib tmp0 a s).1.1 <> APP_RES_OK.
Proof.
  intros Ha.
  assert (Hk : forall get : st W Z, (key_is_set tmp0 get s).1.1 <> APP_RES_OK).
  { intros get. unfold key_is_set. rewrite bindE. cbn. by destruct (_ =? APP_RES_OK). }
  destruct Ha as [-> | ->]; [apply (Hk (getEncryptionKey lib))|apply (Hk (getAuthenticationKey lib))].
Qed.

Lemma read_tmp_lock_key s :
  (read_tmp lib tmp0 CSAP_ATTR_FEATURE_LOCK_KEY s).1.1 = key (world s).
Proof.
  change (read_tmp lib tmp0 CSAP_ATTR_FEATURE_LOCK_KEY) with
    (r ← in_world (getFeatureLockKey (stack_locks lib)); mret (r, tmp0) : st (state W) (Z * Z)).
  rewrite bindE. cbn [fst mret st_ret]. rewrite in_world_val. by rewrite (@stable_key W _ key lock _).
Qed.

(** What [readAttr] may leave in the frame. *)
Definition read_wf (f : frame) (r : Z * frame * Z) : Prop :=
  wf_frame r.1.2 /\ 0 <= r.2 <= 16 /\ sfid r.1.2 = sfid f.

Lemma readAttr_spec a f s :
  is_u16 a -> u32 (a - 1) < 25 -> wf_frame f ->
  let size := nth (Z.to_nat (u32 (a - 1))) m_attr_size_lut 0 in
  match (readAttr lib tmp0 num_channels a f size s).1 with
  | None => a = CSAP_ATTR_FEATURE_LOCK_KEY /\ key (world s) = APP_RES_OK
  | Some r => read_wf f r /\ ~ (a = CSAP_ATTR_FEATURE_LOCK_KEY /\ key (world s) = APP_RES_OK)
  end.
Proof.
  intros Ha Hi Hf size. destruct (lut_sizes a Ha Hi) as (Hr & Hs & Hbig). fold size in Hs, Hbig.
  unfold readAttr. destruct (Z.eqb_spec a CSAP_ATTR_RESERVED_CHANNELS) as [->|Hne].
  { rewrite bindE. cbn [fst mret st_ret]. split; [|by intros [? _]]. unfold read_wf. cbn [fst snd].
    split_and!; [|apply reserved_size_range..|].
    - apply wf_blit; [|done]. apply Forall_take. rewrite in_world_val. apply reserved_bytes.
      apply slice_bytes, Hf.
    - frame_unfold. by rewrite field_blit_disj by lia. }
  rewrite bindE. cbn [fst mret st_ret].
  destruct (Z.eqb_spec (read_tmp lib tmp0 a s).1.1 APP_RES_OK) as [Eok|Eok]; cbn [andb].
  2: { split; [unfold read_wf; cbn [fst snd]; split_and!; done || lia|]. intros [-> Hk]. by rewrite read_tmp_lock_key in Eok. }
  destruct (Z.ltb_spec 0 size) as [Hpos|Hpos].
  2: { split; [unfold read_wf; cbn [fst snd]; split_and!; done || lia|]. intros [-> _]. by vm_compute in Hpos. }
  destruct (Z.ltb_spec 4 size) as [H4|H4].
  - destruct (Hbig H4) as [H|[H|H]].
    + destruct (read_tmp_key a s); auto.
    + destruct (read_tmp_key a s); auto.
    + split; [done|]. rewrite H in Eok. by rewrite read_tmp_lock_key in Eok.
  - split.
    + unfold read_wf. cbn [fst snd]. split_and!; [|done || lia..|].
      * apply wf_blit; [apply le_put_bytes|done].
      * frame_unfold. by rewrite field_blit_disj by lia.
    + intros [-> _]. by vm_compute in H4.
Qed.

Lemma read_response_fields a res size item :
  is_u16 a -> is_u8 res -> 0 <= size <= 16 -> wf_item item ->
  let f := item_frame (read_response a res size item) in
  wf_frame f /\ sfunc f = WAPS_FUNC_CSAP_ATTR_READ_CNF /\ sfid f = sfid (item_frame item) /\
  pld 0 1 f = res /\ pld 1 2 f = a /\ splen f = FRAME_READ_CNF_HEADER_SIZE + pld 3 1 f /\
  pld 3 1 f = if res =? ATTR_SUCCESS then size else 0.
Proof.
  intros Ha Hr Hs [Hl Hb] f. unfold f, read_response. change FRAME_SIZE with 126%nat in Hl.
  cbn [item_frame on_frame with_frame Waps_item_init with_cbs].
  destruct (res =? ATTR_SUCCESS).
  all: split; [by repeat apply wf_set_field|].
  all: frame_unfold; split_and!; frame_read; try done; try (by apply uwrap_small).
  change (uwrap (8 * Z.of_nat 1) FRAME_READ_CNF_HEADER_SIZE) with 4.
  rewrite !(uwrap_small (8 * Z.of_nat 1)); unfold FRAME_READ_CNF_HEADER_SIZE, fits; lia.
Qed.

(** A confirmation of a read: the attribute's identifier, a result, and exactly
    the announced number of value bytes, none when the result is an error. *)
Definition read_reply (item item' : waps_item_t) : Prop :=
  let f := item_frame item' in
  wf_item item' /\ sfunc f = WAPS_FUNC_CSAP_ATTR_READ_CNF /\ sfid f = sfid (item_frame item) /\
  pld 1 2 f = pld 0 2 (item_frame item) /\
  splen f = FRAME_READ_CNF_HEADER_SIZE + pld 3 1 f /\ 0 <= pld 3 1 f <= WAPS_MAX_ATTR_LEN /\
  (pld 0 1 f <> ATTR_SUCCESS -> pld 3 1 f = 0).

Lemma appRes_u8 r : is_u8 (appRes2attrRes r).
Proof. unfold appRes2attrRes. by repeat case_match. Qed.

Lemma read_reply_ok a res size f item :
  is_u16 a -> is_u8 res -> 0 <= size <= 16 -> wf_frame f -> sfid f = sfid (item_frame item) ->
  a = pld 0 2 (item_frame item) ->
  read_reply item (read_response a res size (with_frame f item)).
Proof.
  intros Ha Hr Hs Hf Hid ->.
  destruct (read_response_fields _ res size (with_frame f item) Ha Hr Hs Hf)
    as (H1 & H2 & H3 & H4 & H5 & H6 & H7).
  unfold read_reply. cbn zeta. rewrite H2, H3, H5, H6, H7, H4.
  cbn [item_frame with_frame]. split_and!; try done.
  1-2: destruct (_ =? _); unfold WAPS_MAX_ATTR_LEN; lia.
  intros Hne. by rewrite (proj2 (Z.eqb_neq _ _)).
Qed.

Lemma readAttr_u8 a f size r s' s :
  readAttr lib tmp0 num_channels a f size s = (Some r, s') -> is_u8 r.1.1.
Proof.
  intros Er. enough (Hr : exists q, r.1.1 = appRes2attrRes q) by (destruct Hr as [q ->]; apply appRes_u8).
  unfold readAttr in Er. destruct (_ =? CSAP_ATTR_RESERVED_CHANNELS).
  - rewrite bindE in Er. cbn [mret st_ret] in Er. injection Er as <- _. eauto.
  - rewrite bindE in Er. repeat case_match; unfold mret, st_ret in Er; simplify_eq; eauto.
Qed.

(** Whatever happens, the item stays usable. *)
Lemma read_response_sized a res size item :
  is_u16 a -> is_u8 res -> 0 <= size <= 16 -> wf_item item -> sized (read_response a res size item).
Proof.
  intros Ha Hr Hs Hwf. destruct (read_response_fields a res size item Ha Hr Hs Hwf)
    as (H1 & _ & _ & _ & _ & H6 & H7).
  split; [done|]. rewrite H6, H7. unfold FRAME_READ_CNF_HEADER_SIZE. destruct (_ =? _); lia.
Qed.

Lemma attrRead_sized item :
  sized item -> yields (attrReadReq lib tmp0 num_channels item)
    (fun r => match r with Some r => sized r.2 | None => True end).
Proof.
  intros Hz. pose proof Hz as [Hwf _]. unfold attrReadReq. cbn zeta.
  assert (Ha : is_u16 (pld 0 2 (item_frame item))).
  { apply (field_range 3 2); [apply Hwf|]. destruct Hwf as [-> _]. unfold FRAME_SIZE. cbn. lia. }
  set (a := pld 0 2 (item_frame item)) in *.
  destruct (negb _); [by apply yields_ret|].
  destruct (Z.leb_spec (Z.of_nat (length m_attr_size_lut)) (u32 (a - 1))) as [_|Hi].
  { apply yields_ret. by apply read_response_sized. }
  apply yields_any. intros [|]; [|apply yields_ret; by apply read_response_sized]. cbn [negb].
  intros s. rewrite bindE. pose proof (readAttr_spec a (item_frame item) s Ha Hi Hwf) as H. cbn zeta in H.
  pose proof (readAttr_u8 a (item_frame item) (nth (Z.to_nat (u32 (a - 1))) m_attr_size_lut 0)) as Hu.
  destruct (readAttr _ _ _ _ _ _ s) as [[[[r f'] n]|] s'] eqn:Er; cbn [fst snd mret st_ret] in *; [|done].
  destruct H as [(Hf' & Hn & _) _]. apply read_response_sized; [done|exact (Hu _ _ _ Er)|done..].
Qed.

(** a read request of the right size is always answered, with the
    identifier it asked for and exactly the announced value bytes, at most 16,
    and none on an error; an unknown attribute and a locked one are answered
    by their error codes, without effect.  The one exception is the feature
    lock key: when it is set and may be read, the code copies 16 bytes out of a
    4-byte variable. *)
Theorem csap_read_reply item s :
  wf_item item ->
  let a := pld 0 2 (item_frame item) in
  let p := permitted key lock (world s) (read_permission a) in
  let sized := splen (item_frame item) =? READ_REQ_SIZE in
  let known := u32 (a - 1) <? Z.of_nat (length m_attr_size_lut) in
  match attrReadReq lib tmp0 num_channels item s with
  | (None, _) =>
      sized = true /\ p = true /\ a = CSAP_ATTR_FEATURE_LOCK_KEY /\ key (world s) = APP_RES_OK
  | (Some (false, item'), s') => sized = false /\ item' = item /\ s' = s
  | (Some (true, item'), s') =>
      sized = true /\ read_reply item item' /\
      (known = false -> pld 0 1 (item_frame item') = ATTR_UNSUPPORTED_ATTRIBUTE /\ s' = s) /\
      (known = true -> p = false -> pld 0 1 (item_frame item') = ATTR_ACCESS_DENIED /\ s' = s) /\
      ~ (p = true /\ a = CSAP_ATTR_FEATURE_LOCK_KEY /\ key (world s) = APP_RES_OK)
  end.
Proof.
  intros Hwf a p sized known.
  assert (Ha : is_u16 a).
  { apply (field_range 3 2); [apply Hwf|]. destruct Hwf as [-> _]. unfold FRAME_SIZE. cbn. lia. }
  unfold attrReadReq. fold a sized. destruct sized; cbn [negb]; [|done].
  assert (Hreply : forall res, is_u8 res -> read_reply item (read_response a res 0 item) /\
    pld 0 1 (item_frame (read_response a res 0 item)) = res).
  { intros res Hres. split.
    - assert (H : read_reply item (read_response a res 0 (with_frame (item_frame item) item)))
        by (by apply read_reply_ok). by destruct item.
    - apply (read_response_fields a res 0 item Ha Hres); [lia|done]. }
  change (Z.of_nat (length m_attr_size_lut)) with 25 in *. unfold known.
  destruct (Z.leb_spec 25 (u32 (a - 1))) as [Hbig|Hsmall].
  { destruct (Hreply ATTR_UNSUPPORTED_ATTRIBUTE) as [H1 H2]; [done|].
    rewrite (proj2 (Z.ltb_ge _ _)) by lia. split_and!; try done.
    intros (_ & Hk & _). rewrite Hk in Hbig. by vm_compute in Hbig. }
  rewrite (proj2 (Z.ltb_lt _ _)) by lia. rewrite bindE, permitted_spec. cbn [fst snd]. fold p.
  destruct p; cbn [negb].
  2: { destruct (Hreply ATTR_ACCESS_DENIED) as [H1 H2]; [done|]. split_and!; try done. by intros [? _]. }
  rewrite bindE. pose proof (readAttr_spec a (item_frame item) s Ha Hsmall Hwf) as Hread.
  cbn zeta in Hread.
  destruct (readAttr _ _ _ _ _ _ s) as [[[[r f'] n]|] s'] eqn:Er; cbn [fst snd mret st_ret] in *; [|done].
  destruct Hread as [(Hf' & Hn & Hid) Hnk]. cbn [fst snd] in *.
  split_and!; try done; [|by intros [_ H]].
  apply read_reply_ok; [done| |done..]. exact (readAttr_u8 _ _ _ _ _ _ Er).
Qed.

End ReadProofs.

Section WriteProofs.
Context {W : Type} (lib : stack W) (m_baudrate : Z) (force : bool).
Context (key : W -> Z) (lock : W -> Z * Z) `{!Stable (stack_locks lib) key lock}.

(** The outcome of the checks, from the lock settings alone: a failed one with
    its result, or the number of bytes to write. *)
Definition write_verdict (w : W) (a len : Z) : Z + Z :=
  let size := nth (Z.to_nat (u32 (a - 1))) m_attr_size_lut 0 in
  let key_set := key w =? APP_RES_OK in
  if negb ((1 <=? a) && (a <=? 25)) then inl ATTR_UNSUPPORTED_ATTRIBUTE
  else if (a =? CSAP_ATTR_FEATURE_LOCK_BITS) && key_set then inl ATTR_ACCESS_DENIED
  else if negb (a =? CSAP_ATTR_FEATURE_LOCK_KEY) && negb (permitted key lock w LOCK_BITS_CSAP_ATTR_WRITE)
  then inl ATTR_ACCESS_DENIED
  else if (0 <? size) && negb (size =? len) then inl ATTR_INV_LENGTH
  else inr len.

Lemma known_range a :
  is_u16 a -> (Z.of_nat (length m_attr_size_lut) <=? u32 (a - 1)) = negb ((1 <=? a) && (a <=? 25)).
Proof.
  intros Ha. unfold fits in Ha. change (Z.of_nat (length m_attr_size_lut)) with 25.
  destruct (Z.eqb_spec a 0) as [->|]; [done|].
  rewrite uwrap_small by (unfold fits; lia).
  destruct (Z.leb_spec 25 (a - 1)), (Z.leb_spec 1 a), (Z.leb_spec a 25); done || lia.
Qed.

Lemma isKeySet_state s :
  in_world (LockBits_isKeySet (stack_locks lib)) s = (key (world s) =? APP_RES_OK, s).
Proof. apply in_world_stable. exact (isKeySet_spec (stack_locks lib) key lock (world s)). Qed.

Lemma write_guard_spec a len s :
  is_u16 a -> write_guard lib a len s = (write_verdict (world s) a len, s).
Proof.
  intros Ha. unfold write_guard, write_verdict. rewrite known_range by done.
  destruct (negb ((1 <=? a) && (a <=? 25))) eqn:Er; [done|].
  apply negb_false_iff, andb_true_iff in Er as [H1%Z.leb_le H25%Z.leb_le].
  rewrite bindE. unfold lock_bits_locked.
  assert (El : (if a =? CSAP_ATTR_FEATURE_LOCK_BITS then in_world (LockBits_isKeySet (stack_locks lib))
     else mret false) s = ((a =? CSAP_ATTR_FEATURE_LOCK_BITS) && (key (world s) =? APP_RES_OK), s)).
  { destruct (a =? CSAP_ATTR_FEATURE_LOCK_BITS); [apply isKeySet_state|done]. }
  rewrite El. cbn [fst snd]. destruct (_ && _); [done|]. rewrite bindE. unfold write_permitted.
  assert (Ep : (if negb (a =? CSAP_ATTR_FEATURE_LOCK_KEY)
      then isFeaturePermitted lib LOCK_BITS_CSAP_ATTR_WRITE else mret true) s =
    (negb (negb (a =? CSAP_ATTR_FEATURE_LOCK_KEY) &&
      negb (permitted key lock (world s) LOCK_BITS_CSAP_ATTR_WRITE)), s)).
  { destruct (a =? CSAP_ATTR_FEATURE_LOCK_KEY); cbn [negb andb]; [done|].
    rewrite (permitted_spec lib key lock). by rewrite negb_involutive. }
  rewrite Ep. cbn [fst snd]. rewrite negb_involutive. destruct (negb _ && negb _); [done|].
  destruct (lut_sizes a Ha) as (_ & Hs & _).
  { rewrite uwrap_small by (unfold fits in *; lia). lia. }
  destruct (Z.eqb_spec (nth (Z.to_nat (u32 (a - 1))) m_attr_size_lut 0) 0) as [E0|E0].
  { by rewrite E0. }
  rewrite (proj2 (Z.ltb_lt 0 _)) by lia. cbn [andb].
  destruct (Z.eqb_spec (nth (Z.to_nat (u32 (a - 1))) m_attr_size_lut 0) len) as [->|]; done.
Qed.

Lemma write_response_fields r item :
  is_u8 r -> wf_item item ->
  let f := item_frame (write_response r item) in
  wf_frame f /\ sfunc f = WAPS_FUNC_CSAP_ATTR_WRITE_CNF /\ sfid f = sfid (item_frame item) /\
  splen f = SIMPLE_CNF_SIZE /\ pld 0 1 f = r.
Proof.
  intros Hr [Hl Hb] f. unfold f, write_response. change FRAME_SIZE with 126%nat in Hl.
  cbn [item_frame on_frame with_frame Waps_item_init with_cbs].
  split; [by repeat apply wf_set_field|].
  frame_unfold; split_and!; frame_read; try done; by apply uwrap_small.
Qed.

Lemma set_attr_result (set : st W Z) s : exists r, (set_attr set s).1 = appRes2attrRes r.
Proof. unfold set_attr. rewrite bindE. eexists. reflexivity. Qed.

Lemma writeAttr_u8 a value n s : is_u8 (writeAttr lib m_baudrate force a value n s).1.
Proof.
  unfold writeAttr. set (tmp := if n <=? 4 then _ else _).
  repeat case_match; try done;
    try (match goal with |- context [set_attr ?x s] => destruct (set_attr_result x s) as [? ->] end;
         apply appRes_u8).
  unfold write_role. rewrite bindE. destruct (_ =? APP_RES_OK); [|apply appRes_u8].
  rewrite !bindE. apply appRes_u8.
Qed.

(** C27: a write request of the right size is always answered; an unknown
    attribute, a locked one (the lock bits themselves whenever a key is set)
    and a wrong length are refused by their own codes and change nothing;
    otherwise the attribute is written with exactly the bytes of the request. *)
Theorem csap_write_guarded item s :
  wf_item item -> splen (item_frame item) <= Z.of_nat Uart.WAPS_MAX_FRAME_PAYLOAD ->
  let a := pld 0 2 (item_frame item) in
  let len := pld 2 1 (item_frame item) in
  let sized := splen (item_frame item) =? FRAME_WRITE_REQ_HEADER_SIZE + len in
  match attrWriteReq lib m_baudrate force item s with
  | (None, _) => False
  | (Some (false, item'), s') => sized = false /\ item' = item /\ s' = s
  | (Some (true, item'), s') =>
      let f := item_frame item' in
      sized = true /\ wf_frame f /\ sfunc f = WAPS_FUNC_CSAP_ATTR_WRITE_CNF /\
      sfid f = sfid (item_frame item) /\ splen f = SIMPLE_CNF_SIZE /\
      match write_verdict (world s) a len with
      | inl r => pld 0 1 f = r /\ s' = s
      | inr n =>
          n = len /\ length (pld_bytes 3 (Z.to_nat n) (item_frame item)) = Z.to_nat n /\
          (pld 0 1 f, s') =
            writeAttr lib m_baudrate force a (drop (HEADER + 3) (item_frame item)) n s
      end
  end.
Proof.
  intros Hwf Hs a len sized. pose proof Hwf as [Hl Hb].
  assert (Ha : is_u16 a) by (apply (field_range 3 2); [done|rewrite Hl; unfold FRAME_SIZE; cbn; lia]).
  assert (Hlen : 0 <= len < 256) by (apply field1_range; [done|rewrite Hl; unfold FRAME_SIZE; cbn; lia]).
  unfold attrWriteReq. fold a len sized. destruct sized eqn:Esz; cbn [negb]; [|done].
  rewrite bindE, write_guard_spec by done. cbn [fst snd]. rewrite bindE.
  destruct (write_verdict (world s) a len) as [r|n] eqn:Ev; cbn [fst snd mret st_ret].
  - assert (Hr : is_u8 r).
    { unfold write_verdict in Ev. repeat case_match; simplify_eq; done. }
    by destruct (write_response_fields r item Hr Hwf) as (? & ? & ? & ? & ->).
  - assert (n = len) as -> by (unfold write_verdict in Ev; repeat case_match; simplify_eq; done).
    set (wr := writeAttr lib m_baudrate force a _ _).
    pose proof (writeAttr_u8 a (drop (HEADER + 3) (item_frame item)) len s) as Hr. fold wr in Hr.
    destruct (write_response_fields (wr s).1 item Hr Hwf) as (? & ? & ? & ? & ->).
    split_and!; try done; [|by destruct (wr s)].
    apply Z.eqb_eq in Esz. unfold FRAME_WRITE_REQ_HEADER_SIZE in Esz.
    unfold pld_bytes. apply length_slice. rewrite Hl. unfold FRAME_SIZE, HEADER.
    unfold Uart.WAPS_MAX_FRAME_LENGTH, Uart.WAPS_MIN_FRAME_LENGTH. lia.
Qed.

End WriteProofs.

Section RoundTrip.
Context {W : Type} (lib : stack W) (tmp0 num_channels m_baudrate : Z) (force : bool).
Context (key : W -> Z) (lock : W -> Z * Z) `{!Stable (stack_locks lib) key lock}.

(** The settings that can be written and read. *)
Definition settable : list Z :=
  [CSAP_ATTR_NODE_ID; CSAP_ATTR_NETWORK_ADDR; CSAP_ATTR_NETWORK_CHANNEL; CSAP_ATTR_NODE_ROLE;
   CSAP_ATTR_OFFLINE_SCAN; CSAP_ATTR_FEATURE_LOCK_BITS].

(** Settings that keep what was stored last: [stored w a] is the one of
    attribute [a].  A setter may refuse a value; the storage of the persistent
    area and of the scratchpad action are elsewhere. *)
Class SettingsWork (stored : W -> Z -> Z) : Prop := {
  get_node w : getNodeAddress lib w = ((APP_RES_OK, stored w CSAP_ATTR_NODE_ID), w);
  get_net w : getNetworkAddress lib w = ((APP_RES_OK, stored w CSAP_ATTR_NETWORK_ADDR), w);
  get_channel w : getNetworkChannel lib w = ((APP_RES_OK, stored w CSAP_ATTR_NETWORK_CHANNEL), w);
  get_role w : getNodeRole lib w = ((APP_RES_OK, stored w CSAP_ATTR_NODE_ROLE), w);
  get_scan old w : getOfflineScan lib old w = ((APP_RES_OK, stored w CSAP_ATTR_OFFLINE_SCAN), w);
  get_lock_bits old w :
    getFeatureLockBits (stack_locks lib) old w = ((APP_RES_OK, stored w CSAP_ATTR_FEATURE_LOCK_BITS), w);
  set_node v w : (setNodeAddress lib v w).1 = APP_RES_OK ->
    stored (setNodeAddress lib v w).2 CSAP_ATTR_NODE_ID = v;
  set_net v w : (setNetworkAddress lib v w).1 = APP_RES_OK ->
    stored (setNetworkAddress lib v w).2 CSAP_ATTR_NETWORK_ADDR = v;
  set_channel v w : (setNetworkChannel lib v w).1 = APP_RES_OK ->
    stored (setNetworkChannel lib v w).2 CSAP_ATTR_NETWORK_CHANNEL = v;
  set_role v w : (setNodeRole lib v w).1 = APP_RES_OK ->
    stored (setNodeRole lib v w).2 CSAP_ATTR_NODE_ROLE = v;
  set_scan v w : (setOfflineScan lib v w).1 = APP_RES_OK ->
    stored (setOfflineScan lib v w).2 CSAP_ATTR_OFFLINE_SCAN = v;
  set_lock_bits v w : (setFeatureLockBits lib v w).1 = APP_RES_OK ->
    stored (setFeatureLockBits lib v w).2 CSAP_ATTR_FEATURE_LOCK_BITS = v;
  keep_read old n w : stored (Persistent.readPersistent (stack_storage lib) old n w).2 = stored w;
  keep_write img w : stored (Persistent.writePersistent (stack_storage lib) img w).2 = stored w;
  keep_action a b c d w : stored (setTargetScratchpadAndAction lib a b c d w).2 = stored w }.

Context (stored : W -> Z -> Z) `{!SettingsWork stored}.

(** What is stored for the attribute value [v], and what reads back. *)
Definition conv_in (a v : Z) : Z :=
  if a =? CSAP_ATTR_NODE_ID then Waddr_to_Addr v
  else if a =? CSAP_ATTR_NODE_ROLE then default 0xff (app_of_role v)
  else v.
Definition conv_out (a v : Z) : Z :=
  if a =? CSAP_ATTR_NODE_ID then Addr_to_Waddr v
  else if a =? CSAP_ATTR_NODE_ROLE then role_of_app v
  else v.

(** The value that reads back after [v] was written: the any-sink address and
    the two names of the autoroles have one representative each. *)
Definition canonical (a v : Z) : Z :=
  if a =? CSAP_ATTR_NODE_ID then (if v =? 0 then WADDR_ANYSINK else v)
  else if a =? CSAP_ATTR_NODE_ROLE then
    (if v =? 0x82 then 0x83 else if v =? 0x92 then 0x93
     else if bool_decide (v ∈ [0x01; 0x02; 0x03; 0x11; 0x12; 0x13; 0x83; 0x93]) then v else 0)
  else v.

Definition role_check (v : Z) : bool :=
  role_of_app (default 0xff (app_of_role v)) =? canonical CSAP_ATTR_NODE_ROLE v.

Lemma conv_roundtrip a v :
  is_u32 v -> (a = CSAP_ATTR_NODE_ROLE -> is_u8 v) -> conv_out a (conv_in a v) = canonical a v.
Proof.
  intros Hv Hr. unfold conv_in, conv_out.
  destruct (Z.eqb_spec a CSAP_ATTR_NODE_ID) as [->|Hn]; [by apply waddr_there_back|].
  destruct (Z.eqb_spec a CSAP_ATTR_NODE_ROLE) as [->|Hno].
  - assert (H : all_bytes role_check = true) by (by vm_compute).
    apply (all_bytes_spec _ v) in H; [|by apply Hr]. by apply Z.eqb_eq in H.
  - unfold canonical. by rewrite (proj2 (Z.eqb_neq _ _) Hn), (proj2 (Z.eqb_neq _ _) Hno).
Qed.

(** Steps that leave the settings alone. *)
Abbreviation keeps m := (Prelude.keeps (fun s => stored (world s)) m).

Lemma keeps_world {A} (m : st W A) : (forall w, stored (m w).2 = stored w) -> keeps (in_world m).
Proof.
  intros Hm s. unfold in_world, in_persistent, world. specialize (Hm (Persistent.world (persistent s))).
  by destruct (m (Persistent.world (persistent s))).
Qed.

Lemma keeps_persistent {A} (m : st (Persistent.state W) A) :
  (forall p, stored (Persistent.world (m p).2) = stored (Persistent.world p)) -> keeps (in_persistent m).
Proof.
  intros Hm s. unfold in_persistent, world. specialize (Hm (persistent s)).
  by destruct (m (persistent s)).
Qed.

Lemma keeps_power : keeps (power_reset lib m_baudrate).
Proof.
  unfold power_reset. destruct (_ <? _); [by intros s|]. apply keeps_bind; [|by intros r s].
  apply keeps_world. intros w. by rewrite get_role.
Qed.

Lemma keeps_update p :
  stored (Persistent.world (Persistent.update_image (stack_storage lib) p).2) = stored (Persistent.world p).
Proof.
  unfold Persistent.update_image.
  pose proof (keep_read (Persistent.m_persistent_image p) Persistent.IMAGE_SIZE (Persistent.world p)) as H.
  by destruct (Persistent.readPersistent _ _ _ _) as [[r img] w].
Qed.

Lemma keeps_firstboot b p :
  stored (Persistent.world (Persistent.Persistent_setFirstboot (stack_storage lib) b p).2) =
    stored (Persistent.world p).
Proof.
  unfold Persistent.Persistent_setFirstboot. rewrite !bindE. unfold Persistent.write_if_ok.
  destruct (_ =? APP_RES_OK); [|apply keeps_update].
  unfold Persistent.write_image. set (q := (Persistent.set_image _ _).2).
  pose proof (keep_write (Persistent.m_persistent_image q) (Persistent.world q)) as H.
  destruct (Persistent.writePersistent _ _ _) as [r w] eqn:E. cbn [snd Persistent.world] in *.
  rewrite H. apply keeps_update.
Qed.

Lemma keeps_legacy role : keeps (force_legacy lib role).
Proof.
  unfold force_legacy. apply keeps_bind.
  { apply keeps_persistent. intros p. unfold Persistent.Persistent_isFirstboot. rewrite !bindE.
    apply keeps_update. }
  intros [r b]. destruct (_ && _); [|apply keeps_ret]. apply keeps_bind.
  { apply keeps_world. intros w. apply keep_action. }
  intros t. destruct (_ =? _); [|apply keeps_ret]. apply keeps_bind; [|intros; apply keeps_ret].
  apply keeps_persistent. apply keeps_firstboot.
Qed.

Lemma ok_code r : appRes2attrRes r = ATTR_SUCCESS -> r = APP_RES_OK.
Proof.
  unfold appRes2attrRes. destruct (Z.eqb_spec r APP_RES_OK); [done|].
  by repeat case_match.
Qed.

Lemma set_attr_stored a v (set : Z -> st W Z) s :
  (forall w, (set v w).1 = APP_RES_OK -> stored (set v w).2 a = v) ->
  (set_attr (set v) s).1 = ATTR_SUCCESS -> stored (world (set_attr (set v) s).2) a = v.
Proof.
  intros Hset. unfold set_attr. rewrite bindE. cbn [fst snd mret st_ret]. intros Hok%ok_code.
  specialize (Hset (world s)). rewrite in_world_val in Hok. specialize (Hset Hok).
  unfold in_world, in_persistent, world in *.
  by destruct (set v (Persistent.world (persistent s))).
Qed.

Lemma write_role_stored v s :
  (write_role lib m_baudrate force v s).1 = ATTR_SUCCESS ->
  stored (world (write_role lib m_baudrate force v s).2) CSAP_ATTR_NODE_ROLE = v.
Proof.
  intros Hs. assert (Hk : forall r, keeps (if r =? APP_RES_OK
      then _ ← power_reset lib m_baudrate; _ ← (if force then force_legacy lib v else mret tt);
           mret (appRes2attrRes r)
      else mret (appRes2attrRes r))).
  { intros r. destruct (r =? APP_RES_OK); [|apply keeps_ret].
    apply keeps_bind; [apply keeps_power|]. intros _.
    apply keeps_bind; [destruct force; [apply keeps_legacy|apply keeps_ret]|intros _; apply keeps_ret]. }
  unfold write_role in *. rewrite bindE in *. rewrite Hk.
  assert (Hok : (in_world (setNodeRole lib v) s).1 = APP_RES_OK).
  { apply ok_code. destruct (_ =? _); [rewrite !bindE in Hs|]; exact Hs. }
  rewrite in_world_val in Hok. pose proof (set_role v (world s) Hok) as H.
  unfold in_world, in_persistent, world in *.
  by destruct (setNodeRole lib v (Persistent.world (persistent s))).
Qed.

(** A successful write stores the converted value. *)
Lemma writeAttr_stored a value n s :
  a ∈ settable -> n = nth (Z.to_nat (u32 (a - 1))) m_attr_size_lut 0 ->
  bytes value -> (Z.to_nat n <= length value)%nat ->
  (writeAttr lib m_baudrate force a value n s).1 = ATTR_SUCCESS ->
  stored (world (writeAttr lib m_baudrate force a value n s).2) a =
    conv_in a (le_get (take (Z.to_nat n) value)).
Proof.
  intros Ha Hn Hb Hl Hs.
  assert (Hr : fits (8 * Z.of_nat (Z.to_nat n)) (le_get (take (Z.to_nat n) value))).
  { rewrite <- (firstn_length_le value Hl) at 1. by apply le_get_range, Forall_take. }
  unfold settable in Ha. rewrite !elem_of_cons, elem_of_nil in Ha. set (v := le_get _) in *.
  destruct Ha as [->|[->|[->|[->|[->|[->|[]]]]]]]; subst n.
  - change (stored (world (set_attr (setNodeAddress lib (Waddr_to_Addr v)) s).2) CSAP_ATTR_NODE_ID
      = Waddr_to_Addr v).
    apply (set_attr_stored _ _ (setNodeAddress lib)); [apply set_node|exact Hs].
  - change (stored (world (set_attr (setNetworkAddress lib v) s).2) CSAP_ATTR_NETWORK_ADDR = v).
    apply (set_attr_stored _ _ (setNetworkAddress lib)); [apply set_net|exact Hs].
  - pose proof (uwrap_small 8 v Hr : u8 v = v) as E.
    change (stored (world (set_attr (setNetworkChannel lib (u8 v)) s).2) CSAP_ATTR_NETWORK_CHANNEL = v).
    rewrite <- E at 2. apply (set_attr_stored _ _ (setNetworkChannel lib)); [apply set_channel|exact Hs].
  - pose proof (uwrap_small 8 v Hr : u8 v = v) as E.
    change (stored (world (match app_of_role (u8 v) with
      | None => mret ATTR_INV_VALUE | Some r => write_role lib m_baudrate force r end s).2)
      CSAP_ATTR_NODE_ROLE = default 0xff (app_of_role v)).
    change ((match app_of_role (u8 v) with
      | None => mret ATTR_INV_VALUE | Some r => write_role lib m_baudrate force r end s).1 = ATTR_SUCCESS)
      in Hs. rewrite E in *. destruct (app_of_role v); [by apply write_role_stored|done].
  - pose proof (uwrap_small 16 v Hr : u16 v = v) as E.
    change (stored (world (set_attr (setOfflineScan lib (u16 v)) s).2) CSAP_ATTR_OFFLINE_SCAN = v).
    rewrite <- E at 2. apply (set_attr_stored _ _ (setOfflineScan lib)); [apply set_scan|exact Hs].
  - change (stored (world (set_attr (setFeatureLockBits lib v) s).2) CSAP_ATTR_FEATURE_LOCK_BITS = v).
    apply (set_attr_stored _ _ (setFeatureLockBits lib)); [apply set_lock_bits|exact Hs].
Qed.

(** Reading returns what is stored. *)
Lemma read_tmp_stored a s :
  a ∈ settable -> read_tmp lib tmp0 a s = ((APP_RES_OK, conv_out a (stored (world s) a)), s).
Proof.
  intros Ha. unfold settable in Ha. rewrite !elem_of_cons, elem_of_nil in Ha.
  assert (Hg : forall get conv a, get (world s) = ((APP_RES_OK, stored (world s) a), world s) ->
    get_tmp tmp0 get conv s = ((APP_RES_OK, conv (stored (world s) a)), s)).
  { intros get conv b E. unfold get_tmp. rewrite bindE, (in_world_stable _ _ _ E). done. }
  destruct Ha as [->|[->|[->|[->|[->|[->|[]]]]]]].
  - apply (Hg _ Addr_to_Waddr), get_node.
  - apply (Hg _ id), get_net.
  - apply (Hg _ id), get_channel.
  - apply (Hg _ role_of_app), get_role.
  - apply in_world_stable, get_scan.
  - apply in_world_stable, get_lock_bits.
Qed.


Lemma settable_size a :
  a ∈ settable -> let size := nth (Z.to_nat (u32 (a - 1))) m_attr_size_lut 0 in
  is_u16 a /\ u32 (a - 1) < 25 /\ 1 <= size <= 4 /\ (a = CSAP_ATTR_NODE_ROLE -> size = 1) /\
  (a = CSAP_ATTR_NODE_ID -> size = 4) /\ a <> CSAP_ATTR_RESERVED_CHANNELS /\ 1 <= a <= 25 /\
  read_permission a = LOCK_BITS_CSAP_ATTR_READ.
Proof.
  intros Ha. unfold settable in Ha. rewrite !elem_of_cons, elem_of_nil in Ha.
  destruct Ha as [->|[->|[->|[->|[->|[->|[]]]]]]]; split_and!; done.
Qed.

Lemma canonical_fits a v n :
  (a = CSAP_ATTR_NODE_ID -> n = 32) -> (a = CSAP_ATTR_NODE_ROLE -> n = 8) -> fits n v ->
  fits n (canonical a v).
Proof.
  intros H1 H4 Hv. unfold canonical.
  destruct (Z.eqb_spec a CSAP_ATTR_NODE_ID) as [Ea|_].
  { rewrite H1 in * by done. by destruct (v =? 0). }
  destruct (Z.eqb_spec a CSAP_ATTR_NODE_ROLE) as [Ea|_]; [|done].
  rewrite H4 in * by done. by repeat case_match.
Qed.

Lemma read_stored a item s :
  a ∈ settable -> wf_item item -> pld 0 2 (item_frame item) = a ->
  splen (item_frame item) = READ_REQ_SIZE ->
  permitted key lock (world s) LOCK_BITS_CSAP_ATTR_READ = true ->
  let size := nth (Z.to_nat (u32 (a - 1))) m_attr_size_lut 0 in
  attrReadReq lib tmp0 num_channels item s =
    (Some (true, read_response a ATTR_SUCCESS size (with_frame
      (set_pld_bytes 4 (le_put (Z.to_nat size) (conv_out a (stored (world s) a))) (item_frame item)) item)), s).
Proof.
  intros Ha Hwf Ea El Hp size. destruct (settable_size a Ha) as (H16 & H25 & Hs & _ & _ & Hne & _ & Hrp).
  fold size in Hs. unfold attrReadReq. rewrite Ea, El. cbn [Z.eqb READ_REQ_SIZE Pos.eqb negb].
  rewrite (proj2 (Z.leb_gt _ _)) by exact H25. rewrite bindE, (permitted_spec lib key lock), Hrp, Hp.
  cbn [fst snd negb]. fold size. rewrite bindE. unfold readAttr.
  rewrite (proj2 (Z.eqb_neq _ _) Hne), bindE, read_tmp_stored by done. cbn [fst snd mret st_ret].
  rewrite Z.eqb_refl. rewrite (proj2 (Z.ltb_lt 0 size)) by lia. cbn [andb].
  by rewrite (proj2 (Z.ltb_ge 4 size)) by lia.
Qed.

(** The value in the confirmation is the one [readAttr] wrote. *)
Lemma pld4_response a res size f item :
  length f = FRAME_SIZE -> 0 <= size <= 4 ->
  pld 4 (Z.to_nat size) (item_frame (read_response a res size (with_frame f item))) =
  pld 4 (Z.to_nat size) f.
Proof.
  intros Hl Hs. unfold read_response.
  cbn [item_frame on_frame with_frame Waps_item_init with_cbs].
  destruct (res =? ATTR_SUCCESS); frame_unfold; by repeat rewrite field_set_field_disj by lia.
Qed.

Lemma pld4_blit v n f :
  wf_frame f -> fits (8 * Z.of_nat n) v -> (n <= 16)%nat -> pld 4 n (set_pld_bytes 4 (le_put n v) f) = v.
Proof.
  intros [Hl _] Hv Hn. change FRAME_SIZE with 126%nat in Hl. frame_unfold.
  change (blit 7 (le_put n v) f) with (set_field 7 n v f).
  by rewrite field_same, uwrap_small by (done || lia).
Qed.

(** A value put into a confirmation is announced and read back. *)
Lemma read_back a size v item :
  is_u16 a -> 0 <= size <= 4 -> fits (8 * size) v -> wf_item item ->
  let f := item_frame (read_response a ATTR_SUCCESS size
    (with_frame (set_pld_bytes 4 (le_put (Z.to_nat size) v) (item_frame item)) item)) in
  pld 0 1 f = ATTR_SUCCESS /\ pld 3 1 f = size /\ pld 4 (Z.to_nat size) f = v.
Proof.
  intros Ha Hs Hv Hwf f.
  assert (Hf2 : wf_frame (set_pld_bytes 4 (le_put (Z.to_nat size) v) (item_frame item)))
    by (apply wf_blit; [apply le_put_bytes|done]).
  destruct (read_response_fields a ATTR_SUCCESS size (with_frame _ item) Ha ltac:(done) ltac:(lia) Hf2)
    as (_ & _ & _ & E0 & _ & _ & E3).
  split; [exact E0|]. split; [exact E3|]. unfold f.
  rewrite pld4_response by (apply Hf2 || lia). apply pld4_blit; [done|by rewrite Z2Nat.id by lia|lia].
Qed.

End RoundTrip.

Section ResetProofs.
Context {W : Type} (lib : stack W).
Context (key : W -> Z) (lock : W -> Z * Z) `{!Stable (stack_locks lib) key lock}.

(** the stored settings are reset only by a request with the right key
    while the factory reset is permitted; the confirmation tells which check
    failed, and after a reset the persistent area is initialised again from
    the new content of the storage. *)
Theorem csap_reset_guarded item s :
  wf_item item ->
  let p := permitted key lock (world s) LOCK_BITS_CSAP_FACTORY_RESET in
  let sized := splen (item_frame item) =? CSAP_RESET_REQ_SIZE in
  let key_ok := pld 0 4 (item_frame item) =? RESET_KEY in
  match resetReq lib item s with
  | (None, _) => False
  | (Some (false, item'), s') => sized = false /\ item' = item /\ s' = s
  | (Some (true, item'), s') =>
      let f := item_frame item' in
      sized = true /\ wf_frame f /\ sfunc f = WAPS_FUNC_CSAP_FACTORY_RESET_CNF /\
      sfid f = sfid (item_frame item) /\ splen f = SIMPLE_CNF_SIZE /\
      (p = false -> pld 0 1 f = CSAP_RESET_ACCESS_DENIED /\ s' = s) /\
      (p = true -> key_ok = false -> pld 0 1 f = CSAP_RESET_INVALID_KEY /\ s' = s) /\
      (p = true -> key_ok = true ->
        let '(r, w') := resetAll lib (world s) in
        let reset := Persistent.Build_state (Persistent.m_persistent_image (persistent s)) w' in
        if r =? APP_RES_OK
        then pld 0 1 f = CSAP_RESET_OK /\
             persistent s' = (Persistent.Persistent_init (stack_storage lib) reset).2
        else pld 0 1 f = CSAP_RESET_INVALID_STATE /\ persistent s' = reset)
  end.
Proof.
  intros Hwf p sized key_ok. unfold resetReq. fold sized. destruct sized; cbn [negb]; [|done].
  rewrite bindE. cbn [fst snd mret st_ret].
  set (res := reset_result lib (pld 0 4 (item_frame item)) s).
  assert (Hres : is_u8 res.1 /\
    (p = false -> res = (CSAP_RESET_ACCESS_DENIED, s)) /\
    (p = true -> key_ok = false -> res = (CSAP_RESET_INVALID_KEY, s)) /\
    (p = true -> key_ok = true ->
        let '(r, w') := resetAll lib (world s) in
        let reset := Persistent.Build_state (Persistent.m_persistent_image (persistent s)) w' in
        if r =? APP_RES_OK
        then res.1 = CSAP_RESET_OK /\
             persistent res.2 = (Persistent.Persistent_init (stack_storage lib) reset).2
        else res.1 = CSAP_RESET_INVALID_STATE /\ persistent res.2 = reset)).
  { unfold res, reset_result. rewrite bindE, (permitted_spec lib key lock). cbn [fst snd]. fold p key_ok.
    destruct p; cbn [negb]; [|by split_and!]. destruct key_ok; cbn [negb]; [|by split_and!].
    rewrite bindE.
    assert (Er : in_world (resetAll lib) s = let '(r, w') := resetAll lib (world s) in
      (r, Build_state (Persistent.Build_state (Persistent.m_persistent_image (persistent s)) w') (power s))).
    { unfold in_world, in_persistent, world.
      by destruct (resetAll lib (Persistent.world (persistent s))). }
    rewrite Er. destruct (resetAll lib (world s)) as [r w']. cbn [fst snd].
    destruct (r =? APP_RES_OK); cbn [negb].
    2: { split; [done|]. split; [done|]. split; [done|]. done. }
    rewrite bindE. cbn [fst snd mret st_ret].
    split; [done|]. split; [done|]. split; [done|]. intros _ _. split; [done|].
    unfold in_persistent. cbn [persistent]. by destruct (Persistent.Persistent_init _ _). }
  destruct Hres as (Hu & H1 & H2 & H3). destruct Hwf as [Hl Hb]. change FRAME_SIZE with 126%nat in Hl.
  cbn [item_frame on_frame with_frame Waps_item_init with_cbs].
  set (f := set_pld 0 1 _ _).
  assert (Hf : pld 0 1 f = res.1).
  { unfold f. frame_unfold. frame_read. by apply uwrap_small. }
  rewrite Hf. split_and!; try done.
  1: by repeat apply wf_set_field.
  1-3: unfold f; frame_unfold; by frame_read.
  - intros Hp. by rewrite H1.
  - intros Hp Hk. by rewrite H2.
Qed.

End ResetProofs.

(** ** A concrete stack

    Settings in a map from attributes to values, a key being set when the map
    has an entry for it, and a page of storage. *)

Definition settings_world : Type := gmap Z Z * list Z.

Definition setting (a : Z) (w : settings_world) : Z := default 0 (w.1 !! a).
Definition store (a v : Z) : st settings_world Z := fun w => (APP_RES_OK, (<[a := v]> w.1, w.2)).
Definition load (a : Z) : st settings_world (Z * Z) := fun w => ((APP_RES_OK, setting a w), w).
Definition demo_key (w : settings_world) : Z :=
  match w.1 !! CSAP_ATTR_FEATURE_LOCK_KEY with
  | Some _ => APP_RES_OK | None => APP_RES_INVALID_CONFIGURATION end.
Definition demo_lock (w : settings_world) : Z * Z := (APP_RES_OK, setting CSAP_ATTR_FEATURE_LOCK_BITS w).
Definition const_world {A} (x : A) : st settings_world A := fun w => (x, w).

Definition demo_locks : locks settings_world :=
  {| getFeatureLockKey := fun w => (demo_key w, w);
     getFeatureLockBits := fun _ w => (demo_lock w, w) |}.

Definition demo_storage : Persistent.lib_storage settings_world :=
  {| Persistent.readPersistent := fun _ n w => ((APP_RES_OK, take n (Persistent.page_image w.2)), w);
     Persistent.writePersistent := fun img w => (APP_RES_OK, (w.1, img)) |}.

Definition demo_stack : stack settings_world :=
  {| stack_locks := demo_locks; stack_storage := demo_storage;
     getNodeAddress := load CSAP_ATTR_NODE_ID; setNodeAddress := store CSAP_ATTR_NODE_ID;
     getNetworkAddress := load CSAP_ATTR_NETWORK_ADDR; setNetworkAddress := store CSAP_ATTR_NETWORK_ADDR;
     getNetworkChannel := load CSAP_ATTR_NETWORK_CHANNEL;
     setNetworkChannel := store CSAP_ATTR_NETWORK_CHANNEL;
     getNodeRole := load CSAP_ATTR_NODE_ROLE; setNodeRole := store CSAP_ATTR_NODE_ROLE;
     getDataMaxNumBytes := const_world 102; getSeq := const_world 0;
     getStackFirmwareVersion := const_world (5, 3, 0, 0); getNumBuffers := const_world 16;
     getEncryptionKey := const_world APP_RES_OK; setEncryptionKey := fun _ => const_world APP_RES_OK;
     getAuthenticationKey := const_world APP_RES_OK;
     setAuthenticationKey := fun _ => const_world APP_RES_OK;
     getNetworkChannelLimits := fun _ => const_world (1, 40); getAppConfigNumBytes := const_world 80;
     getRadioInfo := const_world (1, 1);
     getOfflineScan := fun _ => load CSAP_ATTR_OFFLINE_SCAN; setOfflineScan := store CSAP_ATTR_OFFLINE_SCAN;
     setFeatureLockBits := store CSAP_ATTR_FEATURE_LOCK_BITS;
     setFeatureLockKey := fun _ => store CSAP_ATTR_FEATURE_LOCK_KEY 1;
     getReservedChannels := fun n _ => const_world (APP_RES_OK, repeat 0 (Z.to_nat n));
     setReservedChannels := fun _ _ => const_world APP_RES_OK;
     setTargetScratchpadAndAction := fun _ _ _ _ => const_world APP_RES_OK;
     resetAll := fun w => (APP_RES_OK, (∅, [])) |}.

#[export] Instance demo_stable : Stable (stack_locks demo_stack) demo_key demo_lock.
Proof. by constructor. Qed.

#[export] Instance demo_settings : SettingsWork demo_stack (fun w a => setting a w).
Proof.
  constructor; try done.
  all: intros v w _; unfold setting; cbn [snd fst store setNodeAddress setNetworkAddress setNetworkChannel
    setNodeRole setOfflineScan setFeatureLockBits demo_stack]; by rewrite lookup_insert_eq.
Qed.

Lemma demo_reserved n old w : bytes old -> bytes (getReservedChannels demo_stack n old w).1.2.
Proof. intros _. by apply bytes_repeat. Qed.

Definition demo_power : Power.state :=
  {| Power.m_autopower_enabled := false; Power.m_power_on := Power.USART_POWER_OFF;
     Power.usart_enabled := true; Power.receiver_on := true; Power.edge_irq := None;
     Power.ds_disabled := false; Power.shutdown_task := None;
     Power.uart := {| Uart.m_tx_buffer_idx := 0; Uart.m_tx_buffer := []; Uart.m_rx_buffer_idx := 0;
       Uart.m_rx_buffer := []; Uart.m_rx_crc := 0; Uart.m_escaped := false; Uart.log := [] |} |}.

Definition demo_state (m : gmap Z Z) : state settings_world :=
  Build_state (Persistent.Build_state [] (m, [])) demo_power.

Definition read_request (a : Z) : waps_item_t := request WAPS_FUNC_CSAP_ATTR_READ_REQ (le_put 2 a).
Definition write_request (a : Z) (value : list Z) : waps_item_t :=
  request WAPS_FUNC_CSAP_ATTR_WRITE_REQ (le_put 2 a ++ [Z.of_nat (length value)] ++ value).

Lemma read_request_wf a : wf_item (read_request a).
Proof. apply request_wf; [done|apply le_put_bytes|]. rewrite length_le_put. lia. Qed.

(** Reading the feature lock key that is set: the copy of 16 bytes out of the
    variable [tmp]. *)
Lemma lock_key_read_overruns tmp0 :
  (attrReadReq demo_stack tmp0 40 (read_request CSAP_ATTR_FEATURE_LOCK_KEY)
    (demo_state {[CSAP_ATTR_FEATURE_LOCK_KEY := 1; CSAP_ATTR_FEATURE_LOCK_BITS := 0x200]})).1 = None.
Proof. by vm_compute. Qed.

Lemma csap_read_reply_witness :
  exists item', (attrReadReq demo_stack 0 40 (read_request CSAP_ATTR_NODE_ID)
      (demo_state {[CSAP_ATTR_NODE_ID := 0x1234]})).1 = Some (true, item') /\
    read_reply (read_request CSAP_ATTR_NODE_ID) item'.
Proof.
  pose proof (csap_read_reply demo_stack 0 40 demo_key demo_lock ltac:(by vm_compute) demo_reserved
    (read_request CSAP_ATTR_NODE_ID) (demo_state {[CSAP_ATTR_NODE_ID := 0x1234]})
    (read_request_wf CSAP_ATTR_NODE_ID)) as H.
  destruct (attrReadReq _ _ _ _ _) as [[[[] item']|] s'] eqn:E.
  - exists item'. split; [done|]. apply H.
  - destruct H as [H _]. by vm_compute in H.
  - destruct H as (_ & _ & H & _). by vm_compute in H.
Defined.

(** The lock bits cannot be written while a key is set. *)
Lemma csap_write_guarded_witness :
  exists item', (attrWriteReq demo_stack 115200 true
      (write_request CSAP_ATTR_FEATURE_LOCK_BITS [0; 0; 0; 0])
      (demo_state {[CSAP_ATTR_FEATURE_LOCK_KEY := 1]})) = (Some (true, item'),
        demo_state {[CSAP_ATTR_FEATURE_LOCK_KEY := 1]}) /\
    pld 0 1 (item_frame item') = ATTR_ACCESS_DENIED.
Proof.
  assert (Hwf : wf_item (write_request CSAP_ATTR_FEATURE_LOCK_BITS [0; 0; 0; 0])).
  { apply request_wf; [done|apply (bool_decide_unpack _); by vm_compute|cbn; lia]. }
  pose proof (csap_write_guarded demo_stack 115200 true demo_key demo_lock
    (write_request CSAP_ATTR_FEATURE_LOCK_BITS [0; 0; 0; 0])
    (demo_state {[CSAP_ATTR_FEATURE_LOCK_KEY := 1]}) Hwf ltac:(by vm_compute)) as H.
  destruct (attrWriteReq _ _ _ _ _) as [[[[] item']|] s'] eqn:E; [| |done].
  - destruct H as (_ & _ & _ & _ & _ & H).
    assert (Ev : write_verdict demo_key demo_lock (world (demo_state {[CSAP_ATTR_FEATURE_LOCK_KEY := 1]}))
      (pld 0 2 (item_frame (write_request CSAP_ATTR_FEATURE_LOCK_BITS [0; 0; 0; 0])))
      (pld 2 1 (item_frame (write_request CSAP_ATTR_FEATURE_LOCK_BITS [0; 0; 0; 0]))) =
        inl ATTR_ACCESS_DENIED) by (by vm_compute).
    rewrite Ev in H. destruct H as [H ->]. by exists item'.
  - destruct H as [H _]. by vm_compute in H.
Defined.


Lemma csap_reset_guarded_witness :
  exists item', (resetReq demo_stack (request WAPS_FUNC_CSAP_FACTORY_RESET_REQ (le_put 4 0x12345678))
      (demo_state ∅)) = (Some (true, item'), demo_state ∅) /\
    pld 0 1 (item_frame item') = CSAP_RESET_INVALID_KEY.
Proof.
  assert (Hwf : wf_item (request WAPS_FUNC_CSAP_FACTORY_RESET_REQ (le_put 4 0x12345678))).
  { apply request_wf; [done|apply le_put_bytes|cbn; lia]. }
  pose proof (csap_reset_guarded demo_stack demo_key demo_lock
    (request WAPS_FUNC_CSAP_FACTORY_RESET_REQ (le_put 4 0x12345678)) (demo_state ∅) Hwf) as H.
  destruct (resetReq _ _ _) as [[[[] item']|] s'] eqn:E; [| |done].
  - destruct H as (_ & _ & _ & _ & _ & _ & H & _).
    destruct H as [H ->]; [by vm_compute..|]. by exists item'.
  - destruct H as [H _]. by vm_compute in H.
Defined.
