(* ===== verification/Waps.v ===== *)
(** * The dual-MCU engine

    [waps/waps_item.c] (the pool of frames), [waps/protocol/waps_protocol.c] and
    [waps/protocol/uart/waps_uart_protocol.c] (the protocol on the serial line)
    and [waps/waps.c] (the task that serves requests).

    An item is known by its number; the four intrusive lists of items are lists
    of numbers, which is what [SlList] proves of the list operations.  The
    serial line's interrupt may deliver frames between the steps of the task:
    they are arguments of [Waps_exec].  Frames written to the line are logged. *)

From S2P Require Import Prelude Api WapsUart WapsFrames WapsServices Dsap.
Import LockBits.

Definition WAPS_MIN_ITEMS : nat := 6.
Definition WAPS_RESERVED_ITEMS : nat := 2.
Definition WAPS_MAX_REQUEST_QUEUING_TIME_MS : Z := 450.
Definition WAPS_MAX_REQUEST_QUEUING_TIME_COARSE : Z := WAPS_MAX_REQUEST_QUEUING_TIME_MS * 128 / 1000.
Definition APP_SCHEDULER_SCHEDULE_ASAP : Z := 0.
Definition APP_SCHEDULER_STOP_TASK : Z := u32 (-1).
Definition APP_CONF_MAX : nat := 80.

Definition WAPS_FUNC_MSAP_STACK_STATE_IND : Z := 0x07.
Definition SCAN_TYPE_APP_ORIGINATED : Z := 0.

Inductive waps_item_type_e := WAPS_ITEM_TYPE_REQUEST | WAPS_ITEM_TYPE_INDICATION.

Abbreviation loc := nat.

(** [scheduled] says whether the scheduler holds the task [Waps_exec];
    [irq] is the level of the interrupt pin; [sent] logs the frames handed to
    the serial line with the outcome, oldest first. *)
Record state (W : Type) := mk {
  mem : loc -> waps_item_t;
  free_items : list loc;
  waps_ind_queue : list loc;
  waps_reply_queue : list loc;
  waps_request_queue : list loc;
  m_free_waps_items : nat;
  prot_reply : option loc;
  prot_indication : option loc;
  prot_seq : Z;
  m_signal : bool;
  scheduled : bool;
  irq : bool;
  sent : list (list Z * bool);
  world : W }.

Arguments mk {W}. Arguments mem {W}. Arguments free_items {W}. Arguments waps_ind_queue {W}.
Arguments waps_reply_queue {W}. Arguments waps_request_queue {W}. Arguments m_free_waps_items {W}.
Arguments prot_reply {W}. Arguments prot_indication {W}. Arguments prot_seq {W}.
Arguments m_signal {W}. Arguments scheduled {W}. Arguments irq {W}. Arguments sent {W}.
Arguments world {W}.

(** What the task calls: the data library and the clock, the feature lock, the
    other two service access points, the serial line, the application pages of
    the stack, and the callbacks of other libraries. *)
Record env (W : Type) := {
  data_lib : data_env W;
  lock_lib : locks W;
  Msap_handleFrame : waps_item_t -> st W (bool * waps_item_t);
  Csap_handleFrame : waps_item_t -> st W (bool * waps_item_t);
  Waps_hw_write : list Z -> st W bool;
  reboot : st W unit;
  Shared_Data_readyToReceive : st W unit;
  getNodeAddress : st W (Z * Z);
  readAppConfig : st W (Z * list Z * Z);
  getStackStatus : st W Z }.

Arguments data_lib {W}. Arguments lock_lib {W}. Arguments Msap_handleFrame {W}.
Arguments Csap_handleFrame {W}. Arguments Waps_hw_write {W}. Arguments reboot {W}.
Arguments Shared_Data_readyToReceive {W}. Arguments getNodeAddress {W}. Arguments readAppConfig {W}.
Arguments getStackStatus {W}.

Section Waps.
Context {W : Type} (E : env W).

Abbreviation M := (st (state W)).

(** ** Access to the state *)

Definition set_free (l : list loc) : M unit := modify (fun s =>
  mk (mem s) l (waps_ind_queue s) (waps_reply_queue s) (waps_request_queue s) (m_free_waps_items s)
    (prot_reply s) (prot_indication s) (prot_seq s) (m_signal s) (scheduled s) (irq s) (sent s) (world s)).
Definition set_ind_queue (l : list loc) : M unit := modify (fun s =>
  mk (mem s) (free_items s) l (waps_reply_queue s) (waps_request_queue s) (m_free_waps_items s)
    (prot_reply s) (prot_indication s) (prot_seq s) (m_signal s) (scheduled s) (irq s) (sent s) (world s)).
Definition set_reply_queue (l : list loc) : M unit := modify (fun s =>
  mk (mem s) (free_items s) (waps_ind_queue s) l (waps_request_queue s) (m_free_waps_items s)
    (prot_reply s) (prot_indication s) (prot_seq s) (m_signal s) (scheduled s) (irq s) (sent s) (world s)).
Definition set_request_queue (l : list loc) : M unit := modify (fun s =>
  mk (mem s) (free_items s) (waps_ind_queue s) (waps_reply_queue s) l (m_free_waps_items s)
    (prot_reply s) (prot_indication s) (prot_seq s) (m_signal s) (scheduled s) (irq s) (sent s) (world s)).
Definition set_prot_reply (r : option loc) : M unit := modify (fun s =>
  mk (mem s) (free_items s) (waps_ind_queue s) (waps_reply_queue s) (waps_request_queue s)
    (m_free_waps_items s) r (prot_indication s) (prot_seq s) (m_signal s) (scheduled s) (irq s) (sent s)
    (world s)).
Definition set_prot_indication (r : option loc) (seq : Z) : M unit := modify (fun s =>
  mk (mem s) (free_items s) (waps_ind_queue s) (waps_reply_queue s) (waps_request_queue s)
    (m_free_waps_items s) (prot_reply s) r seq (m_signal s) (scheduled s) (irq s) (sent s) (world s)).
Definition set_task (signal sched : bool) : M unit := modify (fun s =>
  mk (mem s) (free_items s) (waps_ind_queue s) (waps_reply_queue s) (waps_request_queue s)
    (m_free_waps_items s) (prot_reply s) (prot_indication s) (prot_seq s) signal sched (irq s) (sent s)
    (world s)).
Definition set_irq (b : bool) : M unit := modify (fun s =>
  mk (mem s) (free_items s) (waps_ind_queue s) (waps_reply_queue s) (waps_request_queue s)
    (m_free_waps_items s) (prot_reply s) (prot_indication s) (prot_seq s) (m_signal s) (scheduled s) b
    (sent s) (world s)).
Definition log_sent (f : list Z) (ok : bool) : M unit := modify (fun s =>
  mk (mem s) (free_items s) (waps_ind_queue s) (waps_reply_queue s) (waps_request_queue s)
    (m_free_waps_items s) (prot_reply s) (prot_indication s) (prot_seq s) (m_signal s) (scheduled s)
    (irq s) (sent s ++ [(f, ok)]) (world s)).
Definition put_item (i : loc) (x : waps_item_t) : M unit := modify (fun s =>
  mk (fun j => if decide (j = i) then x else mem s j) (free_items s) (waps_ind_queue s)
    (waps_reply_queue s) (waps_request_queue s) (m_free_waps_items s) (prot_reply s) (prot_indication s)
    (prot_seq s) (m_signal s) (scheduled s) (irq s) (sent s) (world s)).
Definition in_world {A} (m : st W A) : M A := fun s =>
  let '(x, w) := m (world s) in
  (x, mk (mem s) (free_items s) (waps_ind_queue s) (waps_reply_queue s) (waps_request_queue s)
        (m_free_waps_items s) (prot_reply s) (prot_indication s) (prot_seq s) (m_signal s) (scheduled s)
        (irq s) (sent s) w).
Definition get_item (i : loc) : M waps_item_t := gets (fun s => mem s i).
Definition now : M Z := in_world (getTimestampCoarse (data_lib E)).

(** ** The pool of items *)

Definition Waps_itemReserve (type : waps_item_type_e) : M (option loc) :=
  l ← gets free_items;
  if (match type with WAPS_ITEM_TYPE_REQUEST => true | WAPS_ITEM_TYPE_INDICATION => false end) ||
     (WAPS_RESERVED_ITEMS <? length l)%nat
  then match l with
       | [] => mret None
       | i :: l => _ ← set_free l; mret (Some i)
       end
  else mret None.

Definition Waps_itemFree (i : loc) : M unit :=
  l ← gets free_items;
  _ ← set_free (i :: l);
  thr ← gets m_free_waps_items;
  if (thr <=? S (length l))%nat then in_world (Shared_Data_readyToReceive E) else mret tt.

(** ** The protocol *)

Definition is_pending (s : state W) : bool :=
  match waps_ind_queue s, prot_indication s with [], None => false | _, _ => true end.

Definition Waps_prot_updateIrqPin : M unit := b ← gets is_pending; set_irq b.

Definition queued_indications : M Z :=
  l ← gets waps_ind_queue; mret (if (0 <? length l)%nat then 1 else 0).

Definition run_pre_cb (cb : waps_pre_tx_cb) (i : loc) : M unit :=
  x ← get_item i;
  match cb with
  | update_packet_delay =>
      x ← in_world (Dsap_update_packet_delay (data_lib E) x); put_item i x
  | updateIndicationCount =>
      pending ← queued_indications;
      ind ← gets prot_indication;
      put_item i (on_frame (set_pld 0 1 (match ind with Some _ => 1 | None => pending end)) x)
  | updateTime => t ← now; put_item i (on_frame (set_pld 4 4 t) x)
  end.

Definition prot_send_item (i : loc) : M bool :=
  x ← get_item i;
  _ ← (match pre_cb x with Some cb => run_pre_cb cb i | None => mret tt end);
  x ← get_item i;
  let f := item_frame x in
  let bytes := take (HEADER + Z.to_nat (splen f)) f in
  ok ← in_world (Waps_hw_write E bytes);
  _ ← log_sent bytes ok;
  if negb ok then mret false
  else
    _ ← (match post_cb x with Some reboot_callback => in_world (reboot E) | None => mret tt end);
    mret true.

(** Take the oldest indication when none is under way. *)
Definition next_indication : M unit :=
  p ← gets prot_indication;
  l ← gets waps_ind_queue;
  seq ← gets prot_seq;
  match p, l with
  | None, i :: l => _ ← set_ind_queue l; set_prot_indication (Some i) seq
  | _, _ => mret tt
  end.

Definition send_current : M unit :=
  p ← gets prot_indication;
  match p with
  | None => mret tt
  | Some i =>
      x ← get_item i;
      seq ← gets prot_seq;
      q ← queued_indications;
      _ ← put_item i (on_frame (fun f => set_pld 0 1 q (set_sfid seq f)) x);
      ok ← prot_send_item i;
      if negb ok then
        l ← gets waps_ind_queue;
        _ ← set_ind_queue (i :: l);
        set_prot_indication None seq
      else mret tt
  end.

(** May an indication follow this frame? *)
Definition allows_indication (rx_frame : frame) : bool :=
  (sfunc rx_frame =? WAPS_FUNC_MSAP_INDICATION_POLL_CNF) ||
  (WapsFunc_isResponse (sfunc rx_frame) && (pld 0 1 rx_frame =? 1)).

Definition send_indication (rx_frame : frame) : M unit :=
  _ ← (if allows_indication rx_frame then _ ← next_indication; send_current else mret tt);
  Waps_prot_updateIrqPin.

(** Is the frame the response to indication [x], sent with [seq]? *)
Definition answers (f : frame) (x : waps_item_t) (seq : Z) : bool :=
  (sfid f =? seq) && (sfunc f =? Z.lor (sfunc (item_frame x)) 0x80).

Definition Waps_protUart_processResponse (i : loc) : M bool :=
  x ← get_item i;
  let f := item_frame x in
  if WapsFunc_isResponse (sfunc f) then
    p ← gets prot_indication;
    match p with
    | None => mret true
    | Some p =>
        ind ← get_item p;
        seq ← gets prot_seq;
        _ ← (if answers f ind seq then
               _ ← Waps_itemFree p; set_prot_indication None (u8 (seq + 1))
             else mret tt);
        _ ← send_indication f;
        mret true
    end
  else mret false.

Definition next_reply : M unit :=
  r ← gets prot_reply;
  l ← gets waps_reply_queue;
  match r, l with
  | None, i :: l => _ ← set_reply_queue l; set_prot_reply (Some i)
  | _, _ => mret tt
  end.

Definition Waps_protUart_sendReply : M unit :=
  _ ← next_reply;
  r ← gets prot_reply;
  match r with
  | None => mret tt
  | Some i =>
      ok ← prot_send_item i;
      if negb ok then mret tt
      else
        x ← get_item i;
        _ ← send_indication (item_frame x);
        _ ← Waps_itemFree i;
        set_prot_reply None
  end.

(** ** The queues and the task *)

Definition wakeup_task : M unit :=
  signaled ← gets m_signal;
  sched ← gets scheduled;
  set_task true (if (signaled : bool) then sched else true).

Definition receive_request (i : loc) : M unit :=
  l ← gets waps_request_queue;
  _ ← set_request_queue (l ++ [i]);
  wakeup_task.

(** A frame delivered by the serial line's interrupt. *)
Definition frame_receive (data : list Z) : M bool :=
  if field 2 1 data =? Z.of_nat (length data) - Z.of_nat HEADER then
    r ← Waps_itemReserve WAPS_ITEM_TYPE_REQUEST;
    match r with
    | None => mret false
    | Some i =>
        t ← now;
        x ← get_item i;
        _ ← put_item i (on_frame (blit 0 data) (with_cbs None None (with_time t x)));
        _ ← receive_request i;
        mret true
    end
  else mret false.

Definition add_indication (msg : option loc) : M unit :=
  match msg with
  | None => mret tt
  | Some i =>
      l ← gets waps_ind_queue;
      _ ← set_ind_queue (l ++ [i]);
      Waps_prot_updateIrqPin
  end.

Definition add_reply (i : loc) : M unit :=
  l ← gets waps_reply_queue; set_reply_queue (l ++ [i]).

Definition read_request : M (option loc) :=
  l ← gets waps_request_queue;
  match l with
  | [] => mret None
  | i :: l => _ ← set_request_queue l; mret (Some i)
  end.

Definition process_request (i : loc) : M bool :=
  x ← get_item i;
  let func := sfunc (item_frame x) in
  r ← (if WapsFunc_isDsapRequest func then in_world (Dsap_handleFrame (data_lib E) (lock_lib E) x)
       else if WapsFunc_isMsapRequest func then in_world (Msap_handleFrame E x)
       else if WapsFunc_isCsapRequest func then in_world (Csap_handleFrame E x)
       else mret (false, x));
  _ ← put_item i r.2;
  mret r.1.

Definition frames_pending : M bool :=
  rq ← gets waps_request_queue;
  rp ← gets waps_reply_queue;
  mret ((0 <? length rq)%nat || (0 <? length rp)%nat).

(** From [process_request] to the reply queue or back to the pool. *)
Definition handle_request (i : loc) : M unit :=
  resp ← Waps_protUart_processResponse i;
  replied ← (if (resp : bool) then mret false
             else
               t ← now;
               x ← get_item i;
               if WAPS_MAX_REQUEST_QUEUING_TIME_COARSE <? u32 (t - time x) then mret false
               else process_request i);
  if (replied : bool) then add_reply i else Waps_itemFree i.

Fixpoint interrupts (l : list (list Z)) : M unit :=
  match l with
  | [] => mret tt
  | f :: l => _ ← frame_receive f; interrupts l
  end.

(** The task, interrupted by [isr k] at its [k]-th step; the scheduler keeps it
    when it asks for it or was asked to run it meanwhile. *)
Definition exec_with (isr : nat -> M unit) : M Z :=
  _ ← set_task false false;
  _ ← isr 0%nat;
  item ← read_request;
  _ ← isr 1%nat;
  _ ← (match item with Some i => handle_request i | None => mret tt end);
  _ ← isr 2%nat;
  _ ← Waps_protUart_sendReply;
  _ ← isr 3%nat;
  pending ← frames_pending;
  _ ← isr 4%nat;
  sig ← gets m_signal;
  sched ← gets scheduled;
  _ ← set_task sig (sched || pending);
  mret (if (pending : bool) then APP_SCHEDULER_SCHEDULE_ASAP else APP_SCHEDULER_STOP_TASK).

(** With the frames [isr k] received at its [k]-th step. *)
Definition Waps_exec (isr : nat -> list (list Z)) : M Z := exec_with (fun k => interrupts (isr k)).

Fixpoint find_from (m : loc -> waps_item_t) (l : list loc) (func : Z) : option loc :=
  match l with
  | [] => None
  | i :: l => if sfunc (item_frame (m i)) =? func then Some i else find_from m l func
  end.

Definition find_indication (func : Z) : M (option loc) :=
  gets (fun s => find_from (mem s) (waps_ind_queue s) func).

(** ** Callbacks of the stack *)

Definition data_cb (data : app_lib_data_received_t) : M bool :=
  r ← Waps_itemReserve WAPS_ITEM_TYPE_INDICATION;
  match r with
  | None => mret false
  | Some i =>
      dst ← (if rx_dest_address data =? APP_ADDR_BROADCAST then mret WADDR_BCAST
             else if Z.land (rx_dest_address data) 0xff000000 =? APP_ADDR_MULTICAST
                  then mret (rx_dest_address data)
             else a ← in_world (getNodeAddress E); mret (Addr_to_Waddr a.2));
      x ← get_item i;
      x ← in_world (Dsap_packetReceived (data_lib E) data dst x);
      _ ← put_item i x;
      _ ← add_indication (Some i);
      mret true
  end.

Definition Waps_packetSent (tracking_id src_ep dst_ep queue_time dst_addr : Z) (success : bool) : M unit :=
  r ← Waps_itemReserve WAPS_ITEM_TYPE_INDICATION;
  match r with
  | None => mret tt
  | Some i =>
      x ← get_item i;
      _ ← put_item i (Dsap_packetSent tracking_id src_ep dst_ep queue_time (Addr_to_Waddr dst_addr) success x);
      add_indication (Some i)
  end.

(** [Msap_handleAppConfig], [Msap_onScannedNbors] and the item that
    [Msap_getStackStatusIndication] builds. *)
Definition Msap_handleAppConfig (seq : Z) (config : list Z) (interval : Z) (x : waps_item_t) : waps_item_t :=
  on_frame (fun f =>
    let f := set_sfid 0 f in
    let f := set_pld 2 2 interval f in
    let f := set_pld 1 1 seq f in
    let f := set_pld_bytes 4 (repeat 0xFF APP_CONF_MAX) f in
    let f := set_pld_bytes 4 (take APP_CONF_MAX config) f in
    set_pld 0 1 0 f) (with_time 0 (Waps_item_init WAPS_FUNC_MSAP_APP_CONFIG_RX_IND 84 x)).

Definition Msap_onScannedNbors (x : waps_item_t) : waps_item_t :=
  on_frame (fun f => set_pld 0 1 0 (set_pld 1 1 1 (set_sfid 0 f)))
    (with_time 0 (Waps_item_init WAPS_FUNC_MSAP_SCAN_NBORS_IND 2 x)).

(** [app_lib_state_stack_state_e] as the flags of the dual-MCU interface. *)
Definition appLibState2SappStackState (result : Z) : Z :=
  let flag (mask bit state : Z) := if negb (Z.land result mask =? 0) then Z.lor state bit else state in
  flag 128 128 (flag 32 32 (flag 16 16 (flag 8 8 (flag 4 2 (flag 2 4 (flag 1 1 0)))))).

(** The answer to an indication poll; its payload is filled when it is sent. *)
Definition pollRequest (x : waps_item_t) : bool * waps_item_t :=
  if negb (splen (item_frame x) =? 0) then (false, x)
  else (true, with_cbs (Some updateIndicationCount) None
                (Waps_item_init WAPS_FUNC_MSAP_INDICATION_POLL_CNF 1 x)).

Definition stack_status (status : Z) (x : waps_item_t) : waps_item_t :=
  on_frame (fun f => set_pld 0 1 0 (set_pld 1 1 (appLibState2SappStackState status) (set_sfid 0 f)))
    (with_time 0 (Waps_item_init WAPS_FUNC_MSAP_STACK_STATE_IND 2 x)).

Definition Msap_getStackStatusIndication : M (option loc) :=
  r ← Waps_itemReserve WAPS_ITEM_TYPE_INDICATION;
  match r with
  | None => mret None
  | Some i =>
      st ← in_world (getStackStatus E);
      x ← get_item i;
      _ ← put_item i (stack_status st x);
      mret (Some i)
  end.

(** An indication of which only the latest counts: reuse the queued one. *)
Definition update_indication (func : Z) (build : waps_item_t -> waps_item_t) : M unit :=
  old ← find_indication func;
  match old with
  | Some i => x ← get_item i; put_item i (build x)
  | None =>
      r ← Waps_itemReserve WAPS_ITEM_TYPE_INDICATION;
      _ ← (match r with Some i => x ← get_item i; put_item i (build x) | None => mret tt end);
      add_indication r
  end.

Definition app_config_received_cb : M unit :=
  c ← in_world (readAppConfig E);
  update_indication WAPS_FUNC_MSAP_APP_CONFIG_RX_IND
    (Msap_handleAppConfig c.1.1 c.1.2 c.2).

Definition on_scanned_nbors_cb (complete : bool) (scan_type : Z) : M unit :=
  if negb complete || negb (scan_type =? SCAN_TYPE_APP_ORIGINATED) then mret tt
  else update_indication WAPS_FUNC_MSAP_SCAN_NBORS_IND Msap_onScannedNbors.

(** ** Start *)

(** [Waps_itemInit] with [max_waps_items] items and a threshold of 50%. *)
Definition Waps_itemInit (max_waps_items : nat) : M unit := modify (fun s =>
  mk (mem s) (rev (seq 0 max_waps_items)) (waps_ind_queue s) (waps_reply_queue s) (waps_request_queue s)
    (max_waps_items * 50 / 100)%nat (prot_reply s) (prot_indication s) (prot_seq s) (m_signal s)
    (scheduled s) (irq s) (sent s) (world s)).

(** The part of [Waps_init] that concerns the items: the lists are emptied, the
    pool is filled, the stack's state is indicated and the signal is cleared. *)
Definition Waps_init (max_waps_items : nat) : M unit :=
  _ ← set_request_queue [];
  _ ← set_ind_queue [];
  _ ← set_reply_queue [];
  _ ← Waps_itemInit max_waps_items;
  i ← Msap_getStackStatusIndication;
  _ ← add_indication i;
  sched ← gets scheduled;
  set_task false sched.

End Waps.

(** ** Events *)

Inductive event :=
| Receive (data : list Z)
| Exec (isr : nat -> list (list Z))
| DataReceived (data : app_lib_data_received_t)
| PacketSent (tracking_id src_ep dst_ep queue_time dst_addr : Z) (success : bool)
| AppConfig
| Scanned (complete : bool) (scan_type : Z).

Definition step {W} (E : env W) (e : event) (s : state W) : state W :=
  match e with
  | Receive data => (frame_receive E data s).2
  | Exec isr => (Waps_exec E isr s).2
  | DataReceived data => (data_cb E data s).2
  | PacketSent id src dst q a ok => (Waps_packetSent id src dst q a ok s).2
  | AppConfig => (app_config_received_cb E s).2
  | Scanned complete type => (on_scanned_nbors_cb complete type s).2
  end.

Definition run {W} (E : env W) (es : list event) (s : state W) : state W := foldl (fun s e => step E e s) s es.
