(* ===== verification/WapsInv.v ===== *)
(** * Invariants of the dual-MCU engine

    What holds of [Waps] in every state reached by any sequence of received
    frames, task runs (interrupted by further frames) and stack callbacks: items
    are neither lost nor used twice, two of them are kept for requests, frames
    on the line are well formed, the interrupt pin tells whether indications
    wait, requests never wait without the task, and indications leave in order,
    each until it is acknowledged. *)

From S2P Require Import Prelude Api WapsUart WapsFrames WapsServices Dsap Waps.
Import LockBits.

(** The data service keeps items well sized. *)
Lemma sized_send_and_confirm {W} (env : data_env W) lib x id data w :
  sized x -> sized (send_and_confirm env lib x id data w).1.2.
Proof.
  intros [Hwf _]. unfold send_and_confirm. rewrite !bindE. cbn [fst snd mret st_ret].
  rewrite on_frame_comp. apply sized_pld. rewrite on_frame_comp. apply sized_pld, sized_pld.
  by apply sized_init.
Qed.

Lemma sized_dsap {W} (env : data_env W) lib x w :
  sized x -> sized (Dsap_handleFrame env lib x w).1.2.
Proof.
  intros Hx. rewrite handle_cases. destruct (apdu_offset _); [|done]. destruct (size_ok _); [|done].
  rewrite bindE. by apply sized_send_and_confirm.
Qed.

Lemma sized_delay {W} (env : data_env W) x w :
  sized x -> sized (Dsap_update_packet_delay env x w).1.
Proof.
  intros Hx. unfold Dsap_update_packet_delay. rewrite bindE. cbn [fst mret st_ret].
  set (y := with_time _ x). assert (Hy : sized y) by done.
  assert (E : forall g, on_frame g y = with_frame (g (item_frame y)) y) by done.
  rewrite E. destruct (_ =? _); [by apply (sized_pld 12 4)|]. by destruct y.
Qed.

Lemma sized_sent id a b q d ok x : sized x -> sized (Dsap_packetSent id a b q d ok x).
Proof.
  intros [Hwf _]. unfold Dsap_packetSent. cbn zeta.
  do 6 (rewrite on_frame_comp; apply sized_pld). by apply sized_pld, sized_time, sized_init.
Qed.

Lemma sized_received {W} (env : data_env W) data dst x w :
  0 <= rx_num_bytes data <= 102 -> bytes (rx_bytes data) -> sized x ->
  sized (Dsap_packetReceived env data dst x w).1.
Proof.
  intros Hn Hb [Hwf _]. unfold Dsap_packetReceived. rewrite bindE. cbn [fst mret st_ret].
  set (y := match rx_fragment_info data with Some _ => _ | None => _ end).
  enough (Hy : sized y) by done. unfold y.
  assert (Hc : forall z, sized z -> sized (on_frame (rx_common data dst) z)).
  { intros z Hz. unfold rx_common. cbn zeta. do 6 (rewrite on_frame_comp; apply sized_pld).
    by apply sized_pld. }
  assert (Ht : bytes (take (Z.to_nat (rx_num_bytes data)) (rx_bytes data))) by by apply Forall_take.
  destruct (rx_fragment_info data) as [g|].
  - cbn zeta. rewrite on_frame_comp. apply sized_bytes; [done|]. rewrite on_frame_comp. apply sized_pld.
    destruct (last_fragment g).
    + set (z := Waps_item_init _ _ x).
      assert (Hz : sized (on_frame (set_pld 18 2 (Z.land (fragment_offset g) DSAP_FRAG_LENGTH_MASK))
        (on_frame (set_pld 20 1 (rx_num_bytes data)) (on_frame (rx_common data dst) z)))).
      { apply sized_pld, sized_pld, Hc, sized_init; [done|].
        unfold FRAME_DSAP_DATA_RX_FRAG_IND_HEADER_SIZE. lia. }
      exact (sized_pld 18 2 _ _ Hz).
    + rewrite on_frame_comp. apply sized_pld. rewrite on_frame_comp. apply sized_pld, Hc, sized_init; [done|].
      unfold FRAME_DSAP_DATA_RX_FRAG_IND_HEADER_SIZE. lia.
  - cbn zeta. rewrite on_frame_comp. apply sized_bytes; [done|]. rewrite on_frame_comp.
    apply sized_pld, Hc, sized_init; [done|]. unfold FRAME_DSAP_DATA_RX_IND_HEADER_SIZE. lia.
Qed.

Lemma sized_app_config seq config interval x :
  bytes config -> sized x -> sized (Msap_handleAppConfig seq config interval x).
Proof.
  intros Hc [Hwf _]. unfold Msap_handleAppConfig. cbn zeta.
  rewrite on_frame_comp. apply sized_pld. rewrite on_frame_comp. apply sized_bytes; [by apply Forall_take|].
  rewrite on_frame_comp. apply sized_bytes; [by apply bytes_repeat|].
  do 2 (rewrite on_frame_comp; apply sized_pld). by apply sized_sfid, sized_time, sized_init.
Qed.

Lemma sized_scanned x : sized x -> sized (Msap_onScannedNbors x).
Proof.
  intros [Hwf _]. unfold Msap_onScannedNbors.
  do 2 (rewrite on_frame_comp; apply sized_pld). by apply sized_sfid, sized_time, sized_init.
Qed.

Lemma sized_status st x : sized x -> sized (stack_status st x).
Proof.
  intros [Hwf _]. unfold stack_status.
  do 2 (rewrite on_frame_comp; apply sized_pld). by apply sized_sfid, sized_time, sized_init.
Qed.

(** A received frame whose length field matches its size. *)
Lemma sized_receive data t x :
  sized x -> bytes data -> (3 <= length data <= 126)%nat ->
  field 2 1 data = Z.of_nat (length data) - Z.of_nat HEADER ->
  sized (on_frame (blit 0 data) (with_cbs None None (with_time t x))).
Proof.
  intros [[Hl Hb] _] Hd Hlen Hf. split; [by apply wf_blit|].
  cbn [item_frame on_frame with_frame with_cbs with_time]. change FRAME_SIZE with 126%nat in Hl.
  assert (E : splen (blit 0 data (item_frame x)) = field 2 1 data).
  { unfold splen, field, slice. rewrite blit_app by (rewrite Hl; lia). rewrite take_0, app_nil_l.
    rewrite drop_app_le by lia. by rewrite take_app_le by (rewrite length_drop; lia). }
  rewrite E, Hf. unfold HEADER, Uart.WAPS_MIN_FRAME_LENGTH. lia.
Qed.

(** ** Counting items *)

Definition one (x i : loc) : nat := if decide (x = i) then 1 else 0.

Fixpoint cnt (i : loc) (l : list loc) : nat :=
  match l with [] => 0 | x :: l => one x i + cnt i l end.

Definition opt (o : option loc) : list loc := match o with Some x => [x] | None => [] end.

Lemma cnt_app i l1 l2 : cnt i (l1 ++ l2) = (cnt i l1 + cnt i l2)%nat.
Proof. induction l1 as [|x l1 IH]; cbn; [done|]. rewrite IH. lia. Qed.

Lemma cnt_occ i l : cnt i l = count_occ Nat.eq_dec l i.
Proof.
  induction l as [|x l IH]; [done|]. cbn [cnt count_occ]. unfold one. rewrite IH.
  by destruct (Nat.eq_dec x i), (decide (x = i)).
Qed.

Lemma cnt_permutation l1 l2 : l1 ≡ₚ l2 <-> forall i, cnt i l1 = cnt i l2.
Proof.
  rewrite (Permutation_count_occ Nat.eq_dec). by setoid_rewrite cnt_occ.
Qed.

(** A frame as the host accepts it: at least a header, and as many payload
    bytes as the header announces. *)
Definition line_frame (f : list Z) : Prop :=
  bytes f /\ (HEADER <= length f <= FRAME_SIZE)%nat /\
  field 2 1 f = Z.of_nat (length f) - Z.of_nat HEADER.

Lemma line_frame_of x :
  sized x -> line_frame (take (HEADER + Z.to_nat (splen (item_frame x))) (item_frame x)).
Proof.
  intros [[Hl Hb] Hs]. change FRAME_SIZE with 126%nat in Hl.
  pose proof (field1_range 2 (item_frame x) Hb ltac:(lia)) as Hr.
  assert (Hlen : length (take (HEADER + Z.to_nat (splen (item_frame x))) (item_frame x)) =
    (3 + Z.to_nat (splen (item_frame x)))%nat).
  { rewrite length_take, Hl. unfold HEADER, Uart.WAPS_MIN_FRAME_LENGTH. unfold splen in *. lia. }
  split; [by apply Forall_take|]. rewrite Hlen. unfold HEADER, Uart.WAPS_MIN_FRAME_LENGTH in *.
  change FRAME_SIZE with 126%nat. unfold splen in *. split; [lia|].
  assert (E : field 2 1 (take (3 + Z.to_nat (field 2 1 (item_frame x))) (item_frame x)) =
    field 2 1 (item_frame x)).
  { unfold field at 1, slice. rewrite skipn_firstn_comm, take_take.
    rewrite Nat.min_l by lia. done. }
  rewrite E. lia.
Qed.

Section Inv.
Context {W : Type} (E : env W) (n : nat).

(** The other services and the configuration data keep frames well sized. *)
Class EnvOk : Prop := {
  msap_ok x w : sized x -> sized (Msap_handleFrame E x w).1.2;
  csap_ok x w : sized x -> sized (Csap_handleFrame E x w).1.2;
  config_ok w : bytes (readAppConfig E w).1.1.2 }.

Context {HE : EnvOk}.

Abbreviation M := (st (state W)).

(** Where the items are: [hr] and [hi] are the ones a handler holds, for a
    request and for an indication. *)
Definition places (s : state W) : list loc :=
  free_items s ++ waps_ind_queue s ++ waps_reply_queue s ++ waps_request_queue s ++
  opt (prot_reply s) ++ opt (prot_indication s).

(** The indications under way. *)
Definition pend (s : state W) : list loc := opt (prot_indication s) ++ waps_ind_queue s.

Record inv (hr hi : list loc) (s : state W) : Prop := {
  inv_items i : (cnt i (places s) + cnt i hr + cnt i hi = cnt i (seq 0 n))%nat;
  inv_reserved : (length (pend s) + length hi <= n - WAPS_RESERVED_ITEMS)%nat;
  inv_sized i : sized (mem s i);
  inv_sent : Forall (fun p => line_frame p.1) (sent s) }.

(** Steps that move no item and change no memory. *)
Definition view (s : state W) : list loc * list loc * list loc * list loc * option loc * option loc :=
  (free_items s, waps_ind_queue s, waps_reply_queue s, waps_request_queue s, prot_reply s,
   prot_indication s).

Lemma inv_same hr hi s s' :
  view s' = view s -> (forall i, sized (mem s' i)) -> Forall (fun p => line_frame p.1) (sent s') ->
  inv hr hi s -> inv hr hi s'.
Proof.
  intros Hv Hs Hl [H1 H2 _ _]. unfold view in Hv. simplify_eq. constructor.
  - intros i. rewrite <- H1. unfold places. congruence.
  - unfold pend in *. congruence.
  - done.
  - done.
Qed.

Lemma inv_keeps {A} hr hi (m : M A) :
  keeps view m -> keeps mem m -> keeps sent m -> triple (inv hr hi) m (fun _ => inv hr hi).
Proof.
  intros Hv Hm Hl s Hi. apply (inv_same hr hi s); [apply Hv| | |done].
  - intros i. rewrite Hm. apply Hi.
  - rewrite Hl. apply Hi.
Qed.

Lemma keeps_in_world {A B} (f : state W -> B) (m : st W A) :
  (forall s w, f (mk (mem s) (free_items s) (waps_ind_queue s) (waps_reply_queue s) (waps_request_queue s)
     (m_free_waps_items s) (prot_reply s) (prot_indication s) (prot_seq s) (m_signal s) (scheduled s)
     (irq s) (sent s) w) = f s) -> keeps f (in_world m).
Proof. intros H s. unfold in_world. destruct (m (world s)). apply H. Qed.

Lemma inv_put hr hi i x : sized x -> triple (inv hr hi) (put_item i x) (fun _ => inv hr hi).
Proof.
  intros Hx. apply triple_modify. intros s Hi. apply (inv_same hr hi s); [done| |apply Hi|done].
  intros j. cbn. destruct (decide (j = i)); [done|]. apply Hi.
Qed.

Lemma inv_get hr hi i :
  triple (inv hr hi) (get_item i) (fun x s => sized x /\ inv hr hi s).
Proof. intros s Hi. split; [apply Hi|done]. Qed.

(** Moving items: the counts and the lengths after a change of the lists. *)
Ltac count := unfold places, pend in *; cbn [free_items waps_ind_queue waps_reply_queue
  waps_request_queue prot_reply prot_indication mem opt app length cnt] in *;
  do 3 (rewrite ?cnt_app, ?length_app in *; cbn [cnt length app] in *); lia.

Lemma inv_length hr hi s :
  inv hr hi s -> (length (places s) + length hr + length hi = n)%nat.
Proof.
  intros Hi. assert (Hp : places s ++ hr ++ hi ≡ₚ seq 0 n).
  { apply cnt_permutation. intros i. rewrite !cnt_app. rewrite <- (inv_items _ _ _ Hi i). lia. }
  apply Permutation_length in Hp. rewrite !length_app, length_seq in Hp. lia.
Qed.

Lemma reserve_request hr hi :
  triple (inv hr hi) (Waps_itemReserve WAPS_ITEM_TYPE_REQUEST) (fun r => inv (opt r ++ hr) hi).
Proof.
  intros s Hi. unfold Waps_itemReserve. rewrite bindE. cbn [gets fst snd orb].
  destruct (free_items s) as [|i l] eqn:El; [done|]. rewrite bindE.
  cbn [set_free modify fst snd mret st_ret]. destruct Hi as [H1 H2 H3 H4]. constructor; [|done..].
  intros j. specialize (H1 j). unfold places in *. rewrite El in H1. count.
Qed.

Lemma reserve_indication hr hi :
  triple (inv hr hi) (Waps_itemReserve WAPS_ITEM_TYPE_INDICATION) (fun r => inv hr (opt r ++ hi)).
Proof.
  intros s Hi. pose proof (inv_length _ _ _ Hi) as Hlen.
  unfold Waps_itemReserve. rewrite bindE. cbn [gets fst snd orb].
  destruct (Nat.ltb_spec WAPS_RESERVED_ITEMS (length (free_items s))) as [Hf|]; [|done].
  destruct (free_items s) as [|i l] eqn:El; [done|]. rewrite bindE.
  cbn [set_free modify fst snd mret st_ret]. destruct Hi as [H1 H2 H3 H4]. constructor; [| |done..].
  - intros j. specialize (H1 j). unfold places in *. rewrite El in H1. count.
  - unfold places in Hlen. rewrite El in Hlen. unfold WAPS_RESERVED_ITEMS in *. count.
Qed.

Lemma in_world_fields {A} (m : st W A) s :
  view (in_world m s).2 = view s /\ mem (in_world m s).2 = mem s /\ sent (in_world m s).2 = sent s.
Proof. unfold in_world. by destruct (m (world s)). Qed.

(** What [Waps_itemFree] does to the lists. *)
Lemma free_spec i s :
  view (Waps_itemFree E i s).2 = (i :: free_items s, waps_ind_queue s, waps_reply_queue s,
    waps_request_queue s, prot_reply s, prot_indication s) /\
  mem (Waps_itemFree E i s).2 = mem s /\ sent (Waps_itemFree E i s).2 = sent s.
Proof.
  unfold Waps_itemFree. rewrite !bindE. cbn [gets set_free modify fst snd].
  destruct (_ <=? _)%nat; [|done].
  match goal with |- context [in_world ?m ?x] => destruct (in_world_fields m x) as (-> & -> & ->) end. done.
Qed.

Lemma free_request i hr hi :
  triple (inv (i :: hr) hi) (Waps_itemFree E i) (fun _ => inv hr hi).
Proof.
  intros s [H1 H2 H3 H4]. destruct (free_spec i s) as (Hv & Hm & Hsent).
  injection Hv as E1 E2 E3 E4 E5 E6.
  constructor.
  - intros j. specialize (H1 j). unfold places in *. rewrite E1, E2, E3, E4, E5, E6. count.
  - unfold pend in *. congruence.
  - intros j. rewrite Hm. apply H3.
  - by rewrite Hsent.
Qed.

(** ** Sending *)

Lemma world_keeps_view {A} (m : st W A) : keeps view (in_world m).
Proof. intros s. apply in_world_fields. Qed.

Lemma world_keeps_mem {A} (m : st W A) : keeps mem (in_world m).
Proof. intros s. apply in_world_fields. Qed.

Lemma world_keeps_sent {A} (m : st W A) : keeps sent (in_world m).
Proof. intros s. apply in_world_fields. Qed.

Hint Resolve world_keeps_view world_keeps_mem world_keeps_sent : keeps.

Lemma engine_inv_world {A} hr hi (m : st W A) : triple (inv hr hi) (in_world m) (fun _ => inv hr hi).
Proof. apply inv_keeps; auto with keeps. Qed.

Lemma inv_gets {A} hr hi (f : state W -> A) : triple (inv hr hi) (gets f) (fun _ => inv hr hi).
Proof. by intros s Hi. Qed.

(** The result of a call of the environment, when it is known of all worlds. *)
Lemma inv_world_val {A} hr hi (m : st W A) (phi : A -> Prop) :
  (forall w, phi (m w).1) -> triple (inv hr hi) (in_world m) (fun x s => phi x /\ inv hr hi s).
Proof.
  intros Hphi s Hi. split; [|by apply engine_inv_world]. unfold in_world. specialize (Hphi (world s)).
  by destruct (m (world s)).
Qed.

Lemma inv_pre_cb hr hi cb i : triple (inv hr hi) (run_pre_cb E cb i) (fun _ => inv hr hi).
Proof.
  unfold run_pre_cb. eapply triple_bind; [apply inv_get|]. intros x. apply triple_pure. intros Hx.
  destruct cb.
  - eapply triple_bind; [by apply (inv_world_val _ _ _ sized); intros w; apply sized_delay|].
    intros y. apply triple_pure. intros Hy. by apply inv_put.
  - apply triple_skip; [apply inv_keeps; unfold queued_indications; keep|]. intros q.
    apply triple_skip; [apply inv_gets|]. intros ind. apply inv_put. auto with sized.
  - apply triple_skip; [apply engine_inv_world|]. intros t. apply inv_put. auto with sized.
Qed.

Lemma inv_log hr hi f ok : line_frame f -> triple (inv hr hi) (log_sent f ok) (fun _ => inv hr hi).
Proof.
  intros Hf s Hi. apply (inv_same hr hi s); [done|apply Hi| |done]. cbn [log_sent modify snd sent].
  apply Forall_app. split; [apply Hi|by apply Forall_singleton].
Qed.

Lemma inv_send_item hr hi i : triple (inv hr hi) (prot_send_item E i) (fun _ => inv hr hi).
Proof.
  unfold prot_send_item. eapply triple_bind; [apply inv_get|]. intros x. apply triple_pure. intros Hx.
  apply triple_skip; [destruct (pre_cb x); [apply inv_pre_cb|by intros s]|]. intros _.
  eapply triple_bind; [apply inv_get|]. intros y. apply triple_pure. intros Hy.
  apply triple_skip; [apply engine_inv_world|]. intros ok.
  apply triple_skip; [by apply inv_log, line_frame_of|]. intros _.
  destruct ok; cbn [negb]; [|by intros s].
  apply triple_skip; [destruct (post_cb y) as [[]|]; [apply engine_inv_world|by intros s]|].
  intros _. by intros s.
Qed.

Lemma inv_next_indication hr hi : triple (inv hr hi) next_indication (fun _ => inv hr hi).
Proof.
  intros s Hi. unfold next_indication. rewrite !bindE. cbn [gets fst snd].
  destruct (prot_indication s) eqn:Ep; [done|]. destruct (waps_ind_queue s) as [|i l] eqn:El; [done|].
  rewrite bindE. cbn [set_ind_queue set_prot_indication modify fst snd].
  destruct Hi as [H1 H2 H3 H4]. constructor; [| |done..].
  - intros j. specialize (H1 j). unfold places in *. rewrite Ep, El in H1. count.
  - unfold pend in *. rewrite Ep, El in H2. count.
Qed.

Lemma keeps_put i x : keeps view (put_item i x).
Proof. by intros s. Qed.

Lemma keeps_log f ok : keeps view (log_sent f ok).
Proof. by intros s. Qed.

Hint Resolve keeps_put keeps_log : keeps.

Lemma keeps_send_item i : keeps view (prot_send_item E i).
Proof. unfold prot_send_item, get_item, run_pre_cb, queued_indications, now. keep. Qed.

Hint Resolve keeps_send_item : keeps.

Lemma inv_send_current hr hi : triple (inv hr hi) (send_current E) (fun _ => inv hr hi).
Proof.
  unfold send_current.
  eapply (triple_bind _ _ (fun p s => p = prot_indication s /\ inv hr hi s)); [by intros s Hi|].
  intros [i|]; [|by intros s [_ Hi]].
  apply (triple_bind _ _ (fun x s => sized x /\ (Some i = prot_indication s /\ inv hr hi s))).
  { intros s [Hp Hi]. split; [apply Hi|done]. }
  intros x. apply triple_pure. intros Hx.
  apply triple_skip; [by intros s|]. intros seq. apply triple_skip; [by intros s Hs|]. intros q.
  apply triple_skip.
  { intros s [Hp Hi]. split; [done|]. apply (inv_put hr hi i); [|done].
    rewrite on_frame_comp. auto with sized. }
  intros _. apply (triple_bind _ _ (fun _ s => Some i = prot_indication s /\ inv hr hi s)).
  { intros s [Hp Hi]. split; [|by apply inv_send_item].
    pose proof (keeps_send_item i s) as Hv. unfold view in Hv. simplify_eq. congruence. }
  intros ok. destruct (negb ok); [|by intros s [_ Hi]].
  intros s [Hp Hi]. rewrite !bindE. cbn [gets set_ind_queue set_prot_indication modify fst snd].
  destruct Hi as [H1 H2 H3 H4]. constructor; [| |done..].
  - intros j. specialize (H1 j). unfold places in *. rewrite <- Hp in H1. count.
  - unfold pend in *. rewrite <- Hp in H2. count.
Qed.

Lemma keeps_updateIrq : keeps view (Waps_prot_updateIrqPin (W := W)).
Proof. by intros s. Qed.

Lemma inv_updateIrq hr hi : triple (inv hr hi) Waps_prot_updateIrqPin (fun _ => inv hr hi).
Proof. by apply inv_keeps. Qed.

Lemma inv_send_indication hr hi f : triple (inv hr hi) (send_indication E f) (fun _ => inv hr hi).
Proof.
  unfold send_indication. apply triple_skip; [|intros _; apply inv_updateIrq].
  destruct (allows_indication f); [|by intros s].
  apply triple_skip; [apply inv_next_indication|intros _; apply inv_send_current].
Qed.

(** The acknowledged indication goes back to the pool. *)
Lemma inv_ack hr hi p seq :
  triple (fun s => prot_indication s = Some p /\ inv hr hi s)
    (_ ← Waps_itemFree E p; set_prot_indication None seq) (fun _ => inv hr hi).
Proof.
  intros s [Hp [H1 H2 H3 H4]]. rewrite bindE. destruct (free_spec p s) as (Hv & Hm & Hsent).
  injection Hv as E1 E2 E3 E4 E5 E6. cbn [set_prot_indication modify snd].
  constructor; cbn [mem]; rewrite ?Hm; [| |done|by cbn [sent]; rewrite Hsent].
  - intros j. specialize (H1 j). unfold places in *. rewrite Hp in H1.
    cbn [free_items waps_ind_queue waps_reply_queue waps_request_queue prot_reply prot_indication].
    rewrite E1, E2, E3, E4, E5. count.
  - unfold pend in *. rewrite Hp in H2. cbn [prot_indication waps_ind_queue]. rewrite E2. count.
Qed.

Lemma inv_processResponse hr hi i :
  triple (inv hr hi) (Waps_protUart_processResponse E i) (fun _ => inv hr hi).
Proof.
  unfold Waps_protUart_processResponse.
  apply triple_skip; [by intros s|]. intros x. destruct (WapsFunc_isResponse _); [|by intros s].
  eapply (triple_bind _ _ (fun p s => prot_indication s = p /\ inv hr hi s)); [by intros s Hi|].
  intros [p|]; [|by intros s [_ Hi]].
  apply triple_skip; [by intros s|]. intros ind. apply triple_skip; [by intros s|]. intros seq.
  apply (triple_bind _ _ (fun _ => inv hr hi)).
  { destruct (answers _ _ _); [apply inv_ack|by intros s [_ Hi]]. }
  intros _. apply triple_skip; [apply inv_send_indication|by intros _ s].
Qed.

Lemma inv_next_reply hr hi : triple (inv hr hi) next_reply (fun _ => inv hr hi).
Proof.
  intros s Hi. unfold next_reply. rewrite !bindE. cbn [gets fst snd].
  destruct (prot_reply s) eqn:Ep; [done|]. destruct (waps_reply_queue s) as [|i l] eqn:El; [done|].
  rewrite bindE. cbn [set_reply_queue set_prot_reply modify fst snd].
  destruct Hi as [H1 H2 H3 H4]. constructor; [|done..].
  intros j. specialize (H1 j). unfold places in *. rewrite Ep, El in H1. count.
Qed.

Lemma keeps_view_reply {A} (m : M A) : keeps view m -> keeps prot_reply m.
Proof. intros H s. specialize (H s). unfold view in H. by simplify_eq. Qed.

Lemma keeps_prot_reply_send_current : keeps prot_reply (send_current E).
Proof.
  pose proof (fun i => keeps_view_reply _ (keeps_send_item i)).
  unfold send_current, get_item, queued_indications. keep.
Qed.

Lemma keeps_prot_reply_send_indication f : keeps prot_reply (send_indication E f).
Proof.
  unfold send_indication, next_indication. pose proof keeps_prot_reply_send_current. keep.
Qed.

Lemma inv_sendReply hr hi : triple (inv hr hi) (Waps_protUart_sendReply E) (fun _ => inv hr hi).
Proof.
  unfold Waps_protUart_sendReply. apply triple_skip; [apply inv_next_reply|]. intros _.
  eapply (triple_bind _ _ (fun r s => prot_reply s = r /\ inv hr hi s)); [by intros s Hi|].
  intros [i|]; [|by intros s [_ Hi]].
  apply triple_skip.
  { intros s [Hp Hi]. split; [|by apply inv_send_item].
    pose proof (keeps_send_item i s) as Hv. unfold view in Hv. simplify_eq. congruence. }
  intros ok. destruct (negb ok); [by intros s [_ Hi]|].
  apply triple_skip; [by intros s|]. intros x. apply triple_skip.
  { intros s [Hp Hi]. split; [|by apply inv_send_indication].
    by rewrite keeps_prot_reply_send_indication. }
  intros _ s [Hp [H1 H2 H3 H4]]. rewrite bindE. destruct (free_spec i s) as (Hv & Hm & Hsent).
  injection Hv as E1 E2 E3 E4 E5 E6. cbn [set_prot_reply modify snd].
  constructor; cbn [mem]; rewrite ?Hm; [| |done|by cbn [sent]; rewrite Hsent].
  - intros j. specialize (H1 j). unfold places in *. rewrite Hp in H1.
    cbn [free_items waps_ind_queue waps_reply_queue waps_request_queue prot_reply prot_indication].
    rewrite E1, E2, E3, E4, E6. count.
  - unfold pend in *. cbn [prot_indication waps_ind_queue]. by rewrite E2, E6.
Qed.

(** ** Requests *)

Lemma inv_process_request hr hi i :
  triple (inv hr hi) (process_request E i) (fun _ => inv hr hi).
Proof.
  unfold process_request. eapply triple_bind; [apply inv_get|]. intros x. apply triple_pure. intros Hx.
  apply (triple_bind _ _ (fun r s => sized r.2 /\ inv hr hi s)).
  - destruct (WapsFunc_isDsapRequest _); [|destruct (WapsFunc_isMsapRequest _);
      [|destruct (WapsFunc_isCsapRequest _)]].
    + apply (inv_world_val _ _ _ (fun r => sized r.2)). intros w. by apply sized_dsap.
    + apply (inv_world_val _ _ _ (fun r => sized r.2)). intros w. by apply msap_ok.
    + apply (inv_world_val _ _ _ (fun r => sized r.2)). intros w. by apply csap_ok.
    + by intros s.
  - intros r. apply triple_pure. intros Hr. apply triple_skip; [by apply inv_put|]. by intros _ s.
Qed.

Lemma inv_handle_request hr hi i :
  triple (inv (i :: hr) hi) (handle_request E i) (fun _ => inv hr hi).
Proof.
  unfold handle_request. apply triple_skip; [apply inv_processResponse|]. intros resp.
  apply triple_skip.
  { destruct resp; [by intros s|]. apply triple_skip; [apply engine_inv_world|]. intros t.
    apply triple_skip; [by intros s|]. intros x. destruct (_ <? _); [by intros s|].
    apply inv_process_request. }
  intros [|]; [|apply free_request].
  intros s [H1 H2 H3 H4]. unfold add_reply. rewrite bindE. cbn [gets set_reply_queue modify fst snd].
  constructor; [|done..]. intros j. specialize (H1 j). count.
Qed.

Definition frame_ok (data : list Z) : Prop := bytes data /\ (3 <= length data <= 126)%nat.

Lemma inv_frame_receive hr hi data :
  frame_ok data -> triple (inv hr hi) (frame_receive E data) (fun _ => inv hr hi).
Proof.
  intros [Hb Hl]. unfold frame_receive.
  destruct (Z.eqb_spec (field 2 1 data) (Z.of_nat (length data) - Z.of_nat HEADER)) as [Hf|];
    [|by intros s].
  eapply triple_bind; [apply reserve_request|]. intros [i|]; [|by intros s]. cbn [opt app].
  apply triple_skip; [apply engine_inv_world|]. intros t.
  eapply triple_bind; [apply inv_get|]. intros x. apply triple_pure. intros Hx.
  apply triple_skip; [apply inv_put; by apply sized_receive|]. intros _.
  apply (triple_bind _ _ (fun _ => inv hr hi)); [|by intros _ s].
  intros s [H1 H2 H3 H4]. unfold receive_request, wakeup_task. rewrite !bindE.
  cbn [gets set_request_queue set_task modify fst snd].
  constructor; [|done..]. intros j. specialize (H1 j). count.
Qed.

Lemma inv_interrupts hr hi l :
  Forall frame_ok l -> triple (inv hr hi) (interrupts E l) (fun _ => inv hr hi).
Proof.
  induction 1 as [|f l Hf _ IH]; cbn [interrupts]; [by intros s|].
  apply triple_skip; [by apply inv_frame_receive|]. by intros _.
Qed.

Lemma inv_read_request hr hi :
  triple (inv hr hi) read_request (fun r => inv (opt r ++ hr) hi).
Proof.
  intros s Hi. unfold read_request. rewrite bindE. cbn [gets fst snd].
  destruct (waps_request_queue s) as [|i l] eqn:El; [done|]. rewrite bindE.
  cbn [set_request_queue modify fst snd mret st_ret]. destruct Hi as [H1 H2 H3 H4].
  constructor; [|done..]. intros j. specialize (H1 j). unfold places in *. rewrite El in H1. count.
Qed.

(** The task keeps [I], which says which item the task holds, when its
    steps and the interrupts do. *)
Lemma exec_rule (I : list loc -> state W -> Prop) (isr : nat -> M unit) :
  (forall b c s, I [] s -> I [] (set_task b c s).2) ->
  (forall k h, triple (I h) (isr k) (fun _ => I h)) ->
  triple (I []) read_request (fun r => I (opt r)) ->
  (forall i, triple (I [i]) (handle_request E i) (fun _ => I [])) ->
  triple (I []) (Waps_protUart_sendReply E) (fun _ => I []) ->
  triple (I []) (exec_with E isr) (fun _ => I []).
Proof.
  intros Htask Hisr Hread Hhandle Hsend. unfold exec_with.
  apply triple_skip; [intros s; apply Htask|]. intros _.
  apply triple_skip; [apply Hisr|]. intros _.
  eapply triple_bind; [apply Hread|]. intros item.
  apply triple_skip; [apply Hisr|]. intros _.
  apply (triple_bind _ _ (fun _ => I [])).
  { destruct item; [apply Hhandle|by intros s]. }
  intros _. apply triple_skip; [apply Hisr|]. intros _.
  apply triple_skip; [apply Hsend|]. intros _.
  apply triple_skip; [apply Hisr|]. intros _.
  apply triple_skip; [by intros s|]. intros pending.
  apply triple_skip; [apply Hisr|]. intros _.
  do 2 (apply triple_skip; [by intros s|]; intros ?).
  apply triple_skip; [intros s; apply Htask|]. by intros _ s.
Qed.

Lemma inv_exec isr :
  (forall k h, triple (inv h []) (isr k) (fun _ => inv h [])) ->
  triple (inv [] []) (exec_with E isr) (fun _ => inv [] []).
Proof.
  intros Hisr. apply (exec_rule (fun h => inv h [])); [|done|..].
  - intros b c s. by apply (inv_keeps [] []).
  - intros s Hs. pose proof (inv_read_request [] [] s Hs) as H. cbn beta in H.
    by rewrite app_nil_r in H.
  - intros i. apply inv_handle_request.
  - apply inv_sendReply.
Qed.

(** ** Callbacks *)

Lemma inv_add_indication hr hi r :
  triple (inv hr (opt r ++ hi)) (add_indication r) (fun _ => inv hr hi).
Proof.
  destruct r as [i|]; [|by intros s]. unfold add_indication.
  intros s [H1 H2 H3 H4]. rewrite !bindE. cbn [gets set_ind_queue modify fst snd].
  apply (inv_updateIrq hr hi). constructor; [| |done..].
  - intros j. specialize (H1 j). count.
  - count.
Qed.

Lemma inv_data_cb hr hi data :
  0 <= rx_num_bytes data <= 102 -> bytes (rx_bytes data) ->
  triple (inv hr hi) (data_cb E data) (fun _ => inv hr hi).
Proof.
  intros Hn Hb. unfold data_cb. eapply triple_bind; [apply reserve_indication|].
  intros [i|]; [|by intros s]. cbn [opt app].
  apply triple_skip.
  { destruct (_ =? _); [by intros s|]. destruct (_ =? _); [by intros s|].
    apply triple_skip; [apply engine_inv_world|]. by intros a s. }
  intros dst. eapply triple_bind; [apply inv_get|]. intros x. apply triple_pure. intros Hx.
  eapply triple_bind; [apply (inv_world_val _ _ _ sized); intros w; by apply sized_received|].
  intros y. apply triple_pure. intros Hy. apply triple_skip; [by apply inv_put|]. intros _.
  eapply triple_bind; [apply (inv_add_indication hr hi (Some i))|]. by intros _ s.
Qed.

Lemma inv_packetSent hr hi id src dst q a ok :
  triple (inv hr hi) (Waps_packetSent id src dst q a ok) (fun _ => inv hr hi).
Proof.
  unfold Waps_packetSent. eapply triple_bind; [apply reserve_indication|].
  intros [i|]; [|by intros s]. cbn [opt app].
  eapply triple_bind; [apply inv_get|]. intros x. apply triple_pure. intros Hx.
  apply triple_skip; [by apply inv_put, sized_sent|]. intros _. apply (inv_add_indication hr hi (Some i)).
Qed.

Lemma inv_update hr hi func build :
  (forall x, sized x -> sized (build x)) ->
  triple (inv hr hi) (update_indication func build) (fun _ => inv hr hi).
Proof.
  intros Hbuild. unfold update_indication. apply triple_skip; [by intros s|]. intros [i|].
  { eapply triple_bind; [apply inv_get|]. intros x. apply triple_pure. intros Hx. by apply inv_put, Hbuild. }
  eapply triple_bind; [apply reserve_indication|]. intros r. apply triple_skip; [|intros _; apply inv_add_indication].
  destruct r as [i|]; [|by intros s]. eapply triple_bind; [apply inv_get|]. intros x.
  apply triple_pure. intros Hx. by apply inv_put, Hbuild.
Qed.

Definition event_ok (e : event) : Prop :=
  match e with
  | Receive data => frame_ok data
  | Exec isr => forall k, Forall frame_ok (isr k)
  | DataReceived data => 0 <= rx_num_bytes data <= 102 /\ bytes (rx_bytes data)
  | _ => True
  end.

Lemma inv_step e s : event_ok e -> inv [] [] s -> inv [] [] (step E e s).
Proof.
  intros He Hi. destruct e; cbn [step].
  - by apply inv_frame_receive.
  - apply inv_exec; [|done]. intros k h. by apply inv_interrupts.
  - destruct He. by apply inv_data_cb.
  - by apply inv_packetSent.
  - cut (triple (inv [] []) (app_config_received_cb E) (fun _ => inv [] [])); [auto|].
    unfold app_config_received_cb.
    apply (triple_bind (inv [] []) _ (fun c s => bytes c.1.2 /\ inv [] [] s)).
    + apply (inv_world_val _ _ _ (fun c => bytes c.1.2)). intros w. apply config_ok.
    + intros c. apply triple_pure. intros Hc. apply inv_update. intros x Hx. by apply sized_app_config.
  - unfold on_scanned_nbors_cb. destruct (_ || _); [done|]. apply inv_update; [|done].
    apply sized_scanned.
Qed.

Lemma run_ind (P : state W -> Prop) es s :
  (forall e s, event_ok e -> P s -> P (step E e s)) -> Forall event_ok es -> P s -> P (run E es s).
Proof.
  intros Hstep Hes. revert s. induction Hes as [|e es He _ IH]; intros s Hs; [done|].
  cbn. by apply IH, Hstep.
Qed.

(** A state before [Waps_init]: nothing under way, the memory cleared. *)
Definition fresh (s : state W) : Prop :=
  prot_reply s = None /\ prot_indication s = None /\ irq s = false /\ sent s = [] /\
  forall i, sized (mem s i).

Lemma inv_init s : fresh s -> (WAPS_RESERVED_ITEMS < n)%nat -> inv [] [] (Waps_init E n s).2.
Proof.
  intros (Hr & Hp & _ & Hse & Hm) Hn. unfold Waps_init. rewrite !bindE.
  cbn [set_request_queue set_ind_queue set_reply_queue Waps_itemInit modify fst snd].
  set (s1 := mk _ _ _ _ _ _ _ _ _ _ _ _ _ _).
  assert (Hi : inv [] [] s1).
  { constructor; [| |done|unfold s1; cbn [sent]; by rewrite Hse].
    - intros j. unfold places, s1. cbn [free_items waps_ind_queue waps_reply_queue waps_request_queue
        prot_reply prot_indication mem]. rewrite Hr, Hp. cbn [opt app cnt]. rewrite !app_nil_r, !Nat.add_0_r.
      apply cnt_permutation. symmetry. apply Permutation_rev.
    - unfold pend, s1. cbn [prot_indication waps_ind_queue]. rewrite Hp. cbn [opt app length]. lia. }
  assert (Ht : triple (inv [] []) (Msap_getStackStatusIndication E) (fun r => inv [] (opt r ++ []))).
  { unfold Msap_getStackStatusIndication. eapply triple_bind; [apply reserve_indication|].
    intros [i|]; [|by intros s']. apply triple_skip; [apply engine_inv_world|]. intros st.
    eapply triple_bind; [apply inv_get|]. intros x. apply triple_pure. intros Hx.
    apply triple_skip; [by apply inv_put, sized_status|]. by intros _ s'. }
  pose proof (Ht s1 Hi) as H1. pose proof (inv_add_indication [] [] _ _ H1) as H2.
  destruct H2 as [H2 H3 H4]. by constructor.
Qed.

(** C5: from the start on, whatever frames arrive (also in the middle of the
    task), packets are received and sent and the task runs, every item of the
    pool is in exactly one place: free, in one of the three queues, the reply
    or the indication under way.  No item leaks and none is used twice; the
    indications never take the last two items, so that a request can be
    received while none is being served; and every item holds a frame that
    fits in its memory. *)
Theorem waps_items_conserved s es :
  fresh s -> (WAPS_RESERVED_ITEMS < n)%nat -> Forall event_ok es ->
  let s' := run E es (Waps_init E n s).2 in
  places s' ≡ₚ seq 0 n /\
  (length (pend s') <= n - WAPS_RESERVED_ITEMS)%nat /\
  (waps_request_queue s' = [] -> waps_reply_queue s' = [] -> prot_reply s' = None ->
    (WAPS_RESERVED_ITEMS <= length (free_items s'))%nat) /\
  forall i, sized (mem s' i).
Proof.
  intros Hf Hn Hes. assert (Hi : inv [] [] (run E es (Waps_init E n s).2)).
  { apply (run_ind (inv [] [])); [apply inv_step|done|by apply inv_init]. }
  cbn zeta. pose proof (inv_length _ _ _ Hi) as Hl. destruct Hi as [H1 H2 H3 H4]. split_and!.
  - apply cnt_permutation. intros i. rewrite <- (H1 i). cbn [cnt]. lia.
  - cbn [length] in H2. lia.
  - intros E1 E2 E3. unfold places in Hl. rewrite E1, E2, E3 in Hl. cbn [opt app length] in *.
    unfold pend in H2. rewrite !length_app in *. unfold WAPS_RESERVED_ITEMS in *. cbn [length] in *. lia.
  - done.
Qed.

(** C25: every frame the engine hands to the serial line, reply or indication,
    first attempt or repetition, is one the host's receiver accepts: bytes, a
    header and exactly the payload that the header announces. *)
Theorem waps_sent_frames_legal s es :
  fresh s -> (WAPS_RESERVED_ITEMS < n)%nat -> Forall event_ok es ->
  Forall (fun p => line_frame p.1) (sent (run E es (Waps_init E n s).2)).
Proof.
  intros Hf Hn Hes. apply (run_ind (inv [] [])); [apply inv_step|done|by apply inv_init].
Qed.

End Inv.

(** ** Indications *)

Section Indications.
Context {W : Type} (E : env W).

Abbreviation M := (st (state W)).

(** What the host sees of the indications. *)
Definition iview (s : state W) : bool * list loc * option loc * Z :=
  (irq s, waps_ind_queue s, prot_indication s, prot_seq s).

Definition pin (s : state W) : Prop := irq s = is_pending s.

Lemma pin_iview s s' : iview s' = iview s -> pin s -> pin s'.
Proof. unfold iview, pin, is_pending. intros [= E1 E2 E3 _]. by rewrite E1, E2, E3. Qed.

Lemma world_iview {A} (m : st W A) : keeps iview (in_world m).
Proof. intros s. unfold in_world. by destruct (m (world s)). Qed.

Lemma free_iview i : keeps iview (Waps_itemFree E i).
Proof. unfold Waps_itemFree. pose proof @world_iview. keep. Qed.

Lemma send_item_iview i : keeps iview (prot_send_item E i).
Proof. unfold prot_send_item, get_item, run_pre_cb, queued_indications, now. pose proof @world_iview. keep. Qed.

Lemma reserve_iview type : keeps iview (Waps_itemReserve (W := W) type).
Proof. unfold Waps_itemReserve. keep. Qed.

Lemma receive_iview data : keeps iview (frame_receive E data).
Proof.
  unfold frame_receive, receive_request, wakeup_task, get_item, now.
  pose proof @world_iview. pose proof reserve_iview. keep.
Qed.

Lemma interrupts_iview l : keeps iview (interrupts E l).
Proof. pose proof receive_iview. induction l; cbn [interrupts]; keep. Qed.

Lemma process_iview i : keeps iview (process_request E i).
Proof. unfold process_request, get_item. pose proof @world_iview. keep. Qed.

Lemma read_iview : keeps iview (read_request (W := W)).
Proof. unfold read_request. keep. Qed.

Lemma add_reply_iview i : keeps iview (add_reply (W := W) i).
Proof. unfold add_reply. keep. Qed.

Lemma next_reply_iview : keeps iview (next_reply (W := W)).
Proof. unfold next_reply. keep. Qed.

Lemma pending_iview : keeps iview (frames_pending (W := W)).
Proof. unfold frames_pending. keep. Qed.

Hint Resolve free_iview send_item_iview reserve_iview receive_iview interrupts_iview process_iview
  read_iview add_reply_iview next_reply_iview pending_iview : keeps.

Lemma keeps_pin {A} (m : M A) : keeps iview m -> triple pin m (fun _ => pin).
Proof. intros H s. apply pin_iview, H. Qed.

Lemma pin_send_indication P f : triple P (send_indication E f) (fun _ => pin).
Proof.
  unfold send_indication. apply (triple_bind _ _ (fun _ _ => True)); [done|].
  intros _ s _. unfold Waps_prot_updateIrqPin. rewrite bindE. cbn [gets set_irq modify fst snd].
  unfold pin, is_pending. cbn [irq waps_ind_queue prot_indication]. done.
Qed.

Lemma pin_handle_request i : triple pin (handle_request E i) (fun _ => pin).
Proof.
  unfold handle_request. apply triple_skip.
  { unfold Waps_protUart_processResponse. apply triple_skip; [by intros s|]. intros x.
    destruct (WapsFunc_isResponse _); [|by intros s]. apply triple_skip; [by intros s|].
    intros [p|]; [|by intros s]. do 2 (apply triple_skip; [by intros s|]; intros ?).
    apply (triple_bind _ _ (fun _ _ => True)); [done|]. intros _.
    eapply triple_bind; [apply pin_send_indication|]. by intros ? s. }
  intros resp. apply triple_skip.
  { apply keeps_pin. unfold now, get_item. pose proof @world_iview. keep. }
  intros replied. apply keeps_pin. pose proof add_reply_iview. pose proof free_iview. keep.
Qed.

Lemma pin_sendReply : triple pin (Waps_protUart_sendReply E) (fun _ => pin).
Proof.
  unfold Waps_protUart_sendReply. apply triple_skip; [apply keeps_pin; auto with keeps|]. intros _.
  apply triple_skip; [by intros s|]. intros [i|]; [|by intros s].
  apply triple_skip; [apply keeps_pin; auto with keeps|]. intros ok. destruct (negb ok); [by intros s|].
  apply triple_skip; [by intros s|]. intros x.
  eapply triple_bind; [apply pin_send_indication|]. intros ?.
  apply triple_skip; [apply keeps_pin; auto with keeps|]. by intros _ s.
Qed.

Lemma pin_add_indication r : triple pin (add_indication (W := W) r) (fun _ => pin).
Proof.
  destruct r as [i|]; [|by intros s]. unfold add_indication.
  apply (triple_bind _ _ (fun _ _ => True)); [done|]. intros l.
  apply (triple_bind _ _ (fun _ _ => True)); [done|]. intros _ s _.
  unfold Waps_prot_updateIrqPin. rewrite bindE. cbn [gets set_irq modify fst snd].
  unfold pin, is_pending. cbn [irq waps_ind_queue prot_indication]. done.
Qed.

Lemma pin_update func build : triple pin (update_indication (W := W) func build) (fun _ => pin).
Proof.
  unfold update_indication. apply triple_skip; [by intros s|]. intros [i|].
  { apply triple_skip; [by intros s|]. intros x. by apply keeps_pin. }
  apply triple_skip; [apply keeps_pin; auto with keeps|]. intros r.
  apply triple_skip; [|intros _; apply pin_add_indication].
  apply keeps_pin. unfold get_item. keep.
Qed.

Lemma pin_step e s : pin s -> pin (step E e s).
Proof.
  destruct e; cbn [step].
  - apply keeps_pin. auto with keeps.
  - revert s. change (triple pin (Waps_exec E isr) (fun _ => pin)). unfold Waps_exec, exec_with.
    apply triple_skip; [by apply keeps_pin|]. intros _.
    apply triple_skip; [apply keeps_pin; auto with keeps|]. intros _.
    apply triple_skip; [apply keeps_pin; auto with keeps|]. intros item.
    apply triple_skip; [apply keeps_pin; auto with keeps|]. intros _.
    apply triple_skip; [destruct item; [apply pin_handle_request|by intros s]|]. intros _.
    apply triple_skip; [apply keeps_pin; auto with keeps|]. intros _.
    apply triple_skip; [apply pin_sendReply|]. intros _. apply keeps_pin. keep.
  - revert s. change (triple pin (data_cb E data) (fun _ => pin)). unfold data_cb.
    apply triple_skip; [apply keeps_pin; auto with keeps|]. intros [i|]; [|by intros s].
    pose proof @world_iview.
    apply triple_skip; [apply keeps_pin; keep|]. intros dst.
    apply triple_skip; [by intros s|]. intros x. apply triple_skip; [apply keeps_pin; keep|]. intros y.
    apply triple_skip; [by apply keeps_pin|]. intros _.
    apply triple_skip; [apply pin_add_indication|]. by intros _ s.
  - revert s. change (triple pin (Waps_packetSent tracking_id src_ep dst_ep queue_time dst_addr success)
      (fun _ => pin)). unfold Waps_packetSent.
    apply triple_skip; [apply keeps_pin; auto with keeps|]. intros [i|]; [|by intros s].
    apply triple_skip; [by intros s|]. intros x. apply triple_skip; [by apply keeps_pin|]. intros _.
    apply pin_add_indication.
  - revert s. change (triple pin (app_config_received_cb E) (fun _ => pin)).
    apply triple_skip; [apply keeps_pin, world_iview|]. intros c. apply pin_update.
  - unfold on_scanned_nbors_cb. destruct (_ || _); [done|]. apply pin_update.
Qed.

Lemma status_iview : keeps iview (Msap_getStackStatusIndication E).
Proof.
  unfold Msap_getStackStatusIndication, get_item. pose proof @world_iview. pose proof reserve_iview. keep.
Qed.

(** in every state reached from the start, the interrupt pin of the serial
    line is asserted exactly when an indication waits in the queue or for its
    acknowledgement. *)
Theorem waps_irq_pin n s es :
  fresh s -> let s' := run E es (Waps_init E n s).2 in irq s' = is_pending s'.
Proof.
  intros (_ & Hp & Hirq & _). cbn zeta. fold (pin (run E es (Waps_init E n s).2)).
  assert (H0 : pin (Waps_init E n s).2).
  { unfold Waps_init. rewrite !bindE.
    cbn [set_request_queue set_ind_queue set_reply_queue Waps_itemInit modify fst snd].
    set (s1 := mk _ _ _ _ _ _ _ _ _ _ _ _ _ _).
    assert (H1 : pin s1).
    { unfold pin, is_pending, s1. cbn [irq waps_ind_queue prot_indication]. by rewrite Hirq, Hp. }
    assert (H2 : pin (Msap_getStackStatusIndication E s1).2).
    { apply (pin_iview s1); [apply status_iview|done]. }
    apply (pin_iview _ _ eq_refl). apply (pin_add_indication _ _ H2). }
  revert H0. generalize (Waps_init E n s).2. induction es as [|e es IH]; intros s' Hs'; [done|].
  cbn. by apply IH, pin_step.
Qed.

(** The indications under way and the sequence number. *)
Definition pseq (s : state W) : list loc * Z := (pend s, prot_seq s).

Lemma keeps_pseq {A} (m : M A) : keeps iview m -> keeps pseq m.
Proof.
  intros H s. specialize (H s). unfold iview in H. injection H as E1 E2 E3 E4.
  unfold pseq, pend. by rewrite E2, E3, E4.
Qed.

Lemma next_indication_pseq : keeps pseq (next_indication (W := W)).
Proof.
  intros s. unfold next_indication. rewrite !bindE. cbn [gets fst snd].
  destruct (prot_indication s) eqn:Ep; [done|]. destruct (waps_ind_queue s) eqn:El; [done|].
  rewrite bindE. cbn [set_ind_queue set_prot_indication modify fst snd].
  unfold pseq, pend. cbn [prot_indication waps_ind_queue prot_seq]. by rewrite Ep, El.
Qed.

(** A failed write puts the indication back where it was. *)
Lemma send_current_pseq : keeps pseq (send_current E).
Proof.
  intros s. set (P i s' := prot_indication s' = Some i /\ pseq s' = pseq s).
  assert (Hk : forall i A (m : M A), keeps iview m -> triple (P i) m (fun _ => P i)).
  { intros i A m Hm s' [H1 H2]. split; [|by rewrite (keeps_pseq m Hm)].
    specialize (Hm s'). unfold iview in Hm. simplify_eq. congruence. }
  cut (triple (fun s' => s' = s) (send_current E) (fun _ s' => pseq s' = pseq s)); [intros H; by apply H|].
  unfold send_current.
  apply (triple_bind _ _ (fun p s' => match p with Some i => P i s' | None => pseq s' = pseq s end)).
  { intros s' ->. cbn [gets fst snd]. destruct (prot_indication s) eqn:Ep; [by split|done]. }
  intros [i|]; [|by intros s'].
  apply triple_skip; [by apply Hk|]. intros x.
  apply (triple_bind _ _ (fun seq s' => seq = prot_seq s /\ P i s')).
  { intros s' [H1 H2]. split; [|done]. cbn [gets fst]. unfold pseq in H2. congruence. }
  intros seq. apply triple_pure. intros ->.
  apply triple_skip; [apply Hk; unfold queued_indications; keep|]. intros q.
  apply triple_skip; [by apply Hk|]. intros _.
  apply triple_skip; [apply Hk; auto with keeps|]. intros ok.
  destruct (negb ok); [|by intros s' [_ H]].
  intros s' [H1 H2]. rewrite !bindE. cbn [gets set_ind_queue set_prot_indication modify fst snd].
  rewrite <- H2. unfold pseq, pend. cbn [prot_indication waps_ind_queue prot_seq]. rewrite H1.
  unfold pseq in H2. injection H2 as _ ->. done.
Qed.

Lemma send_indication_pseq f : keeps pseq (send_indication E f).
Proof.
  unfold send_indication. pose proof next_indication_pseq. pose proof send_current_pseq. keep.
Qed.

(** Does the task, about to serve item [i], acknowledge the indication? *)
Definition acked (i : loc) (s : state W) : bool :=
  match prot_indication s with
  | Some p => WapsFunc_isResponse (sfunc (item_frame (mem s i))) &&
              answers (item_frame (mem s i)) (mem s p) (prot_seq s)
  | None => false
  end.

Definition after_ack (b : bool) (v : list loc * Z) : list loc * Z :=
  if b then (tail v.1, u8 (v.2 + 1)) else v.

Lemma response_pseq i s :
  pseq (Waps_protUart_processResponse E i s).2 = after_ack (acked i s) (pseq s).
Proof.
  unfold Waps_protUart_processResponse, acked. rewrite bindE. cbn [get_item gets fst snd].
  destruct (WapsFunc_isResponse _); [|by destruct (prot_indication s)].
  rewrite bindE. cbn [gets fst snd]. destruct (prot_indication s) as [p|] eqn:Ep; [|done].
  rewrite !bindE. cbn [get_item gets fst snd mret st_ret andb].
  rewrite send_indication_pseq. destruct (answers _ _ _); [|done].
  rewrite bindE. cbn [set_prot_indication modify snd]. unfold pseq, pend. cbn [prot_indication waps_ind_queue prot_seq].
  pose proof (free_iview p s) as H. unfold iview in H. injection H as _ -> _ _.
  by rewrite Ep.
Qed.

Lemma handle_request_pseq i s :
  pseq (handle_request E i s).2 = after_ack (acked i s) (pseq s).
Proof.
  unfold handle_request. rewrite bindE.
  assert (H : forall r, keeps pseq (replied ← (if (r : bool) then mret false
             else
               t ← now E;
               x ← get_item i;
               if WAPS_MAX_REQUEST_QUEUING_TIME_COARSE <? u32 (t - time x) then mret false
               else process_request E i);
    if (replied : bool) then add_reply i else Waps_itemFree E i)).
  { intros r. apply keeps_pseq. unfold now, get_item. pose proof @world_iview. keep. }
  rewrite H. apply response_pseq.
Qed.

(** The state in which the task handles the request it has read. *)
Definition exec_start (isr : nat -> list (list Z)) : M (option loc) :=
  _ ← set_task false false;
  _ ← interrupts E (isr 0%nat);
  item ← read_request;
  _ ← interrupts E (isr 1%nat);
  mret item.

Lemma exec_start_pseq isr : keeps pseq (exec_start isr).
Proof. apply keeps_pseq. unfold exec_start. keep. Qed.

Lemma sendReply_pseq : keeps pseq (Waps_protUart_sendReply E).
Proof.
  unfold Waps_protUart_sendReply, get_item. pose proof send_indication_pseq.
  pose proof (keeps_pseq _ next_reply_iview). pose proof (fun i => keeps_pseq _ (send_item_iview i)).
  pose proof (fun i => keeps_pseq _ (free_iview i)). keep.
Qed.

Lemma exec_split isr s :
  exists rest : M Z, keeps pseq rest /\
    Waps_exec E isr s = (item ← exec_start isr;
      _ ← (match item with Some i => handle_request E i | None => mret tt end); rest) s.
Proof.
  exists (_ ← interrupts E (isr 2%nat);
  _ ← Waps_protUart_sendReply E;
  _ ← interrupts E (isr 3%nat);
  pending ← frames_pending;
  _ ← interrupts E (isr 4%nat);
  sig ← gets m_signal;
  sched ← gets scheduled;
  _ ← set_task sig (sched || pending);
  mret (if (pending : bool) then APP_SCHEDULER_SCHEDULE_ASAP else APP_SCHEDULER_STOP_TASK)).
  split.
  - pose proof sendReply_pseq. pose proof (fun l => keeps_pseq _ (interrupts_iview l)).
    pose proof (keeps_pseq _ pending_iview). keep.
  - unfold Waps_exec, exec_with, exec_start. by rewrite !bindE.
Qed.

Lemma exec_pseq isr s :
  pseq (Waps_exec E isr s).2 =
    match exec_start isr s with
    | (Some i, s2) => after_ack (acked i s2) (pseq s)
    | (None, _) => pseq s
    end.
Proof.
  destruct (exec_split isr s) as (rest & Hr & ->). rewrite !bindE, Hr.
  pose proof (exec_start_pseq isr s) as H. destruct (exec_start isr s) as [[i|] s2]; cbn [fst snd] in *.
  - by rewrite handle_request_pseq, H.
  - exact H.
Qed.
(** Callbacks add at most one indication, at the end. *)
Definition adds (s s' : state W) : Prop :=
  exists r, pseq s' = (pend s ++ opt r, prot_seq s).

Lemma adds_refl s : adds s s.
Proof. exists None. cbn [opt]. by rewrite app_nil_r. Qed.

Lemma adds_keeps {A} (m : M A) s : keeps iview m -> adds s (m s).2.
Proof. intros H. destruct (adds_refl s) as [r Hr]. exists r. by rewrite (keeps_pseq m H). Qed.

Lemma add_indication_pseq r s :
  pseq (add_indication r s).2 = (pend s ++ opt r, prot_seq s).
Proof.
  destruct r as [i|]; [|by rewrite app_nil_r]. unfold add_indication. rewrite !bindE.
  cbn [gets set_ind_queue modify fst snd]. unfold Waps_prot_updateIrqPin. rewrite bindE.
  cbn [gets set_irq modify fst snd]. unfold pseq, pend. cbn [prot_indication waps_ind_queue prot_seq opt].
  by rewrite (assoc_L (++)).
Qed.

(** An addition at the end of steps that keep the indications. *)
Lemma adds_bind {A B} (m : M A) (k : A -> M B) s :
  keeps iview m -> (forall x s', pseq s' = pseq s -> adds s (k x s').2) -> adds s ((x ← m; k x) s).2.
Proof. intros Hm Hk. rewrite bindE. apply Hk. by apply keeps_pseq. Qed.

Lemma adds_add r s s' : pseq s' = pseq s -> adds s (add_indication r s').2.
Proof.
  intros H. exists r. rewrite add_indication_pseq. unfold pseq in H. by injection H as -> ->.
Qed.

Lemma adds_keeps_at {A} (m : M A) s s' : keeps iview m -> pseq s' = pseq s -> adds s (m s').2.
Proof. intros Hm H. exists None. cbn [opt]. rewrite app_nil_r, (keeps_pseq m Hm). exact H. Qed.

Lemma adds_bind_at {A B} (m : M A) (k : A -> M B) s s0 :
  pseq s0 = pseq s -> keeps iview m -> (forall x s', pseq s' = pseq s -> adds s (k x s').2) ->
  adds s ((x ← m; k x) s0).2.
Proof. intros H0 Hm Hk. rewrite bindE. apply Hk. by rewrite (keeps_pseq m Hm). Qed.

Ltac adds :=
  repeat match goal with
  | H : pseq ?s0 = pseq ?s |- adds ?s ((mbind _ (add_indication _)) ?s0).2 =>
      rewrite bindE; exact (adds_add _ _ _ H)
  | H : pseq ?s0 = pseq ?s |- adds ?s ((mbind _ _) ?s0).2 =>
      apply (adds_bind_at _ _ s s0 H); [solve [keep]|clear s0 H; intros ? s0 H]
  | H : pseq ?s0 = pseq ?s |- adds ?s (match ?x with _ => _ end ?s0).2 => destruct x
  | H : pseq ?s0 = pseq ?s |- adds ?s (add_indication _ ?s0).2 => by apply adds_add
  | H : pseq ?s0 = pseq ?s |- adds ?s (_ ?s0).2 => solve [apply adds_keeps_at; [keep|exact H]]
  end.

Lemma adds_update func build s s0 :
  pseq s0 = pseq s -> adds s (update_indication func build s0).2.
Proof. intros H. unfold update_indication, find_indication, get_item. adds. Qed.

Lemma adds_step e s :
  (forall isr, e <> Exec isr) -> adds s (step E e s).
Proof.
  intros He. pose proof @world_iview.
  destruct e; cbn [step].
  - apply adds_keeps_at; [auto with keeps|done].
  - by destruct (He isr).
  - cut (forall s0, pseq s0 = pseq s -> adds s (data_cb E data s0).2); [auto|].
    intros s0 H0. unfold data_cb, get_item. adds.
  - cut (forall s0, pseq s0 = pseq s ->
      adds s (Waps_packetSent tracking_id src_ep dst_ep queue_time dst_addr success s0).2); [auto|].
    intros s0 H0. unfold Waps_packetSent, get_item. adds.
  - apply (adds_bind_at _ _ s s); [done|keep|]. intros c s1 H1. by apply adds_update.
  - unfold on_scanned_nbors_cb. destruct (_ || _); [apply adds_refl|]. by apply adds_update.
Qed.

(** Is this event a run of the task that serves the awaited acknowledgement? *)
Definition is_ack (e : event) (s : state W) : bool :=
  match e with
  | Exec isr => match exec_start isr s with (Some i, s2) => acked i s2 | (None, _) => false end
  | _ => false
  end.

Fixpoint acks (es : list event) (s : state W) : nat :=
  match es with
  | [] => 0
  | e :: es => (if is_ack e s then 1 else 0) + acks es (step E e s)
  end.

Lemma acked_head i s2 s :
  pseq s2 = pseq s -> acked i s2 = true -> pend s <> [].
Proof.
  unfold acked, pseq, pend. intros [= H _]. destruct (prot_indication s2); [|done].
  intros _ E0. rewrite E0 in H. done.
Qed.

Lemma step_pseq e s :
  exists r, pseq (step E e s) = (drop (if is_ack e s then 1 else 0) (pend s) ++ opt r,
    if is_ack e s then u8 (prot_seq s + 1) else prot_seq s) /\
    (is_ack e s = true -> pend s <> []).
Proof.
  assert (Hother : (forall isr, e <> Exec isr) -> is_ack e s = false).
  { intros H. destruct e; try done. by destruct (H isr). }
  destruct e as [|isr| | | |].
  2: { cbn [step is_ack]. rewrite exec_pseq. pose proof (exec_start_pseq isr s) as Hs.
       exists None. cbn [opt]. rewrite app_nil_r.
       destruct (exec_start isr s) as [[i|] s2]; [|done].
       destruct (acked i s2) eqn:Ea; [|done]. split; [by destruct (pend s) eqn:Ep; unfold pseq; rewrite Ep|].
       intros _. by apply (acked_head i s2). }
  all: rewrite Hother by done; rewrite drop_0.
  all: match goal with |- exists r, pseq (step E ?e ?s0) = _ /\ _ =>
         destruct (adds_step e s0) as [r Hr]; [done|exists r; by split] end.
Qed.

End Indications.

(** ** The task *)

Section Task.
Context {W : Type} (E : env W).

Abbreviation M := (st (state W)).

Definition tview (s : state W) : list loc * list loc * bool * bool :=
  (waps_request_queue s, waps_reply_queue s, m_signal s, scheduled s).

(** The signal is up only while the scheduler holds the task. *)
Definition signal_ok (s : state W) : Prop := m_signal s = true -> scheduled s = true.

(** Requests and replies do not wait without the task. *)
Definition task_ok (s : state W) : Prop :=
  signal_ok s /\ (waps_request_queue s <> [] \/ waps_reply_queue s <> [] -> scheduled s = true).

(** The same in the middle of the task, which will ask to be run again if [b]. *)
Definition task_mid (b : bool) (s : state W) : Prop :=
  signal_ok s /\ (waps_request_queue s <> [] -> b = true \/ scheduled s = true) /\
  (waps_reply_queue s <> [] -> b = true).

Lemma world_tview {A} (m : st W A) : keeps tview (in_world m).
Proof. intros s. unfold in_world. by destruct (m (world s)). Qed.

Lemma free_tview i : keeps tview (Waps_itemFree E i).
Proof. unfold Waps_itemFree. pose proof @world_tview. keep. Qed.

Lemma reserve_tview type : keeps tview (Waps_itemReserve (W := W) type).
Proof. unfold Waps_itemReserve. keep. Qed.

Lemma send_item_tview i : keeps tview (prot_send_item E i).
Proof. unfold prot_send_item, get_item, run_pre_cb, queued_indications, now. pose proof @world_tview. keep. Qed.

Lemma send_indication_tview f : keeps tview (send_indication E f).
Proof.
  unfold send_indication, next_indication, send_current, get_item, queued_indications, Waps_prot_updateIrqPin.
  pose proof send_item_tview. keep.
Qed.

Lemma response_tview i : keeps tview (Waps_protUart_processResponse E i).
Proof.
  unfold Waps_protUart_processResponse, get_item. pose proof free_tview. pose proof send_indication_tview. keep.
Qed.

Lemma process_tview i : keeps tview (process_request E i).
Proof. unfold process_request, get_item. pose proof @world_tview. keep. Qed.

Lemma add_indication_tview r : keeps tview (add_indication (W := W) r).
Proof. unfold add_indication, Waps_prot_updateIrqPin. keep. Qed.

Hint Resolve world_tview free_tview reserve_tview send_item_tview send_indication_tview response_tview
  process_tview add_indication_tview : keeps.

(** The signal and the scheduler's side alone. *)
Definition sview (s : state W) : bool * bool := (m_signal s, scheduled s).

Lemma keeps_sview {A} (m : M A) : keeps tview m -> keeps sview m.
Proof. intros H s. specialize (H s). injection H as _ _ E1 E2. unfold sview. by rewrite E1, E2. Qed.

Lemma handle_sview i : keeps sview (handle_request E i).
Proof.
  unfold handle_request, add_reply, get_item, now.
  pose proof (fun i => keeps_sview _ (response_tview i)).
  pose proof (fun i => keeps_sview _ (process_tview i)). pose proof (fun i => keeps_sview _ (free_tview i)).
  pose proof (fun A m => keeps_sview _ (world_tview (A := A) m)). keep.
Qed.

Lemma sendReply_sview : keeps sview (Waps_protUart_sendReply E).
Proof.
  unfold Waps_protUart_sendReply, next_reply, get_item.
  pose proof (fun i => keeps_sview _ (send_item_tview i)).
  pose proof (fun i => keeps_sview _ (send_indication_tview i)).
  pose proof (fun i => keeps_sview _ (free_tview i)). keep.
Qed.

(** A received frame is dropped or queued with the task scheduled. *)
Lemma receive_shape data s :
  signal_ok s -> let s' := (frame_receive E data s).2 in
  tview s' = tview s \/
  exists i, tview s' = (waps_request_queue s ++ [i], waps_reply_queue s, true, true).
Proof.
  intros H. cut (triple (fun s' => tview s' = tview s) (frame_receive E data) (fun _ s' => tview s' = tview s \/
    exists i, tview s' = (waps_request_queue s ++ [i], waps_reply_queue s, true, true))).
  { intros Ht. by apply Ht. }
  assert (Hk : forall A (m : M A), keeps tview m -> triple (fun s' => tview s' = tview s) m
    (fun _ s' => tview s' = tview s)) by (intros A m Hm s' <-; apply Hm).
  unfold frame_receive. destruct (_ =? _); [|by intros s' ?; left].
  apply triple_skip; [apply Hk; auto with keeps|]. intros [i|]; [|by intros s' ?; left].
  apply triple_skip; [apply Hk; unfold now; auto with keeps|]. intros t.
  apply triple_skip; [by apply Hk|]. intros x. apply triple_skip; [by apply Hk|]. intros _ s' Hs.
  unfold receive_request, wakeup_task. rewrite !bindE. cbn [gets set_request_queue set_task modify fst snd].
  right. exists i. unfold tview in *. cbn [m_signal scheduled waps_request_queue waps_reply_queue].
  injection Hs as -> -> -> ->. unfold signal_ok in H. destruct (m_signal s); [by rewrite H|done].
Qed.

Lemma receive_mid b data : triple (task_mid b) (frame_receive E data) (fun _ => task_mid b).
Proof.
  intros s (H1 & H2 & H3). unfold task_mid, signal_ok.
  destruct (receive_shape data s H1) as [Hs|[i Hs]]; cbn zeta in Hs; injection Hs as -> -> -> ->; auto.
Qed.

Lemma interrupts_mid b l : triple (task_mid b) (interrupts E l) (fun _ => task_mid b).
Proof.
  induction l as [|f l IH]; cbn [interrupts]; [by intros s|].
  apply triple_skip; [apply receive_mid|by intros _].
Qed.

(** [signal_ok] is [task_mid true]. *)
Lemma mid_true s : task_mid true s <-> signal_ok s.
Proof. unfold task_mid. intuition. Qed.

Lemma signal_keeps {A} (m : M A) : keeps sview m -> triple (task_mid true) m (fun _ => task_mid true).
Proof.
  intros Hm s. rewrite !mid_true. specialize (Hm s). unfold sview in Hm. unfold signal_ok.
  injection Hm as E1 E2. by rewrite E1, E2.
Qed.

Lemma exec_task isr : triple task_ok (Waps_exec E isr) (fun _ => task_ok).
Proof.
  unfold Waps_exec, exec_with. apply (triple_bind _ _ (fun _ => task_mid true)).
  { intros s _. apply mid_true. unfold signal_ok. done. }
  intros _. apply triple_skip; [apply interrupts_mid|]. intros _.
  apply triple_skip; [apply signal_keeps; unfold read_request; keep|]. intros item.
  apply triple_skip; [apply interrupts_mid|]. intros _.
  apply triple_skip; [destruct item; [apply signal_keeps, handle_sview|by intros s]|]. intros _.
  apply triple_skip; [apply interrupts_mid|]. intros _.
  apply triple_skip; [apply signal_keeps, sendReply_sview|]. intros _.
  apply triple_skip; [apply interrupts_mid|]. intros _.
  apply (triple_bind _ _ task_mid).
  { intros s Hs. rewrite mid_true in Hs. unfold frames_pending. rewrite !bindE. cbn [gets fst snd mret st_ret].
    split; [done|].
    destruct (waps_request_queue s), (waps_reply_queue s); cbn [length]; split; try done; by left. }
  intros pending. apply triple_skip; [apply interrupts_mid|]. intros _ s (H1 & H2 & H3).
  rewrite !bindE. cbn [gets set_task modify fst snd mret st_ret].
  unfold task_ok, signal_ok in *. cbn [m_signal scheduled waps_request_queue waps_reply_queue].
  split.
  - intros H. by rewrite (H1 H).
  - intros [H|H]; [destruct (H2 H) as [->| ->]; [by rewrite orb_true_r|done]|].
    rewrite (H3 H). by rewrite orb_true_r.
Qed.

Lemma task_keeps {A} (m : M A) s : keeps tview m -> task_ok s -> task_ok (m s).2.
Proof.
  intros Hm. specialize (Hm s). unfold tview in Hm. unfold task_ok, signal_ok.
  injection Hm as E1 E2 E3 E4. by rewrite E1, E2, E3, E4.
Qed.

Lemma update_tview func build : keeps tview (update_indication (W := W) func build).
Proof. unfold update_indication, find_indication, get_item. keep. Qed.

Lemma task_step e s : task_ok s -> task_ok (step E e s).
Proof.
  intros Hs. destruct e; cbn [step].
  - destruct Hs as [H1 H2]. unfold task_ok, signal_ok.
    destruct (receive_shape data s H1) as [Hs|[i Hs]]; cbn zeta in Hs; injection Hs as -> -> -> ->; auto.
  - by apply exec_task.
  - apply task_keeps; [|done]. unfold data_cb, get_item. keep.
  - apply task_keeps; [|done]. unfold Waps_packetSent, get_item. keep.
  - apply task_keeps; [|done]. unfold app_config_received_cb. pose proof update_tview. keep.
  - apply task_keeps; [|done]. unfold on_scanned_nbors_cb. pose proof update_tview. keep.
Qed.

(** A request waits to be served or a reply to be sent. *)
Definition work_waits (s : state W) : Prop := waps_request_queue s <> [] \/ waps_reply_queue s <> [].

(** C18: no request is forgotten: in every state reached from the start, while
    a request waits to be served or a reply to be sent, the scheduler holds the
    task, whenever the frames arrived, be it between any two steps of the task
    or between its last look at the queues and its return. *)
Theorem waps_no_lost_wakeup n s es :
  let s' := run E es (Waps_init E n s).2 in
  work_waits s' -> scheduled s' = true.
Proof.
  cbn zeta.
  assert (H0 : task_ok (Waps_init E n s).2).
  { unfold Waps_init. rewrite !bindE.
    cbn [set_request_queue set_ind_queue set_reply_queue Waps_itemInit modify fst snd].
    set (s1 := mk _ _ _ _ _ _ _ _ _ _ _ _ _ _).
    assert (Ht : forall r, tview (add_indication r (Msap_getStackStatusIndication E s1).2).2 =
      ([], [], m_signal s, scheduled s)).
    { intros r. rewrite add_indication_tview. change ([], [], m_signal s, scheduled s) with (tview s1).
      clearbody s1. revert s1. change (keeps tview (Msap_getStackStatusIndication E)).
      unfold Msap_getStackStatusIndication, get_item. keep. }
    specialize (Ht (Msap_getStackStatusIndication E s1).1). injection Ht as E1 E2 E3 E4.
    cbn [gets set_task modify fst snd]. unfold task_ok, signal_ok.
    cbn [m_signal scheduled waps_request_queue waps_reply_queue]. rewrite E1, E2. split; [done|].
    by intros [[]|[]]. }
  enough (H : task_ok (run E es (Waps_init E n s).2)) by apply H.
  revert H0. generalize (Waps_init E n s).2. induction es as [|e es IH]; intros s' Hs'; [done|].
  cbn. by apply IH, task_step.
Qed.
End Task.

(** ** Requests that are not executed *)

Section Dropped.
Context {W : Type} (E : env W).

Definition is_stale (t : Z) (x : waps_item_t) : bool :=
  WAPS_MAX_REQUEST_QUEUING_TIME_COARSE <? u32 (t - time x).

(** What the world is after the item was freed. *)
Definition freed_world (s : state W) (w : W) : W :=
  if (m_free_waps_items s <=? S (length (free_items s)))%nat then (Shared_Data_readyToReceive E w).2 else w.

(** a request that waited longer than 57 ticks of the clock (450 ms), or
    whose function code no service knows, is not executed: nothing of the
    stack is called but the clock and, when the pool has recovered, the
    resumption of reception; there is no reply, and its item goes back to the
    pool. *)
Theorem waps_request_dropped i s :
  let x := mem s i in
  let f := item_frame x in
  WapsFunc_isResponse (sfunc f) = false ->
  let '(t, w) := getTimestampCoarse (data_lib E) (world s) in
  is_stale t x || negb (WapsFunc_isRequest (sfunc f)) = true ->
  let s' := (handle_request E i s).2 in
  view s' = (i :: free_items s, waps_ind_queue s, waps_reply_queue s, waps_request_queue s,
             prot_reply s, prot_indication s) /\
  prot_seq s' = prot_seq s /\ sent s' = sent s /\ world s' = freed_world s w.
Proof.
  cbn zeta. intros Hr. destruct (getTimestampCoarse _ _) as [t w] eqn:Et. intros Hd.
  assert (Eresp : Waps_protUart_processResponse E i s = (false, s)).
  { unfold Waps_protUart_processResponse. rewrite bindE. cbn [get_item gets fst snd]. by rewrite Hr. }
  assert (Hfree : forall s', view s' = view s -> m_free_waps_items s' = m_free_waps_items s ->
    prot_seq s' = prot_seq s -> sent s' = sent s -> world s' = w ->
    view (Waps_itemFree E i s').2 = (i :: free_items s, waps_ind_queue s, waps_reply_queue s,
      waps_request_queue s, prot_reply s, prot_indication s) /\
    prot_seq (Waps_itemFree E i s').2 = prot_seq s /\ sent (Waps_itemFree E i s').2 = sent s /\
    world (Waps_itemFree E i s').2 = freed_world s w).
  { intros s' [= E1 E2 E3 E4 E5 E6] E7 E8 E9 E10. unfold Waps_itemFree. rewrite !bindE.
    cbn [gets set_free modify fst snd m_free_waps_items]. unfold freed_world. rewrite E7, E1.
    destruct (_ <=? _)%nat; [|unfold view; cbn; by rewrite E2, E3, E4, E5, E6].
    unfold in_world. cbn [world]. rewrite E10. destruct (Shared_Data_readyToReceive E w).
    unfold view. cbn. by rewrite E2, E3, E4, E5, E6. }
  set (s1 := (now E s).2). assert (Hnow : now E s = (t, s1) /\ view s1 = view s /\ mem s1 = mem s /\
    m_free_waps_items s1 = m_free_waps_items s /\ prot_seq s1 = prot_seq s /\ sent s1 = sent s /\ world s1 = w).
  { unfold s1, now, in_world. by rewrite Et. }
  destruct Hnow as (Hn & Hv & Hm & Hthr & Hseq & Hsent & Hw).
  assert (Hh : exists s', handle_request E i s = Waps_itemFree E i s' /\ view s' = view s /\
    m_free_waps_items s' = m_free_waps_items s /\ prot_seq s' = prot_seq s /\ sent s' = sent s /\ world s' = w).
  { unfold handle_request. rewrite bindE, Eresp. cbn [fst snd]. rewrite bindE, bindE, Hn. cbn [fst snd].
    rewrite bindE. cbn [get_item gets fst snd]. rewrite Hm. unfold is_stale in Hd.
    destruct (_ <? _); cbn [orb] in Hd; [by exists s1|].
    apply negb_true_iff in Hd. unfold WapsFunc_isRequest in Hd.
    apply orb_false_iff in Hd as [[Hd1 Hd2]%orb_false_iff Hd3].
    unfold process_request. rewrite bindE. cbn [get_item gets fst snd]. rewrite Hm, Hd1, Hd2, Hd3.
    rewrite bindE. cbn [mret st_ret fst snd]. rewrite bindE. cbn [mret st_ret fst snd].
    eexists. split; [reflexivity|]. done. }
  destruct Hh as (s' & -> & ? & ? & ? & ? & ?). by apply Hfree.
Qed.

End Dropped.

(** ** A concrete environment

    The stack of [Dsap], a management service that answers polls only, and a
    serial line that accepts every frame or none. *)

Definition demo_waps (line : bool) : env demo_world :=
  {| data_lib := demo_env; lock_lib := unlocked;
     Msap_handleFrame x := mret (pollRequest x);
     Csap_handleFrame x := mret (false, x);
     Waps_hw_write _ := mret line;
     reboot := mret tt;
     Shared_Data_readyToReceive := mret tt;
     getNodeAddress := mret (0, 0x11);
     readAppConfig := mret (1, repeat 0 80, 30);
     getStackStatus := mret 0 |}.

#[export] Instance demo_waps_ok line : EnvOk (demo_waps line).
Proof.
  constructor.
  - intros x w Hx. cbn. unfold pollRequest. destruct (negb _); [done|].
    apply sized_cbs, sized_init; [apply Hx|lia].
  - by intros x w Hx.
  - intros w. by apply bytes_repeat.
Qed.

Definition before_start : state demo_world :=
  mk (fun _ => blank) [] [] [] [] 0 None None 5 false false false [] [].

Lemma before_start_fresh : fresh before_start.
Proof. split_and!; try done. intros i. split; [apply blank_wf|]. by vm_compute. Qed.

(** A poll, the task, the response to the indication, the task. *)
Definition poll : list Z := [0x04; 1; 0].
Definition response : list Z := [0x87; 5; 1; 0].
Definition no_isr : nat -> list (list Z) := fun _ => [].
Definition scenario : list event := [Receive poll; Exec no_isr; Receive response; Exec no_isr].

Lemma frame_ok_check data : bool_decide (bytes data) && (3 <=? length data)%nat && (length data <=? 126)%nat = true ->
  frame_ok data.
Proof. rewrite !andb_true_iff. intros ((H1%bool_decide_eq_true & H2%Nat.leb_le) & H3%Nat.leb_le). done. Qed.

Lemma scenario_ok : Forall event_ok scenario.
Proof.
  unfold scenario. repeat (apply Forall_cons; split); [| | | |apply Forall_nil_2]; cbn [event_ok].
  - apply frame_ok_check. by vm_compute.
  - intros k. apply Forall_nil_2.
  - apply frame_ok_check. by vm_compute.
  - intros k. apply Forall_nil_2.
Qed.

Lemma waps_items_conserved_witness :
  places (run (demo_waps true) scenario (Waps_init (demo_waps true) 6 before_start).2) ≡ₚ seq 0 6.
Proof.
  refine (proj1 (waps_items_conserved (demo_waps true) 6 before_start scenario before_start_fresh _ scenario_ok)).
  unfold WAPS_RESERVED_ITEMS. lia.
Defined.

(** The confirmation of the poll and the indication are on the line. *)
Lemma waps_sent_frames_legal_witness :
  line_frame [0x84; 1; 1; 1] /\
  (sent (run (demo_waps true) scenario (Waps_init (demo_waps true) 6 before_start).2)).*1 =
    [[0x84; 1; 1; 1]; [0x07; 5; 2; 0; 0]].
Proof.
  assert (Hs : (sent (run (demo_waps true) scenario (Waps_init (demo_waps true) 6 before_start).2)).*1 =
    [[0x84; 1; 1; 1]; [0x07; 5; 2; 0; 0]]) by (by vm_compute).
  split; [|exact Hs].
  pose proof (waps_sent_frames_legal (demo_waps true) 6 before_start scenario before_start_fresh
    ltac:(unfold WAPS_RESERVED_ITEMS; lia) scenario_ok) as H.
  apply Forall_fmap in H. rewrite Hs in H. by apply Forall_cons in H as [H _].
Defined.

Lemma waps_irq_pin_witness :
  irq (run (demo_waps true) [Receive poll] (Waps_init (demo_waps true) 6 before_start).2) = true.
Proof.
  etransitivity; [exact (waps_irq_pin (demo_waps true) 6 before_start [Receive poll] before_start_fresh)|].
  by vm_compute.
Defined.


Lemma waps_no_lost_wakeup_witness :
  scheduled (run (demo_waps true) [Exec (fun k => if (k =? 4)%nat then [poll] else [])]
    (Waps_init (demo_waps true) 6 before_start).2) = true.
Proof.
  apply waps_no_lost_wakeup. left. by vm_compute.
Defined.

Lemma waps_request_dropped_witness :
  let s := (frame_receive (demo_waps true) [0x7E; 1; 0] (Waps_init (demo_waps true) 6 before_start).2).2 in
  sent (handle_request (demo_waps true) 4 s).2 = [].
Proof.
  intros s. pose proof (waps_request_dropped (demo_waps true) 4%nat s ltac:(by vm_compute)) as H.
  cbn [getTimestampCoarse data_lib demo_waps demo_env] in H.
  apply H. by vm_compute.
Defined.

(** A reply whose write fails stays behind: the queues are empty, the task is
    not scheduled again, and the reply waits for the next request. *)
Lemma failed_reply_waits :
  let s := run (demo_waps false) [Receive poll; Exec no_isr] (Waps_init (demo_waps false) 6 before_start).2 in
  prot_reply s <> None /\ scheduled s = false.
Proof. by vm_compute. Qed.

(** The device's own answer to a sleep state request counts as a response of
    the host: when it says "active" (1), an indication follows that was not
    polled. *)
Lemma sleep_reply_pushes_indication f :
  sfunc f = 0xC2 -> pld 0 1 f = 1 -> allows_indication f = true.
Proof. intros Hf Hp. unfold allows_indication. by rewrite Hf, Hp. Qed.
