(* ===== verification/Msap.v ===== *)
(** * The management service

    [waps/sap/msap.c] with the structures of [waps/sap/msap_frames.h]: every
    request of the service.  The indications it builds are in [Waps].

    The stack's libraries are a record of functions over a world [W]; a
    function that fills a variable gets its old content.  The theorems are in
    [MsapProofs]. *)

From S2P Require Import Prelude Api WapsUart WapsFrames WapsServices Dsap Waps.
Import LockBits.

(** ** Codes *)

Definition MSAP_MAX_NBORS : nat := 8.
Definition MSAP_AUTOSTART : Z := 1.

Definition MSAP_ATTR_STACK_STATUS : Z := 1.
Definition MSAP_ATTR_PDU_BUFF_USAGE : Z := 2.
Definition MSAP_ATTR_PDU_BUFF_CAPA : Z := 3.
Definition MSAP_ATTR_NBOR_COUNT : Z := 4.
Definition MSAP_ATTR_AUTOSTART : Z := 6.
Definition MSAP_ATTR_ROUTE_COUNT : Z := 7.
Definition MSAP_ATTR_SYSTEM_TIME : Z := 8.
Definition MSAP_ATTR_AC_RANGE : Z := 9.
Definition MSAP_ATTR_AC_LIMITS : Z := 10.
Definition MSAP_ATTR_CURRENT_AC : Z := 11.
Definition MSAP_ATTR_SCRATCHPAD_BLOCK_MAX : Z := 12.
Definition MSAP_ATTR_MCAST_GROUPS : Z := 13.
Definition MSAP_ATTR_SCRATCHPAD_NUM_BYTES : Z := 14.

Definition m_attr_size_lut : list Z := [1; 1; 1; 1; 1; 1; 1; 4; 4; 4; 2; 1; 40; 4].

(** [app_stack_state_flags_e], [app_stack_stop_res_e], [app_state_sink_cost_e],
    [app_config_read_res_e] and [app_config_write_res_e] *)
Definition APP_STACK_STARTED : Z := 0.
Definition APP_STACK_ACCESS_DENIED : Z := 128.
Definition APP_STACK_STOP_RET_OK : Z := 0.
Definition APP_STACK_STOP_RET_ACCESS_DENIED : Z := 128.
Definition APP_STATE_SINK_COST_OK : Z := 0.
Definition APP_STATE_SINK_COST_INVALID_ROLE : Z := 1.
Definition APP_STATE_SINK_COST_ACCESS_DENIED : Z := 2.
Definition APP_CONFIG_READ_RET_SUCCESS : Z := 0.
Definition APP_CONFIG_READ_RET_FAILURE : Z := 1.
Definition APP_CONFIG_READ_RET_ACCESS_DENIED : Z := 2.
Definition APP_CONFIG_WRITE_RET_SUCCESS : Z := 0.
Definition APP_CONFIG_WRITE_RET_FAILURE_NOT_SINK : Z := 1.
Definition APP_CONFIG_WRITE_RET_FAILURE_INVALID_INTERVAL : Z := 2.
Definition APP_CONFIG_WRITE_RET_FAILURE_INVALID_SEQ : Z := 3.
Definition APP_CONFIG_WRITE_RET_ACCESS_DENIED : Z := 4.

(** Results of the requests in [msap_frames.h] *)
Definition MSAP_SCRATCHPAD_CLEAR_SUCCESS : Z := 0.
Definition MSAP_SCRATCHPAD_CLEAR_INVALID_STATE : Z := 1.
Definition MSAP_SCRATCHPAD_CLEAR_ACCESS_DENIED : Z := 2.
Definition MSAP_SCRATCHPAD_START_SUCCESS : Z := 0.
Definition MSAP_SCRATCHPAD_START_INVALID_STATE : Z := 1.
Definition MSAP_SCRATCHPAD_START_INVALID_NUM_BYTES : Z := 2.
Definition MSAP_SCRATCHPAD_START_ACCESS_DENIED : Z := 4.
Definition MSAP_SCRATCHPAD_BLOCK_MAX_NUM_BYTES : Z := 112.
Definition MSAP_SCRATCHPAD_BLOCK_SUCCESS : Z := 0.
Definition MSAP_SCRATCHPAD_BLOCK_COMPLETED_OK : Z := 1.
Definition MSAP_SCRATCHPAD_BLOCK_COMPLETED_ERROR : Z := 2.
Definition MSAP_SCRATCHPAD_BLOCK_INVALID_STATE : Z := 3.
Definition MSAP_SCRATCHPAD_BLOCK_NOT_ONGOING : Z := 4.
Definition MSAP_SCRATCHPAD_BLOCK_INVALID_START_ADDR : Z := 5.
Definition MSAP_SCRATCHPAD_BLOCK_INVALID_NUM_BYTES : Z := 6.
Definition MSAP_SCRATCHPAD_BLOCK_INVALID_DATA : Z := 7.
Definition MSAP_SCRATCHPAD_BOOTABLE_SUCCESS : Z := 0.
Definition MSAP_SCRATCHPAD_BOOTABLE_INVALID_STATE : Z := 1.
Definition MSAP_SCRATCHPAD_BOOTABLE_NO_SCRATCHPAD : Z := 2.
Definition MSAP_SCRATCHPAD_BOOTABLE_ACCESS_DENIED : Z := 3.
Definition MSAP_REMOTE_STATUS_ACCESS_DENIED : Z := 4.
Definition MSAP_REMOTE_UPDATE_ACCESS_DENIED : Z := 6.
Definition MSAP_SCAN_NBORS_SUCCESS : Z := 0.
Definition MSAP_SCAN_NBORS_INVALID_STATE : Z := 1.
Definition MSAP_SCAN_NBORS_ACCESS_DENIED : Z := 2.
Definition MSAP_NRLS_SLEEP_ACTIVE : Z := 1.
Definition MSAP_NRLS_SLEEP_NOT_STARTED : Z := 2.
Definition NEIGHBOR_IS_MEMBER : Z := 1.
Definition NEIGHBOR_IS_CLUSTER : Z := 2.
Definition MSAP_SLEEP_SUCCESS : Z := 0.
Definition MSAP_SLEEP_INVALID_STATE : Z := 1.
Definition MSAP_SLEEP_INVALID_ROLE : Z := 2.
Definition MSAP_SLEEP_INVALID_VALUE : Z := 5.
Definition MSAP_SLEEP_ACCESS_DENIED : Z := 6.
Definition MSAP_SCRATCHPAD_TARGET_SUCCESS : Z := 0.
Definition MSAP_SCRATCHPAD_TARGET_INVALID_ROLE : Z := 1.
Definition MSAP_SCRATCHPAD_TARGET_INVALID_VALUE : Z := 2.
Definition MSAP_SCRATCHPAD_TARGET_ACCESS_DENIED : Z := 3.
Definition MSAP_SCRATCHPAD_BLOCK_READ_MAX_NUM_BYTES : Z := MSAP_SCRATCHPAD_BLOCK_MAX_NUM_BYTES.
Definition MSAP_SCRATCHPAD_BLOCK_READ_SUCCESS : Z := 0.
Definition MSAP_SCRATCHPAD_BLOCK_READ_INVALID_STATE : Z := 1.
Definition MSAP_SCRATCHPAD_BLOCK_READ_INVALID_START_ADDR : Z := 2.
Definition MSAP_SCRATCHPAD_BLOCK_READ_INVALID_NUM_BYTES : Z := 3.
Definition MSAP_SCRATCHPAD_BLOCK_READ_NO_SCRATCHPAD : Z := 4.
Definition MSAP_SCRATCHPAD_BLOCK_READ_ACCESS_DENIED : Z := 5.

(** [SHARED_APP_CONFIG_RES_OK] and [SHARED_APP_CONFIG_RES_INVALID_ROLE] *)
Definition SHARED_APP_CONFIG_RES_OK : Z := 0.
Definition SHARED_APP_CONFIG_RES_INVALID_ROLE : Z := 5.

(** [sizeof] of the packed structures; the enumerations of the interface take
    one byte. *)
Definition START_REQ_SIZE : Z := 1.
Definition NEIGHBOR_ENTRY_SIZE : nat := 13.
Definition INT_WRITE_REQ_SIZE : Z := 83.
Definition INT_READ_CNF_SIZE : Z := 84.
Definition SINK_COST_WRITE_REQ_SIZE : Z := 1.
Definition SINK_COST_READ_CNF_SIZE : Z := 2.
Definition NEIGHBORS_CNF_SIZE : Z := 105.
Definition INSTALL_QUALITY_CNF_SIZE : Z := 3.
Definition SCRATCHPAD_START_REQ_SIZE : Z := 5.
Definition FRAME_MSAP_SCRATCHPAD_BLOCK_REQ_HEADER_SIZE : Z := 5.
Definition SCRATCHPAD_STATUS_CNF_SIZE : Z := 24.
Definition SCRATCHPAD_TARGET_WRITE_REQ_SIZE : Z := 5.
Definition SCRATCHPAD_TARGET_READ_CNF_SIZE : Z := 6.
Definition SCRATCHPAD_BLOCK_READ_REQ_SIZE : Z := 5.
Definition FRAME_MSAP_SCRATCHPAD_BLOCK_READ_CNF_HEADER_SIZE : Z := 1.
Definition REMOTE_STATUS_REQ_SIZE : Z := 4.
Definition REMOTE_UPDATE_REQ_SIZE : Z := 7.
Definition SLEEP_STATE_RSP_SIZE : Z := 5.
Definition SLEEP_LATEST_GOTOSLEEP_RSP_SIZE : Z := 4.
Definition MAX_MSG_QUEUING_TIME_REQ_SIZE : Z := 3.
Definition PRIORITY_SIZE : Z := 1.
Definition MAX_MSG_QUEUING_TIME_READ_CNF_SIZE : Z := 3.

Definition CMAC_OMAC1_TAG_OFFSET : Z := 32.
Definition CMAC_OMAC1_TAG_NUM_BYTES : nat := 16.

(** ** Conversions of result codes *)

Definition ReadLibAppCfg2appCfg (result : Z) : Z :=
  if result =? APP_LIB_DATA_APP_CONFIG_RES_SUCCESS then APP_CONFIG_READ_RET_SUCCESS
  else if result =? APP_LIB_DATA_APP_CONFIG_RES_INVALID_APP_CONFIG then APP_CONFIG_READ_RET_FAILURE
  else APP_CONFIG_READ_RET_ACCESS_DENIED.

Definition WriteLibAppCfg2appCfg (result : Z) : Z :=
  if result =? APP_LIB_DATA_APP_CONFIG_RES_SUCCESS then APP_CONFIG_WRITE_RET_SUCCESS
  else if result =? APP_LIB_DATA_APP_CONFIG_RES_INVALID_ROLE then APP_CONFIG_WRITE_RET_FAILURE_NOT_SINK
  else if result =? APP_LIB_DATA_APP_CONFIG_RES_INVALID_INTERVAL
  then APP_CONFIG_WRITE_RET_FAILURE_INVALID_INTERVAL
  else if result =? APP_LIB_DATA_APP_CONFIG_RES_INVALID_SEQ then APP_CONFIG_WRITE_RET_FAILURE_INVALID_SEQ
  else APP_CONFIG_WRITE_RET_ACCESS_DENIED.

Definition appRes2attrRes (result : Z) : Z :=
  if result =? APP_RES_OK then ATTR_SUCCESS
  else if result =? APP_RES_UNSPECIFIED_ERROR then ATTR_UNSUPPORTED_ATTRIBUTE
  else if result =? APP_RES_INVALID_VALUE then ATTR_INV_VALUE
  else if result =? APP_RES_INVALID_CONFIGURATION then ATTR_INV_VALUE
  else if result =? APP_RES_INVALID_STACK_STATE then ATTR_INVALID_STACK_STATE
  else if result =? APP_RES_ACCESS_DENIED then ATTR_ACCESS_DENIED
  else ATTR_UNSUPPORTED_ATTRIBUTE.

Definition appRes2appSinkCost (result : Z) : Z :=
  if result =? APP_RES_OK then APP_STATE_SINK_COST_OK
  else if result =? APP_RES_INVALID_CONFIGURATION then APP_STATE_SINK_COST_INVALID_ROLE
  else APP_STATE_SINK_COST_ACCESS_DENIED.

(** ** The stack *)

Record stack (W : Type) := {
  stack_locks : locks W;
  stack_storage : Persistent.lib_storage W;
  DS_Enable : st W unit;
  Stack_State_startStack : st W Z;
  getStackState : st W Z;
  getNumBuffers : st W Z;
  getNumFreeBuffers : Z -> st W (Z * Z);
  getRouteInfo : Z -> st W (Z * Z);
  getAcRange : Z * Z -> st W (Z * (Z * Z));
  setAcRange : Z -> Z -> st W Z;
  getAcRangeLimits : Z * Z -> st W (Z * (Z * Z));
  getAccessCycle : Z -> st W (Z * Z);
  readAppConfig : list Z * Z * Z -> st W (Z * (list Z * Z * Z));
  writeDiagnosticInterval : Z -> st W Z;
  Shared_Appconfig_setAppConfig : list Z -> st W Z;
  setSinkCost : Z -> st W Z;
  getSinkCost : Z -> st W (Z * Z);
  getNbors : nat -> st W (Z * list app_lib_state_nbor_info_t);
  startScanNbors : st W Z;
  getInstallQual : Z * Z -> st W (Z * (Z * Z));
  setMaxMsgQueuingTime : Z -> Z -> st W Z;
  getMaxMsgQueuingTime : Z -> Z -> st W (Z * Z);
  otap_clear : st W unit;
  otap_begin : Z -> Z -> st W Z;
  otap_write : Z -> Z -> list Z -> st W Z;
  otap_read : Z -> Z -> list Z -> st W (Z * list Z);
  otap_getNumBytes : st W Z;
  otap_getCrc : st W Z;
  otap_getSeq : st W Z;
  otap_getType : st W Z;
  otap_getStatus : st W Z;
  getProcessedNumBytes : st W Z;
  getProcessedCrc : st W Z;
  getProcessedSeq : st W Z;
  getProcessedAreaId : st W Z;
  setToBeProcessed : st W Z;
  setTargetScratchpadAndAction : Z -> Z -> Z -> Z -> st W Z;
  getTargetScratchpadAndAction : st W (Z * (Z * Z * Z * Z));
  getStackFirmwareVersion : st W (Z * Z * Z * Z);
  sleepStackforTime : Z -> Z -> st W Z;
  wakeupStack : st W Z;
  getSleepState : st W bool;
  getStackWakeup : st W Z;
  getSleepLatestGotosleep : st W Z }.

Arguments stack_locks {W}. Arguments stack_storage {W}. Arguments DS_Enable {W}.
Arguments Stack_State_startStack {W}. Arguments getStackState {W}. Arguments getNumBuffers {W}.
Arguments getNumFreeBuffers {W}. Arguments getRouteInfo {W}. Arguments getAcRange {W}.
Arguments setAcRange {W}. Arguments getAcRangeLimits {W}. Arguments getAccessCycle {W}.
Arguments readAppConfig {W}. Arguments writeDiagnosticInterval {W}.
Arguments Shared_Appconfig_setAppConfig {W}. Arguments setSinkCost {W}. Arguments getSinkCost {W}.
Arguments getNbors {W}. Arguments startScanNbors {W}. Arguments getInstallQual {W}.
Arguments setMaxMsgQueuingTime {W}. Arguments getMaxMsgQueuingTime {W}. Arguments otap_clear {W}.
Arguments otap_begin {W}. Arguments otap_write {W}. Arguments otap_read {W}.
Arguments otap_getNumBytes {W}. Arguments otap_getCrc {W}. Arguments otap_getSeq {W}.
Arguments otap_getType {W}. Arguments otap_getStatus {W}. Arguments getProcessedNumBytes {W}.
Arguments getProcessedCrc {W}. Arguments getProcessedSeq {W}. Arguments getProcessedAreaId {W}.
Arguments setToBeProcessed {W}. Arguments setTargetScratchpadAndAction {W}.
Arguments getTargetScratchpadAndAction {W}. Arguments getStackFirmwareVersion {W}.
Arguments sleepStackforTime {W}. Arguments wakeupStack {W}. Arguments getSleepState {W}.
Arguments getStackWakeup {W}. Arguments getSleepLatestGotosleep {W}.

(** The static variables of [allowScratchpadRead]. *)
Record checked_t := {
  checked_num_bytes : Z;
  checked_otap_seq : Z;
  checked_crc : Z;
  checked_otap_type : Z;
  checked_otap_status : Z;
  checked_result : bool }.

Definition never_checked : checked_t :=
  {| checked_num_bytes := u32 (-1); checked_otap_seq := 0; checked_crc := 0; checked_otap_type := 0;
     checked_otap_status := 0; checked_result := false |}.

Record state (W : Type) := { persistent : Persistent.state W; checked : checked_t }.
Arguments persistent {W}. Arguments checked {W}. Arguments Build_state {W}.

Definition world {W} (s : state W) : W := Persistent.world (persistent s).

Section Msap.

(** [tmp0] is the content of an uninitialised variable and [allow_read] the
    build option [ALLOW_SCRATCHPAD_READ]. *)
Context {W : Type} (lib : stack W) (tmp0 : Z) (allow_read : bool).

Abbreviation M := (st (state W)).

Definition in_persistent {A} (m : st (Persistent.state W) A) : M A :=
  zoom persistent (fun p s => Build_state p (checked s)) m.

Definition in_world {A} (m : st W A) : M A :=
  in_persistent (zoom Persistent.world
    (fun w p => Persistent.Build_state (Persistent.m_persistent_image p) w) m).

Definition set_checked (c : checked_t) : M unit := modify (fun s => Build_state (persistent s) c).

Definition isFeaturePermitted (bits : Z) : M bool :=
  in_world (LockBits_isFeaturePermitted (stack_locks lib) bits).

(** [Waps_item_init] for a [simple_cnf_t] with its result. *)
Definition simple_cnf (func result : Z) (item : waps_item_t) : waps_item_t :=
  on_frame (set_pld 0 1 result) (Waps_item_init func SIMPLE_CNF_SIZE item).

(** ** Stack control *)

Definition start_state : M Z :=
  r ← in_world (Stack_State_startStack lib);
  if r =? APP_RES_OK then _ ← in_world (DS_Enable lib); mret APP_STACK_STARTED
  else s ← in_world (getStackState lib); mret (appLibState2SappStackState s).

Definition stackStart (item : waps_item_t) : M (bool * waps_item_t) :=
  if negb (splen (item_frame item) =? START_REQ_SIZE) then mret (false, item)
  else
    ok ← isFeaturePermitted LOCK_BITS_MSAP_STACK_START;
    if negb ok then mret (true, simple_cnf WAPS_FUNC_MSAP_STACK_START_CNF APP_STACK_ACCESS_DENIED item)
    else
      r ← in_persistent (Persistent.Persistent_setAutostart (stack_storage lib)
            (negb (pld 0 1 (item_frame item) =? 0)));
      if negb (r =? APP_RES_OK) then mret (false, item)
      else state ← start_state; mret (true, simple_cnf WAPS_FUNC_MSAP_STACK_START_CNF state item).

Definition stackStop (item : waps_item_t) : M (bool * waps_item_t) :=
  if negb (splen (item_frame item) =? 0) then mret (false, item)
  else
    ok ← isFeaturePermitted LOCK_BITS_MSAP_STACK_STOP;
    if negb ok
    then mret (true, simple_cnf WAPS_FUNC_MSAP_STACK_STOP_CNF APP_STACK_STOP_RET_ACCESS_DENIED item)
    else
      r ← in_persistent (Persistent.Persistent_setAutostart (stack_storage lib) false);
      if negb (r =? APP_RES_OK) then mret (false, item)
      else mret (true, with_cbs None (Some reboot_callback)
                         (simple_cnf WAPS_FUNC_MSAP_STACK_STOP_CNF APP_STACK_STOP_RET_OK item)).

(** ** Attributes *)

Definition ac_word (r : Z * Z) : Z := u32 (Z.land r.1 0xffff + Z.shiftl r.2 16).

Definition route_count : M (Z * Z) :=
  s ← in_world (getStackState lib);
  if negb (s =? APP_LIB_STATE_STARTED) then mret (APP_RES_INVALID_STACK_STATE, 0)
  else
    r ← in_world (getRouteInfo lib tmp0);
    mret (r.1, if (r.1 =? APP_RES_OK) && (r.2 =? APP_LIB_STATE_ROUTE_STATE_VALID) then 1 else 0).

(** The switch of [readAttr] for the attributes that go through [tmp]. *)
Definition read_tmp (attr_id : Z) : M (Z * Z) :=
  if attr_id =? MSAP_ATTR_STACK_STATUS then
    s ← in_world (getStackState lib); mret (APP_RES_OK, appLibState2SappStackState s)
  else if attr_id =? MSAP_ATTR_PDU_BUFF_USAGE then
    r ← in_world (getNumFreeBuffers lib 0);
    n ← in_world (getNumBuffers lib);
    mret (r.1, u32 (n - r.2))
  else if attr_id =? MSAP_ATTR_PDU_BUFF_CAPA then in_world (getNumFreeBuffers lib tmp0)
  else if attr_id =? MSAP_ATTR_NBOR_COUNT then mret (APP_RES_NOT_IMPLEMENTED, tmp0)
  else if attr_id =? MSAP_ATTR_AUTOSTART then
    r ← in_world (Persistent.readPersistent (stack_storage lib) (le_put 4 tmp0) 4);
    mret (APP_RES_OK, Z.land (le_get r.2) MSAP_AUTOSTART)
  else if attr_id =? MSAP_ATTR_ROUTE_COUNT then route_count
  else if attr_id =? MSAP_ATTR_SYSTEM_TIME then mret (APP_RES_OK, 0)
  else if attr_id =? MSAP_ATTR_AC_RANGE then
    r ← in_world (getAcRange lib (0, 0)); mret (r.1, ac_word r.2)
  else if attr_id =? MSAP_ATTR_AC_LIMITS then
    r ← in_world (getAcRangeLimits lib (0, 0)); mret (r.1, ac_word r.2)
  else if attr_id =? MSAP_ATTR_CURRENT_AC then in_world (getAccessCycle lib tmp0)
  else if attr_id =? MSAP_ATTR_SCRATCHPAD_BLOCK_MAX then
    mret (APP_RES_OK, MSAP_SCRATCHPAD_BLOCK_MAX_NUM_BYTES)
  else if attr_id =? MSAP_ATTR_SCRATCHPAD_NUM_BYTES then
    n ← in_world (otap_getNumBytes lib);
    mret (if n =? 0 then APP_RES_INVALID_CONFIGURATION else APP_RES_OK, n)
  else mret (APP_RES_NOT_IMPLEMENTED, tmp0).

(** [readAttr]: the result and the frame with the value at [read_cnf.attr]. *)
Definition readAttr (attr_id : Z) (f : frame) (attr_size : Z) : M (Z * frame) :=
  if attr_id =? MSAP_ATTR_MCAST_GROUPS then
    r ← in_persistent (Multicast.Multicast_getGroups (stack_storage lib)
          (pld_bytes 4 (MULTICAST_ADDRESS_AMOUNT * 4) f));
    mret (appRes2attrRes r.1, set_pld_bytes 4 r.2 f)
  else
    r ← read_tmp attr_id;
    mret (appRes2attrRes r.1,
          if (r.1 =? APP_RES_OK) && (attr_size <=? 4)
          then set_pld_bytes 4 (le_put (Z.to_nat attr_size) r.2) f else f).

Definition read_response (attr_id result attr_size : Z) (item : waps_item_t) : waps_item_t :=
  let item := Waps_item_init WAPS_FUNC_MSAP_ATTR_READ_CNF FRAME_READ_CNF_HEADER_SIZE item in
  let item :=
    if result =? ATTR_SUCCESS then
      let item := on_frame (fun f => set_pld 3 1 attr_size (set_splen (splen f + attr_size) f)) item in
      if attr_id =? MSAP_ATTR_SYSTEM_TIME then with_cbs (Some updateTime) None item else item
    else on_frame (set_pld 3 1 0) item in
  on_frame (fun f => set_pld 1 2 attr_id (set_pld 0 1 result f)) item.

Definition read_permission (attr_id : Z) : Z :=
  if (attr_id =? MSAP_ATTR_SCRATCHPAD_BLOCK_MAX) || (attr_id =? MSAP_ATTR_SCRATCHPAD_NUM_BYTES)
  then LOCK_BITS_MSAP_SCRATCHPAD_STATUS
  else if (attr_id =? MSAP_ATTR_NBOR_COUNT) || (attr_id =? MSAP_ATTR_ROUTE_COUNT)
  then LOCK_BITS_MSAP_GET_NBORS
  else LOCK_BITS_MSAP_ATTR_READ.

Definition attrReadReq (item : waps_item_t) : M (bool * waps_item_t) :=
  let attr_id := pld 0 2 (item_frame item) in
  let idx := u32 (attr_id - 1) in
  if negb (splen (item_frame item) =? READ_REQ_SIZE) then mret (false, item)
  else if Z.of_nat (length m_attr_size_lut) <=? idx
  then mret (true, read_response attr_id ATTR_UNSUPPORTED_ATTRIBUTE 0 item)
  else
    ok ← isFeaturePermitted (read_permission attr_id);
    if negb ok then mret (true, read_response attr_id ATTR_ACCESS_DENIED 0 item)
    else
      let attr_size := nth (Z.to_nat idx) m_attr_size_lut 0 in
      r ← readAttr attr_id (item_frame item) attr_size;
      mret (true, read_response attr_id r.1 attr_size (with_frame r.2 item)).

Definition writeAttr (attr_id : Z) (value : list Z) (attr_size : Z) : M Z :=
  let tmp := if attr_size <=? 4 then le_get (take (Z.to_nat attr_size) value) else 0 in
  result ← (if attr_id =? MSAP_ATTR_AUTOSTART then
              if 1 <? tmp then mret APP_RES_INVALID_VALUE
              else in_persistent (Persistent.Persistent_setAutostart (stack_storage lib)
                     (negb (tmp =? 0)))
            else if attr_id =? MSAP_ATTR_AC_RANGE then
              in_world (setAcRange lib (Z.land tmp 0xffff) (Z.land (Z.shiftr tmp 16) 0xffff))
            else if attr_id =? MSAP_ATTR_MCAST_GROUPS then
              in_persistent (Multicast.Multicast_setGroups (stack_storage lib)
                (take (MULTICAST_ADDRESS_AMOUNT * 4) value))
            else mret APP_RES_NOT_IMPLEMENTED);
  mret (appRes2attrRes result).

Definition attrWriteReq (item : waps_item_t) : M (bool * waps_item_t) :=
  let f := item_frame item in
  let attr_id := pld 0 2 f in
  let attr_len := pld 2 1 f in
  let idx := u32 (attr_id - 1) in
  let cnf result := mret (true, simple_cnf WAPS_FUNC_MSAP_ATTR_WRITE_CNF result item) in
  if negb (splen f =? FRAME_WRITE_REQ_HEADER_SIZE + attr_len) then mret (false, item)
  else if Z.of_nat (length m_attr_size_lut) <=? idx then cnf ATTR_UNSUPPORTED_ATTRIBUTE
  else
    ok ← isFeaturePermitted LOCK_BITS_MSAP_ATTR_WRITE;
    if negb ok then cnf ATTR_ACCESS_DENIED
    else
      let attr_size := nth (Z.to_nat idx) m_attr_size_lut 0 in
      if negb (attr_size =? attr_len) then cnf ATTR_INV_LENGTH
      else result ← writeAttr attr_id (drop (HEADER + 3) f) attr_size; cnf result.

(** ** Application configuration *)

Definition set_config (config : list Z) : M Z :=
  r ← in_world (Shared_Appconfig_setAppConfig lib config);
  mret (if r =? SHARED_APP_CONFIG_RES_OK then APP_CONFIG_WRITE_RET_SUCCESS
        else if r =? SHARED_APP_CONFIG_RES_INVALID_ROLE then APP_CONFIG_WRITE_RET_FAILURE_NOT_SINK
        else APP_CONFIG_WRITE_RET_ACCESS_DENIED).

(** [stack0] is the content of the uninitialised local variables. *)
Definition write_config (f : frame) (stack0 : list Z * Z * Z) : M Z :=
  let interval := pld 1 2 f in
  let config := pld_bytes 3 APP_CONF_MAX f in
  cur ← in_world (readAppConfig lib stack0);
  let read := cur.1 =? APP_LIB_DATA_APP_CONFIG_RES_SUCCESS in
  result ← (if read && (cur.2.2 =? interval) then mret APP_CONFIG_WRITE_RET_SUCCESS
            else r ← in_world (writeDiagnosticInterval lib interval); mret (WriteLibAppCfg2appCfg r));
  if result =? APP_CONFIG_WRITE_RET_SUCCESS then
    if read && bool_decide (take APP_LIB_DATA_MAX_APP_CONFIG_NUM_BYTES cur.2.1.1 = config)
    then mret APP_CONFIG_WRITE_RET_SUCCESS
    else set_config config
  else mret result.

Definition writeInterest (item : waps_item_t) : M (bool * waps_item_t) :=
  if negb (splen (item_frame item) =? INT_WRITE_REQ_SIZE) then mret (false, item)
  else
    ok ← isFeaturePermitted LOCK_BITS_MSAP_APP_CONFIG_WRITE;
    result ← (if negb ok then mret APP_CONFIG_WRITE_RET_ACCESS_DENIED
              else write_config (item_frame item) ([], tmp0, tmp0));
    mret (true, simple_cnf WAPS_FUNC_MSAP_APP_CONFIG_WRITE_CNF result item).

(** The configuration is read directly into the confirmation. *)
Definition read_config (f : frame) : M (Z * (list Z * Z * Z)) :=
  in_world (readAppConfig lib (pld_bytes 4 APP_CONF_MAX f, 0, 0)).

Definition readInterest (item : waps_item_t) : M (bool * waps_item_t) :=
  let f := item_frame item in
  if negb (splen f =? 0) then mret (false, item)
  else
    ok ← isFeaturePermitted LOCK_BITS_MSAP_APP_CONFIG_READ;
    r ← (if negb ok
         then mret (APP_LIB_DATA_APP_CONFIG_RES_INVALID_NULL_POINTER, (pld_bytes 4 APP_CONF_MAX f, 0, 0))
         else read_config f);
    let item := on_frame (set_pld_bytes 4 (take APP_CONF_MAX r.2.1.1)) item in
    let item := Waps_item_init WAPS_FUNC_MSAP_APP_CONFIG_READ_CNF INT_READ_CNF_SIZE item in
    mret (true, on_frame (fun f => set_pld 0 1 (ReadLibAppCfg2appCfg r.1)
                  (set_pld 1 1 r.2.1.2 (set_pld 2 2 r.2.2 f))) item).

(** ** Sink cost *)

Definition writeSinkCost (item : waps_item_t) : M (bool * waps_item_t) :=
  if negb (splen (item_frame item) =? SINK_COST_WRITE_REQ_SIZE) then mret (false, item)
  else
    ok ← isFeaturePermitted LOCK_BITS_MSAP_SINK_COST_WRITE;
    result ← (if negb ok then mret APP_RES_ACCESS_DENIED
              else in_world (setSinkCost lib (pld 0 1 (item_frame item))));
    mret (true, simple_cnf WAPS_FUNC_MSAP_SINK_COST_WRITE_CNF (appRes2appSinkCost result) item).

Definition readSinkCost (item : waps_item_t) : M (bool * waps_item_t) :=
  if negb (splen (item_frame item) =? 0) then mret (false, item)
  else
    ok ← isFeaturePermitted LOCK_BITS_MSAP_SINK_COST_READ;
    r ← (if negb ok then mret (APP_RES_ACCESS_DENIED, 0) else in_world (getSinkCost lib 0));
    let item := Waps_item_init WAPS_FUNC_MSAP_SINK_COST_READ_CNF SINK_COST_READ_CNF_SIZE item in
    mret (true, on_frame (fun f => set_pld 1 1 r.2 (set_pld 0 1 (appRes2appSinkCost r.1) f)) item).

(** ** Neighbours *)

Definition nbor_type (type : Z) : Z :=
  if type =? APP_LIB_STATE_NEIGHBOR_IS_NEXT_HOP then APP_LIB_STATE_NEIGHBOR_IS_NEXT_HOP
  else if type =? APP_LIB_STATE_NEIGHBOR_IS_MEMBER then NEIGHBOR_IS_MEMBER
  else NEIGHBOR_IS_CLUSTER.

(** A [msap_neighbor_entry_t]. *)
Definition nbor_entry (info : app_lib_state_nbor_info_t) : list Z :=
  le_put 4 (Addr_to_Waddr (nb_address info)) ++ le_put 1 (nb_link_reliability info) ++
  le_put 1 (nb_norm_rssi info) ++ le_put 1 (nb_cost info) ++ le_put 1 (nb_channel info) ++
  le_put 1 (nbor_type (nb_type info)) ++ le_put 1 (nb_tx_power info) ++
  le_put 1 (nb_rx_power info) ++ le_put 2 (nb_last_update info).

Fixpoint copy_nbors (idx : nat) (nbors : list app_lib_state_nbor_info_t) (f : frame) : frame :=
  match nbors with
  | [] => f
  | info :: nbors =>
      copy_nbors (S idx) nbors (set_pld_bytes (1 + idx * NEIGHBOR_ENTRY_SIZE) (nbor_entry info) f)
  end.

Definition getNbors_req (item : waps_item_t) : M (bool * waps_item_t) :=
  if negb (splen (item_frame item) =? 0) then mret (false, item)
  else
    let item := Waps_item_init WAPS_FUNC_MSAP_GET_NBORS_CNF NEIGHBORS_CNF_SIZE item in
    let item := on_frame (set_pld_bytes 1 (repeat 0 (NEIGHBOR_ENTRY_SIZE * MSAP_MAX_NBORS))) item in
    ok ← isFeaturePermitted LOCK_BITS_MSAP_GET_NBORS;
    if negb ok then mret (true, item)
    else
      r ← in_world (getNbors lib MSAP_MAX_NBORS);
      mret (if r.1 =? APP_RES_OK
            then (true, on_frame (fun f => set_pld 0 1 (Z.of_nat (length r.2)) (copy_nbors 0 r.2 f)) item)
            else (false, on_frame (set_pld 0 1 0) item)).

Definition startScanNbors_req (item : waps_item_t) : M (bool * waps_item_t) :=
  if negb (splen (item_frame item) =? 0) then mret (false, item)
  else
    ok ← isFeaturePermitted LOCK_BITS_MSAP_SCAN_NBORS;
    result ← (if negb ok then mret MSAP_SCAN_NBORS_ACCESS_DENIED
              else r ← in_world (startScanNbors lib);
                   mret (if r =? APP_RES_OK then MSAP_SCAN_NBORS_SUCCESS
                         else MSAP_SCAN_NBORS_INVALID_STATE));
    mret (true, simple_cnf WAPS_FUNC_MSAP_SCAN_NBORS_CNF result item).

Definition getInstallQuality (item : waps_item_t) : M (bool * waps_item_t) :=
  if negb (splen (item_frame item) =? 0) then mret (false, item)
  else
    r ← in_world (getInstallQual lib (tmp0, tmp0));
    let item := Waps_item_init WAPS_FUNC_MSAP_GET_INSTALL_QUALITY_CNF INSTALL_QUALITY_CNF_SIZE item in
    mret (true, on_frame (fun f => set_pld 2 1 r.2.2 (set_pld 1 1 r.2.1 (set_pld 0 1 r.1 f))) item).

(** ** Scratchpad *)

Definition scratchpadClear (item : waps_item_t) : M (bool * waps_item_t) :=
  if negb (splen (item_frame item) =? 0) then mret (false, item)
  else
    ok ← isFeaturePermitted LOCK_BITS_MSAP_SCRATCHPAD_START;
    result ← (if negb ok then mret MSAP_SCRATCHPAD_CLEAR_ACCESS_DENIED
              else
                s ← in_world (getStackState lib);
                if s =? APP_LIB_STATE_STARTED then mret MSAP_SCRATCHPAD_CLEAR_INVALID_STATE
                else _ ← in_world (otap_clear lib); mret MSAP_SCRATCHPAD_CLEAR_SUCCESS);
    mret (true, simple_cnf WAPS_FUNC_MSAP_SCRATCHPAD_CLEAR_CNF result item).

Definition scratchpadStart (item : waps_item_t) : M (bool * waps_item_t) :=
  let f := item_frame item in
  if negb (splen f =? SCRATCHPAD_START_REQ_SIZE) then mret (false, item)
  else
    ok ← isFeaturePermitted LOCK_BITS_MSAP_SCRATCHPAD_START;
    result ← (if negb ok then mret MSAP_SCRATCHPAD_START_ACCESS_DENIED
              else
                s ← in_world (getStackState lib);
                if s =? APP_LIB_STATE_STARTED then mret MSAP_SCRATCHPAD_START_INVALID_STATE
                else
                  r ← in_world (otap_begin lib (pld 0 4 f) (pld 4 1 f));
                  mret (if negb (r =? APP_RES_OK) then MSAP_SCRATCHPAD_START_INVALID_NUM_BYTES
                        else MSAP_SCRATCHPAD_START_SUCCESS));
    mret (true, simple_cnf WAPS_FUNC_MSAP_SCRATCHPAD_START_CNF result item).

Definition block_result (r : Z) : Z :=
  if r =? APP_LIB_OTAP_WRITE_RES_OK then MSAP_SCRATCHPAD_BLOCK_SUCCESS
  else if r =? APP_LIB_OTAP_WRITE_RES_COMPLETED_OK then MSAP_SCRATCHPAD_BLOCK_COMPLETED_OK
  else if r =? APP_LIB_OTAP_WRITE_RES_COMPLETED_ERROR then MSAP_SCRATCHPAD_BLOCK_COMPLETED_ERROR
  else if r =? APP_LIB_OTAP_WRITE_RES_NOT_ONGOING then MSAP_SCRATCHPAD_BLOCK_NOT_ONGOING
  else if r =? APP_LIB_OTAP_WRITE_RES_INVALID_START then MSAP_SCRATCHPAD_BLOCK_INVALID_START_ADDR
  else if r =? APP_LIB_OTAP_WRITE_RES_INVALID_NUM_BYTES then MSAP_SCRATCHPAD_BLOCK_INVALID_NUM_BYTES
  else if (r =? APP_LIB_OTAP_WRITE_RES_INVALID_HEADER) || (r =? APP_LIB_OTAP_WRITE_RES_INVALID_NULL_BYTES)
  then MSAP_SCRATCHPAD_BLOCK_INVALID_DATA
  else MSAP_SCRATCHPAD_BLOCK_SUCCESS.

Definition scratchpadBlock (item : waps_item_t) : M (bool * waps_item_t) :=
  let f := item_frame item in
  let num_bytes := pld 4 1 f in
  if negb (splen f =? FRAME_MSAP_SCRATCHPAD_BLOCK_REQ_HEADER_SIZE + num_bytes) then mret (false, item)
  else
    s ← in_world (getStackState lib);
    result ← (if s =? APP_LIB_STATE_STARTED then mret MSAP_SCRATCHPAD_BLOCK_INVALID_STATE
              else r ← in_world (otap_write lib (pld 0 4 f) num_bytes
                         (pld_bytes 5 (Z.to_nat num_bytes) f));
                   mret (block_result r));
    let item := Waps_item_init WAPS_FUNC_MSAP_SCRATCHPAD_BLOCK_CNF SIMPLE_CNF_SIZE item in
    mret (true, on_frame (fun g => set_pld 0 1 result (set_sfid (sfid f) g)) item).

(** The assignments to the confirmation, in the order of the code. *)
Definition status_fields (f : frame) : M frame :=
  num_bytes ← in_world (otap_getNumBytes lib);
  crc ← in_world (otap_getCrc lib);
  seq ← in_world (otap_getSeq lib);
  type ← in_world (otap_getType lib);
  status ← in_world (otap_getStatus lib);
  processed_num_bytes ← in_world (getProcessedNumBytes lib);
  processed_crc ← in_world (getProcessedCrc lib);
  processed_seq ← in_world (getProcessedSeq lib);
  area_id ← in_world (getProcessedAreaId lib);
  v ← in_world (getStackFirmwareVersion lib);
  let f := set_pld 0 4 num_bytes f in
  let f := set_pld 4 2 crc f in
  let f := set_pld 6 1 seq f in
  let f := set_pld 7 1 type f in
  let f := set_pld 8 1 (Z.land status 0xff) f in
  let f := set_pld 9 4 processed_num_bytes f in
  let f := set_pld 13 2 processed_crc f in
  let f := set_pld 15 1 processed_seq f in
  let f := set_pld 16 4 area_id f in
  let f := set_pld 20 1 v.1.1.1 f in
  let f := set_pld 21 1 v.1.1.2 f in
  let f := set_pld 22 1 v.1.2 f in
  mret (set_pld 23 1 v.2 f).

Definition scratchpadStatus (item : waps_item_t) : M (bool * waps_item_t) :=
  if negb (splen (item_frame item) =? 0) then mret (false, item)
  else
    let item := Waps_item_init WAPS_FUNC_MSAP_SCRATCHPAD_STATUS_CNF SCRATCHPAD_STATUS_CNF_SIZE item in
    ok ← isFeaturePermitted LOCK_BITS_MSAP_SCRATCHPAD_STATUS;
    f ← (if (ok : bool) then status_fields (item_frame item)
         else mret (set_pld_bytes 0 (repeat 0 (Z.to_nat SCRATCHPAD_STATUS_CNF_SIZE)) (item_frame item)));
    mret (true, with_frame f item).

Definition scratchpadSetUpdate (item : waps_item_t) : M (bool * waps_item_t) :=
  if negb (splen (item_frame item) =? 0) then mret (false, item)
  else
    ok ← isFeaturePermitted LOCK_BITS_MSAP_SCRATCHPAD_START;
    result ← (if negb ok then mret MSAP_SCRATCHPAD_BOOTABLE_ACCESS_DENIED
              else
                s ← in_world (getStackState lib);
                if s =? APP_LIB_STATE_STARTED then mret MSAP_SCRATCHPAD_BOOTABLE_INVALID_STATE
                else
                  r ← in_world (setToBeProcessed lib);
                  mret (if negb (r =? APP_RES_OK) then MSAP_SCRATCHPAD_BOOTABLE_NO_SCRATCHPAD
                        else MSAP_SCRATCHPAD_BOOTABLE_SUCCESS));
    mret (true, simple_cnf WAPS_FUNC_MSAP_SCRATCHPAD_BOOTABLE_CNF result item).

Definition target_result (r : Z) : Z :=
  if r =? APP_RES_OK then MSAP_SCRATCHPAD_TARGET_SUCCESS
  else if r =? APP_RES_INVALID_CONFIGURATION then MSAP_SCRATCHPAD_TARGET_INVALID_ROLE
  else if r =? APP_RES_INVALID_VALUE then MSAP_SCRATCHPAD_TARGET_INVALID_VALUE
  else MSAP_SCRATCHPAD_TARGET_ACCESS_DENIED.

Definition scratchpadWriteTarget (item : waps_item_t) : M (bool * waps_item_t) :=
  let f := item_frame item in
  if negb (splen f =? SCRATCHPAD_TARGET_WRITE_REQ_SIZE) then mret (false, item)
  else
    r ← in_world (setTargetScratchpadAndAction lib (pld 0 1 f) (pld 1 2 f) (pld 3 1 f) (pld 4 1 f));
    mret (true, simple_cnf WAPS_FUNC_MSAP_SCRATCHPAD_TARGET_WRITE_CNF (target_result r) item).

Definition scratchpadReadTarget (item : waps_item_t) : M (bool * waps_item_t) :=
  if negb (splen (item_frame item) =? 0) then mret (false, item)
  else
    r ← in_world (getTargetScratchpadAndAction lib);
    if negb (r.1 =? APP_RES_OK) then mret (false, item)
    else
      let '(seq, crc, action, param) := r.2 in
      let item := Waps_item_init WAPS_FUNC_MSAP_SCRATCHPAD_TARGET_READ_CNF
                    SCRATCHPAD_TARGET_READ_CNF_SIZE item in
      mret (true, on_frame (fun f => set_pld 5 1 param (set_pld 4 1 action (set_pld 2 2 crc
                    (set_pld 1 1 seq (set_pld 0 1 0 f))))) item).

(** The scratchpad may be read when its tag is all ones; the answer is kept
    until something changes. *)
Definition allowScratchpadRead : M bool :=
  num_bytes ← in_world (otap_getNumBytes lib);
  seq ← in_world (otap_getSeq lib);
  crc ← in_world (otap_getCrc lib);
  type ← in_world (otap_getType lib);
  status ← in_world (otap_getStatus lib);
  c ← gets checked;
  if (num_bytes =? checked_num_bytes c) && (seq =? checked_otap_seq c) && (crc =? checked_crc c) &&
     (type =? checked_otap_type c) && (status =? checked_otap_status c)
  then mret (checked_result c)
  else
    r ← in_world (otap_read lib CMAC_OMAC1_TAG_OFFSET (Z.of_nat CMAC_OMAC1_TAG_NUM_BYTES)
          (repeat tmp0 CMAC_OMAC1_TAG_NUM_BYTES));
    let result := (r.1 =? APP_RES_OK) && forallb (fun b => b =? 0xff) (take CMAC_OMAC1_TAG_NUM_BYTES r.2) in
    _ ← set_checked {| checked_num_bytes := num_bytes; checked_otap_seq := seq; checked_crc := crc;
                       checked_otap_type := type; checked_otap_status := status;
                       checked_result := result |};
    mret result.

Definition read_block_result (r : Z) : Z :=
  if r =? APP_RES_OK then MSAP_SCRATCHPAD_BLOCK_READ_SUCCESS
  else if r =? APP_RES_INVALID_STACK_STATE then MSAP_SCRATCHPAD_BLOCK_READ_INVALID_STATE
  else if r =? APP_RES_RESOURCE_UNAVAILABLE then MSAP_SCRATCHPAD_BLOCK_READ_NO_SCRATCHPAD
  else MSAP_SCRATCHPAD_BLOCK_READ_INVALID_NUM_BYTES.

(** The last branch: [f] is the confirmation so far. *)
Definition read_block (start_addr num_bytes max_num_bytes : Z) (f : frame) : M (Z * frame) :=
  let num_bytes := if max_num_bytes - start_addr <? num_bytes then max_num_bytes - start_addr
                   else num_bytes in
  let f := set_splen (FRAME_MSAP_SCRATCHPAD_BLOCK_READ_CNF_HEADER_SIZE + num_bytes) f in
  if 0 <? num_bytes then
    r ← in_world (otap_read lib start_addr num_bytes (pld_bytes 1 (Z.to_nat num_bytes) f));
    mret (read_block_result r.1, set_pld_bytes 1 (take (Z.to_nat num_bytes) r.2) f)
  else mret (MSAP_SCRATCHPAD_BLOCK_READ_SUCCESS, f).

Definition scratchpadReadBlock (item : waps_item_t) : M (bool * waps_item_t) :=
  let f := item_frame item in
  let start_addr := pld 0 4 f in
  let num_bytes := pld 4 1 f in
  if negb (splen f =? SCRATCHPAD_BLOCK_READ_REQ_SIZE) then mret (false, item)
  else
    max_num_bytes ← (if allow_read then in_world (otap_getNumBytes lib) else mret 0);
    let item := Waps_item_init WAPS_FUNC_MSAP_SCRATCHPAD_BLOCK_READ_CNF
                  FRAME_MSAP_SCRATCHPAD_BLOCK_READ_CNF_HEADER_SIZE item in
    let f := item_frame item in
    r ← (if negb allow_read then mret (MSAP_SCRATCHPAD_BLOCK_READ_ACCESS_DENIED, f)
         else
           ok ← isFeaturePermitted LOCK_BITS_MSAP_SCRATCHPAD_START;
           if negb ok then mret (MSAP_SCRATCHPAD_BLOCK_READ_ACCESS_DENIED, f)
           else
             allowed ← allowScratchpadRead;
             if negb allowed then mret (MSAP_SCRATCHPAD_BLOCK_READ_ACCESS_DENIED, f)
             else if negb (Z.land start_addr 3 =? 0) || (max_num_bytes <? start_addr)
             then mret (MSAP_SCRATCHPAD_BLOCK_READ_INVALID_START_ADDR, f)
             else if negb (Z.land num_bytes 3 =? 0) ||
                     (MSAP_SCRATCHPAD_BLOCK_READ_MAX_NUM_BYTES <? num_bytes)
             then mret (MSAP_SCRATCHPAD_BLOCK_READ_INVALID_NUM_BYTES, f)
             else if max_num_bytes =? 0 then mret (MSAP_SCRATCHPAD_BLOCK_READ_NO_SCRATCHPAD, f)
             else read_block start_addr num_bytes max_num_bytes f);
    mret (true, on_frame (set_pld 0 1 r.1) (with_frame r.2 item)).

(** ** Remote requests *)

Definition remoteStatus (item : waps_item_t) : M (bool * waps_item_t) :=
  mret (if negb (splen (item_frame item) =? REMOTE_STATUS_REQ_SIZE) then (false, item)
        else (true, simple_cnf WAPS_FUNC_MSAP_REMOTE_STATUS_CNF MSAP_REMOTE_STATUS_ACCESS_DENIED item)).

Definition remoteUpdate (item : waps_item_t) : M (bool * waps_item_t) :=
  mret (if negb (splen (item_frame item) =? REMOTE_UPDATE_REQ_SIZE) then (false, item)
        else (true, simple_cnf WAPS_FUNC_MSAP_REMOTE_UPDATE_CNF MSAP_REMOTE_UPDATE_ACCESS_DENIED item)).

(** ** Sleep *)

Definition sleep_result (r : Z) : Z :=
  if r =? APP_RES_OK then MSAP_SLEEP_SUCCESS
  else if r =? APP_RES_INVALID_STACK_STATE then MSAP_SLEEP_INVALID_STATE
  else if r =? APP_RES_INVALID_CONFIGURATION then MSAP_SLEEP_INVALID_ROLE
  else if r =? APP_RES_INVALID_VALUE then MSAP_SLEEP_INVALID_VALUE
  else MSAP_SLEEP_ACCESS_DENIED.

Definition sleep_request (item : waps_item_t) : M (bool * waps_item_t) :=
  r ← in_world (sleepStackforTime lib (pld 0 4 (item_frame item)) (pld 4 4 (item_frame item)));
  mret (true, simple_cnf WAPS_FUNC_MSAP_STACK_SLEEP_REQ_CNF (sleep_result r) item).

Definition sleep_stop_request (item : waps_item_t) : M (bool * waps_item_t) :=
  r ← in_world (wakeupStack lib);
  let result := if r =? APP_RES_OK then MSAP_SLEEP_SUCCESS
                else if r =? APP_RES_INVALID_STACK_STATE then MSAP_SLEEP_INVALID_STATE
                else MSAP_SLEEP_ACCESS_DENIED in
  mret (true, simple_cnf WAPS_FUNC_MSAP_STACK_SLEEP_STOP_CNF result item).

Definition sleep_state_request (item : waps_item_t) : M (bool * waps_item_t) :=
  let item := Waps_item_init WAPS_FUNC_MSAP_STACK_SLEEP_STATE_GET_RSP SLEEP_STATE_RSP_SIZE item in
  started ← in_world (getSleepState lib);
  seconds ← in_world (getStackWakeup lib);
  mret (true, on_frame (fun f => set_pld 1 4 seconds
    (set_pld 0 1 (if (started : bool) then MSAP_NRLS_SLEEP_ACTIVE else MSAP_NRLS_SLEEP_NOT_STARTED) f)) item).

Definition sleep_gotosleepinfo_request (item : waps_item_t) : M (bool * waps_item_t) :=
  let item := Waps_item_init WAPS_FUNC_MSAP_STACK_SLEEP_GOTOSLEEPINFO_RSP
                SLEEP_LATEST_GOTOSLEEP_RSP_SIZE item in
  seconds ← in_world (getSleepLatestGotosleep lib);
  mret (true, on_frame (set_pld 0 4 seconds) item).

(** ** Queueing times *)

Definition max_msg_queuing_time_write_req (item : waps_item_t) : M (bool * waps_item_t) :=
  let f := item_frame item in
  r ← (if splen f =? MAX_MSG_QUEUING_TIME_REQ_SIZE
       then result ← in_world (setMaxMsgQueuingTime lib (pld 0 1 f) (pld 1 2 f)); mret (true, result)
       else mret (false, APP_RES_INVALID_VALUE));
  mret (r.1, simple_cnf WAPS_FUNC_MSAP_MAX_MSG_QUEUEING_TIME_WRITE_CNF r.2 item).

Definition max_msg_queuing_time_read_req (item : waps_item_t) : M (bool * waps_item_t) :=
  let f := item_frame item in
  r ← (if splen f =? PRIORITY_SIZE
       then r ← in_world (getMaxMsgQueuingTime lib (pld 0 1 f) 0); mret (true, r)
       else mret (false, (APP_RES_INVALID_VALUE, 0)));
  let item := Waps_item_init WAPS_FUNC_MSAP_MAX_MSG_QUEUEING_TIME_READ_CNF
                MAX_MSG_QUEUING_TIME_READ_CNF_SIZE item in
  mret (r.1, on_frame (fun f => set_splen MAX_MSG_QUEUING_TIME_READ_CNF_SIZE
               (set_pld 0 1 r.2.1 (set_pld 1 2 r.2.2 f))) item).

(** ** The dispatch *)

Definition Msap_handleFrame (item : waps_item_t) : M (bool * waps_item_t) :=
  let func := sfunc (item_frame item) in
  if func =? WAPS_FUNC_MSAP_STACK_START_REQ then stackStart item
  else if func =? WAPS_FUNC_MSAP_STACK_STOP_REQ then stackStop item
  else if func =? WAPS_FUNC_MSAP_APP_CONFIG_WRITE_REQ then writeInterest item
  else if func =? WAPS_FUNC_MSAP_APP_CONFIG_READ_REQ then readInterest item
  else if func =? WAPS_FUNC_MSAP_ATTR_READ_REQ then attrReadReq item
  else if func =? WAPS_FUNC_MSAP_ATTR_WRITE_REQ then attrWriteReq item
  else if func =? WAPS_FUNC_MSAP_INDICATION_POLL_REQ then mret (pollRequest item)
  else if func =? WAPS_FUNC_MSAP_SCRATCHPAD_START_REQ then scratchpadStart item
  else if func =? WAPS_FUNC_MSAP_SCRATCHPAD_BLOCK_REQ then scratchpadBlock item
  else if func =? WAPS_FUNC_MSAP_SCRATCHPAD_STATUS_REQ then scratchpadStatus item
  else if func =? WAPS_FUNC_MSAP_SCRATCHPAD_BOOTABLE_REQ then scratchpadSetUpdate item
  else if func =? WAPS_FUNC_MSAP_SCRATCHPAD_CLEAR_REQ then scratchpadClear item
  else if func =? WAPS_FUNC_MSAP_SCRATCHPAD_TARGET_WRITE_REQ then scratchpadWriteTarget item
  else if func =? WAPS_FUNC_MSAP_SCRATCHPAD_TARGET_READ_REQ then scratchpadReadTarget item
  else if func =? WAPS_FUNC_MSAP_SCRATCHPAD_BLOCK_READ_REQ then scratchpadReadBlock item
  else if func =? WAPS_FUNC_MSAP_REMOTE_STATUS_REQ then remoteStatus item
  else if func =? WAPS_FUNC_MSAP_REMOTE_UPDATE_REQ then remoteUpdate item
  else if func =? WAPS_FUNC_MSAP_GET_NBORS_REQ then getNbors_req item
  else if func =? WAPS_FUNC_MSAP_SCAN_NBORS_REQ then startScanNbors_req item
  else if func =? WAPS_FUNC_MSAP_GET_INSTALL_QUALITY_REQ then getInstallQuality item
  else if func =? WAPS_FUNC_MSAP_SINK_COST_WRITE_REQ then writeSinkCost item
  else if func =? WAPS_FUNC_MSAP_SINK_COST_READ_REQ then readSinkCost item
  else if func =? WAPS_FUNC_MSAP_STACK_SLEEP_REQ then sleep_request item
  else if func =? WAPS_FUNC_MSAP_STACK_SLEEP_STOP_REQ then sleep_stop_request item
  else if func =? WAPS_FUNC_MSAP_STACK_SLEEP_STATE_GET_REQ then sleep_state_request item
  else if func =? WAPS_FUNC_MSAP_STACK_SLEEP_GOTOSLEEPINFO_REQ then sleep_gotosleepinfo_request item
  else if func =? WAPS_FUNC_MSAP_MAX_MSG_QUEUEING_TIME_WRITE_REQ then max_msg_queuing_time_write_req item
  else if func =? WAPS_FUNC_MSAP_MAX_MSG_QUEUEING_TIME_READ_REQ then max_msg_queuing_time_read_req item
  else mret (false, item).

End Msap.
