(* ===== verification/MsapProofs.v ===== *)
(** * The management service: its theorems

    [Section Replies] shows that every request of [Msap] is answered by a
    well-formed frame or leaves the item to be dropped, [Section Locks] that a
    locked feature has no effect, and [Section Settings] that the writable
    attributes read back; then a concrete stack to evaluate them on. *)

From S2P Require Import Prelude Api WapsUart WapsFrames WapsServices Dsap Waps Msap.
Import LockBits.

(** ** Replies *)

(** A frame of the given function, frame id and payload length. *)
Definition shaped (func fid len : Z) (f : frame) : Prop :=
  wf_frame f /\ sfunc f = func /\ sfid f = fid /\ splen f = len.

Lemma shaped_pld func fid len off n v f :
  shaped func fid len f -> shaped func fid len (set_pld off n v f).
Proof.
  intros (Hwf & H1 & H2 & H3). split_and!; [by apply wf_set_field|..]; frame_unfold;
    by rewrite field_set_field_disj by lia.
Qed.

Lemma shaped_bytes func fid len off bs f :
  bytes bs -> shaped func fid len f -> shaped func fid len (set_pld_bytes off bs f).
Proof.
  intros Hb (Hwf & H1 & H2 & H3). split_and!; [by apply wf_blit|..]; frame_unfold;
    by rewrite field_blit_disj by lia.
Qed.

Lemma shaped_splen func fid len len' f :
  is_u8 len' -> shaped func fid len f -> shaped func fid len' (set_splen len' f).
Proof.
  intros Hlen (Hwf & H1 & H2 & _). pose proof Hwf as [Hl _]. change FRAME_SIZE with 126%nat in Hl.
  split_and!; [by apply wf_set_field|..]; frame_unfold.
  - by rewrite field_set_field_disj by lia.
  - by rewrite field_set_field_disj by lia.
  - rewrite field_same by lia. by apply uwrap_small.
Qed.

Lemma shaped_sfid func fid fid' len f :
  is_u8 fid' -> shaped func fid len f -> shaped func fid' len (set_sfid fid' f).
Proof.
  intros Hfid (Hwf & H1 & _ & H3). pose proof Hwf as [Hl _]. change FRAME_SIZE with 126%nat in Hl.
  split_and!; [by apply wf_set_field|..]; frame_unfold.
  - by rewrite field_set_field_disj by lia.
  - rewrite field_same by lia. by apply uwrap_small.
  - by rewrite field_set_field_disj by lia.
Qed.

Lemma shaped_init func len f :
  is_u8 func -> is_u8 len -> wf_frame f -> shaped func (sfid f) len (set_splen len (set_sfunc func f)).
Proof.
  intros Hfu Hlen Hwf. pose proof Hwf as [Hl _]. change FRAME_SIZE with 126%nat in Hl.
  split_and!; [by repeat apply wf_set_field|..]; frame_unfold.
  - rewrite field_set_field_disj by lia. rewrite field_same by lia. by apply uwrap_small.
  - by rewrite !field_set_field_disj by lia.
  - rewrite field_same by (rewrite length_set_field; lia). by apply uwrap_small.
Qed.

Create HintDb shaped discriminated.
#[export] Hint Resolve shaped_pld shaped_bytes shaped_splen shaped_sfid shaped_init : shaped.

(** What a handler makes of a request: the item stays usable and keeps its
    frame id, and an accepted request has become the confirmation. *)
Definition reply (cnf len : Z) (item : waps_item_t) (r : bool * waps_item_t) : Prop :=
  sized r.2 /\ sfid (item_frame r.2) = sfid (item_frame item) /\
  (r.1 = true -> shaped cnf (sfid (item_frame item)) len (item_frame r.2)).

Lemma reply_rejected cnf len item : sized item -> reply cnf len item (false, item).
Proof. done. Qed.

Lemma reply_made cnf len item ok item' :
  len <= 123 -> shaped cnf (sfid (item_frame item)) len (item_frame item') ->
  reply cnf len item (ok, item').
Proof.
  intros Hlen H. pose proof H as (Hwf & Hfu & Hfid & Hl). unfold reply, sized. cbn [fst snd].
  rewrite Hl. by split_and!.
Qed.

Lemma reply_simple cnf res item :
  is_u8 cnf -> sized item -> reply cnf SIMPLE_CNF_SIZE item (true, simple_cnf cnf res item).
Proof. intros Hc [Hwf _]. apply reply_made; [done|]. by apply shaped_pld, shaped_init. Qed.

(** Walk through a handler: any result of a call, both branches of a test. *)
Ltac handler :=
  repeat match goal with
  | |- yields (mbind _ _) _ => apply yields_any; intros ?
  | |- yields (if ?b then _ else _) _ => destruct b
  | |- yields (mret (if ?b then _ else _)) _ => destruct b
  | |- yields (mret _) _ => apply yields_ret
  | |- yields (let _ := _ in _) _ => cbn zeta
  | |- reply _ _ ?i (false, ?i) => by apply reply_rejected
  | |- reply _ _ _ (true, simple_cnf _ _ _) => by apply reply_simple
  | |- reply _ _ _ _ => apply reply_made; [done|]
  end.

Section Replies.
Context {W : Type} (lib : stack W) (tmp0 : Z) (allow_read : bool).

(** What the stack writes into buffers are bytes, and the neighbours fit in
    the table it was given. *)
Class StackOk : Prop := {
  config_bytes old w : bytes old.1.1 -> bytes (readAppConfig lib old w).1.2.1.1;
  read_bytes a n old w : bytes old -> bytes (otap_read lib a n old w).1.2;
  persistent_bytes old n w : bytes (Persistent.readPersistent (stack_storage lib) old n w).1.2;
  nbors_fit n w : (length (getNbors lib n w).1.2 <= n)%nat }.

Context {HS : StackOk}.

Lemma frame_bytes off n item : sized item -> bytes (pld_bytes off n (item_frame item)).
Proof. intros [[_ Hb] _]. by apply slice_bytes. Qed.

Lemma stackStart_reply item :
  sized item -> yields (stackStart lib item) (reply WAPS_FUNC_MSAP_STACK_START_CNF SIMPLE_CNF_SIZE item).
Proof. intros H. unfold stackStart. handler. Qed.

Lemma stackStop_reply item :
  sized item -> yields (stackStop lib item) (reply WAPS_FUNC_MSAP_STACK_STOP_CNF SIMPLE_CNF_SIZE item).
Proof.
  intros H. pose proof H as [Hwf _]. unfold stackStop. handler.
  apply shaped_pld. by apply shaped_init.
Qed.

Lemma writeInterest_reply item :
  sized item ->
  yields (writeInterest lib tmp0 item) (reply WAPS_FUNC_MSAP_APP_CONFIG_WRITE_CNF SIMPLE_CNF_SIZE item).
Proof. intros H. unfold writeInterest. handler. Qed.

Lemma readInterest_reply item :
  sized item ->
  yields (readInterest lib item) (reply WAPS_FUNC_MSAP_APP_CONFIG_READ_CNF INT_READ_CNF_SIZE item).
Proof.
  intros H. unfold readInterest. destruct (negb _); [handler|]. apply yields_any. intros ok.
  eapply (yields_bind _ _ (fun r => bytes r.2.1.1)).
  { destruct ok; cbn [negb].
    - apply yields_zoom, yields_zoom. intros w. apply config_bytes. by apply frame_bytes.
    - apply yields_ret. by apply frame_bytes. }
  intros r Hr. handler. repeat apply shaped_pld. pose proof H as [[Hl Hb] _].
  assert (Hwf : wf_frame (set_pld_bytes 4 (take APP_CONF_MAX r.2.1.1) (item_frame item))).
  { apply wf_blit; [by apply Forall_take|done]. }
  assert (Hid : sfid (item_frame item) = sfid (set_pld_bytes 4 (take APP_CONF_MAX r.2.1.1) (item_frame item))).
  { frame_unfold. by rewrite field_blit_disj by lia. }
  rewrite Hid. by apply shaped_init.
Qed.

Lemma writeSinkCost_reply item :
  sized item ->
  yields (writeSinkCost lib item) (reply WAPS_FUNC_MSAP_SINK_COST_WRITE_CNF SIMPLE_CNF_SIZE item).
Proof. intros H. unfold writeSinkCost. handler. Qed.

Lemma readSinkCost_reply item :
  sized item ->
  yields (readSinkCost lib item) (reply WAPS_FUNC_MSAP_SINK_COST_READ_CNF SINK_COST_READ_CNF_SIZE item).
Proof.
  intros H. pose proof H as [Hwf _]. unfold readSinkCost. handler.
  repeat apply shaped_pld. by apply shaped_init.
Qed.

Lemma length_nbor_entry info : length (nbor_entry info) = NEIGHBOR_ENTRY_SIZE.
Proof. done. Qed.

Lemma nbor_entry_bytes info : bytes (nbor_entry info).
Proof. unfold nbor_entry. repeat (apply Forall_app; split); apply le_put_bytes. Qed.

Lemma shaped_nbors func fid len idx nbors f :
  shaped func fid len f -> shaped func fid len (copy_nbors idx nbors f).
Proof.
  revert idx f. induction nbors as [|info nbors IH]; intros idx f Hf; [done|].
  apply IH, shaped_bytes; [apply nbor_entry_bytes|done].
Qed.

Lemma getNbors_reply item :
  sized item ->
  yields (getNbors_req lib item) (reply WAPS_FUNC_MSAP_GET_NBORS_CNF NEIGHBORS_CNF_SIZE item).
Proof.
  intros H. pose proof H as [Hwf _]. unfold getNbors_req. destruct (negb _); [handler|]. cbn zeta.
  assert (Hs : shaped WAPS_FUNC_MSAP_GET_NBORS_CNF (sfid (item_frame item)) NEIGHBORS_CNF_SIZE
    (item_frame (on_frame (set_pld_bytes 1 (repeat 0 (NEIGHBOR_ENTRY_SIZE * MSAP_MAX_NBORS)))
       (Waps_item_init WAPS_FUNC_MSAP_GET_NBORS_CNF NEIGHBORS_CNF_SIZE item)))).
  { apply shaped_bytes; [by apply bytes_repeat|by apply shaped_init]. }
  handler; [done|..].
  - by apply shaped_pld, shaped_nbors.
  - by apply shaped_pld.
Qed.

Lemma startScanNbors_reply item :
  sized item -> yields (startScanNbors_req lib item) (reply WAPS_FUNC_MSAP_SCAN_NBORS_CNF SIMPLE_CNF_SIZE item).
Proof. intros H. unfold startScanNbors_req. handler. Qed.

Lemma getInstallQuality_reply item :
  sized item ->
  yields (getInstallQuality lib tmp0 item)
    (reply WAPS_FUNC_MSAP_GET_INSTALL_QUALITY_CNF INSTALL_QUALITY_CNF_SIZE item).
Proof.
  intros H. pose proof H as [Hwf _]. unfold getInstallQuality. handler.
  repeat apply shaped_pld. by apply shaped_init.
Qed.

Lemma scratchpadClear_reply item :
  sized item ->
  yields (scratchpadClear lib item) (reply WAPS_FUNC_MSAP_SCRATCHPAD_CLEAR_CNF SIMPLE_CNF_SIZE item).
Proof. intros H. unfold scratchpadClear. handler. Qed.

Lemma scratchpadStart_reply item :
  sized item ->
  yields (scratchpadStart lib item) (reply WAPS_FUNC_MSAP_SCRATCHPAD_START_CNF SIMPLE_CNF_SIZE item).
Proof. intros H. unfold scratchpadStart. handler. Qed.

Lemma sfid_u8 item : sized item -> is_u8 (sfid (item_frame item)).
Proof.
  intros [[Hl Hb] _]. change FRAME_SIZE with 126%nat in Hl. apply field1_range; [done|lia].
Qed.

Lemma scratchpadBlock_reply item :
  sized item ->
  yields (scratchpadBlock lib item) (reply WAPS_FUNC_MSAP_SCRATCHPAD_BLOCK_CNF SIMPLE_CNF_SIZE item).
Proof.
  intros H. pose proof H as [Hwf _]. unfold scratchpadBlock. handler.
  apply shaped_pld. eapply shaped_sfid; [by apply sfid_u8|]. by apply shaped_init.
Qed.

Lemma status_fields_shaped func fid len f :
  shaped func fid len f -> yields (status_fields lib f) (shaped func fid len).
Proof. intros H. unfold status_fields. handler. by repeat apply shaped_pld. Qed.

Lemma scratchpadStatus_reply item :
  sized item ->
  yields (scratchpadStatus lib item)
    (reply WAPS_FUNC_MSAP_SCRATCHPAD_STATUS_CNF SCRATCHPAD_STATUS_CNF_SIZE item).
Proof.
  intros H. pose proof H as [Hwf _]. unfold scratchpadStatus. destruct (negb _); [handler|].
  cbn zeta. apply yields_any. intros ok.
  set (i := Waps_item_init _ _ item).
  assert (Hs : shaped WAPS_FUNC_MSAP_SCRATCHPAD_STATUS_CNF (sfid (item_frame item))
    SCRATCHPAD_STATUS_CNF_SIZE (item_frame i)) by by apply shaped_init.
  eapply (yields_bind _ _ (shaped WAPS_FUNC_MSAP_SCRATCHPAD_STATUS_CNF (sfid (item_frame item))
    SCRATCHPAD_STATUS_CNF_SIZE)).
  { destruct ok; [by apply status_fields_shaped|]. apply yields_ret.
    apply shaped_bytes; [by apply bytes_repeat|done]. }
  intros f Hf. handler. done.
Qed.

Lemma scratchpadSetUpdate_reply item :
  sized item ->
  yields (scratchpadSetUpdate lib item) (reply WAPS_FUNC_MSAP_SCRATCHPAD_BOOTABLE_CNF SIMPLE_CNF_SIZE item).
Proof. intros H. unfold scratchpadSetUpdate. handler. Qed.

Lemma scratchpadWriteTarget_reply item :
  sized item ->
  yields (scratchpadWriteTarget lib item)
    (reply WAPS_FUNC_MSAP_SCRATCHPAD_TARGET_WRITE_CNF SIMPLE_CNF_SIZE item).
Proof. intros H. unfold scratchpadWriteTarget. handler. Qed.

Lemma scratchpadReadTarget_reply item :
  sized item ->
  yields (scratchpadReadTarget lib item)
    (reply WAPS_FUNC_MSAP_SCRATCHPAD_TARGET_READ_CNF SCRATCHPAD_TARGET_READ_CNF_SIZE item).
Proof.
  intros H. pose proof H as [Hwf _]. unfold scratchpadReadTarget. destruct (negb _); [handler|].
  apply yields_any. intros [r [[[seq crc] action] param]]. cbn [fst snd]. handler.
  repeat apply shaped_pld. by apply shaped_init.
Qed.

Lemma remoteStatus_reply item :
  sized item -> yields (remoteStatus item : st (state W) _) (reply WAPS_FUNC_MSAP_REMOTE_STATUS_CNF SIMPLE_CNF_SIZE item).
Proof. intros H. unfold remoteStatus. handler. Qed.

Lemma remoteUpdate_reply item :
  sized item -> yields (remoteUpdate item : st (state W) _) (reply WAPS_FUNC_MSAP_REMOTE_UPDATE_CNF SIMPLE_CNF_SIZE item).
Proof. intros H. unfold remoteUpdate. handler. Qed.

Lemma sleep_request_reply item :
  sized item -> yields (sleep_request lib item) (reply WAPS_FUNC_MSAP_STACK_SLEEP_REQ_CNF SIMPLE_CNF_SIZE item).
Proof. intros H. unfold sleep_request. handler. Qed.

Lemma sleep_stop_reply item :
  sized item ->
  yields (sleep_stop_request lib item) (reply WAPS_FUNC_MSAP_STACK_SLEEP_STOP_CNF SIMPLE_CNF_SIZE item).
Proof. intros H. unfold sleep_stop_request. handler. Qed.

Lemma sleep_state_reply item :
  sized item ->
  yields (sleep_state_request lib item)
    (reply WAPS_FUNC_MSAP_STACK_SLEEP_STATE_GET_RSP SLEEP_STATE_RSP_SIZE item).
Proof.
  intros H. pose proof H as [Hwf _]. unfold sleep_state_request. handler.
  all: repeat apply shaped_pld; by apply shaped_init.
Qed.

Lemma sleep_gotosleepinfo_reply item :
  sized item ->
  yields (sleep_gotosleepinfo_request lib item)
    (reply WAPS_FUNC_MSAP_STACK_SLEEP_GOTOSLEEPINFO_RSP SLEEP_LATEST_GOTOSLEEP_RSP_SIZE item).
Proof.
  intros H. pose proof H as [Hwf _]. unfold sleep_gotosleepinfo_request. handler.
  apply shaped_pld. by apply shaped_init.
Qed.

Lemma queuing_write_reply item :
  sized item ->
  yields (max_msg_queuing_time_write_req lib item)
    (reply WAPS_FUNC_MSAP_MAX_MSG_QUEUEING_TIME_WRITE_CNF SIMPLE_CNF_SIZE item).
Proof.
  intros H. pose proof H as [Hwf _]. unfold max_msg_queuing_time_write_req. handler.
  apply shaped_pld. by apply shaped_init.
Qed.

Lemma queuing_read_reply item :
  sized item ->
  yields (max_msg_queuing_time_read_req lib item)
    (reply WAPS_FUNC_MSAP_MAX_MSG_QUEUEING_TIME_READ_CNF MAX_MSG_QUEUING_TIME_READ_CNF_SIZE item).
Proof.
  intros H. pose proof H as [Hwf _]. unfold max_msg_queuing_time_read_req. handler.
  eapply shaped_splen; [done|]. repeat apply shaped_pld. by apply shaped_init.
Qed.

Lemma attrWrite_reply item :
  sized item -> yields (attrWriteReq lib item) (reply WAPS_FUNC_MSAP_ATTR_WRITE_CNF SIMPLE_CNF_SIZE item).
Proof. intros H. unfold attrWriteReq. handler. Qed.

Lemma poll_reply item :
  sized item ->
  yields (mret (pollRequest item) : st (state W) _) (reply WAPS_FUNC_MSAP_INDICATION_POLL_CNF 1 item).
Proof.
  intros H. pose proof H as [Hwf _]. unfold pollRequest. handler. by apply shaped_init.
Qed.

(** The value of a read attribute goes into the frame of the request. *)
Definition body_of (f f' : frame) : Prop := wf_frame f' /\ sfid f' = sfid f.

Lemma body_bytes off bs f : bytes bs -> wf_frame f -> body_of f (set_pld_bytes off bs f).
Proof.
  intros Hb Hf. split; [by apply wf_blit|]. frame_unfold. by rewrite field_blit_disj by lia.
Qed.

Lemma getGroups_bytes old :
  bytes old -> yields (Multicast.Multicast_getGroups (stack_storage lib) old) (fun r => bytes r.2).
Proof.
  intros Hold p. unfold Multicast.Multicast_getGroups, Persistent.Persistent_getGroups.
  rewrite !bindE. cbn [fst snd mret st_ret gets]. unfold Persistent.update_image.
  pose proof (persistent_bytes (Persistent.m_persistent_image p) Persistent.IMAGE_SIZE (Persistent.world p))
    as Hb.
  destruct (Persistent.readPersistent _ _ _ _) as [[r img] w]. cbn [fst snd Persistent.m_persistent_image] in *.
  destruct (_ =? _); [|done]. apply blit_bytes; [|done]. apply Forall_concat, Forall_fmap, Forall_true.
  intros i. apply blit_bytes; [by repeat apply slice_bytes|apply le_put_bytes].
Qed.

Lemma readAttr_body a f size :
  wf_frame f -> yields (readAttr lib tmp0 a f size) (fun r => is_u8 r.1 /\ body_of f r.2).
Proof.
  intros Hf. assert (Hu : forall r, is_u8 (appRes2attrRes r)).
  { intros r. unfold appRes2attrRes. by repeat case_match. }
  unfold readAttr. destruct (_ =? MSAP_ATTR_MCAST_GROUPS).
  - eapply yields_bind; [apply yields_zoom, getGroups_bytes; apply slice_bytes, Hf|].
    intros r Hr. apply yields_ret. split; [apply Hu|by apply body_bytes].
  - apply yields_any. intros r. apply yields_ret. split; [apply Hu|].
    cbn [snd]. destruct (_ && _); [apply body_bytes; [apply le_put_bytes|done]|done].
Qed.

(** A confirmation of a read announces exactly the bytes it carries. *)
Definition read_shaped (attr_id result size : Z) (item : waps_item_t) (f : frame) : Prop :=
  shaped WAPS_FUNC_MSAP_ATTR_READ_CNF (sfid (item_frame item))
    (FRAME_READ_CNF_HEADER_SIZE + if result =? ATTR_SUCCESS then size else 0) f /\
  pld 0 1 f = result /\ pld 1 2 f = attr_id /\
  pld 3 1 f = if result =? ATTR_SUCCESS then size else 0.

Lemma read_response_shaped a res size item :
  is_u16 a -> is_u8 res -> 0 <= size <= 40 -> wf_item item ->
  read_shaped a res size item (item_frame (read_response a res size item)).
Proof.
  intros Ha Hr Hs Hwf. unfold read_response, read_shaped.
  set (i := Waps_item_init _ _ item).
  assert (Hi : shaped WAPS_FUNC_MSAP_ATTR_READ_CNF (sfid (item_frame item)) FRAME_READ_CNF_HEADER_SIZE
    (item_frame i)) by by apply shaped_init.
  destruct (res =? ATTR_SUCCESS) eqn:Eres.
  - set (j := if a =? MSAP_ATTR_SYSTEM_TIME then _ else _).
    assert (Ej : item_frame j = set_pld 3 1 size (set_splen (splen (item_frame i) + size) (item_frame i))).
    { unfold j. by destruct (a =? MSAP_ATTR_SYSTEM_TIME). }
    cbn [item_frame on_frame with_frame]. rewrite Ej. pose proof Hi as ([Hl _] & _ & _ & Hlen).
    change FRAME_SIZE with 126%nat in Hl. rewrite Hlen. split_and!.
    + repeat apply shaped_pld. eapply shaped_splen; [|done].
      unfold FRAME_READ_CNF_HEADER_SIZE, fits. lia.
    + frame_unfold. frame_read. by apply uwrap_small.
    + frame_unfold. frame_read. by apply uwrap_small.
    + frame_unfold. frame_read. done.
  - cbn [item_frame on_frame with_frame]. pose proof Hi as ([Hl _] & _).
    change FRAME_SIZE with 126%nat in Hl. split_and!.
    + rewrite Z.add_0_r. by repeat apply shaped_pld.
    + frame_unfold. frame_read. by apply uwrap_small.
    + frame_unfold. frame_read. by apply uwrap_small.
    + frame_unfold. by frame_read.
Qed.

Lemma lut_range idx : 0 <= nth idx m_attr_size_lut 0 <= 40.
Proof. do 14 (destruct idx as [|idx]; [cbn; lia|]). destruct idx; cbn; lia. Qed.

Lemma attrRead_reply item :
  sized item ->
  yields (attrReadReq lib tmp0 item) (fun r =>
    r = (false, item) \/
    r.1 = true /\ exists res size, is_u8 res /\ 0 <= size <= 40 /\
      read_shaped (pld 0 2 (item_frame item)) res size item (item_frame r.2)).
Proof.
  intros H. pose proof H as [Hwf _]. pose proof Hwf as [Hl Hb]. change FRAME_SIZE with 126%nat in Hl.
  assert (Ha : is_u16 (pld 0 2 (item_frame item))).
  { apply (field_range _ 2); [done|]. rewrite Hl. cbn. lia. }
  assert (He : forall res, is_u8 res -> res <> ATTR_SUCCESS -> read_shaped (pld 0 2 (item_frame item)) res 0 item
    (item_frame (read_response (pld 0 2 (item_frame item)) res 0 item))).
  { intros res Hr _. by apply read_response_shaped. }
  unfold attrReadReq. destruct (negb _); [apply yields_ret; by left|].
  destruct (_ <=? _).
  { apply yields_ret. right. split; [done|]. exists ATTR_UNSUPPORTED_ATTRIBUTE, 0. by split_and!; [..|apply He]. }
  apply yields_any. intros [|]; cbn [negb].
  2: { apply yields_ret. right. split; [done|]. exists ATTR_ACCESS_DENIED, 0. by split_and!; [..|apply He]. }
  eapply yields_bind; [by apply readAttr_body|]. intros r (Hr & Hf & Hid). apply yields_ret. right.
  split; [done|]. exists r.1. eexists. split; [done|]. split; [apply lut_range|].
  pose proof (read_response_shaped (pld 0 2 (item_frame item)) r.1
    (nth (Z.to_nat (u32 (pld 0 2 (item_frame item) - 1))) m_attr_size_lut 0) (with_frame r.2 item)
    Ha Hr (lut_range _) Hf) as Hrs.
  unfold read_shaped in *. cbn [item_frame with_frame] in Hrs. by rewrite Hid in Hrs.
Qed.

Lemma read_block_shaped start num max func fid len f :
  0 <= num <= 112 -> start <= max -> shaped func fid len f ->
  yields (read_block lib start num max f) (fun r => exists len, 1 <= len <= 113 /\ shaped func fid len r.2).
Proof.
  intros Hnum Hstart Hf. unfold read_block.
  assert (Hn : 0 <= (if max - start <? num then max - start else num) <= 112)
    by (destruct (Z.ltb_spec (max - start) num); lia).
  set (n := if max - start <? num then max - start else num) in *. cbn zeta.
  change FRAME_MSAP_SCRATCHPAD_BLOCK_READ_CNF_HEADER_SIZE with 1.
  assert (Hs : shaped func fid (1 + n) (set_splen (1 + n) f))
    by (eapply shaped_splen; [unfold fits; lia|done]).
  destruct (0 <? n); [|apply yields_ret; exists (1 + n); split; [lia|done]].
  eapply (yields_bind _ _ (fun r => bytes r.2)).
  { apply yields_zoom, yields_zoom. intros w. apply read_bytes, slice_bytes, Hs. }
  intros r Hr. apply yields_ret. exists (1 + n). split; [lia|].
  apply shaped_bytes; [by apply Forall_take|done].
Qed.

Lemma scratchpadReadBlock_reply item :
  sized item ->
  yields (scratchpadReadBlock lib tmp0 allow_read item) (fun r =>
    exists len, 1 <= len <= 1 + MSAP_SCRATCHPAD_BLOCK_READ_MAX_NUM_BYTES /\
      reply WAPS_FUNC_MSAP_SCRATCHPAD_BLOCK_READ_CNF len item r).
Proof.
  intros H. pose proof H as [Hwf _]. pose proof Hwf as [Hl Hb]. change FRAME_SIZE with 126%nat in Hl.
  unfold scratchpadReadBlock. unfold MSAP_SCRATCHPAD_BLOCK_READ_MAX_NUM_BYTES,
    MSAP_SCRATCHPAD_BLOCK_MAX_NUM_BYTES.
  destruct (negb (_ =? SCRATCHPAD_BLOCK_READ_REQ_SIZE)).
  { apply yields_ret. exists 1. split; [lia|]. by apply reply_rejected. }
  apply yields_any. intros max. cbn zeta.
  set (i := Waps_item_init _ _ item).
  assert (Hi : shaped WAPS_FUNC_MSAP_SCRATCHPAD_BLOCK_READ_CNF (sfid (item_frame item))
    FRAME_MSAP_SCRATCHPAD_BLOCK_READ_CNF_HEADER_SIZE (item_frame i)) by by apply shaped_init.
  assert (Hnum : 0 <= pld 4 1 (item_frame item) < 256) by (apply field1_range; [done|cbn; lia]).
  eapply (yields_bind _ _ (fun r => exists len, 1 <= len <= 113 /\
    shaped WAPS_FUNC_MSAP_SCRATCHPAD_BLOCK_READ_CNF (sfid (item_frame item)) len r.2)).
  2: { intros r (len & Hlen & Hr). apply yields_ret. exists len. split; [lia|].
       apply reply_made; [lia|]. by apply shaped_pld. }
  assert (Hdone : forall res, exists len, 1 <= len <= 113 /\
    shaped WAPS_FUNC_MSAP_SCRATCHPAD_BLOCK_READ_CNF (sfid (item_frame item)) len (res : Z, item_frame i).2).
  { intros res. by exists 1. }
  destruct allow_read; cbn [negb]; [|apply yields_ret, Hdone].
  apply yields_any. intros [|]; [|apply yields_ret, Hdone].
  apply yields_any. intros [|]; [|apply yields_ret, Hdone]. cbn [negb].
  destruct (negb (_ =? 0) || _) eqn:Es; [apply yields_ret, Hdone|].
  destruct (negb (_ =? 0) || (112 <? _)) eqn:En; [apply yields_ret, Hdone|].
  destruct (max =? 0); [apply yields_ret, Hdone|]. bool_props.
  apply read_block_shaped with (len := FRAME_MSAP_SCRATCHPAD_BLOCK_READ_CNF_HEADER_SIZE); [lia..|done].
Qed.

(** The payload length of a request; the sleep requests do not check it. *)
Definition request_size (f : frame) : option Z :=
  let func := sfunc f in
  if bool_decide (func ∈ [WAPS_FUNC_MSAP_STACK_SLEEP_REQ; WAPS_FUNC_MSAP_STACK_SLEEP_STOP_REQ;
       WAPS_FUNC_MSAP_STACK_SLEEP_STATE_GET_REQ; WAPS_FUNC_MSAP_STACK_SLEEP_GOTOSLEEPINFO_REQ]) then None
  else Some (
    if func =? WAPS_FUNC_MSAP_STACK_START_REQ then START_REQ_SIZE
    else if func =? WAPS_FUNC_MSAP_APP_CONFIG_WRITE_REQ then INT_WRITE_REQ_SIZE
    else if func =? WAPS_FUNC_MSAP_ATTR_READ_REQ then READ_REQ_SIZE
    else if func =? WAPS_FUNC_MSAP_ATTR_WRITE_REQ then FRAME_WRITE_REQ_HEADER_SIZE + pld 2 1 f
    else if func =? WAPS_FUNC_MSAP_SCRATCHPAD_START_REQ then SCRATCHPAD_START_REQ_SIZE
    else if func =? WAPS_FUNC_MSAP_SCRATCHPAD_BLOCK_REQ
    then FRAME_MSAP_SCRATCHPAD_BLOCK_REQ_HEADER_SIZE + pld 4 1 f
    else if func =? WAPS_FUNC_MSAP_SCRATCHPAD_TARGET_WRITE_REQ then SCRATCHPAD_TARGET_WRITE_REQ_SIZE
    else if func =? WAPS_FUNC_MSAP_SCRATCHPAD_BLOCK_READ_REQ then SCRATCHPAD_BLOCK_READ_REQ_SIZE
    else if func =? WAPS_FUNC_MSAP_REMOTE_STATUS_REQ then REMOTE_STATUS_REQ_SIZE
    else if func =? WAPS_FUNC_MSAP_REMOTE_UPDATE_REQ then REMOTE_UPDATE_REQ_SIZE
    else if func =? WAPS_FUNC_MSAP_SINK_COST_WRITE_REQ then SINK_COST_WRITE_REQ_SIZE
    else if func =? WAPS_FUNC_MSAP_MAX_MSG_QUEUEING_TIME_WRITE_REQ then MAX_MSG_QUEUING_TIME_REQ_SIZE
    else if func =? WAPS_FUNC_MSAP_MAX_MSG_QUEUEING_TIME_READ_REQ then PRIORITY_SIZE
    else 0).

(** The payload length of a confirmation. *)
Definition confirmation_sized (func : Z) (f : frame) : Prop :=
  if func =? WAPS_FUNC_MSAP_ATTR_READ_REQ then
    splen f = FRAME_READ_CNF_HEADER_SIZE + pld 3 1 f /\ pld 3 1 f <= 40 /\
    (pld 0 1 f <> ATTR_SUCCESS -> pld 3 1 f = 0)
  else if func =? WAPS_FUNC_MSAP_SCRATCHPAD_BLOCK_READ_REQ then
    1 <= splen f <= 1 + MSAP_SCRATCHPAD_BLOCK_READ_MAX_NUM_BYTES
  else splen f =
    if func =? WAPS_FUNC_MSAP_APP_CONFIG_READ_REQ then INT_READ_CNF_SIZE
    else if func =? WAPS_FUNC_MSAP_SCRATCHPAD_STATUS_REQ then SCRATCHPAD_STATUS_CNF_SIZE
    else if func =? WAPS_FUNC_MSAP_SCRATCHPAD_TARGET_READ_REQ then SCRATCHPAD_TARGET_READ_CNF_SIZE
    else if func =? WAPS_FUNC_MSAP_GET_NBORS_REQ then NEIGHBORS_CNF_SIZE
    else if func =? WAPS_FUNC_MSAP_GET_INSTALL_QUALITY_REQ then INSTALL_QUALITY_CNF_SIZE
    else if func =? WAPS_FUNC_MSAP_SINK_COST_READ_REQ then SINK_COST_READ_CNF_SIZE
    else if func =? WAPS_FUNC_MSAP_STACK_SLEEP_STATE_GET_REQ then SLEEP_STATE_RSP_SIZE
    else if func =? WAPS_FUNC_MSAP_STACK_SLEEP_GOTOSLEEPINFO_REQ then SLEEP_LATEST_GOTOSLEEP_RSP_SIZE
    else if func =? WAPS_FUNC_MSAP_MAX_MSG_QUEUEING_TIME_READ_REQ then MAX_MSG_QUEUING_TIME_READ_CNF_SIZE
    else SIMPLE_CNF_SIZE.

(** What the dispatch promises for a request of function [func]. *)
Definition answered (func : Z) (item : waps_item_t) (r : bool * waps_item_t) : Prop :=
  sized r.2 /\ sfid (item_frame r.2) = sfid (item_frame item) /\
  (r.1 = true -> WapsFunc_isMsapRequest func = true /\ sfunc (item_frame r.2) = func + 0x80 /\
    confirmation_sized func (item_frame r.2)).

Lemma reply_answered func cnf len item r :
  reply cnf len item r -> WapsFunc_isMsapRequest func = true -> cnf = func + 0x80 ->
  (forall f, splen f = len -> confirmation_sized func f) -> answered func item r.
Proof.
  intros (H1 & H2 & H3) Hf -> Hc. split_and!; try done. intros Hok.
  destruct (H3 Hok) as (_ & ? & _ & ?). eauto.
Qed.

Lemma read_answered item r :
  sized item ->
  (r = (false, item) \/ r.1 = true /\ exists res size, is_u8 res /\ 0 <= size <= 40 /\
     read_shaped (pld 0 2 (item_frame item)) res size item (item_frame r.2)) ->
  answered WAPS_FUNC_MSAP_ATTR_READ_REQ item r.
Proof.
  intros H [->|(Hok & res & size & Hr & Hs & (Hwf & Hfu & Hfid & Hl) & E0 & E1 & E3)]; [done|].
  assert (Hsz : pld 3 1 (item_frame r.2) <= 40) by (rewrite E3; destruct (_ =? _); lia).
  split_and!; [split; [done|]|done|].
  - rewrite Hl, <- E3. unfold FRAME_READ_CNF_HEADER_SIZE. lia.
  - intros _. split_and!; try done. unfold confirmation_sized. rewrite Z.eqb_refl.
    split_and!; [by rewrite Hl, <- E3|done|].
    intros Hne. rewrite E3, <- E0. by rewrite (proj2 (Z.eqb_neq _ _) Hne).
Qed.

(** The next test of the dispatcher, and a handler that has a reply lemma. *)
Ltac branch H func :=
  lazymatch goal with
  | |- yields (if func =? ?c then _ else _) _ => destruct (Z.eqb_spec func c) as [->|_]
  end.
Ltac by_reply L H :=
  eapply yields_conseq; [by apply L|]; intros r Hr; eapply reply_answered; by try exact Hr.

Lemma handleFrame_answered item :
  sized item ->
  yields (Msap_handleFrame lib tmp0 allow_read item) (answered (sfunc (item_frame item)) item).
Proof.
  intros H. unfold Msap_handleFrame. set (func := sfunc (item_frame item)). clearbody func.
  branch H func; [by_reply stackStart_reply H|].
  branch H func; [by_reply stackStop_reply H|].
  branch H func; [by_reply writeInterest_reply H|].
  branch H func; [by_reply readInterest_reply H|].
  branch H func; [eapply yields_conseq; [by apply attrRead_reply|intros r; by apply read_answered]|].
  branch H func; [by_reply attrWrite_reply H|].
  branch H func; [by_reply poll_reply H|].
  branch H func; [by_reply scratchpadStart_reply H|].
  branch H func; [by_reply scratchpadBlock_reply H|].
  branch H func; [by_reply scratchpadStatus_reply H|].
  branch H func; [by_reply scratchpadSetUpdate_reply H|].
  branch H func; [by_reply scratchpadClear_reply H|].
  branch H func; [by_reply scratchpadWriteTarget_reply H|].
  branch H func; [by_reply scratchpadReadTarget_reply H|].
  branch H func.
  { eapply yields_conseq; [by apply scratchpadReadBlock_reply|]. intros r (len & Hlen & Hr).
    eapply reply_answered; [exact Hr|done..|]. intros f Hf. by rewrite <- Hf in Hlen. }
  branch H func; [by_reply remoteStatus_reply H|].
  branch H func; [by_reply remoteUpdate_reply H|].
  branch H func; [by_reply getNbors_reply H|].
  branch H func; [by_reply startScanNbors_reply H|].
  branch H func; [by_reply getInstallQuality_reply H|].
  branch H func; [by_reply writeSinkCost_reply H|].
  branch H func; [by_reply readSinkCost_reply H|].
  branch H func; [by_reply sleep_request_reply H|].
  branch H func; [by_reply sleep_stop_reply H|].
  branch H func; [by_reply sleep_state_reply H|].
  branch H func; [by_reply sleep_gotosleepinfo_reply H|].
  branch H func; [by_reply queuing_write_reply H|].
  branch H func; [by_reply queuing_read_reply H|].
  by apply yields_ret.
Qed.

(** Unfold one handler down to its test of the size. *)
Ltac by_size Hne :=
  unfold stackStart, stackStop, writeInterest, readInterest, attrReadReq, attrWriteReq, pollRequest,
    scratchpadStart, scratchpadBlock, scratchpadStatus, scratchpadSetUpdate, scratchpadClear,
    scratchpadWriteTarget, scratchpadReadTarget, scratchpadReadBlock, remoteStatus, remoteUpdate,
    getNbors_req, startScanNbors_req, getInstallQuality, writeSinkCost, readSinkCost,
    max_msg_queuing_time_write_req, max_msg_queuing_time_read_req;
  cbn zeta; rewrite ?bindE;
  lazymatch goal with
  | |- context [splen ?f =? ?n] => replace (splen f =? n) with false by (symmetry; exact Hne)
  end;
  split; reflexivity.

(** A request of another size is refused before the stack is called. *)
Lemma wrong_size item s n :
  request_size (item_frame item) = Some n -> splen (item_frame item) <> n ->
  (Msap_handleFrame lib tmp0 allow_read item s).1.1 = false /\
  (Msap_handleFrame lib tmp0 allow_read item s).2 = s.
Proof.
  unfold request_size, Msap_handleFrame. set (func := sfunc (item_frame item)). clearbody func.
  case_bool_decide as Hs; [done|]. intros [= Hn] Hne. subst n.
  assert (Hsleep : forall c, c ∈ [WAPS_FUNC_MSAP_STACK_SLEEP_REQ; WAPS_FUNC_MSAP_STACK_SLEEP_STOP_REQ;
     WAPS_FUNC_MSAP_STACK_SLEEP_STATE_GET_REQ; WAPS_FUNC_MSAP_STACK_SLEEP_GOTOSLEEPINFO_REQ] ->
     (func =? c) = false) by (intros c Hc; apply Z.eqb_neq; by intros ->).
  rewrite (Hsleep WAPS_FUNC_MSAP_STACK_SLEEP_REQ), (Hsleep WAPS_FUNC_MSAP_STACK_SLEEP_STOP_REQ),
    (Hsleep WAPS_FUNC_MSAP_STACK_SLEEP_STATE_GET_REQ),
    (Hsleep WAPS_FUNC_MSAP_STACK_SLEEP_GOTOSLEEPINFO_REQ) by (apply (bool_decide_unpack _); by vm_compute).
  clear Hs Hsleep.
  apply Z.eqb_neq in Hne.
  repeat (lazymatch goal with
  | |- ((if func =? ?c then _ else _) s).1.1 = _ /\ _ => destruct (Z.eqb_spec func c) as [E|_]
  end; [rewrite ?E in Hne; by_size Hne|]).
  done.
Qed.

Lemma not_a_request item s :
  WapsFunc_isMsapRequest (sfunc (item_frame item)) = false ->
  Msap_handleFrame lib tmp0 allow_read item s = ((false, item), s).
Proof.
  unfold Msap_handleFrame. set (func := sfunc (item_frame item)). clearbody func. intros Hf.
  repeat match goal with
  | |- context [func =? ?c] => destruct (Z.eqb_spec func c) as [->|?]; [by vm_compute in Hf|]
  end.
  done.
Qed.


End Replies.

(** ** Locked features *)

(** The bits that guard a request and the result of a denied one.  The zeros of
    a denied status reply count as the result 0; the neighbours are in
    [getNbors_denied] and the scratchpad's blocks are guarded by their tag too. *)
Definition guard (f : frame) : option (Z * Z) :=
  let func := sfunc f in
  if func =? WAPS_FUNC_MSAP_STACK_START_REQ then Some (LOCK_BITS_MSAP_STACK_START, APP_STACK_ACCESS_DENIED)
  else if func =? WAPS_FUNC_MSAP_STACK_STOP_REQ
  then Some (LOCK_BITS_MSAP_STACK_STOP, APP_STACK_STOP_RET_ACCESS_DENIED)
  else if func =? WAPS_FUNC_MSAP_APP_CONFIG_WRITE_REQ
  then Some (LOCK_BITS_MSAP_APP_CONFIG_WRITE, APP_CONFIG_WRITE_RET_ACCESS_DENIED)
  else if func =? WAPS_FUNC_MSAP_APP_CONFIG_READ_REQ
  then Some (LOCK_BITS_MSAP_APP_CONFIG_READ, APP_CONFIG_READ_RET_ACCESS_DENIED)
  else if func =? WAPS_FUNC_MSAP_ATTR_READ_REQ
  then if 1 <=? pld 0 2 f then if pld 0 2 f <=? 14
       then Some (read_permission (pld 0 2 f), ATTR_ACCESS_DENIED) else None else None
  else if func =? WAPS_FUNC_MSAP_ATTR_WRITE_REQ
  then if 1 <=? pld 0 2 f then if pld 0 2 f <=? 14
       then Some (LOCK_BITS_MSAP_ATTR_WRITE, ATTR_ACCESS_DENIED) else None else None
  else if func =? WAPS_FUNC_MSAP_SCRATCHPAD_START_REQ
  then Some (LOCK_BITS_MSAP_SCRATCHPAD_START, MSAP_SCRATCHPAD_START_ACCESS_DENIED)
  else if func =? WAPS_FUNC_MSAP_SCRATCHPAD_STATUS_REQ then Some (LOCK_BITS_MSAP_SCRATCHPAD_STATUS, 0)
  else if func =? WAPS_FUNC_MSAP_SCRATCHPAD_BOOTABLE_REQ
  then Some (LOCK_BITS_MSAP_SCRATCHPAD_START, MSAP_SCRATCHPAD_BOOTABLE_ACCESS_DENIED)
  else if func =? WAPS_FUNC_MSAP_SCRATCHPAD_CLEAR_REQ
  then Some (LOCK_BITS_MSAP_SCRATCHPAD_START, MSAP_SCRATCHPAD_CLEAR_ACCESS_DENIED)
  else if func =? WAPS_FUNC_MSAP_SCAN_NBORS_REQ
  then Some (LOCK_BITS_MSAP_SCAN_NBORS, MSAP_SCAN_NBORS_ACCESS_DENIED)
  else if func =? WAPS_FUNC_MSAP_SINK_COST_WRITE_REQ
  then Some (LOCK_BITS_MSAP_SINK_COST_WRITE, APP_STATE_SINK_COST_ACCESS_DENIED)
  else if func =? WAPS_FUNC_MSAP_SINK_COST_READ_REQ
  then Some (LOCK_BITS_MSAP_SINK_COST_READ, APP_STATE_SINK_COST_ACCESS_DENIED)
  else None.

Section Locks.
Context {W : Type} (lib : stack W) (tmp0 : Z) (allow_read : bool).
Context (key : W -> Z) (lock : W -> Z * Z) `{!Stable (stack_locks lib) key lock}.

Lemma msap_state_eta (s : state W) :
  Build_state (Persistent.Build_state (Persistent.m_persistent_image (persistent s)) (world s)) (checked s) = s.
Proof. by destruct s as [[img w] c]. Qed.

Lemma msap_in_world_stable {A} (m : st W A) x s : m (world s) = (x, world s) -> in_world m s = (x, s).
Proof.
  intros E. unfold in_world, in_persistent. rewrite !zoomE. unfold world in E. rewrite E.
  cbn [fst snd]. by rewrite msap_state_eta.
Qed.

Lemma msap_permitted_spec bits s :
  isFeaturePermitted lib bits s = (permitted key lock (world s) bits, s).
Proof. apply msap_in_world_stable. exact (isFeaturePermitted_spec (stack_locks lib) key lock (world s) bits). Qed.

Lemma first_byte v f : wf_frame f -> is_u8 v -> pld 0 1 (set_pld 0 1 v f) = v.
Proof.
  intros [Hl _] Hv. change FRAME_SIZE with 126%nat in Hl. frame_unfold.
  rewrite field_same by lia. by apply uwrap_small.
Qed.

Lemma pld_set_pld off n off' n' v f :
  (off + n <= off' \/ off' + n' <= off)%nat -> pld off n (set_pld off' n' v f) = pld off n f.
Proof. intros H. frame_unfold. by rewrite field_set_field_disj by lia. Qed.

Lemma simple_result func v item : wf_item item -> is_u8 v -> pld 0 1 (item_frame (simple_cnf func v item)) = v.
Proof. intros Hwf Hv. by apply first_byte, Hv; apply wf_item_init. Qed.

(** What a denied request must do. *)
Definition denied (r : (bool * waps_item_t) * state W) (code : Z) (s : state W) : Prop :=
  r.1.1 = true /\ pld 0 1 (item_frame r.1.2) = code /\ r.2 = s.

Lemma denied_simple func code item s :
  wf_item item -> is_u8 code -> denied (true, simple_cnf func code item, s) code s.
Proof. intros. split; [done|]. split; [by apply simple_result|done]. Qed.

Lemma denied_read a item s :
  sized item -> is_u16 a -> denied (true, read_response a ATTR_ACCESS_DENIED 0 item, s) ATTR_ACCESS_DENIED s.
Proof.
  intros [Hwf _] Ha. destruct (read_response_shaped a ATTR_ACCESS_DENIED 0 item Ha) as (_ & H & _); try done.
Qed.

Ltac by_size_eq H := apply Z.eqb_eq; exact H.
Ltac attr_in_range Hg item :=
  destruct (Z.leb_spec 1 (pld 0 2 (item_frame item))); [|discriminate Hg];
  destruct (Z.leb_spec (pld 0 2 (item_frame item)) 14); [|discriminate Hg]; injection Hg as <- <-.

Ltac by_denied Hsize Hp Hwf :=
  unfold stackStart, stackStop, writeInterest, readInterest, scratchpadStart, scratchpadClear,
    scratchpadSetUpdate, startScanNbors_req, writeSinkCost, readSinkCost; cbn zeta;
  lazymatch goal with
  | |- context [splen ?f =? ?n] => replace (splen f =? n) with true by (symmetry; exact Hsize)
  end; cbn [negb]; rewrite bindE, msap_permitted_spec, Hp; cbn [fst snd negb]; rewrite ?bindE;
  cbn [fst snd mret st_ret]; try (by apply denied_simple).

Lemma status_denied item s :
  sized item -> splen (item_frame item) = 0 ->
  permitted key lock (world s) LOCK_BITS_MSAP_SCRATCHPAD_STATUS = false ->
  denied (scratchpadStatus lib item s) 0 s.
Proof.
  intros [Hwf _] Hs Hp. unfold scratchpadStatus. rewrite Hs. cbn [negb Z.eqb].
  cbn zeta. rewrite bindE, msap_permitted_spec, Hp. cbn [fst snd]. rewrite bindE. cbn [fst snd mret st_ret].
  split; [done|]. split; [|done]. cbn [item_frame with_frame].
  set (f := item_frame (Waps_item_init _ _ _)).
  assert (Hf : length f = 126%nat) by by destruct (wf_item_init WAPS_FUNC_MSAP_SCRATCHPAD_STATUS_CNF
    SCRATCHPAD_STATUS_CNF_SIZE item Hwf) as [Hl _].
  unfold set_pld_bytes. do 27 (destruct f as [|? f]; [done|]). done.
Qed.

Lemma read_sink_denied item s :
  sized item -> splen (item_frame item) = 0 ->
  permitted key lock (world s) LOCK_BITS_MSAP_SINK_COST_READ = false ->
  denied (readSinkCost lib item s) APP_STATE_SINK_COST_ACCESS_DENIED s.
Proof.
  intros [Hwf _] Hs Hp. unfold readSinkCost. rewrite Hs. cbn [negb Z.eqb].
  rewrite bindE, msap_permitted_spec, Hp. cbn [fst snd negb]. rewrite bindE. cbn [fst snd mret st_ret].
  split; [done|]. split; [|done]. unfold mret, st_ret. cbn [fst snd item_frame with_frame on_frame].
  rewrite pld_set_pld by lia. apply first_byte; [by apply wf_item_init|done].
Qed.

Lemma read_config_denied item s :
  sized item -> splen (item_frame item) = 0 ->
  permitted key lock (world s) LOCK_BITS_MSAP_APP_CONFIG_READ = false ->
  denied (readInterest lib item s) APP_CONFIG_READ_RET_ACCESS_DENIED s.
Proof.
  intros H Hs Hp. pose proof H as [Hwf _]. unfold readInterest. cbn zeta. rewrite Hs. cbn [negb Z.eqb].
  rewrite bindE, msap_permitted_spec, Hp. cbn [fst snd negb]. rewrite bindE. cbn [fst snd mret st_ret].
  split; [done|]. split; [|done]. unfold mret, st_ret. cbn [fst snd item_frame with_frame on_frame].
  apply first_byte; [|done]. do 2 apply wf_set_field. apply wf_item_init.
  apply wf_blit; [apply Forall_take, slice_bytes, Hwf|exact Hwf].
Qed.

Lemma attr_index a : 1 <= a <= 14 -> (Z.of_nat (length m_attr_size_lut) <=? u32 (a - 1)) = false.
Proof.
  intros Ha. apply Z.leb_gt. rewrite uwrap_small by (unfold fits; lia).
  change (length m_attr_size_lut) with 14%nat. lia.
Qed.

Lemma attr_read_denied item s :
  sized item -> splen (item_frame item) = READ_REQ_SIZE -> 1 <= pld 0 2 (item_frame item) <= 14 ->
  permitted key lock (world s) (read_permission (pld 0 2 (item_frame item))) = false ->
  denied (attrReadReq lib tmp0 item s) ATTR_ACCESS_DENIED s.
Proof.
  intros H Hs Ha Hp. unfold attrReadReq. cbn zeta. rewrite Hs, Z.eqb_refl, attr_index by done. cbn [negb].
  rewrite bindE, msap_permitted_spec, Hp. cbn [fst snd negb]. apply denied_read; [done|unfold fits; lia].
Qed.

Lemma attr_write_denied item s :
  sized item -> splen (item_frame item) = FRAME_WRITE_REQ_HEADER_SIZE + pld 2 1 (item_frame item) ->
  1 <= pld 0 2 (item_frame item) <= 14 ->
  permitted key lock (world s) LOCK_BITS_MSAP_ATTR_WRITE = false ->
  denied (attrWriteReq lib item s) ATTR_ACCESS_DENIED s.
Proof.
  intros [Hwf _] Hs Ha Hp. unfold attrWriteReq. cbn zeta. rewrite Hs, Z.eqb_refl, attr_index by done.
  cbn [negb]. rewrite bindE, msap_permitted_spec, Hp. cbn [fst snd negb]. by apply denied_simple.
Qed.

(** a request whose feature is locked is answered with the denial of its
    kind and nothing else happens: neither the stack, nor the settings, nor the
    persistent area are touched. *)
Theorem msap_locked item s bits code :
  sized item -> request_size (item_frame item) = Some (splen (item_frame item)) ->
  guard (item_frame item) = Some (bits, code) -> permitted key lock (world s) bits = false ->
  denied (Msap_handleFrame lib tmp0 allow_read item s) code s.
Proof.
  intros H Hsize Hg Hp. pose proof H as [Hwf _].
  unfold request_size in Hsize. case_bool_decide as Hsl; [done|]. injection Hsize as Hsize.
  unfold guard, Msap_handleFrame in *. cbn zeta in *. clear Hsl.
  set (func := sfunc (item_frame item)) in *. clearbody func.
  symmetry in Hsize. apply Z.eqb_eq in Hsize.
  repeat (lazymatch goal with
  | |- denied ((if _ =? ?c then _ else _) _) _ _ => destruct (Z.eqb_spec func c) as [?E|_]
  end; [match goal with E : func = _ |- _ => rewrite ?E in Hsize; rewrite ?E in Hg end;
        first [discriminate Hg | injection Hg as <- <-;
               first [ by apply read_config_denied; [..|by_size_eq Hsize|] | by apply status_denied; [..|by_size_eq Hsize|]
                     | by apply read_sink_denied; [..|by_size_eq Hsize|] | by_denied Hsize Hp Hwf]
              | attr_in_range Hg item; first [apply attr_read_denied | apply attr_write_denied]; try done; by_size_eq Hsize]|]).
  discriminate Hg.
Qed.

(** Neighbours are zeroed when denied, but not their number: the byte of the
    request's frame memory stays. *)
Lemma getNbors_denied item s :
  sized item -> splen (item_frame item) = 0 ->
  permitted key lock (world s) LOCK_BITS_MSAP_GET_NBORS = false ->
  denied (getNbors_req lib item s) (pld 0 1 (item_frame item)) s /\
  pld_bytes 1 104 (item_frame (getNbors_req lib item s).1.2) = repeat 0 104.
Proof.
  intros [Hwf _] Hs Hp. unfold getNbors_req. rewrite Hs. cbn [negb Z.eqb]. cbn zeta.
  rewrite bindE, msap_permitted_spec, Hp. unfold mret, st_ret. cbn [fst snd negb item_frame on_frame with_frame].
  set (f := item_frame (Waps_item_init _ _ item)).
  assert (Hl : length f = 126%nat) by by destruct (wf_item_init WAPS_FUNC_MSAP_GET_NBORS_CNF
    NEIGHBORS_CNF_SIZE item Hwf) as [Hl _].
  split.
  - split; [done|]. split; [|done]. cbn [fst snd item_frame on_frame with_frame]. unfold f, set_pld_bytes, pld.
    rewrite field_blit_disj by (cbn; lia). cbn [item_frame on_frame with_frame Waps_item_init with_cbs].
    frame_unfold. by rewrite !field_set_field_disj by lia.
  - unfold pld_bytes, set_pld_bytes. change (NEIGHBOR_ENTRY_SIZE * MSAP_MAX_NBORS)%nat with 104%nat.
    rewrite <- (repeat_length 0 104) at 1. apply slice_blit. rewrite repeat_length, Hl. cbn. lia.
Qed.

End Locks.

(** ** Writable attributes *)

Section Settings.
Context {W : Type} (lib : stack W) (tmp0 : Z) (allow_read : bool).
Context (key : W -> Z) (lock : W -> Z * Z) `{!Stable (stack_locks lib) key lock}.
Context (stored : W -> list Z) {HSt : Persistent.StorageWorks (stack_storage lib) stored}.

Lemma in_persistentE {A} (m : st (Persistent.state W) A) s :
  in_persistent m s = ((m (persistent s)).1, Build_state (m (persistent s)).2 (checked s)).
Proof. unfold in_persistent. by rewrite zoomE. Qed.

Lemma msap_appRes_u8 r : is_u8 (appRes2attrRes r).
Proof. unfold appRes2attrRes. by repeat case_match. Qed.

Lemma attr_write_step a item s :
  1 <= a <= 14 -> pld 0 2 (item_frame item) = a ->
  splen (item_frame item) = FRAME_WRITE_REQ_HEADER_SIZE + pld 2 1 (item_frame item) ->
  let size := nth (Z.to_nat (u32 (a - 1))) m_attr_size_lut 0 in
  let wr := writeAttr lib a (drop (HEADER + 3) (item_frame item)) size s in
  exists v s', attrWriteReq lib item s = ((true, simple_cnf WAPS_FUNC_MSAP_ATTR_WRITE_CNF v item), s') /\
    is_u8 v /\ (v = ATTR_SUCCESS -> size = pld 2 1 (item_frame item) /\ wr.1 = ATTR_SUCCESS /\ s' = wr.2).
Proof.
  intros Ha Ea Hl size wr. unfold attrWriteReq. cbn zeta.
  rewrite Hl, Z.eqb_refl, Ea, attr_index by done. cbn [negb].
  rewrite bindE, (msap_permitted_spec lib key lock). cbn [fst snd].
  destruct (permitted _ _ _ _); cbn [negb]; [|by eexists _, _].
  fold size. destruct (Z.eqb_spec size (pld 2 1 (item_frame item))); cbn [negb]; [|by eexists _, _].
  rewrite bindE. fold wr. eexists _, _. split; [reflexivity|]. split; [|done].
  unfold wr, writeAttr. rewrite bindE. apply msap_appRes_u8.
Qed.

Lemma attr_read_step a item s :
  a = pld 0 2 (item_frame item) -> 1 <= a <= 14 -> splen (item_frame item) = READ_REQ_SIZE ->
  permitted key lock (world s) (read_permission a) = true ->
  let size := nth (Z.to_nat (u32 (a - 1))) m_attr_size_lut 0 in
  let r := readAttr lib tmp0 a (item_frame item) size s in
  attrReadReq lib tmp0 item s = ((true, read_response a r.1.1 size (with_frame r.1.2 item)), r.2).
Proof.
  intros -> Ha Hs Hp size r. unfold attrReadReq. cbn zeta. rewrite Hs, Z.eqb_refl, attr_index by done.
  cbn [negb]. rewrite bindE, (msap_permitted_spec lib key lock), Hp. cbn [fst snd negb].
  by rewrite bindE.
Qed.

(** The bytes [4..] of the confirmation are those of the frame it was made of. *)
Lemma response_value a size n off item :
  wf_item item -> (4 <= off)%nat ->
  pld_bytes off n (item_frame (read_response a ATTR_SUCCESS size item)) = pld_bytes off n (item_frame item).
Proof.
  intros _ Hoff. unfold read_response. cbn [Z.eqb ATTR_SUCCESS].
  destruct (a =? MSAP_ATTR_SYSTEM_TIME);
    cbn [item_frame on_frame with_frame Waps_item_init with_cbs]; unfold pld_bytes;
    frame_unfold; unfold set_field; by rewrite !slice_blit_disj by (rewrite length_le_put; lia).
Qed.

Lemma low_bit l : Z.land (le_get (take 4 l)) MSAP_AUTOSTART = Z.b2z (Z.testbit (field 0 1 l) 0).
Proof.
  rewrite Z.bit0_mod. unfold MSAP_AUTOSTART. change 1 with (Z.ones 1). rewrite Z.land_ones by lia.
  change (2 ^ 1) with 2. unfold field, slice. rewrite drop_0.
  destruct l as [|b l]; [done|]. cbn [firstn le_get].
  assert (Heven : forall x, (b + 256 * x) mod 2 = b mod 2).
  { intros x. replace (256 * x) with (128 * x * 2) by lia. by apply Z_mod_plus_full. }
  by rewrite !Heven.
Qed.

(** The autostart flag. *)
Lemma write_autostart v b s :
  bytes v -> (1 <= length v)%nat -> le_get (take 1 v) = Z.b2z b ->
  exists s', writeAttr lib MSAP_ATTR_AUTOSTART v 1 s = (ATTR_SUCCESS, s') /\
    Z.testbit (field 0 1 (stored (world s'))) 0 = b.
Proof.
  intros Hb Hl Hv. unfold writeAttr. change (1 <=? 4) with true. cbn zeta iota.
  change (Z.to_nat 1) with 1%nat. rewrite Hv. change (MSAP_ATTR_AUTOSTART =? MSAP_ATTR_AUTOSTART) with true.
  assert (E1 : (1 <? Z.b2z b) = false) by by destruct b.
  assert (E2 : negb (Z.b2z b =? 0) = b) by by destruct b.
  cbn iota. rewrite E1, E2, bindE, in_persistentE.
  destruct (Persistent.set_bit_spec (stack_storage lib) stored 0 b (persistent s)) as (p' & E & Eo); [lia|].
  unfold Persistent.Persistent_setAutostart. rewrite E. eexists. split; [reflexivity|].
  unfold Persistent.observe in Eo. cbn [fst snd] in Eo. by injection Eo as <- _ _.
Qed.

Lemma invalid_autostart v s :
  1 < le_get (take 1 v) -> writeAttr lib MSAP_ATTR_AUTOSTART v 1 s = (ATTR_INV_VALUE, s).
Proof.
  intros Hv. unfold writeAttr. cbn zeta. change (1 <=? 4) with true. cbn iota.
  change (Z.to_nat 1) with 1%nat. by rewrite (proj2 (Z.ltb_lt _ _)).
Qed.

Lemma read_autostart f b s :
  Z.testbit (field 0 1 (stored (world s))) 0 = b ->
  readAttr lib tmp0 MSAP_ATTR_AUTOSTART f 1 s =
    ((ATTR_SUCCESS, set_pld_bytes 4 [Z.b2z b] f), s).
Proof.
  intros Hb. unfold readAttr. change (MSAP_ATTR_AUTOSTART =? MSAP_ATTR_MCAST_GROUPS) with false. cbn iota.
  rewrite bindE.
  assert (Er : read_tmp lib tmp0 MSAP_ATTR_AUTOSTART s = ((APP_RES_OK, Z.b2z b), s)).
  { unfold read_tmp.
    change (MSAP_ATTR_AUTOSTART =? MSAP_ATTR_STACK_STATUS) with false.
    change (MSAP_ATTR_AUTOSTART =? MSAP_ATTR_PDU_BUFF_USAGE) with false.
    change (MSAP_ATTR_AUTOSTART =? MSAP_ATTR_PDU_BUFF_CAPA) with false.
    change (MSAP_ATTR_AUTOSTART =? MSAP_ATTR_NBOR_COUNT) with false.
    change (MSAP_ATTR_AUTOSTART =? MSAP_ATTR_AUTOSTART) with true. cbn iota.
    rewrite bindE, (msap_in_world_stable _ (APP_RES_OK, take 4 (stored (world s)))).
    2: { apply (@Persistent.works_read W (stack_storage lib) stored _). cbn. lia. }
    cbn [fst snd]. unfold mret, st_ret. rewrite low_bit. by rewrite Hb. }
  rewrite Er. destruct b; reflexivity.
Qed.

(** The multicast groups. *)
Lemma write_groups v s :
  bytes v -> (40 <= length v)%nat ->
  exists s', writeAttr lib MSAP_ATTR_MCAST_GROUPS v 40 s = (ATTR_SUCCESS, s') /\
    slice 1 Persistent.GROUPS_SIZE (stored (world s')) = concat (Multicast.packed (take 40 v)).
Proof.
  intros Hb Hl. unfold writeAttr. cbn zeta.
  destruct (Multicast.setGroups_packed (stack_storage lib) stored (take 40 v) (persistent s)) as (p' & E & Hst).
  { by rewrite firstn_length_le. }
  { by apply Forall_take. }
  change (MSAP_ATTR_MCAST_GROUPS =? MSAP_ATTR_AUTOSTART) with false.
  change (MSAP_ATTR_MCAST_GROUPS =? MSAP_ATTR_AC_RANGE) with false.
  change (MSAP_ATTR_MCAST_GROUPS =? MSAP_ATTR_MCAST_GROUPS) with true. cbn iota.
  rewrite bindE, in_persistentE. change (MULTICAST_ADDRESS_AMOUNT * 4)%nat with 40%nat. rewrite E.
  by eexists.
Qed.

Lemma read_groups groups f s :
  length groups = 40%nat -> bytes groups -> wf_frame f ->
  slice 1 Persistent.GROUPS_SIZE (stored (world s)) = concat (Multicast.packed groups) ->
  exists groups' s', readAttr lib tmp0 MSAP_ATTR_MCAST_GROUPS f 40 s =
      ((ATTR_SUCCESS, set_pld_bytes 4 groups' f), s') /\ world s' = world s /\ length groups' = 40%nat /\
    bytes groups' /\ forall i, (i < MULTICAST_ADDRESS_AMOUNT)%nat ->
      Multicast.waddr i groups' = Multicast.waddr i groups mod 2 ^ 24.
Proof.
  intros Hl Hb [Hlf Hbf] Hst. unfold readAttr. rewrite Z.eqb_refl, bindE, in_persistentE.
  destruct (Multicast.getGroups_packed (stack_storage lib) stored groups
    (pld_bytes 4 (MULTICAST_ADDRESS_AMOUNT * 4) f) (persistent s)) as (g & p' & E & Hw & Hlg & Hbg & Hg); [done..| |done|].
  { rewrite Hl. apply length_slice. rewrite Hlf. cbn. lia. }
  rewrite E. exists g, (Build_state p' (checked s)). split; [done|]. split; [done|].
  split; [|by split; [apply Hbg, slice_bytes|]]. rewrite Hlg. apply length_slice. rewrite Hlf. cbn. lia.
Qed.

(** What an attribute of the persistent area reads as after it was written. *)
Definition reads_as (a : Z) (written read : list Z) : Prop :=
  length read = length written /\
  if a =? MSAP_ATTR_AUTOSTART then read = written
  else forall i, (i < MULTICAST_ADDRESS_AMOUNT)%nat ->
    Multicast.waddr i read = Multicast.waddr i written mod 2 ^ 24.

Lemma writes_then_reads a v f s size :
  a ∈ [MSAP_ATTR_AUTOSTART; MSAP_ATTR_MCAST_GROUPS] -> size = nth (Z.to_nat (u32 (a - 1))) m_attr_size_lut 0 ->
  bytes v -> (Z.to_nat size <= length v)%nat -> wf_frame f ->
  (writeAttr lib a v size s).1 = ATTR_SUCCESS ->
  let s' := (writeAttr lib a v size s).2 in
  exists value s2, readAttr lib tmp0 a f size s' = ((ATTR_SUCCESS, set_pld_bytes 4 value f), s2) /\
    world s2 = world s' /\ bytes value /\ reads_as a (take (Z.to_nat size) v) value.
Proof.
  intros Ha -> Hb Hl Hf. rewrite !elem_of_cons in Ha. destruct Ha as [->|[->|Ha]]; [| |by apply elem_of_nil in Ha].
  - change (nth _ m_attr_size_lut 0) with 1 in *. change (Z.to_nat 1) with 1%nat in *. intros Hok.
    destruct v as [|x v]; [cbn in Hl; lia|]. apply Forall_cons in Hb as [Hx Hb].
    destruct (Z.leb_spec x 1) as [Hx1|Hx1].
    + assert (exists b, x = Z.b2z b) as [b ->].
      { unfold fits in Hx. destruct (Z.eqb_spec x 0) as [->|]; [by exists false|]. exists true. cbn. lia. }
      destruct (write_autostart (Z.b2z b :: v) b s) as (s' & E & Eb); [by constructor|cbn; lia|by destruct b|].
      cbn zeta. rewrite E. cbn [snd]. rewrite (read_autostart f b s' Eb).
      eexists _, _. split; [done|]. split; [done|]. split; [by constructor|]. by split.
    + rewrite invalid_autostart in Hok; [done|]. change (1 < x + 256 * 0). lia.
  - change (nth _ m_attr_size_lut 0) with 40 in *. change (Z.to_nat 40) with 40%nat in *. intros _.
    destruct (write_groups v s Hb Hl) as (s' & E & Est). cbn zeta. rewrite E. cbn [snd].
    assert (Hl40 : length (take 40 v) = 40%nat) by by apply firstn_length_le.
    destruct (read_groups (take 40 v) f s' Hl40) as (g & s2 & Er & Hw & Hlg & Hbg & Hg); [by apply Forall_take|done..|].
    exists g, s2. split; [exact Er|]. split; [done|]. split; [done|]. by split; [rewrite Hl40|].
Qed.

(** The value of a write request and that of the confirmation of a read. *)
Lemma drop_room item size :
  sized item -> 0 <= size <= 40 -> (Z.to_nat size <= length (drop (HEADER + 3) (item_frame item)))%nat.
Proof.
  intros [[Hl _] _] Hs. rewrite length_drop, Hl. change (FRAME_SIZE - (HEADER + 3))%nat with 120%nat. lia.
Qed.

Lemma value_response a size value item :
  1 <= a <= 14 -> 0 <= size <= 40 -> bytes value -> sized item -> length value = Z.to_nat size ->
  let f := item_frame (read_response a ATTR_SUCCESS size
    (with_frame (set_pld_bytes 4 value (item_frame item)) item)) in
  pld 0 1 f = ATTR_SUCCESS /\ pld 3 1 f = size /\ pld_bytes 4 (Z.to_nat size) f = value.
Proof.
  intros Ha Hs Hb [[Hl Hbf] _] Hlv f. change FRAME_SIZE with 126%nat in Hl.
  set (i := with_frame (set_pld_bytes 4 value (item_frame item)) item).
  assert (Hwf : wf_item i) by (apply wf_blit; [done|by split]).
  destruct (read_response_shaped a ATTR_SUCCESS size i) as (_ & E0 & _ & E3); [unfold fits; lia|done..|].
  split; [exact E0|]. split; [exact E3|]. unfold f. fold i. rewrite response_value by (done || lia).
  unfold pld_bytes, i. cbn [item_frame with_frame]. unfold set_pld_bytes. rewrite <- Hlv.
  apply slice_blit. rewrite Hlv, Hl. cbn. lia.
Qed.

(** over a storage that works, a write of the autostart flag or of the
    multicast groups that is answered with success is read back by the next
    read request that is permitted: the confirmation carries the same number of
    bytes with the same value, the groups without their top byte. *)
Theorem msap_write_read item item2 s a :
  a ∈ [MSAP_ATTR_AUTOSTART; MSAP_ATTR_MCAST_GROUPS] -> sized item -> sized item2 ->
  sfunc (item_frame item) = WAPS_FUNC_MSAP_ATTR_WRITE_REQ ->
  sfunc (item_frame item2) = WAPS_FUNC_MSAP_ATTR_READ_REQ ->
  pld 0 2 (item_frame item) = a -> pld 0 2 (item_frame item2) = a ->
  splen (item_frame item) = FRAME_WRITE_REQ_HEADER_SIZE + pld 2 1 (item_frame item) ->
  splen (item_frame item2) = READ_REQ_SIZE ->
  let '((ok, item'), s') := Msap_handleFrame lib tmp0 allow_read item s in
  ok = true /\
  (pld 0 1 (item_frame item') = ATTR_SUCCESS ->
   permitted key lock (world s') LOCK_BITS_MSAP_ATTR_READ = true ->
   let '((ok2, item2'), s2) := Msap_handleFrame lib tmp0 allow_read item2 s' in
   let size := Z.to_nat (pld 2 1 (item_frame item)) in
   ok2 = true /\ world s2 = world s' /\ pld 0 1 (item_frame item2') = ATTR_SUCCESS /\
   pld 3 1 (item_frame item2') = pld 2 1 (item_frame item) /\
   reads_as a (pld_bytes 3 size (item_frame item)) (pld_bytes 4 size (item_frame item2'))).
Proof.
  intros Ha Hz Hz2 Hf Hf2 Ea Ea2 Hl Hl2.
  assert (Ha14 : 1 <= a <= 14 /\ read_permission a = LOCK_BITS_MSAP_ATTR_READ /\
    nth (Z.to_nat (u32 (a - 1))) m_attr_size_lut 0 <= 40)
    by (rewrite !elem_of_cons in Ha; destruct Ha as [->|[->|?%elem_of_nil]]; done).
  destruct Ha14 as (Ha14 & Hrp & H40). unfold Msap_handleFrame. rewrite Hf, Hf2.
  change (if WAPS_FUNC_MSAP_ATTR_WRITE_REQ =? _ then _ else _) with (attrWriteReq lib item).
  destruct (attr_write_step a item s Ha14 Ea Hl) as (v & s' & Ew & Hv & Hok). rewrite Ew.
  split; [done|]. rewrite simple_result by apply Hv || apply Hz. intros Hs Hp.
  destruct (Hok Hs) as (Hsz & Hwr & ->). clear Hok.
  change (if WAPS_FUNC_MSAP_ATTR_READ_REQ =? _ then _ else _) with (attrReadReq lib tmp0 item2).
  rewrite (attr_read_step a item2) by (done || by rewrite Hrp).
  pose proof (lut_range (Z.to_nat (u32 (a - 1)))) as Hlut.
  set (size := nth _ m_attr_size_lut 0) in *.
  destruct (writes_then_reads a (drop (HEADER + 3) (item_frame item)) (item_frame item2) s size Ha eq_refl)
    as (value & s2 & Er & Hw & Hbv & Hra); [apply Forall_drop, Hz|by apply drop_room|apply Hz2|done|].
  rewrite Er. cbn [fst snd]. split; [done|]. split; [done|].
  destruct (value_response a size value item2) as (E0 & E3 & Ev); [done..|rewrite (proj1 Hra); by apply firstn_length_le, drop_room|].
  rewrite E0, E3, <- Hsz, Ev. by split_and!.
Qed.

End Settings.

(** ** A concrete stack

    Its world is the lock bits, when a key is set, and the page of the storage;
    the stack is stopped and has two neighbours. *)

Definition demo_world : Type := option Z * list Z.
Definition demo_key (w : demo_world) : Z :=
  match w.1 with Some _ => APP_RES_OK | None => APP_RES_INVALID_CONFIGURATION end.
Definition demo_lock (w : demo_world) : Z * Z := (APP_RES_OK, default 0 w.1).
Definition const_world {A} (x : A) : st demo_world A := fun w => (x, w).

Definition demo_nbor (a type : Z) : app_lib_state_nbor_info_t :=
  {| nb_address := a; nb_last_update := 60; nb_link_reliability := 255; nb_norm_rssi := 200; nb_cost := 2;
     nb_channel := 7; nb_type := type; nb_tx_power := 8; nb_rx_power := 100 |}.

Definition demo_stack : stack demo_world :=
  {| stack_locks := {| getFeatureLockKey := fun w => (demo_key w, w);
                       getFeatureLockBits := fun _ w => (demo_lock w, w) |};
     stack_storage := {| Persistent.readPersistent := fun _ n w =>
                           ((APP_RES_OK, take n (Persistent.page_image w.2)), w);
                         Persistent.writePersistent := fun img w => (APP_RES_OK, (w.1, img)) |};
     DS_Enable := const_world tt; Stack_State_startStack := const_world APP_RES_INVALID_CONFIGURATION;
     getStackState := const_world 1; getNumBuffers := const_world 16;
     getNumFreeBuffers := fun _ => const_world (APP_RES_OK, 10);
     getRouteInfo := fun _ => const_world (APP_RES_OK, 1);
     getAcRange := fun _ => const_world (APP_RES_OK, (2000, 8000));
     setAcRange := fun _ _ => const_world APP_RES_OK;
     getAcRangeLimits := fun _ => const_world (APP_RES_OK, (2000, 8000));
     getAccessCycle := fun _ => const_world (APP_RES_OK, 4000);
     readAppConfig := fun old => const_world (APP_LIB_DATA_APP_CONFIG_RES_INVALID_APP_CONFIG, old);
     writeDiagnosticInterval := fun _ => const_world APP_LIB_DATA_APP_CONFIG_RES_SUCCESS;
     Shared_Appconfig_setAppConfig := fun _ => const_world SHARED_APP_CONFIG_RES_OK;
     setSinkCost := fun _ => const_world APP_RES_OK; getSinkCost := fun _ => const_world (APP_RES_OK, 0);
     getNbors := fun n => const_world (APP_RES_OK, take n [demo_nbor 0x11 0; demo_nbor 0x12 2]);
     startScanNbors := const_world APP_RES_OK; getInstallQual := fun _ => const_world (0, (0, 0));
     setMaxMsgQueuingTime := fun _ _ => const_world APP_RES_OK;
     getMaxMsgQueuingTime := fun _ _ => const_world (APP_RES_OK, 600);
     otap_clear := const_world tt; otap_begin := fun _ _ => const_world APP_RES_OK;
     otap_write := fun _ _ _ => const_world APP_LIB_OTAP_WRITE_RES_OK;
     otap_read := fun _ n _ => const_world (APP_RES_OK, repeat 0xff (Z.to_nat n));
     otap_getNumBytes := const_world 128; otap_getCrc := const_world 0x1234; otap_getSeq := const_world 1;
     otap_getType := const_world 1; otap_getStatus := const_world 0;
     getProcessedNumBytes := const_world 128; getProcessedCrc := const_world 0x1234;
     getProcessedSeq := const_world 1; getProcessedAreaId := const_world 0;
     setToBeProcessed := const_world APP_RES_OK;
     setTargetScratchpadAndAction := fun _ _ _ _ => const_world APP_RES_OK;
     getTargetScratchpadAndAction := const_world (APP_RES_OK, (1, 0x1234, 2, 0));
     getStackFirmwareVersion := const_world (5, 3, 0, 0); sleepStackforTime := fun _ _ => const_world APP_RES_OK;
     wakeupStack := const_world APP_RES_OK; getSleepState := const_world false;
     getStackWakeup := const_world 0; getSleepLatestGotosleep := const_world 0 |}.

#[export] Instance msap_demo_stable : Stable (stack_locks demo_stack) demo_key demo_lock.
Proof. by constructor. Qed.

#[export] Instance demo_storage : Persistent.StorageWorks (stack_storage demo_stack)
  (fun w => Persistent.page_image w.2).
Proof.
  constructor.
  - intros w. apply (@Persistent.works_size _ _ _ Persistent.page_works w.2).
  - intros w. apply (@Persistent.works_bytes _ _ _ Persistent.page_works w.2).
  - done.
  - intros img w Hl Hb. exists (w.1, img). split; [done|].
    destruct (@Persistent.works_write _ _ _ Persistent.page_works img w.2 Hl Hb) as (w' & [= <-] & E).
    exact E.
Qed.

#[export] Instance demo_ok : StackOk demo_stack.
Proof.
  constructor.
  - done.
  - intros. by apply bytes_repeat.
  - intros old n w. apply Forall_take, (@Persistent.works_bytes _ _ _ Persistent.page_works w.2).
  - intros n w. change (length (take n [demo_nbor 0x11 0; demo_nbor 0x12 2]) <= n)%nat.
    rewrite length_take. lia.
Qed.

Definition demo_state (lock : option Z) : state demo_world :=
  Build_state (Persistent.Build_state [] (lock, [])) never_checked.

Lemma sized_request func payload :
  is_u8 func -> bytes payload -> (length payload <= 123)%nat -> sized (request func payload).
Proof.
  intros Hf Hb Hl. split; [by apply request_wf|].
  change (Z.of_nat (length payload) + 256 * 0 <= 123). lia.
Qed.


(** With a key and no bits, the stack is not started. *)
Lemma msap_locked_witness :
  let item := request WAPS_FUNC_MSAP_STACK_START_REQ [1] in
  denied (Msap_handleFrame demo_stack 0 true item (demo_state (Some 0))) APP_STACK_ACCESS_DENIED
    (demo_state (Some 0)).
Proof.
  apply (msap_locked demo_stack 0 true demo_key demo_lock _ _ LOCK_BITS_MSAP_STACK_START);
    [|by vm_compute..].
  apply sized_request; [done|apply (bool_decide_unpack _); by vm_compute|cbn; lia].
Defined.

(** Autostart is set and read. *)
Lemma msap_write_read_witness :
  let item := request WAPS_FUNC_MSAP_ATTR_WRITE_REQ [6; 0; 1; 1] in
  let item2 := request WAPS_FUNC_MSAP_ATTR_READ_REQ [6; 0] in
  let s' := (Msap_handleFrame demo_stack 0 true item (demo_state None)).2 in
  pld_bytes 4 1 (item_frame (Msap_handleFrame demo_stack 0 true item2 s').1.2) = [1].
Proof.
  pose proof (msap_write_read demo_stack 0 true demo_key demo_lock (fun w => Persistent.page_image w.2)
    (request WAPS_FUNC_MSAP_ATTR_WRITE_REQ [6; 0; 1; 1]) (request WAPS_FUNC_MSAP_ATTR_READ_REQ [6; 0])
    (demo_state None) MSAP_ATTR_AUTOSTART ltac:(apply (bool_decide_unpack _); by vm_compute)
    ltac:(apply sized_request; [done|apply (bool_decide_unpack _); by vm_compute|cbn; lia])
    ltac:(apply sized_request; [done|apply (bool_decide_unpack _); by vm_compute|cbn; lia])
    eq_refl eq_refl eq_refl eq_refl eq_refl eq_refl) as H.
  cbn zeta. destruct (Msap_handleFrame _ _ _ (request WAPS_FUNC_MSAP_ATTR_WRITE_REQ _) _)
    as [[ok item'] s'] eqn:E. cbn [fst snd].
  destruct H as [_ H].
  assert (Ei : item' = (Msap_handleFrame demo_stack 0 true (request WAPS_FUNC_MSAP_ATTR_WRITE_REQ
    [6; 0; 1; 1]) (demo_state None)).1.2 /\ s' = (Msap_handleFrame demo_stack 0 true
    (request WAPS_FUNC_MSAP_ATTR_WRITE_REQ [6; 0; 1; 1]) (demo_state None)).2) by by rewrite E.
  destruct Ei as [Ei Es].
  specialize (H ltac:(rewrite Ei; by vm_compute) ltac:(rewrite Es; by vm_compute)).
  destruct (Msap_handleFrame _ _ _ _ s') as [[ok2 item2'] s2]. destruct H as (_ & _ & _ & _ & _ & H).
  exact H.
Defined.
