(* ===== verification/WapsWorld.v ===== *)
(** * What the engine does to the rest of the device

    The theorems of [WapsInv] hold for any world.  Here a client that has an
    invariant [P] on its world and on the log of the frames handed to the serial
    line gets it through every operation of the engine, when each call of the
    engine into the world keeps it ([EnvKeeps]). *)

From S2P Require Import Prelude Api WapsUart WapsFrames WapsServices Dsap Waps WapsInv.
Import LockBits.

(** [m] keeps [I], whatever it returns. *)
Abbreviation stays I m := (triple I m (fun _ => I)).

Lemma stays_bind {S A B} (I : S -> Prop) (m : st S A) (k : A -> st S B) :
  stays I m -> (forall x, stays I (k x)) -> stays I (x ← m; k x).
Proof. intros Hm Hk. by apply triple_skip. Qed.

Lemma stays_ret {S A} (I : S -> Prop) (x : A) : stays I (mret x).
Proof. by intros s. Qed.

Lemma stays_zoom {S T A} (I : S -> Prop) (get : S -> T) put (m : st T A) :
  (forall s, I s -> I (put (m (get s)).2 s)) -> stays I (zoom get put m).
Proof. intros H s Hs. rewrite zoomE. by apply H. Qed.

Create HintDb stays discriminated.

(** Prove a [stays] goal by the structure of the program. *)
Ltac stay :=
  repeat match goal with
  | |- triple _ (mbind _ _) _ => apply stays_bind; [|intros ?]
  | |- triple _ (mret _) _ => apply stays_ret
  | |- triple _ (match ?x with _ => _ end) _ => destruct x
  | |- triple _ (let _ := _ in _) _ => cbn zeta
  | |- triple _ _ _ => solve [eauto with stays | by intros ?]
  end.

Section Clients.
Context {W : Type} (E : env W) (P : W -> list (list Z * bool) -> Prop).

(** Every call into the world keeps the client's invariant; writing a frame
    extends the log. *)
Class EnvKeeps : Prop := {
  keeps_clock l : stays (fun w => P w l) (getTimestampCoarse (data_lib E));
  keeps_send_data l d b : stays (fun w => P w l) (Shared_Data_sendData (data_lib E) d b);
  keeps_buffers l x : stays (fun w => P w l) (getNumFreeBuffers (data_lib E) x);
  keeps_key l : stays (fun w => P w l) (getFeatureLockKey (lock_lib E));
  keeps_bits l x : stays (fun w => P w l) (getFeatureLockBits (lock_lib E) x);
  keeps_msap l x : stays (fun w => P w l) (Msap_handleFrame E x);
  keeps_csap l x : stays (fun w => P w l) (Csap_handleFrame E x);
  keeps_reboot l : stays (fun w => P w l) (reboot E);
  keeps_ready l : stays (fun w => P w l) (Shared_Data_readyToReceive E);
  keeps_address l : stays (fun w => P w l) (getNodeAddress E);
  keeps_config l : stays (fun w => P w l) (readAppConfig E);
  keeps_status l : stays (fun w => P w l) (getStackStatus E);
  keeps_write l f w : P w l -> P (Waps_hw_write E f w).2 (l ++ [(f, (Waps_hw_write E f w).1)]) }.

Context {HE : EnvKeeps}.

Definition client_ok (s : state W) : Prop := P (world s) (sent s).

Lemma dsap_stays l x : stays (fun w => P w l) (Dsap_handleFrame (data_lib E) (lock_lib E) x).
Proof.
  pose proof (keeps_clock l). pose proof (keeps_send_data l). pose proof (keeps_buffers l).
  pose proof (keeps_key l). pose proof (keeps_bits l).
  unfold Dsap_handleFrame, send_and_confirm, LockBits_isFeaturePermitted, LockBits_isKeySet. stay.
Qed.

Lemma received_stays l data dst x : stays (fun w => P w l) (Dsap_packetReceived (data_lib E) data dst x).
Proof. pose proof (keeps_clock l). unfold Dsap_packetReceived. stay. Qed.

Lemma delay_stays l x : stays (fun w => P w l) (Dsap_update_packet_delay (data_lib E) x).
Proof. pose proof (keeps_clock l). unfold Dsap_update_packet_delay. stay. Qed.

Lemma stays_in_world {A} (m : st W A) :
  (forall l, stays (fun w => P w l) m) -> stays client_ok (in_world m).
Proof.
  intros Hm s Hs. unfold in_world. pose proof (Hm (sent s) (world s) Hs) as H.
  by destruct (m (world s)).
Qed.

Hint Resolve stays_in_world dsap_stays received_stays delay_stays keeps_clock keeps_msap keeps_csap
  keeps_reboot keeps_ready keeps_address keeps_config keeps_status : stays.

Lemma reserve_stays type : stays client_ok (Waps_itemReserve type).
Proof. unfold Waps_itemReserve. stay. Qed.

Lemma free_stays i : stays client_ok (Waps_itemFree E i).
Proof. unfold Waps_itemFree. stay. Qed.

Lemma pre_cb_stays cb i : stays client_ok (run_pre_cb E cb i).
Proof. unfold run_pre_cb, queued_indications, now. destruct cb; stay. Qed.

Lemma write_stays f :
  stays client_ok (ok ← in_world (Waps_hw_write E f); _ ← log_sent f ok; mret ok).
Proof.
  intros s Hs. rewrite !bindE. unfold in_world, client_ok in *.
  pose proof (keeps_write (sent s) f (world s) Hs) as H. by destruct (Waps_hw_write E f (world s)).
Qed.

Hint Resolve reserve_stays free_stays pre_cb_stays write_stays : stays.

Lemma send_item_stays i : stays client_ok (prot_send_item E i).
Proof.
  unfold prot_send_item. apply stays_bind; [by intros s|]. intros x.
  apply stays_bind; [destruct (pre_cb x); stay|]. intros _. apply stays_bind; [by intros s|]. intros y.
  intros s Hs. pose proof (write_stays (take (HEADER + Z.to_nat (splen (item_frame y))) (item_frame y)) s Hs) as H.
  rewrite !bindE in *. cbn [snd fst mret st_ret] in H.
  destruct (negb _); [exact H|]. rewrite bindE. cbn [snd mret st_ret].
  assert (Hp : stays client_ok (match post_cb y with Some reboot_callback => in_world (reboot E) | None => mret tt end))
    by (destruct (post_cb y) as [[]|]; stay).
  apply (Hp _ H).
Qed.

Hint Resolve send_item_stays : stays.

Lemma send_indication_stays f : stays client_ok (send_indication E f).
Proof.
  unfold send_indication, next_indication, send_current, queued_indications, Waps_prot_updateIrqPin. stay.
Qed.

Lemma sendReply_stays : stays client_ok (Waps_protUart_sendReply E).
Proof.
  pose proof send_indication_stays. unfold Waps_protUart_sendReply, next_reply. stay.
Qed.

Lemma handle_request_stays i : stays client_ok (handle_request E i).
Proof.
  pose proof send_indication_stays.
  unfold handle_request, Waps_protUart_processResponse, process_request, add_reply, now. stay.
Qed.

Lemma frame_receive_stays data : stays client_ok (frame_receive E data).
Proof. unfold frame_receive, receive_request, wakeup_task, now. stay. Qed.

Lemma interrupts_stays l : stays client_ok (interrupts E l).
Proof. pose proof frame_receive_stays. induction l; cbn [interrupts]; stay. Qed.

Lemma callbacks_stay :
  (forall data, stays client_ok (data_cb E data)) /\
  (forall id src dst q a ok, stays client_ok (Waps_packetSent id src dst q a ok)) /\
  stays client_ok (app_config_received_cb E) /\
  (forall complete type, stays client_ok (on_scanned_nbors_cb complete type)).
Proof.
  split_and!; intros; unfold data_cb, Waps_packetSent, app_config_received_cb, on_scanned_nbors_cb,
    update_indication, add_indication, find_indication, Waps_prot_updateIrqPin; stay.
Qed.

Lemma init_stays n s : P (world s) (sent s) -> client_ok (Waps_init E n s).2.
Proof.
  enough (H : stays client_ok (Waps_init E n)) by apply H.
  unfold Waps_init, Msap_getStackStatusIndication, add_indication, Waps_prot_updateIrqPin. stay.
Qed.

End Clients.
