(* ===== verification/Dualmcu.v ===== *)
(** * The dual-MCU device

    The parts of [libraries/dualmcu] put together: the engine ([Waps]) with the
    three services ([Dsap], [Csap], [Msap]), the serial line and its power
    switch ([WapsUart]) over one world, as [libraries/dualmcu/dualmcu_lib.c]
    links them.  Bytes arrive in chunks at any point, also between the steps of
    the engine's task; the bytes the USART takes are logged. *)

From S2P Require Import Prelude Api WapsUart WapsFrames WapsServices Dsap Csap Msap MsapProofs.
From S2P Require Import Waps WapsInv WapsWorld.
Import LockBits.

(** ** The device *)

(** The libraries below: both services use the same stack, and the lock and the
    storage of the data service are those of the management service.  The data
    library and the clock are [data].  [overrun] is what reading the feature
    lock key leaves in the item: the code copies 16 bytes out of a variable of
    four. *)
Record libs (W : Type) := {
  mgmt : Msap.stack W;
  settings : Csap.stack W;
  data : data_env W;
  usart_sendBuffer : list Z -> st W Z;
  reboot_device : st W unit;
  readyToReceive : st W unit;
  ownAddress : st W (Z * Z);
  appConfig : st W (Z * list Z * Z);
  stackStatus : st W Z;
  overrun : waps_item_t -> waps_item_t }.

Arguments mgmt {W}. Arguments settings {W}. Arguments data {W}. Arguments usart_sendBuffer {W}.
Arguments reboot_device {W}. Arguments readyToReceive {W}. Arguments ownAddress {W}.
Arguments appConfig {W}. Arguments stackStatus {W}. Arguments overrun {W}.

(** [line] logs the bytes the USART took, oldest first. *)
Record dev (W : Type) := {
  area : Persistent.state W;
  checked : checked_t;
  power : Power.state;
  line : list Z }.

Arguments area {W}. Arguments checked {W}. Arguments power {W}. Arguments line {W}.
Arguments Build_dev {W}.

Definition uart {W} (d : dev W) : Uart.state := Power.uart (power d).

Section Device.
Context {W : Type} (L : libs W).
Context (tmp0 num_channels m_baudrate : Z) (otap_force_legacy allow_read : bool).

Definition at_world {A} (m : st W A) : st (dev W) A :=
  zoom (fun d => Persistent.world (area d))
    (fun w d => Build_dev (Persistent.Build_state (Persistent.m_persistent_image (area d)) w)
                  (checked d) (power d) (line d)) m.

Definition at_msap {A} (m : st (Msap.state W) A) : st (dev W) A :=
  zoom (fun d => Msap.Build_state (area d) (checked d))
    (fun s d => Build_dev (Msap.persistent s) (Msap.checked s) (power d) (line d)) m.

Definition at_csap {A} (m : st (Csap.state W) A) : st (dev W) A :=
  zoom (fun d => Csap.Build_state (area d) (power d))
    (fun s d => Build_dev (Csap.persistent s) (checked d) (Csap.power s) (line d)) m.

Definition at_power (f : Power.state -> Power.state) : st (dev W) unit :=
  modify (fun d => Build_dev (area d) (checked d) (f (power d)) (line d)).

Definition msap_handle (x : waps_item_t) : st (dev W) (bool * waps_item_t) :=
  at_msap (Msap.Msap_handleFrame (mgmt L) tmp0 allow_read x).

Definition csap_handle (x : waps_item_t) : st (dev W) (bool * waps_item_t) :=
  r ← at_csap (Csap.Csap_handleFrame (settings L) tmp0 num_channels m_baudrate otap_force_legacy x);
  mret (match r with Some r => r | None => (true, overrun L x) end).

(** [Waps_uart_send] over the USART: it is called with the bytes in the transmit
    buffer when they are complete. *)
Definition hw_write (f : list Z) : st (dev W) bool := fun d =>
  let w := Persistent.world (area d) in
  let '(ok, u) := Uart.Waps_uart_send (fun out => (usart_sendBuffer L out w).1) f (uart d) in
  match drop (length (Uart.log (uart d))) (Uart.log u) with
  | [Uart.SendBuffer out] =>
      let '(n, w) := usart_sendBuffer L out w in
      (ok, Build_dev (Persistent.Build_state (Persistent.m_persistent_image (area d)) w) (checked d)
             (Power.set_uart u (power d)) (line d ++ take (Z.to_nat n) out))
  | _ => (ok, Build_dev (area d) (checked d) (Power.set_uart u (power d)) (line d))
  end.

Definition device : env (dev W) :=
  {| data_lib := {| getTimestampCoarse := at_world (getTimestampCoarse (data L));
                    Shared_Data_sendData d b := at_world (Shared_Data_sendData (data L) d b);
                    Dsap.getNumFreeBuffers n := at_world (Dsap.getNumFreeBuffers (data L) n) |};
     lock_lib := {| getFeatureLockKey := at_world (getFeatureLockKey (Msap.stack_locks (mgmt L)));
                    getFeatureLockBits b := at_world (getFeatureLockBits (Msap.stack_locks (mgmt L)) b) |};
     Waps.Msap_handleFrame := msap_handle;
     Waps.Csap_handleFrame := csap_handle;
     Waps_hw_write := hw_write;
     reboot := at_world (reboot_device L);
     Shared_Data_readyToReceive := at_world (readyToReceive L);
     Waps.getNodeAddress := at_world (ownAddress L);
     Waps.readAppConfig := at_world (appConfig L);
     getStackStatus := at_world (stackStatus L) |}.

Abbreviation M := (st (state (dev W))).

Definition frames_delivered (s : state (dev W)) : list (list Z) := Uart.delivered (uart (world s)).

(** The USART's interrupt: bytes reach the line while its receiver is on, and
    every complete frame is handed to the engine. *)
Definition receive_chars (chars : list Z) : M unit :=
  on ← gets (fun s => Power.receiver_on (power (world s)));
  if (on : bool) then
    old ← gets frames_delivered;
    _ ← in_world (at_power (Power.receive chars));
    new ← gets frames_delivered;
    interrupts device (drop (length old) new)
  else mret tt.

Fixpoint chunks_received (l : list (list Z)) : M unit :=
  match l with
  | [] => mret tt
  | c :: l => _ ← receive_chars c; chunks_received l
  end.

(** The interrupt of the RX pin and the shutdown task of the power switch. *)
Definition edge_event (p : Power.state) : Power.state :=
  match Power.edge_irq p with Some _ => Power.uart_gpio_isr p | None => p end.
Definition shutdown_event (p : Power.state) : Power.state :=
  match Power.shutdown_task p with Some _ => Power.shutdown_uart p | None => p end.
Definition rx_edge : M unit := in_world (at_power edge_event).
Definition rx_shutdown : M unit := in_world (at_power shutdown_event).

(** What happens to the device: [Task isr] runs the engine's task, with the
    chunks [isr k] arriving at its [k]-th step. *)
Inductive happening :=
| Chars (chars : list Z)
| Task (isr : nat -> list (list Z))
| RxEdge
| RxShutdown
| Packet (data : app_lib_data_received_t)
| Sent (tracking_id src_ep dst_ep queue_time dst_addr : Z) (success : bool)
| Config
| ScanDone (complete : bool) (scan_type : Z).

Definition happen (e : happening) (s : state (dev W)) : state (dev W) :=
  match e with
  | Chars c => (receive_chars c s).2
  | Task isr => (exec_with device (fun k => chunks_received (isr k)) s).2
  | RxEdge => (rx_edge s).2
  | RxShutdown => (rx_shutdown s).2
  | Packet data => (data_cb device data s).2
  | Sent id src dst q a ok => (Waps_packetSent id src dst q a ok s).2
  | Config => (app_config_received_cb device s).2
  | ScanDone complete type => (on_scanned_nbors_cb complete type s).2
  end.

Definition life (es : list happening) (s : state (dev W)) : state (dev W) :=
  foldl (fun s e => happen e s) s es.

End Device.

(** ** The serial line under the engine *)

(** The frames the USART took. *)
Definition accepted (l : list (list Z * bool)) : list (list Z) :=
  omap (fun p => if p.2 : bool then Some p.1 else None) l.

Lemma accepted_app l1 l2 : accepted (l1 ++ l2) = accepted l1 ++ accepted l2.
Proof. apply omap_app. Qed.

Definition short (p : list Z * bool) : Prop := (length p.1 <= Uart.WAPS_MAX_FRAME_LENGTH)%nat.

(** The receiver is in the state of a reference receiver that only delivers
    legal frames, the transmit buffer is whole, and the line has carried the
    encoded frames that the USART took. *)
Definition line_ok {W} (d : dev W) (l : list (list Z * bool)) : Prop :=
  (exists r, Uart.rx_rel (uart d) r /\ Forall Uart.frame_legal (Uart.out r)) /\
  length (Uart.m_tx_buffer (uart d)) = Uart.WAPS_TX_BUFFER_SIZE /\
  (Forall short l -> line d = concat (Uart.wire <$> accepted l)).

Lemma line_ok_same {W} (d d' : dev W) l :
  uart d' = uart d -> line d' = line d -> line_ok d l -> line_ok d' l.
Proof. intros Hu Hl. unfold line_ok. by rewrite Hu, Hl. Qed.

(** The configuration service reaches the line only through the power switch,
    which leaves the UART's buffers alone. *)
Section CsapKeeps.
Context {W : Type} (lib : Csap.stack W) (tmp0 num_channels m_baudrate : Z) (force : bool).

Definition csap_uart (s : Csap.state W) : Uart.state := Power.uart (Csap.power s).

Lemma csap_persistent_keeps {A} (m : st (Persistent.state W) A) : keeps csap_uart (Csap.in_persistent m).
Proof. intros s. unfold Csap.in_persistent. by destruct (m (Csap.persistent s)). Qed.

Lemma csap_world_keeps {A} (m : st W A) : keeps csap_uart (Csap.in_world m).
Proof. apply csap_persistent_keeps. Qed.

Lemma power_reset_uart baud role p : Power.uart (Power.Waps_uart_powerReset baud role p) = Power.uart p.
Proof. unfold Power.Waps_uart_powerReset. by destruct (Power.is_autopower_in_use _ _). Qed.

Lemma csap_power_keeps baud role :
  keeps csap_uart (modify (fun s : Csap.state W => Csap.Build_state (Csap.persistent s)
    (Power.Waps_uart_powerReset baud (role s) (Csap.power s)))).
Proof. intros s. apply power_reset_uart. Qed.

Hint Resolve csap_persistent_keeps csap_world_keeps csap_power_keeps : keeps.

Lemma csap_read_keeps x : keeps csap_uart (Csap.attrReadReq lib tmp0 num_channels x).
Proof.
  unfold Csap.attrReadReq, Csap.isFeaturePermitted, Csap.readAttr, Csap.read_tmp, Csap.get_tmp,
    Csap.get_ok, Csap.fw_version, Csap.key_is_set. cbn zeta. keep.
Qed.

Lemma csap_write_keeps x : keeps csap_uart (Csap.attrWriteReq lib m_baudrate force x).
Proof.
  unfold Csap.attrWriteReq, Csap.write_guard, Csap.lock_bits_locked, Csap.write_permitted,
    Csap.isFeaturePermitted, Csap.writeAttr, Csap.set_attr, Csap.write_role, Csap.force_legacy,
    Csap.power_reset. cbn zeta. keep.
Qed.

Lemma csap_handle_keeps x :
  keeps csap_uart (Csap.Csap_handleFrame lib tmp0 num_channels m_baudrate force x).
Proof.
  pose proof csap_read_keeps. pose proof csap_write_keeps.
  unfold Csap.Csap_handleFrame, Csap.resetReq, Csap.reset_result, Csap.isFeaturePermitted. cbn zeta. keep.
Qed.
End CsapKeeps.

(** ** The services behind the engine's interfaces *)

Section Services.
Context {W : Type} (L : libs W).
Context (tmp0 num_channels m_baudrate : Z) (force allow_read : bool).
Context (key : W -> Z) (lock : W -> Z * Z).

Abbreviation dev_env := (device L tmp0 num_channels m_baudrate force allow_read).

(** What the libraries are documented to do: their buffers hold bytes, and the
    USART takes a whole buffer or nothing. *)
Class LibsOk : Prop := {
  libs_stack :: StackOk (mgmt L);
  libs_locks :: Stable (Csap.stack_locks (settings L)) key lock;
  libs_channels : is_u8 num_channels;
  libs_reserved n old w : bytes old -> bytes (Csap.getReservedChannels (settings L) n old w).1.2;
  libs_config w : bytes (appConfig L w).1.1.2;
  libs_usart out w : (usart_sendBuffer L out w).1 = 0 \/
                     (usart_sendBuffer L out w).1 = Z.of_nat (length out);
  libs_overrun x : sized x -> sized (overrun L x) }.

Context {HL : LibsOk}.

Lemma csap_sized x : sized x ->
  yields (Csap.Csap_handleFrame (settings L) tmp0 num_channels m_baudrate force x)
    (fun r => match r with Some r => sized r.2 | None => True end).
Proof.
  intros Hz. pose proof Hz as [Hwf _]. unfold Csap.Csap_handleFrame. cbn zeta.
  destruct (_ =? _); [apply (attrRead_sized _ _ _ key lock libs_channels libs_reserved _ Hz)|].
  assert (Hs : forall func v, sized (on_frame (set_pld 0 1 v) (Waps_item_init func SIMPLE_CNF_SIZE x))).
  { intros func v. apply sized_pld, sized_init; [done|unfold SIMPLE_CNF_SIZE; lia]. }
  destruct (_ =? _).
  { unfold Csap.attrWriteReq. cbn zeta. destruct (negb _); [by apply yields_ret|].
    do 2 (apply yields_any; intros ?). apply yields_ret. apply Hs. }
  destruct (_ =? _); [|by apply yields_ret].
  unfold Csap.resetReq. cbn zeta. destruct (negb _); [by apply yields_ret|].
  apply yields_any; intros ?. apply yields_ret. apply Hs.
Qed.

#[export] Instance device_ok : EnvOk dev_env.
Proof.
  constructor.
  - intros x d Hx. cbn [Waps.Msap_handleFrame device]. unfold msap_handle, at_msap.
    by apply (yields_zoom _ _ _ (fun r => sized r.2)), (yields_conseq _ _ _ (handleFrame_answered _ _ _ x Hx));
      intros r (H & _).
  - intros x d Hx. cbn [Waps.Csap_handleFrame device]. unfold csap_handle. rewrite bindE.
    cbn [fst mret st_ret]. unfold at_csap.
    pose proof (yields_zoom (fun d => Csap.Build_state (area d) (power d)) (fun s d => Build_dev
      (Csap.persistent s) (checked d) (Csap.power s) (line d)) _ _ (csap_sized x Hx) d) as H.
    destruct (zoom _ _ _ d).1 as [r|]; [done|]. by apply libs_overrun.
  - intros d. cbn [Waps.readAppConfig device]. unfold at_world. rewrite zoomE. apply libs_config.
Qed.

Lemma hw_write_long f d l :
  line_ok d l -> (Uart.WAPS_MAX_FRAME_LENGTH < length f)%nat ->
  line_ok (hw_write L f d).2 (l ++ [(f, (hw_write L f d).1)]).
Proof.
  intros ((r & Hr & Ho) & Ht & _) Hf. unfold hw_write.
  set (us := fun out => _).
  pose proof (Uart.send_rel us f _ _ Hr) as Hr'.
  destruct (Uart.send_only us f (uart d)) as (s1 & [E Hl] & Hs).
  assert (Ht' : length (Uart.m_tx_buffer (Uart.Waps_uart_send us f (uart d)).2) = Uart.WAPS_TX_BUFFER_SIZE)
    by (destruct Hs as [->|(out & ->)]; cbn [Uart.m_tx_buffer Uart.act]; by rewrite Hl).
  destruct (Uart.Waps_uart_send us f (uart d)) as [ok u]. cbn [snd] in *.
  assert (Hdone : forall w ln (b : bool), line_ok (Build_dev (W := W) w (checked d)
    (Power.set_uart u (power d)) ln) (l ++ [(f, b)])).
  { intros w ln b. split; [by exists r|]. split; [done|]. intros Hsh.
    apply Forall_app in Hsh as [_ Hsh]. apply Forall_cons in Hsh as [Hsh _]. unfold short in Hsh. cbn [fst] in Hsh. lia. }
  destruct (drop _ _) as [|[] [|]]; try apply Hdone.
  destruct (usart_sendBuffer L _ _) as [n w]. apply Hdone.
Qed.

Lemma hw_write_short f d l :
  line_ok d l -> (length f <= Uart.WAPS_MAX_FRAME_LENGTH)%nat ->
  line_ok (hw_write L f d).2 (l ++ [(f, (hw_write L f d).1)]).
Proof.
  intros ((r & Hr & Ho) & Ht & Hline) Hf. unfold hw_write.
  set (us := fun out => _).
  pose proof (Uart.send_rel us f _ _ Hr) as Hr'.
  destruct (Uart.send_only us f (uart d)) as (s1 & [_ Hl] & Hs).
  destruct (Uart.send_out us f (uart d) Hf Ht) as (idx & tx & E). rewrite E in *. cbn [snd] in *.
  cbn [Uart.log Uart.act Uart.with_tx]. rewrite drop_app_length.
  pose proof (libs_usart (Uart.wire f) (Persistent.world (area d))) as Hus. fold (us (Uart.wire f)) in Hus.
  destruct (usart_sendBuffer L (Uart.wire f) (Persistent.world (area d))) as [n w] eqn:Eu.
  assert (Hn : us (Uart.wire f) = n) by (unfold us; by rewrite Eu). rewrite Hn in *.
  cbn [fst snd]. split; [by exists r|]. split.
  { cbn [uart power Power.uart Power.set_uart]. destruct Hs as [Hs|(out & Hs)].
    - rewrite Hs. by rewrite Hl.
    - rewrite Hs. cbn [Uart.m_tx_buffer Uart.act]. by rewrite Hl. }
  intros Hsh. apply Forall_app in Hsh as [Hsh _]. cbn [line]. rewrite (Hline Hsh), accepted_app, fmap_app, concat_app.
  f_equal. destruct Hus as [->| ->].
  - destruct (Z.eqb_spec 0 (Z.of_nat (length (Uart.wire f)))) as [H0|_]; [|done].
    exfalso. unfold Uart.wire in H0. cbn [length] in H0. lia.
  - rewrite Z.eqb_refl, Nat2Z.id, firstn_all. cbn. by rewrite app_nil_r.
Qed.

#[export] Instance device_keeps : EnvKeeps dev_env line_ok.
Proof.
  assert (Hw : forall {A} (m : st W A) l, stays (fun d => line_ok d l) (at_world m)).
  { intros A m l. apply stays_zoom. intros d. by apply line_ok_same. }
  constructor; intros; try apply Hw.
  - apply stays_zoom. intros d. by apply line_ok_same.
  - apply stays_bind; [|intros ?; apply stays_ret]. apply stays_zoom. intros d. apply line_ok_same; [|done].
    apply (csap_handle_keeps (settings L) tmp0 num_channels m_baudrate force x
      (Csap.Build_state (area d) (power d))).
  - destruct (Nat.le_gt_cases (length f) Uart.WAPS_MAX_FRAME_LENGTH);
      [by apply hw_write_short|by apply hw_write_long].
Qed.

End Services.

(** ** The device *)

Section Life.
Context {W : Type} (L : libs W) (n : nat).
Context (tmp0 num_channels m_baudrate : Z) (force allow_read : bool).
Context (key : W -> Z) (lock : W -> Z * Z) `{HL : !LibsOk L num_channels key lock}.

Abbreviation dev_env := (device L tmp0 num_channels m_baudrate force allow_read).
Abbreviation M := (st (state (dev W))).

#[local] Existing Instance device_ok.
#[local] Existing Instance device_keeps.

(** The engine's invariant and the client's together. *)
Definition dev_inv (hr : list loc) (s : state (dev W)) : Prop := inv n hr [] s /\ client_ok line_ok s.

Lemma actions_uart l p : Power.uart (foldl (fun s a => Power.power_action a s) p l) = Power.uart p.
Proof.
  revert p. induction l as [|a l IH]; intros p; [done|]. cbn [foldl]. rewrite IH.
  destruct a; cbn; unfold Power.Waps_uart_keepPowerOn, Power.Waps_uart_powerOff; by repeat case_match.
Qed.

Lemma receive_tx c u : Uart.m_tx_buffer (Uart.waps_uart_receive c u) = Uart.m_tx_buffer u.
Proof.
  assert (Hw : forall ch v, Uart.m_tx_buffer (Uart.write_rx_buffer ch v) = Uart.m_tx_buffer v)
    by (intros ch v; unfold Uart.write_rx_buffer; by case_match).
  assert (H : forall ch v, Uart.m_tx_buffer (Uart.receive_char v ch) = Uart.m_tx_buffer v).
  { intros ch v. unfold Uart.receive_char, Uart.frame_completed. cbn zeta.
    repeat case_match; first [done | apply Hw]. }
  unfold Uart.waps_uart_receive. destruct (_ || _); [done|].
  assert (Hf : forall l v, Uart.m_tx_buffer (foldl Uart.receive_char v l) = Uart.m_tx_buffer v).
  { intros l. induction l as [|ch l IH]; intros v; [done|]. cbn. by rewrite IH, H. }
  by rewrite Hf.
Qed.

(** Anything that happens to the power switch keeps the line. *)
Lemma power_stays f s hr :
  (forall (d : dev W) l, line_ok d l -> line_ok (Build_dev (area d) (checked d) (f (power d)) (line d)) l) ->
  dev_inv hr s -> dev_inv hr (in_world (at_power (W := W) f) s).2.
Proof.
  intros Hf [Hi Hc]. split; [by apply (engine_inv_world n hr [])|].
  apply (Hf (world s) (sent s)), Hc.
Qed.

Lemma received_ok c (d : dev W) l :
  bytes c -> line_ok d l ->
  line_ok (Build_dev (area d) (checked d) (Power.receive c (power d)) (line d)) l.
Proof.
  intros Hb ((r & Hr & Ho) & Ht & Hl).
  destruct (Uart.receive_any_rel c _ _ Hr Hb) as (c' & Hc' & Hr').
  assert (E : Power.uart (Power.receive c (power d)) = Uart.waps_uart_receive c (uart d))
    by apply (actions_uart _ (Power.set_uart _ (power d))).
  split; [|split; [|done]]; unfold uart at 1; cbn [power]; rewrite E.
  - exists (Uart.ref_receive r c'). split; [done|]. apply Uart.ref_receive_legal; [done|apply Hr|done].
  - by rewrite receive_tx.
Qed.

Lemma delivered_legal (s : state (dev W)) : client_ok line_ok s -> Forall frame_ok (frames_delivered s).
Proof. intros ((r & Hr & Ho) & _). unfold frames_delivered. by rewrite (Uart.rel_out _ _ Hr). Qed.

Lemma chars_inv hr c :
  bytes c -> triple (dev_inv hr) (receive_chars L tmp0 num_channels m_baudrate force allow_read c)
    (fun _ => dev_inv hr).
Proof.
  intros Hb. unfold receive_chars. apply triple_skip; [by intros s|]. intros [|]; [|by intros s].
  apply triple_skip; [by intros s|]. intros old.
  apply triple_skip; [intros s; apply power_stays; intros d l; by apply received_ok|]. intros _.
  intros s [Hi Hc]. rewrite bindE. cbn [gets fst snd].
  pose proof (delivered_legal s Hc) as Hd. split.
  - apply (inv_interrupts dev_env n); [by apply Forall_drop|done].
  - by apply (interrupts_stays dev_env line_ok).
Qed.

Lemma chunks_inv hr l :
  Forall bytes l ->
  triple (dev_inv hr) (chunks_received L tmp0 num_channels m_baudrate force allow_read l)
    (fun _ => dev_inv hr).
Proof.
  induction 1 as [|c l Hc _ IH]; cbn [chunks_received]; [by intros s|].
  apply triple_skip; [by apply chars_inv|]. by intros _.
Qed.

Lemma both_inv {A} hr (m : M A) hr' :
  triple (inv n hr []) m (fun _ => inv n hr' []) -> stays (client_ok line_ok) m ->
  triple (dev_inv hr) m (fun _ => dev_inv hr').
Proof. intros H1 H2 s [Hi Hc]. split; [by apply H1|by apply H2]. Qed.

Lemma task_inv isr :
  (forall k, Forall bytes (isr k)) ->
  triple (dev_inv []) (exec_with dev_env
    (fun k => chunks_received L tmp0 num_channels m_baudrate force allow_read (isr k))) (fun _ => dev_inv []).
Proof.
  intros Hisr. apply (exec_rule dev_env dev_inv).
  - intros b c s [Hi Hc]. split; [|exact Hc]. by apply (inv_keeps n [] []).
  - intros k h. by apply chunks_inv.
  - intros s [Hi Hc]. pose proof (inv_read_request n [] [] s Hi) as H. cbn beta in H.
    rewrite app_nil_r in H. split; [exact H|].
    enough (Hs : stays (client_ok line_ok) (read_request (W := dev W))) by by apply Hs.
    unfold read_request. stay.
  - intros i. apply both_inv; [apply (inv_handle_request dev_env n)|apply (handle_request_stays dev_env line_ok)].
  - apply both_inv; [apply (inv_sendReply dev_env n)|apply (sendReply_stays dev_env line_ok)].
Qed.

Lemma edge_ok (d : dev W) l f :
  (forall p, Power.uart (f p) = Power.uart p \/ Power.uart (f p) = Uart.Waps_uart_clean (Power.uart p)) ->
  line_ok d l -> line_ok (Build_dev (area d) (checked d) (f (power d)) (line d)) l.
Proof.
  intros Hf ((r & Hr & Ho) & Ht & Hl). unfold line_ok, uart in *. cbn [power line].
  destruct (Hf (power d)) as [->| ->]; [split; [by exists r|done]|].
  split; [|done]. eexists. split; [by apply Uart.clean_rel|]. done.
Qed.

Lemma edge_uart p :
  Power.uart (edge_event p) = Power.uart p \/
  Power.uart (edge_event p) = Uart.Waps_uart_clean (Power.uart p).
Proof. left. unfold edge_event, Power.uart_gpio_isr. by repeat case_match. Qed.

Lemma shutdown_uart p :
  Power.uart (shutdown_event p) = Power.uart p \/
  Power.uart (shutdown_event p) = Uart.Waps_uart_clean (Power.uart p).
Proof.
  unfold shutdown_event, Power.shutdown_uart, Power.power_off.
  destruct (Power.shutdown_task p); [|auto]. destruct (Power.m_power_on p); auto.
Qed.

(** What the hardware and the stack may deliver. *)
Definition happening_ok (e : happening) : Prop :=
  match e with
  | Chars c => bytes c
  | Task isr => forall k, Forall bytes (isr k)
  | Packet data => 0 <= rx_num_bytes data <= 102 /\ bytes (rx_bytes data)
  | _ => True
  end.

Lemma happen_inv e s :
  happening_ok e -> dev_inv [] s -> dev_inv [] (happen L tmp0 num_channels m_baudrate force allow_read e s).
Proof.
  intros He Hs. destruct (callbacks_stay dev_env line_ok) as (Hd & Hp & Hc & Hscan).
  destruct e; cbn [happen].
  - by apply chars_inv.
  - by apply task_inv.
  - apply power_stays; [|done]. intros d l. apply edge_ok, edge_uart.
  - apply power_stays; [|done]. intros d l. apply edge_ok, shutdown_uart.
  - split; [apply (inv_step dev_env n (DataReceived data0)); [done|apply Hs]|].
    apply Hd, Hs.
  - split; [apply (inv_step dev_env n (PacketSent tracking_id src_ep dst_ep queue_time dst_addr success));
      [done|apply Hs]|]. apply Hp, Hs.
  - split; [apply (inv_step dev_env n AppConfig); [done|apply Hs]|]. apply Hc, Hs.
  - split; [apply (inv_step dev_env n (Scanned complete scan_type)); [done|apply Hs]|]. apply Hscan, Hs.
Qed.

Lemma life_inv es s :
  Forall happening_ok es -> dev_inv [] s ->
  dev_inv [] (life L tmp0 num_channels m_baudrate force allow_read es s).
Proof.
  intros Hes. revert s. induction Hes as [|e es He _ IH]; intros s Hs; [done|].
  cbn [life foldl]. by apply IH, happen_inv.
Qed.

Lemma host_decodes l :
  Forall (fun p => line_frame p.1) l ->
  Uart.ref_receive Uart.receiver0 (concat (Uart.wire <$> accepted l)) =
    {| Uart.acc := []; Uart.esc := false; Uart.out := accepted l |}.
Proof.
  induction l as [|[f ok] l IH] using rev_ind; intros Hl; [done|].
  apply Forall_app in Hl as [Hl Hf]. apply Forall_cons in Hf as [(Hb & Hlen & _) _]. cbn [fst] in *.
  rewrite accepted_app, fmap_app, concat_app, Uart.ref_receive_app, IH by done.
  destruct ok; [|by rewrite app_nil_r].
  change (concat (Uart.wire <$> accepted [(f, true)])) with (Uart.wire f ++ []). rewrite app_nil_r.
  by apply Uart.ref_wire.
Qed.

(** C1: the whole dual-MCU device, from its start, with the real services
    behind the engine and bytes, edges, time-outs and events of the stack
    arriving at any time, also in the middle of the task: no item of the pool
    is lost or used twice, every item holds a frame that fits, only legal
    frames are delivered to the engine, and a host that decodes the bytes on the line
    gets exactly the frames that the engine sent and the USART took, in order. *)
Theorem dualmcu_device s es :
  fresh s -> (WAPS_RESERVED_ITEMS < n)%nat -> line_ok (world s) [] -> Forall happening_ok es ->
  let s' := life L tmp0 num_channels m_baudrate force allow_read es (Waps_init dev_env n s).2 in
  places s' ≡ₚ seq 0 n /\ (forall i, sized (mem s' i)) /\
  Forall Uart.frame_legal (frames_delivered s') /\
  Uart.out (Uart.ref_receive Uart.receiver0 (line (world s'))) = accepted (sent s').
Proof.
  intros Hf Hn Hl Hes s'.
  assert (Hi : dev_inv [] s').
  { apply life_inv; [done|]. split; [by apply (inv_init dev_env n)|].
    apply (init_stays dev_env line_ok). destruct Hf as (_ & _ & _ & -> & _). exact Hl. }
  destruct Hi as [[H1 H2 H3 H4] Hc]. split; [|split; [exact H3|split]].
  - apply cnt_permutation. intros i. rewrite <- (H1 i). cbn [cnt]. lia.
  - by apply delivered_legal.
  - destruct Hc as (_ & _ & Hline). rewrite Hline.
    + by rewrite host_decodes.
    + apply (Forall_impl _ _ _ H4). intros p (_ & Hp & _). unfold short. exact (proj2 Hp).
Qed.

End Life.

(** ** A concrete device *)

Definition fixed {A} (x : A) : st demo_world A := fun w => (x, w).

Definition demo_settings : Csap.stack demo_world :=
  {| Csap.stack_locks := Msap.stack_locks demo_stack; Csap.stack_storage := Msap.stack_storage demo_stack;
     Csap.getNodeAddress := fixed (APP_RES_OK, 0x11); Csap.setNodeAddress := fun _ => fixed APP_RES_OK;
     Csap.getNetworkAddress := fixed (APP_RES_OK, 0x123456);
     Csap.setNetworkAddress := fun _ => fixed APP_RES_OK;
     Csap.getNetworkChannel := fixed (APP_RES_OK, 5); Csap.setNetworkChannel := fun _ => fixed APP_RES_OK;
     Csap.getNodeRole := fixed (APP_RES_OK, 0x11); Csap.setNodeRole := fun _ => fixed APP_RES_OK;
     Csap.getDataMaxNumBytes := fixed 102; Csap.getSeq := fixed 0;
     Csap.getStackFirmwareVersion := fixed (5, 3, 0, 0); Csap.getNumBuffers := fixed 16;
     Csap.getEncryptionKey := fixed APP_RES_OK; Csap.setEncryptionKey := fun _ => fixed APP_RES_OK;
     Csap.getAuthenticationKey := fixed APP_RES_OK; Csap.setAuthenticationKey := fun _ => fixed APP_RES_OK;
     Csap.getNetworkChannelLimits := fun _ => fixed (1, 40); Csap.getAppConfigNumBytes := fixed 80;
     Csap.getRadioInfo := fixed (1, 1); Csap.getOfflineScan := fun _ => fixed (APP_RES_OK, 600);
     Csap.setOfflineScan := fun _ => fixed APP_RES_OK; Csap.setFeatureLockBits := fun _ => fixed APP_RES_OK;
     Csap.setFeatureLockKey := fun _ => fixed APP_RES_OK;
     Csap.getReservedChannels := fun n _ => fixed (APP_RES_OK, repeat 0 (Z.to_nat n));
     Csap.setReservedChannels := fun _ _ => fixed APP_RES_OK;
     Csap.setTargetScratchpadAndAction := fun _ _ _ _ => fixed APP_RES_OK; Csap.resetAll := fixed APP_RES_OK |}.

Definition demo_libs : libs demo_world :=
  {| mgmt := demo_stack; settings := demo_settings;
     data := {| getTimestampCoarse := fixed 1000; Shared_Data_sendData := fun _ _ => fixed 0;
                Dsap.getNumFreeBuffers := fun _ => fixed 10 |};
     usart_sendBuffer := fun out => fixed (Z.of_nat (length out));
     reboot_device := fixed tt; readyToReceive := fixed tt; ownAddress := fixed (0, 0x11);
     appConfig := fixed (1, repeat 0 80, 30); stackStatus := fixed 0; overrun := fun x => x |}.

#[export] Instance demo_libs_ok : LibsOk demo_libs 40 demo_key demo_lock.
Proof.
  constructor; try done.
  - apply demo_ok.
  - intros n old w _. by apply bytes_repeat.
  - intros w. by apply bytes_repeat.
  - intros out w. by right.
Qed.

Definition demo_dev : dev demo_world :=
  {| area := Persistent.Build_state [] (None, []); checked := never_checked;
     power := {| Power.m_autopower_enabled := false; Power.m_power_on := Power.USART_POWER_OFF;
       Power.usart_enabled := true; Power.receiver_on := true; Power.edge_irq := None;
       Power.ds_disabled := false; Power.shutdown_task := None; Power.uart := Uart.idle0 |};
     line := [] |}.

Definition demo_start : state (dev demo_world) :=
  mk (fun _ => blank) [] [] [] [] 0 None None 5 false false false [] demo_dev.

(** The host asks for the autostart flag in two chunks, then polls. *)
Definition demo_life : list happening :=
  [Chars (take 4 (Uart.wire [0x0C; 7; 2; 6; 0])); Chars (drop 4 (Uart.wire [0x0C; 7; 2; 6; 0]));
   Task (fun k => if (k =? 2)%nat then [Uart.wire [0x04; 8; 0]] else []); Task (fun _ => [])].

Lemma demo_line : line_ok demo_dev [].
Proof.
  split; [|by split]. exists Uart.receiver0. split; [|done].
  by constructor.
Qed.

(** On the line: the flag, the answer to the poll, and the indication. *)
Lemma dualmcu_device_witness :
  let s' := life demo_libs 0 40 115200 true true demo_life
    (Waps_init (device demo_libs 0 40 115200 true true) 6 demo_start).2 in
  Uart.out (Uart.ref_receive Uart.receiver0 (line (world s'))) =
    [[0x8C; 7; 5; 0; 6; 0; 1; 1]; [0x84; 8; 1; 1]; [0x07; 5; 2; 0; 0]].
Proof.
  cbv zeta. destruct (dualmcu_device demo_libs 6 0 40 115200 true true demo_key demo_lock demo_start demo_life)
    as (_ & _ & _ & ->).
  - split_and!; try done. intros i. split; [apply blank_wf|]. by vm_compute.
  - unfold WAPS_RESERVED_ITEMS. lia.
  - apply demo_line.
  - assert (Hw : forall f, bool_decide (bytes (Uart.wire f)) = true -> bytes (Uart.wire f))
      by (intros f Hf; by apply bool_decide_eq_true in Hf).
    unfold demo_life. apply Forall_cons. split; [apply Forall_take, Hw; by vm_compute|].
    apply Forall_cons. split; [apply Forall_drop, Hw; by vm_compute|].
    apply Forall_cons. split; [|apply Forall_cons; split; [intros k; apply Forall_nil_2|apply Forall_nil_2]].
    intros k. destruct (k =? 2)%nat; [|apply Forall_nil_2].
    apply Forall_cons; split; [apply Hw; by vm_compute|apply Forall_nil_2].
  - by vm_compute.
Defined.
