(* ===== verification/SharedData.v ===== *)
(** * Shared data library

    Models [libraries/shared_data/shared_data.c]: the modules of an
    application share the data callbacks of the stack.  Received packets are
    offered to a linked list of filter items; sent packets are tracked in a
    table that maps the stack's tracking identifiers to those of the modules.

    An item is a structure of the application: its first word is the [next]
    pointer of [SlList], the rest is an entry of [items].  A callback of the
    application is an address; what it does is a [script] of the environment:
    it may change the world, call the library again, and returns a result.
    The exceptions are the multicast callbacks, which only answer.

    [delete_marked_items], [enable_reception_if_needed] and
    [Shared_Data_removeDataReceivedCb] call each other: the first two take the
    third as an argument, and [remove_n] ties the knot with fuel.
    [remove_n_fuel] shows that the fuel does not matter: the inner call is in a
    branch that [sl_list_remove] never lets the program take.  The loops over
    the list have fuel for one more element than there are items in memory. *)

From S2P Require Import Prelude Api SlList.

Abbreviation fn := positive.

Definition SHARED_DATA_UNUSED_ENDPOINT : Z := -1.
Definition ENDPOINT_MIN : Z := SHARED_DATA_UNUSED_ENDPOINT.
Definition ENDPOINT_MAX : Z := 255.
Definition SHARED_DATA_MAX_TRACKED_PACKET : nat := 16.

(** [shared_data_net_mode_e] *)
Definition SHARED_DATA_NET_MODE_UNICAST : Z := 0.
Definition SHARED_DATA_NET_MODE_BROADCAST : Z := 1.
Definition SHARED_DATA_NET_MODE_MULTICAST : Z := 2.
Definition SHARED_DATA_NET_MODE_ALL : Z := 3.

Definition IS_UNICAST (mode : Z) : bool := mode =? SHARED_DATA_NET_MODE_UNICAST.
Definition IS_BROADCAST (mode : Z) : bool := mode =? SHARED_DATA_NET_MODE_BROADCAST.
Definition IS_MULTICAST (mode : Z) : bool := mode =? SHARED_DATA_NET_MODE_MULTICAST.
Definition IS_ANYCAST (mode : Z) : bool := mode =? SHARED_DATA_NET_MODE_ALL.

Definition IS_MULTICAST_ADDRESS (a : Z) : bool := Z.land a 0xff000000 =? APP_ADDR_MULTICAST.
Definition IS_UNICAST_ADDRESS (a : Z) : bool :=
  negb (a =? APP_ADDR_BROADCAST) && negb (IS_MULTICAST_ADDRESS a).

Record shared_data_filter_t := {
  mode : Z;
  src_endpoint : Z;
  dest_endpoint : Z;
  multicast_cb : option fn }.

(** The words of an item after the [next] pointer: [reserved2] marks it for
    removal, [reserved3] tells that it has no space for packets. *)
Record shared_data_item_t := {
  reserved2 : bool;
  reserved3 : bool;
  cb : option fn;
  item_filter : shared_data_filter_t }.

Definition with_reserved2 (b : bool) (it : shared_data_item_t) : shared_data_item_t :=
  {| reserved2 := b; reserved3 := reserved3 it; cb := cb it; item_filter := item_filter it |}.
Definition with_reserved3 (b : bool) (it : shared_data_item_t) : shared_data_item_t :=
  {| reserved2 := reserved2 it; reserved3 := b; cb := cb it; item_filter := item_filter it |}.

(** [memset(item, 0, sizeof(shared_data_item_t))] *)
Definition item0 : shared_data_item_t :=
  {| reserved2 := false; reserved3 := false; cb := None;
     item_filter := {| mode := 0; src_endpoint := 0; dest_endpoint := 0; multicast_cb := None |} |}.

Record app_lib_data_sent_status_t := {
  status_dest_address : Z;
  queue_time : Z;
  status_tracking_id : Z;
  status_src_endpoint : Z;
  status_dest_endpoint : Z;
  success : bool }.

Record tracked_packet_item_t := { tracked_cb : option fn; tracked_id : Z }.

(** What a callback does: calls of the library (and the application's own
    writes to an item before it registers it), then a result. *)
Inductive call :=
| SetItem (p : loc) (c : fn) (f : shared_data_filter_t)
| AddCb (p : loc)
| ReadyCb (p : loc)
| RemoveCb (p : loc)
| SendCb (data : app_lib_data_to_send_t) (c : option fn).

Inductive script (W : Type) :=
| Return (f : W -> Z * W)
| Then (f : W -> call * W) (k : Z -> script W).
Arguments Return {W}.
Arguments Then {W}.

(** The list head [m_shared_data_head]. *)
Definition m_shared_data_head : loc := 1%positive.

Section SharedData.
Context {W : Type}.

(** The application's callbacks, and the calls of the stack. *)
Record env := {
  on_received : fn -> loc -> app_lib_data_received_t -> script W;
  on_sent : fn -> app_lib_data_sent_status_t -> script W;
  on_multicast : fn -> Z -> W -> bool * W;
  setDataReceivedCb : W -> W;
  registerGroupQuery : W -> W;
  setDataSentCb : W -> W;
  allowReception : bool -> W -> W;
  lib_sendData : app_lib_data_to_send_t -> W -> Z * W }.

Record state := {
  heap : mem;
  items : gmap loc shared_data_item_t;
  m_iterating_list : bool;
  m_tracked_packets : list tracked_packet_item_t;
  m_initialized : bool;
  world : W }.

Abbreviation M := (sf state).

Definition with_heap h s := {| heap := h; items := items s; m_iterating_list := m_iterating_list s;
  m_tracked_packets := m_tracked_packets s; m_initialized := m_initialized s; world := world s |}.
Definition with_items i s := {| heap := heap s; items := i; m_iterating_list := m_iterating_list s;
  m_tracked_packets := m_tracked_packets s; m_initialized := m_initialized s; world := world s |}.
Definition with_iterating b s := {| heap := heap s; items := items s; m_iterating_list := b;
  m_tracked_packets := m_tracked_packets s; m_initialized := m_initialized s; world := world s |}.
Definition with_tracked t s := {| heap := heap s; items := items s; m_iterating_list := m_iterating_list s;
  m_tracked_packets := t; m_initialized := m_initialized s; world := world s |}.
Definition with_initialized b s := {| heap := heap s; items := items s; m_iterating_list := m_iterating_list s;
  m_tracked_packets := m_tracked_packets s; m_initialized := b; world := world s |}.
Definition with_world w s := {| heap := heap s; items := items s; m_iterating_list := m_iterating_list s;
  m_tracked_packets := m_tracked_packets s; m_initialized := m_initialized s; world := w |}.

Definition in_world {A} (f : W -> A * W) : M A :=
  fun s => let '(x, w) := f (world s) in Some (x, with_world w s).

(** ** Memory *)

Definition list_fuel (s : state) : nat := S (size (items s)).

Definition load (p : loc) : M shared_data_item_t := reads (fun s => items s !! p).
Definition store (p : loc) (it : shared_data_item_t) : M unit :=
  _ ← load p; puts (fun s => with_items (<[p := it]> (items s)) s).
Definition update (p : loc) (f : shared_data_item_t -> shared_data_item_t) : M unit :=
  it ← load p; store p (f it).

Definition list_next (i : ptr) : M ptr := reads (fun s => sl_list_next (heap s) i).
Definition list_begin : M ptr := list_next (Some m_shared_data_head).
Definition list_contains (p : loc) : M Z :=
  reads (fun s => sl_list_contains (list_fuel s) (heap s) m_shared_data_head p).
Definition list_push_back (p : loc) : M unit :=
  h ← reads (fun s => sl_list_push_back (heap s) m_shared_data_head p); puts (with_heap h).
Definition list_remove (p : loc) : M ptr :=
  r ← reads (fun s => sl_list_remove (list_fuel s) (heap s) m_shared_data_head p);
  _ ← puts (with_heap r.2); mret r.1.

(** [memset] of an item, [next] included. *)
Definition clear_item (p : loc) : M unit :=
  _ ← store p item0;
  h ← reads (fun s => store_next (heap s) (Some p) None); puts (with_heap h).

(** ** The list of filters *)

(** [remove] is [Shared_Data_removeDataReceivedCb]. *)
Fixpoint delete_loop (remove : loc -> M unit) (fuel : nat) (i : ptr) : M unit :=
  match i with
  | None => mret tt
  | Some p =>
      match fuel with
      | O => fault
      | S fuel =>
          it ← load p;
          n ← list_next i;
          _ ← (if reserved2 it then remove p else mret tt);
          delete_loop remove fuel n
      end
  end.

Definition delete_marked_items (remove : loc -> M unit) : M unit :=
  _ ← list_begin;
  _ ← puts (with_iterating false);
  i ← list_begin;
  fuel ← asks list_fuel;
  delete_loop remove fuel i.

(** The loop of [enable_reception_if_needed]: is every item ready? *)
Fixpoint ready_loop (fuel : nat) (i : ptr) : M bool :=
  match i with
  | None => mret true
  | Some p =>
      match fuel with
      | O => fault
      | S fuel =>
          it ← load p;
          if reserved3 it then mret false
          else n ← list_next i; ready_loop fuel n
      end
  end.

Definition enable_reception_if_needed (E : env) (remove : loc -> M unit) : M unit :=
  i ← list_begin;
  _ ← puts (with_iterating true);
  fuel ← asks list_fuel;
  ready ← ready_loop fuel i;
  _ ← delete_marked_items remove;
  if (ready : bool) then in_world (fun w => (tt, allowReception E true w)) else mret tt.

Definition remove_body (E : env) (remove : loc -> M unit) (p : loc) : M unit :=
  iterating ← asks m_iterating_list;
  if (iterating : bool) then update p (with_reserved2 true)
  else
    r ← list_remove p;
    if decide (Some p = r) then mret tt
    else
      it ← load p;
      _ ← (if reserved3 it then enable_reception_if_needed E remove else mret tt);
      clear_item p.

Fixpoint remove_n (E : env) (n : nat) (p : loc) : M unit :=
  match n with
  | O => fault
  | S n => remove_body E (remove_n E n) p
  end.

Definition Shared_Data_removeDataReceivedCb (E : env) : loc -> M unit := remove_n E 1.

Definition Shared_Data_readyToReceive (E : env) (p : loc) : M Z :=
  it ← load p;
  _ ← (if reserved3 it then
         _ ← update p (with_reserved3 false);
         enable_reception_if_needed E (Shared_Data_removeDataReceivedCb E)
       else mret tt);
  mret APP_RES_OK.

(** The parameter checks of [Shared_Data_addDataReceivedCb]. *)
Definition valid_filter (f : shared_data_filter_t) : bool :=
  negb ((SHARED_DATA_NET_MODE_ALL <? mode f)
        || (dest_endpoint f <? ENDPOINT_MIN) || (ENDPOINT_MAX <? dest_endpoint f)
        || (src_endpoint f <? ENDPOINT_MIN) || (ENDPOINT_MAX <? src_endpoint f))
  && negb (negb (mode f =? SHARED_DATA_NET_MODE_ALL) && negb (mode f =? SHARED_DATA_NET_MODE_MULTICAST)
           && bool_decide (multicast_cb f <> None)).

Definition Shared_Data_addDataReceivedCb (p : loc) : M Z :=
  initialized ← asks m_initialized;
  if negb initialized then mret APP_RES_RESOURCE_UNAVAILABLE
  else
    it ← load p;
    match cb it with
    | None => mret APP_RES_INVALID_NULL_POINTER
    | Some _ =>
        if negb (valid_filter (item_filter it)) then mret APP_RES_INVALID_VALUE
        else
          found ← list_contains p;
          _ ← (if found =? 0 then
                 _ ← update p (with_reserved2 false);
                 list_push_back p
               else mret tt);
          _ ← update p (with_reserved3 false);
          mret APP_RES_OK
    end.

(** ** Sending *)

(** The search of a free slot; [None]: the identifier is already in use by
    the same callback. *)
Fixpoint find_slot (c : fn) (id : Z) (i : nat) (free : option nat) (l : list tracked_packet_item_t)
    : option (option nat) :=
  match l with
  | [] => Some free
  | t :: l =>
      match tracked_cb t with
      | None => find_slot c id (S i) (match free with None => Some i | _ => free end) l
      | Some c' =>
          if bool_decide (c' = c) && (tracked_id t =? id) then None
          else find_slot c id (S i) free l
      end
  end.

Definition with_tracking (flags id : Z) (data : app_lib_data_to_send_t) : app_lib_data_to_send_t :=
  {| to_bytes := to_bytes data; to_num_bytes := to_num_bytes data;
     to_dest_address := to_dest_address data; to_delay := to_delay data;
     to_tracking_id := id; to_qos := to_qos data; to_flags := flags;
     to_src_endpoint := to_src_endpoint data; to_dest_endpoint := to_dest_endpoint data;
     to_hop_limit := to_hop_limit data; to_fragment_info := to_fragment_info data |}.

Definition set_tracked (i : nat) (f : tracked_packet_item_t -> tracked_packet_item_t) : M unit :=
  t ← reads (fun s => m_tracked_packets s !! i);
  puts (fun s => with_tracked (<[i := f t]> (m_tracked_packets s)) s).

Definition free_slot (t : tracked_packet_item_t) : tracked_packet_item_t :=
  {| tracked_cb := None; tracked_id := tracked_id t |}.

(** The structure of the caller is changed: it is returned beside the result. *)
Definition Shared_Data_sendData (E : env) (data : app_lib_data_to_send_t) (sent_cb : option fn)
    : M (Z * app_lib_data_to_send_t) :=
  initialized ← asks m_initialized;
  if negb initialized then mret (APP_LIB_DATA_SEND_RES_UNINITIALIZED, data)
  else
    match sent_cb with
    | None =>
        let data := with_tracking (Z.ldiff (to_flags data) APP_LIB_DATA_SEND_FLAG_TRACK)
          APP_LIB_DATA_NO_TRACKING_ID data in
        res ← in_world (lib_sendData E data);
        mret (res, data)
    | Some c =>
        tracked ← asks m_tracked_packets;
        match find_slot c (to_tracking_id data) 0 None tracked with
        | None => mret (APP_LIB_DATA_SEND_RES_INVALID_TRACKING_ID, data)
        | Some None => mret (APP_LIB_DATA_SEND_RES_OUT_OF_TRACKING_IDS, data)
        | Some (Some slot) =>
            _ ← set_tracked slot
                  (fun _ => {| tracked_cb := Some c; tracked_id := to_tracking_id data |});
            let data := with_tracking (Z.lor (to_flags data) APP_LIB_DATA_SEND_FLAG_TRACK)
              (Z.of_nat slot) data in
            res ← in_world (lib_sendData E data);
            _ ← (if res =? APP_LIB_DATA_SEND_RES_SUCCESS then mret tt
                 else set_tracked (Z.to_nat (to_tracking_id data)) free_slot);
            mret (res, data)
        end
    end.

(** ** Callbacks of the application *)

Definition run_call (E : env) (c : call) : M Z :=
  match c with
  | SetItem p c f => _ ← update p (fun it => {| reserved2 := reserved2 it; reserved3 := reserved3 it;
                                                cb := Some c; item_filter := f |}); mret 0
  | AddCb p => Shared_Data_addDataReceivedCb p
  | ReadyCb p => Shared_Data_readyToReceive E p
  | RemoveCb p => _ ← Shared_Data_removeDataReceivedCb E p; mret 0
  | SendCb data c => r ← Shared_Data_sendData E data c; mret r.1
  end.

Fixpoint run_script (E : env) (x : script W) : M Z :=
  match x with
  | Return f => in_world f
  | Then f k => c ← in_world f; r ← run_call E c; run_script E (k r)
  end.

(** ** Callbacks of the stack *)

Definition filter_received_packet (E : env) (filter : shared_data_filter_t)
    (data : app_lib_data_received_t) : M bool :=
  if IS_UNICAST (mode filter) && negb (IS_UNICAST_ADDRESS (rx_dest_address data)) then mret false
  else if IS_BROADCAST (mode filter) && negb (rx_dest_address data =? APP_ADDR_BROADCAST) then mret false
  else if IS_MULTICAST (mode filter) && negb (IS_MULTICAST_ADDRESS (rx_dest_address data)) then mret false
  else
    in_group ← (if IS_MULTICAST_ADDRESS (rx_dest_address data) then
                  match multicast_cb filter with
                  | None => mret true
                  | Some g => in_world (on_multicast E g (rx_dest_address data))
                  end
                else mret true);
    if negb in_group then mret false
    else if negb (src_endpoint filter =? SHARED_DATA_UNUSED_ENDPOINT)
            && negb (u8 (src_endpoint filter) =? rx_src_endpoint data) then mret false
    else if negb (dest_endpoint filter =? SHARED_DATA_UNUSED_ENDPOINT)
            && negb (u8 (dest_endpoint filter) =? rx_dest_endpoint data) then mret false
    else mret true.

Fixpoint group_loop (E : env) (fuel : nat) (i : ptr) (group_addr : Z) : M bool :=
  match i with
  | None => mret false
  | Some p =>
      match fuel with
      | O => fault
      | S fuel =>
          it ← load p;
          let f := item_filter it in
          if negb (IS_MULTICAST (mode f)) && negb (IS_ANYCAST (mode f))
          then n ← list_next i; group_loop E fuel n group_addr
          else match multicast_cb f with
               | None => mret true
               | Some g =>
                   yes ← in_world (on_multicast E g group_addr);
                   if (yes : bool) then mret true
                   else n ← list_next i; group_loop E fuel n group_addr
               end
      end
  end.

Definition group_query_cb (E : env) (group_addr : Z) : M bool :=
  i ← list_begin;
  fuel ← asks list_fuel;
  found ← group_loop E fuel i group_addr;
  if (found : bool) then mret true
  else _ ← delete_marked_items (Shared_Data_removeDataReceivedCb E); mret false.

Fixpoint received_loop (E : env) (fuel : nat) (i : ptr) (data : app_lib_data_received_t) (res : Z)
    : M Z :=
  match i with
  | None => mret res
  | Some p =>
      match fuel with
      | O => fault
      | S fuel =>
          it ← load p;
          accepted ← filter_received_packet E (item_filter it) data;
          res ← (if (accepted : bool) then
                   it ← load p;
                   match cb it with
                   | None => fault
                   | Some c =>
                       cb_res ← run_script E (on_received E c p data);
                       if (cb_res =? APP_LIB_DATA_RECEIVE_RES_HANDLED)
                          && (res =? APP_LIB_DATA_RECEIVE_RES_NOT_FOR_APP) then mret cb_res
                       else if cb_res =? APP_LIB_DATA_RECEIVE_RES_NO_SPACE then
                         _ ← update p (with_reserved3 true);
                         mret cb_res
                       else mret res
                   end
                 else mret res);
          n ← list_next i;
          received_loop E fuel n data res
      end
  end.

Definition received_cb (E : env) (data : app_lib_data_received_t) : M Z :=
  i ← list_begin;
  _ ← puts (with_iterating true);
  fuel ← asks list_fuel;
  res ← received_loop E fuel i data APP_LIB_DATA_RECEIVE_RES_NOT_FOR_APP;
  _ ← delete_marked_items (Shared_Data_removeDataReceivedCb E);
  mret res.

Definition with_status_id (id : Z) (st : app_lib_data_sent_status_t) : app_lib_data_sent_status_t :=
  {| status_dest_address := status_dest_address st; queue_time := queue_time st;
     status_tracking_id := id; status_src_endpoint := status_src_endpoint st;
     status_dest_endpoint := status_dest_endpoint st; success := success st |}.

Definition sent_cb (E : env) (status : app_lib_data_sent_status_t) : M unit :=
  t ← reads (fun s => m_tracked_packets s !! Z.to_nat (status_tracking_id status));
  match tracked_cb t with
  | None => mret tt
  | Some c =>
      _ ← set_tracked (Z.to_nat (status_tracking_id status)) free_slot;
      _ ← run_script E (on_sent E c (with_status_id (tracked_id t) status));
      mret tt
  end.

Definition Shared_Data_init (E : env) : M Z :=
  initialized ← asks m_initialized;
  if (initialized : bool) then mret APP_RES_OK
  else
    h ← reads (fun s => sl_list_init (heap s) m_shared_data_head);
    _ ← puts (with_heap h);
    _ ← puts (with_iterating false);
    _ ← puts (with_tracked (repeat {| tracked_cb := None; tracked_id := 0 |}
                              SHARED_DATA_MAX_TRACKED_PACKET));
    _ ← in_world (fun w => (tt, setDataReceivedCb E w));
    _ ← in_world (fun w => (tt, registerGroupQuery E w));
    _ ← in_world (fun w => (tt, setDataSentCb E w));
    _ ← puts (with_initialized true);
    mret APP_RES_OK.

End SharedData.

(** Execute the first step of a program by an equation for it. *)
Ltac run H := rewrite (sf_bindE _ _ _ _ _ H).

(** ** The list in memory *)

Section Proofs.
Context {W : Type} (E : env (W := W)).
Abbreviation state := (state (W := W)).
Implicit Types s : state.

(** No two slots of the table wait for the same callback and identifier. *)
Definition distinct_ids (t : list tracked_packet_item_t) : Prop :=
  forall i j a b, t !! i = Some a -> t !! j = Some b -> tracked_cb a <> None ->
    tracked_cb a = tracked_cb b -> tracked_id a = tracked_id b -> i = j.

(** The list of the library is [l]; every item in memory has its [next] word,
    every item of the list a callback. *)
Record inv (s : state) (l : list loc) : Prop := {
  inv_list : is_list (heap s) m_shared_data_head l;
  inv_mem : forall p, is_Some (items s !! p) -> p <> m_shared_data_head /\ is_Some (m_next (heap s) !! p);
  inv_items : forall p, p ∈ l -> exists it c, items s !! p = Some it /\ cb it = Some c;
  inv_tracked : length (m_tracked_packets s) = SHARED_DATA_MAX_TRACKED_PACKET;
  inv_ids : distinct_ids (m_tracked_packets s) }.

Definition marked (s : state) (p : loc) : bool :=
  match items s !! p with Some it => reserved2 it | None => false end.
Definition busy (s : state) (p : loc) : bool :=
  match items s !! p with Some it => reserved3 it | None => false end.

(** Between two calls of the library no item of the list is marked. *)
Record idle (s : state) (l : list loc) : Prop := {
  idle_inv : inv s l;
  idle_iterating : m_iterating_list s = false;
  idle_marks : Forall (fun p => marked s p = false) l }.

Lemma inv_NoDup s l : inv s l -> NoDup l.
Proof. intros H. destruct (inv_list s l H) as (_ & _ & Hd). by apply NoDup_cons in Hd as []. Qed.

Lemma inv_fuel s l : inv s l -> (length l < list_fuel s)%nat.
Proof.
  intros H. unfold list_fuel. apply Nat.lt_succ_r. rewrite <- (size_dom (items s)).
  rewrite <- (size_list_to_set (C := gset loc) l (inv_NoDup s l H)). apply subseteq_size.
  intros p Hp. apply elem_of_list_to_set in Hp. apply elem_of_dom.
  destruct (inv_items s l H p Hp) as (it & c & -> & _). eauto.
Qed.

Lemma inv_heap s l h l' :
  inv s l -> is_list h m_shared_data_head l' -> (forall p, p ∈ l' -> p ∈ l) ->
  (forall x, is_Some (m_next (heap s) !! x) -> is_Some (m_next h !! x)) ->
  inv (with_heap h s) l'.
Proof.
  intros H Hl Hsub Hn. split; cbn; [done| | |apply H..].
  - intros p Hp. apply (inv_mem s l H) in Hp as []. auto.
  - intros p Hp. by apply (inv_items s l H), Hsub.
Qed.

Lemma inv_frame s s' l :
  inv s l -> heap s' = heap s -> items s' = items s ->
  m_tracked_packets s' = m_tracked_packets s -> inv s' l.
Proof. intros [] Eh Ei Et. split; rewrite ?Eh, ?Ei, ?Et; done. Qed.

Lemma inv_store s l p it it' :
  inv s l -> items s !! p = Some it -> (p ∈ l -> is_Some (cb it')) ->
  inv (with_items (<[p := it']> (items s)) s) l.
Proof.
  intros H Hp Hc. split; cbn; [apply H| | |apply H..].
  - intros q Hq. apply (inv_mem s l H). rewrite lookup_insert in Hq. case_decide; subst; eauto.
  - intros q Hq. rewrite lookup_insert. case_decide; [subst|by apply (inv_items s l H)].
    destruct (Hc Hq) as [c Hc']. eauto.
Qed.

Lemma begin_spec s l : inv s l -> list_begin s = Some (head l, s).
Proof. intros H. unfold list_begin, list_next, reads. by rewrite (next_begin _ _ l) by apply H. Qed.

Lemma next_spec s l1 p l2 : inv s (l1 ++ p :: l2) -> list_next (Some p) s = Some (head l2, s).
Proof. intros H. unfold list_next, reads. by rewrite (next_middle _ _ l1 p l2 (inv_list _ _ H)). Qed.

Lemma load_spec s p it : items s !! p = Some it -> load p s = Some (it, s).
Proof. intros Hp. unfold load, reads. by rewrite Hp. Qed.

Lemma update_spec s p f it :
  items s !! p = Some it -> update p f s = Some (tt, with_items (<[p := f it]> (items s)) s).
Proof.
  intros Hp. unfold update, store. run (load_spec s p it Hp).
  by run (load_spec s p it Hp).
Qed.

Lemma remove_list_spec s l p :
  inv s l -> exists h, list_remove p s = Some (Some p, with_heap h s) /\
    inv (with_heap h s) (remove_elem p l).
Proof.
  intros H. unfold list_remove. pose proof (inv_fuel s l H) as Hf.
  destruct (decide (p ∈ l)) as [Hin|Hin].
  - destruct (elem_split p l (inv_NoDup s l H) Hin) as (l1 & l2 & -> & H1 & H2).
    destruct (remove_in_spec (list_fuel s) _ _ l1 p l2 (inv_list _ _ H) Hf) as (h & Er & Hl & Ho).
    exists h. rewrite (readsE _ _ _ (Some p, h)) by done. split; [done|].
    rewrite remove_elem_middle by done.
    apply (inv_heap s (l1 ++ p :: l2)); [done|done|set_solver|apply Ho].
  - exists (heap s). rewrite (readsE _ _ _ (Some p, heap s)) by by apply (remove_notin_spec _ _ _ l), Hin; [apply H|].
    split; [done|]. rewrite remove_elem_id by done. by apply (inv_frame s).
Qed.

(** ** Removal *)

(** The knot: [sl_list_remove] returns its argument, so the inner call of
    [remove_body] is never made. *)
Lemma list_remove_same p s r s' : list_remove p s = Some (r, s') -> r = Some p.
Proof.
  unfold list_remove, reads, mbind, sf_bind.
  destruct (sl_list_remove _ _ _ _) as [[q h]|] eqn:E0; [|done]. cbn. intros [= <- _].
  by eapply remove_returns.
Qed.

Lemma remove_n_fuel n p s : remove_n E (S n) p s = Shared_Data_removeDataReceivedCb E p s.
Proof.
  unfold Shared_Data_removeDataReceivedCb. cbn [remove_n]. unfold remove_body.
  rewrite !asksE. destruct (m_iterating_list s); [done|].
  unfold mbind, sf_bind. destruct (list_remove p s) as [[r s']|] eqn:Er; [|done].
  apply list_remove_same in Er as ->. by rewrite !decide_True.
Qed.

Lemma remove_idle_spec s l p :
  inv s l -> m_iterating_list s = false ->
  exists h, Shared_Data_removeDataReceivedCb E p s = Some (tt, with_heap h s) /\
    inv (with_heap h s) (remove_elem p l).
Proof.
  intros H Hi. destruct (remove_list_spec s l p H) as (h & Er & Hl). exists h. split; [|done].
  unfold Shared_Data_removeDataReceivedCb, remove_n, remove_body. rewrite asksE, Hi.
  run Er. by rewrite decide_True.
Qed.

Lemma remove_iterating_spec s p it :
  m_iterating_list s = true -> items s !! p = Some it ->
  Shared_Data_removeDataReceivedCb E p s =
    Some (tt, with_items (<[p := with_reserved2 true it]> (items s)) s).
Proof.
  intros Hi Hp. unfold Shared_Data_removeDataReceivedCb, remove_n, remove_body.
  rewrite asksE, Hi. by apply update_spec.
Qed.

Definition unmarked (s : state) (p : loc) : Prop := marked s p = false.
#[export] Instance unmarked_dec s p : Decision (unmarked s p) := decide (marked s p = false).

Lemma delete_loop_spec fuel s l1 l2 :
  inv s (l1 ++ l2) -> m_iterating_list s = false -> (length l2 <= fuel)%nat ->
  exists h, delete_loop (Shared_Data_removeDataReceivedCb E) fuel (head l2) s
      = Some (tt, with_heap h s) /\ inv (with_heap h s) (l1 ++ filter (unmarked s) l2).
Proof.
  revert s l1 l2. induction fuel as [|fuel IH]; intros s l1 l2 H Hi Hf.
  { destruct l2; [|cbn in Hf; lia]. exists (heap s). split; [by destruct s|]. by apply (inv_frame s). }
  destruct l2 as [|p l2]; [exists (heap s); split; [by destruct s|by apply (inv_frame s)]|].
  destruct (inv_items s _ H p ltac:(set_solver)) as (it & c & Hp & _). cbn [head delete_loop].
  run (load_spec s p it Hp).
  run (next_spec s l1 p l2 H).
  assert (Hm : marked s p = reserved2 it) by (unfold marked; by rewrite Hp).
  cbn in Hf. destruct (reserved2 it) eqn:Em.
  - destruct (remove_idle_spec s _ p H Hi) as (h & Er & Hl). run Er.
    pose proof (inv_NoDup _ _ H) as Hd. apply NoDup_app in Hd as (_ & Hd1 & Hd2).
    apply NoDup_cons in Hd2 as [Hd2 _].
    rewrite remove_elem_middle in Hl; [|intros Hc; apply (Hd1 p Hc); set_solver|done].
    destruct (IH _ l1 l2 Hl Hi ltac:(lia)) as (h' & -> & Hl'). exists h'. split; [done|].
    rewrite filter_cons_False by (unfold unmarked; congruence). exact Hl'.
  - rewrite sf_retE. assert (H' : inv s ((l1 ++ [p]) ++ l2)) by by rewrite <- app_assoc.
    destruct (IH s (l1 ++ [p]) l2 H' Hi ltac:(lia)) as (h' & -> & Hl').
    exists h'. split; [done|]. rewrite filter_cons_True by done. by rewrite <- app_assoc in Hl'.
Qed.

Lemma delete_marked_spec s l :
  inv s l ->
  exists h, delete_marked_items (Shared_Data_removeDataReceivedCb E) s
      = Some (tt, with_heap h (with_iterating false s)) /\
    inv (with_heap h (with_iterating false s)) (filter (unmarked s) l).
Proof.
  intros H. unfold delete_marked_items. run (begin_spec s l H). rewrite putsE.
  assert (H' : inv (with_iterating false s) l) by by apply (inv_frame s).
  run (begin_spec _ l H'). rewrite asksE. pose proof (inv_fuel _ l H').
  destruct (delete_loop_spec (list_fuel (with_iterating false s)) _ [] l H' eq_refl ltac:(lia))
    as (h & Ed & Hl). exists h. split; [exact Ed|exact Hl].
Qed.

Lemma filter_unmarked s l : Forall (unmarked s) l -> filter (unmarked s) l = l.
Proof. induction 1; [done|]. rewrite filter_cons_True by done. congruence. Qed.

(** ** Reception *)

Definition all_ready s l : bool := forallb (fun p => negb (busy s p)) l.

Lemma ready_loop_spec fuel s l1 l2 :
  inv s (l1 ++ l2) -> (length l2 <= fuel)%nat ->
  ready_loop fuel (head l2) s = Some (all_ready s l2, s).
Proof.
  revert l1 l2. induction fuel as [|fuel IH]; intros l1 l2 H Hf.
  { destruct l2; [done|cbn in Hf; lia]. }
  destruct l2 as [|p l2]; [done|].
  destruct (inv_items s _ H p ltac:(set_solver)) as (it & c & Hp & _). cbn [head ready_loop].
  run (load_spec s p it Hp).
  assert (Hb : busy s p = reserved3 it) by (unfold busy; by rewrite Hp).
  unfold all_ready. cbn [forallb]. rewrite Hb. destruct (reserved3 it); [done|].
  run (next_spec s l1 p l2 H). cbn [negb andb].
  apply (IH (l1 ++ [p])); [by rewrite <- app_assoc|cbn in Hf; lia].
Qed.

Lemma enable_spec s l :
  inv s l ->
  exists h, let s' := with_heap h (with_iterating false s) in
    enable_reception_if_needed E (Shared_Data_removeDataReceivedCb E) s =
      Some (tt, if all_ready s l then with_world (allowReception E true (world s)) s' else s') /\
    inv s' (filter (unmarked s) l).
Proof.
  intros H. unfold enable_reception_if_needed.
  run (begin_spec s l H). rewrite putsE, asksE.
  assert (H' : inv (with_iterating true s) l) by by apply (inv_frame s).
  pose proof (inv_fuel _ l H') as Hf.
  run (ready_loop_spec _ _ [] l H' (Nat.lt_le_incl _ _ Hf)).
  destruct (delete_marked_spec _ l H') as (h & Ed & Hl). run Ed.
  exists h. cbn zeta. change (all_ready (with_iterating true s) l) with (all_ready s l).
  split; [by destruct (all_ready s l)|exact Hl].
Qed.

(** ** Registration *)

Lemma contains_list_spec s l p :
  inv s l -> list_contains p s = Some (if decide (p ∈ l) then 1 else 0, s).
Proof.
  intros H. unfold list_contains, reads.
  by rewrite (contains_spec _ _ _ l) by (try apply H; by apply inv_fuel).
Qed.

Lemma push_list_spec s l p it c :
  inv s l -> items s !! p = Some it -> cb it = Some c -> p ∉ l ->
  exists h, list_push_back p s = Some (tt, with_heap h s) /\ inv (with_heap h s) (l ++ [p]).
Proof.
  intros H Hp Hc Hin. destruct (inv_mem s l H p) as [Hph Hpm]; [eauto|].
  destruct (push_back_spec (heap s) m_shared_data_head l p) as (h & Eh & Hl & Ho);
    [apply H|set_solver|done|].
  exists h. unfold list_push_back. rewrite (readsE _ _ _ h) by done. split; [done|].
  split; cbn; [done| | |apply H..].
  - intros q Hq. apply (inv_mem s l H) in Hq as []. split; [done|]. by apply Ho.
  - intros q Hq. apply elem_of_app in Hq as [Hq|Hq]; [by apply (inv_items s l H)|].
    apply list_elem_of_singleton in Hq as ->. eauto.
Qed.

(** ** The calls of the application

    Between two callbacks of the stack the library is a list of filters, the
    fields of the items and the table of the tracked packets; [spec_call] says
    what each call does to them. *)

Record view := {
  v_list : list loc;
  v_items : gmap loc shared_data_item_t;
  v_tracked : list tracked_packet_item_t;
  v_initialized : bool;
  v_world : W }.

Definition view_of s (l : list loc) : view :=
  {| v_list := l; v_items := items s; v_tracked := m_tracked_packets s;
     v_initialized := m_initialized s; v_world := world s |}.

Definition v_busy (v : view) (p : loc) : bool :=
  match v_items v !! p with Some it => reserved3 it | None => false end.

Definition set_item (p : loc) (it : shared_data_item_t) (v : view) : view :=
  {| v_list := v_list v; v_items := <[p := it]> (v_items v); v_tracked := v_tracked v;
     v_initialized := v_initialized v; v_world := v_world v |}.
Definition set_list (l : list loc) (v : view) : view :=
  {| v_list := l; v_items := v_items v; v_tracked := v_tracked v;
     v_initialized := v_initialized v; v_world := v_world v |}.
Definition set_table (t : list tracked_packet_item_t) (v : view) : view :=
  {| v_list := v_list v; v_items := v_items v; v_tracked := t;
     v_initialized := v_initialized v; v_world := v_world v |}.
Definition set_world (w : W) (v : view) : view :=
  {| v_list := v_list v; v_items := v_items v; v_tracked := v_tracked v;
     v_initialized := v_initialized v; v_world := w |}.

(** An item enters the list once, at the end, ready. *)
Definition spec_add (p : loc) (it : shared_data_item_t) (v : view) : Z * view :=
  if negb (v_initialized v) then (APP_RES_RESOURCE_UNAVAILABLE, v)
  else if decide (cb it = None) then (APP_RES_INVALID_NULL_POINTER, v)
  else if negb (valid_filter (item_filter it)) then (APP_RES_INVALID_VALUE, v)
  else (APP_RES_OK,
        set_item p (with_reserved3 false (with_reserved2 false it))
          (if decide (p ∈ v_list v) then v else set_list (v_list v ++ [p]) v)).

(** Reception resumes when the last busy item of the list is ready. *)
Definition spec_ready (p : loc) (it : shared_data_item_t) (v : view) : Z * view :=
  if reserved3 it then
    let v := set_item p (with_reserved3 false it) v in
    (APP_RES_OK,
     if decide (Forall (fun q => v_busy v q = false) (v_list v))
     then set_world (allowReception E true (v_world v)) v else v)
  else (APP_RES_OK, v).

(** A packet with a callback takes the first free slot of the table, unless
    the callback already waits for a packet with this identifier. *)
Definition in_use (c : fn) (id : Z) (t : tracked_packet_item_t) : Prop :=
  tracked_cb t = Some c /\ tracked_id t = id.
#[export] Instance in_use_dec c id t : Decision (in_use c id t).
Proof. unfold in_use. apply _. Defined.

Definition spec_send (data : app_lib_data_to_send_t) (sent : option fn) (v : view) : Z * view :=
  if negb (v_initialized v) then (APP_LIB_DATA_SEND_RES_UNINITIALIZED, v)
  else match sent with
  | None =>
      let '(res, w) := lib_sendData E (with_tracking (Z.ldiff (to_flags data) 1)
                         APP_LIB_DATA_NO_TRACKING_ID data) (v_world v) in
      (res, set_world w v)
  | Some c =>
      if decide (Exists (in_use c (to_tracking_id data)) (v_tracked v))
      then (APP_LIB_DATA_SEND_RES_INVALID_TRACKING_ID, v)
      else match list_find (fun t => tracked_cb t = None) (v_tracked v) with
      | None => (APP_LIB_DATA_SEND_RES_OUT_OF_TRACKING_IDS, v)
      | Some (i, _) =>
          let '(res, w) := lib_sendData E (with_tracking (Z.lor (to_flags data) 1)
                             (Z.of_nat i) data) (v_world v) in
          (res, set_world w (set_table (<[i :=
             {| tracked_cb := if decide (res = APP_LIB_DATA_SEND_RES_SUCCESS) then Some c else None;
                tracked_id := to_tracking_id data |}]> (v_tracked v)) v))
      end
  end.

Definition spec_call (c : call) (v : view) : Z * view :=
  match c with
  | SetItem p c f =>
      match v_items v !! p with
      | Some it => (0, set_item p {| reserved2 := reserved2 it; reserved3 := reserved3 it;
                                     cb := Some c; item_filter := f |} v)
      | None => (0, v)
      end
  | AddCb p => match v_items v !! p with Some it => spec_add p it v | None => (0, v) end
  | ReadyCb p => match v_items v !! p with Some it => spec_ready p it v | None => (0, v) end
  | RemoveCb p => (0, set_list (remove_elem p (v_list v)) v)
  | SendCb data c => spec_send data c v
  end.

Fixpoint spec_script (x : script W) (v : view) : Z * view :=
  match x with
  | Return f => let '(r, w) := f (v_world v) in (r, set_world w v)
  | Then f k =>
      let '(c, w) := f (v_world v) in
      let '(r, v) := spec_call c (set_world w v) in
      spec_script (k r) v
  end.

(** The call names an item of the application. *)
Definition known (D : gset loc) (c : call) : Prop :=
  match c with
  | SetItem p _ _ | AddCb p | ReadyCb p | RemoveCb p => p ∈ D
  | SendCb _ _ => True
  end.

Fixpoint all_calls (P : call -> Prop) (x : script W) : Prop :=
  match x with
  | Return _ => True
  | Then f k => (forall w, P (f w).1) /\ forall r, all_calls P (k r)
  end.

Lemma find_slot_spec c id i free l :
  find_slot c id i free l =
    if decide (Exists (in_use c id) l) then None
    else Some (match free with
               | Some _ => free
               | None => (fun x => (i + x.1)%nat) <$> list_find (fun t => tracked_cb t = None) l
               end).
Proof.
  revert i free. induction l as [|t l IH]; intros i free.
  { rewrite decide_False by (by intros ?%Exists_nil). by destruct free. }
  cbn [find_slot list_find]. destruct t as [[c'|] id']; cbn [tracked_cb tracked_id].
  - rewrite (decide_False (P := Some c' = None)) by done.
    destruct (bool_decide (c' = c) && (id' =? id)) eqn:Eu.
    + apply andb_true_iff in Eu as [->%bool_decide_eq_true ->%Z.eqb_eq].
      by rewrite decide_True by by left.
    + assert (Hnot : ~ in_use c id {| tracked_cb := Some c'; tracked_id := id' |}).
      { intros [[= ->] <-]. by rewrite bool_decide_eq_true_2, Z.eqb_refl in Eu. }
      rewrite IH. destruct (decide (Exists _ l)) as [He|He].
      * by rewrite decide_True by by right.
      * rewrite decide_False by (intros [?|?]%Exists_cons; done).
        f_equal. destruct free; [done|]. destruct (list_find _ l) as [[j u]|]; cbn; [|done].
        f_equal. lia.
  - rewrite (decide_True (P := None = None)) by done. rewrite IH.
    destruct (decide (Exists _ l)) as [He|He].
    + by rewrite decide_True by by right.
    + rewrite decide_False by (intros [[[=] _]|?]%Exists_cons; done).
      destruct free; cbn; [done|]. by rewrite Nat.add_0_r.
Qed.

Lemma in_world_spec {A} (f : W -> A * W) s :
  in_world f s = Some ((f (world s)).1, with_world (f (world s)).2 s).
Proof. unfold in_world. by destruct (f (world s)). Qed.

Lemma set_tracked_spec s i f t :
  m_tracked_packets s !! i = Some t ->
  set_tracked i f s = Some (tt, with_tracked (<[i := f t]> (m_tracked_packets s)) s).
Proof. intros Hi. unfold set_tracked. by rewrite (readsE _ _ _ t). Qed.

(** [s] is between two callbacks and stands for [v]. *)
Definition rel s (v : view) : Prop := exists l, idle s l /\ v = view_of s l.

Lemma rel_view s l : idle s l -> rel s (view_of s l).
Proof. by exists l. Qed.

(** No item of the list is marked. *)
Lemma rel_unmarked s v p it :
  rel s v -> v_items v !! p = Some it -> p ∈ v_list v -> reserved2 it = false.
Proof.
  intros (l & Hl & ->) Hp Hin. cbn in *. pose proof (idle_marks _ _ Hl) as Hm.
  rewrite Forall_forall in Hm. specialize (Hm p Hin). unfold marked in Hm. by rewrite Hp in Hm.
Qed.

Lemma rel_set_item s v p it it' :
  rel s v -> v_items v !! p = Some it -> (p ∈ v_list v -> reserved2 it' = false) ->
  (cb it' = None -> cb it = None) ->
  rel (with_items (<[p := it']> (items s)) s) (set_item p it' v).
Proof.
  intros (l & [H Hi Hm] & ->) Hp Hr Hc. exists l. split; [|done]. cbn in *. split; [|done|].
  - apply (inv_store s l p it it'); [done..|]. intros Hin.
    destruct (inv_items s _ H p Hin) as (it0 & c & ? & ?). destruct (cb it'); [eauto|].
    specialize (Hc eq_refl). congruence.
  - rewrite Forall_forall in Hm |- *. intros q Hq. unfold marked. cbn. rewrite lookup_insert.
    case_decide; subst; [auto|by apply Hm].
Qed.

Lemma rel_world s v w : rel s v -> rel (with_world w s) (set_world w v).
Proof. intros (l & [H Hi Hm] & ->). exists l. split; [|done]. split; [by apply (inv_frame s)|done..]. Qed.

(** A new table of the same length. *)
Lemma inv_table s l t :
  inv s l -> length t = length (m_tracked_packets s) -> distinct_ids t -> inv (with_tracked t s) l.
Proof. intros [] Hl Hd. split; cbn; try done. congruence. Qed.

Lemma remove_refines p s v :
  rel s v -> exists s', Shared_Data_removeDataReceivedCb E p s = Some (tt, s') /\
    rel s' (set_list (remove_elem p (v_list v)) v).
Proof.
  intros (l & [H Hi Hm] & ->). destruct (remove_idle_spec s _ p H Hi) as (h & -> & Hl).
  eexists. split; [done|]. exists (remove_elem p l). split; [|done]. split; [done..|].
  rewrite Forall_forall in Hm |- *. intros q Hq. apply (Hm q). by apply list_elem_of_filter in Hq as [].
Qed.

Lemma ready_refines p it s v :
  rel s v -> v_items v !! p = Some it ->
  exists s', Shared_Data_readyToReceive E p s = Some ((spec_ready p it v).1, s') /\
    rel s' (spec_ready p it v).2.
Proof.
  intros R Hp. unfold Shared_Data_readyToReceive, spec_ready.
  pose proof R as (l & Hl & ->). cbn in Hp. run (load_spec s p it Hp).
  destruct (reserved3 it); [|eauto]. rewrite sf_assoc. run (update_spec s p (with_reserved3 false) it Hp).
  assert (R1 : rel (with_items (<[p := with_reserved3 false it]> (items s)) s)
                 (set_item p (with_reserved3 false it) (view_of s l))).
  { eapply rel_set_item; [done|done| |done]. exact (rel_unmarked s _ p it R Hp). }
  destruct R1 as (l1 & Hl1 & E1). injection E1 as <-.
  set (s1 := with_items _ s) in *.
  destruct (enable_spec s1 l (idle_inv _ _ Hl1)) as (h & Ee & Hi).
  rewrite filter_unmarked in Hi by apply Hl1. cbn zeta in *. run Ee. eexists. split; [done|].
  assert (Er : all_ready s1 l = bool_decide
    (Forall (fun q => v_busy (set_item p (with_reserved3 false it) (view_of s l)) q = false) l)).
  { apply eq_true_iff_eq. unfold all_ready. rewrite forallb_forall, bool_decide_eq_true, Forall_forall.
    setoid_rewrite negb_true_iff. setoid_rewrite list_elem_of_In. done. }
  cbn [v_list set_item view_of snd]. exists l. rewrite Er. case_bool_decide as Hb.
  - rewrite decide_True by done. split; [|done]. split; [by eapply inv_frame|done|apply Hl1].
  - rewrite decide_False by done. split; [|done]. split; [done|done|apply Hl1].
Qed.

Lemma add_refines p it s v :
  rel s v -> v_items v !! p = Some it ->
  exists s', Shared_Data_addDataReceivedCb p s = Some ((spec_add p it v).1, s') /\
    rel s' (spec_add p it v).2.
Proof.
  intros R Hp. unfold Shared_Data_addDataReceivedCb, spec_add. rewrite asksE.
  pose proof R as (l & Hl & ->). cbn [v_initialized v_list v_items view_of] in *.
  destruct (m_initialized s); cbn [negb]; [|eauto].
  run (load_spec s p it Hp). destruct (cb it) as [c|] eqn:Hc; [|eauto].
  rewrite decide_False by done. destruct (valid_filter _); cbn [negb]; [|eauto].
  run (contains_list_spec s l p (idle_inv _ _ Hl)). cbn [snd].
  destruct (decide (p ∈ l)) as [Hin|Hin]; cbn [Z.eqb].
  - rewrite sf_retE. run (update_spec s p (with_reserved3 false) it Hp). eexists. split; [done|].
    assert (Em : reserved2 it = false) by by eapply rel_unmarked.
    assert (E2 : with_reserved2 false it = it) by (destruct it; cbn in *; by subst).
    rewrite E2. eapply rel_set_item; [done|done| |done]. done.
  - rewrite sf_assoc. run (update_spec s p (with_reserved2 false) it Hp).
    set (it1 := with_reserved2 false it).
    assert (R1 : rel (with_items (<[p := it1]> (items s)) s) (set_item p it1 (view_of s l)))
      by by eapply rel_set_item.
    destruct R1 as (l1 & Hl1 & E1). injection E1 as <-. set (s1 := with_items _ s) in *.
    assert (Hp1 : items s1 !! p = Some it1) by apply lookup_insert_eq.
    destruct (push_list_spec s1 l p it1 c (idle_inv _ _ Hl1) Hp1 Hc Hin) as (h & Eh & Hi).
    run Eh. assert (Hp2 : items (with_heap h s1) !! p = Some it1) by apply lookup_insert_eq.
    run (update_spec (with_heap h s1) p (with_reserved3 false) it1 Hp2). eexists. split; [done|].
    assert (R2 : rel (with_heap h s1) (view_of (with_heap h s1) (l ++ [p]))).
    { apply rel_view. split; [done|apply Hl|]. apply Forall_app. split; [apply Hl1|].
      apply Forall_singleton. unfold marked. by rewrite Hp2. }
    pose proof (rel_set_item _ _ p it1 (with_reserved3 false it1) R2 Hp2 ltac:(done) ltac:(done)) as R3.
    unfold set_item, set_list, view_of in *. cbn in *. by rewrite insert_insert_eq in R3 |- *.
Qed.

Lemma distinct_insert t i c id :
  distinct_ids t -> ~ Exists (in_use c id) t ->
  distinct_ids (<[i := {| tracked_cb := Some c; tracked_id := id |}]> t).
Proof.
  intros Hd Hno x y a b Hx Hy Hc Ec Ei.
  assert (Hfar : forall z u, t !! z = Some u -> tracked_cb u = Some c -> tracked_id u = id -> False).
  { intros z u Hz Hu1 Hu2. apply Hno. apply Exists_exists. exists u. split; [|done].
    by eapply list_elem_of_lookup_2. }
  apply list_lookup_insert_Some in Hx as [(-> & <- & _)|[Hx0 Hx]];
    apply list_lookup_insert_Some in Hy as [(-> & <- & _)|[Hy0 Hy]]; cbn in *; try done.
  - exfalso. by eapply (Hfar y b).
  - exfalso. by eapply (Hfar x a).
  - by eapply Hd.
Qed.

Lemma distinct_free t i id :
  distinct_ids t -> distinct_ids (<[i := {| tracked_cb := None; tracked_id := id |}]> t).
Proof.
  intros Hd x y a b Hx Hy Hc Ec Ei.
  apply list_lookup_insert_Some in Hx as [(-> & <- & _)|[Hx0 Hx]]; [done|].
  apply list_lookup_insert_Some in Hy as [(-> & <- & _)|[Hy0 Hy]]; [by rewrite Ec in Hc|].
  by eapply Hd.
Qed.

(** Sending changes the table and the world, in any state. *)
Lemma send_spec data sent s l :
  exists d t w, Shared_Data_sendData E data sent s =
      Some (((spec_send data sent (view_of s l)).1, d), with_world w (with_tracked t s)) /\
    (spec_send data sent (view_of s l)).2 = set_world w (set_table t (view_of s l)) /\
    length t = length (m_tracked_packets s) /\
    (distinct_ids (m_tracked_packets s) -> distinct_ids t).
Proof.
  assert (Hs : with_world (world s) (with_tracked (m_tracked_packets s) s) = s) by by destruct s.
  assert (Hsame : forall (r : Z) (d : app_lib_data_to_send_t), exists d0 t w, Some ((r, d), s) = Some ((r, d0), with_world w (with_tracked t s)) /\
    view_of s l = set_world w (set_table t (view_of s l)) /\ length t = length (m_tracked_packets s) /\
    (distinct_ids (m_tracked_packets s) -> distinct_ids t)).
  { intros r d. exists d, (m_tracked_packets s), (world s). by rewrite Hs. }
  unfold Shared_Data_sendData, spec_send. rewrite asksE. cbn [v_initialized v_tracked v_world view_of].
  destruct (m_initialized s); cbn [negb]; [|apply Hsame]. destruct sent as [c|].
  2: { change APP_LIB_DATA_SEND_FLAG_TRACK with 1. run (in_world_spec (lib_sendData E
         (with_tracking (Z.ldiff (to_flags data) 1) APP_LIB_DATA_NO_TRACKING_ID data)) s).
       destruct (lib_sendData E _ (world s)) as [res w]. exists (with_tracking (Z.ldiff (to_flags data) 1)
         APP_LIB_DATA_NO_TRACKING_ID data), (m_tracked_packets s), w. by destruct s. }
  rewrite asksE, find_slot_spec. destruct (decide _) as [|Hno]; [apply Hsame|].
  destruct (list_find _ _) as [[i t]|] eqn:Ef; cbn [fmap option_fmap option_map fst]; [|apply Hsame].
  apply list_find_Some in Ef as (Hi & _ & _). cbn [Nat.add]. change APP_LIB_DATA_SEND_FLAG_TRACK with 1.
  set (d := with_tracking (Z.lor (to_flags data) 1) (Z.of_nat i) data).
  run (set_tracked_spec s i (fun _ => {| tracked_cb := Some c; tracked_id := to_tracking_id data |}) t Hi).
  set (s1 := with_tracked _ s). run (in_world_spec (lib_sendData E d) s1).
  change (world s1) with (world s). destruct (lib_sendData E d (world s)) as [res w]. cbn [fst snd].
  exists d. destruct (Z.eqb_spec res APP_LIB_DATA_SEND_RES_SUCCESS) as [Eq|Eq].
  - rewrite (decide_True (P := res = _)) by done.
    exists (<[i := {| tracked_cb := Some c; tracked_id := to_tracking_id data |}]> (m_tracked_packets s)), w.
    rewrite length_insert. split_and!; [done..|]. intros Hd. by apply distinct_insert.
  - rewrite (decide_False (P := res = _)) by done. change (to_tracking_id d) with (Z.of_nat i).
    rewrite Nat2Z.id.
    exists (<[i := {| tracked_cb := None; tracked_id := to_tracking_id data |}]> (m_tracked_packets s)), w.
    assert (Hi1 : m_tracked_packets (with_world w s1) !! i =
      Some {| tracked_cb := Some c; tracked_id := to_tracking_id data |})
      by (apply list_lookup_insert_eq; by eapply lookup_lt_Some).
    run (set_tracked_spec _ i free_slot _ Hi1). unfold s1.
    cbn [m_tracked_packets with_world with_tracked free_slot tracked_id].
    rewrite list_insert_insert_eq, length_insert. split_and!; [done..|]. apply distinct_free.
Qed.

Lemma send_refines data sent s v :
  rel s v ->
  exists s' d, Shared_Data_sendData E data sent s = Some (((spec_send data sent v).1, d), s') /\
    rel s' (spec_send data sent v).2.
Proof.
  intros (l & [H Hi Hm] & ->). destruct (send_spec data sent s l) as (d & t & w & -> & -> & Hl & Hd).
  do 2 eexists. split; [done|]. exists l. split; [|done]. split; [|done..].
  apply (inv_frame (with_tracked t s)); [|done..]. apply inv_table; [done|done|apply Hd, H].
Qed.

Lemma known_item s v p : rel s v -> p ∈ dom (v_items v) -> exists it, v_items v !! p = Some it.
Proof. intros _ Hp. by apply elem_of_dom in Hp. Qed.

Lemma call_refines c s v :
  rel s v -> known (dom (v_items v)) c ->
  exists s', run_call E c s = Some ((spec_call c v).1, s') /\ rel s' (spec_call c v).2.
Proof.
  intros R Hk. destruct c as [p c f|p|p|p|data c]; cbn [known run_call spec_call] in *;
    try (destruct (known_item s v p R Hk) as (it & Hp); rewrite Hp).
  - pose proof R as (l & _ & ->).
    run (update_spec s p (fun it => {| reserved2 := reserved2 it; reserved3 := reserved3 it;
      cb := Some c; item_filter := f |}) it Hp).
    eexists. split; [done|]. eapply rel_set_item; [done|done| |done]. exact (rel_unmarked s _ p it R Hp).
  - by apply add_refines.
  - by apply ready_refines.
  - destruct (remove_refines p s v R) as (s' & Er & R'). run Er. eauto.
  - destruct (send_refines data c s v R) as (s' & d & Er & R'). run Er. eauto.
Qed.

Lemma spec_call_dom c v :
  known (dom (v_items v)) c -> dom (v_items (spec_call c v).2) = dom (v_items v).
Proof.
  intros Hk. destruct c as [p c f|p|p|p|data c]; cbn [known spec_call] in *; try done.
  1-3: apply elem_of_dom in Hk as [it Hp]; rewrite Hp.
  - cbn. rewrite dom_insert_L. apply elem_of_dom_2 in Hp. set_solver.
  - unfold spec_add. apply elem_of_dom_2 in Hp. repeat case_match; cbn; try done;
      rewrite dom_insert_L; set_solver.
  - unfold spec_ready. apply elem_of_dom_2 in Hp. repeat case_match; cbn; try done;
      rewrite dom_insert_L; set_solver.
  - unfold spec_send. by repeat case_match.
Qed.

Lemma script_refines x s v :
  rel s v -> all_calls (known (dom (v_items v))) x ->
  exists s', run_script E x s = Some ((spec_script x v).1, s') /\ rel s' (spec_script x v).2 /\
    dom (v_items (spec_script x v).2) = dom (v_items v).
Proof.
  revert s v. induction x as [f|f k IH]; intros s v R Hc; cbn [run_script spec_script all_calls] in *.
  - rewrite in_world_spec. pose proof R as (l & _ & ->). cbn [v_world view_of].
    destruct (f (world s)) as [r w]. eexists. split; [done|]. split; [|done]. by apply rel_world.
  - destruct Hc as [Hc Hk]. run (in_world_spec f s).
    assert (Ew : v_world v = world s) by by destruct R as (l & _ & ->).
    rewrite Ew. specialize (Hc (world s)). destruct (f (world s)) as [c w]. cbn [fst snd] in *.
    destruct (call_refines c _ _ (rel_world s v w R) Hc) as (s1 & E1 & R1). run E1.
    pose proof (spec_call_dom c (set_world w v) Hc) as Hd.
    destruct (spec_call c (set_world w v)) as [r v1]. cbn [fst snd] in *.
    destruct (IH r s1 v1 R1) as (s2 & E2 & R2 & Hd2); [rewrite Hd; apply Hk|].
    eexists. split; [done|]. split; [done|]. by rewrite Hd2, Hd.
Qed.

(** ** Dispatch

    [accepts] is the documented filter; [offer] gives the packet to one item,
    [offers] to the items of a list, in order, and [verdict] is the answer to
    the stack. *)

Definition after_multicast (f : shared_data_filter_t) (a : Z) (w : W) : W :=
  match multicast_cb f with
  | Some g => if IS_MULTICAST_ADDRESS a then (on_multicast E g a w).2 else w
  | None => w
  end.

Definition accepts (f : shared_data_filter_t) (data : app_lib_data_received_t) (w : W) : Prop :=
  let a := rx_dest_address data in
  let multicast := Z.land a 0xff000000 = APP_ADDR_MULTICAST in
  (mode f = SHARED_DATA_NET_MODE_ALL \/
   mode f = SHARED_DATA_NET_MODE_BROADCAST /\ a = APP_ADDR_BROADCAST \/
   mode f = SHARED_DATA_NET_MODE_MULTICAST /\ multicast \/
   mode f = SHARED_DATA_NET_MODE_UNICAST /\ a <> APP_ADDR_BROADCAST /\ ~ multicast) /\
  (multicast -> forall g, multicast_cb f = Some g -> (on_multicast E g a w).1 = true) /\
  (src_endpoint f = SHARED_DATA_UNUSED_ENDPOINT \/ src_endpoint f = rx_src_endpoint data) /\
  (dest_endpoint f = SHARED_DATA_UNUSED_ENDPOINT \/ dest_endpoint f = rx_dest_endpoint data).

Lemma endpoint_test e rx :
  -1 <= e <= 255 ->
  negb (e =? SHARED_DATA_UNUSED_ENDPOINT) && negb (u8 e =? rx) = false <->
  e = SHARED_DATA_UNUSED_ENDPOINT \/ e = rx.
Proof.
  intros He. unfold SHARED_DATA_UNUSED_ENDPOINT. destruct (Z.eqb_spec e (-1)) as [->|Hne]; cbn; [tauto|].
  rewrite uwrap_small by (unfold fits; lia). destruct (Z.eqb_spec e rx); cbn; intuition lia.
Qed.

Lemma valid_filter_spec f :
  0 <= mode f -> valid_filter f = true ->
  (mode f = 0 \/ mode f = 1 \/ mode f = 2 \/ mode f = 3) /\
  -1 <= src_endpoint f <= 255 /\ -1 <= dest_endpoint f <= 255 /\
  (mode f = 0 \/ mode f = 1 -> multicast_cb f = None).
Proof.
  unfold valid_filter, SHARED_DATA_NET_MODE_ALL, SHARED_DATA_NET_MODE_MULTICAST, ENDPOINT_MIN,
    ENDPOINT_MAX, SHARED_DATA_UNUSED_ENDPOINT.
  intros Hm H. apply andb_true_iff in H as [H1 H2]. apply negb_true_iff in H1, H2. bool_props.
  split_and!; try lia. intros Hu. apply dec_stable. intros Hc.
  rewrite bool_decide_eq_true_2 in H2 by done. destruct Hu as [Hu|Hu]; by rewrite Hu in H2.
Qed.

Lemma mode_test m a :
  0 <= m -> m <= 3 ->
  (IS_UNICAST m && negb (IS_UNICAST_ADDRESS a) = false /\
   IS_BROADCAST m && negb (a =? APP_ADDR_BROADCAST) = false /\
   IS_MULTICAST m && negb (IS_MULTICAST_ADDRESS a) = false) <->
  (m = SHARED_DATA_NET_MODE_ALL \/
   m = SHARED_DATA_NET_MODE_BROADCAST /\ a = APP_ADDR_BROADCAST \/
   m = SHARED_DATA_NET_MODE_MULTICAST /\ Z.land a 0xff000000 = APP_ADDR_MULTICAST \/
   m = SHARED_DATA_NET_MODE_UNICAST /\ a <> APP_ADDR_BROADCAST /\
     Z.land a 0xff000000 <> APP_ADDR_MULTICAST).
Proof.
  intros H0 H3. unfold IS_UNICAST, IS_BROADCAST, IS_MULTICAST, IS_UNICAST_ADDRESS, IS_MULTICAST_ADDRESS,
    SHARED_DATA_NET_MODE_ALL, SHARED_DATA_NET_MODE_BROADCAST, SHARED_DATA_NET_MODE_MULTICAST,
    SHARED_DATA_NET_MODE_UNICAST.
  assert (m = 0 \/ m = 1 \/ m = 2 \/ m = 3) as [->|[->|[->| ->]]] by lia;
    cbn [Z.eqb Pos.eqb andb];
    destruct (Z.eqb_spec a APP_ADDR_BROADCAST); destruct (Z.eqb_spec (Z.land a 0xff000000) APP_ADDR_MULTICAST);
    cbn; intuition (try congruence; try lia).
Qed.


Definition offer (data : app_lib_data_received_t) (p : loc) : sf state (option Z) :=
  it ← load p;
  accepted ← filter_received_packet E (item_filter it) data;
  if (accepted : bool) then
    match cb it with
    | Some c =>
        r ← run_script E (on_received E c p data);
        _ ← (if r =? APP_LIB_DATA_RECEIVE_RES_NO_SPACE then update p (with_reserved3 true) else mret tt);
        mret (Some r)
    | None => fault
    end
  else mret None.

Fixpoint offers (data : app_lib_data_received_t) (l : list loc) : sf state (list (option Z)) :=
  match l with
  | [] => mret []
  | p :: l => r ← offer data p; rs ← offers data l; mret (r :: rs)
  end.

(** No space if one has none, else handled if one handled it. *)
Definition verdict (rs : list (option Z)) : Z :=
  if decide (Some APP_LIB_DATA_RECEIVE_RES_NO_SPACE ∈ rs) then APP_LIB_DATA_RECEIVE_RES_NO_SPACE
  else if decide (Some APP_LIB_DATA_RECEIVE_RES_HANDLED ∈ rs) then APP_LIB_DATA_RECEIVE_RES_HANDLED
  else APP_LIB_DATA_RECEIVE_RES_NOT_FOR_APP.

(** The callbacks of received packets register, remove and send, but leave
    [Shared_Data_readyToReceive] to a later task: the call ends the iteration
    under way, see [removed_item_is_called]. *)
Definition quiet (D : gset loc) (c : call) : Prop :=
  known D c /\ match c with ReadyCb _ => False | _ => True end.

(** The library while it walks through its list. *)
Record walking (D : gset loc) (s : state) (l : list loc) : Prop := {
  walk_inv : inv s l;
  walk_iterating : m_iterating_list s = true;
  walk_dom : dom (items s) = D }.

Lemma walk_item D s l p : walking D s l -> p ∈ D -> exists it, items s !! p = Some it.
Proof. intros [_ _ <-] Hp. by apply elem_of_dom in Hp. Qed.

Lemma walk_store D s l p it it' :
  walking D s l -> items s !! p = Some it -> (cb it' = None -> cb it = None) ->
  walking D (with_items (<[p := it']> (items s)) s) l.
Proof.
  intros [H Hi Hd] Hp Hc. split; [|done|].
  - apply (inv_store s l p it it'); [done..|]. intros Hin.
    destruct (inv_items s _ H p Hin) as (it0 & c & ? & ?). destruct (cb it'); [eauto|].
    specialize (Hc eq_refl). congruence.
  - cbn. rewrite dom_insert_L, Hd. apply elem_of_dom_2 in Hp. set_solver.
Qed.

Lemma walk_world D s l w : walking D s l -> walking D (with_world w s) l.
Proof. intros [H Hi Hd]. split; [by apply (inv_frame s)|done..]. Qed.

Lemma walk_call D c s l :
  walking D s l -> quiet D c ->
  exists r s' added, run_call E c s = Some (r, s') /\ walking D s' (l ++ added).
Proof.
  intros H [Hk Hq]. destruct c as [p c f|p|p|p|data c]; cbn [known run_call] in *; try done.
  - destruct (walk_item D s l p H Hk) as (it & Hp).
    run (update_spec s p (fun it => {| reserved2 := reserved2 it; reserved3 := reserved3 it;
      cb := Some c; item_filter := f |}) it Hp).
    do 2 eexists. exists []. split; [done|]. rewrite app_nil_r. by eapply walk_store.
  - destruct (walk_item D s l p H Hk) as (it & Hp). unfold Shared_Data_addDataReceivedCb. rewrite asksE.
    assert (Hsame : forall r : Z, exists r' s' added, (mret r : sf state Z) s = Some (r', s') /\ walking D s' (l ++ added))
      by (intros r; exists r, s, []; by rewrite app_nil_r).
    destruct (m_initialized s); cbn [negb]; [|apply Hsame].
    run (load_spec s p it Hp). destruct (cb it) as [c|] eqn:Hc; [|apply Hsame].
    destruct (valid_filter _); cbn [negb]; [|apply Hsame].
    run (contains_list_spec s l p (walk_inv _ _ _ H)). destruct (decide (p ∈ l)) as [Hin|Hin]; cbn [Z.eqb].
    + rewrite sf_retE. run (update_spec s p (with_reserved3 false) it Hp).
      do 2 eexists. exists []. split; [done|]. rewrite app_nil_r. by eapply walk_store.
    + rewrite sf_assoc. run (update_spec s p (with_reserved2 false) it Hp).
      set (s1 := with_items _ s).
      assert (H1 : walking D s1 l) by by eapply walk_store.
      assert (Hp1 : items s1 !! p = Some (with_reserved2 false it)) by apply lookup_insert_eq.
      destruct (push_list_spec s1 l p _ c (walk_inv _ _ _ H1) Hp1 Hc Hin) as (h & Eh & Hi). run Eh.
      run (update_spec (with_heap h s1) p (with_reserved3 false) _ Hp1).
      do 2 eexists. exists [p]. split; [done|]. eapply (walk_store D (with_heap h s1)); [|done|done].
      split; [done|apply H1..].
  - destruct (walk_item D s l p H Hk) as (it & Hp).
    run (remove_iterating_spec s p it (walk_iterating _ _ _ H) Hp).
    do 2 eexists. exists []. split; [done|]. rewrite app_nil_r. by eapply walk_store.
  - destruct (send_spec data c s l) as (d & t & w & Es & _ & Ht & Hd). run Es.
    do 2 eexists. exists []. split; [done|]. rewrite app_nil_r. apply walk_world.
    destruct H as [H ? ?]. split; [|done..]. apply inv_table; [done|done|apply Hd, H].
Qed.

Lemma walk_script D x s l :
  walking D s l -> all_calls (quiet D) x ->
  exists r s' added, run_script E x s = Some (r, s') /\ walking D s' (l ++ added).
Proof.
  revert s l. induction x as [f|f k IH]; intros s l H Hc; cbn [run_script all_calls] in *.
  - rewrite in_world_spec. do 2 eexists. exists []. split; [done|]. rewrite app_nil_r. by apply walk_world.
  - destruct Hc as [Hc Hk]. run (in_world_spec f s).
    destruct (walk_call D _ _ _ (walk_world D s l (f (world s)).2 H) (Hc (world s)))
      as (r & s1 & a1 & E1 & H1). run E1.
    destruct (IH r s1 _ H1 (Hk r)) as (r2 & s2 & a2 & E2 & H2).
    exists r2, s2, (a1 ++ a2). split; [done|]. by rewrite app_assoc.
Qed.

Lemma filter_total f data s :
  exists b w, filter_received_packet E f data s = Some (b, with_world w s).
Proof.
  assert (Hs : with_world (world s) s = s) by by destruct s.
  assert (Hret : forall b, exists b' w, (mret b : sf state bool) s = Some (b', with_world w s))
    by (intros b; exists b, (world s); by rewrite Hs).
  unfold filter_received_packet. do 3 (case_match; [apply Hret|]).
  destruct (IS_MULTICAST_ADDRESS _); [destruct (multicast_cb f) as [g|]|].
  - run (in_world_spec (on_multicast E g (rx_dest_address data)) s).
    repeat case_match; eauto.
  - rewrite sf_retE. repeat case_match; apply Hret.
  - rewrite sf_retE. repeat case_match; apply Hret.
Qed.

(** The step of the loop for one answer. *)
Definition merge (res : Z) (r : option Z) : Z :=
  match r with
  | Some r =>
      if (r =? APP_LIB_DATA_RECEIVE_RES_HANDLED) && (res =? APP_LIB_DATA_RECEIVE_RES_NOT_FOR_APP) then r
      else if r =? APP_LIB_DATA_RECEIVE_RES_NO_SPACE then r else res
  | None => res
  end.

Lemma merge_verdict rs res :
  res = 0 \/ res = 1 \/ res = 2 ->
  foldl merge res rs =
    if decide (res = 2 \/ Some 2 ∈ rs) then 2 else if decide (res = 0 \/ Some 0 ∈ rs) then 0 else 1.
Proof.
  revert res. induction rs as [|r rs IH]; intros res Hr; cbn [foldl].
  - repeat case_decide; set_solver.
  - assert (Hm : merge res r = 0 \/ merge res r = 1 \/ merge res r = 2)
      by (unfold merge; repeat (case_match; bool_props); subst; auto).
    rewrite IH by done.
    assert (E2 : merge res r = 2 \/ Some 2 ∈ rs <-> res = 2 \/ Some 2 ∈ r :: rs).
    { rewrite elem_of_cons. unfold merge. destruct r as [r|]; [|naive_solver].
      unfold APP_LIB_DATA_RECEIVE_RES_HANDLED, APP_LIB_DATA_RECEIVE_RES_NOT_FOR_APP,
        APP_LIB_DATA_RECEIVE_RES_NO_SPACE.
      destruct (Z.eqb_spec r 0), (Z.eqb_spec res 1), (Z.eqb_spec r 2); subst; cbn; naive_solver lia. }
    destruct (decide (merge res r = 2 \/ _)) as [H2|H2].
    { by rewrite decide_True by by apply E2. }
    rewrite (decide_False (P := res = 2 \/ _)) by by rewrite <- E2.
    apply Decidable.not_or in H2 as [H2 _].
    assert (E0 : merge res r = 0 \/ Some 0 ∈ rs <-> res = 0 \/ Some 0 ∈ r :: rs).
    { rewrite elem_of_cons. unfold merge in *. destruct r as [r|]; [|naive_solver].
      unfold APP_LIB_DATA_RECEIVE_RES_HANDLED, APP_LIB_DATA_RECEIVE_RES_NOT_FOR_APP,
        APP_LIB_DATA_RECEIVE_RES_NO_SPACE in *.
      destruct (Z.eqb_spec r 0), (Z.eqb_spec res 1), (Z.eqb_spec r 2); subst; cbn in *; naive_solver lia. }
    by rewrite (decide_ext _ _ _ _ E0).
Qed.

Lemma merged_verdict rs : foldl merge APP_LIB_DATA_RECEIVE_RES_NOT_FOR_APP rs = verdict rs.
Proof.
  rewrite merge_verdict by (right; by left).
  unfold verdict, APP_LIB_DATA_RECEIVE_RES_HANDLED, APP_LIB_DATA_RECEIVE_RES_NOT_FOR_APP,
    APP_LIB_DATA_RECEIVE_RES_NO_SPACE. repeat case_decide; naive_solver.
Qed.

(** The callbacks of the environment are quiet. *)
Definition quiet_callbacks (D : gset loc) : Prop :=
  forall c p data, all_calls (quiet D) (on_received E c p data).

Lemma walk_update D s l p f :
  walking D s l -> p ∈ l -> (forall it, cb (f it) = cb it) ->
  exists s', update p f s = Some (tt, s') /\ walking D s' l.
Proof.
  intros H Hp Hf. destruct (inv_items s l (walk_inv _ _ _ H) p Hp) as (it & c & Hit & _).
  rewrite (update_spec s p f it Hit). eexists. split; [done|]. eapply walk_store; [done..|]. by rewrite Hf.
Qed.

Lemma offer_spec D data p s l fuel res :
  quiet_callbacks D -> walking D s l -> p ∈ l ->
  exists r s' added, offer data p s = Some (r, s') /\ walking D s' (l ++ added) /\
    forall n, list_next (Some p) s' = Some (n, s') ->
      received_loop E (S fuel) (Some p) data res s = received_loop E fuel n data (merge res r) s'.
Proof.
  intros Hq H Hp. destruct (inv_items s l (walk_inv _ _ _ H) p Hp) as (it & c & Hit & Hc).
  unfold offer. cbn [received_loop]. setoid_rewrite (sf_bindE _ _ _ _ _ (load_spec s p it Hit)).
  destruct (filter_total (item_filter it) data s) as (b & w & Ef). setoid_rewrite (sf_bindE _ _ _ _ _ Ef).
  destruct b; [|exists None, (with_world w s), []].
  2: { rewrite app_nil_r. split; [done|]. split; [by apply walk_world|]. intros n Hn. rewrite sf_retE. by run Hn. }
  rewrite Hc. destruct (walk_script D (on_received E c p data) (with_world w s) l) as (r & s1 & a1 & Er & H1);
    [by apply walk_world|apply Hq|].
  assert (Hp1 : p ∈ l ++ a1) by set_solver.
  destruct (walk_update D s1 _ p (with_reserved3 true) H1 Hp1 ltac:(done)) as (s2 & Eu & H2).
  assert (Hit' : load p (with_world w s) = Some (it, with_world w s)) by by apply load_spec.
  exists (Some r), (if r =? APP_LIB_DATA_RECEIVE_RES_NO_SPACE then s2 else s1), a1.
  run Er. split; [|split].
  - destruct (r =? _); [by run Eu|done].
  - by destruct (r =? _).
  - intros n Hn. rewrite sf_assoc. run Hit'. rewrite Hc, sf_assoc. run Er. unfold merge.
    destruct (Z.eqb_spec r APP_LIB_DATA_RECEIVE_RES_HANDLED) as [->|Hr]; cbn [andb] in *.
    + change (APP_LIB_DATA_RECEIVE_RES_HANDLED =? APP_LIB_DATA_RECEIVE_RES_NO_SPACE) with false in *.
      destruct (res =? _); rewrite sf_retE; by run Hn.
    + destruct (r =? _); [rewrite sf_assoc; run Eu|]; rewrite sf_retE; by run Hn.
Qed.

Lemma received_loop_spec D data fuel s l1 l2 res :
  quiet_callbacks D -> walking D s (l1 ++ l2) -> (size D < fuel + length l1)%nat ->
  exists rs s' added, offers data (l2 ++ added) s = Some (rs, s') /\ walking D s' (l1 ++ l2 ++ added) /\
    received_loop E fuel (head l2) data res s = Some (foldl merge res rs, s').
Proof.
  intros Hq. revert s l1 l2 res. induction fuel as [|fuel IH]; intros s l1 l2 res H Hf.
  all: destruct l2 as [|p l2]; [exists [], s, []; by rewrite !app_nil_r in *|].
  { pose proof (inv_fuel _ _ (walk_inv _ _ _ H)) as Hl. unfold list_fuel in Hl.
    rewrite <- size_dom, (walk_dom _ _ _ H), length_app in Hl. cbn in Hl. lia. }
  destruct (offer_spec D data p s _ fuel res Hq H ltac:(set_solver)) as (r & s1 & a1 & Eo & H1 & Hloop).
  rewrite <- app_assoc in H1.
  cbn [head]. rewrite (Hloop _ (next_spec s1 l1 p (l2 ++ a1) (walk_inv _ _ _ H1))).
  destruct (IH s1 (l1 ++ [p]) (l2 ++ a1) (merge res r)) as (rs & s2 & a2 & Er & H2 & El).
  { by rewrite <- app_assoc. }
  { rewrite length_app. cbn. lia. }
  exists (r :: rs), s2, (a1 ++ a2). rewrite <- !app_assoc in *. cbn [app offers foldl] in *. split; [|done].
  run Eo. by run Er.
Qed.

Lemma received_spec s l data :
  idle s l -> quiet_callbacks (dom (items s)) ->
  exists rs s' added h,
    offers data (l ++ added) (with_iterating true s) = Some (rs, s') /\
    received_cb E data s = Some (verdict rs, with_heap h (with_iterating false s')) /\
    idle (with_heap h (with_iterating false s')) (filter (unmarked s') (l ++ added)) /\
    dom (items s') = dom (items s).
Proof.
  intros [H Hi Hm] Hq. unfold received_cb. run (begin_spec s l H). rewrite putsE, asksE.
  set (s1 := with_iterating true s).
  assert (H1 : walking (dom (items s)) s1 ([] ++ l)) by (split; [by apply (inv_frame s)|done..]).
  assert (Hf : (size (dom (items s)) < list_fuel s1 + length (@nil loc))%nat).
  { unfold list_fuel. cbn [length s1 items with_iterating]. rewrite size_dom. lia. }
  destruct (received_loop_spec _ data (list_fuel s1) s1 [] l APP_LIB_DATA_RECEIVE_RES_NOT_FOR_APP Hq H1 Hf)
    as (rs & s2 & added & Eo & H2 & El).
  exists rs, s2, added. run El. cbn [app] in *.
  destruct (delete_marked_spec s2 _ (walk_inv _ _ _ H2)) as (h & Ed & Hl). exists h.
  run Ed. split; [done|]. split; [|split; [split; [done|done|]|apply H2]].
  - by rewrite <- merged_verdict.
  - apply Forall_forall. intros p Hp. by apply list_elem_of_filter in Hp as [Hp _].
Qed.

(** ** The other callbacks of the stack *)

(** Does the group concern one of the filters?  Their callbacks are asked in
    the order of the list until one says yes. *)
Fixpoint in_groups (a : Z) (fs : list shared_data_filter_t) (w : W) : bool * W :=
  match fs with
  | [] => (false, w)
  | f :: fs =>
      if decide (mode f = SHARED_DATA_NET_MODE_MULTICAST \/ mode f = SHARED_DATA_NET_MODE_ALL) then
        match multicast_cb f with
        | None => (true, w)
        | Some g => let '(yes, w) := on_multicast E g a w in
                    if (yes : bool) then (true, w) else in_groups a fs w
        end
      else in_groups a fs w
  end.

Definition filters (v : view) : list shared_data_filter_t :=
  omap (fun p => item_filter <$> v_items v !! p) (v_list v).

Lemma group_loop_spec fuel s l1 l2 a :
  inv s (l1 ++ l2) -> (length l2 <= fuel)%nat ->
  let r := in_groups a (filters (view_of s l2)) (world s) in
  group_loop E fuel (head l2) a s = Some (r.1, with_world r.2 s).
Proof.
  revert s l1 l2. induction fuel as [|fuel IH]; intros s l1 l2 H Hf.
  all: destruct l2 as [|p l2]; [by destruct s|].
  { cbn in Hf. lia. }
  destruct (inv_items s _ H p ltac:(set_solver)) as (it & c & Hp & _). cbn [head group_loop].
  run (load_spec s p it Hp). unfold filters. cbn [v_list view_of omap list_omap v_items]. rewrite Hp.
  cbn [fmap option_fmap option_map in_groups]. cbn in Hf.
  assert (Hrest : forall w, let r := in_groups a (filters (view_of (with_world w s) l2)) w in
    (n ← list_next (Some p); group_loop E fuel n a) (with_world w s) = Some (r.1, with_world r.2 s)).
  { intros w. assert (Hw : inv (with_world w s) (l1 ++ p :: l2)) by by apply (inv_frame s).
    run (next_spec _ l1 p l2 Hw).
    apply (IH (with_world w s) (l1 ++ [p]) l2); [by rewrite <- app_assoc|lia]. }
  assert (Hs : with_world (world s) s = s) by by destruct s.
  unfold IS_MULTICAST, IS_ANYCAST. set (f := item_filter it).
  assert (Em : negb (mode f =? SHARED_DATA_NET_MODE_MULTICAST) && negb (mode f =? SHARED_DATA_NET_MODE_ALL) =
    negb (bool_decide (mode f = SHARED_DATA_NET_MODE_MULTICAST \/ mode f = SHARED_DATA_NET_MODE_ALL))).
  { destruct (Z.eqb_spec (mode f) SHARED_DATA_NET_MODE_MULTICAST), (Z.eqb_spec (mode f) SHARED_DATA_NET_MODE_ALL);
      cbn; case_bool_decide; cbn; intuition congruence. }
  rewrite Em. clear Em. case_bool_decide as Hm; [rewrite decide_True by done|rewrite decide_False by done];
    cbn [negb].
  - destruct (multicast_cb f) as [g|]; [|by destruct s].
    run (in_world_spec (on_multicast E g a) s). destruct (on_multicast E g a (world s)) as [yes w].
    cbn [fst snd]. destruct yes; [done|]. apply (Hrest w).
  - specialize (Hrest (world s)). by rewrite Hs in Hrest.
Qed.

Lemma group_query_spec s l a :
  idle s l ->
  let r := in_groups a (filters (view_of s l)) (world s) in
  exists s', group_query_cb E a s = Some (r.1, s') /\ rel s' (set_world r.2 (view_of s l)).
Proof.
  intros [H Hi Hm]. unfold group_query_cb. run (begin_spec s l H). rewrite asksE.
  pose proof (inv_fuel _ l H) as Hf. pose proof (group_loop_spec (list_fuel s) s [] l a H ltac:(lia)) as Hg.
  run Hg. set (r := in_groups _ _ _). cbn zeta. destruct r as [b w]. cbn [fst snd].
  assert (Hw : idle (with_world w s) l) by (split; [by apply (inv_frame s)|done..]).
  destruct b; [eexists; split; [done|by exists l]|].
  destruct (delete_marked_spec _ _ (idle_inv _ _ Hw)) as (h & Ed & Hl). run Ed.
  rewrite filter_unmarked in Hl by apply Hw. eexists. split; [done|]. exists l. split; [|done].
  by split.
Qed.

Lemma sent_spec status s l :
  idle s l -> status_tracking_id status < 16 -> 0 <= status_tracking_id status ->
  (forall c st, all_calls (known (dom (items s))) (on_sent E c st)) ->
  exists s' v, sent_cb E status s = Some (tt, s') /\ rel s' v /\ dom (v_items v) = dom (items s).
Proof.
  intros [H Hi Hm] Hlt Hge Hk. unfold sent_cb. set (i := Z.to_nat (status_tracking_id status)).
  assert (Hl : (i < length (m_tracked_packets s))%nat)
    by (rewrite (inv_tracked _ _ H); unfold i, SHARED_DATA_MAX_TRACKED_PACKET; lia).
  apply lookup_lt_is_Some in Hl as [t Ht]. rewrite (readsE (fun s => m_tracked_packets s !! i) _ s t Ht).
  destruct (tracked_cb t) as [c|]; [|exists s, (view_of s l); split_and!; [done|by exists l|done]].
  run (set_tracked_spec s i free_slot t Ht). set (s1 := with_tracked _ s).
  assert (R1 : rel s1 (view_of s1 l)).
  { exists l. split; [|done]. split; [|done..]. apply inv_table; [done|by rewrite length_insert|].
    apply distinct_free, H. }
  destruct (script_refines _ s1 _ R1 (Hk c (with_status_id (tracked_id t) status)))
    as (s2 & Er & R2 & Hd). run Er. eauto.
Qed.

(** ** A whole run *)

(** Before [Shared_Data_init]: memory holds the list head and the items. *)
Record boot s : Prop := {
  boot_head : is_Some (m_next (heap s) !! m_shared_data_head) /\ is_Some (m_head (heap s) !! m_shared_data_head);
  boot_items : forall p, is_Some (items s !! p) -> p <> m_shared_data_head /\ is_Some (m_next (heap s) !! p);
  boot_start : m_initialized s = false }.

Lemma init_idle s :
  boot s -> exists s', Shared_Data_init E s = Some (APP_RES_OK, s') /\ idle s' [] /\ items s' = items s.
Proof.
  intros [[Hn Hh] Hm Hi]. unfold Shared_Data_init. rewrite asksE, Hi.
  destruct (SlList.init_spec (heap s) m_shared_data_head Hn Hh) as (h & Eh & Hl & Ho).
  rewrite (readsE _ _ _ h) by done. rewrite !putsE. eexists. split; [done|]. split; [|done].
  split; [split|done|done]; cbn -[repeat].
  - done.
  - intros p Hp. destruct (Hm p Hp). split; [done|]. by apply Ho.
  - intros p Hp. by apply not_elem_of_nil in Hp.
  - done.
  - intros i j a b Ha _ Hc. apply list_elem_of_lookup_2 in Ha.
    apply list_elem_of_In, repeat_spec in Ha as ->. by destruct Hc.
Qed.

Inductive event :=
| Application (x : script W)
| Received (data : app_lib_data_received_t)
| GroupQuery (group_addr : Z)
| Sent (status : app_lib_data_sent_status_t).

Definition handle (e : event) : sf state unit :=
  match e with
  | Application x => _ ← run_script E x; mret tt
  | Received data => _ ← received_cb E data; mret tt
  | GroupQuery a => _ ← group_query_cb E a; mret tt
  | Sent status => sent_cb E status
  end.

Definition event_ok (D : gset loc) (e : event) : Prop :=
  match e with
  | Application x => all_calls (known D) x
  | Received _ | GroupQuery _ => True
  | Sent status => 0 <= status_tracking_id status < 16
  end.

Fixpoint handle_all (es : list event) : sf state unit :=
  match es with [] => mret tt | e :: es => _ ← handle e; handle_all es end.

Lemma handle_stable e s l :
  idle s l -> quiet_callbacks (dom (items s)) ->
  (forall c st, all_calls (known (dom (items s))) (on_sent E c st)) -> event_ok (dom (items s)) e ->
  exists s' l', handle e s = Some (tt, s') /\ idle s' l' /\ dom (items s') = dom (items s).
Proof.
  intros H Hq Hs He. destruct e as [x|data|a|st]; cbn [event_ok handle] in *.
  - destruct (script_refines x s (view_of s l)) as (s' & Er & (l' & Hl & Ev) & Hd);
      [by exists l|done|]. run Er. rewrite Ev in Hd. eauto.
  - destruct (received_spec s l data H Hq) as (rs & s2 & added & h & _ & Er & Hl & Hd). run Er. eauto.
  - destruct (group_query_spec s l a H) as (s' & Er & (l' & Hl & Ev)). run Er.
    exists s', l'. split_and!; [done..|]. by injection Ev as _ <-.
  - destruct (sent_spec st s l H) as (s' & v & Er & (l' & Hl & ->) & Hd); [lia..|done|]. eauto.
Qed.

(** Removing an item leaves its fields as they are, and never resumes reception. *)
Lemma remove_keeps_item s l p :
  idle s l -> exists s', Shared_Data_removeDataReceivedCb E p s = Some (tt, s') /\
    items s' = items s /\ world s' = world s.
Proof.
  intros [H Hi _]. destruct (remove_idle_spec s l p H Hi) as (h & -> & _). by eexists.
Qed.

(** ** The properties *)

(** C9: Every filter item, in the order of the list and including the items
    registered meanwhile, is offered the packet; the answer to the stack is
    [NO_SPACE] if one item has no space, else [HANDLED] if one handled the
    packet.  The library survives whatever the callbacks register, remove or
    send, and the items removed by the callbacks leave the list afterwards. *)
Theorem received_dispatch s l data :
  idle s l -> quiet_callbacks (dom (items s)) ->
  exists rs s' added h,
    offers data (l ++ added) (with_iterating true s) = Some (rs, s') /\
    received_cb E data s = Some (verdict rs, with_heap h (with_iterating false s')) /\
    idle (with_heap h (with_iterating false s')) (filter (unmarked s') (l ++ added)).
Proof.
  intros H Hq. destruct (received_spec s l data H Hq) as (rs & s' & added & h & Ho & Er & Hl & _).
  by exists rs, s', added, h.
Qed.

(** C8: Between two callbacks of the stack, any sequence of calls of the
    application has the effects of the specification: registration appends once
    and checks the parameters, removal removes, the last busy item that becomes
    ready resumes reception, a packet is tracked in the first free slot. *)
Theorem shared_data_calls x s v :
  rel s v -> all_calls (known (dom (v_items v))) x ->
  exists s', run_script E x s = Some ((spec_script x v).1, s') /\ rel s' (spec_script x v).2.
Proof.
  intros R Hx. destruct (script_refines x s v R Hx) as (s' & Er & R' & _). eauto.
Qed.


(** A packet passes a filter exactly when the filter's mode, its multicast
    group and its endpoints, unless they are -1, fit the packet. *)
Theorem filter_accepts f data s :
  0 <= mode f -> valid_filter f = true ->
  exists b, filter_received_packet E f data s =
      Some (b, with_world (after_multicast f (rx_dest_address data) (world s)) s) /\
    (b = true <-> accepts f data (world s)).
Proof.
  intros Hm Hv. apply valid_filter_spec in Hv as (Hmodes & Hsrc & Hdst & Hcb); [|done].
  assert (Hs : with_world (world s) s = s) by by destruct s.
  pose proof (mode_test (mode f) (rx_dest_address data) Hm ltac:(lia)) as Ht.
  pose proof (endpoint_test _ (rx_src_endpoint data) Hsrc) as Hes.
  pose proof (endpoint_test _ (rx_dest_endpoint data) Hdst) as Hed.
  unfold filter_received_packet, accepts. cbn zeta. setoid_rewrite <- Ht. setoid_rewrite <- Hes.
  setoid_rewrite <- Hed. clear Ht Hes Hed.
  set (a := rx_dest_address data) in *.
  assert (Hno : mode f = 0 \/ mode f = 1 -> after_multicast f a (world s) = world s).
  { intros Hu. unfold after_multicast. by rewrite Hcb. }
  destruct (IS_UNICAST (mode f) && _) eqn:E1.
  { bool_props. rewrite Hno, Hs by (left; by apply Z.eqb_eq). exists false. naive_solver. }
  destruct (IS_BROADCAST (mode f) && _) eqn:E2.
  { bool_props. rewrite Hno, Hs by (right; by apply Z.eqb_eq). exists false. naive_solver. }
  unfold after_multicast, IS_MULTICAST_ADDRESS in *.
  destruct (IS_MULTICAST (mode f) && _) eqn:E3.
  { apply andb_true_iff in E3 as [_ E3]. apply negb_true_iff in E3. exists false. rewrite E3.
    assert (match multicast_cb f with Some _ | None => world s end = world s) as -> by by case_match.
    rewrite Hs. naive_solver. }
  destruct (Z.eqb_spec (Z.land a 0xff000000) APP_ADDR_MULTICAST) as [Ha|Ha].
  - destruct (multicast_cb f) as [g|] eqn:Eg.
    + run (in_world_spec (on_multicast E g a) s). destruct (on_multicast E g a (world s)) as [yes w] eqn:Ew.
      cbn [fst snd]. destruct yes; cbn [negb].
      * assert (Hg : forall g', Some g = Some g' -> (on_multicast E g' a (world s)).1 = true)
          by (intros g' [= <-]; by rewrite Ew).
        repeat case_match; eexists; (split; [done|]); intuition congruence.
      * eexists. split; [done|]. split; [done|]. intros (_ & Hg & _). specialize (Hg Ha g eq_refl).
        by rewrite Ew in Hg.
    + rewrite sf_retE, Hs. cbn [negb]. repeat case_match; eexists; (split; [done|]); intuition congruence.
  - assert (match multicast_cb f with Some _ | None => world s end = world s) as -> by by case_match.
    rewrite sf_retE, Hs. cbn [negb]. repeat case_match; eexists; (split; [done|]); intuition congruence.
Qed.

(** A packet sent with a callback reaches the stack with the identifier of
    a free slot of the table, and the slot is freed again if the stack does not
    take the packet.  When the stack reports on that identifier, the slot is
    freed and the callback runs on the report with the identifier its module
    chose. *)
Theorem tracked_round_trip s l data c :
  idle s l -> m_initialized s = true ->
  ~ Exists (in_use c (to_tracking_id data)) (m_tracked_packets s) ->
  Exists (fun t => tracked_cb t = None) (m_tracked_packets s) ->
  exists i t w res s',
    m_tracked_packets s !! i = Some t /\ tracked_cb t = None /\
    lib_sendData E (with_tracking (Z.lor (to_flags data) 1) (Z.of_nat i) data) (world s) = (res, w) /\
    run_call E (SendCb data (Some c)) s = Some (res, s') /\ world s' = w /\
    (res <> APP_LIB_DATA_SEND_RES_SUCCESS -> m_tracked_packets s' =
       <[i := {| tracked_cb := None; tracked_id := to_tracking_id data |}]> (m_tracked_packets s)) /\
    (res = APP_LIB_DATA_SEND_RES_SUCCESS -> forall status, status_tracking_id status = Z.of_nat i ->
       sent_cb E status s' =
       (_ ← run_script E (on_sent E c (with_status_id (to_tracking_id data) status)); mret tt)
         (with_tracked (<[i := {| tracked_cb := None; tracked_id := to_tracking_id data |}]>
                          (m_tracked_packets s)) s')).
Proof.
  intros [H Hi Hm] Hinit Hno Hfree. cbn [run_call].
  destruct (list_find (fun t => tracked_cb t = None) (m_tracked_packets s)) as [[i t]|] eqn:Ef.
  2: { apply list_find_None in Ef. apply Exists_exists in Hfree as (u & Hu & Hn).
       rewrite Forall_forall in Ef. by destruct (Ef u Hu). }
  destruct (send_spec data (Some c) s l) as (d & tb & w & Es & Ev & _).
  pose proof Ef as (Hit & Ht & _)%list_find_Some.
  exists i, t. unfold spec_send in Es, Ev. cbn [v_initialized v_tracked v_world view_of] in Es, Ev.
  rewrite Hinit in Es, Ev. cbn [negb] in Es, Ev. rewrite decide_False, Ef in Es, Ev by done.
  destruct (lib_sendData E _ (world s)) as [res w'] eqn:Elib. cbn [fst snd] in Es, Ev.
  injection Ev as Et Ew. subst w'. exists w, res, (with_world w (with_tracked tb s)).
  split_and!; [done|done|done|by run Es|done|..].
  - intros Hres. cbn. by rewrite <- Et, decide_False.
  - intros -> status Hst. unfold sent_cb. rewrite Hst, Nat2Z.id, <- Et, decide_True by done.
    assert (Hl : (<[i := {| tracked_cb := Some c; tracked_id := to_tracking_id data |}]>
      (m_tracked_packets s)) !! i = Some {| tracked_cb := Some c; tracked_id := to_tracking_id data |})
      by (apply list_lookup_insert_eq; by eapply lookup_lt_Some).
    set (s1 := with_world w _).
    rewrite (readsE (fun s => m_tracked_packets s !! i) _ s1 _ Hl). cbn [tracked_cb tracked_id].
    run (set_tracked_spec s1 i free_slot _ Hl). unfold s1.
    unfold free_slot. cbn [tracked_id m_tracked_packets with_world with_tracked].
    by rewrite list_insert_insert_eq.
Qed.

End Proofs.

(** ** Witnesses *)

(** The callback 1 removes the item 3 and registers the item 4; the callback 2
    has no space; the others handle the packet. *)
Definition demo_env : env (W := list Z) := {|
  on_received := fun c p _ =>
    match c with
    | 1%positive => Then (fun w => (RemoveCb 3, w)) (fun _ => Then (fun w => (AddCb 4, w))
                      (fun _ => Return (fun w => (0, w ++ [Z.pos p]))))
    | 2%positive => Return (fun w => (2, w ++ [Z.pos p]))
    | _ => Return (fun w => (0, w ++ [Z.pos p]))
    end;
  on_sent := fun c st => Return (fun w => (0, w ++ [status_tracking_id st]));
  on_multicast := fun g a w => (a =? Z.pos g, w);
  setDataReceivedCb := fun w => w;
  registerGroupQuery := fun w => w;
  setDataSentCb := fun w => w;
  allowReception := fun _ w => w ++ [1000];
  lib_sendData := fun d w => (0, w ++ [to_tracking_id d]) |}.

Definition any_filter : shared_data_filter_t :=
  {| mode := SHARED_DATA_NET_MODE_ALL; src_endpoint := -1; dest_endpoint := -1; multicast_cb := None |}.

Definition demo_item (c : fn) : shared_data_item_t :=
  {| reserved2 := true; reserved3 := true; cb := Some c; item_filter := any_filter |}.

Definition demo_boot : state (W := list Z) := {|
  heap := {| m_next := list_to_map [(1, None); (2, None); (3, None); (4, None)]%positive;
             m_head := {[ 1%positive := {| h_last := None; h_size := 0 |} ]} |};
  items := list_to_map [(2, demo_item 1); (3, demo_item 3); (4, demo_item 2)]%positive;
  m_iterating_list := false;
  m_tracked_packets := [];
  m_initialized := false;
  world := [] |}.

Definition demo_packet : app_lib_data_received_t := {|
  rx_bytes := []; rx_num_bytes := 0; rx_src_address := 7; rx_delay := 0; rx_qos := 0;
  rx_src_endpoint := 1; rx_dest_endpoint := 2; rx_hops := 1; rx_dest_address := 9;
  rx_fragment_info := None |}.

Definition demo_send : app_lib_data_to_send_t := {|
  to_bytes := []; to_num_bytes := 0; to_dest_address := 5; to_delay := 0; to_tracking_id := 77;
  to_qos := 0; to_flags := 0; to_src_endpoint := 1; to_dest_endpoint := 1; to_hop_limit := 0;
  to_fragment_info := {| packet_id := 0; fragment_offset := 0; last_fragment := false |} |}.

Definition demo_report (id : Z) : app_lib_data_sent_status_t :=
  {| status_dest_address := 5; queue_time := 0; status_tracking_id := id; status_src_endpoint := 1;
     status_dest_endpoint := 1; success := true |}.

Definition run_of {A} (m : sf (state (W := list Z)) A) (s : state (W := list Z)) : state (W := list Z) :=
  match m s with Some (_, s') => s' | None => s end.

Definition register (ps : list loc) : script (list Z) :=
  foldr (fun p x => Then (fun w => (AddCb p, w)) (fun _ => x)) (Return (fun w => (0, w))) ps.

(** The items 2 and 3 are registered. *)
Definition demo_state : state (W := list Z) :=
  run_of (_ ← Shared_Data_init demo_env; run_script demo_env (register [2; 3]%positive)) demo_boot.

Lemma demo_boots : boot demo_boot.
Proof.
  split; [split; eexists; vm_compute; reflexivity| |done].
  intros p [it Hp]. apply elem_of_list_to_map_2 in Hp.
  repeat (apply elem_of_cons in Hp as [[= -> _]|Hp]; [split; [done|eexists; vm_compute; reflexivity]|]).
  by apply elem_of_nil in Hp.
Qed.

Lemma demo_dom : dom (items demo_boot) = {[2; 3; 4]}%positive.
Proof. by apply (bool_decide_unpack _); vm_compute. Qed.

Lemma demo_quiet : quiet_callbacks demo_env (dom (items demo_boot)).
Proof.
  rewrite demo_dom. intros c p data. cbn. by repeat case_match.
Qed.

Lemma demo_idle : idle demo_state [2; 3]%positive /\ dom (items demo_state) = dom (items demo_boot).
Proof.
  destruct (init_idle demo_env demo_boot demo_boots) as (s0 & E0 & H0 & Ei).
  destruct (script_refines demo_env (register [2; 3]%positive) s0 (view_of s0 [])) as (s' & E1 & (l & Hl & Ev) & Hd).
  { by exists []. }
  { cbn [v_items view_of]. rewrite Ei, demo_dom. cbn. set_solver. }
  assert (E0' := E0). vm_compute in E0'. injection E0' as E0'.
  assert (Es : demo_state = s') by (unfold demo_state, run_of; rewrite (sf_bindE _ _ _ _ _ E0), E1; done).
  assert (El : l = [2; 3]%positive).
  { apply (f_equal v_list) in Ev. cbn [v_list view_of] in Ev. rewrite <- Ev, <- E0'. vm_compute. reflexivity. }
  rewrite Es, <- El. split; [done|]. apply (f_equal v_items) in Ev. cbn [v_items view_of] in Ev, Hd.
  rewrite <- Ev, Hd, Ei. done.
Qed.

Lemma received_dispatch_witness :
  (exists rs s' added h,
    offers demo_env demo_packet ([2; 3]%positive ++ added) (with_iterating true demo_state) = Some (rs, s') /\
    received_cb demo_env demo_packet demo_state = Some (verdict rs, with_heap h (with_iterating false s')) /\
    idle (with_heap h (with_iterating false s')) (filter (unmarked s') ([2; 3]%positive ++ added))) /\
  fst <$> received_cb demo_env demo_packet demo_state = Some APP_LIB_DATA_RECEIVE_RES_NO_SPACE /\
  world (run_of (received_cb demo_env demo_packet) demo_state) = [2; 3; 4].
Proof.
  split; [|split; vm_compute; reflexivity].
  apply (received_dispatch demo_env demo_state [2; 3]%positive demo_packet); [apply demo_idle|].
  rewrite (proj2 demo_idle). exact demo_quiet.
Defined.

Lemma shared_data_calls_witness :
  exists s', run_script demo_env (register [4]%positive) demo_state
      = Some ((spec_script demo_env (register [4]%positive) (view_of demo_state [2; 3]%positive)).1, s') /\
    rel s' (spec_script demo_env (register [4]%positive) (view_of demo_state [2; 3]%positive)).2.
Proof.
  apply (shared_data_calls demo_env); [exists [2; 3]%positive; split; [apply demo_idle|done]|].
  cbn [v_items view_of]. rewrite (proj2 demo_idle), demo_dom. cbn. set_solver.
Defined.

Definition demo_events : list (event (W := list Z)) :=
  [Application (register [2; 3]%positive); Received demo_packet; GroupQuery 3;
   Application (Then (fun w => (SendCb demo_send (Some 5%positive), w)) (fun _ => Return (fun w => (0, w))));
   Sent (demo_report 0);
   Application (Then (fun w => (ReadyCb 4, w)) (fun _ => Return (fun w => (0, w))))].


Lemma filter_accepts_witness :
  exists b, filter_received_packet demo_env any_filter demo_packet demo_boot =
      Some (b, with_world (after_multicast demo_env any_filter (rx_dest_address demo_packet) (world demo_boot)) demo_boot) /\
    (b = true <-> accepts demo_env any_filter demo_packet (world demo_boot)).
Proof. apply (filter_accepts demo_env any_filter demo_packet demo_boot); [by vm_compute|reflexivity]. Defined.

Lemma tracked_round_trip_witness :
  exists i t w res s',
    m_tracked_packets demo_state !! i = Some t /\ tracked_cb t = None /\
    lib_sendData demo_env (with_tracking (Z.lor (to_flags demo_send) 1) (Z.of_nat i) demo_send) (world demo_state) = (res, w) /\
    run_call demo_env (SendCb demo_send (Some 5%positive)) demo_state = Some (res, s') /\ world s' = w /\
    (res <> APP_LIB_DATA_SEND_RES_SUCCESS -> m_tracked_packets s' =
       <[i := {| tracked_cb := None; tracked_id := to_tracking_id demo_send |}]> (m_tracked_packets demo_state)) /\
    (res = APP_LIB_DATA_SEND_RES_SUCCESS -> forall status, status_tracking_id status = Z.of_nat i ->
       sent_cb demo_env status s' =
       (_ ← run_script demo_env (on_sent demo_env 5%positive (with_status_id (to_tracking_id demo_send) status)); mret tt)
         (with_tracked (<[i := {| tracked_cb := None; tracked_id := to_tracking_id demo_send |}]>
                          (m_tracked_packets demo_state)) s')).
Proof.
  apply (tracked_round_trip demo_env demo_state [2; 3]%positive demo_send 5%positive).
  - apply demo_idle.
  - reflexivity.
  - apply (bool_decide_unpack _). by vm_compute.
  - apply (bool_decide_unpack _). by vm_compute.
Defined.

(** ** What the code does not do

    A module that is ready again inside a callback ends the iteration under
    way: the items that the callback removes afterwards leave the list at once,
    but the stale [next] pointer of the first leads to the second.  Here the
    item 2 has no space; the callback of the item 3 makes it ready and removes
    itself and the item 4, which is called all the same. *)
Definition stale_env : env (W := list Z) := {|
  on_received := fun c p _ =>
    match c with
    | 2%positive => Return (fun w => (2, w ++ [Z.pos p]))
    | 3%positive => Then (fun w => (ReadyCb 2, w)) (fun _ => Then (fun w => (RemoveCb 3, w))
                      (fun _ => Then (fun w => (RemoveCb 4, w)) (fun _ => Return (fun w => (0, w ++ [Z.pos p])))))
    | _ => Return (fun w => (0, w ++ [Z.pos p]))
    end;
  on_sent := on_sent demo_env; on_multicast := on_multicast demo_env;
  setDataReceivedCb := fun w => w; registerGroupQuery := fun w => w; setDataSentCb := fun w => w;
  allowReception := fun _ w => w ++ [1000];
  lib_sendData := lib_sendData demo_env |}.

Definition stale_boot : state (W := list Z) :=
  with_items (list_to_map [(2, demo_item 2); (3, demo_item 3); (4, demo_item 4)]%positive) demo_boot.

Lemma removed_item_is_called :
  world (run_of (_ ← Shared_Data_init stale_env; _ ← run_script stale_env (register [2; 3; 4]%positive);
                 received_cb stale_env demo_packet) stale_boot) = [2; 1000; 3; 4].
Proof. by vm_compute. Qed.

(** An item removed and registered again inside a callback is told so, and is
    removed when the iteration ends. *)
Definition again_env : env (W := list Z) := {|
  on_received := fun c p _ => Then (fun w => (RemoveCb p, w)) (fun _ => Then (fun w => (AddCb p, w))
                   (fun r => Return (fun w => (0, w ++ [r]))));
  on_sent := on_sent demo_env; on_multicast := on_multicast demo_env;
  setDataReceivedCb := fun w => w; registerGroupQuery := fun w => w; setDataSentCb := fun w => w;
  allowReception := fun _ w => w;
  lib_sendData := lib_sendData demo_env |}.

Lemma registered_again_is_lost :
  let s := run_of (_ ← Shared_Data_init again_env; _ ← run_script again_env (register [2]%positive);
                   received_cb again_env demo_packet) demo_boot in
  world s = [APP_RES_OK] /\ m_next (heap s) !! m_shared_data_head = Some None.
Proof. split; by vm_compute. Qed.
