(* ===== verification/SharedAppconfig.v ===== *)
(** * Shared app config library

    Models [libraries/shared_appconfig/shared_appconfig.c]: the modules of an
    application register filters on the type of the TLV entries of the app
    config; when a config arrives, each entry is given to the filters of its
    type.

    The callbacks of the application are arbitrary functions on the state, so
    they may add and remove filters, or do anything else, while the library
    dispatches: what is dispatched was copied before.  The copy is an array on
    the C stack whose elements hold no defined value until they are written:
    it is a list of options, and reading an element that was not written is a
    fault.  The number of filters is chosen by the build. *)

From S2P Require Import Prelude Tlv Api.

Abbreviation fn := positive.

(** Tag at the beginning of an app config. *)
Definition APP_CONFIG_V1_TLV : Z := 0x7EF6.

(** [sizeof(tlv_app_config_header_t)]: a 16-bit version and the number of
    entries. *)
Definition APP_CONFIG_HEADER_SIZE : nat := 3.

Definition SHARED_APP_CONFIG_ALL_TYPE_FILTER : Z := 0xFFFF.
Definition SHARED_APP_CONFIG_INCOMPATIBLE_FILTER : Z := 0xFFFE.

Inductive shared_app_config_res_e :=
| SHARED_APP_CONFIG_RES_OK | SHARED_APP_CONFIG_RES_NO_FILTER | SHARED_APP_CONFIG_RES_INVALID_PARAM
| SHARED_APP_CONFIG_RES_INVALID_FILTER | SHARED_APP_CONFIG_RES_UNINITIALIZED
| SHARED_APP_CONFIG_RES_INVALID_ROLE.

#[export] Instance shared_app_config_res_eq_dec : EqDecision shared_app_config_res_e.
Proof. solve_decision. Defined.

Record shared_app_config_filter_t := { f_type : Z; f_cb : option fn; call_cb_always : bool }.

Record shared_app_config_internal_filter_t := { i_filter : shared_app_config_filter_t; called : bool }.

Definition fresh_filter (f : shared_app_config_filter_t) : shared_app_config_internal_filter_t :=
  {| i_filter := f; called := false |}.
Definition set_called (f : shared_app_config_internal_filter_t) : shared_app_config_internal_filter_t :=
  {| i_filter := i_filter f; called := true |}.

Section Appconfig.
Context {W : Type} (MAX_FILTER : nat).

Record state := {
  m_initialized : bool;
  m_filter : list shared_app_config_filter_t;
  world : W }.

(** The callbacks: what they get is the type, the length and the bytes found
    at the value pointer, or [None] for [NULL]. *)
Record env := {
  on_config : fn -> Z -> Z -> option (list Z) -> state -> state;
  setNewAppConfigCb : W -> W;
  getAppConfigNumBytes : Z;
  readAppConfig : W -> Z * list Z;
  writeAppConfigData : list Z -> W -> Z * W }.

Definition with_filters (l : list shared_app_config_filter_t) (s : state) : state :=
  {| m_initialized := m_initialized s; m_filter := l; world := world s |}.
Definition with_world (w : W) (s : state) : state :=
  {| m_initialized := m_initialized s; m_filter := m_filter s; world := w |}.

Abbreviation M := (sf state).
Abbreviation filters := (list (option shared_app_config_internal_filter_t)).

(** ** Dispatch *)

Definition type_matches (type : Z) (f : shared_app_config_filter_t) : bool :=
  (f_type f =? type) || (f_type f =? SHARED_APP_CONFIG_ALL_TYPE_FILTER).

(** [filters[i].filter.cb(type, len, val)] *)
Definition call_cb (E : env) (f : shared_app_config_filter_t) (type len : Z) (val : option (list Z))
    : M unit :=
  match f_cb f with
  | Some c => puts (on_config E c type len val)
  | None => fault
  end.

(** The loop from index [i] on, [n] filters left. *)
Fixpoint dispatch_loop (E : env) (n i : nat) (fs : filters) (type len : Z) (val : list Z) : M filters :=
  match n with
  | O => mret fs
  | S n =>
      match fs !! i with
      | Some (Some f) =>
          if type_matches type (i_filter f) then
            _ ← call_cb E (i_filter f) type len (Some val);
            dispatch_loop E n (S i) (<[i := Some (set_called f)]> fs) type len val
          else dispatch_loop E n (S i) fs type len val
      | _ => fault
      end
  end.

Definition dispatch_to_modules (E : env) (fs : filters) (num_filters : nat) (type len : Z)
    (val : list Z) : M filters := dispatch_loop E num_filters 0 fs type len val.

Fixpoint inform_loop (E : env) (n i : nat) (fs : filters) : M unit :=
  match n with
  | O => mret tt
  | S n =>
      match fs !! i with
      | Some (Some f) =>
          _ ← (if negb (called f) && call_cb_always (i_filter f)
               then call_cb E (i_filter f) (f_type (i_filter f)) 0 None else mret tt);
          inform_loop E n (S i) fs
      | _ => fault
      end
  end.

Definition inform_other_modules (E : env) (fs : filters) (num_filters : nat) : M unit :=
  inform_loop E num_filters 0 fs.

(** [while (entry_number--)] *)
Fixpoint entry_loop (E : env) (entry_number : nat) (record : tlv_record) (fs : filters)
    (num_filters : nat) : M filters :=
  match entry_number with
  | O => mret fs
  | S entry_number =>
      match Tlv_Decode_getNextItem record with
      | (TLV_RES_OK, record, Some item) =>
          fs ← dispatch_to_modules E fs num_filters (type item) (length item) (value item);
          entry_loop E entry_number record fs num_filters
      | _ => mret fs
      end
  end.

Definition config_version (bytes : list Z) : Z := le_get (take 2 bytes).
Definition config_entries (bytes : list Z) : nat := Z.to_nat (bytes !!! 2%nat).
Definition config_record (E : env) (bytes : list Z) : tlv_record :=
  Tlv_init (drop APP_CONFIG_HEADER_SIZE bytes)
    (u8 (getAppConfigNumBytes E - Z.of_nat APP_CONFIG_HEADER_SIZE)).

Definition inform_filters (E : env) (bytes : list Z) (fs : filters) (num_filters : nat) : M unit :=
  if negb (config_version bytes =? APP_CONFIG_V1_TLV) then
    fs ← dispatch_to_modules E fs num_filters SHARED_APP_CONFIG_INCOMPATIBLE_FILTER
           (u8 (getAppConfigNumBytes E)) bytes;
    inform_other_modules E fs num_filters
  else
    fs ← entry_loop E (config_entries bytes) (config_record E bytes) fs num_filters;
    inform_other_modules E fs num_filters.

(** The copy: element [i] is written when the filter [i] is in use. *)
Fixpoint copy_filters (l : list shared_app_config_filter_t) : filters * nat :=
  match l with
  | [] => ([], 0%nat)
  | f :: l =>
      let '(fs, nb_filter) := copy_filters l in
      match f_cb f with
      | Some _ => (Some (fresh_filter f) :: fs, S nb_filter)
      | None => (None :: fs, nb_filter)
      end
  end.

Definition new_app_config_cb (E : env) (bytes : list Z) (seq interval : Z) : M unit :=
  copy ← asks (fun s => copy_filters (m_filter s));
  inform_filters E bytes copy.1 copy.2.

(** ** The API *)

Definition no_filter : shared_app_config_filter_t :=
  {| f_type := 0; f_cb := None; call_cb_always := false |}.

Definition free_filter (f : shared_app_config_filter_t) : shared_app_config_filter_t :=
  {| f_type := f_type f; f_cb := None; call_cb_always := call_cb_always f |}.

Definition Shared_Appconfig_init (E : env) : M shared_app_config_res_e :=
  initialized ← asks m_initialized;
  if (initialized : bool) then mret SHARED_APP_CONFIG_RES_OK
  else
    _ ← puts (fun s => with_world (setNewAppConfigCb E (world s)) s);
    _ ← puts (fun s => with_filters (free_filter <$> m_filter s) s);
    _ ← puts (fun s => {| m_initialized := true; m_filter := m_filter s; world := world s |});
    mret SHARED_APP_CONFIG_RES_OK.

(** The first free element of [m_filter]. *)
Fixpoint first_free (i : nat) (l : list shared_app_config_filter_t) : option nat :=
  match l with
  | [] => None
  | f :: l => match f_cb f with None => Some i | Some _ => first_free (S i) l end
  end.

(** [filter_id] is written when the result is OK. *)
Definition Shared_Appconfig_addFilter (E : env) (filter : shared_app_config_filter_t)
    : M (shared_app_config_res_e * option nat) :=
  initialized ← asks m_initialized;
  if negb initialized then mret (SHARED_APP_CONFIG_RES_UNINITIALIZED, None)
  else
    match f_cb filter with
    | None => mret (SHARED_APP_CONFIG_RES_INVALID_PARAM, None)
    | Some _ =>
        slot ← asks (fun s => first_free 0 (m_filter s));
        match slot with
        | None => mret (SHARED_APP_CONFIG_RES_NO_FILTER, None)
        | Some i =>
            _ ← puts (fun s => with_filters (<[i := filter]> (m_filter s)) s);
            config ← asks (fun s => readAppConfig E (world s));
            _ ← (if config.1 =? APP_LIB_DATA_APP_CONFIG_RES_SUCCESS
                 then inform_filters E config.2 [Some (fresh_filter filter)] 1
                 else mret tt);
            mret (SHARED_APP_CONFIG_RES_OK, Some i)
        end
    end.

Definition Shared_Appconfig_removeFilter (filter_id : Z) : M shared_app_config_res_e :=
  initialized ← asks m_initialized;
  if negb initialized then mret SHARED_APP_CONFIG_RES_UNINITIALIZED
  else
    l ← asks m_filter;
    if filter_id <? Z.of_nat MAX_FILTER then
      match l !! Z.to_nat filter_id with
      | Some f =>
          match f_cb f with
          | Some _ =>
              _ ← puts (with_filters (<[Z.to_nat filter_id := free_filter f]> l));
              mret SHARED_APP_CONFIG_RES_OK
          | None => mret SHARED_APP_CONFIG_RES_INVALID_FILTER
          end
      | None => fault
      end
    else mret SHARED_APP_CONFIG_RES_INVALID_FILTER.

Definition Shared_Appconfig_setAppConfig (E : env) (bytes : list Z) : M shared_app_config_res_e :=
  initialized ← asks m_initialized;
  if negb initialized then mret SHARED_APP_CONFIG_RES_UNINITIALIZED
  else
    r ← asks (fun s => writeAppConfigData E bytes (world s));
    _ ← puts (with_world r.2);
    if r.1 =? APP_LIB_DATA_APP_CONFIG_RES_INVALID_NULL_POINTER then mret SHARED_APP_CONFIG_RES_INVALID_PARAM
    else if r.1 =? APP_LIB_DATA_APP_CONFIG_RES_INVALID_ROLE then mret SHARED_APP_CONFIG_RES_INVALID_ROLE
    else if negb (r.1 =? APP_LIB_DATA_APP_CONFIG_RES_SUCCESS) then mret SHARED_APP_CONFIG_RES_INVALID_PARAM
    else
      _ ← new_app_config_cb E bytes (u8 (-1)) (u16 (-1));
      mret SHARED_APP_CONFIG_RES_OK.

Definition Shared_Appconfig_notifyAppConfig (E : env) (bytes : list Z) : M shared_app_config_res_e :=
  initialized ← asks m_initialized;
  if negb initialized then mret SHARED_APP_CONFIG_RES_UNINITIALIZED
  else
    _ ← new_app_config_cb E bytes (u8 (-1)) (u16 (-1));
    mret SHARED_APP_CONFIG_RES_OK.

End Appconfig.

(** ** What is delivered *)

Section Proofs.
Context {W : Type} (MAX_FILTER : nat) (E : env (W := W)).
Abbreviation state := (state (W := W)).
Implicit Types s : state.

(** The entries of a config: type, length and the bytes from the value on. *)
Abbreviation message := (Z * Z * list Z)%type.

Definition concerns (ty : Z) (f : shared_app_config_filter_t) : Prop :=
  f_type f = ty \/ f_type f = SHARED_APP_CONFIG_ALL_TYPE_FILTER.
#[export] Instance concerns_dec ty f : Decision (concerns ty f).
Proof. unfold concerns. apply _. Defined.

Definition in_service (f : shared_app_config_filter_t) : Prop := is_Some (f_cb f).

(** One call of a callback: the filter and the arguments. *)
Definition delivery : Type := shared_app_config_filter_t * (Z * Z * option (list Z)).

Definition deliver s (d : delivery) : state :=
  match f_cb d.1 with
  | Some c => on_config E c d.2.1.1 d.2.1.2 d.2.2 s
  | None => s
  end.

(** Each message goes to the filters it concerns; then the filters that ask for
    it and got nothing are told. *)
Definition to_filters (F : list shared_app_config_filter_t) (m : message) : list delivery :=
  (fun f => (f, (m.1.1, m.1.2, Some m.2))) <$> filter (concerns m.1.1) F.

Definition untouched (ms : list message) (f : shared_app_config_filter_t) : Prop :=
  call_cb_always f = true /\ Forall (fun m => ~ concerns m.1.1 f) ms.
#[export] Instance untouched_dec ms f : Decision (untouched ms f).
Proof. unfold untouched. apply _. Defined.

Definition deliveries (F : list shared_app_config_filter_t) (ms : list message) : list delivery :=
  (ms ≫= to_filters F) ++ ((fun f => (f, (f_type f, 0, None))) <$> filter (untouched ms) F).

(** At most [n] entries, up to the first that is wrong. *)
Fixpoint entries (n : nat) (r : tlv_record) : list message :=
  match n with
  | O => []
  | S n =>
      match Tlv_Decode_getNextItem r with
      | (TLV_RES_OK, r, Some item) => (type item, length item, value item) :: entries n r
      | _ => []
      end
  end.

Definition messages (bytes : list Z) : list message :=
  if decide (config_version bytes = APP_CONFIG_V1_TLV)
  then entries (config_entries bytes) (config_record E bytes)
  else [(SHARED_APP_CONFIG_INCOMPATIBLE_FILTER, u8 (getAppConfigNumBytes E), bytes)].

(** ** The loops *)

(** The working copy after the messages [ms]. *)
Definition copy_after (F : list shared_app_config_filter_t) (ms : list message) :=
  (fun f => Some {| i_filter := f; called := bool_decide (Exists (fun m => concerns m.1.1 f) ms) |}) <$> F.

Lemma type_matches_spec ty f : type_matches ty f = bool_decide (concerns ty f).
Proof.
  unfold type_matches, concerns. destruct (Z.eqb_spec (f_type f) ty),
    (Z.eqb_spec (f_type f) SHARED_APP_CONFIG_ALL_TYPE_FILTER); cbn; symmetry;
    first [apply bool_decide_eq_true_2; auto | apply bool_decide_eq_false_2; intuition].
Qed.

Lemma call_cb_spec f ty len val s :
  in_service f -> call_cb E f ty len val s = Some (tt, deliver s (f, (ty, len, val))).
Proof. intros [c Hc]. unfold call_cb, deliver. cbn [fst snd]. by rewrite Hc. Qed.

Lemma dispatch_loop_spec F1 F2 tl ms (m : message) s :
  Forall in_service F2 ->
  dispatch_loop E (List.length F2) (List.length F1)
      (copy_after F1 (ms ++ [m]) ++ copy_after F2 ms ++ tl) m.1.1 m.1.2 m.2 s
    = Some (copy_after (F1 ++ F2) (ms ++ [m]) ++ tl, foldl deliver s (to_filters F2 m)).
Proof.
  revert F1 s. induction F2 as [|f F2 IH]; intros F1 s Hf.
  { cbn [dispatch_loop List.length]. unfold copy_after. by rewrite app_nil_r. }
  apply Forall_cons in Hf as [Hf HF]. cbn [dispatch_loop List.length].
  assert (Hl : List.length F1 = List.length (copy_after F1 (ms ++ [m])))
    by (unfold copy_after; by rewrite length_fmap).
  assert (Hat : (copy_after F1 (ms ++ [m]) ++ copy_after (f :: F2) ms ++ tl) !! List.length F1 =
    Some (Some {| i_filter := f; called := bool_decide (Exists (fun m => concerns m.1.1 f) ms) |})).
  { rewrite Hl. by apply list_lookup_middle. }
  rewrite Hat. cbn [i_filter]. rewrite type_matches_spec.
  assert (Hnext : forall s' x,
    x = bool_decide (Exists (fun m => concerns m.1.1 f) (ms ++ [m])) ->
    dispatch_loop E (List.length F2) (S (List.length F1))
      (copy_after F1 (ms ++ [m]) ++ Some {| i_filter := f; called := x |} :: copy_after F2 ms ++ tl) m.1.1 m.1.2 m.2 s'
    = Some (copy_after (F1 ++ f :: F2) (ms ++ [m]) ++ tl, foldl deliver s' (to_filters F2 m))).
  { intros s' x ->. specialize (IH (F1 ++ [f]) s' HF). rewrite length_app in IH. cbn [List.length] in IH.
    rewrite Nat.add_1_r in IH. unfold copy_after in *. rewrite !fmap_app, <- !app_assoc in IH.
    rewrite fmap_app, <- app_assoc. exact IH. }
  unfold to_filters. destruct (bool_decide (concerns m.1.1 f)) eqn:Hc;
    [apply bool_decide_eq_true in Hc|apply bool_decide_eq_false in Hc].
  - rewrite (sf_bindE _ _ _ _ _ (call_cb_spec f _ _ _ s Hf)). rewrite filter_cons_True by done.
    cbn [fmap list_fmap foldl]. unfold set_called. cbn [i_filter].
    rewrite insert_app_r_alt by lia. rewrite <- Hl, Nat.sub_diag. apply Hnext.
    symmetry. apply bool_decide_eq_true_2, Exists_app. right. by left.
  - rewrite filter_cons_False by done. apply Hnext. apply bool_decide_ext.
    rewrite Exists_app, Exists_cons, Exists_nil. tauto.
Qed.

Lemma dispatch_spec F tl ms (m : message) s :
  Forall in_service F ->
  dispatch_to_modules E (copy_after F ms ++ tl) (List.length F) m.1.1 m.1.2 m.2 s
    = Some (copy_after F (ms ++ [m]) ++ tl, foldl deliver s (to_filters F m)).
Proof. exact (dispatch_loop_spec [] F tl ms m s). Qed.

Lemma inform_loop_spec F1 F2 tl ms s :
  Forall in_service F2 ->
  inform_loop E (List.length F2) (List.length F1) (copy_after (F1 ++ F2) ms ++ tl) s
    = Some (tt, foldl deliver s ((fun f => (f, (f_type f, 0, None))) <$> filter (untouched ms) F2)).
Proof.
  revert F1 s. induction F2 as [|f F2 IH]; intros F1 s Hf; [done|].
  apply Forall_cons in Hf as [Hf HF]. cbn [inform_loop List.length].
  assert (Hat : (copy_after (F1 ++ f :: F2) ms ++ tl) !! List.length F1 =
    Some (Some {| i_filter := f; called := bool_decide (Exists (fun m => concerns m.1.1 f) ms) |})).
  { unfold copy_after. rewrite fmap_app, <- app_assoc. apply list_lookup_middle. by rewrite length_fmap. }
  rewrite Hat. cbn [i_filter called].
  specialize (IH (F1 ++ [f])). rewrite length_app, <- app_assoc in IH. cbn [List.length app] in IH.
  rewrite Nat.add_1_r in IH.
  assert (Hu : negb (bool_decide (Exists (fun m => concerns m.1.1 f) ms)) && call_cb_always f =
    bool_decide (untouched ms f)).
  { pose proof (Forall_Exists_neg (fun m => concerns m.1.1 f) ms) as Hfe. destruct (bool_decide (Exists _ ms)) eqn:Ee;
      [apply bool_decide_eq_true in Ee|apply bool_decide_eq_false in Ee]; cbn; symmetry.
    - apply bool_decide_eq_false_2. intros [_ Hn]. by apply Hfe in Hn.
    - destruct (call_cb_always f) eqn:Ea; cbn.
      + apply bool_decide_eq_true_2. split; [done|by apply Hfe].
      + apply bool_decide_eq_false_2. intros [Ha _]. congruence. }
  rewrite Hu. clear Hu Hat. destruct (bool_decide (untouched ms f)) eqn:Hc;
    [apply bool_decide_eq_true in Hc|apply bool_decide_eq_false in Hc].
  - rewrite (sf_bindE _ _ _ _ _ (call_cb_spec f _ _ _ s Hf)). rewrite filter_cons_True by done. by apply IH.
  - rewrite filter_cons_False, sf_retE by done. by apply IH.
Qed.

Lemma entry_loop_spec F tl n r ms s :
  Forall in_service F ->
  entry_loop E n r (copy_after F ms ++ tl) (List.length F) s
    = Some (copy_after F (ms ++ entries n r) ++ tl, foldl deliver s (entries n r ≫= to_filters F)).
Proof.
  intros HF. revert r ms s. induction n as [|n IH]; intros r ms s; cbn [entry_loop entries].
  { by rewrite app_nil_r. }
  destruct (Tlv_Decode_getNextItem r) as [[[] r'] [item|]]; try by rewrite app_nil_r.
  pose proof (dispatch_spec F tl ms (type item, length item, value item) s HF) as Hd. cbn [fst snd] in Hd.
  rewrite (sf_bindE _ _ _ _ _ Hd), IH, <- app_assoc. cbn [app]. rewrite bind_cons, foldl_app. done.
Qed.

Lemma inform_spec F tl bytes s :
  Forall in_service F ->
  inform_filters E bytes (copy_after F [] ++ tl) (List.length F) s
    = Some (tt, foldl deliver s (deliveries F (messages bytes))).
Proof.
  intros HF. unfold inform_filters, messages, deliveries. rewrite foldl_app.
  destruct (Z.eqb_spec (config_version bytes) APP_CONFIG_V1_TLV) as [Hv|Hv]; cbn [negb].
  - rewrite (decide_True (P := _ = _)) by done.
    pose proof (entry_loop_spec F tl (config_entries bytes) (config_record E bytes) [] s HF) as He.
    rewrite (sf_bindE _ _ _ _ _ He). exact (inform_loop_spec [] F tl _ _ HF).
  - rewrite (decide_False (P := _ = _)) by done.
    pose proof (dispatch_spec F tl [] (SHARED_APP_CONFIG_INCOMPATIBLE_FILTER, u8 (getAppConfigNumBytes E), bytes) s HF) as Hd.
    cbn [fst snd app] in Hd. rewrite (sf_bindE _ _ _ _ _ Hd). rewrite bind_cons, foldl_app.
    exact (inform_loop_spec [] F tl _ _ HF).
Qed.

(** ** The copy of the filters *)

Definition free (f : shared_app_config_filter_t) : Prop := f_cb f = None.

Lemma copy_packed F tl :
  Forall in_service F -> Forall free tl ->
  exists tl', copy_filters (F ++ tl) = (copy_after F [] ++ tl', List.length F).
Proof.
  intros HF Htl. induction HF as [|f F [c Hc] _ IH]; cbn [app copy_filters].
  - exists (copy_filters tl).1. induction Htl as [|f tl Hf _ IHt]; [done|]. cbn [copy_filters].
    destruct (copy_filters tl) as [fs n]. rewrite Hf. cbn in *. by injection IHt as ->.
  - destruct IH as (tl' & ->). exists tl'. by rewrite Hc.
Qed.

(** An element among the first that was not written. *)
Definition hole (fs : list (option shared_app_config_internal_filter_t)) (i n : nat) : Prop :=
  exists j, (i <= j < i + n)%nat /\ fs !! j = Some None.

Lemma hole_next fs i n f : fs !! i = Some (Some f) -> hole fs i (S n) -> hole fs (S i) n.
Proof.
  intros Hi (j & Hj & Hl). exists j. split; [|done]. assert (j <> i) by congruence. lia.
Qed.

Lemma dispatch_hole n i fs ty len val s :
  hole fs i n -> dispatch_loop E n i fs ty len val s = None.
Proof.
  revert i fs s. induction n as [|n IH]; intros i fs s Hh; [destruct Hh as (j & Hj & _); lia|].
  cbn [dispatch_loop]. destruct (fs !! i) as [[f|]|] eqn:Ef; [|done..].
  apply (hole_next _ _ _ _ Ef) in Hh. destruct (type_matches _ _); [|by apply IH].
  unfold mbind, sf_bind. destruct (call_cb _ _ _ _ _ s) as [[[] s']|]; [|done].
  apply IH. destruct Hh as (j & Hj & Hl). exists j. split; [done|].
  by rewrite list_lookup_insert_ne by lia.
Qed.

Lemma inform_hole n i fs s : hole fs i n -> inform_loop E n i fs s = None.
Proof.
  revert i s. induction n as [|n IH]; intros i s Hh; [destruct Hh as (j & Hj & _); lia|].
  cbn [inform_loop]. destruct (fs !! i) as [[f|]|] eqn:Ef; [|done..].
  apply (hole_next _ _ _ _ Ef) in Hh. unfold mbind, sf_bind.
  match goal with |- context [(if ?b then ?x else ?y) s] => destruct ((if b then x else y) s) as [[[] s']|] end;
    [by apply IH|done].
Qed.

Lemma filters_hole fs n bytes s : hole fs 0 n -> inform_filters E bytes fs n s = None.
Proof.
  intros Hh. unfold inform_filters. destruct (negb _).
  - unfold mbind, sf_bind, dispatch_to_modules. by rewrite dispatch_hole.
  - destruct (config_entries bytes) as [|k]; cbn [entry_loop].
    + rewrite sf_retE. by apply inform_hole.
    + unfold mbind, sf_bind, dispatch_to_modules.
      destruct (Tlv_Decode_getNextItem _) as [[[] r'] [item|]]; cbn; try (by apply inform_hole).
      by rewrite dispatch_hole.
Qed.

Lemma copy_hole l f1 f2 l1 l2 l3 :
  l = l1 ++ f1 :: l2 ++ f2 :: l3 -> free f1 -> in_service f2 ->
  hole (copy_filters l).1 0 (copy_filters l).2.
Proof.
  intros -> H1 [c2 H2].
  assert (Hpos : forall k, (0 < (copy_filters (k ++ f2 :: l3)).2)%nat).
  { induction k as [|f k IH]; cbn [app copy_filters].
    - destruct (copy_filters l3). rewrite H2. cbn. lia.
    - destruct (copy_filters _). destruct (f_cb f); cbn in *; lia. }
  induction l1 as [|f l1 IH]; cbn [app copy_filters].
  - specialize (Hpos l2). destruct (copy_filters (l2 ++ _)) as [fs n]. rewrite H1. cbn in *.
    exists 0%nat. split; [lia|done].
  - destruct (copy_filters (l1 ++ _)) as [fs n]. destruct (f_cb f); cbn in *.
    + destruct IH as (j & Hj & Hl). exists (S j). split; [lia|done].
    + destruct IH as (j & Hj & Hl). exists 0%nat. split; [lia|done].
Qed.

(** A free slot in front of a filter in use: the dispatch reads an element of
    the array on the stack that was never written. *)
Lemma config_after_removal bytes seq interval s l1 f1 l2 f2 l3 :
  m_filter s = l1 ++ f1 :: l2 ++ f2 :: l3 -> free f1 -> in_service f2 ->
  new_app_config_cb E bytes seq interval s = None.
Proof.
  intros Hl H1 H2. unfold new_app_config_cb. rewrite asksE. apply filters_hole. by eapply copy_hole.
Qed.

(** ** Configs made by the encoder *)

Definition message_view (m : message) : Z * Z * list Z := (m.1.1, m.1.2, take (Z.to_nat m.1.2) m.2).

Lemma entries_wires items r tl :
  wf r -> Forall item_wf items -> Forall (fun i => length i <= 127) items ->
  (last_readable items \/ tl <> []) -> rest r = wires items ++ tl ->
  message_view <$> entries (List.length items) r = view <$> items.
Proof.
  intros Hr Hi. revert r Hr. induction Hi as [|item items Hi Hall IH]; intros r Hr Hl Hlast Er; [done|].
  apply Forall_cons in Hl as [Hli Hl]. rewrite wires_cons, <- app_assoc in Er.
  pose proof (length_rest r Hr) as Hn. rewrite Er, length_app in Hn. pose proof Hr as [_ _ Hu Hx].
  assert (H3 : (3 <= List.length (rest r))%nat /\ (last_readable items \/ tl <> [])).
  { rewrite Er. destruct Hlast as [Hlast|Htl].
    - apply last_readable_rest in Hlast as [H3 Hlast]; [|by constructor]. rewrite wires_cons in H3.
      rewrite !length_app in *. split; [lia|auto].
    - pose proof (wire_length2 _ Hi). destruct tl as [|b tl]; [done|]. rewrite !length_app. cbn [List.length].
      split; [lia|auto]. }
  destruct H3 as [H3 Hlast']. cbn [entries List.length].
  rewrite (getNextItem_wire r item (wires items ++ tl)) by done.
  set (r1 := with_index _ _). cbn [fmap list_fmap type length value]. f_equal.
  - unfold message_view, view. cbn [fst snd]. f_equal. by apply take_item_bytes.
  - apply IH; [apply with_index_wf; [done|lia]|done|done|].
    subst r1. rewrite rest_with_index, Er, Nat2Z.id by (done || lia). by rewrite drop_app_length.
Qed.

Lemma first_free_spec k l :
  match first_free k l with
  | Some i => exists j f, i = (k + j)%nat /\ l !! j = Some f /\ free f /\ Forall in_service (take j l)
  | None => Forall in_service l
  end.
Proof.
  revert k. induction l as [|f l IH]; intros k; cbn [first_free]; [constructor|].
  destruct (f_cb f) as [c|] eqn:Ec.
  - specialize (IH (S k)). destruct (first_free (S k) l) as [i|].
    + destruct IH as (j & g & -> & Hj & Hg & Ht). exists (S j), g. split_and!; [lia|done|done|].
      constructor; [by exists c|done].
    + constructor; [by exists c|done].
  - exists 0%nat, f. split_and!; [lia|done|done|constructor].
Qed.

Lemma remove_spec s id :
  m_initialized s = true -> List.length (m_filter s) = MAX_FILTER -> 0 <= id ->
  Shared_Appconfig_removeFilter MAX_FILTER id s =
    match m_filter s !! Z.to_nat id with
    | Some f => if decide (in_service f)
                then Some (SHARED_APP_CONFIG_RES_OK, with_filters (<[Z.to_nat id := free_filter f]> (m_filter s)) s)
                else Some (SHARED_APP_CONFIG_RES_INVALID_FILTER, s)
    | None => Some (SHARED_APP_CONFIG_RES_INVALID_FILTER, s)
    end.
Proof.
  intros Hi Hl Hid. unfold Shared_Appconfig_removeFilter. rewrite asksE, Hi. cbn [negb]. rewrite asksE.
  destruct (Z.ltb_spec id (Z.of_nat MAX_FILTER)) as [Hlt|Hge].
  - destruct (lookup_lt_is_Some_2 (m_filter s) (Z.to_nat id)) as [f Hf]; [lia|]. rewrite Hf.
    unfold in_service. destruct (f_cb f) as [c|].
    + by rewrite decide_True.
    + by rewrite decide_False by (by intros [? [=]]).
  - rewrite lookup_ge_None_2 by lia. done.
Qed.

(** ** The properties *)

(** A config is dispatched to the filters in use, provided that they come
    first in the table: each entry, in order, to the filters of its type and to
    those of every type, a config of another format as a whole to the filters
    that ask for it, and then the filters that ask to be told and got nothing.
    Nothing the callbacks do changes what is dispatched.  A config set by the
    application is dispatched the same way once the stack took it. *)
Theorem appconfig_dispatch bytes seq interval s F tl :
  m_filter s = F ++ tl -> Forall in_service F -> Forall free tl ->
  new_app_config_cb E bytes seq interval s = Some (tt, foldl deliver s (deliveries F (messages bytes))) /\
  (m_initialized s = true -> (writeAppConfigData E bytes (world s)).1 = APP_LIB_DATA_APP_CONFIG_RES_SUCCESS ->
   let s' := with_world (writeAppConfigData E bytes (world s)).2 s in
   Shared_Appconfig_setAppConfig E bytes s =
     Some (SHARED_APP_CONFIG_RES_OK, foldl deliver s' (deliveries F (messages bytes)))).
Proof.
  intros Hl HF Htl.
  assert (Hnew : forall sq iv s', m_filter s' = F ++ tl ->
    new_app_config_cb E bytes sq iv s' = Some (tt, foldl deliver s' (deliveries F (messages bytes)))).
  { intros sq iv s' Hs'. unfold new_app_config_cb. rewrite asksE, Hs'.
    destruct (copy_packed F tl HF Htl) as (tl' & ->). by apply inform_spec. }
  split; [by apply Hnew|]. intros Hi Hw s'. unfold Shared_Appconfig_setAppConfig.
  rewrite asksE, Hi. cbn [negb]. rewrite asksE, putsE, Hw.
  unfold APP_LIB_DATA_APP_CONFIG_RES_SUCCESS, APP_LIB_DATA_APP_CONFIG_RES_INVALID_NULL_POINTER,
    APP_LIB_DATA_APP_CONFIG_RES_INVALID_ROLE. cbn [Z.eqb negb].
  by rewrite (sf_bindE _ _ _ _ _ (Hnew _ _ s' Hl)).
Qed.

(** A config that holds the version, the number of the entries and the
    entries as the TLV encoder writes them, followed by whatever the buffer
    held, is dispatched as these entries: same types, lengths and values. *)
Theorem appconfig_roundtrip buf items r :
  bytes buf -> Forall item_wf items -> (List.length items < 256)%nat ->
  Z.of_nat (List.length buf) + 3 = getAppConfigNumBytes E -> getAppConfigNumBytes E <= 255 ->
  (last_readable items \/ rcd_index r < Z.of_nat (List.length buf)) ->
  encode_all (Tlv_init buf (Z.of_nat (List.length buf))) items = Some r ->
  message_view <$> messages (le_put 2 APP_CONFIG_V1_TLV ++ [Z.of_nat (List.length items)] ++ rcd_buffer r)
    = view <$> items.
Proof.
  intros Hb Hi Hn Hsize Hmax Hlast Henc.
  assert (Hr0 : wf (Tlv_init buf (Z.of_nat (List.length buf)))) by (apply wf_init; [done|lia]).
  apply encode_all_spec in Henc as (Hl & Hroom & ->); [|done|done]. cbn [rcd_index rcd_length Tlv_init] in Hroom.
  unfold messages. rewrite decide_True by reflexivity. cbn [app le_put].
  assert (En : config_entries (u8 APP_CONFIG_V1_TLV :: u8 (APP_CONFIG_V1_TLV / 256) ::
    Z.of_nat (List.length items) :: rcd_buffer (put (Tlv_init buf (Z.of_nat (List.length buf))) (wires items)))
    = List.length items) by (unfold config_entries; cbn; lia).
  rewrite En. unfold config_record. cbn [drop APP_CONFIG_HEADER_SIZE].
  assert (Eb : rcd_buffer (put (Tlv_init buf (Z.of_nat (List.length buf))) (wires items))
    = wires items ++ drop (List.length (wires items)) buf).
  { cbn. rewrite blit_app, take_0 by (cbn; lia). done. }
  rewrite Eb, <- Hsize. change (Z.of_nat APP_CONFIG_HEADER_SIZE) with 3. rewrite Z.add_simpl_r, drop_0.
  rewrite uwrap_small by (unfold fits; lia).
  apply (entries_wires items _ (drop (List.length (wires items)) buf)); try done.
  - assert (Hlen : List.length (wires items ++ drop (List.length (wires items)) buf) = List.length buf)
      by (rewrite length_app, length_drop; lia).
    rewrite <- Hlen. apply wf_init; [|lia]. apply Forall_app. split; [|by apply Forall_drop].
    unfold wires. apply Forall_join, Forall_fmap, Forall_forall. intros i Hin.
    rewrite Forall_forall in Hi, Hl. apply wire_bytes; [by apply Hi|by apply (Hl i)].
  - destruct Hlast as [Hlast|Hlast]; [by left|right]. intros Hd.
    apply (f_equal (@List.length Z)) in Hd. rewrite length_drop in Hd. cbn in Hd, Hlast.
    rewrite uwrap_small in Hlast by (unfold fits; lia). lia.
Qed.

(** Registration takes the first free slot, tells the new filter, and no
    other, about the current config, and answers the slot; without a callback,
    a free slot or the initialisation it answers so and changes nothing.  A
    filter is removed by its slot, once. *)
Theorem appconfig_registration s f :
  List.length (m_filter s) = MAX_FILTER -> m_initialized s = true -> in_service f ->
  match first_free 0 (m_filter s) with
  | Some i =>
      let s1 := with_filters (<[i := f]> (m_filter s)) s in
      let config := readAppConfig E (world s) in
      Shared_Appconfig_addFilter E f s =
        Some ((SHARED_APP_CONFIG_RES_OK, Some i),
              if decide (config.1 = APP_LIB_DATA_APP_CONFIG_RES_SUCCESS)
              then foldl deliver s1 (deliveries [f] (messages config.2)) else s1) /\
      (i < MAX_FILTER)%nat /\ Forall in_service (take i (m_filter s)) /\
      exists s2, Shared_Appconfig_removeFilter MAX_FILTER (Z.of_nat i) s1 = Some (SHARED_APP_CONFIG_RES_OK, s2) /\
        (forall j, j <> i -> m_filter s2 !! j = m_filter s !! j) /\
        Shared_Appconfig_removeFilter MAX_FILTER (Z.of_nat i) s2 = Some (SHARED_APP_CONFIG_RES_INVALID_FILTER, s2)
  | None =>
      Forall in_service (m_filter s) /\
      Shared_Appconfig_addFilter E f s = Some ((SHARED_APP_CONFIG_RES_NO_FILTER, None), s)
  end.
Proof.
  intros Hl Hi [c Hc]. pose proof (first_free_spec 0 (m_filter s)) as Hff.
  unfold Shared_Appconfig_addFilter. rewrite asksE, Hi, Hc. cbn [negb]. rewrite asksE.
  destruct (first_free 0 (m_filter s)) as [i|]; [|done].
  destruct Hff as (j & g & -> & Hj & Hg & Hpre). cbn [Nat.add]. pose proof (lookup_lt_Some _ _ _ Hj) as Hlt.
  set (s1 := with_filters _ s). cbn zeta.
  assert (Hf1 : m_filter s1 !! Z.to_nat (Z.of_nat j) = Some f)
    by (rewrite Nat2Z.id; by apply list_lookup_insert_eq).
  split; [|split; [lia|split; [done|]]].
  - rewrite putsE, asksE. change (world (with_filters _ s)) with (world s).
    destruct (Z.eqb_spec (readAppConfig E (world s)).1 APP_LIB_DATA_APP_CONFIG_RES_SUCCESS) as [Eq|Eq].
    + rewrite decide_True by done.
      pose proof (inform_spec [f] [] (readAppConfig E (world s)).2 s1) as Hinf.
      rewrite app_nil_r in Hinf. unfold copy_after in Hinf. cbn [fmap list_fmap List.length] in Hinf.
      by rewrite (sf_bindE _ _ _ _ _ (Hinf ltac:(constructor; [by exists c|constructor]))).
    + by rewrite decide_False.
  - rewrite remove_spec by (first [done | lia | by cbn; rewrite ?length_insert]). rewrite Hf1.
    rewrite decide_True by (by exists c). eexists. split; [done|]. rewrite Nat2Z.id. split.
    + intros k Hk. cbn. by rewrite !list_lookup_insert_ne.
    + rewrite remove_spec by (first [done | lia | by cbn; rewrite ?length_insert]).
      cbn. rewrite Nat2Z.id, list_lookup_insert_eq by (by rewrite length_insert).
      by rewrite decide_False by (by intros [? [=]]).
Qed.
End Proofs.

(** ** Witnesses *)

(** The callbacks log their arguments; the callback 2 also empties the table. *)
Definition demo_env : env (W := list (Z * Z * Z)) := {|
  on_config := fun c ty len val s =>
    let s := with_world (world s ++ [(Z.pos c, ty, len)]) s in
    if (c =? 2)%positive then with_filters [] s else s;
  setNewAppConfigCb := fun w => w;
  getAppConfigNumBytes := 12;
  readAppConfig := fun _ => (APP_LIB_DATA_APP_CONFIG_RES_SUCCESS,
    [0xF6; 0x7E; 1; 5; 2; 0xAA; 0xBB; 0; 0; 0; 0; 0]);
  writeAppConfigData := fun _ w => (APP_LIB_DATA_APP_CONFIG_RES_SUCCESS, w) |}.

Definition demo_filter (ty : Z) (c : fn) (always : bool) : shared_app_config_filter_t :=
  {| f_type := ty; f_cb := Some c; call_cb_always := always |}.

Definition unused : shared_app_config_filter_t :=
  {| f_type := 0; f_cb := None; call_cb_always := false |}.

Definition demo_filters : list shared_app_config_filter_t :=
  [demo_filter 5 1 false; demo_filter SHARED_APP_CONFIG_ALL_TYPE_FILTER 2 false; demo_filter 9 3 true].

Definition demo_state : state (W := list (Z * Z * Z)) :=
  {| m_initialized := true; m_filter := demo_filters ++ [unused]; world := [] |}.

Definition demo_config : list Z := [0xF6; 0x7E; 2; 5; 2; 0xAA; 0xBB; 7; 1; 0xCC; 0; 0].

Lemma demo_in_service : Forall in_service demo_filters.
Proof. repeat (apply Forall_cons; split; [by eexists|]). apply Forall_nil_2. Qed.

Lemma demo_free : Forall free [unused].
Proof. by repeat constructor. Qed.

Lemma appconfig_dispatch_witness :
  new_app_config_cb demo_env demo_config 1 2 demo_state =
    Some (tt, foldl (deliver demo_env) demo_state (deliveries demo_filters (messages demo_env demo_config))) /\
  world <$> (snd <$> new_app_config_cb demo_env demo_config 1 2 demo_state) =
    Some [(1, 5, 2); (2, 5, 2); (2, 7, 1); (3, 9, 0)].
Proof.
  split; [|by vm_compute].
  apply (appconfig_dispatch demo_env demo_config 1 2 demo_state demo_filters [unused] eq_refl
           demo_in_service demo_free).
Defined.

Definition demo_items : list tlv_item_t :=
  [{| type := 5; length := 2; value := [0xAA; 0xBB] |}; {| type := 0x123; length := 0; value := [] |}].

Lemma appconfig_roundtrip_witness :
  exists r, encode_all (Tlv_init (repeat 0 9) 9) demo_items = Some r /\
    message_view <$> messages demo_env (le_put 2 APP_CONFIG_V1_TLV ++ [2] ++ rcd_buffer r) = view <$> demo_items.
Proof.
  eexists. split; [vm_compute; reflexivity|].
  apply (appconfig_roundtrip demo_env (repeat 0 9) demo_items); [|..|reflexivity].
  - by apply bytes_repeat.
  - repeat (apply Forall_cons; split); try apply Forall_nil_2; (split; [..|cbn; lia]); unfold fits; cbn; try lia;
      byte_list.
  - cbn. lia.
  - reflexivity.
  - cbn. lia.
  - left. cbn. lia.
Defined.

Lemma appconfig_registration_witness :
  let s1 := with_filters (<[3%nat := demo_filter 5 4 false]> (m_filter demo_state)) demo_state in
  let config := readAppConfig demo_env (world demo_state) in
  Shared_Appconfig_addFilter demo_env (demo_filter 5 4 false) demo_state =
    Some ((SHARED_APP_CONFIG_RES_OK, Some 3%nat),
          if decide (config.1 = APP_LIB_DATA_APP_CONFIG_RES_SUCCESS)
          then foldl (deliver demo_env) s1 (deliveries [demo_filter 5 4 false] (messages demo_env config.2)) else s1) /\
  (3 < 4)%nat /\ Forall in_service (take 3 (m_filter demo_state)) /\
  exists s2, Shared_Appconfig_removeFilter 4 (Z.of_nat 3) s1 = Some (SHARED_APP_CONFIG_RES_OK, s2) /\
    (forall j, j <> 3%nat -> m_filter s2 !! j = m_filter demo_state !! j) /\
    Shared_Appconfig_removeFilter 4 (Z.of_nat 3) s2 = Some (SHARED_APP_CONFIG_RES_INVALID_FILTER, s2).
Proof.
  apply (appconfig_registration 4 demo_env demo_state (demo_filter 5 4 false) eq_refl eq_refl).
  by eexists.
Defined.
