(* ===== verification/SharedOffline.v ===== *)
(** * Shared offline library

    Models [libraries/shared_offline/shared_offline.c]: several modules of an
    application decide together when the stack may go offline.  The stack
    sleeps when every registered module is ready, and is woken up for the
    earliest deadline; a wake-up asked while the stack is still going to sleep
    is delayed until it sleeps.

    A callback of the application changes the world and then calls the library:
    it is a list of calls, which the library executes at that point.  The two
    tasks run when the scheduler decides, so they are events of their own.  The
    clock, the sleep library and the scheduler are functions on the world. *)

From S2P Require Import Prelude Api.

Abbreviation fn := positive.

(** [app_lib_sleep_stack_state_e] *)
Definition APP_LIB_SLEEP_STARTED : Z := 1.

Definition APP_SCHEDULER_STOP_TASK : Z := 2 ^ 32 - 1.
Definition APP_SCHEDULER_SCHEDULE_ASAP : Z := 0.

Definition SHARED_OFFLINE_INFINITE_DELAY : Z := u32 (-1).
Definition TIME_TO_SLEEP : Z := 6 * 24 * 3600.
Definition POLING_INTERVAL_OFFLINE_MS : Z := 1000.

Inductive shared_offline_res_e :=
| SHARED_OFFLINE_RES_OK | SHARED_OFFLINE_RES_NO_MORE_ROOM | SHARED_OFFLINE_RES_WRONG_ID
| SHARED_OFFLINE_RES_UNINITIALIZED | SHARED_OFFLINE_RES_ALREADY_ONLINE | SHARED_OFFLINE_RES_WRONG_ROLE.

Inductive shared_offline_status_e :=
| SHARED_OFFLINE_STATUS_OFFLINE | SHARED_OFFLINE_STATUS_ONLINE | SHARED_OFFLINE_STATUS_UNINITIALIZED.

Record offline_setting_conf_t := { on_offline_event : option fn; on_online_event : option fn }.

Record module_t := {
  in_use : bool;
  cbs : offline_setting_conf_t;
  online_deadline_ts : Z;
  ready_to_enter_offline : bool }.

Inductive offline_state_e := STATE_ONLINE | STATE_ENTERING_OFFLINE | STATE_OFFLINE.

#[export] Instance offline_state_eq_dec : EqDecision offline_state_e.
Proof. solve_decision. Defined.

(** The tasks of the library. *)
Inductive task := WakeupStackTask | PollForOffline.

(** The calls that a module makes. *)
Inductive call :=
| Register (c : offline_setting_conf_t)
| Unregister (id : Z)
| EnterOffline (id delay_s : Z)
| EnterOnline (id : Z).

Section SharedOffline.
Context {W : Type} (MAX_MODULES : nat).

Record env := {
  on_offline : fn -> Z -> W -> list call * W;
  on_online : fn -> Z -> W -> list call * W;
  getTimestampS : W -> Z;
  getSleepState : W -> Z;
  sleepStackforTime : Z -> Z -> W -> Z * W;
  wakeupStack : W -> Z * W;
  setOnWakeupCb : W -> W;
  addTask_execTime : task -> Z -> Z -> W -> bool * W }.

Record state := {
  m_offline_state : offline_state_e;
  m_delayed_wakeup : bool;
  m_modules : list module_t;
  m_initialized : bool;
  m_last_enterring_offline_ts : Z;
  m_next_online_ts : Z;
  world : W }.

Abbreviation M := (st state).

Definition set_state x s := {| m_offline_state := x; m_delayed_wakeup := m_delayed_wakeup s;
  m_modules := m_modules s; m_initialized := m_initialized s;
  m_last_enterring_offline_ts := m_last_enterring_offline_ts s; m_next_online_ts := m_next_online_ts s;
  world := world s |}.
Definition set_delayed_wakeup x s := {| m_offline_state := m_offline_state s; m_delayed_wakeup := x;
  m_modules := m_modules s; m_initialized := m_initialized s;
  m_last_enterring_offline_ts := m_last_enterring_offline_ts s; m_next_online_ts := m_next_online_ts s;
  world := world s |}.
Definition set_modules x s := {| m_offline_state := m_offline_state s; m_delayed_wakeup := m_delayed_wakeup s;
  m_modules := x; m_initialized := m_initialized s;
  m_last_enterring_offline_ts := m_last_enterring_offline_ts s; m_next_online_ts := m_next_online_ts s;
  world := world s |}.
Definition set_initialized x s := {| m_offline_state := m_offline_state s; m_delayed_wakeup := m_delayed_wakeup s;
  m_modules := m_modules s; m_initialized := x;
  m_last_enterring_offline_ts := m_last_enterring_offline_ts s; m_next_online_ts := m_next_online_ts s;
  world := world s |}.
Definition set_last x s := {| m_offline_state := m_offline_state s; m_delayed_wakeup := m_delayed_wakeup s;
  m_modules := m_modules s; m_initialized := m_initialized s;
  m_last_enterring_offline_ts := x; m_next_online_ts := m_next_online_ts s; world := world s |}.
Definition set_next x s := {| m_offline_state := m_offline_state s; m_delayed_wakeup := m_delayed_wakeup s;
  m_modules := m_modules s; m_initialized := m_initialized s;
  m_last_enterring_offline_ts := m_last_enterring_offline_ts s; m_next_online_ts := x; world := world s |}.
Definition set_world x s := {| m_offline_state := m_offline_state s; m_delayed_wakeup := m_delayed_wakeup s;
  m_modules := m_modules s; m_initialized := m_initialized s;
  m_last_enterring_offline_ts := m_last_enterring_offline_ts s; m_next_online_ts := m_next_online_ts s;
  world := x |}.

Definition in_world {A} (f : W -> A * W) : M A :=
  fun s => let '(x, w) := f (world s) in (x, set_world w s).
Definition now_s (E : env) : M Z := gets (fun s => getTimestampS E (world s)).
Definition sleep_state (E : env) : M Z := gets (fun s => getSleepState E (world s)).
Definition add_task (E : env) (t : task) (delay_ms : Z) : M bool :=
  in_world (addTask_execTime E t delay_ms 100).

Definition with_ready (b : bool) (m : module_t) : module_t :=
  {| in_use := in_use m; cbs := cbs m; online_deadline_ts := online_deadline_ts m;
     ready_to_enter_offline := b |}.
Definition with_in_use (b : bool) (m : module_t) : module_t :=
  {| in_use := b; cbs := cbs m; online_deadline_ts := online_deadline_ts m;
     ready_to_enter_offline := ready_to_enter_offline m |}.
Definition with_deadline (t : Z) (m : module_t) : module_t :=
  {| in_use := in_use m; cbs := cbs m; online_deadline_ts := t;
     ready_to_enter_offline := ready_to_enter_offline m |}.

Definition update_module (i : nat) (f : module_t -> module_t) : M unit :=
  modify (fun s => set_modules (alter f i (m_modules s)) s).

(** ** Going offline *)

Definition enter_offline_mode_locked (E : env) (delay_s : Z) : M bool :=
  now ← now_s E;
  added ← add_task E WakeupStackTask (u32 (delay_s * 1000));
  if negb added then mret false
  else
    _ ← modify (set_next (u32 (now + delay_s)));
    sleeping ← sleep_state E;
    if sleeping =? APP_LIB_SLEEP_STARTED then mret true
    else
      r ← in_world (sleepStackforTime E TIME_TO_SLEEP 0);
      let res := r =? APP_RES_OK in
      _ ← (if res then
             _ ← modify (set_last now);
             _ ← modify (set_state STATE_ENTERING_OFFLINE);
             _ ← add_task E PollForOffline POLING_INTERVAL_OFFLINE_MS;
             mret tt
           else mret tt);
      mret res.

Definition enter_online_mode (E : env) : M bool :=
  _ ← modify (set_next 0);
  add_task E WakeupStackTask APP_SCHEDULER_SCHEDULE_ASAP.

(** Are all the modules in use ready, and what is the earliest deadline? *)
Fixpoint ready_loop (deadline : Z) (l : list module_t) : bool * Z :=
  match l with
  | [] => (true, deadline)
  | m :: l =>
      if in_use m then
        if negb (ready_to_enter_offline m) then (false, deadline)
        else ready_loop (if online_deadline_ts m <? deadline then online_deadline_ts m else deadline) l
      else ready_loop deadline l
  end.

Definition is_ready_to_sleep_locked (l : list module_t) : bool * Z :=
  ready_loop SHARED_OFFLINE_INFINITE_DELAY l.

Definition evaluate_sleep (E : env) : M unit :=
  now ← now_s E;
  r ← gets (fun s => is_ready_to_sleep_locked (m_modules s));
  if (r.1 : bool) then
    let delay := if r.2 <? now then 0 else r.2 - now in
    _ ← enter_offline_mode_locked E delay;
    mret tt
  else mret tt.

(** ** The API *)

Definition Shared_Offline_init (E : env) : M shared_offline_res_e :=
  initialized ← gets m_initialized;
  if (initialized : bool) then mret SHARED_OFFLINE_RES_OK
  else
    _ ← modify (fun s => set_modules (with_in_use false <$> m_modules s) s);
    _ ← in_world (fun w => (tt, setOnWakeupCb E w));
    _ ← modify (set_next 0);
    _ ← modify (set_last 0);
    _ ← modify (set_state STATE_ONLINE);
    _ ← modify (set_initialized true);
    mret SHARED_OFFLINE_RES_OK.

Fixpoint first_unused (i : nat) (l : list module_t) : option nat :=
  match l with
  | [] => None
  | m :: l => if in_use m then first_unused (S i) l else Some i
  end.

(** The module identifier is written when there was room. *)
Definition Shared_Offline_register (E : env) (c : offline_setting_conf_t)
    : M (shared_offline_res_e * option nat) :=
  initialized ← gets m_initialized;
  if negb initialized then mret (SHARED_OFFLINE_RES_UNINITIALIZED, None)
  else
    res ← in_world (sleepStackforTime E 0 0);
    if res =? APP_RES_INVALID_CONFIGURATION then mret (SHARED_OFFLINE_RES_WRONG_ROLE, None)
    else
      slot ← gets (fun s => first_unused 0 (m_modules s));
      match slot with
      | None => mret (SHARED_OFFLINE_RES_NO_MORE_ROOM, None)
      | Some i =>
          _ ← update_module i (fun m => {| in_use := true; cbs := c;
                online_deadline_ts := online_deadline_ts m; ready_to_enter_offline := false |});
          sleeping ← sleep_state E;
          _ ← (if sleeping =? APP_LIB_SLEEP_STARTED then enter_online_mode E else mret false);
          mret (SHARED_OFFLINE_RES_OK, Some i)
      end.

(** [id >= SHARED_OFFLINE_MAX_MODULES || !m_modules[id].in_use] *)
Definition wrong_id (id : Z) (s : state) : bool :=
  (Z.of_nat MAX_MODULES <=? id) ||
  negb (match m_modules s !! Z.to_nat id with Some m => in_use m | None => false end).

Definition Shared_Offline_unregister (E : env) (id : Z) : M shared_offline_res_e :=
  initialized ← gets m_initialized;
  if negb initialized then mret SHARED_OFFLINE_RES_UNINITIALIZED
  else
    wrong ← gets (wrong_id id);
    if (wrong : bool) then mret SHARED_OFFLINE_RES_WRONG_ID
    else
      _ ← update_module (Z.to_nat id) (with_in_use false);
      _ ← evaluate_sleep E;
      mret SHARED_OFFLINE_RES_OK.

Definition Shared_Offline_enter_offline_state (E : env) (id delay_s : Z) : M shared_offline_res_e :=
  now ← now_s E;
  initialized ← gets m_initialized;
  if negb initialized then mret SHARED_OFFLINE_RES_UNINITIALIZED
  else
    wrong ← gets (wrong_id id);
    if (wrong : bool) then mret SHARED_OFFLINE_RES_WRONG_ID
    else
      _ ← update_module (Z.to_nat id) (with_deadline
            (if delay_s =? SHARED_OFFLINE_INFINITE_DELAY then SHARED_OFFLINE_INFINITE_DELAY
             else u32 (now + delay_s)));
      _ ← update_module (Z.to_nat id) (with_ready true);
      _ ← evaluate_sleep E;
      mret SHARED_OFFLINE_RES_OK.

Definition Shared_Offline_enter_online_state (E : env) (id : Z) : M shared_offline_res_e :=
  initialized ← gets m_initialized;
  if negb initialized then mret SHARED_OFFLINE_RES_UNINITIALIZED
  else
    wrong ← gets (wrong_id id);
    if (wrong : bool) then mret SHARED_OFFLINE_RES_WRONG_ID
    else
      _ ← enter_online_mode E;
      mret SHARED_OFFLINE_RES_OK.

(** The status, and what is written to the two pointers. *)
Definition Shared_Offline_get_status (E : env) : M (shared_offline_status_e * option (Z * Z)) :=
  now ← now_s E;
  initialized ← gets m_initialized;
  if negb initialized then mret (SHARED_OFFLINE_STATUS_UNINITIALIZED, None)
  else
    sleeping ← sleep_state E;
    if sleeping =? APP_LIB_SLEEP_STARTED then
      elapsed ← gets (fun s => u32 (now - m_last_enterring_offline_ts s));
      remaining ← gets (fun s => u32 (m_next_online_ts s - now));
      mret (SHARED_OFFLINE_STATUS_OFFLINE, Some (elapsed, remaining))
    else mret (SHARED_OFFLINE_STATUS_ONLINE, None).

Definition run_call (E : env) (c : call) : M unit :=
  match c with
  | Register c => _ ← Shared_Offline_register E c; mret tt
  | Unregister id => _ ← Shared_Offline_unregister E id; mret tt
  | EnterOffline id delay => _ ← Shared_Offline_enter_offline_state E id delay; mret tt
  | EnterOnline id => _ ← Shared_Offline_enter_online_state E id; mret tt
  end.

Fixpoint run_calls (E : env) (cs : list call) : M unit :=
  match cs with
  | [] => mret tt
  | c :: cs => _ ← run_call E c; run_calls E cs
  end.

Definition run_callback (E : env) (f : W -> list call * W) : M unit :=
  cs ← in_world f; run_calls E cs.

(** ** The callback of the stack *)

Definition delay_from_deadline (deadline now : Z) : Z :=
  if deadline =? SHARED_OFFLINE_INFINITE_DELAY then SHARED_OFFLINE_INFINITE_DELAY
  else if deadline <? now then 0
  else deadline - now.

(** The loop from index [i] on, [n] modules left. *)
Fixpoint online_loop (E : env) (now : Z) (n i : nat) : M unit :=
  match n with
  | O => mret tt
  | S n =>
      m ← gets (fun s => m_modules s !! i);
      _ ← match m with
          | Some m =>
              if in_use m then
                _ ← update_module i (with_ready false);
                match on_online_event (cbs m) with
                | Some c => run_callback E (on_online E c (delay_from_deadline (online_deadline_ts m) now))
                | None => mret tt
                end
              else mret tt
          | None => mret tt
          end;
      online_loop E now n (S i)
  end.

Definition on_stack_online_cb (E : env) : M unit :=
  now ← now_s E;
  _ ← modify (set_state STATE_ONLINE);
  online_loop E now MAX_MODULES 0.

(** ** The tasks *)

Definition wakeup_stack_task (E : env) : M Z :=
  x ← gets m_offline_state;
  match x with
  | STATE_ENTERING_OFFLINE =>
      _ ← modify (set_delayed_wakeup true);
      mret APP_SCHEDULER_STOP_TASK
  | _ =>
      _ ← in_world (wakeupStack E);
      mret APP_SCHEDULER_STOP_TASK
  end.

Fixpoint offline_loop (E : env) (delay_s : Z) (n i : nat) : M unit :=
  match n with
  | O => mret tt
  | S n =>
      m ← gets (fun s => m_modules s !! i);
      _ ← match m with
          | Some m =>
              if in_use m then
                match on_offline_event (cbs m) with
                | Some c => run_callback E (on_offline E c delay_s)
                | None => mret tt
                end
              else mret tt
          | None => mret tt
          end;
      offline_loop E delay_s n (S i)
  end.

Definition call_offline_cbs (E : env) : M unit :=
  now ← now_s E;
  next ← gets m_next_online_ts;
  offline_loop E (if next <? now then 0 else next - now) MAX_MODULES 0.

Definition poll_for_offline (E : env) : M Z :=
  sleeping ← sleep_state E;
  x ← gets m_offline_state;
  if (sleeping =? APP_LIB_SLEEP_STARTED) && bool_decide (x = STATE_ENTERING_OFFLINE) then
    _ ← modify (set_state STATE_OFFLINE);
    _ ← call_offline_cbs E;
    delayed ← gets m_delayed_wakeup;
    _ ← (if (delayed : bool) then
           _ ← wakeup_stack_task E;
           modify (set_delayed_wakeup false)
         else mret tt);
    mret APP_SCHEDULER_STOP_TASK
  else mret POLING_INTERVAL_OFFLINE_MS.

(** ** Events *)

(** What happens to the library: calls of a module, the two tasks, the
    wake-up of the stack, and the world going on. *)
Inductive event :=
| Calls (cs : list call)
| WakeupTask
| PollTask
| Online
| Elapse (f : W -> W).

Definition step (E : env) (e : event) (s : state) : state :=
  match e with
  | Calls cs => (run_calls E cs s).2
  | WakeupTask => (wakeup_stack_task E s).2
  | PollTask => (poll_for_offline E s).2
  | Online => (on_stack_online_cb E s).2
  | Elapse f => set_world (f (world s)) s
  end.

Definition run (E : env) (es : list event) (s : state) : state := foldl (fun s e => step E e s) s es.

End SharedOffline.

(** ** The decision to sleep *)

Section Proofs.
Context {W : Type} (MAX_MODULES : nat) (E : env (W := W)).
Abbreviation state := (state (W := W)).
Implicit Types s : state.

(** The module lets the stack sleep. *)
Definition agrees (m : module_t) : Prop := in_use m = true -> ready_to_enter_offline m = true.
#[export] Instance agrees_dec m : Decision (agrees m).
Proof. unfold agrees. apply _. Defined.

(** The deadlines that count. *)
Definition deadlines (l : list module_t) : list Z :=
  online_deadline_ts <$> filter (fun m => in_use m = true) l.

Lemma agree_loop_spec d l :
  (ready_loop d l).1 = bool_decide (Forall agrees l) /\
  (Forall agrees l -> (ready_loop d l).2 = foldr Z.min d (deadlines l)).
Proof.
  revert d. induction l as [|m l IH]; intros d; cbn [ready_loop]; [by rewrite bool_decide_eq_true_2 by constructor|].
  unfold deadlines in *. destruct (in_use m) eqn:Eu.
  - rewrite filter_cons_True by done. destruct (ready_to_enter_offline m) eqn:Er; cbn [negb].
    + destruct (IH (if online_deadline_ts m <? d then online_deadline_ts m else d)) as [IH1 IH2].
      rewrite IH1. split.
      * apply bool_decide_ext. rewrite Forall_cons. unfold agrees at 2. tauto.
      * intros [_ Hl]%Forall_cons. rewrite IH2 by done. cbn [fmap list_fmap foldr].
        assert (Hmin : forall x y ds, foldr Z.min (Z.min x y) ds = Z.min x (foldr Z.min y ds)).
        { intros x y ds. induction ds as [|z ds IHd]; cbn; [done|]. rewrite IHd. lia. }
        rewrite <- Hmin. f_equal. destruct (Z.ltb_spec (online_deadline_ts m) d); lia.
    + split; [symmetry; apply bool_decide_eq_false_2|]; intros [Ha _]%Forall_cons;
        specialize (Ha Eu); congruence.
  - rewrite filter_cons_False by congruence. destruct (IH d) as [IH1 IH2]. rewrite IH1. split.
    + apply bool_decide_ext. rewrite Forall_cons. unfold agrees at 2. intuition congruence.
    + intros [_ Hl]%Forall_cons. by apply IH2.
Qed.

Lemma foldr_min_le d ds x : x ∈ ds -> foldr Z.min d ds <= x.
Proof.
  induction ds as [|y ds IH]; [by intros ?%not_elem_of_nil|]. intros [->|Hx]%elem_of_cons; cbn; [lia|].
  specialize (IH Hx). lia.
Qed.

Lemma foldr_min_in d ds : foldr Z.min d ds = d \/ foldr Z.min d ds ∈ ds.
Proof.
  induction ds as [|y ds IH]; cbn; [auto|].
  destruct (Z.min_spec y (foldr Z.min d ds)) as [[_ ->]|[_ ->]]; [right; left|].
  destruct IH as [->|IH]; [by left|right; by right].
Qed.

(** What the library asks of the scheduler and the stack to sleep for
    [delay] seconds. *)
Definition go_offline (delay : Z) s : state :=
  let now := getTimestampS E (world s) in
  let '(added, w) := addTask_execTime E WakeupStackTask (u32 (delay * 1000)) 100 (world s) in
  let s := set_world w s in
  if negb added then s
  else
    let s := set_next (u32 (now + delay)) s in
    if decide (getSleepState E w = APP_LIB_SLEEP_STARTED) then s
    else
      let '(r, w) := sleepStackforTime E TIME_TO_SLEEP 0 w in
      let s := set_world w s in
      if decide (r = APP_RES_OK) then
        set_world (addTask_execTime E PollForOffline POLING_INTERVAL_OFFLINE_MS 100 w).2
          (set_state STATE_ENTERING_OFFLINE (set_last now s))
      else s.

Lemma enter_offline_spec delay s : (enter_offline_mode_locked E delay s).2 = go_offline delay s.
Proof.
  unfold enter_offline_mode_locked, go_offline, now_s, add_task, sleep_state, in_world.
  rewrite !bindE. cbn [gets fst snd].
  destruct (addTask_execTime E WakeupStackTask _ _ (world s)) as [[] w]; cbn [negb fst snd]; [|done].
  rewrite !bindE. cbn [gets modify fst snd world set_next set_world].
  rewrite Z.eqb_sym. destruct (Z.eqb_spec APP_LIB_SLEEP_STARTED (getSleepState E w)) as [Es|Es].
  { by rewrite decide_True. }
  rewrite decide_False by congruence. rewrite !bindE. cbn [world set_next set_world].
  destruct (sleepStackforTime E TIME_TO_SLEEP 0 w) as [r w']. cbn [fst snd].
  destruct (Z.eqb_spec r APP_RES_OK) as [->|Hr].
  - rewrite decide_True by done. rewrite !bindE. cbn [modify fst snd mret st_ret world set_state set_last set_world].
    by destruct (addTask_execTime E PollForOffline _ _ w').
  - by rewrite decide_False.
Qed.

Lemma evaluate_sleep_spec s :
  (evaluate_sleep E s).2 =
    if decide (Forall agrees (m_modules s))
    then go_offline (Z.max 0 (foldr Z.min SHARED_OFFLINE_INFINITE_DELAY (deadlines (m_modules s))
                              - getTimestampS E (world s))) s
    else s.
Proof.
  unfold evaluate_sleep, now_s. rewrite !bindE. cbn [gets fst snd].
  destruct (agree_loop_spec SHARED_OFFLINE_INFINITE_DELAY (m_modules s)) as [Hr Hd].
  unfold is_ready_to_sleep_locked. rewrite Hr. case_bool_decide as Ha.
  - rewrite decide_True, bindE, Hd by done. cbn [mret st_ret fst snd]. rewrite enter_offline_spec. f_equal.
    destruct (Z.ltb_spec (foldr Z.min SHARED_OFFLINE_INFINITE_DELAY (deadlines (m_modules s)))
      (getTimestampS E (world s))); lia.
  - by rewrite decide_False.
Qed.

Lemma update_moduleE i f s : update_module i f s = (tt, set_modules (alter f i (m_modules s)) s).
Proof. done. Qed.

(** The module [id] after it asked to sleep for [d] seconds. *)
Definition asks_to_sleep (now d : Z) (m : module_t) : module_t :=
  with_ready true (with_deadline (if d =? SHARED_OFFLINE_INFINITE_DELAY then SHARED_OFFLINE_INFINITE_DELAY
                                  else u32 (now + d)) m).

Lemma valid_id id s m :
  0 <= id < Z.of_nat MAX_MODULES -> m_modules s !! Z.to_nat id = Some m -> in_use m = true ->
  wrong_id MAX_MODULES id s = false.
Proof.
  intros Hid Hm Hu. unfold wrong_id. rewrite Hm, Hu. destruct (Z.leb_spec (Z.of_nat MAX_MODULES) id); [lia|done].
Qed.

Lemma set_modules_id s : set_modules (m_modules s) s = s.
Proof. by destruct s. Qed.

Lemma alter_known {A} (f : A -> A) (l : list A) i x : l !! i = Some x -> alter f i l = <[i := f x]> l.
Proof.
  intros Hx. apply list_eq. intros j. rewrite list_lookup_alter.
  destruct (decide (i = j)) as [->|Hne]; [|by rewrite list_lookup_insert_ne].
  rewrite Hx, list_lookup_insert_eq; [done|]. by eapply lookup_lt_Some.
Qed.

Lemma ask_offline_spec id d s m :
  m_initialized s = true -> 0 <= id < Z.of_nat MAX_MODULES ->
  m_modules s !! Z.to_nat id = Some m -> in_use m = true ->
  Shared_Offline_enter_offline_state MAX_MODULES E id d s =
    (SHARED_OFFLINE_RES_OK,
     (evaluate_sleep E (set_modules (<[Z.to_nat id := asks_to_sleep (getTimestampS E (world s)) d m]>
                                       (m_modules s)) s)).2).
Proof.
  intros Hi Hid Hm Hu. unfold Shared_Offline_enter_offline_state, now_s. rewrite bindE. cbn [gets fst snd].
  rewrite bindE. cbn [gets fst snd]. rewrite Hi. cbn [negb]. rewrite bindE. cbn [gets fst snd].
  rewrite (valid_id id s m) by done. rewrite !bindE, !update_moduleE. cbn [fst snd mret st_ret].
  f_equal. f_equal. unfold asks_to_sleep. f_equal. cbn [m_modules set_modules].
  erewrite (alter_known _ (m_modules s)) by done.
  erewrite (alter_known (with_ready true)).
  2: { apply list_lookup_insert_eq. by eapply lookup_lt_Some. }
  by rewrite list_insert_insert_eq.
Qed.

(** ** Waking up *)

(** What the library relies on: the sleep state changes with the sleep
    library and with time, not when a task is added, when an application
    callback runs, or when the stack refuses the probe of the registration. *)
Class StackOk : Prop := {
  task_keeps : forall t d e w, getSleepState E (addTask_execTime E t d e w).2 = getSleepState E w;
  callback_keeps : forall c d w, getSleepState E (on_offline E c d w).2 = getSleepState E w;
  probe_keeps : forall w, getSleepState E (sleepStackforTime E 0 0 w).2 = getSleepState E w }.

(** While the stack goes to sleep. *)
Definition entering s : Prop := m_offline_state s = STATE_ENTERING_OFFLINE.

Lemma go_offline_entering delay s :
  entering s ->
  entering (go_offline delay s) /\ m_delayed_wakeup (go_offline delay s) = m_delayed_wakeup s.
Proof.
  intros Hs. unfold go_offline, entering in *. cbn zeta.
  destruct (addTask_execTime _ _ _ _ _) as [[] w]; cbn [negb]; [|done].
  case_decide; [done|]. destruct (sleepStackforTime _ _ _ _) as [r w']. by case_decide.
Qed.

Lemma evaluate_entering s :
  entering s ->
  entering (evaluate_sleep E s).2 /\ m_delayed_wakeup (evaluate_sleep E s).2 = m_delayed_wakeup s.
Proof. intros Hs. rewrite evaluate_sleep_spec. case_decide; [by apply go_offline_entering|done]. Qed.

(** The state a call leaves: the state machine of the library and the sleep
    state of the stack. *)
Definition waking_view s := (m_offline_state s, m_delayed_wakeup s).

Lemma in_world_keeps {A B} (f : W -> A * W) (g : state -> B) :
  (forall w s, g (set_world w s) = g s) -> keeps g (in_world f).
Proof. intros Hg s. unfold in_world. destruct (f (world s)). apply Hg. Qed.

Lemma online_mode_keeps : keeps waking_view (enter_online_mode E).
Proof.
  unfold enter_online_mode, add_task. apply keeps_bind; [by intros s|]. intros _. by apply in_world_keeps.
Qed.

Lemma register_keeps c : keeps waking_view (Shared_Offline_register E c).
Proof.
  assert (Hw : forall A (f : W -> A * W), keeps waking_view (in_world f)) by (intros; by apply in_world_keeps).
  pose proof online_mode_keeps. unfold Shared_Offline_register, sleep_state. keep.
Qed.

Lemma ask_online_keeps id : keeps waking_view (Shared_Offline_enter_online_state MAX_MODULES E id).
Proof. pose proof online_mode_keeps. unfold Shared_Offline_enter_online_state. keep. Qed.

(** A state in which the wake-up still waits for the sleep to begin. *)
Definition waits s : Prop := entering s /\ m_delayed_wakeup s = true.

Lemma waits_view s s' : waking_view s' = waking_view s -> waits s -> waits s'.
Proof. unfold waits, entering. by intros [= -> ->]. Qed.

Lemma evaluate_waits s : waits s -> waits (evaluate_sleep E s).2.
Proof. intros [He Hd]. destruct (evaluate_entering s He) as [He' Hd']. split; [done|]. by rewrite Hd'. Qed.

Lemma waits_set_modules l s : waits s -> waits (set_modules l s).
Proof. by apply waits_view. Qed.

Lemma call_waits c s : waits s -> waits (run_call MAX_MODULES E c s).2.
Proof.
  intros Hs. destruct c as [cf|id|id d|id]; cbn [run_call]; rewrite bindE; cbn [mret st_ret snd].
  - apply (waits_view s); [apply register_keeps|done].
  - unfold Shared_Offline_unregister. rewrite bindE. cbn [gets fst snd].
    destruct (m_initialized s); [|done]. cbn [negb]. rewrite bindE. cbn [gets fst snd].
    destruct (wrong_id MAX_MODULES id s); [done|]. rewrite !bindE. cbn [mret st_ret snd].
    by apply evaluate_waits, waits_set_modules.
  - unfold Shared_Offline_enter_offline_state, now_s. rewrite !bindE. cbn [gets fst snd].
    destruct (m_initialized s); [|done]. cbn [negb]. rewrite bindE. cbn [gets fst snd].
    destruct (wrong_id MAX_MODULES id s); [done|]. rewrite !bindE. cbn [mret st_ret snd].
    rewrite !update_moduleE. by apply evaluate_waits, waits_set_modules, waits_set_modules.
  - apply (waits_view s); [apply ask_online_keeps|done].
Qed.

Lemma calls_waits cs s : waits s -> waits (run_calls MAX_MODULES E cs s).2.
Proof.
  revert s. induction cs as [|c cs IH]; intros s Hs; [done|]. cbn [run_calls]. rewrite bindE.
  by apply IH, call_waits.
Qed.

(** While the stack sleeps, calls leave it asleep and the library offline. *)
Definition asleep (d : bool) s : Prop :=
  m_offline_state s = STATE_OFFLINE /\ m_delayed_wakeup s = d /\
  getSleepState E (world s) = APP_LIB_SLEEP_STARTED.

Context `{!StackOk}.

Lemma go_offline_asleep b delay s : asleep b s -> asleep b (go_offline delay s).
Proof.
  intros (Hs & Hd & Hw). unfold go_offline, asleep in *. cbn zeta.
  pose proof (task_keeps WakeupStackTask (u32 (delay * 1000)) 100 (world s)) as Hk.
  destruct (addTask_execTime _ _ _ _ _) as [[] w]; cbn [negb fst snd] in *; rewrite Hw in Hk; [|done].
  by rewrite decide_True.
Qed.

Lemma evaluate_asleep b s : asleep b s -> asleep b (evaluate_sleep E s).2.
Proof. intros Hs. rewrite evaluate_sleep_spec. case_decide; [by apply go_offline_asleep|done]. Qed.

Lemma online_mode_asleep b s : asleep b s -> asleep b (enter_online_mode E s).2.
Proof.
  intros (Hs & Hd & Hw). unfold enter_online_mode, add_task, in_world. rewrite bindE. cbn [modify fst snd world set_next].
  pose proof (task_keeps WakeupStackTask APP_SCHEDULER_SCHEDULE_ASAP 100 (world s)) as Hk.
  destruct (addTask_execTime _ _ _ _ _) as [x w]. cbn [fst snd] in *. unfold asleep. cbn. by rewrite Hk.
Qed.

Lemma call_asleep b c s : asleep b s -> asleep b (run_call MAX_MODULES E c s).2.
Proof.
  intros Hs. destruct c as [cf|id|id d|id]; cbn [run_call]; rewrite bindE; cbn [mret st_ret snd].
  - unfold Shared_Offline_register. rewrite bindE. cbn [gets fst snd].
    destruct (m_initialized s); [|done]. cbn [negb]. rewrite bindE. unfold in_world at 1 2.
    pose proof (probe_keeps (world s)) as Hk. destruct (sleepStackforTime E 0 0 (world s)) as [r w].
    cbn [fst snd] in *. assert (Hw : asleep b (set_world w s)).
    { destruct Hs as (? & ? & ?). split_and!; cbn; [done..|by rewrite Hk]. }
    destruct (r =? _); [done|]. rewrite bindE. cbn [gets fst snd m_modules set_world].
    destruct (first_unused 0 (m_modules s)) as [i|]; [|done]. rewrite !bindE. cbn [mret st_ret snd].
    unfold sleep_state. cbn [gets fst snd]. destruct (_ =? APP_LIB_SLEEP_STARTED); [|done].
    by apply online_mode_asleep.
  - unfold Shared_Offline_unregister. rewrite bindE. cbn [gets fst snd].
    destruct (m_initialized s); [|done]. cbn [negb]. rewrite bindE. cbn [gets fst snd].
    destruct (wrong_id MAX_MODULES id s); [done|]. rewrite !bindE. cbn [mret st_ret snd].
    by apply evaluate_asleep.
  - unfold Shared_Offline_enter_offline_state, now_s. rewrite !bindE. cbn [gets fst snd].
    destruct (m_initialized s); [|done]. cbn [negb]. rewrite bindE. cbn [gets fst snd].
    destruct (wrong_id MAX_MODULES id s); [done|]. rewrite !bindE. cbn [mret st_ret snd].
    by apply evaluate_asleep.
  - unfold Shared_Offline_enter_online_state. rewrite bindE. cbn [gets fst snd].
    destruct (m_initialized s); [|done]. cbn [negb]. rewrite bindE. cbn [gets fst snd].
    destruct (wrong_id MAX_MODULES id s); [done|]. rewrite !bindE. by apply online_mode_asleep.
Qed.

Lemma calls_asleep b cs s : asleep b s -> asleep b (run_calls MAX_MODULES E cs s).2.
Proof.
  revert s. induction cs as [|c cs IH]; intros s Hs; [done|]. cbn [run_calls]. rewrite bindE.
  by apply IH, call_asleep.
Qed.

Lemma offline_loop_asleep b delay n i s :
  asleep b s -> asleep b (offline_loop MAX_MODULES E delay n i s).2.
Proof.
  revert i s. induction n as [|n IH]; intros i s Hs; [done|]. cbn [offline_loop]. rewrite !bindE.
  cbn [gets fst snd]. apply IH. destruct (m_modules s !! i) as [m|]; [|done]. destruct (in_use m); [|done].
  destruct (on_offline_event (cbs m)) as [c|]; [|done]. unfold run_callback. rewrite bindE.
  apply calls_asleep. unfold in_world. pose proof (callback_keeps c delay (world s)) as Hk.
  destruct (on_offline E c delay (world s)) as [cs w]. cbn [fst snd] in *.
  destruct Hs as (? & ? & ?). split_and!; cbn; [done..|by rewrite Hk].
Qed.

(** The poll that finds the stack asleep executes the delayed wake-up. *)
Lemma poll_wakes s :
  waits s -> getSleepState E (world s) = APP_LIB_SLEEP_STARTED ->
  exists w, getSleepState E w = APP_LIB_SLEEP_STARTED /\
    m_offline_state (poll_for_offline MAX_MODULES E s).2 = STATE_OFFLINE /\
    m_delayed_wakeup (poll_for_offline MAX_MODULES E s).2 = false /\
    world (poll_for_offline MAX_MODULES E s).2 = (wakeupStack E w).2.
Proof.
  intros [He Hd] Hw. unfold poll_for_offline, sleep_state. rewrite !bindE. cbn [gets fst snd].
  rewrite Hw, bool_decide_eq_true_2 by done. cbn [andb Z.eqb APP_LIB_SLEEP_STARTED Pos.eqb].
  rewrite !bindE. unfold call_offline_cbs, now_s. rewrite !bindE. cbn [gets modify fst snd].
  set (s1 := (offline_loop _ _ _ _ _ _).2).
  assert (Ha : asleep true s1) by (apply offline_loop_asleep; by split_and!).
  destruct Ha as (Hs1 & Hd1 & Hw1). rewrite Hd1. rewrite !bindE. unfold wakeup_stack_task.
  rewrite !bindE. cbn [gets fst snd]. rewrite Hs1. rewrite !bindE. cbn [mret st_ret fst snd].
  exists (world s1). split; [done|]. unfold in_world. by destruct (wakeupStack E (world s1)).
Qed.

Lemma poll_waits s :
  waits s -> getSleepState E (world s) <> APP_LIB_SLEEP_STARTED -> waits (poll_for_offline MAX_MODULES E s).2.
Proof.
  intros Hs Hw. unfold poll_for_offline, sleep_state. rewrite !bindE. cbn [gets fst snd].
  by rewrite (proj2 (Z.eqb_neq _ _) Hw).
Qed.

Lemma run_waits es s :
  waits s -> Online ∉ es ->
  waits (run MAX_MODULES E es s) \/
  exists es1 es2 w, es = es1 ++ PollTask :: es2 /\ getSleepState E w = APP_LIB_SLEEP_STARTED /\
    let s1 := run MAX_MODULES E (es1 ++ [PollTask]) s in
    m_offline_state s1 = STATE_OFFLINE /\ m_delayed_wakeup s1 = false /\ world s1 = (wakeupStack E w).2.
Proof.
  revert s. induction es as [|e es IH]; intros s Hs Ho; [by left|].
  apply not_elem_of_cons in Ho as [Hne Ho].
  assert (Hgo : waits (step MAX_MODULES E e s) ->
    waits (run MAX_MODULES E (e :: es) s) \/
    exists es1 es2 w, e :: es = es1 ++ PollTask :: es2 /\ getSleepState E w = APP_LIB_SLEEP_STARTED /\
      let s1 := run MAX_MODULES E (es1 ++ [PollTask]) s in
      m_offline_state s1 = STATE_OFFLINE /\ m_delayed_wakeup s1 = false /\ world s1 = (wakeupStack E w).2).
  { intros Hx. destruct (IH _ Hx Ho) as [Hx'|(es1 & es2 & w & -> & Hw & Hrun)]; [by left|].
    right. by exists (e :: es1), es2, w. }
  clear IH. destruct e as [cs| | | |f]; try done.
  - apply Hgo. by apply calls_waits.
  - apply Hgo. destruct Hs as [He Hd]. cbn [step]. unfold wakeup_stack_task. rewrite bindE. cbn [gets fst snd].
    rewrite He. by split.
  - destruct (decide (getSleepState E (world s) = APP_LIB_SLEEP_STARTED)) as [Hw|Hw].
    + right. destruct (poll_wakes s Hs Hw) as (w & ? & ? & ? & ?). by exists [], es, w.
    + apply Hgo. by apply poll_waits.
  - apply Hgo. by destruct Hs.
Qed.

(** ** The properties *)

End Proofs.

Section Properties.
Context {W : Type} (MAX_MODULES : nat) (E : env (W := W)).
Abbreviation state := (state (W := W)).
Implicit Types s : state.


(** What one module sees of the wake-up. *)
Definition notify (now : Z) (w : W) (m : module_t) : W :=
  if in_use m then
    match on_online_event (cbs m) with
    | Some c => (on_online E c (delay_from_deadline (online_deadline_ts m) now) w).2
    | None => w
    end
  else w.

Definition not_ready (m : module_t) : module_t := if in_use m then with_ready false m else m.

Lemma online_loop_spec now s l1 l2 :
  (forall c d w, (on_online E c d w).1 = []) ->
  m_modules s = (not_ready <$> l1) ++ l2 ->
  (online_loop MAX_MODULES E now (length l2) (length l1) s).2 =
    set_world (foldl (notify now) (world s) l2) (set_modules (not_ready <$> (l1 ++ l2)) s).
Proof.
  intros Hq. revert s l1. induction l2 as [|m l2 IH]; intros s l1 Hl.
  { cbn [online_loop length foldl]. rewrite app_nil_r in *. rewrite <- Hl. by destruct s. }
  cbn [online_loop length]. rewrite !bindE. cbn [gets fst snd].
  assert (Hat : m_modules s !! length l1 = Some m) by (rewrite Hl; apply list_lookup_middle; by rewrite length_fmap).
  rewrite Hat. match goal with |- (online_loop _ _ _ _ _ ?x).2 = _ => set (s1 := x) end.
  assert (Es1 : s1 = set_world (notify now (world s) m) (set_modules ((not_ready <$> (l1 ++ [m])) ++ l2) s)).
  { subst s1. unfold notify. destruct (in_use m) eqn:Eu.
    - rewrite bindE, update_moduleE. cbn [fst snd].
      assert (El : alter (with_ready false) (length l1) (m_modules s) = (not_ready <$> (l1 ++ [m])) ++ l2).
      { erewrite alter_known by done. rewrite Hl, insert_app_r_alt by by rewrite length_fmap.
        rewrite length_fmap, Nat.sub_diag, fmap_app, <- app_assoc. cbn. unfold not_ready at 3. by rewrite Eu. }
      rewrite El. destruct (on_online_event (cbs m)) as [c|]; [|by destruct s].
      unfold run_callback. rewrite bindE. unfold in_world at 1 2. cbn [world set_modules].
      pose proof (Hq c (delay_from_deadline (online_deadline_ts m) now) (world s)) as Hn.
      destruct (on_online E c _ (world s)) as [cs w]. cbn [fst snd] in *. by rewrite Hn.
    - cbn [mret st_ret snd]. rewrite fmap_app, <- app_assoc. cbn [fmap list_fmap app].
      unfold not_ready at 2. rewrite Eu, <- Hl. by destruct s. }
  specialize (IH s1 (l1 ++ [m])). rewrite length_app in IH. cbn [length] in IH. rewrite Nat.add_1_r in IH.
  rewrite IH by by rewrite Es1. rewrite Es1, <- app_assoc. done.
Qed.

(** When the stack wakes up, every module in use is told how long before
    its deadline that is, each exactly once and in order, and no module agrees
    to sleep any more: until a module in use asks again, nothing puts the stack
    back to sleep. *)
Theorem online_notifies s :
  length (m_modules s) = MAX_MODULES -> (forall c d w, (on_online E c d w).1 = []) ->
  let s' := step MAX_MODULES E Online s in
  m_offline_state s' = STATE_ONLINE /\
  m_modules s' = not_ready <$> m_modules s /\
  world s' = foldl (notify (getTimestampS E (world s))) (world s) (m_modules s) /\
  (Exists (fun m => in_use m = true) (m_modules s) -> (evaluate_sleep E s').2 = s').
Proof.
  intros Hl Hq. cbn [step]. unfold on_stack_online_cb, now_s. rewrite !bindE. cbn [gets modify fst snd].
  set (now := getTimestampS E (world s)).
  pose proof (online_loop_spec now (set_state STATE_ONLINE s) [] (m_modules s) Hq eq_refl) as Hloop.
  rewrite Hl in Hloop. cbn [length app] in Hloop. rewrite Hloop. cbn zeta. split_and!; [done..|].
  intros He. rewrite evaluate_sleep_spec. cbn [m_modules set_modules set_world].
  rewrite decide_False; [done|]. intros Ha. rewrite Forall_fmap in Ha.
  apply Exists_exists in He as (m & Hm & Hu). rewrite Forall_forall in Ha.
  specialize (Ha m Hm). unfold not_ready, agrees in Ha. cbn in Ha. rewrite Hu in Ha. cbn in Ha. by specialize (Ha Hu).
Qed.
End Properties.

(** ** Witnesses *)

(** The clock, the state of the stack, and what was asked of the scheduler, the
    stack and the modules. *)
Definition demo_world : Type := Z * Z * list Z.

Definition demo_log (x : Z) (w : demo_world) : demo_world := (w.1, w.2 ++ [x]).

Definition demo_env : env (W := demo_world) := {|
  on_offline := fun _ d w => ([], demo_log d w);
  on_online := fun _ d w => ([], demo_log d w);
  getTimestampS := fun w => w.1.1;
  getSleepState := fun w => w.1.2;
  sleepStackforTime := fun t _ w => if t =? 0 then (APP_RES_INVALID_VALUE, w) else (APP_RES_OK, demo_log t w);
  wakeupStack := fun w => (APP_RES_OK, demo_log (-1) w);
  setOnWakeupCb := fun w => w;
  addTask_execTime := fun _ ms _ w => (true, demo_log ms w) |}.

#[export] Instance demo_stack_ok : StackOk demo_env.
Proof. by constructor. Qed.

Definition demo_module (c : fn) (deadline : Z) (ready : bool) : module_t :=
  {| in_use := true; cbs := {| on_offline_event := Some c; on_online_event := Some c |};
     online_deadline_ts := deadline; ready_to_enter_offline := ready |}.

Definition demo_state (x : offline_state_e) (now : Z) (l : list module_t) : state (W := demo_world) := {|
  m_offline_state := x; m_delayed_wakeup := false; m_modules := l; m_initialized := true;
  m_last_enterring_offline_ts := 0; m_next_online_ts := 0; world := (now, 0, []) |}.

Definition two_modules : list module_t := [demo_module 1 50 false; demo_module 2 60 true].

Definition falls_asleep (w : demo_world) : demo_world := (w.1.1, APP_LIB_SLEEP_STARTED, w.2).



Lemma online_notifies_witness :
  let s := demo_state STATE_OFFLINE 55 two_modules in
  let s' := step 2 demo_env Online s in
  (m_offline_state s' = STATE_ONLINE /\ m_modules s' = not_ready <$> m_modules s /\
   world s' = foldl (notify demo_env (getTimestampS demo_env (world s))) (world s) (m_modules s) /\
   (Exists (fun m => in_use m = true) (m_modules s) -> (evaluate_sleep demo_env s').2 = s')) /\
  world s' = (55, 0, [0; 5]).
Proof.
  split; [|by vm_compute].
  exact (online_notifies 2 demo_env (demo_state STATE_OFFLINE 55 two_modules) eq_refl (fun _ _ _ => eq_refl)).
Defined.

(** ** What the code does not do

    The readiness of a module is cleared just before its own callback, not
    before the first: when the callback of the first module asks to sleep
    again, which the header allows, the second module still counts as ready and
    the stack is put to sleep before that module was told of the wake-up. *)
Definition eager_env : env (W := demo_world) := {|
  on_offline := on_offline demo_env;
  on_online := fun c d w => (if (c =? 1)%positive then [EnterOffline 0 100] else [], demo_log d w);
  getTimestampS := getTimestampS demo_env; getSleepState := getSleepState demo_env;
  sleepStackforTime := sleepStackforTime demo_env; wakeupStack := wakeupStack demo_env;
  setOnWakeupCb := fun w => w; addTask_execTime := addTask_execTime demo_env |}.

Lemma sleeps_before_notified :
  let s := step 2 eager_env Online (demo_state STATE_OFFLINE 55 [demo_module 1 55 true; demo_module 2 60 true]) in
  m_offline_state s = STATE_ENTERING_OFFLINE /\
  ready_to_enter_offline <$> m_modules s = [true; false] /\
  world s = (55, 0, [0; 5000; 518400; 1000; 5]).
Proof. by vm_compute. Qed.

(** The delay in milliseconds wraps around: a module that agrees to sleep for
    49 days and 17 hours is woken up after 0.7 seconds. *)
Lemma long_sleep_is_short :
  (world (Shared_Offline_enter_offline_state 1 demo_env 0 4294968
            (demo_state STATE_ONLINE 0 [demo_module 1 0 false])).2).2 = [704; 518400; 1000].
Proof. by vm_compute. Qed.

(** When the scheduler has no room for the polling task, the library enters
    the state that only this task leaves, and reports success. *)
Definition full_env : env (W := demo_world) := {|
  on_offline := on_offline demo_env; on_online := on_online demo_env;
  getTimestampS := getTimestampS demo_env; getSleepState := getSleepState demo_env;
  sleepStackforTime := sleepStackforTime demo_env; wakeupStack := wakeupStack demo_env;
  setOnWakeupCb := fun w => w;
  addTask_execTime := fun t ms _ w =>
    match t with WakeupStackTask => (true, demo_log ms w) | PollForOffline => (false, w) end |}.

Lemma entering_without_poll :
  let r := Shared_Offline_enter_offline_state 1 full_env 0 5 (demo_state STATE_ONLINE 0 [demo_module 1 0 false]) in
  r.1 = SHARED_OFFLINE_RES_OK /\ m_offline_state r.2 = STATE_ENTERING_OFFLINE /\ (world r.2).2 = [5000; 518400].
Proof. by vm_compute. Qed.
