(* ===== verification/SharedTables.v ===== *)
(** * Callback tables: stack state, neighbours, beacons

    Three small libraries that share one service of the stack between the
    modules of an application through a static table:
    [libraries/stack_state/stack_state.c] (events of the stack),
    [libraries/shared_neighbors/shared_neighbors.c] (received beacons) and
    [libraries/shared_beacon/shared_beacon.c] (sent beacons).

    The sizes of the first two tables are chosen by the build and are
    parameters.  A callback is an address; what it does is a function of the
    environment on the state of its library, so it may register and remove
    callbacks while the library walks through the table. *)

From S2P Require Import Prelude Api.

Abbreviation fn := positive.

(** ** Events of the stack *)

Module StackState.

Record stack_state_cbs_t := { cb : option fn; bitfields : Z }.

Section StackState.
Context {W : Type} (STACK_STATE_CB : nat).

Record state := {
  m_initialized : bool;
  m_stack_state_cbs : list stack_state_cbs_t;
  world : W }.

Record env := {
  on_event : fn -> Z -> state -> state;
  setOnStackEventCb : W -> Z * W;
  startStack : W -> Z * W;
  stopStack : W -> Z * W;
  getStackState : W -> Z }.

Abbreviation M := (st state).

Definition set_cbs (l : list stack_state_cbs_t) (s : state) : state :=
  {| m_initialized := m_initialized s; m_stack_state_cbs := l; world := world s |}.
Definition in_world {A} (f : W -> A * W) : M A :=
  fun s => let '(x, w) := f (world s) in
           (x, {| m_initialized := m_initialized s; m_stack_state_cbs := m_stack_state_cbs s; world := w |}).

(** [bitfields & (1 << event)] *)
Definition wants (event : Z) (c : stack_state_cbs_t) : bool :=
  negb (Z.land (bitfields c) (Z.shiftl 1 event) =? 0).

Fixpoint notify_loop (E : env) (event : Z) (n i : nat) : M unit :=
  match n with
  | O => mret tt
  | S n =>
      c ← gets (fun s => m_stack_state_cbs s !! i);
      _ ← match c with
          | Some c =>
              match cb c with
              | Some f => if wants event c then modify (on_event E f event) else mret tt
              | None => mret tt
              end
          | None => mret tt
          end;
      notify_loop E event n (S i)
  end.

Definition notify_modules (E : env) (event : Z) : M unit := notify_loop E event STACK_STATE_CB 0.

Definition onStackEventCb (E : env) (event : Z) : M unit := notify_modules E event.

Definition free_cb (c : stack_state_cbs_t) : stack_state_cbs_t := {| cb := None; bitfields := bitfields c |}.

Definition Stack_State_init (E : env) : M Z :=
  initialized ← gets m_initialized;
  if (initialized : bool) then mret APP_RES_OK
  else
    _ ← modify (fun s => set_cbs (free_cb <$> m_stack_state_cbs s) s);
    res ← in_world (setOnStackEventCb E);
    if negb (res =? APP_RES_OK) then mret res
    else
      _ ← modify (fun s => {| m_initialized := true; m_stack_state_cbs := m_stack_state_cbs s; world := world s |});
      mret APP_RES_OK.

Definition Stack_State_startStack (E : env) : M Z :=
  initialized ← gets m_initialized;
  if negb initialized then mret APP_RES_INVALID_VALUE else in_world (startStack E).

Definition Stack_State_stopStack (E : env) : M Z :=
  initialized ← gets m_initialized;
  if negb initialized then mret APP_RES_INVALID_VALUE else in_world (stopStack E).

Definition Stack_State_isStarted (E : env) : M bool :=
  gets (fun s => getStackState E (world s) =? APP_LIB_STATE_STARTED).

(** The search: either the slot of the callback, or the last free slot. *)
Fixpoint add_loop (callback : fn) (i : nat) (free_slot : option nat) (l : list stack_state_cbs_t)
    : (nat + option nat) :=
  match l with
  | [] => inr free_slot
  | c :: l =>
      match cb c with
      | None => add_loop callback (S i) (Some i) l
      | Some f => if decide (f = callback) then inl i else add_loop callback (S i) free_slot l
      end
  end.

Definition Stack_State_addEventCb (callback : option fn) (event_bitfield : Z) : M Z :=
  initialized ← gets m_initialized;
  if negb initialized then mret APP_RES_INVALID_VALUE
  else
    match callback with
    | None => mret APP_RES_INVALID_NULL_POINTER
    | Some f =>
        if event_bitfield =? 0 then mret APP_RES_INVALID_VALUE
        else
          l ← gets m_stack_state_cbs;
          match add_loop f 0 None l with
          | inl i | inr (Some i) =>
              _ ← modify (set_cbs (<[i := {| cb := Some f; bitfields := event_bitfield |}]> l));
              mret APP_RES_OK
          | inr None => mret APP_RES_RESOURCE_UNAVAILABLE
          end
    end.

(** The loop compares with the argument, whatever it is. *)
Definition Stack_State_removeEventCb (callback : option fn) : M Z :=
  initialized ← gets m_initialized;
  if negb initialized then mret APP_RES_INVALID_VALUE
  else
    l ← gets m_stack_state_cbs;
    _ ← modify (set_cbs ((fun c => if decide (cb c = callback) then free_cb c else c) <$> l));
    mret (if existsb (fun c => bool_decide (cb c = callback)) l then APP_RES_OK else APP_RES_INVALID_VALUE).

End StackState.
End StackState.

(** ** Received beacons *)

Module SharedNeighbors.
Section SharedNeighbors.
Context {W : Type} (SHARED_NEIGHBORS_MAX_CB : nat).

(** The table of [cb_beacon]s. *)
Record state := { m_neighbor_cb : list (option fn); world : W }.

Record env (Beacon : Type) := {
  on_beacon : fn -> Beacon -> state -> state;
  setOnBeaconCb : W -> W }.
Arguments on_beacon {Beacon}.
Arguments setOnBeaconCb {Beacon}.
Context {Beacon : Type}.

Abbreviation M := (sf state).

Definition set_cbs (l : list (option fn)) (s : state) : state := {| m_neighbor_cb := l; world := world s |}.

Fixpoint beacon_loop (E : env Beacon) (beacon : Beacon) (n i : nat) : M unit :=
  match n with
  | O => mret tt
  | S n =>
      c ← reads (fun s => m_neighbor_cb s !! i);
      _ ← match c with
          | Some f => puts (on_beacon E f beacon)
          | None => mret tt
          end;
      beacon_loop E beacon n (S i)
  end.

Definition received_beacon_cb (E : env Beacon) (beacon : Beacon) : M unit :=
  beacon_loop E beacon SHARED_NEIGHBORS_MAX_CB 0.

Definition Shared_Neighbors_init : M Z :=
  _ ← puts (fun s => set_cbs (const None <$> m_neighbor_cb s) s); mret APP_RES_OK.

Fixpoint first_free (i : nat) (l : list (option fn)) : option nat :=
  match l with
  | [] => None
  | None :: _ => Some i
  | Some _ :: l => first_free (S i) l
  end.

Definition Shared_Neighbors_addOnBeaconCb (E : env Beacon) (cb_beacon : option fn) : M (Z * option nat) :=
  match cb_beacon with
  | None => mret (APP_RES_INVALID_NULL_POINTER, None)
  | Some f =>
      _ ← puts (fun s => {| m_neighbor_cb := m_neighbor_cb s; world := setOnBeaconCb E (world s) |});
      l ← asks m_neighbor_cb;
      match first_free 0 l with
      | Some i => _ ← puts (set_cbs (<[i := Some f]> l)); mret (APP_RES_OK, Some i)
      | None => mret (APP_RES_RESOURCE_UNAVAILABLE, None)
      end
  end.

(** The index is not checked: outside of the table it is a fault. *)
Definition Shared_Neighbors_removeBeaconCb (cb_id : Z) : M Z :=
  c ← reads (fun s => m_neighbor_cb s !! Z.to_nat cb_id);
  match c with
  | Some _ => _ ← puts (fun s => set_cbs (<[Z.to_nat cb_id := None]> (m_neighbor_cb s)) s); mret APP_RES_OK
  | None => mret APP_RES_INVALID_CONFIGURATION
  end.

End SharedNeighbors.

Arguments on_beacon {W Beacon}.
Arguments setOnBeaconCb {W Beacon}.

End SharedNeighbors.

(** ** Sent beacons *)

Module SharedBeacon.

Definition APP_LIB_BEACON_TX_MAX_INTERVAL : Z := 60000.
Definition APP_LIB_BEACON_TX_MAX_INDEX : Z := 7.

Inductive shared_beacon_res_e :=
| SHARED_BEACON_RES_OK | SHARED_BEACON_INIT_NOT_DONE | SHARED_BEACON_INDEX_NOT_AVAILABLE
| SHARED_BEACON_INDEX_NOT_ACTIVE | SHARED_BEACON_INVALID_PARAM.

Record shared_beacon_t := { interval_ms : Z; in_use : bool }.

Definition set_in_use (b : bool) (x : shared_beacon_t) : shared_beacon_t :=
  {| interval_ms := interval_ms x; in_use := b |}.
Definition set_interval (i : Z) (x : shared_beacon_t) : shared_beacon_t :=
  {| interval_ms := i; in_use := in_use x |}.

Section SharedBeacon.
Context {W : Type}.

Record env := {
  clearBeacons : W -> W;
  enableBeacons : bool -> W -> Z * W;
  setBeaconInterval : Z -> W -> Z * W;
  setBeaconPower : Z -> Z -> W -> Z * W;
  setBeaconChannels : Z -> Z -> W -> Z * W;
  setBeaconContents : Z -> option (list Z) -> W -> Z * W }.

Record state := {
  m_init_done : bool;
  m_beacons_enabled : bool;
  m_beacon_index : list shared_beacon_t;
  m_min_interval_used_ms : Z;
  world : W }.

Abbreviation M := (st state).

Definition set_table l s := {| m_init_done := m_init_done s; m_beacons_enabled := m_beacons_enabled s;
  m_beacon_index := l; m_min_interval_used_ms := m_min_interval_used_ms s; world := world s |}.
Definition set_min i s := {| m_init_done := m_init_done s; m_beacons_enabled := m_beacons_enabled s;
  m_beacon_index := m_beacon_index s; m_min_interval_used_ms := i; world := world s |}.
Definition set_enabled b s := {| m_init_done := m_init_done s; m_beacons_enabled := b;
  m_beacon_index := m_beacon_index s; m_min_interval_used_ms := m_min_interval_used_ms s; world := world s |}.
Definition set_world w s := {| m_init_done := m_init_done s; m_beacons_enabled := m_beacons_enabled s;
  m_beacon_index := m_beacon_index s; m_min_interval_used_ms := m_min_interval_used_ms s; world := w |}.
Definition in_world {A} (f : W -> A * W) : M A :=
  fun s => let '(x, w) := f (world s) in (x, set_world w s).

Definition update (i : nat) (f : shared_beacon_t -> shared_beacon_t) : M unit :=
  modify (fun s => set_table (alter f i (m_beacon_index s)) s).

Definition Shared_Beacon_init (E : env) : M shared_beacon_res_e :=
  init_done ← gets m_init_done;
  if (init_done : bool) then mret SHARED_BEACON_RES_OK
  else
    _ ← modify (fun s => set_table (const {| interval_ms := 0; in_use := false |} <$> m_beacon_index s) s);
    _ ← modify (fun s => {| m_init_done := true; m_beacons_enabled := m_beacons_enabled s;
          m_beacon_index := m_beacon_index s; m_min_interval_used_ms := m_min_interval_used_ms s;
          world := world s |});
    _ ← modify (set_enabled false);
    _ ← modify (set_min APP_LIB_BEACON_TX_MAX_INTERVAL);
    _ ← in_world (fun w => (tt, clearBeacons E w));
    mret SHARED_BEACON_RES_OK.

Fixpoint first_free (i : nat) (l : list shared_beacon_t) : option nat :=
  match l with
  | [] => None
  | x :: l => if in_use x then first_free (S i) l else Some i
  end.

(** The index is written when the beacon is started. *)
Definition Shared_Beacon_startBeacon (E : env) (interval power channels_mask : Z) (content : list Z)
    : M (shared_beacon_res_e * option nat) :=
  init_done ← gets m_init_done;
  if negb init_done then mret (SHARED_BEACON_INIT_NOT_DONE, None)
  else
    l ← gets m_beacon_index;
    match first_free 0 l with
    | None => mret (SHARED_BEACON_INDEX_NOT_AVAILABLE, None)
    | Some n =>
        _ ← update n (set_in_use true);
        r1 ← in_world (setBeaconPower E (Z.of_nat n) power);
        r2 ← in_world (setBeaconChannels E (Z.of_nat n) channels_mask);
        r3 ← in_world (setBeaconContents E (Z.of_nat n) (Some content));
        if negb (Z.lor (Z.lor r1 r2) r3 =? APP_RES_OK) then
          _ ← update n (set_in_use false);
          mret (SHARED_BEACON_INVALID_PARAM, None)
        else
          m ← gets m_min_interval_used_ms;
          _ ← (if interval <? m then modify (set_min interval) else mret tt);
          _ ← update n (set_interval interval);
          m ← gets m_min_interval_used_ms;
          _ ← in_world (setBeaconInterval E m);
          enabled ← gets m_beacons_enabled;
          _ ← (if negb enabled then
                 _ ← modify (set_enabled true);
                 in_world (enableBeacons E true)
               else mret 0);
          mret (SHARED_BEACON_RES_OK, Some n)
    end.

Fixpoint smallest_loop (interval : Z) (l : list shared_beacon_t) : Z :=
  match l with
  | [] => interval
  | x :: l => smallest_loop (if in_use x && (interval_ms x <? interval) then interval_ms x else interval) l
  end.

Definition smallest_interval (l : list shared_beacon_t) : Z :=
  smallest_loop APP_LIB_BEACON_TX_MAX_INTERVAL l.

Definition Shared_Beacon_stopBeacon (E : env) (index : Z) : M shared_beacon_res_e :=
  init_done ← gets m_init_done;
  if negb init_done then mret SHARED_BEACON_INIT_NOT_DONE
  else if APP_LIB_BEACON_TX_MAX_INDEX <? index then mret SHARED_BEACON_INVALID_PARAM
  else
    used ← gets (fun s => match m_beacon_index s !! Z.to_nat index with Some x => in_use x | None => false end);
    if negb used then mret SHARED_BEACON_INDEX_NOT_AVAILABLE
    else
      res ← in_world (setBeaconContents E index None);
      _ ← update (Z.to_nat index) (set_in_use false);
      _ ← modify (fun s => set_min (smallest_interval (m_beacon_index s)) s);
      m ← gets m_min_interval_used_ms;
      _ ← in_world (setBeaconInterval E m);
      if negb (res =? APP_RES_OK) then mret SHARED_BEACON_INDEX_NOT_ACTIVE
      else mret SHARED_BEACON_RES_OK.

End SharedBeacon.
End SharedBeacon.

(** * Properties *)

(** ** Events of the stack: a bounded map from callbacks to events *)

Module StackStateProofs.
Import StackState.

(** What the table stands for: the events each callback is registered for. *)
Definition entry (c : stack_state_cbs_t) : option (fn * Z) := f ← cb c; Some (f, bitfields c).
Definition registry (l : list stack_state_cbs_t) : gmap fn Z := list_to_map (omap entry l).

Lemma entry_some c f b : entry c = Some (f, b) <-> cb c = Some f /\ bitfields c = b.
Proof.
  unfold entry. destruct (cb c); cbn; [|naive_solver]. split; [intros [= -> ->]; done|intros [[= ->] ->]; done].
Qed.

Lemma entries_fst l : (omap entry l).*1 = omap cb l.
Proof.
  induction l as [|c l IH]; [done|]. cbn. unfold entry at 1. destruct (cb c); cbn; by rewrite IH.
Qed.

Section Table.
Context (n : nat).

(** The type of the table: [n] slots, and no callback in two of them. *)
Definition wf_table (l : list stack_state_cbs_t) : Prop := length l = n /\ NoDup (omap cb l).

Lemma lookup_registry l f b :
  NoDup (omap cb l) -> registry l !! f = Some b <-> exists i, l !! i = Some {| cb := Some f; bitfields := b |}.
Proof.
  intros Hd. unfold registry. rewrite <- elem_of_list_to_map by (by rewrite entries_fst).
  rewrite list_elem_of_omap. setoid_rewrite list_elem_of_lookup. split.
  - intros ([c d] & [i Hi] & He). apply entry_some in He as [? ?]. cbn in *. subst. by exists i.
  - intros [i Hi]. eexists. split; [by exists i|done].
Qed.

Lemma lookup_registry_none l f : registry l !! f = None <-> f ∉ omap cb l.
Proof. unfold registry. rewrite <- not_elem_of_list_to_map. by rewrite entries_fst. Qed.

Lemma registered l f : is_Some (registry l !! f) <-> f ∈ omap cb l.
Proof.
  pose proof (lookup_registry_none l f). destruct (registry l !! f) eqn:E.
  - split; [intros _|done]. destruct (decide (f ∈ omap cb l)); naive_solver.
  - split; [intros [? [=]]|naive_solver].
Qed.

(** The search of [Stack_State_addEventCb]. *)
Lemma registry_add_loop f l k free :
  match add_loop f k free l with
  | inl i => exists c, (k <= i)%nat /\ l !! (i - k)%nat = Some c /\ cb c = Some f
  | inr r =>
      f ∉ omap cb l /\
      match r with
      | Some i => Some i = free \/ exists c, (k <= i)%nat /\ l !! (i - k)%nat = Some c /\ cb c = None
      | None => free = None /\ length (omap cb l) = length l
      end
  end.
Proof.
  revert k free. induction l as [|c l IH]; intros k free; cbn [add_loop].
  - split; [cbn; apply not_elem_of_nil|]. destruct free; auto.
  - assert (Hs : forall c' i, (S k <= i)%nat -> l !! (i - S k)%nat = Some c' -> (c :: l) !! (i - k)%nat = Some c').
    { intros c' i Hi H. replace (i - k)%nat with (S (i - S k)) by lia. done. }
    cbn [omap list_omap]. destruct (cb c) as [g|] eqn:Hc.
    + case_decide as Hg.
      * exists c. rewrite Nat.sub_diag. subst. auto.
      * specialize (IH (S k) free). destruct (add_loop f (S k) free l) as [i|r].
        -- destruct IH as (c' & Hi & Hl & Hf). exists c'. auto with lia.
        -- destruct IH as [Hn IH]. split; [set_solver|]. destruct r as [i|].
           ++ destruct IH as [->|(c' & Hi & Hl & Hf)]; [by left|right; exists c'; auto with lia].
           ++ destruct IH as [-> IH]. cbn. by rewrite IH.
    + specialize (IH (S k) (Some k)). destruct (add_loop f (S k) (Some k) l) as [i|r].
      * destruct IH as (c' & Hi & Hl & Hf). exists c'. auto with lia.
      * destruct IH as [Hn IH]. split; [done|]. destruct r as [i|].
        -- right. destruct IH as [[= ->]|(c' & Hi & Hl & Hf)].
           ++ exists c. rewrite Nat.sub_diag. auto.
           ++ exists c'. auto with lia.
        -- by destruct IH as [[=] _].
Qed.

Lemma omap_insert_some l i f b c :
  l !! i = Some c -> (cb c = Some f \/ cb c = None /\ f ∉ omap cb l) ->
  omap cb (<[i := {| cb := Some f; bitfields := b |}]> l) ≡ₚ
    match cb c with Some _ => omap cb l | None => f :: omap cb l end.
Proof.
  intros Hi H. rewrite insert_take_drop by (by eapply lookup_lt_Some).
  pose proof (take_drop_middle _ _ _ Hi) as Hl. revert H.
  generalize dependent (take i l); generalize dependent (drop (S i) l). intros r t <- H.
  rewrite !omap_app in *. cbn in *. destruct H as [->|[-> _]]; [done|]. by rewrite Permutation_middle.
Qed.

Lemma add_wf l i f b c :
  wf_table l -> l !! i = Some c -> (cb c = Some f \/ cb c = None /\ f ∉ omap cb l) ->
  wf_table (<[i := {| cb := Some f; bitfields := b |}]> l).
Proof.
  intros [Hl Hd] Hi H. split; [by rewrite length_insert|].
  rewrite (omap_insert_some l i f b c Hi H). destruct H as [->|[-> ?]]; [done|by constructor].
Qed.

Lemma add_registry l i f b c :
  wf_table l -> l !! i = Some c -> (cb c = Some f \/ cb c = None /\ f ∉ omap cb l) ->
  registry (<[i := {| cb := Some f; bitfields := b |}]> l) = <[f := b]> (registry l).
Proof.
  intros Hwf Hi H. pose proof (add_wf l i f b c Hwf Hi H) as [_ Hd'].
  destruct Hwf as [Hl Hd]. pose proof (lookup_lt_Some _ _ _ Hi).
  apply map_eq. intros g. apply option_eq. intros v.
  rewrite lookup_registry by done. rewrite lookup_insert_Some, lookup_registry by done. split.
  - intros [j Hj]. apply list_lookup_insert_Some in Hj as [(-> & [= <- <-] & _)|[Hij Hj]]; [by left|].
    right. split; [|by exists j]. intros ->.
    assert (Hin : g ∈ omap cb l) by (apply list_elem_of_omap; eexists; split; [by eapply list_elem_of_lookup_2|done]).
    destruct H as [Hc|[_ ?]]; [|done]. apply Hij.
    rewrite <- (take_drop_middle _ _ _ Hi), omap_app in Hd. cbn in Hd. rewrite Hc in Hd. cbn in Hd.
    apply NoDup_app in Hd as (_ & Hd1 & Hd2). apply NoDup_cons in Hd2 as [Hd2 _].
    destruct (Nat.lt_trichotomy i j) as [Hlt|[?|Hlt]]; [|done|].
    + exfalso. apply Hd2. apply list_elem_of_omap. exists {| cb := Some g; bitfields := v |}. split; [|done].
      apply (list_elem_of_lookup_2 _ (j - S i)). rewrite lookup_drop. replace (S i + (j - S i))%nat with j by lia. exact Hj.
    + exfalso. apply (Hd1 g); [|by left]. apply list_elem_of_omap. exists {| cb := Some g; bitfields := v |}. split; [|done].
      apply (list_elem_of_lookup_2 _ j). rewrite lookup_take_lt by done. exact Hj.
  - intros [[-> ->]|[Hg [j Hj]]].
    + exists i. by rewrite list_lookup_insert_eq.
    + exists j. rewrite list_lookup_insert_ne; [done|]. intros ->. destruct H as [Hc|[Hc _]]; naive_solver.
Qed.

Definition without (f : fn) (l : list stack_state_cbs_t) : list stack_state_cbs_t :=
  (fun c => if decide (cb c = Some f) then free_cb c else c) <$> l.

Lemma omap_remove f l :
  omap cb (without f l) = filter (.≠ f) (omap cb l).
Proof.
  induction l as [|c l IH]; [done|]. unfold without in *. rewrite fmap_cons. cbn [omap list_omap]. case_decide as H.
  - rewrite H. change (omap cb ((fun c => if decide (cb c = Some f) then free_cb c else c) <$> l) =
      filter (.≠ f) (f :: omap cb l)). rewrite filter_cons_False by auto. exact IH.
  - destruct (cb c) as [g|] eqn:Hc; [|exact IH].
    rewrite filter_cons_True by congruence. by f_equal.
Qed.

Lemma remove_wf f l :
  wf_table l -> wf_table (without f l).
Proof. intros [Hl Hd]. split; [by unfold without; rewrite length_fmap|]. rewrite omap_remove. by apply NoDup_filter. Qed.

Lemma registry_without f l :
  registry (without f l) = delete f (registry l).
Proof.
  unfold registry, without. induction l as [|c l IH]; [symmetry; apply delete_empty|]. rewrite fmap_cons. cbn [omap list_omap].
  case_decide as H.
  - change (entry (free_cb c)) with (@None (fn * Z)).
    assert (entry c = Some (f, bitfields c)) as -> by (unfold entry; by rewrite H).
    cbn [list_to_map foldr fst snd]. rewrite delete_insert_eq. exact IH.
  - destruct (cb c) as [g|] eqn:Hc.
    + assert (entry c = Some (g, bitfields c)) as -> by (unfold entry; by rewrite Hc).
      cbn [list_to_map foldr fst snd]. rewrite delete_insert_ne by congruence. f_equal. exact IH.
    + assert (entry c = None) as -> by (unfold entry; by rewrite Hc). exact IH.
Qed.

Lemma remove_found f l :
  existsb (fun c => bool_decide (cb c = Some f)) l = bool_decide (is_Some (registry l !! f)).
Proof.
  apply eq_bool_prop_intro. rewrite bool_decide_spec, registered, list_elem_of_omap.
  rewrite existb_True, Exists_exists. split; intros (c & Hc & H); exists c; (split; [done|]);
    [by apply bool_decide_unpack in H|by apply bool_decide_pack].
Qed.

Lemma omap_length_le (l : list stack_state_cbs_t) : (length (omap cb l) <= length l)%nat.
Proof. induction l as [|c l IH]; [done|]. cbn. destruct (cb c); cbn; lia. Qed.

Lemma full_all_used (l : list stack_state_cbs_t) i c :
  length (omap cb l) = length l -> l !! i = Some c -> cb c <> None.
Proof.
  revert i. induction l as [|d l IH]; intros [|i] Hl Hi Hc; cbn in *; try done.
  - injection Hi as ->. rewrite Hc in Hl. pose proof (omap_length_le l). lia.
  - destruct (cb d); cbn in Hl; [|pose proof (omap_length_le l); lia]. eapply (IH i); [lia|done..].
Qed.

Lemma omap_free (l : list stack_state_cbs_t) : omap cb (free_cb <$> l) = [].
Proof. induction l as [|c l IH]; [done|exact IH]. Qed.

Lemma registry_size l : NoDup (omap cb l) -> size (registry l) = length (omap cb l).
Proof.
  intros Hd. unfold registry. rewrite <- length_map_to_list, map_to_list_to_map by (by rewrite entries_fst).
  by rewrite <- entries_fst, length_fmap.
Qed.

End Table.

(** The requests of the modules of the application, and the events of the
    stack, that the library serves. *)
Inductive call := Add (callback : option fn) (events : Z) | Remove (f : fn) | Notify (event : Z).

(** What an event does: every callback registered for it, once, in an order
    that the specification leaves open. *)
Definition told (R : gmap fn Z) (event : Z) : list fn :=
  (map_to_list (filter (fun '(_, events) => Z.testbit events event = true) R)).*1.

Section Refinement.
Context {W : Type} (n : nat) (E : @env W) (react : fn -> Z -> W -> W).

Abbreviation state := (@state W).
Implicit Types (s : state) (R : gmap fn Z).

(** The callbacks act outside of the library. *)
Definition outside : Prop :=
  forall f e s, on_event E f e s =
    {| m_initialized := m_initialized s; m_stack_state_cbs := m_stack_state_cbs s; world := react f e (world s) |}.

Definition spec_add (callback : option fn) (events : Z) R : Z * gmap fn Z :=
  match callback with
  | None => (APP_RES_INVALID_NULL_POINTER, R)
  | Some f =>
      if events =? 0 then (APP_RES_INVALID_VALUE, R)
      else if bool_decide (is_Some (R !! f)) || (size R <? n)%nat then (APP_RES_OK, <[f := events]> R)
      else (APP_RES_RESOURCE_UNAVAILABLE, R)
  end.

Definition spec_remove (f : fn) R : Z * gmap fn Z :=
  if bool_decide (is_Some (R !! f)) then (APP_RES_OK, delete f R) else (APP_RES_INVALID_VALUE, R).

Inductive spec : list call -> gmap fn Z -> W -> list Z -> gmap fn Z -> W -> Prop :=
| spec_nil R w : spec [] R w [] R w
| spec_cons_add f ev R w prog out R' w' :
    spec prog (spec_add f ev R).2 w out R' w' ->
    spec (Add f ev :: prog) R w ((spec_add f ev R).1 :: out) R' w'
| spec_cons_remove f R w prog out R' w' :
    spec prog (spec_remove f R).2 w out R' w' ->
    spec (Remove f :: prog) R w ((spec_remove f R).1 :: out) R' w'
| spec_cons_notify e l R w prog out R' w' :
    l ≡ₚ told R e ->
    spec prog R (foldl (fun w f => react f e w) w l) out R' w' ->
    spec (Notify e :: prog) R w (APP_RES_OK :: out) R' w'.

Definition do_call (c : call) : st state Z :=
  match c with
  | Add f ev => Stack_State_addEventCb f ev
  | Remove f => Stack_State_removeEventCb (Some f)
  | Notify e => _ ← onStackEventCb n E e; mret APP_RES_OK
  end.

Fixpoint do_calls (prog : list call) : st state (list Z) :=
  match prog with
  | [] => mret []
  | c :: prog => r ← do_call c; rs ← do_calls prog; mret (r :: rs)
  end.

Definition ready s : Prop := m_initialized s = true /\ wf_table n (m_stack_state_cbs s).
Abbreviation reg s := (registry (m_stack_state_cbs s)).

Lemma wants_testbit event c : 0 <= event -> wants event c = Z.testbit (bitfields c) event.
Proof.
  intros H. unfold wants. destruct (Z.testbit (bitfields c) event) eqn:Hb.
  - apply negb_true_iff, Z.eqb_neq. intros Hz. apply (f_equal (fun x => Z.testbit x event)) in Hz.
    rewrite Z.land_spec, Hb, Z.shiftl_spec, Z.sub_diag, Z.bits_0 in Hz by done. done.
  - apply negb_false_iff, Z.eqb_eq, Z.bits_inj'. intros i Hi. rewrite Z.land_spec, Z.bits_0.
    rewrite Z.shiftl_spec by done. destruct (Z.eq_dec i event) as [->|Hne]; [by rewrite Hb|].
    destruct (Z.lt_ge_cases i event); [rewrite (Z.testbit_neg_r 1) by lia; apply andb_false_r|].
    by rewrite (Z.bits_above_log2 1), andb_false_r by (cbn; lia).
Qed.

Lemma full_or_not l : NoDup (omap cb l) -> length l = n ->
  (length (omap cb l) = length l <-> ~ (size (registry l) < n)%nat).
Proof.
  intros Hd <-. rewrite registry_size by done. pose proof (omap_length_le l). lia.
Qed.

#[local] Arguments Nat.ltb : simpl never.

Lemma registry_add f ev s : ready s ->
  let r := Stack_State_addEventCb f ev s in
  r.1 = (spec_add f ev (reg s)).1 /\ reg r.2 = (spec_add f ev (reg s)).2 /\ ready r.2 /\ world r.2 = world s.
Proof.
  intros [Hi Hwf]. pose proof Hwf as [Hl Hd]. unfold Stack_State_addEventCb. rewrite bindE. cbn. rewrite Hi. cbn.
  destruct f as [f|]; [|done]. cbn. destruct (ev =? 0); [done|].
  rewrite bindE. cbn. set (l := m_stack_state_cbs s) in *.
  pose proof (registry_add_loop f l 0 None) as Hs. destruct (add_loop f 0 None l) as [i|[i|]].
  - destruct Hs as (c & _ & Hc & Hf). rewrite Nat.sub_0_r in Hc.
    assert (Hr : is_Some (registry l !! f)).
    { apply registered, list_elem_of_omap. exists c. split; [by eapply list_elem_of_lookup_2|done]. }
    rewrite bool_decide_true by done. cbn. split_and!; [done| |split; [done|]|done].
    + eapply (add_registry n); eauto.
    + eapply add_wf; eauto.
  - destruct Hs as (Hn & [[=]|(c & _ & Hc & Hf)]). rewrite Nat.sub_0_r in Hc.
    assert (size (registry l) < n)%nat.
    { apply Nat.nle_gt. intros Hge. assert (Hfull : length (omap cb l) = length l).
      { apply full_or_not; auto with lia. }
      by apply (full_all_used _ _ _ Hfull) in Hc. }
    rewrite (proj2 (Nat.ltb_lt _ _)), orb_true_r by done. cbn. split_and!; [done| |split; [done|]|done].
    + eapply (add_registry n); eauto.
    + eapply add_wf; eauto.
  - destruct Hs as (Hn & _ & Hfull). rewrite bool_decide_false by (by rewrite registered).
    rewrite (proj2 (Nat.ltb_nlt _ _)) by (by apply full_or_not). done.
Qed.

Lemma registry_remove f s : ready s ->
  let r := Stack_State_removeEventCb (Some f) s in
  r.1 = (spec_remove f (reg s)).1 /\ reg r.2 = (spec_remove f (reg s)).2 /\ ready r.2 /\ world r.2 = world s.
Proof.
  intros [Hi Hwf]. unfold Stack_State_removeEventCb. rewrite bindE. cbn. rewrite Hi. cbn.
  rewrite bindE. cbn. rewrite remove_found. fold (without f (m_stack_state_cbs s)).
  unfold spec_remove.
  assert (ready (set_cbs (without f (m_stack_state_cbs s)) s)) by (split; [done|by apply remove_wf]).
  case_bool_decide as H'; rewrite !bindE; cbn [mret st_ret modify fst snd m_stack_state_cbs set_cbs world];
    rewrite registry_without; [done|]. split_and!; [done| |done|done].
  apply delete_id. by rewrite eq_None_not_Some.
Qed.

Lemma notify_loop_run event : outside -> 0 <= event ->
  forall k i s, (i + k)%nat = length (m_stack_state_cbs s) ->
  notify_loop E event k i s =
    (tt, {| m_initialized := m_initialized s; m_stack_state_cbs := m_stack_state_cbs s;
            world := foldl (fun w f => react f event w) (world s)
                       (omap cb (filter (fun c => Z.testbit (bitfields c) event = true)
                                        (drop i (m_stack_state_cbs s)))) |}).
Proof.
  intros HE He. induction k as [|k IH]; intros i s Hk; cbn [notify_loop].
  - rewrite drop_ge by lia. by destruct s.
  - rewrite bindE. cbn. destruct (lookup_lt_is_Some_2 (m_stack_state_cbs s) i) as [c Hc]; [lia|].
    rewrite Hc. rewrite bindE. rewrite (drop_S _ _ _ Hc). rewrite filter_cons, <- wants_testbit by done.
    destruct (cb c) as [f|] eqn:Hf.
    + destruct (wants event c) eqn:Hw; cbn.
      * rewrite HE, IH, decide_True by (done || (cbn; lia)). cbn. by rewrite Hf.
      * by rewrite IH, decide_False by (done || lia).
    + cbn. rewrite IH by lia. case_decide; [|done]. cbn. by rewrite Hf.
Qed.

Lemma told_table l event : NoDup (omap cb l) ->
  omap cb (filter (fun c => Z.testbit (bitfields c) event = true) l) ≡ₚ told (registry l) event.
Proof.
  intros Hd. apply NoDup_Permutation.
  - clear n E react. induction l as [|c l IH]; [constructor|]. cbn in Hd. rewrite filter_cons.
    assert (Hd' : NoDup (omap cb l)) by (destruct (cb c); [by apply NoDup_cons in Hd as [_ ?]|done]).
    case_decide; [|by apply IH]. cbn. destruct (cb c) as [f|]; [|by apply IH].
    apply NoDup_cons in Hd as [Hn _]. constructor; [|by apply IH].
    intros Hin. apply Hn. revert Hin. rewrite !list_elem_of_omap. setoid_rewrite list_elem_of_filter. naive_solver.
  - unfold told. apply NoDup_fst_map_to_list.
  - intros f. unfold told. rewrite list_elem_of_omap, list_elem_of_fmap. setoid_rewrite list_elem_of_filter. split.
    + intros (c & [Ht Hc] & Hf). exists (f, bitfields c). split; [done|].
      rewrite elem_of_map_to_list, map_lookup_filter_Some. split; [|done].
      apply lookup_registry; [done|]. apply list_elem_of_lookup in Hc as [i Hi]. exists i.
      rewrite Hi. destruct c; cbn in *; by subst.
    + intros ([f' b] & -> & Hin). rewrite elem_of_map_to_list, map_lookup_filter_Some in Hin.
      destruct Hin as [Hin Ht]. apply lookup_registry in Hin as [i Hi]; [|done].
      eexists. split; [split; [|by eapply list_elem_of_lookup_2]|]; done.
Qed.

Definition event_ok (c : call) : Prop := match c with Notify e => 0 <= e | _ => True end.

Lemma do_calls_refines prog s :
  outside -> Forall event_ok prog -> ready s ->
  let r := do_calls prog s in
  spec prog (reg s) (world s) r.1 (reg r.2) (world r.2) /\ ready r.2.
Proof.
  intros HE Hp. revert s. induction Hp as [|c prog Hc Hp IH]; intros s Hs; cbn [do_calls].
  - split; [constructor|done].
  - rewrite !bindE. cbn [mret st_ret fst snd]. destruct c as [f ev|f|e].
    + destruct (registry_add f ev s Hs) as (H1 & H2 & H3 & H4).
      destruct (IH _ H3) as [H5 H6]. split; [|done].
      cbn [do_call]. rewrite H1. constructor. by rewrite <- H2, <- H4.
    + destruct (registry_remove f s Hs) as (H1 & H2 & H3 & H4).
      destruct (IH _ H3) as [H5 H6]. split; [|done].
      cbn [do_call]. rewrite H1. constructor. by rewrite <- H2, <- H4.
    + cbn [do_call]. unfold onStackEventCb, notify_modules. rewrite !bindE.
      destruct Hs as [Hi [Hl Hd]]. rewrite notify_loop_run by (done || lia). cbn [mret st_ret fst snd].
      match goal with |- spec _ _ _ (_ :: (do_calls prog ?s').1) _ _ /\ _ =>
        destruct (IH s') as [H5 H6]; [by split|] end.
      split; [|done]. econstructor; [|exact H5]. cbn. by rewrite drop_0, told_table.
Qed.

End Refinement.

(** C33: the table of the library is a bounded map from callbacks to events:
    from a successful initialisation, any program of registrations, removals
    and events of the stack answers as the map does - a callback is registered
    once, a new registration replaces its events, the only refusal is a full
    table - and every event is told once to exactly the callbacks that are
    registered for it. *)
Theorem stack_events_refine {W} (n : nat) (E : @env W) react prog (s : state) :
  outside E react -> Forall event_ok prog -> m_initialized s = false -> length (m_stack_state_cbs s) = n ->
  (Stack_State_init E s).1 = APP_RES_OK ->
  let s0 := (Stack_State_init E s).2 in
  let r := do_calls n E prog s0 in
  spec n react prog ∅ (world s0) r.1 (registry (m_stack_state_cbs r.2)) (world r.2) /\
  wf_table n (m_stack_state_cbs r.2).
Proof.
  intros HE Hp Hi Hl Hok s0 r.
  assert (Hs : ready n s0 /\ registry (m_stack_state_cbs s0) = ∅).
  { subst s0. revert Hok. unfold Stack_State_init. rewrite bindE. cbn. rewrite Hi. cbn.
    rewrite bindE. cbn. rewrite bindE. unfold in_world. cbn. destruct (setOnStackEventCb E (world s)) as [res w].
    cbn. assert (Hf : omap cb (free_cb <$> m_stack_state_cbs s) = []).
    { apply omap_free. }
    destruct (res =? APP_RES_OK) eqn:Hr; cbn [negb]; [intros _|intros H; cbn in H; by rewrite H in Hr].
    rewrite bindE. cbn [mret st_ret modify fst snd m_stack_state_cbs]. split.
    - split; [done|]. split; [exact (eq_trans (length_fmap _ _) Hl)|].
      cbn [m_stack_state_cbs]. rewrite Hf. constructor.
    - apply map_empty. intros f. rewrite lookup_registry_none, Hf. apply not_elem_of_nil. }
  destruct Hs as [Hs Hr]. pose proof (do_calls_refines n E react prog s0 HE Hp Hs) as [H [_ Hw]].
  split; [|done]. by rewrite Hr in H.
Qed.

(** Removing the null callback succeeds while a slot is free: the loop takes
    the free slots for it. *)
Lemma remove_null_is_ok {W} (s : @state W) i c :
  m_initialized s = true -> m_stack_state_cbs s !! i = Some c -> cb c = None ->
  (Stack_State_removeEventCb None s).1 = APP_RES_OK.
Proof.
  intros Hi Hc Hn. unfold Stack_State_removeEventCb. rewrite bindE. cbn. rewrite Hi. cbn.
  rewrite !bindE. cbn. rewrite (proj2 (existsb_exists _ _)); [done|].
  exists c. split; [|by rewrite Hn]. apply list_elem_of_In. by eapply list_elem_of_lookup_2.
Qed.

(** Three modules share two slots; the world is the list of what they saw. *)
Definition example_react (f : fn) (e : Z) (w : list (fn * Z)) : list (fn * Z) := w ++ [(f, e)].

Definition example_env : @env (list (fn * Z)) :=
  {| on_event f e s := {| m_initialized := m_initialized s; m_stack_state_cbs := m_stack_state_cbs s;
       world := example_react f e (world s) |};
     setOnStackEventCb w := (APP_RES_OK, w);
     startStack w := (APP_RES_OK, w);
     stopStack w := (APP_RES_OK, w);
     getStackState _ := 0 |}.

Definition example_state : @state (list (fn * Z)) :=
  {| m_initialized := false; m_stack_state_cbs := replicate 2 {| cb := None; bitfields := 0 |}; world := [] |}.

Definition example_calls : list call :=
  [Add (Some 1%positive) 3; Add (Some 2%positive) 2; Add (Some 3%positive) 1; Notify 1; Add (Some 2%positive) 1;
   Remove 1%positive; Remove 1%positive; Notify 1; Notify 0].

Lemma stack_events_refine_witness :
  let r := do_calls 2 example_env example_calls (Stack_State_init example_env example_state).2 in
  r.1 = [0; 0; APP_RES_RESOURCE_UNAVAILABLE; 0; 0; 0; APP_RES_INVALID_VALUE; 0; 0] /\
  world r.2 = [(2%positive, 1); (1%positive, 1); (2%positive, 0)] /\
  spec 2 example_react example_calls ∅ [] r.1 (registry (m_stack_state_cbs r.2)) (world r.2).
Proof.
  split; [vm_compute; reflexivity|]. split; [vm_compute; reflexivity|].
  assert (Hp : Forall event_ok example_calls) by (repeat constructor; discriminate).
  exact (proj1 (stack_events_refine 2 example_env example_react example_calls example_state
    (fun f e s => eq_refl) Hp eq_refl eq_refl eq_refl)).
Defined.

End StackStateProofs.

(** ** Sent beacons: the stack sends at the smallest interval asked for *)

Module SharedBeaconProofs.
Import SharedBeacon.

(** What a slot stands for: the interval of the beacon in it. *)
Definition slot (x : shared_beacon_t) : option Z := if in_use x then Some (interval_ms x) else None.
Definition table (l : list shared_beacon_t) : list (option Z) := slot <$> l.

Definition smallest (T : list (option Z)) : Z := foldr Z.min APP_LIB_BEACON_TX_MAX_INTERVAL (omap id T).

Lemma smallest_cons x T : smallest (x :: T) = match x with Some i => Z.min i (smallest T) | None => smallest T end.
Proof. by destruct x. Qed.

Lemma smallest_loop_min i l : smallest_loop i l = Z.min i (smallest (table l)) \/ APP_LIB_BEACON_TX_MAX_INTERVAL < i.
Proof.
  destruct (Z.lt_ge_cases APP_LIB_BEACON_TX_MAX_INTERVAL i) as [?|Hi]; [by right|]. left.
  revert i Hi. induction l as [|x l IH]; intros i Hi; cbn [smallest_loop]; [cbn; lia|].
  change (table (x :: l)) with (slot x :: table l). rewrite smallest_cons.
  destruct x as [iv [|]]; cbn [slot in_use interval_ms andb]; [|by apply IH].
  destruct (Z.ltb_spec iv i); rewrite IH by lia; lia.
Qed.

Lemma smallest_interval_spec l : smallest_interval l = smallest (table l).
Proof.
  unfold smallest_interval. destruct (smallest_loop_min APP_LIB_BEACON_TX_MAX_INTERVAL l) as [->|?]; [|lia].
  assert (smallest (table l) <= APP_LIB_BEACON_TX_MAX_INTERVAL); [|lia].
  unfold smallest. induction (omap id (table l)); cbn; lia.
Qed.

Lemma smallest_insert T n i :
  T !! n = Some None -> smallest (<[n := Some i]> T) = Z.min i (smallest T).
Proof.
  revert n. induction T as [|x T IH]; intros [|n]; [done|done| |].
  - intros [= ->]. done.
  - intros H. cbn in H. specialize (IH n H). change (<[S n := Some i]> (x :: T)) with (x :: <[n := Some i]> T).
    rewrite !smallest_cons.
    destruct x as [y|]; lia.
Qed.

Lemma beacon_free_slot k l :
  match first_free k l with
  | Some n => (k <= n)%nat /\ (exists x, l !! (n - k)%nat = Some x /\ in_use x = false) /\
      forall j, (j < n - k)%nat -> exists y, l !! j = Some y /\ in_use y = true
  | None => Forall (fun x => in_use x = true) l
  end.
Proof.
  revert k. induction l as [|x l IH]; intros k; cbn; [constructor|].
  destruct (in_use x) eqn:Hx.
  - specialize (IH (S k)). destruct (first_free (S k) l) as [n|]; [|by constructor].
    destruct IH as (Hn & (y & Hy & Hu) & Hj). replace (n - k)%nat with (S (n - S k)) by lia.
    split_and!; [lia|by exists y|]. intros [|j] Hlt; [by exists x|]. apply Hj. lia.
  - rewrite Nat.sub_diag. split_and!; [done|by exists x|]. lia.
Qed.

Inductive call := Start (interval power channels_mask : Z) (content : list Z) | Stop (index : Z).

Inductive result := Started (r : shared_beacon_res_e * option nat) | Stopped (r : shared_beacon_res_e).

(** The slots, whatever the beacon library of the stack answers.  A beacon
    takes the first free slot, unless the stack refuses one of its settings;
    it is stopped once. *)
Inductive step : list (option Z) -> call -> result -> list (option Z) -> Prop :=
| step_full T i p m c :
    Forall is_Some T -> step T (Start i p m c) (Started (SHARED_BEACON_INDEX_NOT_AVAILABLE, None)) T
| step_refused T i p m c n :
    T !! n = Some None ->
    step T (Start i p m c) (Started (SHARED_BEACON_INVALID_PARAM, None)) T
| step_started T i p m c n :
    T !! n = Some None -> (forall j, (j < n)%nat -> exists x, T !! j = Some (Some x)) ->
    step T (Start i p m c) (Started (SHARED_BEACON_RES_OK, Some n)) (<[n := Some i]> T)
| step_out_of_range T n :
    APP_LIB_BEACON_TX_MAX_INDEX < n -> step T (Stop n) (Stopped SHARED_BEACON_INVALID_PARAM) T
| step_free T n :
    T !! Z.to_nat n = Some None -> step T (Stop n) (Stopped SHARED_BEACON_INDEX_NOT_AVAILABLE) T
| step_stopped T n i r :
    T !! Z.to_nat n = Some (Some i) -> r ∈ [SHARED_BEACON_RES_OK; SHARED_BEACON_INDEX_NOT_ACTIVE] ->
    step T (Stop n) (Stopped r) (<[Z.to_nat n := None]> T).

Inductive steps : list (option Z) -> list call -> list result -> list (option Z) -> Prop :=
| steps_nil T : steps T [] [] T
| steps_cons T c r T' cs rs T'' : step T c r T' -> steps T' cs rs T'' -> steps T (c :: cs) (r :: rs) T''.

Lemma in_world_run {W A} (f : W -> A * W) (s : @state W) : in_world f s = ((f (world s)).1, set_world (f (world s)).2 s).
Proof. unfold in_world. by destruct (f (world s)). Qed.

Ltac run_st := repeat first [rewrite bindE | rewrite in_world_run
  | progress cbn [fst snd gets modify update mret st_ret set_table set_min set_enabled set_world m_init_done
      m_beacons_enabled m_beacon_index m_min_interval_used_ms world negb]].

Section Refinement.
Context {W : Type} (E : @env W) (asked : W -> Z).

Abbreviation state := (@state W).
Implicit Types (s : state) (w : W).

(** [asked] observes the interval last given to [setBeaconInterval]. *)
Class Observes : Prop := {
  asked_interval i w : asked (setBeaconInterval E i w).2 = i;
  asked_power n p w : asked (setBeaconPower E n p w).2 = asked w;
  asked_channels n p w : asked (setBeaconChannels E n p w).2 = asked w;
  asked_contents n p w : asked (setBeaconContents E n p w).2 = asked w;
  asked_enable b w : asked (enableBeacons E b w).2 = asked w }.

Context {OB : Observes}.

Definition do_call (c : call) : st state result :=
  match c with
  | Start i p m x => r ← Shared_Beacon_startBeacon E i p m x; mret (Started r)
  | Stop n => r ← Shared_Beacon_stopBeacon E n; mret (Stopped r)
  end.

Fixpoint do_calls (cs : list call) : st state (list result) :=
  match cs with
  | [] => mret []
  | c :: cs => r ← do_call c; rs ← do_calls cs; mret (r :: rs)
  end.

(** A call has the types of its C prototype. *)
Definition call_ok (c : call) : Prop :=
  match c with Start i _ _ _ => is_u16 i | Stop n => is_u8 n end.

Abbreviation T s := (table (m_beacon_index s)).

Record inv s : Prop := {
  inv_init : m_init_done s = true;
  inv_slots : length (m_beacon_index s) = 8%nat;
  inv_min : m_min_interval_used_ms s = smallest (T s);
  inv_asked : ~ Forall (.= None) (T s) -> asked (world s) = m_min_interval_used_ms s }.

Lemma table_alter n f l x :
  l !! n = Some x -> table (alter f n l) = <[n := slot (f x)]> (table l).
Proof.
  intros Hx. unfold table. apply list_eq. intros j. rewrite list_lookup_fmap.
  destruct (decide (n = j)) as [<-|Hj].
  - rewrite list_lookup_alter_eq, list_lookup_insert_eq, Hx; [done|].
    rewrite length_fmap. by eapply lookup_lt_Some.
  - by rewrite list_lookup_alter_ne, list_lookup_insert_ne, list_lookup_fmap by done.
Qed.

Lemma inv_keep s l w m :
  inv s -> table l = T s -> m = m_min_interval_used_ms s -> asked w = asked (world s) ->
  forall e, inv {| m_init_done := m_init_done s; m_beacons_enabled := e; m_beacon_index := l;
                   m_min_interval_used_ms := m; world := w |}.
Proof.
  intros [H1 H2 H3 H4] Hl -> Hw e.
  split; cbn [m_init_done m_beacon_index m_min_interval_used_ms world]; [done| |by rewrite Hl|by rewrite Hl, Hw].
  rewrite <- H2, <- (length_fmap slot l), <- (length_fmap slot (m_beacon_index s)). by apply (f_equal length).
Qed.

Lemma lower_min i m s :
  m_min_interval_used_ms s = m ->
  (if i <? m then modify (set_min i) else mret tt) s = (tt, set_min (Z.min i m) s).
Proof.
  intros Hm. destruct (Z.ltb_spec i m); cbn; [by rewrite Z.min_l by lia|].
  rewrite Z.min_r by lia. subst m. by destruct s.
Qed.

Lemma start_ok i p m c s : is_u16 i -> inv s ->
  let r := Shared_Beacon_startBeacon E i p m c s in step (T s) (Start i p m c) (Started r.1) (T r.2) /\ inv r.2.
Proof.
  intros Hi Hs. pose proof Hs as [H1 H2 H3 H4]. unfold Shared_Beacon_startBeacon. run_st. rewrite H1. run_st.
  pose proof (beacon_free_slot 0 (m_beacon_index s)) as Hf.
  destruct (first_free 0 (m_beacon_index s)) as [n|].
  2:{ split; [|done]. constructor. unfold table. apply Forall_fmap. eapply Forall_impl; [exact Hf|].
      intros x Hx. cbn. unfold slot. rewrite Hx. by eexists. }
  destruct Hf as (_ & (x & Hx & Hu) & Hj). rewrite Nat.sub_0_r in *.
  assert (Ht : T s !! n = Some None) by (unfold table; rewrite list_lookup_fmap, Hx; cbn; unfold slot; by rewrite Hu).
  run_st.
  match goal with |- context [set_world ?w (set_world _ _)] => set (w3 := w) end.
  assert (Hw3 : asked w3 = asked (world s)) by (subst w3; by rewrite asked_contents, asked_channels, asked_power).
  clearbody w3. destruct (Z.lor _ _ =? APP_RES_OK); run_st.
  - set (l' := alter (set_interval i) n (alter (set_in_use true) n (m_beacon_index s))).
    assert (Hl' : table l' = <[n := Some i]> (T s)).
    { subst l'. rewrite (table_alter n _ _ (set_in_use true x)) by (by rewrite list_lookup_alter_eq, Hx).
      rewrite (table_alter n _ _ x) by done. cbn. by rewrite list_insert_insert_eq. }
    set (m' := Z.min i (m_min_interval_used_ms s)).
    assert (Hinv : forall e w', asked w' = m' ->
      inv {| m_init_done := m_init_done s; m_beacons_enabled := e; m_beacon_index := l';
             m_min_interval_used_ms := m'; world := w' |}).
    { intros e w' Hw'. split; cbn [m_init_done m_beacon_index m_min_interval_used_ms world].
      - done.
      - subst l'. by rewrite !length_alter.
      - rewrite Hl', smallest_insert by done. subst m'. by rewrite H3.
      - done. }
    assert (Hstep : step (T s) (Start i p m c) (Started (SHARED_BEACON_RES_OK, Some n)) (table l')).
    { rewrite Hl'. constructor; [done|]. intros j Hlt. destruct (Hj j Hlt) as (y & Hy & Huy).
      exists (interval_ms y). unfold table. rewrite list_lookup_fmap, Hy. cbn. unfold slot. by rewrite Huy. }
    rewrite !lower_min by done. run_st. fold m' l'. destruct (m_beacons_enabled s); run_st.
    + split; [done|]. apply Hinv, asked_interval.
    + split; [done|]. apply Hinv. by rewrite asked_enable, asked_interval.
  - assert (Hl : table (alter (set_in_use false) n (alter (set_in_use true) n (m_beacon_index s))) = T s).
    { rewrite (table_alter n _ _ (set_in_use true x)) by (by rewrite list_lookup_alter_eq, Hx).
      rewrite (table_alter n _ _ x) by done. cbn. by rewrite list_insert_insert_eq, list_insert_id. }
    rewrite Hl. split; [by econstructor|]. exact (inv_keep s _ _ _ Hs Hl eq_refl Hw3 _).
Qed.
Lemma table_lookup l n : table l !! n = slot <$> l !! n.
Proof. apply list_lookup_fmap. Qed.

Lemma stop_ok n s : is_u8 n -> inv s ->
  let r := Shared_Beacon_stopBeacon E n s in step (T s) (Stop n) (Stopped r.1) (T r.2) /\ inv r.2.
Proof.
  intros Hn Hs. pose proof Hs as [H1 H2 H3 H4]. unfold Shared_Beacon_stopBeacon. run_st. rewrite H1. run_st.
  destruct (Z.ltb_spec APP_LIB_BEACON_TX_MAX_INDEX n) as [Hlt|Hge]; [by split; [constructor|]|]. run_st.
  destruct (lookup_lt_is_Some_2 (m_beacon_index s) (Z.to_nat n)) as [x Hx].
  { rewrite H2. unfold APP_LIB_BEACON_TX_MAX_INDEX in Hge. destruct Hn. lia. }
  rewrite Hx. destruct (in_use x) eqn:Hu; run_st.
  2:{ split; [|done]. constructor. rewrite table_lookup, Hx. cbn. unfold slot. by rewrite Hu. }
  set (l' := alter (set_in_use false) (Z.to_nat n) (m_beacon_index s)).
  assert (Hl' : table l' = <[Z.to_nat n := None]> (T s)) by (by subst l'; rewrite (table_alter _ _ _ x)).
  assert (Ht : T s !! Z.to_nat n = Some (Some (interval_ms x))).
  { rewrite table_lookup, Hx. cbn. unfold slot. by rewrite Hu. }
  match goal with |- step _ _ (Stopped ((if negb ?b then _ else _) _).1) _ /\ _ => destruct b end; run_st; fold l';
    rewrite Hl'; (split; [econstructor; [exact Ht|set_solver]|]);
    (split; cbn [m_init_done m_beacon_index m_min_interval_used_ms world set_world set_min set_table];
     [done|subst l'; by rewrite length_alter|by rewrite smallest_interval_spec, Hl'|intros _; apply asked_interval]).
Qed.

Lemma do_calls_ok cs s : Forall call_ok cs -> inv s ->
  let r := do_calls cs s in steps (T s) cs r.1 (T r.2) /\ inv r.2.
Proof.
  intros Hc. revert s. induction Hc as [|c cs Hc _ IH]; intros s Hs; cbn [do_calls]; [by split; [constructor|]|].
  assert (Hd : let r := do_call c s in step (T s) c r.1 (T r.2) /\ inv r.2).
  { destruct c; cbn [do_call]; run_st; [by apply start_ok|by apply stop_ok]. }
  run_st. destruct Hd as [H1 H2]. destruct (IH _ H2) as [H3 H4]. split; [|done]. by econstructor.
Qed.

End Refinement.


(** The world of the example: the interval the stack was given. *)
Definition example_env : @env Z :=
  {| clearBeacons w := w;
     enableBeacons _ w := (APP_RES_OK, w);
     setBeaconInterval i w := (APP_RES_OK, i);
     setBeaconPower _ _ w := (APP_RES_OK, w);
     setBeaconChannels _ m w := (if m =? 0 then APP_RES_INVALID_VALUE else APP_RES_OK, w);
     setBeaconContents _ _ w := (APP_RES_OK, w) |}.

Definition example_state : @state Z :=
  {| m_init_done := false; m_beacons_enabled := false;
     m_beacon_index := replicate 8 {| interval_ms := 0; in_use := false |};
     m_min_interval_used_ms := 0; world := 0 |}.

Definition example_calls : list call :=
  [Start 1000 8 7 [1]; Start 500 8 0 [2]; Start 250 8 7 [3]; Stop 1; Stop 1; Stop 9].


(** The answers of the last two calls to the stack are ignored: a beacon is
    reported as started although the stack refuses the interval and the
    transmission. *)
Definition refusing_env : @env Z :=
  {| clearBeacons w := w;
     enableBeacons _ w := (APP_RES_ACCESS_DENIED, w);
     setBeaconInterval _ w := (APP_RES_INVALID_VALUE, w);
     setBeaconPower _ _ w := (APP_RES_OK, w);
     setBeaconChannels _ _ w := (APP_RES_OK, w);
     setBeaconContents _ _ w := (APP_RES_OK, w) |}.

Lemma start_ignores_refusal :
  (do_calls refusing_env [Start 50 8 7 [1]] (Shared_Beacon_init refusing_env example_state).2).1 =
  [Started (SHARED_BEACON_RES_OK, Some 0%nat)].
Proof. vm_compute. reflexivity. Qed.

End SharedBeaconProofs.

(** ** Received beacons: a map from identifiers to callbacks *)

Module SharedNeighborsProofs.
Import SharedNeighbors.

Inductive call (Beacon : Type) := Add (cb_beacon : option fn) | Remove (cb_id : Z) | Received (beacon : Beacon).
Arguments Add {Beacon}.
Arguments Remove {Beacon}.
Arguments Received {Beacon}.

Inductive answer := Added (r : Z * option nat) | Removed (r : Z) | Done.

Section Refinement.
Context {W Beacon : Type} (n : nat) (E : @env W Beacon) (react : fn -> Beacon -> W -> W).

Abbreviation state := (@state W).
Implicit Types (s : state) (T : gmap nat fn) (w : W).

(** One call: the callbacks by identifier.  An identifier outside of the
    table has no answer. *)
Inductive step : gmap nat fn -> W -> call Beacon -> option (answer * gmap nat fn * W) -> Prop :=
| step_null T w : step T w (Add None) (Some (Added (APP_RES_INVALID_NULL_POINTER, None), T, w))
| step_full T w f :
    (forall j, (j < n)%nat -> is_Some (T !! j)) ->
    step T w (Add (Some f)) (Some (Added (APP_RES_RESOURCE_UNAVAILABLE, None), T, setOnBeaconCb E w))
| step_add T w f i :
    (i < n)%nat -> T !! i = None -> (forall j, (j < i)%nat -> is_Some (T !! j)) ->
    step T w (Add (Some f)) (Some (Added (APP_RES_OK, Some i), <[i := f]> T, setOnBeaconCb E w))
| step_remove T w i f :
    T !! Z.to_nat i = Some f ->
    step T w (Remove i) (Some (Removed APP_RES_OK, delete (Z.to_nat i) T, w))
| step_absent T w i :
    T !! Z.to_nat i = None -> (Z.to_nat i < n)%nat ->
    step T w (Remove i) (Some (Removed APP_RES_INVALID_CONFIGURATION, T, w))
| step_fault T w i : (n <= Z.to_nat i)%nat -> step T w (Remove i) None
| step_received T w b :
    step T w (Received b) (Some (Done, T, foldl (fun w f => react f b w) w (omap (T !!.) (seq 0 n)))).

Inductive steps : gmap nat fn -> W -> list (call Beacon) -> option (list answer * gmap nat fn * W) -> Prop :=
| steps_nil T w : steps T w [] (Some ([], T, w))
| steps_fault T w c cs : step T w c None -> steps T w (c :: cs) None
| steps_cons T w c cs a T' w' r :
    step T w c (Some (a, T', w')) -> steps T' w' cs r ->
    steps T w (c :: cs) ((fun '(l, T, w) => (a :: l, T, w)) <$> r).

Definition do_call (c : call Beacon) : sf state answer :=
  match c with
  | Add f => r ← Shared_Neighbors_addOnBeaconCb E f; mret (Added r)
  | Remove i => r ← Shared_Neighbors_removeBeaconCb i; mret (Removed r)
  | Received b => _ ← received_beacon_cb n E b; mret Done
  end.

Fixpoint do_calls (cs : list (call Beacon)) : sf state (list answer) :=
  match cs with
  | [] => mret []
  | c :: cs => a ← do_call c; l ← do_calls cs; mret (a :: l)
  end.

(** The map a table stands for. *)
Definition table_of s T : Prop :=
  length (m_neighbor_cb s) = n /\ forall i, T !! i = mjoin (m_neighbor_cb s !! i).

Definition outside : Prop :=
  forall f b s, on_beacon E f b s = {| m_neighbor_cb := m_neighbor_cb s; world := react f b (world s) |}.

Lemma table_lt s T i f : table_of s T -> T !! i = Some f -> (i < n)%nat.
Proof.
  intros [<- HT]. rewrite HT. destruct (m_neighbor_cb s !! i) eqn:Hi; [|done]. intros _. by eapply lookup_lt_Some.
Qed.

Lemma neighbor_free_slot k (l : list (option fn)) :
  match first_free k l with
  | Some i => (k <= i)%nat /\ l !! (i - k)%nat = Some None /\
      forall j, (j < i - k)%nat -> exists f, l !! j = Some (Some f)
  | None => forall j, (j < length l)%nat -> exists f, l !! j = Some (Some f)
  end.
Proof.
  revert k. induction l as [|[f|] l IH]; intros k; cbn; [lia| |].
  - specialize (IH (S k)). destruct (first_free (S k) l) as [i|].
    + destruct IH as (Hi & Hf & Hj). replace (i - k)%nat with (S (i - S k)) by lia.
      split_and!; [lia|done|]. intros [|j] Hlt; [by exists f|]. apply Hj. lia.
    + intros [|j] Hlt; [by exists f|]. apply IH. lia.
  - rewrite Nat.sub_diag. split_and!; [done|done|lia].
Qed.

Lemma table_insert s T i c :
  table_of s T -> (i < n)%nat ->
  table_of (set_cbs (<[i := c]> (m_neighbor_cb s)) s) (partial_alter (const c) i T).
Proof.
  intros [Hl HT] Hi. split; cbn [set_cbs m_neighbor_cb]; [by rewrite length_insert|]. intros j.
  destruct (decide (i = j)) as [<-|Hne].
  - rewrite lookup_partial_alter_eq, list_lookup_insert_eq by lia. done.
  - by rewrite lookup_partial_alter_ne, list_lookup_insert_ne.
Qed.

Lemma beacon_loop_run b : outside -> forall k i s T, (i + k)%nat = n -> table_of s T ->
  beacon_loop E b k i s = Some (tt, {| m_neighbor_cb := m_neighbor_cb s;
    world := foldl (fun w f => react f b w) (world s) (omap (T !!.) (seq i k)) |}).
Proof.
  intros HE. induction k as [|k IH]; intros i s T Hk HT; cbn [beacon_loop]; [by destruct s|].
  pose proof HT as [Hl HT']. destruct (lookup_lt_is_Some_2 (m_neighbor_cb s) i) as [c Hc]; [lia|].
  rewrite (readsE (fun s => m_neighbor_cb s !! i) _ s c Hc). cbn [seq omap list_omap]. rewrite (HT' i), Hc. cbn [mjoin option_join].
  destruct c as [f|].
  - rewrite putsE, HE. erewrite IH; [done|lia|done].
  - rewrite sf_retE. erewrite IH; [done|lia|done].
Qed.

Lemma do_call_ok c s T :
  outside -> table_of s T ->
  exists r, step T (world s) c ((fun '(a, s', T') => (a, T', world s')) <$> r) /\
    do_call c s = (fun '(a, s', T') => (a, s')) <$> r /\
    forall a s' T', r = Some (a, s', T') -> table_of s' T'.
Proof.
  intros HE HT. pose proof HT as [Hl HT']. destruct c as [[f|]|i|b]; cbn [do_call].
  - unfold Shared_Neighbors_addOnBeaconCb. rewrite sf_assoc, putsE. 
    set (s1 := {| m_neighbor_cb := m_neighbor_cb s; world := setOnBeaconCb E (world s) |}).
    assert (HT1 : table_of s1 T) by done.
    pose proof (neighbor_free_slot 0 (m_neighbor_cb s)) as Hf. rewrite sf_assoc, asksE.
    change (m_neighbor_cb s1) with (m_neighbor_cb s).
    destruct (first_free 0 (m_neighbor_cb s)) as [i|].
    + destruct Hf as (_ & Hi & Hj). rewrite Nat.sub_0_r in *. pose proof (lookup_lt_Some _ _ _ Hi).
      exists (Some (Added (APP_RES_OK, Some i), set_cbs (<[i := Some f]> (m_neighbor_cb s)) s1, <[i := f]> T)).
      split_and!; [| |].
      * constructor; [lia|by rewrite HT', Hi|]. intros j Hlt. destruct (Hj j Hlt) as [g Hg].
        rewrite HT', Hg. by eexists.
      * by rewrite sf_assoc, putsE, sf_retE.
      * intros ? ? ? [= <- <- <-]. apply (table_insert s1 T i (Some f) HT1). lia.
    + exists (Some (Added (APP_RES_RESOURCE_UNAVAILABLE, None), s1, T)). split_and!; [|by rewrite sf_retE|by intros ? ? ? [= <- <- <-]].
      constructor. intros j Hlt. destruct (Hf j) as [g Hg]; [lia|]. rewrite HT', Hg. by eexists.
  - exists (Some (Added (APP_RES_INVALID_NULL_POINTER, None), s, T)).
    split_and!; [constructor|done|by intros ? ? ? [= <- <- <-]].
  - unfold Shared_Neighbors_removeBeaconCb. destruct (m_neighbor_cb s !! Z.to_nat i) as [c|] eqn:Hi.
    + pose proof (lookup_lt_Some _ _ _ Hi). rewrite sf_assoc, (readsE (fun s => m_neighbor_cb s !! Z.to_nat i) _ s c Hi). destruct c as [f|].
      * exists (Some (Removed APP_RES_OK, set_cbs (<[Z.to_nat i := None]> (m_neighbor_cb s)) s, delete (Z.to_nat i) T)).
        split_and!; [apply (step_remove _ _ _ f); by rewrite HT', Hi|by rewrite sf_assoc, putsE, sf_retE|].
        intros ? ? ? [= <- <- <-]. apply (table_insert s T _ None HT). lia.
      * exists (Some (Removed APP_RES_INVALID_CONFIGURATION, s, T)).
        split_and!; [constructor; [by rewrite HT', Hi|lia]|by rewrite sf_retE|by intros ? ? ? [= <- <- <-]].
    + exists None. split_and!; [|unfold reads; cbn; unfold mbind, sf_bind; by rewrite Hi|done].
      constructor. rewrite <- Hl. by apply lookup_ge_None.
  - exists (Some (Done, {| m_neighbor_cb := m_neighbor_cb s;
      world := foldl (fun w f => react f b w) (world s) (omap (T !!.) (seq 0 n)) |}, T)).
    split_and!; [constructor| |by intros ? ? ? [= <- <- <-]].
    unfold received_beacon_cb. by rewrite (sf_bindE _ _ _ _ _ (beacon_loop_run b HE n 0 s T (Nat.add_0_l n) HT)).
Qed.

Lemma calls_ok cs s T :
  outside -> table_of s T ->
  steps T (world s) cs None /\ do_calls cs s = None \/
  exists l s' T', do_calls cs s = Some (l, s') /\ table_of s' T' /\ steps T (world s) cs (Some (l, T', world s')).
Proof.
  intros HE. revert s T. induction cs as [|c cs IH]; intros s T HT; cbn [do_calls].
  - right. exists [], s, T. split_and!; [done|done|constructor].
  - destruct (do_call_ok c s T HE HT) as ([[[a s1] T1]|] & Hs & Hd & Hr); cbn in Hs, Hd.
    + rewrite (sf_bindE _ _ _ _ _ Hd). pose proof (Hr _ _ _ eq_refl) as HT1.
      destruct (IH s1 T1 HT1) as [[H1 H2]|(l & s' & T' & H1 & H2 & H3)].
      * left. split; [by eapply (steps_cons _ _ _ _ _ _ _ None)|]. unfold mbind, sf_bind. by rewrite H2.
      * right. exists (a :: l), s', T'. split_and!; [by rewrite (sf_bindE _ _ _ _ _ H1)|done|].
        exact (steps_cons _ _ _ _ _ _ _ (Some (l, T', world s')) Hs H3).
    + left. split; [by constructor|]. unfold mbind, sf_bind. by rewrite Hd.
Qed.

End Refinement.

(** from the initialisation, any program of registrations, removals and
    received beacons behaves as a map from identifiers to callbacks: a
    callback takes the smallest free identifier, a beacon is given once to
    every callback in the order of the identifiers, and the program faults
    exactly when it removes an identifier outside of the table, which the
    library does not check. *)
Theorem neighbors_refine {W Beacon} (n : nat) (E : @env W Beacon) react cs (s : @state W) :
  outside E react -> length (m_neighbor_cb s) = n ->
  exists s0, Shared_Neighbors_init s = Some (APP_RES_OK, s0) /\
  (steps n E react ∅ (world s) cs None /\ do_calls n E cs s0 = None \/
   exists l s' T, do_calls n E cs s0 = Some (l, s') /\ table_of n s' T /\
     steps n E react ∅ (world s) cs (Some (l, T, world s'))).
Proof.
  intros HE Hl. eexists. split; [done|].
  apply (calls_ok n E react cs (set_cbs (const None <$> m_neighbor_cb s) s)); [done|].
  split; cbn [set_cbs m_neighbor_cb]; [by rewrite length_fmap|]. intros i. rewrite list_lookup_fmap.
  by destruct (m_neighbor_cb s !! i).
Qed.

(** The world of the example: what the callbacks were given. *)
Definition example_react (f : fn) (b : Z) (w : list (fn * Z)) : list (fn * Z) := w ++ [(f, b)].

Definition example_env : @env (list (fn * Z)) Z :=
  {| on_beacon f b s := {| m_neighbor_cb := m_neighbor_cb s; world := example_react f b (world s) |};
     setOnBeaconCb w := w |}.

Definition example_state : @state (list (fn * Z)) := {| m_neighbor_cb := replicate 2 None; world := [] |}.

Definition example_calls : list (call Z) :=
  [Add (Some 1%positive); Add (Some 2%positive); Add (Some 3%positive); Received 7; Remove 0; Remove 0;
   Add (Some 3%positive); Received 8].

Lemma neighbors_refine_witness :
  let s0 := SharedNeighbors.set_cbs (replicate 2 None) example_state in
  do_calls 2 example_env (example_calls ++ [Remove 2]) s0 = None /\
  exists l s' T, do_calls 2 example_env example_calls s0 = Some (l, s') /\
    l = [Added (0, Some 0%nat); Added (0, Some 1%nat); Added (APP_RES_RESOURCE_UNAVAILABLE, None); Done;
         Removed 0; Removed APP_RES_INVALID_CONFIGURATION; Added (0, Some 0%nat); Done] /\
    world s' = [(1%positive, 7); (2%positive, 7); (3%positive, 8); (2%positive, 8)] /\
    steps 2 example_env example_react ∅ [] example_calls (Some (l, T, world s')).
Proof.
  split; [vm_compute; reflexivity|].
  destruct (neighbors_refine 2 example_env example_react example_calls example_state
    (fun f b s => eq_refl) eq_refl) as (s0 & [= <-] & [[_ H]|(l & s' & T & H & _ & HT)]).
  - exfalso. vm_compute in H. discriminate H.
  - exists l, s', T. split; [exact H|]. vm_compute in H. injection H as <- <-. split; [reflexivity|].
    split; [reflexivity|exact HT].
Defined.

End SharedNeighborsProofs.
