(* ===== verification/AppPersistent.v ===== *)
(** * Application persistent area

    [libraries/app_persistent/app_persistent.c] keeps one block of data of the
    application in a flash area of its own.  The block follows a magic number
    that is written last, so the magic number tells whether the block is valid.

    The flash driver and the clock belong to the stack and are parameters; the
    class [Flash] states the documented behaviour that the theorems use.  The
    wait for the end of an operation is a loop of the code; it takes fuel here,
    and a theorem shows that it ends. *)

From S2P Require Import Prelude.

(** ** Data *)

Definition APP_PERSISTENT_MAGIC : Z := 0x1E75FED8.

Definition APP_LIB_MEM_AREA_RES_OK : Z := 0.

Record app_lib_mem_area_flash_info_t := {
  write_page_size : Z;
  erase_sector_size : Z;
  write_alignment : Z;
  byte_write_time : Z;
  page_write_time : Z;
  sector_erase_time : Z;
  byte_write_call_time : Z;
  page_write_call_time : Z;
  sector_erase_call_time : Z;
  is_busy_call_time : Z }.

Record app_lib_mem_area_info_t := {
  area_id : Z;
  area_size : Z;
  flash : app_lib_mem_area_flash_info_t;
  external_flash : bool;
  type : Z }.

Inductive app_persistent_res_e :=
| APP_PERSISTENT_RES_OK
| APP_PERSISTENT_RES_NO_AREA
| APP_PERSISTENT_RES_UNINITIALIZED
| APP_PERSISTENT_RES_TOO_BIG
| APP_PERSISTENT_RES_INVALID_CONTENT
| APP_PERSISTENT_RES_ACCESS_TIMEOUT
| APP_PERSISTENT_RES_FLASH_ERROR.

#[export] Instance app_persistent_res_dec : EqDecision app_persistent_res_e.
Proof. solve_decision. Defined.

(** A pointer to bytes: what is found at each offset.  The driver reads as
    many bytes as it is told, also beyond the variable of the caller. *)
Abbreviation pointer := (nat -> Z).

Definition bytes_at (p : pointer) (n : Z) : list Z := p <$> seq 0 (Z.to_nat n).

(** ** Operations *)

Section Persistent.
Context {W : Type}.

Record env := {
  getTimestampHp : W -> Z * W;
  addUsToHpTimestamp : Z -> Z -> Z;
  isHpTimestampBefore : Z -> Z -> bool;
  getAreaInfo : W -> Z * app_lib_mem_area_info_t;
  (** the result, and the bytes in the buffer when the driver is done *)
  startRead : Z -> Z -> W -> Z * list Z * W;
  startWrite : Z -> list Z -> W -> Z * W;
  (** the result, the next sector and the number of sectors that are left *)
  startErase : Z -> Z -> W -> Z * (Z * Z) * W;
  isBusy : W -> bool * W;
  (** the memory that follows the local variable [magic] *)
  after_magic : pointer }.

Record state := {
  m_magic_size : Z;
  m_initialized : bool;
  m_usable_memory_size : Z;
  m_memory_area : app_lib_mem_area_info_t;
  world : W }.

Abbreviation M := (sf state).

Definition set_world (w : W) (s : state) : state :=
  {| m_magic_size := m_magic_size s; m_initialized := m_initialized s;
     m_usable_memory_size := m_usable_memory_size s; m_memory_area := m_memory_area s; world := w |}.
Definition in_world {A} (f : W -> A * W) : M A :=
  fun s => let '(x, w) := f (world s) in Some (x, set_world w s).

(** The magic number in memory, and what follows it. *)
Definition magic_at (E : env) : pointer :=
  fun i => if (i <? 4)%nat then nth i (le_put 4 APP_PERSISTENT_MAGIC) 0 else after_magic E i.

Fixpoint wait_loop (E : env) (timeout_end : Z) (fuel : nat) : M bool :=
  match fuel with
  | O => fault
  | S fuel =>
      busy ← in_world (isBusy E);
      now ← in_world (getTimestampHp E);
      let timeout_reached := isHpTimestampBefore E timeout_end now in
      if (busy : bool) && negb timeout_reached then wait_loop E timeout_end fuel
      else mret (negb busy)
  end.

Definition active_wait_for_end_of_operation (E : env) (fuel : nat) (timeout_us : Z) : M bool :=
  now ← in_world (getTimestampHp E);
  wait_loop E (addUsToHpTimestamp E now (u32 timeout_us)) fuel.

(** The bytes are there when the operation has ended. *)
Definition read (E : env) (fuel : nat) (from amount : Z) : M (option (list Z)) :=
  r ← in_world (startRead E from amount);
  if negb (r.1 =? APP_LIB_MEM_AREA_RES_OK) then mret None
  else
    external ← asks (fun s => external_flash (m_memory_area s));
    let timeout_us := if (external : bool) then 100000 else 0 in
    done ← active_wait_for_end_of_operation E fuel timeout_us;
    mret (if (done : bool) then Some r.2 else None).

Definition App_Persistent_init (E : env) : M app_persistent_res_e :=
  initialized ← asks m_initialized;
  if (initialized : bool) then mret APP_PERSISTENT_RES_OK
  else
    r ← asks (fun s => getAreaInfo E (world s));
    if negb (r.1 =? APP_LIB_MEM_AREA_RES_OK) then mret APP_PERSISTENT_RES_NO_AREA
    else
      let magic_size := if 4 <? write_alignment (flash r.2) then write_alignment (flash r.2) else 4 in
      _ ← puts (fun s => {| m_magic_size := magic_size; m_initialized := true;
             m_usable_memory_size := u32 (area_size r.2 - magic_size); m_memory_area := r.2; world := world s |});
      mret APP_PERSISTENT_RES_OK.

Definition App_Persistent_read (E : env) (fuel : nat) (len : Z) : M (app_persistent_res_e * option (list Z)) :=
  initialized ← asks m_initialized;
  if negb initialized then mret (APP_PERSISTENT_RES_UNINITIALIZED, None)
  else
    usable ← asks m_usable_memory_size;
    if usable <? len then mret (APP_PERSISTENT_RES_TOO_BIG, None)
    else
      magic ← read E fuel 0 4;
      match magic with
      | None => mret (APP_PERSISTENT_RES_FLASH_ERROR, None)
      | Some magic =>
          if negb (le_get magic =? APP_PERSISTENT_MAGIC) then mret (APP_PERSISTENT_RES_INVALID_CONTENT, None)
          else
            magic_size ← asks m_magic_size;
            data ← read E fuel magic_size len;
            match data with
            | None => mret (APP_PERSISTENT_RES_FLASH_ERROR, None)
            | Some data => mret (APP_PERSISTENT_RES_OK, Some data)
            end
      end.

(** The number of sectors to erase, and the length rounded up, for [len] bytes. *)
Definition num_block (a : app_lib_mem_area_info_t) (len : Z) : Z :=
  u32 (len + erase_sector_size (flash a) - 1) / erase_sector_size (flash a).
Definition aligned_len (a : app_lib_mem_area_info_t) (len : Z) : Z :=
  u32 (u32 (len + write_alignment (flash a) - 1) / write_alignment (flash a) * write_alignment (flash a)).

Definition erase_timeout (a : app_lib_mem_area_info_t) (blocks : Z) : Z :=
  u32 (u32 (sector_erase_time (flash a) * blocks) * 2).
Definition write_timeout (a : app_lib_mem_area_info_t) (len : Z) : Z :=
  u32 (u32 (u32 (byte_write_time (flash a) + byte_write_call_time (flash a)) * len) * 2).

Definition App_Persistent_write (E : env) (fuel : nat) (data : pointer) (len : Z) : M app_persistent_res_e :=
  a ← asks m_memory_area;
  initialized ← asks m_initialized;
  if negb initialized then mret APP_PERSISTENT_RES_UNINITIALIZED
  else
    usable ← asks m_usable_memory_size;
    if usable <? len then mret APP_PERSISTENT_RES_TOO_BIG
    else
      let blocks := num_block a len in
      r ← in_world (startErase E 0 blocks);
      if negb (r.1 =? APP_LIB_MEM_AREA_RES_OK) then mret APP_PERSISTENT_RES_FLASH_ERROR
      else
        erased ← active_wait_for_end_of_operation E fuel (erase_timeout a blocks);
        if negb erased then mret APP_PERSISTENT_RES_ACCESS_TIMEOUT
        else
          let len := aligned_len a len in
          magic_size ← asks m_magic_size;
          res ← in_world (startWrite E magic_size (bytes_at data len));
          if negb (res =? APP_LIB_MEM_AREA_RES_OK) then mret APP_PERSISTENT_RES_FLASH_ERROR
          else
            written ← active_wait_for_end_of_operation E fuel (write_timeout a len);
            if negb written then mret APP_PERSISTENT_RES_ACCESS_TIMEOUT
            else
              res ← in_world (startWrite E 0 (bytes_at (magic_at E) magic_size));
              if negb (res =? APP_LIB_MEM_AREA_RES_OK) then mret APP_PERSISTENT_RES_FLASH_ERROR
              else
                written ← active_wait_for_end_of_operation E fuel (write_timeout a magic_size);
                if negb written then mret APP_PERSISTENT_RES_ACCESS_TIMEOUT
                else mret APP_PERSISTENT_RES_OK.

End Persistent.
Arguments env : clear implicits.
Arguments state : clear implicits.

(** * Properties *)

(** ** The documented behaviour of the driver *)

Definition magic_size (a : app_lib_mem_area_info_t) : Z :=
  if 4 <? write_alignment (flash a) then write_alignment (flash a) else 4.

(** The geometry of an area: whole sectors, whole write units, and the
    assumption of the code on the alignment. *)
Record geometry (a : app_lib_mem_area_info_t) : Prop := {
  geo_size : 0 < area_size a < 2 ^ 30;
  geo_sector : 0 < erase_sector_size (flash a);
  geo_sectors : (erase_sector_size (flash a) | area_size a);
  geo_align : 0 < write_alignment (flash a);
  geo_units : (write_alignment (flash a) | area_size a);
  geo_magic : (write_alignment (flash a) | magic_size a);
  geo_room : magic_size a <= area_size a }.

Definition erased (l : list Z) : Prop := Forall (.= 255) l.

Section Laws.
Context {W : Type} (E : env W) (a : app_lib_mem_area_info_t).

(** What the area holds, and for how many more questions at most the driver is
    busy.  An operation that is refused does nothing; one that is accepted
    will succeed; bytes are written reliably where the flash is erased. *)
Class Flash (content : W -> list Z) (polls : W -> nat) : Prop := {
  flash_geometry : geometry a;
  flash_size w : length (content w) = Z.to_nat (area_size a);
  time_content w : content (getTimestampHp E w).2 = content w;
  time_polls w : polls (getTimestampHp E w).2 = polls w;
  busy_content w : content (isBusy E w).2 = content w;
  busy_idle w : polls w = O -> (isBusy E w).1 = false;
  busy_polls w : (polls (isBusy E w).2 <= pred (polls w))%nat;
  read_content from n w : content (startRead E from n w).2 = content w;
  read_bytes from n w :
    (startRead E from n w).1.1 = APP_LIB_MEM_AREA_RES_OK -> 0 <= from -> 0 <= n -> from + n <= area_size a ->
    (startRead E from n w).1.2 = slice (Z.to_nat from) (Z.to_nat n) (content w);
  write_refused to bs w :
    (startWrite E to bs w).1 <> APP_LIB_MEM_AREA_RES_OK -> content (startWrite E to bs w).2 = content w;
  write_bytes to bs w :
    (startWrite E to bs w).1 = APP_LIB_MEM_AREA_RES_OK -> 0 <= to -> to + Z.of_nat (length bs) <= area_size a ->
    erased (slice (Z.to_nat to) (length bs) (content w)) ->
    content (startWrite E to bs w).2 = blit (Z.to_nat to) bs (content w);
  write_outside to bs w i :
    (startWrite E to bs w).1 = APP_LIB_MEM_AREA_RES_OK -> 0 <= to -> to + Z.of_nat (length bs) <= area_size a ->
    (i < Z.to_nat to \/ Z.to_nat to + length bs <= i)%nat ->
    content (startWrite E to bs w).2 !! i = content w !! i;
  erase_refused base n w :
    (startErase E base n w).1.1 <> APP_LIB_MEM_AREA_RES_OK -> content (startErase E base n w).2 = content w;
  erase_sectors base n w left :
    (startErase E base n w).1.1 = APP_LIB_MEM_AREA_RES_OK -> left = (startErase E base n w).1.2.2 ->
    0 <= base -> 0 < n -> base + n * erase_sector_size (flash a) <= area_size a ->
    0 <= left < n /\
    erased (slice (Z.to_nat base) (Z.to_nat ((n - left) * erase_sector_size (flash a)))
                  (content (startErase E base n w).2)) }.

(** The driver erases all the sectors it is asked to erase in one call. *)
Definition erases_all : Prop := forall base n w,
  (startErase E base n w).1.1 = APP_LIB_MEM_AREA_RES_OK -> (startErase E base n w).1.2.2 = 0.

(** The state after the initialisation of the library. *)
Definition ready (s : state W) : Prop :=
  m_initialized s = true /\ m_memory_area s = a /\ m_magic_size s = magic_size a /\
  m_usable_memory_size s = area_size a - magic_size a.

(** The sectors that are erased for [len] bytes hold the magic number too. *)
Definition covered (len : Z) : Prop :=
  magic_size a + aligned_len a len <= num_block a len * erase_sector_size (flash a).

End Laws.

Arguments flash_geometry {W E a content polls _}.
Arguments flash_size {W E a content polls _}.
Arguments time_content {W E a content polls _}.
Arguments time_polls {W E a content polls _}.
Arguments busy_content {W E a content polls _}.
Arguments busy_idle {W E a content polls _}.
Arguments busy_polls {W E a content polls _}.
Arguments read_content {W E a content polls _}.
Arguments read_bytes {W E a content polls _}.
Arguments write_refused {W E a content polls _}.
Arguments write_bytes {W E a content polls _}.
Arguments write_outside {W E a content polls _}.
Arguments erase_refused {W E a content polls _}.
Arguments erase_sectors {W E a content polls _}.

(** ** The wait ends *)

(** [m] returns once it has enough fuel, and more fuel changes nothing. *)
Definition returns {S A} (m : nat -> sf S A) (s : S) (Q : A -> S -> Prop) : Prop :=
  exists N x s', (forall fuel, (N <= fuel)%nat -> m fuel s = Some (x, s')) /\ Q x s'.

Lemma returns_now {S A} (m : sf S A) s x s' (Q : A -> S -> Prop) :
  m s = Some (x, s') -> Q x s' -> returns (fun _ => m) s Q.
Proof. intros H HQ. exists O, x, s'. auto. Qed.

Lemma returns_bind {S A B} (m : nat -> sf S A) (k : nat -> A -> sf S B) s R Q :
  returns m s R -> (forall x s', R x s' -> returns (fun f => k f x) s' Q) -> returns (fun f => x ← m f; k f x) s Q.
Proof.
  intros (N & x & s' & Hm & HR) Hk. destruct (Hk x s' HR) as (N' & y & s'' & Hk' & HQ).
  exists (max N N'), y, s''. split; [|done]. intros f Hf. rewrite (sf_bindE _ _ _ _ _ (Hm f ltac:(lia))).
  apply Hk'. lia.
Qed.

Lemma returns_conseq {S A} (m : nat -> sf S A) s (P Q : A -> S -> Prop) :
  returns m s P -> (forall x s', P x s' -> Q x s') -> returns m s Q.
Proof. intros (N & x & s' & H & HP) HQ. exists N, x, s'. auto. Qed.

Lemma bind_inv {S A B} (m : sf S A) (k : A -> sf S B) s y s' :
  (x ← m; k x) s = Some (y, s') -> exists x s1, m s = Some (x, s1) /\ k x s1 = Some (y, s').
Proof. unfold mbind, sf_bind. destruct (m s) as [[x s1]|]; [eauto|done]. Qed.

Section Proofs.
Context {W : Type} (E : env W) (a : app_lib_mem_area_info_t) (content : W -> list Z) (polls : W -> nat).
Context {FL : Flash E a content polls}.

Implicit Types (s : state W) (fuel : nat).

(** An operation that only lets time pass. *)
Definition waits {A} (m : sf (state W) A) : Prop :=
  forall s x s', m s = Some (x, s') -> exists w, s' = set_world w s /\ content w = content (world s).

Lemma set_world_set_world w w' s : set_world w (set_world w' s) = set_world w s.
Proof. done. Qed.

Lemma driver_run {A} (f : W -> A * W) s : in_world f s = Some ((f (world s)).1, set_world (f (world s)).2 s).
Proof. unfold in_world. by destruct (f (world s)). Qed.

Lemma waits_in_world {A} (f : W -> A * W) : (forall w, content (f w).2 = content w) -> waits (in_world f).
Proof. intros Hf s x s'. rewrite driver_run. intros [= <- <-]. eauto. Qed.

Lemma waits_bind {A B} (m : sf (state W) A) (k : A -> sf (state W) B) :
  waits m -> (forall x, waits (k x)) -> waits (x ← m; k x).
Proof.
  intros Hm Hk s y s' H. unfold mbind, sf_bind in H. destruct (m s) as [[x s1]|] eqn:H1; [|done].
  destruct (Hm _ _ _ H1) as (w1 & -> & Hw1). destruct (Hk _ _ _ _ H) as (w2 & -> & Hw2).
  exists w2. split; [done|]. by rewrite Hw2.
Qed.

Lemma waits_ret {A} (x : A) : waits (mret x).
Proof. intros s y s' [= <- <-]. exists (world s). by destruct s. Qed.

Lemma waits_asks {A} (f : state W -> A) : waits (asks f).
Proof. intros s y s' [= <- <-]. exists (world s). by destruct s. Qed.

Lemma waits_if {A} (b : bool) (m k : sf (state W) A) : waits m -> waits k -> waits (if b then m else k).
Proof. by destruct b. Qed.

Lemma waits_loop fuel e : waits (wait_loop E e fuel).
Proof.
  induction fuel as [|fuel IH]; cbn [wait_loop]; [done|].
  apply waits_bind; [exact (waits_in_world _ (busy_content))|intros busy].
  apply waits_bind; [exact (waits_in_world _ (time_content))|intros now].
  apply waits_if; [done|apply waits_ret].
Qed.

Lemma waits_wait fuel t : waits (active_wait_for_end_of_operation E fuel t).
Proof. apply waits_bind; [exact (waits_in_world _ (time_content))|intros; apply waits_loop]. Qed.

Lemma waits_read fuel from n : waits (read E fuel from n).
Proof.
  apply waits_bind; [exact (waits_in_world _ (read_content _ _))|intros r].
  apply waits_if; [apply waits_ret|]. apply waits_bind; [apply waits_asks|intros x].
  apply waits_bind; [apply waits_wait|intros; apply waits_ret].
Qed.

Lemma loop_returns e s : returns (wait_loop E e) s (fun _ _ => True).
Proof.
  remember (polls (world s)) as n eqn:Hn. revert s Hn. induction (lt_wf n) as [n _ IH]. intros s ->.
  destruct (decide ((isBusy E (world s)).1 = true /\
    isHpTimestampBefore E e (getTimestampHp E (isBusy E (world s)).2).1 = false)) as [[Hb Ht]|Hstop].
  - set (s1 := set_world (getTimestampHp E (isBusy E (world s)).2).2 s).
    assert (Hlt : (polls (world s1) < polls (world s))%nat).
    { cbn. rewrite time_polls. pose proof (busy_polls (world s)). destruct (polls (world s)) eqn:Hp; [|lia].
      by rewrite busy_idle in Hb. }
    destruct (IH _ Hlt s1 eq_refl) as (N & x & s' & H & _). exists (S N), x, s'. split; [|done].
    intros [|fuel] Hf; [lia|]. cbn [wait_loop].
    rewrite (sf_bindE _ _ _ _ _ (driver_run _ _)), (sf_bindE _ _ _ _ _ (driver_run _ _)).
    cbn [world set_world]. rewrite Hb, Ht. apply H. lia.
  - eexists 1%nat, _, _. split; [|done]. intros [|fuel] Hf; [lia|]. cbn [wait_loop].
    rewrite (sf_bindE _ _ _ _ _ (driver_run _ _)), (sf_bindE _ _ _ _ _ (driver_run _ _)).
    cbn [world set_world].
    replace ((isBusy E (world s)).1 && _) with false; [reflexivity|].
    symmetry. apply andb_false_iff. rewrite negb_false_iff.
    destruct (isBusy E (world s)).1, (isHpTimestampBefore _ _ _); tauto.
Qed.

Lemma wait_returns t s : returns (fun f => active_wait_for_end_of_operation E f t) s (fun _ _ => True).
Proof.
  apply (returns_bind (fun _ => in_world (getTimestampHp E)) _ _ (fun _ _ => True)).
  - by eapply returns_now; [apply driver_run|].
  - intros. apply loop_returns.
Qed.

(** ** Lengths *)

Lemma round_up k n m : 0 < k -> 0 <= n <= m -> (k | m) -> n <= (n + k - 1) / k * k <= m.
Proof.
  intros Hk Hn [q ->]. split.
  - pose proof (Z.div_mod (n + k - 1) k). pose proof (Z.mod_pos_bound (n + k - 1) k). lia.
  - apply Z.mul_le_mono_nonneg_r; [lia|]. apply Z.lt_succ_r, Z.div_lt_upper_bound; nia.
Qed.

Lemma magic_size_pos : 4 <= magic_size a.
Proof. unfold magic_size. destruct (Z.ltb_spec 4 (write_alignment (flash a))); lia. Qed.

Lemma geo : geometry a.
Proof. exact (flash_geometry (E := E) (content := content)). Qed.

Lemma sector_le : 0 < erase_sector_size (flash a) <= area_size a.
Proof. destruct geo as [H1 H2 H3 _ _ _ _]. split; [done|]. apply Z.divide_pos_le; [lia|done]. Qed.

Lemma unit_le : 0 < write_alignment (flash a) <= area_size a.
Proof. destruct geo as [H1 _ _ H4 H5 _ _]. split; [done|]. apply Z.divide_pos_le; [lia|done]. Qed.

Lemma blocks_fit len : 0 < len <= area_size a - magic_size a ->
  0 < num_block a len /\ len <= num_block a len * erase_sector_size (flash a) <= area_size a.
Proof.
  intros Hl. pose proof magic_size_pos. pose proof sector_le. destruct geo as [H1 _ H3 _ _ _ _].
  unfold num_block. rewrite uwrap_small by (unfold fits; lia).
  pose proof (round_up _ len (area_size a) (proj1 H0) ltac:(lia) H3). nia.
Qed.

Lemma units_fit len : 0 <= len <= area_size a - magic_size a ->
  len <= aligned_len a len <= area_size a - magic_size a.
Proof.
  intros Hl. pose proof magic_size_pos. pose proof unit_le.
  destruct geo as [H1 _ _ _ H5 H6 _].
  pose proof (round_up _ len (area_size a - magic_size a) (proj1 H0) ltac:(lia) (Z.divide_sub_r _ _ _ H5 H6)).
  unfold aligned_len. rewrite (uwrap_small 32 (len + _ - 1)) by (unfold fits; lia).
  rewrite uwrap_small by (unfold fits; lia). lia.
Qed.

(** ** What a write leaves in the area *)

Definition valid (c : list Z) : Prop := le_get (slice 0 4 c) = APP_PERSISTENT_MAGIC.
Definition holds (data : pointer) (len : Z) (c : list Z) : Prop :=
  slice (Z.to_nat (magic_size a)) (Z.to_nat len) c = bytes_at data len.

Lemma length_bytes_at p n : length (bytes_at p n) = Z.to_nat n.
Proof. unfold bytes_at. by rewrite length_fmap, length_seq. Qed.

Lemma erased_slice o n o' n' (c : list Z) :
  erased (slice o n c) -> (o <= o')%nat -> (o' + n' <= o + n)%nat -> erased (slice o' n' c).
Proof.
  unfold erased, slice. intros H Ho Hn. apply Forall_forall. intros x Hx.
  apply list_elem_of_lookup in Hx as [i Hi]. apply lookup_take_Some in Hi as [Hi Hlt]. rewrite lookup_drop in Hi.
  eapply (Forall_lookup_1 (.= 255)); [exact H|]. rewrite lookup_take_Some, lookup_drop.
  split; [by replace (o + (o' + i - o))%nat with (o' + i)%nat by lia|lia].
Qed.

Lemma erased_invalid (c : list Z) : (4 <= length c)%nat -> erased (slice 0 4 c) -> ~ valid c.
Proof.
  unfold valid, erased, slice. intros Hl He.
  destruct c as [|x0 [|x1 [|x2 [|x3 c]]]]; cbn in Hl; try lia. cbn [take drop] in *.
  apply Forall_cons in He as [-> He]. apply Forall_cons in He as [-> He]. apply Forall_cons in He as [-> He].
  apply Forall_cons in He as [-> _]. discriminate.
Qed.

Lemma slice_prefix n bs buf :
  (n <= length bs <= length buf)%nat -> slice 0 n (blit 0 bs buf) = take n bs.
Proof. intros H. rewrite blit_app by lia. unfold slice. rewrite take_0, drop_0. cbn [app]. apply take_app_le. lia. Qed.

(** After the erasure, the data are written, then the magic number. *)
Lemma written_data data len c :
  length c = Z.to_nat (area_size a) -> 0 < len <= area_size a - magic_size a ->
  erased (slice 0 (Z.to_nat (magic_size a + len)) c) ->
  let c2 := blit (Z.to_nat (magic_size a)) (bytes_at data len) c in
  let c3 := blit 0 (bytes_at (magic_at E) (magic_size a)) c2 in
  ~ valid c2 /\ erased (slice 0 (Z.to_nat (magic_size a)) c2) /\ valid c3 /\ holds data len c3.
Proof.
  intros Hlen Hl He c2 c3. pose proof magic_size_pos. pose proof (length_bytes_at data len) as Hd.
  pose proof (length_bytes_at (magic_at E) (magic_size a)) as Hm.
  assert (H2 : erased (slice 0 (Z.to_nat (magic_size a)) c2)).
  { subst c2. rewrite slice_blit_disj by lia. eapply erased_slice; [exact He|lia..]. }
  split_and!; [|done| |].
  - apply erased_invalid; [subst c2; rewrite length_blit; lia|]. eapply erased_slice; [exact H2|lia..].
  - unfold valid. subst c3. rewrite slice_prefix by (subst c2; rewrite ?length_blit; lia).
    unfold bytes_at. replace (Z.to_nat (magic_size a)) with (4 + (Z.to_nat (magic_size a) - 4))%nat by lia. done.
  - unfold holds. subst c3. rewrite slice_blit_disj by lia. subst c2. rewrite <- Hd, slice_blit; [done|].
    rewrite Hlen, Hd. lia.
Qed.

(** The three ways a write can end, in terms of the area. *)
Definition outcome (data : pointer) (len : Z) (c : list Z) (r : app_persistent_res_e) (c' : list Z) : Prop :=
  r <> APP_PERSISTENT_RES_OK /\ c' = c \/
  r <> APP_PERSISTENT_RES_OK /\ ~ valid c' \/
  len <= area_size a - magic_size a /\ valid c' /\ holds data (aligned_len a len) c'.

(** From the written data on: wait, write the magic number, wait. *)
Lemma magic_outcome fuel t t' data len c w s r s' c2 :
  len <= area_size a - magic_size a -> c2 = content w -> ~ valid c2 -> erased (slice 0 (Z.to_nat (magic_size a)) c2) ->
  (let c3 := blit 0 (bytes_at (magic_at E) (magic_size a)) c2 in valid c3 /\ holds data (aligned_len a len) c3) ->
  (written ← active_wait_for_end_of_operation E fuel t;
   if negb written then mret APP_PERSISTENT_RES_ACCESS_TIMEOUT
   else
     res ← in_world (startWrite E 0 (bytes_at (magic_at E) (magic_size a)));
     if negb (res =? APP_LIB_MEM_AREA_RES_OK) then mret APP_PERSISTENT_RES_FLASH_ERROR
     else
       written ← active_wait_for_end_of_operation E fuel t';
       if negb written then mret APP_PERSISTENT_RES_ACCESS_TIMEOUT else mret APP_PERSISTENT_RES_OK)
    (set_world w s) = Some (r, s') ->
  (exists w', s' = set_world w' s) /\ outcome data len c r (content (world s')).
Proof.
  intros Hl -> Hv He Hok H. pose proof magic_size_pos. pose proof (geo_room _ geo) as Hroom.
  apply bind_inv in H as (x1 & s1 & H1 & H). apply waits_wait in H1 as (w1 & -> & Hw1).
  rewrite set_world_set_world in H. cbn [world set_world] in Hw1. rewrite <- Hw1 in *.
  destruct x1; cbn [negb] in H; [|injection H as <- <-; split; [by eexists|by right; left]].
  rewrite (sf_bindE _ _ _ _ _ (driver_run _ _)), set_world_set_world in H. cbn [world set_world] in H.
  set (o := startWrite E 0 _ w1) in H.
  destruct (Z.eqb_spec o.1 APP_LIB_MEM_AREA_RES_OK) as [Hr|Hr]; cbn [negb] in H.
  2:{ injection H as <- <-. split; [by eexists|]. right. left. split; [done|]. cbn. by rewrite (write_refused _ _ _ Hr). }
  assert (Ho : content o.2 = blit 0 (bytes_at (magic_at E) (magic_size a)) (content w1)).
  { apply (write_bytes 0 _ _ Hr); rewrite ?length_bytes_at; [lia..|done]. }
  apply bind_inv in H as (x2 & s2 & H2 & H). apply waits_wait in H2 as (w2 & -> & Hw2).
  cbn [world set_world] in Hw2. rewrite <- Ho, <- Hw2 in Hok.
  destruct x2; injection H as <- <-; (split; [by eexists|by right; right]).
Qed.

Lemma write_outcome fuel data len s r s' :
  ready a s -> erases_all E -> 0 < len -> covered a len ->
  App_Persistent_write E fuel data len s = Some (r, s') ->
  (exists w, s' = set_world w s) /\ outcome data len (content (world s)) r (content (world s')).
Proof.
  intros (Hi & Ha & Hm & Hu) Hall Hlen Hcov. unfold App_Persistent_write, covered in *.
  rewrite asksE, asksE, Hi. cbn [negb]. rewrite asksE, Hu, Ha.
  destruct (Z.ltb_spec (area_size a - magic_size a) len) as [|Hle].
  { intros [= <- <-]. split; [exists (world s); by destruct s|by left]. }
  pose proof magic_size_pos as Hm4. destruct (blocks_fit len) as [Hb [_ Hba]]; [lia|].
  pose proof (units_fit len ltac:(lia)) as Hal.
  rewrite (sf_bindE _ _ _ _ _ (driver_run _ _)). cbv zeta.
  set (o1 := startErase E 0 (num_block a len) (world s)).
  destruct (Z.eqb_spec o1.1.1 APP_LIB_MEM_AREA_RES_OK) as [Hr1|Hr1]; cbn [negb].
  2:{ intros [= <- <-]. split; [by eexists|]. left. split; [done|]. by apply erase_refused. }
  destruct (erase_sectors (a := a) (content := content) (polls := polls) 0 (num_block a len) (world s) _ Hr1 eq_refl ltac:(lia) Hb ltac:(lia)) as [_ He].
  rewrite (Hall _ _ _ Hr1), Z.sub_0_r in He. change (Z.to_nat 0) with O in He. fold o1 in He.
  assert (He' : erased (slice 0 (Z.to_nat (magic_size a + aligned_len a len)) (content o1.2))).
  { eapply erased_slice; [exact He|lia..]. }
  destruct (written_data data _ _ (flash_size o1.2) (conj (Z.lt_le_trans _ _ _ Hlen (proj1 Hal)) (proj2 Hal)) He')
    as (Hv2 & He2 & Hv3 & Hh3).
  intros H. apply bind_inv in H as (x1 & s1 & H1 & H). apply waits_wait in H1 as (w1 & -> & Hw1).
  rewrite set_world_set_world in H. cbn [world set_world] in Hw1.
  assert (Hinv1 : ~ valid (content w1)).
  { rewrite Hw1. apply erased_invalid; [rewrite flash_size; lia|]. eapply erased_slice; [exact He'|lia..]. }
  destruct x1; cbn [negb] in H; [|injection H as <- <-; split; [by eexists|by right; left]].
  rewrite asksE in H. cbn [set_world m_magic_size] in H. rewrite Hm in H.
  rewrite (sf_bindE _ _ _ _ _ (driver_run _ _)), set_world_set_world in H. cbn [world set_world] in H.
  set (o2 := startWrite E (magic_size a) _ w1) in H.
  destruct (Z.eqb_spec o2.1 APP_LIB_MEM_AREA_RES_OK) as [Hr2|Hr2]; cbn [negb] in H.
  2:{ injection H as <- <-. split; [by eexists|]. right. left. split; [done|]. cbn. by rewrite (write_refused _ _ _ Hr2). }
  assert (Ho : content o2.2 = blit (Z.to_nat (magic_size a)) (bytes_at data (aligned_len a len)) (content o1.2)).
  { rewrite <- Hw1. apply (write_bytes _ _ _ Hr2); rewrite ?length_bytes_at, ?Hw1; [lia..|].
    eapply erased_slice; [exact He'|lia..]. }
  by eapply (magic_outcome _ _ _ data len _ o2.2 s r s' _ Hle (eq_sym Ho)).
Qed.

(** ** Every call returns *)

Lemma returns_in_world {A} (f : W -> A * W) s : returns (fun _ => in_world f) s (fun _ _ => True).
Proof. by eapply returns_now; [apply driver_run|]. Qed.

Lemma returns_ret {A} (x : A) s : returns (fun _ => mret x) s (fun _ _ => True).
Proof. by eapply returns_now. Qed.

Lemma returns_asks {A} (f : state W -> A) s : returns (fun _ => asks f) s (fun _ _ => True).
Proof. by eapply returns_now. Qed.

Lemma returns_puts (f : state W -> state W) s : returns (fun _ => puts f) s (fun _ _ => True).
Proof. by eapply returns_now. Qed.

Ltac returns_step := lazymatch goal with
  | |- returns (fun f => mbind (fun x => @?k f x) (@?m f)) ?s _ =>
      apply (returns_bind m k s (fun _ _ => True)); [|intros ? ? _]
  | |- returns (fun f => if ?b then @?m f else @?k f) _ _ => destruct b
  | |- returns (fun f => match ?o with Some _ => _ | None => _ end) _ _ => destruct o
  | |- _ => first [apply returns_in_world | apply returns_ret | apply returns_asks | apply returns_puts
                  | apply wait_returns]
  end.

Lemma read_returns from n s : returns (fun f => read E f from n) s (fun _ _ => True).
Proof. unfold read. repeat returns_step. Qed.

Lemma persistent_write_returns data len s : returns (fun f => App_Persistent_write E f data len) s (fun _ _ => True).
Proof. unfold App_Persistent_write. cbv zeta. repeat returns_step. Qed.

Lemma persistent_read_returns n s : returns (fun f => App_Persistent_read E f n) s (fun _ _ => True).
Proof. unfold App_Persistent_read. cbv zeta. repeat first [apply read_returns|returns_step]. Qed.

Lemma returns_post {A} (m : nat -> sf (state W) A) s P :
  returns m s (fun _ _ => True) -> (forall f x s', m f s = Some (x, s') -> P x s') -> returns m s P.
Proof. intros (N & x & s' & H & _) HP. exists N, x, s'. split; [done|]. by apply (HP N), H. Qed.

(** ** What a read gives *)

Lemma read_area fuel from n s d s' :
  0 <= from -> 0 <= n -> from + n <= area_size a -> read E fuel from n s = Some (d, s') ->
  (exists w, s' = set_world w s /\ content w = content (world s)) /\
  (d = None \/ d = Some (slice (Z.to_nat from) (Z.to_nat n) (content (world s)))).
Proof.
  intros Hf Hn Hr H. split; [by apply waits_read in H|]. unfold read in H.
  rewrite (sf_bindE _ _ _ _ _ (driver_run _ _)) in H.
  destruct (Z.eqb_spec (startRead E from n (world s)).1.1 APP_LIB_MEM_AREA_RES_OK) as [Hok|]; cbn [negb] in H;
    [|injection H as <- _; by left].
  rewrite asksE in H. apply bind_inv in H as (x & s1 & _ & H). injection H as <- _.
  destruct x; [right|by left]. f_equal. by apply read_bytes.
Qed.

(** The answer of a read, for the content of the area. *)
Definition answer (c : list Z) (n : Z) (r : app_persistent_res_e * option (list Z)) : Prop :=
  match r.1 with
  | APP_PERSISTENT_RES_OK => valid c /\ r.2 = Some (slice (Z.to_nat (magic_size a)) (Z.to_nat n) c)
  | APP_PERSISTENT_RES_INVALID_CONTENT => ~ valid c
  | APP_PERSISTENT_RES_TOO_BIG => area_size a - magic_size a < n
  | APP_PERSISTENT_RES_FLASH_ERROR => True
  | _ => False
  end.

Lemma persistent_read_answer fuel n s r s' :
  ready a s -> 0 <= n -> App_Persistent_read E fuel n s = Some (r, s') -> answer (content (world s)) n r.
Proof.
  intros (Hi & Ha & Hm & Hu) Hn. unfold App_Persistent_read. rewrite asksE, Hi. cbn [negb]. rewrite asksE, Hu.
  destruct (Z.ltb_spec (area_size a - magic_size a) n) as [|Hle]; [by intros [= <- <-]|].
  pose proof magic_size_pos. intros H1. apply bind_inv in H1 as (m & s1 & H1 & H2).
  destruct (read_area fuel 0 4 s m s1 ltac:(lia) ltac:(lia) ltac:(lia) H1) as [(w & -> & Hw) [->| ->]];
    [by injection H2 as <- _|].
  destruct (Z.eqb_spec (le_get (slice 0 4 (content (world s)))) APP_PERSISTENT_MAGIC) as [Hv|Hv];
    change (slice (Z.to_nat 0) (Z.to_nat 4)) with (slice 0 4) in H2.
  2:{ rewrite (proj2 (Z.eqb_neq _ _) Hv) in H2. by injection H2 as <- _. }
  rewrite (proj2 (Z.eqb_eq _ _) Hv) in H2. cbn [negb] in H2. rewrite asksE in H2.
  cbn [set_world m_magic_size] in H2. rewrite Hm in H2. apply bind_inv in H2 as (d & s2 & H2 & H3).
  destruct (read_area fuel (magic_size a) n _ d s2 ltac:(lia) ltac:(lia) ltac:(lia) H2) as [_ [->| ->]]; injection H3 as <- _; [done|].
  split; [done|]. cbn. by rewrite Hw.
Qed.

Lemma init_ready s :
  (forall w, getAreaInfo E w = (APP_LIB_MEM_AREA_RES_OK, a)) -> m_initialized s = false ->
  exists s', App_Persistent_init E s = Some (APP_PERSISTENT_RES_OK, s') /\ ready a s' /\ world s' = world s.
Proof.
  intros Ha Hi. unfold App_Persistent_init. rewrite asksE, Hi, asksE, Ha. cbn [fst snd]. rewrite Z.eqb_refl. cbn [negb].
  eexists. split; [reflexivity|]. split; [|done]. pose proof magic_size_pos. pose proof (geo_room _ geo).
  pose proof (geo_size _ geo). split_and!; [done..|]. cbn [m_usable_memory_size].
  fold (magic_size a). apply uwrap_small. unfold fits. lia.
Qed.

(** A read after a write, in terms of what the area held before the write. *)
Lemma answer_outcome data len n c r c' r' :
  0 <= n <= len ->
  outcome data len c r c' -> answer c' n r' ->
  match r'.1 with
  | APP_PERSISTENT_RES_OK =>
      r'.2 = Some (bytes_at data n) \/
      r <> APP_PERSISTENT_RES_OK /\ valid c /\ r'.2 = Some (slice (Z.to_nat (magic_size a)) (Z.to_nat n) c)
  | APP_PERSISTENT_RES_INVALID_CONTENT | APP_PERSISTENT_RES_TOO_BIG => r <> APP_PERSISTENT_RES_OK
  | APP_PERSISTENT_RES_FLASH_ERROR => True
  | _ => False
  end.
Proof.
  intros Hn Ho Ha. destruct r' as [r' d]. unfold answer in Ha. cbn [fst snd] in *.
  destruct r'; try done.
  - destruct Ha as [Hv ->]. destruct Ho as [[Hok ->]|[[Hok Hi]|(Hl & _ & Hh)]]; [by right|done|].
    left. f_equal. unfold holds in Hh. pose proof (units_fit len ltac:(lia)).
    transitivity (take (Z.to_nat n) (slice (Z.to_nat (magic_size a)) (Z.to_nat (aligned_len a len)) c')).
    + unfold slice. rewrite take_take. f_equal. lia.
    + rewrite Hh. unfold bytes_at. rewrite <- fmap_take, take_seq. do 2 f_equal. lia.
  - destruct Ho as [[? _]|[[? _]|[? _]]]; [done..|lia].
  - destruct Ho as [[? _]|[[? _]|(_ & ? & _)]]; done.
Qed.

End Proofs.


(** ** A concrete area

    Sixty-four bytes in sectors of sixteen; a written bit is only ever
    cleared; every operation keeps the driver busy for two questions. *)

Module Example.

Record chip := { cell : nat -> Z; busy : nat; clock : Z }.

Definition info : app_lib_mem_area_info_t :=
  {| area_id := 0x8AE573BA; area_size := 64;
     flash := {| write_page_size := 16; erase_sector_size := 16; write_alignment := 4; byte_write_time := 10;
                 page_write_time := 100; sector_erase_time := 100; byte_write_call_time := 1;
                 page_write_call_time := 10; sector_erase_call_time := 10; is_busy_call_time := 1 |};
     external_flash := true; type := 1 |}.

Definition contents (w : chip) : list Z := cell w <$> seq 0 64.

Definition in_area (a n : Z) : bool := (0 <=? a) && (0 <=? n) && (a + n <=? 64).

Definition write_cells (a : nat) (bs : list Z) (c : nat -> Z) : nat -> Z :=
  fun i => if (i <? a)%nat then c i
           else match bs !! (i - a)%nat with
                | Some b => if c i =? 255 then b else Z.land (c i) b
                | None => c i
                end.
Definition erase_cells (a n : Z) (c : nat -> Z) : nat -> Z :=
  fun i => if (a <=? Z.of_nat i) && (Z.of_nat i <? a + n * 16) then 255 else c i.

Definition chip_env : env chip :=
  {| getTimestampHp w := (clock w, {| cell := cell w; busy := busy w; clock := clock w + 1 |});
     addUsToHpTimestamp t d := t + d;
     isHpTimestampBefore := Z.ltb;
     getAreaInfo _ := (APP_LIB_MEM_AREA_RES_OK, info);
     startRead a n w := if in_area a n then (0, slice (Z.to_nat a) (Z.to_nat n) (contents w), w) else (4, [], w);
     startWrite a bs w :=
       if in_area a (Z.of_nat (length bs))
       then (0, {| cell := write_cells (Z.to_nat a) bs (cell w); busy := 2; clock := clock w |}) else (4, w);
     startErase a n w :=
       if in_area a (n * 16) then (0, (a + n * 16, 0), {| cell := erase_cells a n (cell w); busy := 2; clock := clock w |})
       else (4, (a, n), w);
     isBusy w := ((0 <? busy w)%nat, {| cell := cell w; busy := pred (busy w); clock := clock w |});
     after_magic _ := 0 |}.

#[local] Arguments contents : simpl never.
#[local] Arguments Nat.ltb : simpl never.

Lemma lookup_contents w i : contents w !! i = if (i <? 64)%nat then Some (cell w i) else None.
Proof.
  unfold contents. rewrite list_lookup_fmap. destruct (Nat.ltb_spec i 64).
  - by rewrite lookup_seq_lt.
  - by rewrite lookup_seq_ge.
Qed.

Lemma in_area_true a n : in_area a n = true <-> 0 <= a /\ 0 <= n /\ a + n <= 64.
Proof. unfold in_area. rewrite !andb_true_iff, !Z.leb_le. tauto. Qed.

#[export] Instance chip_flash : Flash chip_env info contents busy.
Proof.
  split; try done.
  - split; cbn; try lia; try (by exists 16); try (by exists 4); try (by exists 1).
  - intros w Hw. cbn. by rewrite Hw.
  - intros from n w. cbn. by destruct (in_area from n).
  - intros from n w Hok H1 H2 H3. cbn in *. by rewrite (proj2 (in_area_true _ _)) by done.
  - intros to bs w. cbn. destruct (in_area _ _); done.
  - intros to bs w Hok H1 H2 He. cbn in *. rewrite (proj2 (in_area_true _ _)) in * by lia. cbn.
    apply list_eq. intros i. rewrite lookup_contents. cbn. unfold write_cells.
    destruct (Nat.ltb_spec i 64) as [Hi|Hi].
    + destruct (Nat.ltb_spec i (Z.to_nat to)).
      * rewrite lookup_blit_lt, lookup_contents by done. by rewrite (proj2 (Nat.ltb_lt _ _) Hi).
      * destruct (bs !! (i - Z.to_nat to)%nat) as [b|] eqn:Hb.
        -- pose proof (lookup_lt_Some _ _ _ Hb). rewrite lookup_blit_in by (unfold contents; rewrite ?length_fmap, ?length_seq; lia).
           rewrite Hb. assert (Hc : cell w i = 255).
           { unfold erased, slice in He. rewrite Forall_lookup in He. apply (He (i - Z.to_nat to)%nat).
             rewrite lookup_take_lt by lia. rewrite lookup_drop, lookup_contents.
             replace (Z.to_nat to + (i - Z.to_nat to))%nat with i by lia. by rewrite (proj2 (Nat.ltb_lt _ _) Hi). }
           by rewrite Hc.
        -- apply lookup_ge_None in Hb. rewrite lookup_blit_ge by lia.
           by rewrite lookup_contents, (proj2 (Nat.ltb_lt _ _) Hi).
    + symmetry. apply lookup_ge_None. rewrite length_blit. unfold contents. by rewrite length_fmap, length_seq.
  - intros to bs w i Hok H1 H2 Hi. cbn in *. rewrite (proj2 (in_area_true _ _)) in * by lia.
    rewrite !lookup_contents. cbn. unfold write_cells. destruct (i <? 64)%nat; [|done].
    destruct (Nat.ltb_spec i (Z.to_nat to)); [done|]. by rewrite (proj2 (lookup_ge_None _ _)) by lia.
  - intros base n w. cbn. by destruct (in_area _ _).
  - intros base n w left Hok -> H1 H2 H3. cbn in *. rewrite (proj2 (in_area_true _ _)) by lia. cbn.
    split; [lia|]. unfold erased, slice. apply Forall_lookup. intros i x Hx.
    apply lookup_take_Some in Hx as [Hx Hlt]. rewrite lookup_drop, lookup_contents in Hx. cbn in Hx.
    unfold erase_cells in Hx. destruct (_ <? 64)%nat; [|done].
    rewrite (proj2 (andb_true_iff _ _)) in Hx; [by injection Hx|]. rewrite Z.leb_le, Z.ltb_lt. lia.
Qed.

Definition blank : state chip :=
  {| m_magic_size := 0; m_initialized := false; m_usable_memory_size := 0; m_memory_area := info;
     world := {| cell _ := 0; busy := 0; clock := 0 |} |}.

Definition counting (from : Z) : pointer := fun i => from + Z.of_nat i.

Definition write_read (fuel : nat) (data : pointer) (len n : Z) :=
  i ← App_Persistent_init chip_env; r ← App_Persistent_write chip_env fuel data len;
  d ← App_Persistent_read chip_env fuel n; mret (i, r, d).

End Example.


(** ** What the length of the erasure leaves out

    The number of sectors is computed from the length of the data alone,
    although the data start after the magic number.  A block that fills its
    sectors ends in a sector that is not erased: a second write succeeds, and
    the data that are read back are not those that were written. *)
Lemma write_over_old_data :
  let twice := _ ← Example.write_read 5 (fun _ => 0) 16 16; Example.write_read 5 (Example.counting 1) 16 16 in
  fst <$> twice Example.blank =
    Some (APP_PERSISTENT_RES_OK, APP_PERSISTENT_RES_OK,
          (APP_PERSISTENT_RES_OK, Some [1;2;3;4;5;6;7;8;9;10;11;12;0;0;0;0])).
Proof. vm_compute. reflexivity. Qed.
