(* ===== verification/ProvPdu.v ===== *)
(** * Provisioning packets

    [libraries/provisioning/provisioning_int.h]: the layout of the packets that
    a new node and a proxy exchange, as offsets into the bytes of a packet, and
    the counter mode counter, which both derive from the initialization vector
    of the node and the counter of the packet. *)

From S2P Require Import Prelude Aes Aessw.

Definition PROV_DOWNLINK_EP : Z := 255.
Definition PROV_UPLINK_EP : Z := 246.

Definition PROV_PDU_SIZE : nat := 102.
Definition PROV_MIC_SIZE : nat := 5.
Definition ENC_KEY_OFFSET : nat := 16.
Definition AES_128_KEY_BLOCK_SIZE : nat := 16.

Definition PROV_PACKET_TYPE_START : Z := 1.
Definition PROV_PACKET_TYPE_DATA : Z := 2.
Definition PROV_PACKET_TYPE_DATA_ACK : Z := 3.
Definition PROV_PACKET_TYPE_NACK : Z := 4.

Definition PROV_NACK_TYPE_NOT_AUTHORIZED : Z := 0.
Definition PROV_NACK_TYPE_METHOD_NOT_SUPPORTED : Z := 1.

Definition PROV_METHOD_UNSECURED : Z := 0.
Definition PROV_METHOD_SECURED : Z := 1.
Definition PROV_METHOD_EXTENDED_UID : Z := 3.

(** [pdu_prov_hdr_t]: type, address and session identifier. *)
Definition sizeof_hdr : nat := 6.
Definition pdu_prov_hdr (type address session_id : Z) : list Z := u8 type :: le_put 4 address ++ [u8 session_id].

(** The offset of the data in a DATA packet, after the key index and the counter. *)
Definition PROV_DATA_OFFSET : nat := 9.

(** The room for the user identifier in a START packet. *)
Definition MAX_UID : nat := 79.

(** [icb = iv + counter], with the carry into the following words. *)
Definition add_counter (iv : list Z) (counter : Z) : list Z :=
  let w0 := field 0 4 iv in
  let sum := u32 (w0 + counter) in
  set_field 0 4 sum (if sum <? w0 then incr_words 3 1 iv else iv).

Lemma length_pdu_prov_hdr t a i : length (pdu_prov_hdr t a i) = sizeof_hdr.
Proof. unfold pdu_prov_hdr. cbn [length]. rewrite length_app, length_le_put. done. Qed.

Lemma pdu_prov_hdr_bytes t a i : bytes (pdu_prov_hdr t a i).
Proof.
  unfold pdu_prov_hdr. constructor; [apply u8_range|]. apply Forall_app. split; [apply le_put_bytes|].
  constructor; [apply u8_range|constructor].
Qed.

(** It is an addition to the 128-bit number. *)
Lemma add_counter_spec iv c : block iv -> is_u32 c -> add_counter iv c = le_put 16 (le_get iv + c).
Proof.
  intros [Hl Hb] Hc. unfold add_counter. set (w0 := field 0 4 iv).
  assert (Hw : 0 <= w0 < 2 ^ 32).
  { pose proof (le_get_range (slice 0 4 iv) (slice_bytes _ _ _ Hb)) as H. rewrite length_slice in H by lia. exact H. }
  assert (Hs : le_get iv = w0 + 2 ^ 32 * le_get (drop 4 iv)) by (rewrite (le_get_split 4) by lia; done).
  set (iv' := if _ <? w0 then _ else iv).
  assert (Hl' : length iv' = 16%nat) by (unfold iv'; destruct (_ <? _); rewrite ?incr_words_length; done).
  assert (Hb' : bytes iv') by (unfold iv'; destruct (_ <? _); [by apply incr_words_bytes|done]).
  rewrite <- (le_put_get (set_field 0 4 _ iv')) by by apply set_field_bytes.
  rewrite length_set_field, Hl'. apply le_put_wrap. change (8 * Z.of_nat 16) with 128.
  unfold set_field. rewrite blit_app by (rewrite length_le_put; lia). rewrite length_le_put. rewrite take_0. cbn [app Nat.add].
  rewrite le_get_app, le_get_put, length_le_put.
  change (8 * Z.of_nat 4) with 32. rewrite uwrap_idem by lia.
  assert (Hd : le_get (drop 4 iv') = if u32 (w0 + c) <? w0 then uwrap 96 (le_get (drop 4 iv) + 1) else le_get (drop 4 iv)).
  { unfold iv'. destruct (_ <? w0); [|done].
    pose proof (incr_words_value 3 1 iv Hb ltac:(lia)) as H. rewrite (le_get_split 4) in H by (rewrite incr_words_length; lia).
    pose proof (le_get_range (take 4 iv) (Forall_take _ _ _ Hb)) as R1.
    pose proof (le_get_range (take 4 (incr_words 3 1 iv)) (Forall_take _ _ _ (incr_words_bytes 3 1 iv Hb))) as R2.
    rewrite length_take, Hl in R1. rewrite length_take, incr_words_length, Hl in R2.
    change (8 * Z.of_nat (4 `min` 16)) with 32 in R1, R2. change (8 * Z.of_nat 4) with 32 in H.
    change (32 * Z.of_nat 1) with 32 in H. change (32 * Z.of_nat 3) with 96 in H. change (4 * 1)%nat with 4%nat in H.
    unfold fits in *.
    assert (le_get (take 4 (incr_words 3 1 iv)) = le_get (take 4 iv)) by lia. lia. }
  rewrite Hd, Hs. unfold fits in Hc.
  assert (Hu : u32 (w0 + c) = if w0 + c <? 2 ^ 32 then w0 + c else w0 + c - 2 ^ 32).
  { unfold uwrap. destruct (Z.ltb_spec (w0 + c) (2 ^ 32)); [apply Z.mod_small; lia|].
    symmetry. apply Z.mod_unique with 1; lia. }
  set (p := le_get (drop 4 iv)). destruct (Z.ltb_spec (u32 (w0 + c)) w0) as [Hlt|Hge];
    rewrite Hu in *; destruct (Z.ltb_spec (w0 + c) (2 ^ 32)); try lia.
  - unfold uwrap. rewrite <- Z.mul_mod_distr_l by lia. change (2 ^ 32 * 2 ^ 96) with (2 ^ 128).
    rewrite Zplus_mod_idemp_r. f_equal. lia.
  - f_equal. lia.
Qed.

(** ** Sealed packets *)

Lemma take_slice a n (l : list Z) : take (a + n) l = take a l ++ slice a n l.
Proof. unfold slice. by rewrite take_take_drop. Qed.

Lemma slice_app a n m (l : list Z) : slice a (n + m) l = slice a n l ++ slice (a + n) m l.
Proof. unfold slice. rewrite <- drop_drop. by rewrite take_take_drop. Qed.

Lemma take_blit_ge off n bs buf : (n <= off)%nat -> take n (blit off bs buf) = take n buf.
Proof.
  intros H. apply (slice_blit_disj 0 n off bs buf). lia.
Qed.

Lemma take_blit_0 bs buf : (length bs <= length buf)%nat -> take (length bs) (blit 0 bs buf) = bs.
Proof. intros H. apply (slice_blit 0 bs buf). lia. Qed.

(** The structures before they are set up: every word is written before it is
    read. *)
Definition stream0 : aes_data_stream_t := {| key := []; iv_ctr := []; aes_out := [] |}.
Definition omac0 : aes_omac1_state_t := {| data := stream0; hl1 := []; hl2 := [] |}.

(** The factory key: 16 bytes to authenticate, 16 to encrypt. *)
Definition factory_key (k : list Z) : Prop := length k = 32%nat /\ bytes k.

Definition the_stream (k iv : list Z) (counter : Z) : aes_data_stream_t :=
  aes_setupStream (drop ENC_KEY_OFFSET k) (add_counter iv counter) stream0.

Definition the_mic (k head map : list Z) : list Z := take PROV_MIC_SIZE (cmac (take 16 k) (head ++ map)).

(** The data and their code, encrypted. *)
Definition sealed (k iv : list Z) (counter : Z) (head map : list Z) : list Z :=
  (aes_crypto128Ctr (the_stream k iv counter) (map ++ the_mic k head map)).1.

Lemma the_stream_blocks k iv c : factory_key k -> block iv -> is_u32 c ->
  block (key (the_stream k iv c)) /\ block (iv_ctr (the_stream k iv c)).
Proof.
  intros [Hl Hb] Hi Hc. unfold the_stream, aes_setupStream. cbn [key iv_ctr].
  rewrite add_counter_spec by done. rewrite (take_ge (le_put 16 _)) by (rewrite length_le_put; lia).
  split; [|apply block_le_put]. split; [rewrite length_take, length_drop; unfold ENC_KEY_OFFSET; lia|].
  by apply Forall_take, Forall_drop.
Qed.

Lemma auth_key_block k : factory_key k -> block (take 16 k).
Proof. intros [Hl Hb]. split; [rewrite length_take; lia|by apply Forall_take]. Qed.

Lemma length_the_mic k head map : factory_key k -> bytes head -> bytes map -> head <> [] ->
  length (the_mic k head map) = PROV_MIC_SIZE.
Proof.
  intros Hk Hh Hm Hn. unfold the_mic. rewrite length_take.
  destruct (length_cmac (take 16 k) (head ++ map) (auth_key_block k Hk)) as [H _]; [|by apply Forall_app|by rewrite H].
  intros E. by apply app_nil in E as [-> _].
Qed.

Lemma sealed_spec k iv c head map : factory_key k -> block iv -> is_u32 c -> bytes head -> bytes map -> head <> [] ->
  length (sealed k iv c head map) = (length map + PROV_MIC_SIZE)%nat /\
  (aes_crypto128Ctr (the_stream k iv c) (sealed k iv c head map)).1 = map ++ the_mic k head map.
Proof.
  intros Hk Hi Hc Hh Hm Hn. destruct (the_stream_blocks k iv c Hk Hi Hc) as [Hb1 Hb2]. unfold sealed.
  destruct (crypto128Ctr_cancel _ _ (map ++ the_mic k head map) Hb1 Hb2 eq_refl eq_refl) as [H1 H2].
  split; [|done]. by rewrite H1, length_app, length_the_mic.
Qed.

(** Writing over the middle of a buffer. *)
Lemma blit_at l1 bs old l2 : length bs = length old -> blit (length l1) bs (l1 ++ old ++ l2) = l1 ++ bs ++ l2.
Proof.
  intros H. rewrite blit_app by (rewrite !length_app; lia). rewrite take_app_length. do 2 f_equal.
  rewrite drop_app_ge by lia. replace (length l1 + length bs - length l1)%nat with (length old) by lia.
  apply drop_app_length.
Qed.

Lemma split_list n (l : list Z) : (n <= length l)%nat -> exists l1 l2, l = l1 ++ l2 /\ length l1 = n.
Proof. intros H. exists (take n l), (drop n l). rewrite take_drop, length_take. split; [done|lia]. Qed.

(** The first nine bytes: header, key index and counter. *)
Definition data_head (address session_id key_index counter : Z) : list Z :=
  pdu_prov_hdr PROV_PACKET_TYPE_DATA address session_id ++ u8 key_index :: le_put 2 counter.

Lemma length_data_head a i k c : length (data_head a i k c) = PROV_DATA_OFFSET.
Proof. unfold data_head. rewrite length_app, length_pdu_prov_hdr. cbn [length]. by rewrite length_le_put. Qed.

Lemma data_head_bytes a i k c : bytes (data_head a i k c).
Proof.
  apply Forall_app. split; [apply pdu_prov_hdr_bytes|]. constructor; [apply u8_range|apply le_put_bytes].
Qed.
