(* ===== verification/ProvData.v ===== *)
(** * Provisioning data

    [libraries/provisioning/data.c]: the network parameters that a new node
    receives are entries of a CBOR map; they are decoded twice, first to check
    them ([dry_run]) and, once the acknowledgement is sent, to apply them.

    The CBOR parser is vendored code; it is the record [cbor] of functions over
    a type of iterators.  [Section Laws] states what its documentation promises
    of a well-formed map.  The settings library of the stack and the callbacks
    of the application are functions over a world [W]. *)

From S2P Require Import Prelude Api.

(** ** Codes *)

Inductive provisioning_ret_e :=
| PROV_RET_OK | PROV_RET_INVALID_STATE | PROV_RET_INVALID_PARAM | PROV_RET_INVALID_DATA
| PROV_RET_JOINING_LIB_ERROR | PROV_RET_INTERNAL_ERROR.

Inductive provisioning_res_e :=
| PROV_RES_SUCCESS | PROV_RES_TIMEOUT | PROV_RES_NACK | PROV_RES_INVALID_DATA | PROV_RES_INVALID_PACKET
| PROV_RES_ERROR_SENDING_DATA | PROV_RES_ERROR_SCANNING_BEACONS | PROV_RES_ERROR_JOINING
| PROV_RES_ERROR_NO_ROUTE | PROV_RES_STOPPED | PROV_RES_ERROR_INTERNAL.

#[export] Instance provisioning_ret_dec : EqDecision provisioning_ret_e.
Proof. solve_decision. Defined.
#[export] Instance provisioning_res_dec : EqDecision provisioning_res_e.
Proof. solve_decision. Defined.

Definition APP_LIB_SETTINGS_AES_KEY_NUM_BYTES : nat := 16.

Definition PROV_DATA_MIN_USER_ID : Z := 128.
Definition PROV_DATA_MAX_USER_ID : Z := 255.

Definition PROV_DATA_ID_ENC_KEY : Z := 0.
Definition PROV_DATA_ID_AUTH_KEY : Z := 1.
Definition PROV_DATA_ID_NET_ADDR : Z := 2.
Definition PROV_DATA_ID_NET_CHAN : Z := 3.
Definition PROV_DATA_ID_NODE_ADDR : Z := 4.
Definition PROV_DATA_ID_NODE_ROLE : Z := 5.

Definition MAX_STRING_BUFFER_SIZE : Z := 94.

Definition INVALID_NET_ADDR : Z := 0.
Definition INVALID_NET_CHAN : Z := 0.
Definition INVALID_NODE_ADDR : Z := 0.
Definition INVALID_NODE_ROLE : Z := 0xFF.

(** ** The parser *)

Inductive CborError :=
| CborNoError | CborErrorUnknownType | CborErrorIllegalType | CborErrorImproperValue | CborErrorTooFewItems
| CborErrorDataTooLarge | CborErrorOutOfMemory | CborErrorOther (code : Z).

Inductive CborType :=
| CborIntegerType | CborByteStringType | CborTextStringType | CborSimpleType | CborBooleanType
| CborDoubleType | CborFloatType | CborHalfFloatType | CborOtherType (code : Z).

(** A function that fills a buffer returns the bytes it wrote, one that fills
    a variable its new value. *)
Record cbor (V : Type) := {
  cbor_parser_init : list Z -> CborError * V;
  cbor_value_is_map : V -> bool;
  cbor_value_enter_container : V -> CborError * V;
  cbor_value_at_end : V -> bool;
  cbor_value_is_unsigned_integer : V -> bool;
  cbor_value_is_byte_string : V -> bool;
  cbor_value_get_type : V -> CborType;
  cbor_value_get_int_checked : V -> CborError * Z;
  cbor_value_get_uint64 : V -> CborError * Z;
  cbor_value_get_int64_checked : V -> CborError * Z;
  (** error, bytes written, length of the string *)
  cbor_value_copy_byte_string : V -> Z -> CborError * list Z * Z;
  cbor_value_copy_text_string : V -> Z -> CborError * list Z * Z;
  cbor_value_get_simple_type : V -> CborError * Z;
  cbor_value_get_boolean : V -> CborError * Z;
  cbor_value_get_double : V -> CborError * Z;
  cbor_value_get_float : V -> CborError * Z;
  cbor_value_get_half_float : V -> CborError * Z;
  cbor_value_advance_fixed : V -> CborError * V;
  cbor_value_advance : V -> CborError * V }.

Arguments cbor_parser_init {V}. Arguments cbor_value_is_map {V}. Arguments cbor_value_enter_container {V}.
Arguments cbor_value_at_end {V}. Arguments cbor_value_is_unsigned_integer {V}.
Arguments cbor_value_is_byte_string {V}. Arguments cbor_value_get_type {V}.
Arguments cbor_value_get_int_checked {V}. Arguments cbor_value_get_uint64 {V}.
Arguments cbor_value_get_int64_checked {V}. Arguments cbor_value_copy_byte_string {V}.
Arguments cbor_value_copy_text_string {V}. Arguments cbor_value_get_simple_type {V}.
Arguments cbor_value_get_boolean {V}. Arguments cbor_value_get_double {V}. Arguments cbor_value_get_float {V}.
Arguments cbor_value_get_half_float {V}. Arguments cbor_value_advance_fixed {V}. Arguments cbor_value_advance {V}.

(** ** State *)

Record m_provisioning_data_t := {
  enc_key : list Z;
  is_enc_key_set : bool;
  auth_key : list Z;
  is_auth_key_set : bool;
  net_addr : Z;
  net_chan : Z;
  node_addr : Z;
  node_role : Z }.

Definition set_enc_key k b d := {| enc_key := k; is_enc_key_set := b; auth_key := auth_key d;
  is_auth_key_set := is_auth_key_set d; net_addr := net_addr d; net_chan := net_chan d; node_addr := node_addr d;
  node_role := node_role d |}.
Definition set_auth_key k b d := {| enc_key := enc_key d; is_enc_key_set := is_enc_key_set d; auth_key := k;
  is_auth_key_set := b; net_addr := net_addr d; net_chan := net_chan d; node_addr := node_addr d;
  node_role := node_role d |}.
Definition set_net_addr x d := {| enc_key := enc_key d; is_enc_key_set := is_enc_key_set d; auth_key := auth_key d;
  is_auth_key_set := is_auth_key_set d; net_addr := x; net_chan := net_chan d; node_addr := node_addr d;
  node_role := node_role d |}.
Definition set_net_chan x d := {| enc_key := enc_key d; is_enc_key_set := is_enc_key_set d; auth_key := auth_key d;
  is_auth_key_set := is_auth_key_set d; net_addr := net_addr d; net_chan := x; node_addr := node_addr d;
  node_role := node_role d |}.
Definition set_node_addr x d := {| enc_key := enc_key d; is_enc_key_set := is_enc_key_set d; auth_key := auth_key d;
  is_auth_key_set := is_auth_key_set d; net_addr := net_addr d; net_chan := net_chan d; node_addr := x;
  node_role := node_role d |}.
Definition set_node_role x d := {| enc_key := enc_key d; is_enc_key_set := is_enc_key_set d; auth_key := auth_key d;
  is_auth_key_set := is_auth_key_set d; net_addr := net_addr d; net_chan := net_chan d; node_addr := node_addr d;
  node_role := x |}.

(** ** Operations *)

Section Data.
Context {V W : Type} (C : cbor V).

Record env := {
  isValidNetworkAddress : Z -> bool;
  isValidNetworkChannel : Z -> bool;
  isValidNodeAddress : Z -> bool;
  isValidNodeRole : Z -> bool;
  setAuthenticationKey : list Z -> W -> W;
  setEncryptionKey : list Z -> W -> W;
  setNetworkAddress : Z -> W -> W;
  setNetworkChannel : Z -> W -> W;
  setNodeAddress : Z -> W -> W;
  setNodeRole : Z -> W -> W;
  (** register [apply_network_parameters] (or nothing) for the shutdown *)
  setShutdownCb : bool -> W -> W;
  stopStack : W -> W;
  (** the value of [2 << n] where C does not define it *)
  undefined_shift : Z -> Z }.

(** The callbacks of a [provisioning_data_conf_t]. *)
Abbreviation end_cb_f := (provisioning_res_e -> W -> bool * W).
Abbreviation user_data_cb_f := (Z -> CborType -> list Z -> Z -> W -> W).

Record provisioning_data_conf_t := {
  conf_end_cb : option end_cb_f;
  conf_user_data_cb : option user_data_cb_f;
  conf_buffer : option (list Z);
  conf_length : Z }.

Record state := { m_provisioning_data : m_provisioning_data_t; world : W }.

Abbreviation M := (sf state).

Definition on_data {A} (f : m_provisioning_data_t -> A * m_provisioning_data_t) : M A :=
  fun s => let '(x, d) := f (m_provisioning_data s) in Some (x, {| m_provisioning_data := d; world := world s |}).
Definition on_world {A} (f : W -> A * W) : M A :=
  fun s => let '(x, w) := f (world s) in Some (x, {| m_provisioning_data := m_provisioning_data s; world := w |}).
Definition in_world (f : W -> W) : M unit := on_world (fun w => (tt, f w)).

Definition extract_byte_string (value : V) (buflen : Z) : CborError * list Z * Z :=
  if negb (cbor_value_is_byte_string C value) then (CborErrorIllegalType, [], buflen)
  else cbor_value_copy_byte_string C value buflen.

(** [2 << n] is an [int]. *)
Definition two_shl (E : env) (n : Z) : Z := if n <? 30 then Z.shiftl 2 n else undefined_shift E n.

(** The new value of a variable of [size] bytes. *)
Definition extract_unsigned_int (E : env) (value : V) (old size : Z) : CborError * Z :=
  if negb (cbor_value_is_unsigned_integer C value) then (CborErrorIllegalType, old)
  else
    let '(err, val) := cbor_value_get_uint64 C value in
    match err with
    | CborNoError =>
        if size =? 8 then (CborNoError, val)
        else if size =? 0 then (CborErrorDataTooLarge, old)
        else if (8 <? size) || (uwrap 64 (two_shl E (size * 8) - 1) <? val) then (CborErrorDataTooLarge, old)
        else (CborNoError, uwrap (8 * size) val)
    | err => (err, old)
    end.

Definition key_len : Z := Z.of_nat APP_LIB_SETTINGS_AES_KEY_NUM_BYTES.

Definition parse_enc_key (value : V) (d : m_provisioning_data_t) : CborError * m_provisioning_data_t :=
  let '(err, bs, len) := extract_byte_string value key_len in
  let k := blit 0 bs (enc_key d) in
  match err with
  | CborNoError =>
      if negb (len =? key_len) then (CborErrorImproperValue, set_enc_key k (is_enc_key_set d) d)
      else (CborNoError, set_enc_key k true d)
  | err => (err, set_enc_key k (is_enc_key_set d) d)
  end.

Definition parse_auth_key (value : V) (d : m_provisioning_data_t) : CborError * m_provisioning_data_t :=
  let '(err, bs, len) := extract_byte_string value key_len in
  let k := blit 0 bs (auth_key d) in
  match err with
  | CborNoError =>
      if negb (len =? key_len) then (CborErrorImproperValue, set_auth_key k (is_auth_key_set d) d)
      else (CborNoError, set_auth_key k true d)
  | err => (err, set_auth_key k (is_auth_key_set d) d)
  end.

Definition parse_net_address (E : env) (value : V) (d : m_provisioning_data_t) : CborError * m_provisioning_data_t :=
  let '(err, x) := extract_unsigned_int E value (net_addr d) 4 in
  match err with
  | CborNoError =>
      if negb (isValidNetworkAddress E x) then (CborErrorImproperValue, set_net_addr INVALID_NET_ADDR d)
      else (CborNoError, set_net_addr x d)
  | err => (err, set_net_addr x d)
  end.

Definition parse_net_channel (E : env) (value : V) (d : m_provisioning_data_t) : CborError * m_provisioning_data_t :=
  let '(err, x) := extract_unsigned_int E value (net_chan d) 1 in
  match err with
  | CborNoError =>
      if negb (isValidNetworkChannel E x) then (CborErrorImproperValue, set_net_chan INVALID_NET_CHAN d)
      else (CborNoError, set_net_chan x d)
  | err => (err, set_net_chan x d)
  end.

Definition parse_node_address (E : env) (value : V) (d : m_provisioning_data_t) : CborError * m_provisioning_data_t :=
  let '(err, x) := extract_unsigned_int E value (node_addr d) 4 in
  match err with
  | CborNoError =>
      if negb (isValidNodeAddress E x) then (CborErrorImproperValue, set_node_addr INVALID_NODE_ADDR d)
      else (CborNoError, set_node_addr x d)
  | err => (err, set_node_addr x d)
  end.

(** The role is a byte string of one byte. *)
Definition parse_node_role (E : env) (value : V) (d : m_provisioning_data_t) : CborError * m_provisioning_data_t :=
  let '(err, bs, len) := extract_byte_string value 1 in
  let role := match bs with b :: _ => b | [] => node_role d end in
  match err with
  | CborNoError =>
      if negb (len =? 1) || negb (isValidNodeRole E role)
      then (CborErrorImproperValue, set_node_role INVALID_NODE_ROLE d)
      else (CborNoError, set_node_role role d)
  | err => (err, set_node_role role d)
  end.

Definition parse_wirepas_data (E : env) (value : V) (id : Z) (d : m_provisioning_data_t)
    : CborError * m_provisioning_data_t :=
  if id =? PROV_DATA_ID_ENC_KEY then parse_enc_key value d
  else if id =? PROV_DATA_ID_AUTH_KEY then parse_auth_key value d
  else if id =? PROV_DATA_ID_NET_ADDR then parse_net_address E value d
  else if id =? PROV_DATA_ID_NET_CHAN then parse_net_channel E value d
  else if id =? PROV_DATA_ID_NODE_ADDR then parse_node_address E value d
  else if id =? PROV_DATA_ID_NODE_ROLE then parse_node_role E value d
  else (CborErrorImproperValue, d).

(** The error, the bytes in the buffer and their number. *)
Definition user_value (value : V) : CborError * list Z * Z :=
  let number n r := (fst r, le_put n (snd r), Z.of_nat n) in
  match cbor_value_get_type C value with
  | CborIntegerType => number 8%nat (cbor_value_get_int64_checked C value)
  | CborByteStringType => cbor_value_copy_byte_string C value MAX_STRING_BUFFER_SIZE
  | CborTextStringType => cbor_value_copy_text_string C value MAX_STRING_BUFFER_SIZE
  | CborSimpleType => number 1%nat (cbor_value_get_simple_type C value)
  | CborBooleanType => number 1%nat (cbor_value_get_boolean C value)
  | CborDoubleType => number 8%nat (cbor_value_get_double C value)
  | CborFloatType => number 4%nat (cbor_value_get_float C value)
  | CborHalfFloatType => number 2%nat (cbor_value_get_half_float C value)
  | CborOtherType _ => (CborErrorUnknownType, [], 0)
  end.

Definition parse_user_data (value : V) (id : Z) (cb : option user_data_cb_f) : M CborError :=
  let '(err, bs, len) := user_value value in
  match err with
  | CborNoError =>
      _ ← match cb with
          | Some cb => in_world (cb id (cbor_value_get_type C value) bs (u8 len))
          | None => mret tt
          end;
      mret CborNoError
  | err => mret err
  end.

Fixpoint map_loop (E : env) (cb : option user_data_cb_f) (fuel : nat) (value : V) : M CborError :=
  match fuel with
  | O => fault
  | S fuel =>
      if cbor_value_at_end C value then mret CborNoError
      else if negb (cbor_value_is_unsigned_integer C value) then mret CborErrorIllegalType
      else
        match cbor_value_get_int_checked C value with
        | (CborNoError, id) =>
            match cbor_value_advance_fixed C value with
            | (CborNoError, value) =>
                err ← (if id <=? PROV_DATA_ID_NODE_ROLE then on_data (parse_wirepas_data E value id)
                       else if (PROV_DATA_MIN_USER_ID <=? id) && (id <=? PROV_DATA_MAX_USER_ID)
                       then parse_user_data value id cb
                       else mret CborErrorImproperValue);
                match err with
                | CborNoError =>
                    match cbor_value_advance C value with
                    | (CborNoError, value) => map_loop E cb fuel value
                    | (err, _) => mret err
                    end
                | err => mret err
                end
            | (err, _) => mret err
            end
        | (err, _) => mret err
        end
  end.

Definition invalid_data (d : m_provisioning_data_t) : m_provisioning_data_t :=
  {| enc_key := enc_key d; is_enc_key_set := false; auth_key := auth_key d; is_auth_key_set := false;
     net_addr := INVALID_NET_ADDR; net_chan := INVALID_NET_CHAN; node_addr := INVALID_NODE_ADDR;
     node_role := INVALID_NODE_ROLE |}.

(** The mandatory entries. *)
Definition complete (d : m_provisioning_data_t) : bool :=
  is_enc_key_set d && is_auth_key_set d && negb (net_addr d =? INVALID_NET_ADDR) &&
  negb (net_chan d =? INVALID_NET_CHAN).

Definition parse_map (E : env) (fuel : nat) (value : V) (cb : option user_data_cb_f) : M CborError :=
  _ ← on_data (fun d => (tt, invalid_data d));
  err ← map_loop E cb fuel value;
  match err with
  | CborNoError =>
      d ← asks m_provisioning_data;
      mret (if negb (complete d) then CborErrorTooFewItems else CborNoError)
  | err => mret err
  end.

(** The shutdown callback. *)
Definition apply_network_parameters (E : env) : M unit :=
  d ← asks m_provisioning_data;
  _ ← in_world (setAuthenticationKey E (auth_key d));
  _ ← in_world (setEncryptionKey E (enc_key d));
  _ ← (if negb (net_addr d =? INVALID_NET_ADDR) then in_world (setNetworkAddress E (net_addr d)) else mret tt);
  _ ← (if negb (net_chan d =? INVALID_NET_CHAN) then in_world (setNetworkChannel E (net_chan d)) else mret tt);
  _ ← (if negb (node_addr d =? INVALID_NODE_ADDR) then in_world (setNodeAddress E (node_addr d)) else mret tt);
  if negb (node_role d =? INVALID_NODE_ROLE) then in_world (setNodeRole E (node_role d)) else mret tt.

(** The parser may read as far as it is told: a length beyond the buffer is a
    fault. *)
Definition Provisioning_Data_decode (E : env) (fuel : nat) (conf : provisioning_data_conf_t) (dry_run : bool)
    : M provisioning_ret_e :=
  match conf_buffer conf with
  | None => mret PROV_RET_INVALID_PARAM
  | Some buffer =>
      if conf_length conf =? 0 then mret PROV_RET_INVALID_PARAM
      else if Z.of_nat (length buffer) <? conf_length conf then fault
      else
        match cbor_parser_init C (take (Z.to_nat (conf_length conf)) buffer) with
        | (CborNoError, value) =>
            if negb (cbor_value_is_map C value) then mret PROV_RET_INVALID_DATA
            else
              match cbor_value_enter_container C value with
              | (CborNoError, map) =>
                  err ← parse_map E fuel map (if dry_run then None else conf_user_data_cb conf);
                  match err with
                  | CborNoError =>
                      if dry_run then mret PROV_RET_OK
                      else
                        match conf_end_cb conf with
                        | None => mret PROV_RET_OK
                        | Some cb =>
                            apply ← on_world (cb PROV_RES_SUCCESS);
                            _ ← (if (apply : bool) then
                                   _ ← in_world (setShutdownCb E true); in_world (stopStack E)
                                 else mret tt);
                            mret PROV_RET_OK
                        end
                  | _ => mret PROV_RET_INVALID_DATA
                  end
              | _ => mret PROV_RET_INVALID_DATA
              end
        | _ => mret PROV_RET_INVALID_DATA
        end
  end.

End Data.
Arguments env : clear implicits.
Arguments state : clear implicits.
Arguments provisioning_data_conf_t : clear implicits.

(** * Properties *)

(** ** What the map says *)

Inductive item :=
| Uint (n : Z)
| Bytes (bs : list Z)
| Other (t : CborType) (err : CborError) (bs : list Z) (len : Z).

Abbreviation document := (list (Z * item)).

Section Laws.
Context {V : Type} (C : cbor V).

(** An iterator at a key with the rest of the map, and at a value. *)
Class CborMap (at_key : V -> document -> Prop) (at_value : V -> item -> document -> Prop) : Prop := {
  at_key_end v : at_key v [] -> cbor_value_at_end C v = true;
  at_key_id v id x doc : at_key v ((id, x) :: doc) ->
    cbor_value_at_end C v = false /\ cbor_value_is_unsigned_integer C v = true /\
    cbor_value_get_int_checked C v = (CborNoError, id) /\
    exists v', cbor_value_advance_fixed C v = (CborNoError, v') /\ at_value v' x doc;
  at_value_next v x doc : at_value v x doc ->
    exists v', cbor_value_advance C v = (CborNoError, v') /\ at_key v' doc;
  at_value_uint v n doc : at_value v (Uint n) doc ->
    cbor_value_is_byte_string C v = false /\ cbor_value_is_unsigned_integer C v = true /\
    cbor_value_get_uint64 C v = (CborNoError, n) /\ cbor_value_get_type C v = CborIntegerType /\
    cbor_value_get_int64_checked C v = (if n <? 2 ^ 63 then CborNoError else CborErrorDataTooLarge, n);
  at_value_bytes v bs doc : at_value v (Bytes bs) doc ->
    cbor_value_is_byte_string C v = true /\ cbor_value_is_unsigned_integer C v = false /\
    cbor_value_get_type C v = CborByteStringType /\
    forall n, cbor_value_copy_byte_string C v n =
      if Z.of_nat (length bs) <=? n then (CborNoError, bs, Z.of_nat (length bs))
      else (CborErrorOutOfMemory, [], Z.of_nat (length bs));
  at_value_other v t err bs len doc : at_value v (Other t err bs len) doc ->
    cbor_value_is_byte_string C v = false /\ cbor_value_is_unsigned_integer C v = false /\
    cbor_value_get_type C v = t /\ user_value C v = (err, bs, len) }.

(** [bytes] encode the map [doc]. *)
Definition encodes (at_key : V -> document -> Prop) (bytes : list Z) (doc : document) : Prop :=
  exists v m, cbor_parser_init C bytes = (CborNoError, v) /\ cbor_value_is_map C v = true /\
    cbor_value_enter_container C v = (CborNoError, m) /\ at_key m doc.

End Laws.

(** ** What is accepted *)

Definition no_error (e : CborError) : bool := match e with CborNoError => true | _ => false end.

Section Spec.
Context {W : Type} (E : env W).

(** The largest number that is not refused for a variable of [size] bytes. *)
Definition limit (size : Z) : Z := uwrap 64 (two_shl E (size * 8) - 1).

Definition entry_ok (e : Z * item) : bool :=
  let '(id, x) := e in
  if (id =? 0) || (id =? 1) then match x with Bytes bs => Z.of_nat (length bs) =? 16 | _ => false end
  else if id =? 2 then match x with Uint n => (n <=? limit 4) && isValidNetworkAddress E (u32 n) | _ => false end
  else if id =? 3 then match x with Uint n => (n <=? limit 1) && isValidNetworkChannel E (u8 n) | _ => false end
  else if id =? 4 then match x with Uint n => (n <=? limit 4) && isValidNodeAddress E (u32 n) | _ => false end
  else if id =? 5 then match x with Bytes [b] => isValidNodeRole E b | _ => false end
  else if (128 <=? id) && (id <=? 255) then
    match x with
    | Uint n => n <? 2 ^ 63
    | Bytes bs => Z.of_nat (length bs) <=? 94
    | Other _ err _ _ => no_error err
    end
  else false.

(** The last value given for an identifier. *)
Fixpoint last_of (id : Z) (doc : document) : option item :=
  match doc with
  | [] => None
  | (i, x) :: doc => match last_of id doc with Some y => Some y | None => if i =? id then Some x else None end
  end.

Definition bytes_of (x : option item) : list Z := match x with Some (Bytes bs) => bs | _ => [] end.
Definition uint_of (w : Z) (x : option item) : Z := match x with Some (Uint n) => uwrap w n | _ => 0 end.
Definition role_of (x : option item) : Z := match x with Some (Bytes (b :: _)) => b | _ => INVALID_NODE_ROLE end.

Definition has (id : Z) (doc : document) : bool := match last_of id doc with Some _ => true | None => false end.

(** Every entry is well formed, and keys, address and channel are there. *)
Definition accepted (doc : document) : bool :=
  forallb entry_ok doc && has 0 doc && has 1 doc && negb (uint_of 32 (last_of 2 doc) =? 0) &&
  negb (uint_of 8 (last_of 3 doc) =? 0).

(** The user callback is called for the user entries, in order. *)
Definition user_entry (cb : option (Z -> CborType -> list Z -> Z -> W -> W)) (w : W) (e : Z * item) : W :=
  match cb with
  | Some cb =>
      if 128 <=? e.1 then
        match e.2 with
        | Uint n => cb e.1 CborIntegerType (le_put 8 n) 8 w
        | Bytes bs => cb e.1 CborByteStringType bs (u8 (Z.of_nat (length bs))) w
        | Other t _ bs len => cb e.1 t bs (u8 len) w
        end
      else w
  | None => w
  end.

End Spec.

Record holds (d0 : m_provisioning_data_t) (doc : document) (d : m_provisioning_data_t) : Prop := {
  holds_enc : is_enc_key_set d = has 0 doc /\ (has 0 doc = true -> enc_key d = bytes_of (last_of 0 doc));
  holds_auth : is_auth_key_set d = has 1 doc /\ (has 1 doc = true -> auth_key d = bytes_of (last_of 1 doc));
  holds_net_addr : net_addr d = uint_of 32 (last_of 2 doc);
  holds_net_chan : net_chan d = uint_of 8 (last_of 3 doc);
  holds_node_addr : node_addr d = uint_of 32 (last_of 4 doc);
  holds_node_role : node_role d = role_of (last_of 5 doc);
  holds_size : length (enc_key d) = length (enc_key d0) /\ length (auth_key d) = length (auth_key d0) }.

Definition entry_set (e : Z * item) (d : m_provisioning_data_t) : m_provisioning_data_t :=
  let '(id, x) := e in
  if id =? 0 then set_enc_key (bytes_of (Some x)) true d
  else if id =? 1 then set_auth_key (bytes_of (Some x)) true d
  else if id =? 2 then set_net_addr (uint_of 32 (Some x)) d
  else if id =? 3 then set_net_chan (uint_of 8 (Some x)) d
  else if id =? 4 then set_node_addr (uint_of 32 (Some x)) d
  else if id =? 5 then set_node_role (role_of (Some x)) d
  else d.

Definition sized (d : m_provisioning_data_t) : Prop := length (enc_key d) = 16%nat /\ length (auth_key d) = 16%nat.

Lemma blit_all bs k : length bs = length k -> blit 0 bs k = bs.
Proof.
  intros H. rewrite blit_app by lia. rewrite take_0, drop_ge by lia. by rewrite app_nil_r.
Qed.

Section Parse.
Context {V W : Type} (C : cbor V) (E : env W) at_key at_value `{CM : !CborMap C at_key at_value}.

Lemma extract_uint v n doc old size : at_value v (Uint n) doc -> 0 < size < 8 ->
  extract_unsigned_int C E v old size =
  if n <=? limit E size then (CborNoError, uwrap (8 * size) n) else (CborErrorDataTooLarge, old).
Proof.
  intros H Hs. destruct (at_value_uint C _ _ _ H) as (_ & H2 & H3 & _). unfold extract_unsigned_int.
  rewrite H2, H3. cbn [negb]. rewrite (proj2 (Z.eqb_neq size 8)), (proj2 (Z.eqb_neq size 0)) by lia.
  rewrite (proj2 (Z.ltb_ge 8 size)) by lia. cbn [orb]. fold (limit E size).
  destruct (Z.leb_spec n (limit E size)); [rewrite (proj2 (Z.ltb_ge _ _)) by lia|rewrite (proj2 (Z.ltb_lt _ _)) by lia];
    done.
Qed.

(** Anything that is not an unsigned number, or not a byte string, is refused. *)
Lemma extract_not_uint v x doc old size : at_value v x doc -> (forall n, x <> Uint n) ->
  extract_unsigned_int C E v old size = (CborErrorIllegalType, old).
Proof.
  intros H Hx. unfold extract_unsigned_int. destruct x as [n|bs|t e bs len]; [by destruct (Hx n)| |].
  - by rewrite (proj1 (proj2 (at_value_bytes C _ _ _ H))).
  - by rewrite (proj1 (proj2 (at_value_other C _ _ _ _ _ _ H))).
Qed.

Lemma extract_bytes v bs doc n : at_value v (Bytes bs) doc ->
  extract_byte_string C v n = if Z.of_nat (length bs) <=? n then (CborNoError, bs, Z.of_nat (length bs))
                              else (CborErrorOutOfMemory, [], Z.of_nat (length bs)).
Proof.
  intros H. destruct (at_value_bytes C _ _ _ H) as (H1 & _ & _ & H4). unfold extract_byte_string. by rewrite H1, H4.
Qed.

Lemma extract_not_bytes v x doc n : at_value v x doc -> (forall bs, x <> Bytes bs) ->
  extract_byte_string C v n = (CborErrorIllegalType, [], n).
Proof.
  intros H Hx. unfold extract_byte_string. destruct x as [k|bs|t e bs len]; [|by destruct (Hx bs)|].
  - by rewrite (proj1 (at_value_uint C _ _ _ H)).
  - by rewrite (proj1 (at_value_other C _ _ _ _ _ _ H)).
Qed.

Lemma parse_key_spec v x doc : at_value v x doc ->
  forall d, sized d ->
  (if entry_ok E (0, x) then parse_enc_key C v d = (CborNoError, entry_set (0, x) d)
   else no_error (parse_enc_key C v d).1 = false) /\
  (if entry_ok E (1, x) then parse_auth_key C v d = (CborNoError, entry_set (1, x) d)
   else no_error (parse_auth_key C v d).1 = false).
Proof.
  intros H d [Hk1 Hk2]. unfold parse_enc_key, parse_auth_key. change key_len with 16. destruct x as [n|bs|t e bs len].
  - by rewrite (extract_not_bytes _ _ _ _ H).
  - rewrite (extract_bytes _ _ _ _ H). cbn [entry_ok Z.eqb orb]. cbn.
    destruct (Z.leb_spec (Z.of_nat (length bs)) 16); cbn; [|by rewrite (proj2 (Z.eqb_neq _ 16)) by lia].
    destruct (Z.eqb_spec (Z.of_nat (length bs)) 16); cbn; [|done]. rewrite !blit_all by lia. done.
  - by rewrite (extract_not_bytes _ _ _ _ H).
Qed.

Lemma parse_net_address_spec v x doc d : at_value v x doc ->
  if entry_ok E (2, x) then parse_net_address C E v d = (CborNoError, entry_set (2, x) d)
  else no_error (parse_net_address C E v d).1 = false.
Proof.
  intros H. unfold parse_net_address. destruct x as [n|bs|t e bs len]; cbn [entry_ok].
  - rewrite (extract_uint _ _ _ _ _ H) by lia. cbn. destruct (n <=? limit E 4); cbn; [|done].
    by destruct (isValidNetworkAddress E _).
  - by rewrite (extract_not_uint _ _ _ _ _ H).
  - by rewrite (extract_not_uint _ _ _ _ _ H).
Qed.

Lemma parse_net_channel_spec v x doc d : at_value v x doc ->
  if entry_ok E (3, x) then parse_net_channel C E v d = (CborNoError, entry_set (3, x) d)
  else no_error (parse_net_channel C E v d).1 = false.
Proof.
  intros H. unfold parse_net_channel. destruct x as [n|bs|t e bs len]; cbn [entry_ok].
  - rewrite (extract_uint _ _ _ _ _ H) by lia. cbn. destruct (n <=? limit E 1); cbn; [|done].
    by destruct (isValidNetworkChannel E _).
  - by rewrite (extract_not_uint _ _ _ _ _ H).
  - by rewrite (extract_not_uint _ _ _ _ _ H).
Qed.

Lemma parse_node_address_spec v x doc d : at_value v x doc ->
  if entry_ok E (4, x) then parse_node_address C E v d = (CborNoError, entry_set (4, x) d)
  else no_error (parse_node_address C E v d).1 = false.
Proof.
  intros H. unfold parse_node_address. destruct x as [n|bs|t e bs len]; cbn [entry_ok].
  - rewrite (extract_uint _ _ _ _ _ H) by lia. cbn. destruct (n <=? limit E 4); cbn; [|done].
    by destruct (isValidNodeAddress E _).
  - by rewrite (extract_not_uint _ _ _ _ _ H).
  - by rewrite (extract_not_uint _ _ _ _ _ H).
Qed.

Lemma parse_node_role_spec v x doc d : at_value v x doc ->
  if entry_ok E (5, x) then parse_node_role C E v d = (CborNoError, entry_set (5, x) d)
  else no_error (parse_node_role C E v d).1 = false.
Proof.
  intros H. unfold parse_node_role. destruct x as [n|bs|t e bs len]; cbn [entry_ok].
  - by rewrite (extract_not_bytes _ _ _ _ H).
  - rewrite (extract_bytes _ _ _ _ H). destruct bs as [|b [|b' bs]]; [done| |].
    2:{ rewrite (proj2 (Z.leb_gt _ 1)) by (cbn [length]; lia). done. }
    change (Z.of_nat (length [b])) with 1. change (1 <=? 1) with true. change (1 =? 1) with true. cbn [negb orb].
    by destruct (isValidNodeRole E b).
  - by rewrite (extract_not_bytes _ _ _ _ H).
Qed.

(** A Wirepas entry is stored when it is well formed, else it is an error. *)
Lemma parse_wirepas_spec v id x doc d : at_value v x doc -> id <= 5 -> sized d ->
  if entry_ok E (id, x) then parse_wirepas_data C E v id d = (CborNoError, entry_set (id, x) d)
  else no_error (parse_wirepas_data C E v id d).1 = false.
Proof.
  intros H Hid Hd. unfold parse_wirepas_data.
  destruct (parse_key_spec v x doc H d Hd) as [H0 H1].
  destruct (Z.eqb_spec id PROV_DATA_ID_ENC_KEY) as [->|]; [exact H0|].
  destruct (Z.eqb_spec id PROV_DATA_ID_AUTH_KEY) as [->|]; [exact H1|].
  destruct (Z.eqb_spec id PROV_DATA_ID_NET_ADDR) as [->|]; [by eapply parse_net_address_spec|].
  destruct (Z.eqb_spec id PROV_DATA_ID_NET_CHAN) as [->|]; [by eapply parse_net_channel_spec|].
  destruct (Z.eqb_spec id PROV_DATA_ID_NODE_ADDR) as [->|]; [by eapply parse_node_address_spec|].
  destruct (Z.eqb_spec id PROV_DATA_ID_NODE_ROLE) as [->|]; [by eapply parse_node_role_spec|].
  unfold PROV_DATA_ID_ENC_KEY, PROV_DATA_ID_AUTH_KEY, PROV_DATA_ID_NET_ADDR, PROV_DATA_ID_NET_CHAN,
    PROV_DATA_ID_NODE_ADDR, PROV_DATA_ID_NODE_ROLE in *.
  unfold entry_ok. repeat (rewrite (proj2 (Z.eqb_neq id _)) by lia). cbn [orb].
  by rewrite (proj2 (Z.leb_gt 128 id)) by lia.
Qed.

Lemma parse_user_spec v id x doc cb (s : state W) : at_value v x doc -> 128 <= id <= 255 ->
  if entry_ok E (id, x)
  then parse_user_data C v id cb s = Some (CborNoError,
         {| m_provisioning_data := m_provisioning_data s; world := user_entry cb (world s) (id, x) |})
  else exists err, no_error err = false /\ parse_user_data C v id cb s = Some (err, s).
Proof.
  intros H Hid. unfold entry_ok. repeat (rewrite (proj2 (Z.eqb_neq id _)) by lia). cbn [orb].
  rewrite (proj2 (Z.leb_le 128 id)), (proj2 (Z.leb_le id 255)) by lia. cbn [andb].
  unfold parse_user_data, user_entry. cbn [fst snd]. rewrite (proj2 (Z.leb_le 128 id)) by lia.
  destruct x as [n|bs|t e bs len].
  - destruct (at_value_uint C _ _ _ H) as (_ & _ & _ & H4 & H5). unfold user_value. rewrite H4, H5.
    destruct (n <? 2 ^ 63); cbn [fst snd]; [|by exists CborErrorDataTooLarge].
    destruct cb; [done|by destruct s].
  - destruct (at_value_bytes C _ _ _ H) as (_ & _ & H3 & H4). unfold user_value. rewrite H3, H4.
    unfold MAX_STRING_BUFFER_SIZE.
    destruct (Z.of_nat (length bs) <=? 94); [|by exists CborErrorOutOfMemory].
    destruct cb; [done|by destruct s].
  - destruct (at_value_other C _ _ _ _ _ _ H) as (_ & _ & H3 & H4). rewrite H4, H3.
    destruct e; try (eexists; split; [|reflexivity]; done). destruct cb; [done|by destruct s].
Qed.

Lemma entry_set_sized e d : entry_ok E e = true -> sized d -> sized (entry_set e d).
Proof.
  destruct e as [id x]. unfold entry_ok, entry_set, sized. intros H [Hk1 Hk2].
  destruct (Z.eqb_spec id 0) as [->|].
  { cbn in H. destruct x; try done. apply Z.eqb_eq in H. cbn. split; [lia|done]. }
  destruct (Z.eqb_spec id 1) as [->|].
  { cbn in H. destruct x; try done. apply Z.eqb_eq in H. cbn. split; [done|lia]. }
  repeat (destruct (id =? _); [done|]). done.
Qed.

(** One entry that is well formed. *)
Lemma map_loop_ok cb v id x doc d w : at_key v ((id, x) :: doc) -> sized d -> entry_ok E (id, x) = true ->
  exists v', at_key v' doc /\ forall fuel,
    map_loop C E cb (S fuel) v {| m_provisioning_data := d; world := w |} =
    map_loop C E cb fuel v' {| m_provisioning_data := entry_set (id, x) d; world := user_entry cb w (id, x) |}.
Proof.
  intros H Hd Hok. destruct (at_key_id C _ _ _ _ H) as (H1 & H2 & H3 & v1 & H4 & H5).
  destruct (at_value_next C _ _ _ H5) as (v2 & H6 & H7). exists v2. split; [done|]. intros fuel.
  cbn [map_loop]. rewrite H1, H2, H3, H4. cbn [negb]. change PROV_DATA_ID_NODE_ROLE with 5.
  destruct (Z.leb_spec id 5) as [Hid|Hid].
  - pose proof (parse_wirepas_spec v1 id x doc d H5 Hid Hd) as Hp. rewrite Hok in Hp.
    unfold mbind at 1, sf_bind. unfold on_data. cbn [m_provisioning_data world]. rewrite Hp, H6.
    unfold user_entry. cbn [fst snd]. rewrite (proj2 (Z.leb_gt 128 id)) by lia. by destruct cb.
  - assert (Hu : 128 <= id <= 255).
    { unfold entry_ok in Hok. repeat (rewrite (proj2 (Z.eqb_neq id _)) in Hok by lia). cbn [orb] in Hok.
      destruct (Z.leb_spec 128 id), (Z.leb_spec id 255); done. }
    unfold PROV_DATA_MIN_USER_ID, PROV_DATA_MAX_USER_ID.
    rewrite (proj2 (Z.leb_le 128 id)), (proj2 (Z.leb_le id 255)) by lia. cbn [andb].
    pose proof (parse_user_spec v1 id x doc cb {| m_provisioning_data := d; world := w |} H5 Hu) as Hp. rewrite Hok in Hp.
    rewrite (sf_bindE _ _ _ _ _ Hp), H6. cbn [m_provisioning_data world].
    f_equal. unfold entry_set. by repeat (rewrite (proj2 (Z.eqb_neq id _)) by lia).
Qed.

Lemma parse_wirepas_sized v id d : sized d -> sized (parse_wirepas_data C E v id d).2.
Proof.
  intros [H1 H2]. unfold parse_wirepas_data, sized.
  destruct (id =? _); [unfold parse_enc_key|destruct (id =? _); [unfold parse_auth_key|destruct (id =? _);
    [unfold parse_net_address|destruct (id =? _); [unfold parse_net_channel|destruct (id =? _);
    [unfold parse_node_address|destruct (id =? _); [unfold parse_node_role|done]]]]]].
  all: match goal with
    | |- context [extract_byte_string ?c ?v ?n] => destruct (extract_byte_string c v n) as [[[] ?] ?]
    | |- context [extract_unsigned_int ?c ?e ?v ?o ?n] => destruct (extract_unsigned_int c e v o n) as [[] ?]
    end; repeat case_match;
    cbn [snd enc_key auth_key set_enc_key set_auth_key set_net_addr set_net_chan set_node_addr set_node_role];
    rewrite ?length_blit; done.
Qed.

(** One entry that is not: the map is refused. *)
Lemma map_loop_bad cb v id x doc d w fuel : at_key v ((id, x) :: doc) -> sized d -> entry_ok E (id, x) = false ->
  exists err d', no_error err = false /\ sized d' /\
    map_loop C E cb (S fuel) v {| m_provisioning_data := d; world := w |} =
    Some (err, {| m_provisioning_data := d'; world := w |}).
Proof.
  intros H Hd Hok. destruct (at_key_id C _ _ _ _ H) as (H1 & H2 & H3 & v1 & H4 & H5).
  cbn [map_loop]. rewrite H1, H2, H3, H4. cbn [negb]. change PROV_DATA_ID_NODE_ROLE with 5.
  destruct (Z.leb_spec id 5) as [Hid|Hid].
  - pose proof (parse_wirepas_spec v1 id x doc d H5 Hid Hd) as Hp. rewrite Hok in Hp.
    pose proof (parse_wirepas_sized v1 id d Hd) as Hs.
    destruct (parse_wirepas_data C E v1 id d) as [err d'] eqn:He. exists err, d'. split_and!; [done|done|].
    erewrite sf_bindE by (unfold on_data; cbn [m_provisioning_data world]; by rewrite He). by destruct err.
  - unfold PROV_DATA_MIN_USER_ID, PROV_DATA_MAX_USER_ID.
    destruct (Z.leb_spec 128 id); [destruct (Z.leb_spec id 255)|]; cbn [andb].
    + pose proof (parse_user_spec v1 id x doc cb {| m_provisioning_data := d; world := w |} H5 ltac:(lia)) as Hp.
      rewrite Hok in Hp. destruct Hp as (err & He & Hp). exists err, d. split_and!; [done|done|].
      rewrite (sf_bindE _ _ _ _ _ Hp). by destruct err.
    + by exists CborErrorImproperValue, d.
    + by exists CborErrorImproperValue, d.
Qed.

End Parse.

(** ** The whole map *)

Fixpoint good_prefix {W} (E : env W) (doc : document) : document :=
  match doc with
  | [] => []
  | e :: doc => if entry_ok E e then e :: good_prefix E doc else []
  end.

Lemma good_prefix_all {W} (E : env W) doc : forallb (entry_ok E) doc = true -> good_prefix E doc = doc.
Proof.
  induction doc as [|e doc IH]; [done|]. cbn. intros H. apply andb_true_iff in H as [-> H]. by rewrite IH.
Qed.

Lemma last_of_snoc id doc i x : last_of id (doc ++ [(i, x)]) = if i =? id then Some x else last_of id doc.
Proof.
  induction doc as [|[j y] doc IH]; cbn; [done|]. rewrite IH. destruct (i =? id); [done|]. done.
Qed.

Ltac close_holds :=
  split; unfold has in *; cbn [set_enc_key set_auth_key set_net_addr set_net_chan set_node_addr set_node_role
    enc_key is_enc_key_set auth_key is_auth_key_set net_addr net_chan node_addr node_role];
  rewrite ?last_of_snoc; cbn [Z.eqb Pos.eqb]; first [done | split; first [done | cbn; lia | by intros]].

Lemma holds_step {W} (E : env W) d0 doc d e :
  sized d0 -> holds d0 doc d -> entry_ok E e = true -> holds d0 (doc ++ [e]) (entry_set e d).
Proof.
  intros [Hs1 Hs2] [[H1 H1'] [H2 H2'] H3 H4 H5 H6 [H7 H7']] Hok. destruct e as [i x]. unfold entry_ok, entry_set in *.
  destruct (Z.eqb_spec i 0) as [->|].
  { cbn in Hok. destruct x as [|bs|]; [done| |done]. apply Z.eqb_eq in Hok. close_holds. }
  destruct (Z.eqb_spec i 1) as [->|].
  { cbn in Hok. destruct x as [|bs|]; [done| |done]. apply Z.eqb_eq in Hok. close_holds. }
  destruct (Z.eqb_spec i 2) as [->|]; [close_holds|].
  destruct (Z.eqb_spec i 3) as [->|]; [close_holds|].
  destruct (Z.eqb_spec i 4) as [->|]; [close_holds|].
  destruct (Z.eqb_spec i 5) as [->|]; [close_holds|].
  split; unfold has in *; rewrite ?last_of_snoc; repeat (rewrite (proj2 (Z.eqb_neq i _)) by lia); done.
Qed.

(** The fold of the entries gives the last value of each. *)
Lemma entries_hold {W} (E : env W) d0 doc : sized d0 -> forallb (entry_ok E) doc = true ->
  holds d0 doc (foldl (fun d e => entry_set e d) (invalid_data d0) doc).
Proof.
  intros Hd. induction doc as [|e doc IH] using rev_ind; intros H; [by split|].
  rewrite forallb_app in H. apply andb_true_iff in H as [H He]. rewrite foldl_snoc.
  cbn in He. rewrite andb_true_r in He. by eapply holds_step, He; [|apply IH].
Qed.

Section Decode.
Context {V W : Type} (C : cbor V) (E : env W) at_key at_value `{CM : !CborMap C at_key at_value}.
Implicit Types (s : state W) (cb : option (Z -> CborType -> list Z -> Z -> W -> W)).

Lemma map_loop_document cb doc v d w fuel : at_key v doc -> sized d -> (length doc < fuel)%nat ->
  exists err d', no_error err = forallb (entry_ok E) doc /\ sized d' /\
    (no_error err = true -> d' = foldl (fun d e => entry_set e d) d doc) /\
    map_loop C E cb fuel v {| m_provisioning_data := d; world := w |} =
    Some (err, {| m_provisioning_data := d'; world := foldl (user_entry cb) w (good_prefix E doc) |}).
Proof.
  revert v d w fuel. induction doc as [|[id x] doc IH]; intros v d w [|fuel] Hv Hd Hf; try (cbn in Hf; lia).
  - exists CborNoError, d. cbn [map_loop]. by rewrite (at_key_end C _ Hv).
  - cbn [forallb good_prefix]. destruct (entry_ok E (id, x)) eqn:Hok; cbn [andb].
    + destruct (map_loop_ok C E at_key at_value cb v id x doc d w Hv Hd Hok) as (v' & Hv' & Hl).
      destruct (IH v' (entry_set (id, x) d) (user_entry cb w (id, x)) fuel Hv'
        (entry_set_sized E _ _ Hok Hd) ltac:(cbn in Hf; lia)) as (err & d' & H1 & H2 & H3 & H4).
      exists err, d'. split_and!; [done..|]. by rewrite Hl, H4.
    + destruct (map_loop_bad C E at_key at_value cb v id x doc d w fuel Hv Hd Hok) as (err & d' & H1 & H2 & H3).
      exists err, d'. rewrite H1. done.
Qed.

Lemma complete_accepted doc d0 d : forallb (entry_ok E) doc = true -> holds d0 doc d -> complete d = accepted E doc.
Proof.
  intros Hok [[H1 _] [H2 _] H3 H4 _ _ _]. unfold complete, accepted. rewrite H1, H2, H3, H4, Hok.
  unfold INVALID_NET_ADDR, INVALID_NET_CHAN. by rewrite andb_true_l.
Qed.

Lemma parse_map_document cb doc v s fuel : at_key v doc -> sized (m_provisioning_data s) -> (length doc < fuel)%nat ->
  exists err s', parse_map C E fuel v cb s = Some (err, s') /\ no_error err = accepted E doc /\
    sized (m_provisioning_data s') /\ world s' = foldl (user_entry cb) (world s) (good_prefix E doc) /\
    (accepted E doc = true -> holds (m_provisioning_data s) doc (m_provisioning_data s')).
Proof.
  intros Hv Hs Hf. unfold parse_map. unfold mbind at 1, sf_bind. cbn [on_data].
  destruct (map_loop_document cb doc v (invalid_data (m_provisioning_data s)) (world s) fuel Hv Hs Hf)
    as (err & d' & H1 & H2 & H3 & H4).
  unfold mbind, sf_bind. rewrite H4. destruct (no_error err) eqn:He.
  - symmetry in H1. specialize (H3 eq_refl). pose proof (entries_hold E _ doc Hs H1) as Hh. rewrite <- H3 in Hh.
    destruct err; try done. eexists _, _. split; [reflexivity|]. cbn [m_provisioning_data world].
    rewrite (complete_accepted doc _ _ H1 Hh). split_and!; [by destruct (accepted E doc)|done|done|done].
  - assert (accepted E doc = false) as Ha by (unfold accepted; by rewrite <- H1).
    rewrite Ha. destruct err; [done|..]; (eexists _, _; split; [reflexivity|done]).
Qed.

Lemma decode_document conf doc buffer dry s fuel :
  conf_buffer conf = Some buffer -> 0 < conf_length conf <= Z.of_nat (length buffer) ->
  encodes C at_key (take (Z.to_nat (conf_length conf)) buffer) doc ->
  sized (m_provisioning_data s) -> (length doc < fuel)%nat ->
  exists s', Provisioning_Data_decode C E fuel conf dry s =
      Some (if accepted E doc then PROV_RET_OK else PROV_RET_INVALID_DATA, s') /\
    sized (m_provisioning_data s') /\
    (accepted E doc = true -> holds (m_provisioning_data s) doc (m_provisioning_data s')) /\
    world s' =
      if dry then world s
      else
        let w := foldl (user_entry (conf_user_data_cb conf)) (world s) (good_prefix E doc) in
        match conf_end_cb conf with
        | Some cb =>
            if accepted E doc then
              let r := cb PROV_RES_SUCCESS w in if r.1 then stopStack E (setShutdownCb E true r.2) else r.2
            else w
        | None => w
        end.
Proof.
  intros Hb Hl (v & m & Hi & Hm & He & Hk) Hs Hf. unfold Provisioning_Data_decode. rewrite Hb.
  rewrite (proj2 (Z.eqb_neq _ 0)), (proj2 (Z.ltb_ge _ _)), Hi, Hm, He by lia. cbn [negb].
  destruct (parse_map_document (if dry then None else conf_user_data_cb conf) doc m s fuel Hk Hs Hf)
    as (err & s' & H1 & H2 & H3 & H4 & H5).
  rewrite (sf_bindE _ _ _ _ _ H1). rewrite <- H2 in *.
  destruct dry.
  - exists s'. split; [by destruct err|]. split_and!; [done|done|]. rewrite H4.
    generalize (good_prefix E doc). intros l. generalize (world s). by induction l.
  - destruct err; cbn [no_error] in *; try (exists s'; split_and!; [done..|]; by destruct (conf_end_cb conf)).
    destruct (conf_end_cb conf) as [cb|]; [|by exists s'].
    unfold mbind, sf_bind, on_world, in_world. cbn [m_provisioning_data world]. rewrite H4.
    destruct (cb PROV_RES_SUCCESS _) as [[] w']; cbn [fst snd]; eexists; split; try reflexivity; done.
Qed.

End Decode.


(** ** The dry run tells what the real run will do *)

Section DryRun.
Context {V W : Type} (C : cbor V) (E : env W).

Definition same_run {A} (r1 r2 : option (A * state W)) : Prop :=
  match r1, r2 with
  | Some (x, s1), Some (y, s2) => x = y /\ m_provisioning_data s1 = m_provisioning_data s2
  | None, None => True
  | _, _ => False
  end.

Lemma map_loop_dry cb fuel v d w w' :
  same_run (map_loop C E None fuel v {| m_provisioning_data := d; world := w |})
           (map_loop C E cb fuel v {| m_provisioning_data := d; world := w' |}).
Proof.
  revert v d w w'. induction fuel as [|fuel IH]; intros v d w w'; cbn [map_loop]; [done|].
  destruct (cbor_value_at_end C v); [done|]. destruct (negb _); [done|].
  destruct (cbor_value_get_int_checked C v) as [[] id]; try done.
  destruct (cbor_value_advance_fixed C v) as [[] v']; try done.
  destruct (id <=? _).
  - unfold mbind, sf_bind, on_data. cbn [m_provisioning_data world].
    destruct (parse_wirepas_data C E v' id d) as [[] d']; try done.
    destruct (cbor_value_advance C v') as [[] v'']; first [done | apply IH].
  - destruct (_ && _); [|done]. unfold mbind, sf_bind, parse_user_data.
    destruct (user_value C v') as [[[] bs] len]; try done.
    cbn. destruct cb as [cb|]; cbn; (destruct (cbor_value_advance C v') as [[] v'']; first [done | apply IH]).
Qed.

Lemma map_loop_dry_world fuel v s r s' : map_loop C E None fuel v s = Some (r, s') -> world s' = world s.
Proof.
  revert v s. induction fuel as [|fuel IH]; intros v s; cbn [map_loop]; [done|].
  destruct (cbor_value_at_end C v); [by intros [= <- <-]|]. destruct (negb _); [by intros [= <- <-]|].
  destruct (cbor_value_get_int_checked C v) as [[] id]; try by intros [= <- <-].
  destruct (cbor_value_advance_fixed C v) as [[] v']; try by intros [= <- <-].
  destruct (id <=? _).
  - unfold mbind, sf_bind, on_data. destruct (parse_wirepas_data C E v' id _) as [[] d'];
      try by intros [= <- <-].
    destruct (cbor_value_advance C v') as [[] v'']; try by intros [= <- <-]. by intros ->%IH.
  - destruct (_ && _); [|by intros [= <- <-]]. unfold mbind, sf_bind, parse_user_data.
    destruct (user_value C v') as [[[] bs] len]; try by intros [= <- <-].
    cbn. destruct (cbor_value_advance C v') as [[] v'']; try by intros [= <- <-]. by intros ->%IH.
Qed.

(** The code depends on the bytes alone: keys that were received before are
    not looked at. *)
Definition same_but_keys (d d' : m_provisioning_data_t) : Prop :=
  is_enc_key_set d = is_enc_key_set d' /\ is_auth_key_set d = is_auth_key_set d' /\ net_addr d = net_addr d' /\
  net_chan d = net_chan d' /\ node_addr d = node_addr d' /\ node_role d = node_role d'.

Lemma parse_wirepas_code v id d d' : same_but_keys d d' ->
  (parse_wirepas_data C E v id d).1 = (parse_wirepas_data C E v id d').1 /\
  same_but_keys (parse_wirepas_data C E v id d).2 (parse_wirepas_data C E v id d').2.
Proof.
  intros (H1 & H2 & H3 & H4 & H5 & H6). unfold parse_wirepas_data.
  destruct (id =? _); [unfold parse_enc_key|destruct (id =? _); [unfold parse_auth_key|destruct (id =? _);
    [unfold parse_net_address; rewrite H3|destruct (id =? _); [unfold parse_net_channel; rewrite H4|destruct (id =? _);
    [unfold parse_node_address; rewrite H5|destruct (id =? _); [unfold parse_node_role; rewrite H6|done]]]]]].
  all: match goal with
    | |- context [extract_byte_string ?c ?v ?n] => destruct (extract_byte_string c v n) as [[[] ?] ?]
    | |- context [extract_unsigned_int ?c ?e ?v ?o ?n] => destruct (extract_unsigned_int c e v o n) as [[] ?]
    end; repeat case_match; by repeat split.
Qed.

Lemma map_loop_code cb cb' fuel v d d' w w' : same_but_keys d d' ->
  match map_loop C E cb fuel v {| m_provisioning_data := d; world := w |},
        map_loop C E cb' fuel v {| m_provisioning_data := d'; world := w' |} with
  | Some (x, s1), Some (y, s2) => x = y /\ same_but_keys (m_provisioning_data s1) (m_provisioning_data s2)
  | None, None => True
  | _, _ => False
  end.
Proof.
  revert v d d' w w'. induction fuel as [|fuel IH]; intros v d d' w w' Hd; cbn [map_loop]; [done|].
  destruct (cbor_value_at_end C v); [done|]. destruct (negb _); [done|].
  destruct (cbor_value_get_int_checked C v) as [[] id]; try done.
  destruct (cbor_value_advance_fixed C v) as [[] v']; try done.
  destruct (id <=? _).
  - unfold mbind, sf_bind, on_data. cbn [m_provisioning_data world].
    destruct (parse_wirepas_code v' id d d' Hd) as [H1 H2].
    destruct (parse_wirepas_data C E v' id d) as [e1 d1], (parse_wirepas_data C E v' id d') as [e2 d2].
    cbn [fst snd] in *. subst e2. destruct e1; try done.
    destruct (cbor_value_advance C v') as [[] v'']; first [done | by apply IH].
  - destruct (_ && _); [|done]. unfold mbind, sf_bind, parse_user_data.
    destruct (user_value C v') as [[[] bs] len]; try done.
    cbn. destruct cb as [cb|], cb' as [cb'|]; cbn; (destruct (cbor_value_advance C v') as [[] v'']; first [done | by apply IH]).
Qed.

Lemma decode_code conf conf' fuel dry dry' (s1 s2 s1' s2' : state W) r1 r2 :
  conf_buffer conf = conf_buffer conf' -> conf_length conf = conf_length conf' ->
  Provisioning_Data_decode C E fuel conf dry s1 = Some (r1, s1') ->
  Provisioning_Data_decode C E fuel conf' dry' s2 = Some (r2, s2') -> r1 = r2.
Proof.
  intros Hb Hl. unfold Provisioning_Data_decode. rewrite Hb, Hl.
  destruct (conf_buffer conf') as [buffer|]; [|by intros [= <- _] [= <- _]].
  destruct (conf_length conf' =? 0); [by intros [= <- _] [= <- _]|].
  destruct (_ <? conf_length conf'); [done|].
  destruct (cbor_parser_init C _) as [[] v]; try by intros [= <- _] [= <- _].
  destruct (negb _); [by intros [= <- _] [= <- _]|].
  destruct (cbor_value_enter_container C v) as [[] m]; try by intros [= <- _] [= <- _].
  unfold parse_map, mbind, sf_bind, on_data. cbn [m_provisioning_data world].
  set (cb1 := if dry then None else _). set (cb2 := if dry' then None else _).
  assert (Hk : same_but_keys (invalid_data (m_provisioning_data s1)) (invalid_data (m_provisioning_data s2))) by by repeat split.
  pose proof (map_loop_code cb1 cb2 fuel m _ _ (world s1) (world s2) Hk) as Hd.
  destruct (map_loop C E cb1 fuel m _) as [[e1 t1]|], (map_loop C E cb2 fuel m _) as [[e2 t2]|]; try done.
  destruct Hd as [<- (D1 & D2 & D3 & D4 & D5 & D6)]. destruct e1; try by intros [= <- _] [= <- _].
  unfold asks. cbn. assert (Hc : complete (m_provisioning_data t1) = complete (m_provisioning_data t2)).
  { unfold complete. by rewrite D1, D2, D3, D4. }
  rewrite Hc. destruct (complete (m_provisioning_data t2)); cbn; [|by intros [= <- _] [= <- _]].
  clear. intros H1 H2. assert (R : forall (cf : provisioning_data_conf_t W) (dr : bool) t r t',
    (if dr then mret PROV_RET_OK
     else match conf_end_cb cf with
          | None => mret PROV_RET_OK
          | Some cb =>
              apply ← on_world (cb PROV_RES_SUCCESS);
              _ ← (if (apply : bool) then _ ← in_world (setShutdownCb E true); in_world (stopStack E) else mret tt);
              mret PROV_RET_OK
          end) t = Some (r, t') -> r = PROV_RET_OK).
  { intros cf dr t r t'. destruct dr; [by intros [= <- _]|]. destruct (conf_end_cb cf) as [cb|]; [|by intros [= <- _]].
    unfold mbind, sf_bind, on_world. destruct (cb _ _) as [[] w]; cbn; by intros [= <- _]. }
  rewrite (R _ _ _ _ _ H1), (R _ _ _ _ _ H2). done.
Qed.

End DryRun.

(** the check before the acknowledgement decides the outcome.  Whatever
    the parser does, well-formed map or not, the dry run and the real run
    of the decoder return the same code, or fault alike, and leave the same
    parameters; and the dry run has no other effect. *)
Theorem data_dry_run {V W} (C : cbor V) (E : env W) conf fuel (s : state W) :
  same_run (Provisioning_Data_decode C E fuel conf true s) (Provisioning_Data_decode C E fuel conf false s) /\
  forall r s', Provisioning_Data_decode C E fuel conf true s = Some (r, s') -> world s' = world s.
Proof.
  unfold Provisioning_Data_decode. destruct (conf_buffer conf) as [buffer|]; [|by split; [|intros r s' [= <- <-]]].
  destruct (conf_length conf =? 0); [by split; [|intros r s' [= <- <-]]|].
  destruct (_ <? conf_length conf); [by split|].
  destruct (cbor_parser_init C _) as [[] v]; try (by split; [|intros r s' [= <- <-]]).
  destruct (negb _); [by split; [|intros r s' [= <- <-]]|].
  destruct (cbor_value_enter_container C v) as [[] m]; try (by split; [|intros r s' [= <- <-]]).
  unfold parse_map, mbind, sf_bind, on_data. cbn [m_provisioning_data world].
  pose proof (map_loop_dry C E (conf_user_data_cb conf) fuel m (invalid_data (m_provisioning_data s)) (world s) (world s)) as Hd.
  pose proof (map_loop_dry_world C E fuel m
    {| m_provisioning_data := invalid_data (m_provisioning_data s); world := world s |}) as Hw.
  destruct (map_loop C E None fuel m _) as [[r1 s1]|], (map_loop C E (conf_user_data_cb conf) fuel m _) as [[r2 s2]|];
    try done.
  destruct Hd as [<- Hd]. specialize (Hw _ _ eq_refl). cbn [world] in Hw.
  destruct r1; try (by split; [|intros r s' [= <- <-]]). cbn. rewrite Hd.
  destruct (complete (m_provisioning_data s2)); cbn; [|by split; [|intros r s' [= <- <-]]].
  split; [|by intros r s' [= <- <-]]. destruct (conf_end_cb conf) as [cb|]; [|done].
  unfold on_world. destruct (cb _ _) as [[] w]; done.
Qed.

(** ** A concrete parser

    Maps with a definite length whose values are numbers and byte strings. *)

Module MiniCbor.

(** The argument of the first byte, and what follows. *)
Definition head (bs : list Z) : option (Z * Z * list Z) :=
  match bs with
  | [] => None
  | b :: bs =>
      let major := Z.shiftr b 5 in
      let info := Z.land b 31 in
      let n := if info =? 24 then 1%nat else if info =? 25 then 2%nat else if info =? 26 then 4%nat else 8%nat in
      if info <? 24 then Some (major, info, bs)
      else if (27 <? info) || (length bs <? n)%nat then None
      else Some (major, le_get (rev (take n bs)), drop n bs)
  end.

Definition value (bs : list Z) : option (item * list Z) :=
  match head bs with
  | Some (0, n, bs) => Some (Uint n, bs)
  | Some (2, n, bs) =>
      if Z.of_nat (length bs) <? n then None else Some (Bytes (take (Z.to_nat n) bs), drop (Z.to_nat n) bs)
  | _ => None
  end.

Fixpoint entries (n : nat) (bs : list Z) : option document :=
  match n with
  | O => Some []
  | S n =>
      match head bs with
      | Some (0, id, bs) =>
          match value bs with
          | Some (x, bs) => cons (id, x) <$> entries n bs
          | None => None
          end
      | _ => None
      end
  end.

Definition decode (bs : list Z) : option document :=
  match head bs with Some (5, n, bs) => entries (Z.to_nat n) bs | _ => None end.

Definition iterator : Type := document * option item.

Definition simple : iterator -> CborError * Z := fun _ => (CborErrorIllegalType, 0).

Definition parser : cbor iterator :=
  {| cbor_parser_init bs := match decode bs with Some doc => (CborNoError, (doc, None)) | None => (CborErrorOther 1, ([], None)) end;
     cbor_value_is_map _ := true;
     cbor_value_enter_container v := (CborNoError, v);
     cbor_value_at_end v := match v with ([], None) => true | _ => false end;
     cbor_value_is_unsigned_integer v :=
       match v.2 with Some (Uint _) => true | Some _ => false | None => match v.1 with [] => false | _ => true end end;
     cbor_value_is_byte_string v := match v.2 with Some (Bytes _) => true | _ => false end;
     cbor_value_get_type v := match v.2 with Some (Bytes _) => CborByteStringType | _ => CborIntegerType end;
     cbor_value_get_int_checked v := match v with ((id, _) :: _, None) => (CborNoError, id) | _ => simple v end;
     cbor_value_get_uint64 v := match v.2 with Some (Uint n) => (CborNoError, n) | _ => simple v end;
     cbor_value_get_int64_checked v :=
       match v.2 with Some (Uint n) => (if n <? 2 ^ 63 then CborNoError else CborErrorDataTooLarge, n) | _ => simple v end;
     cbor_value_copy_byte_string v n :=
       match v.2 with
       | Some (Bytes bs) => if Z.of_nat (length bs) <=? n then (CborNoError, bs, Z.of_nat (length bs))
                            else (CborErrorOutOfMemory, [], Z.of_nat (length bs))
       | _ => (CborErrorIllegalType, [], 0)
       end;
     cbor_value_copy_text_string v n := (CborErrorIllegalType, [], 0);
     cbor_value_get_simple_type := simple;
     cbor_value_get_boolean := simple;
     cbor_value_get_double := simple;
     cbor_value_get_float := simple;
     cbor_value_get_half_float := simple;
     cbor_value_advance_fixed v :=
       match v with ((_, x) :: doc, None) => (CborNoError, (doc, Some x)) | _ => (CborErrorOther 2, v) end;
     cbor_value_advance v := match v.2 with Some _ => (CborNoError, (v.1, None)) | None => (CborErrorOther 2, v) end |}.

Definition at_key (v : iterator) (doc : document) : Prop := v = (doc, None) /\ Forall (fun e => forall t x bs n, e.2 <> Other t x bs n) doc.
Definition at_value (v : iterator) (x : item) (doc : document) : Prop :=
  v = (doc, Some x) /\ (forall t e bs n, x <> Other t e bs n) /\ Forall (fun e => forall t x bs n, e.2 <> Other t x bs n) doc.

#[export] Instance parser_ok : CborMap parser at_key at_value.
Proof.
  split.
  - by intros v [-> _].
  - intros v id x doc [-> H]. apply Forall_cons in H as [H1 H2]. split_and!; [done..|]. by exists (doc, Some x).
  - intros v x doc (-> & _ & H). by exists (doc, None).
  - intros v n doc (-> & _). by split_and!.
  - intros v bs doc (-> & _). by split_and!.
  - intros v t e bs n doc (_ & H & _). by destruct (H t e bs n).
Qed.

End MiniCbor.

(** A node that receives keys, an address, a channel and an entry of its own. *)
Module DataExample.

(** The world logs what the stack and the callback are told. *)
Inductive told := User (id : Z) (data : list Z) | Ended | Shutdown (b : bool) | Stopped | Set_ (what : Z) (value : list Z).

Definition demo_env : env (list told) :=
  {| isValidNetworkAddress a := a <? 0x1000000;
     isValidNetworkChannel c := (0 <? c) && (c <=? 40);
     isValidNodeAddress a := true;
     isValidNodeRole r := true;
     setAuthenticationKey k w := w ++ [Set_ 1 k];
     setEncryptionKey k w := w ++ [Set_ 0 k];
     setNetworkAddress a w := w ++ [Set_ 2 [a]];
     setNetworkChannel c w := w ++ [Set_ 3 [c]];
     setNodeAddress a w := w ++ [Set_ 4 [a]];
     setNodeRole r w := w ++ [Set_ 5 [r]];
     setShutdownCb b w := w ++ [Shutdown b];
     stopStack w := w ++ [Stopped];
     undefined_shift _ := 0 |}.

Definition key (n : Z) : list Z := repeat n 16.

(** [{0: key, 1: key, 2: 0x123456, 3: 18, 200: h'0102'}] *)
Definition demo_bytes : list Z :=
  [0xA5; 0x00; 0x50] ++ key 7 ++ [0x01; 0x50] ++ key 9 ++ [0x02; 0x1A; 0x00; 0x12; 0x34; 0x56; 0x03; 0x12;
   0x18; 0xC8; 0x42; 0x01; 0x02].

Definition demo_doc : document :=
  [(0, Bytes (key 7)); (1, Bytes (key 9)); (2, Uint 0x123456); (3, Uint 18); (200, Bytes [1; 2])].

Definition demo_conf : provisioning_data_conf_t (list told) :=
  {| conf_end_cb := Some (fun _ w => (true, w ++ [Ended]));
     conf_user_data_cb := Some (fun id _ data _ w => w ++ [User id data]);
     conf_buffer := Some demo_bytes;
     conf_length := Z.of_nat (length demo_bytes) |}.

Definition demo_state : state (list told) :=
  {| m_provisioning_data := {| enc_key := key 0; is_enc_key_set := false; auth_key := key 0; is_auth_key_set := false;
       net_addr := 0; net_chan := 0; node_addr := 0; node_role := 0 |};
     world := [] |}.

Definition run (dry : bool) :=
  Provisioning_Data_decode MiniCbor.parser demo_env 9 demo_conf dry demo_state.

End DataExample.


(** The bound of a number of [size] bytes is computed as [2 << 8 * size], twice
    too large: channel 274 is taken as channel 18. *)
Lemma channel_is_truncated :
  entry_ok DataExample.demo_env (3, Uint 274) = true /\ uint_of 8 (Some (Uint 274)) = 18.
Proof. split; reflexivity. Qed.

Lemma data_dry_run_witness :
  exists s1, DataExample.run true = Some (PROV_RET_OK, s1) /\ world s1 = [] /\
    same_run (DataExample.run true) (DataExample.run false).
Proof.
  destruct (data_dry_run MiniCbor.parser DataExample.demo_env DataExample.demo_conf 9 DataExample.demo_state) as [H Hw].
  fold (DataExample.run true) in H, Hw. fold (DataExample.run false) in H.
  destruct (DataExample.run true) as [[r s1]|] eqn:He; [|exfalso; vm_compute in He; discriminate He].
  exists s1. assert (Hr : r = PROV_RET_OK) by (vm_compute in He; by injection He).
  split; [by rewrite Hr|]. split; [exact (Hw _ _ eq_refl)|exact H].
Defined.
