(* ===== verification/Joining.v ===== *)
(** * Joining a network

    [libraries/provisioning/joining.c]: a new node scans for joining beacons,
    lets the application choose one, joins its network and waits for a route;
    failures are retried a number of times.

    The state machine runs in a task of the scheduler and is woken up by events:
    the end of the scan, a change of route, a timeout.  The scheduler, the
    stack and the choice of the application are functions over a world [W].
    The callback at the end of the session is a function on the whole state:
    [Provisioning] ends in it and may call this library back.  Beacons are in
    a buffer that the stack fills; a pointer to a beacon is its position. *)

From S2P Require Import Prelude Api ProvData.

(** ** Data *)

Definition JOINING_BEACON_TYPE : Z := 0x647650fb.
Definition DELAY_RESTART_SCAN_MS : Z := 5000.
Definition DELAY_WAIT_END_SCAN_MS : Z := 5000.
Definition DELAY_WAIT_END_JOINING_MS : Z := 20000.
Definition APP_SCHEDULER_STOP_TASK : Z := 2 ^ 32 - 1.
Definition APP_SCHEDULER_SCHEDULE_ASAP : Z := 0.
Definition APP_SCHEDULER_RES_OK : Z := 0.
Definition APP_LIB_STATE_ROUTE_STATE_VALID : Z := 2.

Inductive joining_state_e :=
| JOIN_STATE_UNINIT | JOIN_STATE_IDLE | JOIN_STATE_START | JOIN_STATE_WAIT_SCAN_END | JOIN_STATE_WAIT_ROUTE_CHANGE.

#[export] Instance joining_state_dec : EqDecision joining_state_e.
Proof. solve_decision. Defined.

Record m_events_t := { scan_end : bool; route_change : bool; timeout : bool; start : bool }.

Definition no_events : m_events_t := {| scan_end := false; route_change := false; timeout := false; start := false |}.

Record app_lib_joining_received_beacon_t := {
  next : option nat;
  beacon_type : Z;
  payload : list Z;
  addr : Z;
  channel : Z;
  rssi : Z }.

Definition set_next (n : option nat) (b : app_lib_joining_received_beacon_t) : app_lib_joining_received_beacon_t :=
  {| next := n; beacon_type := beacon_type b; payload := payload b; addr := addr b; channel := channel b;
     rssi := rssi b |}.

(** The two tasks of the library. *)
Inductive task := run_state_machine_task | timeout_task_.

#[export] Instance task_dec : EqDecision task.
Proof. solve_decision. Defined.

Section Joining.
Context {W : Type}.

Record state := {
  m_events : m_events_t;
  m_retry : Z;
  m_state : joining_state_e;
  nb_retry : Z;
  m_beacon_rx_buffer : list app_lib_joining_received_beacon_t;
  m_num_beacons : Z;
  world : W }.

Record env := {
  addTask : task -> Z -> W -> Z * W;
  cancelTask : task -> W -> W;
  addEventCb : W -> W;
  removeEventCb : W -> W;
  startJoiningBeaconRx : W -> Z * W;
  stopJoiningBeaconRx : W -> W;
  startJoiningProcess : Z -> Z -> W -> Z * W;
  stopJoiningProcess : W -> W;
  getNetworkAddress : W -> Z * Z;
  getNetworkChannel : W -> Z * Z;
  getRouteInfo : W -> Z;
  (** the configuration: the choice of a beacon, the end of the session *)
  joining_cb : option nat -> list app_lib_joining_received_beacon_t -> W -> option nat * W;
  end_cb : provisioning_res_e -> state -> option (unit * state) }.

Abbreviation M := (sf state).

Definition set_events e s := {| m_events := e; m_retry := m_retry s; m_state := m_state s; nb_retry := nb_retry s;
  m_beacon_rx_buffer := m_beacon_rx_buffer s; m_num_beacons := m_num_beacons s; world := world s |}.
Definition set_retry r s := {| m_events := m_events s; m_retry := r; m_state := m_state s; nb_retry := nb_retry s;
  m_beacon_rx_buffer := m_beacon_rx_buffer s; m_num_beacons := m_num_beacons s; world := world s |}.
Definition set_state x s := {| m_events := m_events s; m_retry := m_retry s; m_state := x; nb_retry := nb_retry s;
  m_beacon_rx_buffer := m_beacon_rx_buffer s; m_num_beacons := m_num_beacons s; world := world s |}.
Definition set_buffer b s := {| m_events := m_events s; m_retry := m_retry s; m_state := m_state s;
  nb_retry := nb_retry s; m_beacon_rx_buffer := b; m_num_beacons := m_num_beacons s; world := world s |}.
Definition set_world w s := {| m_events := m_events s; m_retry := m_retry s; m_state := m_state s;
  nb_retry := nb_retry s; m_beacon_rx_buffer := m_beacon_rx_buffer s; m_num_beacons := m_num_beacons s; world := w |}.
Definition set_num n s := {| m_events := m_events s; m_retry := m_retry s; m_state := m_state s;
  nb_retry := nb_retry s; m_beacon_rx_buffer := m_beacon_rx_buffer s; m_num_beacons := n; world := world s |}.

Definition in_world {A} (f : W -> A * W) : M A := fun s => let '(x, w) := f (world s) in Some (x, set_world w s).
Definition do_world (f : W -> W) : M unit := puts (fun s => set_world (f (world s)) s).

Definition raise_scan_end s := set_events {| scan_end := true; route_change := route_change (m_events s);
  timeout := timeout (m_events s); start := start (m_events s) |} s.
Definition raise_route_change b s := set_events {| scan_end := scan_end (m_events s); route_change := b;
  timeout := timeout (m_events s); start := start (m_events s) |} s.
Definition raise_timeout s := set_events {| scan_end := scan_end (m_events s); route_change := route_change (m_events s);
  timeout := true; start := start (m_events s) |} s.
Definition raise_start s := set_events {| scan_end := scan_end (m_events s); route_change := route_change (m_events s);
  timeout := timeout (m_events s); start := true |} s.

(** ** The list of beacons *)

(** [beacon], [prev] and [start] are the variables of the loop; the result is
    the first beacon and the buffer. *)
Fixpoint sort_loop (fuel : nat) (beacon : option nat) (prev : nat) (start : option nat)
    (buf : list app_lib_joining_received_beacon_t) : option (option nat * list app_lib_joining_received_beacon_t) :=
  match beacon with
  | None => Some (start, buf)
  | Some b =>
      match fuel, buf !! b with
      | S fuel, Some c =>
          if negb (beacon_type c =? JOINING_BEACON_TYPE) then
            if decide (beacon = start) then sort_loop fuel (next c) prev (next c) buf
            else
              let buf := alter (set_next (next c)) prev buf in
              match buf !! b with
              | Some c => sort_loop fuel (next c) prev start buf
              | None => None
              end
          else sort_loop fuel (next c) prev start buf
      | _, _ => None
      end
  end.

Definition sort_provisioning_beacons (beacons : nat) (buf : list app_lib_joining_received_beacon_t)
    : option (option nat * list app_lib_joining_received_beacon_t) :=
  sort_loop (S (length buf)) (Some beacons) beacons (Some beacons) buf.

(** ** The state machine *)

Definition reset_joining (E : env) (stopJoining : bool) : M unit :=
  _ ← do_world (stopJoiningBeaconRx E);
  _ ← (if stopJoining then do_world (stopJoiningProcess E) else mret tt);
  _ ← do_world (cancelTask E timeout_task_);
  _ ← do_world (removeEventCb E);
  _ ← puts (set_state JOIN_STATE_IDLE);
  puts (set_events no_events).

(** The end of a session with an error. *)
Definition fail_with (E : env) (res : provisioning_res_e) : M unit :=
  _ ← reset_joining E true; end_cb E res.

(** Schedule the state machine, or end with an internal error. *)
Definition schedule (E : env) : M unit :=
  res ← in_world (addTask E run_state_machine_task APP_SCHEDULER_SCHEDULE_ASAP);
  if negb (res =? APP_SCHEDULER_RES_OK) then fail_with E PROV_RES_ERROR_INTERNAL else mret tt.

(** The stack has filled the buffer when it calls back. *)
Definition joining_beacon_rx_cb (E : env) (num_beacons : Z) : M unit :=
  _ ← puts (set_num num_beacons);
  _ ← puts raise_scan_end;
  schedule E.

Definition route_changed_cb (E : env) : M unit :=
  _ ← puts (raise_route_change true); schedule E.

Definition timeout_task (E : env) : M Z :=
  _ ← puts raise_timeout; _ ← schedule E; mret APP_SCHEDULER_STOP_TASK.

Definition state_idle (E : env) : M Z :=
  ev ← asks m_events;
  new_delay_ms ← (if start ev then
                    _ ← puts (set_state JOIN_STATE_START); _ ← puts (set_retry 0); mret APP_SCHEDULER_SCHEDULE_ASAP
                  else mret APP_SCHEDULER_STOP_TASK);
  _ ← do_world (cancelTask E timeout_task_);
  _ ← puts (set_events no_events);
  mret new_delay_ms.

(** [m_retry++], and whether the retries are used up. *)
Definition one_more_try : M bool :=
  _ ← puts (fun s => set_retry (u8 (m_retry s + 1)) s);
  asks (fun s => nb_retry s <? m_retry s).

Definition clear_beacon (b : app_lib_joining_received_beacon_t) : app_lib_joining_received_beacon_t :=
  {| next := None; beacon_type := 0; payload := []; addr := 0; channel := 0; rssi := 0 |}.

(** Start a timeout, or end with an internal error. *)
Definition start_timeout (E : env) (delay : Z) : M unit :=
  res ← in_world (addTask E timeout_task_ delay);
  if negb (res =? APP_SCHEDULER_RES_OK) then fail_with E PROV_RES_ERROR_INTERNAL else mret tt.

Definition state_start (E : env) : M Z :=
  _ ← do_world (stopJoiningBeaconRx E);
  _ ← puts (fun s => set_buffer (clear_beacon <$> m_beacon_rx_buffer s) s);
  res ← in_world (startJoiningBeaconRx E);
  new_delay_ms ←
    (if negb (res =? APP_RES_OK) then
       over ← one_more_try;
       if (over : bool) then _ ← fail_with E PROV_RES_ERROR_SCANNING_BEACONS; mret APP_SCHEDULER_STOP_TASK
       else mret DELAY_RESTART_SCAN_MS
     else
       _ ← start_timeout E DELAY_WAIT_END_SCAN_MS;
       _ ← puts (set_state JOIN_STATE_WAIT_SCAN_END);
       mret APP_SCHEDULER_STOP_TASK);
  _ ← puts (set_events no_events);
  mret new_delay_ms.

(** The selected beacon: join its network, unless the node is in it. *)
Definition join_network (E : env) (beacon : app_lib_joining_received_beacon_t) : M (provisioning_res_e * Z) :=
  joined ← asks (fun s =>
    let a := getNetworkAddress E (world s) in
    let c := getNetworkChannel E (world s) in
    negb ((a.1 =? APP_RES_OK) && (c.1 =? APP_RES_OK) && negb ((a.2 =? addr beacon) && (c.2 =? channel beacon))));
  if negb joined then
    res ← in_world (startJoiningProcess E (addr beacon) (channel beacon));
    if negb (res =? APP_RES_OK) then mret (PROV_RES_ERROR_JOINING, APP_SCHEDULER_STOP_TASK)
    else
      _ ← do_world (addEventCb E);
      _ ← puts (set_state JOIN_STATE_WAIT_ROUTE_CHANGE);
      _ ← start_timeout E DELAY_WAIT_END_JOINING_MS;
      mret (PROV_RES_SUCCESS, APP_SCHEDULER_STOP_TASK)
  else
    _ ← puts (raise_route_change true);
    _ ← puts (set_state JOIN_STATE_WAIT_ROUTE_CHANGE);
    _ ← start_timeout E DELAY_WAIT_END_JOINING_MS;
    mret (PROV_RES_SUCCESS, APP_SCHEDULER_SCHEDULE_ASAP).

Definition select_beacon (E : env) : M (option app_lib_joining_received_beacon_t) :=
  sorted ← reads (fun s => sort_provisioning_beacons 0 (m_beacon_rx_buffer s));
  _ ← puts (set_buffer sorted.2);
  chosen ← in_world (joining_cb E sorted.1 sorted.2);
  match chosen with
  | None => mret None
  | Some b => c ← reads (fun s => m_beacon_rx_buffer s !! b); mret (Some c)
  end.

Definition scan_ended (E : env) : M (provisioning_res_e * Z) :=
  _ ← do_world (cancelTask E timeout_task_);
  _ ← puts (set_events no_events);
  num ← asks m_num_beacons;
  if 0 <? num then
    beacon ← select_beacon E;
    match beacon with
    | Some beacon => join_network E beacon
    | None => mret (PROV_RES_ERROR_SCANNING_BEACONS, APP_SCHEDULER_STOP_TASK)
    end
  else mret (PROV_RES_ERROR_SCANNING_BEACONS, APP_SCHEDULER_STOP_TASK).

Definition state_wait_scan_end (E : env) : M Z :=
  ev ← asks m_events;
  r ← (if scan_end ev then scan_ended E
       else mret (if timeout ev then PROV_RES_TIMEOUT else PROV_RES_SUCCESS, APP_SCHEDULER_STOP_TASK));
  if decide (r.1 <> PROV_RES_SUCCESS) then
    over ← one_more_try;
    new_delay_ms ← (if (over : bool) then _ ← fail_with E r.1; mret r.2
                    else _ ← puts (set_state JOIN_STATE_START); mret APP_SCHEDULER_SCHEDULE_ASAP);
    _ ← puts (set_events no_events);
    mret new_delay_ms
  else mret r.2.

Definition state_wait_route_change (E : env) : M Z :=
  route ← asks (fun s => getRouteInfo E (world s));
  _ ← (if negb (route =? APP_LIB_STATE_ROUTE_STATE_VALID) then puts (raise_route_change false)
       else
         _ ← do_world (cancelTask E timeout_task_);
         _ ← do_world (removeEventCb E);
         _ ← reset_joining E false;
         end_cb E PROV_RES_SUCCESS);
  ev ← asks m_events;
  if timeout ev then
    _ ← do_world (removeEventCb E);
    over ← one_more_try;
    if (over : bool) then _ ← fail_with E PROV_RES_ERROR_NO_ROUTE; mret APP_SCHEDULER_STOP_TASK
    else _ ← puts (set_state JOIN_STATE_START); mret APP_SCHEDULER_SCHEDULE_ASAP
  else mret APP_SCHEDULER_STOP_TASK.

Definition run_state_machine (E : env) : M Z :=
  st ← asks m_state;
  match st with
  | JOIN_STATE_IDLE => state_idle E
  | JOIN_STATE_START => state_start E
  | JOIN_STATE_WAIT_SCAN_END => state_wait_scan_end E
  | JOIN_STATE_WAIT_ROUTE_CHANGE => state_wait_route_change E
  | JOIN_STATE_UNINIT => mret APP_SCHEDULER_STOP_TASK
  end.

(** ** The interface *)

(** [callbacks]: both callbacks are given. *)
Definition Provisioning_Joining_init (callbacks : bool) (conf_nb_retry : Z) : M provisioning_ret_e :=
  st ← asks m_state;
  if decide (st <> JOIN_STATE_UNINIT /\ st <> JOIN_STATE_IDLE) then mret PROV_RET_INVALID_STATE
  else if negb callbacks then mret PROV_RET_INVALID_PARAM
  else
    _ ← puts (fun s => {| m_events := m_events s; m_retry := m_retry s; m_state := m_state s;
           nb_retry := conf_nb_retry; m_beacon_rx_buffer := m_beacon_rx_buffer s; m_num_beacons := m_num_beacons s;
           world := world s |});
    _ ← puts (set_state JOIN_STATE_IDLE);
    mret PROV_RET_OK.

Definition Provisioning_Joining_start (E : env) : M provisioning_ret_e :=
  st ← asks m_state;
  if decide (st <> JOIN_STATE_IDLE) then mret PROV_RET_INVALID_STATE
  else
    _ ← puts raise_start;
    res ← in_world (addTask E run_state_machine_task APP_SCHEDULER_SCHEDULE_ASAP);
    if negb (res =? APP_SCHEDULER_RES_OK) then
      _ ← fail_with E PROV_RES_ERROR_INTERNAL; mret PROV_RET_INTERNAL_ERROR
    else mret PROV_RET_OK.

Definition Provisioning_Joining_stop (E : env) : M provisioning_ret_e :=
  _ ← fail_with E PROV_RES_STOPPED; mret PROV_RET_OK.

End Joining.
Arguments state : clear implicits.
Arguments env : clear implicits.

(** * Properties *)

(** ** The list of beacons *)

(** The stack fills the buffer from its start: pointers go forward. *)
Definition linked (buf : list app_lib_joining_received_beacon_t) : Prop :=
  forall i c j, buf !! i = Some c -> next c = Some j -> (i < j < length buf)%nat.

Lemma linked_alter buf p b c :
  linked buf -> (p <= b)%nat -> buf !! b = Some c -> linked (alter (set_next (next c)) p buf).
Proof.
  intros H Hp Hb i d j Hi Hd. rewrite length_alter. destruct (decide (p = i)) as [->|Hne].
  - rewrite list_lookup_alter_eq in Hi. apply fmap_Some in Hi as (e & He & ->). cbn in Hd.
    pose proof (H b c j Hb Hd). lia.
  - rewrite list_lookup_alter_ne in Hi by done. by apply (H i d j).
Qed.

Lemma sort_loop_total buf : linked buf ->
  forall fuel beacon prev start,
    match beacon with Some b => (prev <= b < length buf)%nat /\ (length buf - b < fuel)%nat | None => True end ->
    (match start with Some b => (b < length buf)%nat | None => True end) ->
    (match beacon with Some b => b = prev -> start = Some b | None => True end) ->
    exists start' buf', sort_loop fuel beacon prev start buf = Some (start', buf') /\
      length buf' = length buf /\ linked buf' /\ match start' with Some b => (b < length buf)%nat | None => True end.
Proof.
  intros Hl fuel. revert buf Hl. induction fuel as [|fuel IH]; intros buf Hl [b|] prev start Hb Hs Hp; cbn [sort_loop];
    try (by exists start, buf); [lia|].
  destruct (lookup_lt_is_Some_2 buf b) as [c Hc]; [lia|]. rewrite Hc.
  assert (Hn : forall buf' : list app_lib_joining_received_beacon_t, length buf' = length buf ->
    match next c with Some j => (prev <= j < length buf')%nat /\ (length buf' - j < fuel)%nat | None => True end /\
    match next c with Some j => (b < j)%nat | None => True end).
  { intros buf' ->. destruct (next c) as [j|] eqn:Hj; [|done]. pose proof (Hl b c j Hc Hj). lia. }
  destruct (negb _).
  - case_decide as Hbs.
    + apply IH; [done|apply Hn; done| |]; destruct (Hn buf eq_refl) as [H1 H2]; destruct (next c); [lia|done|lia|done].
    + assert (Hne : prev <> b) by (intros ->; by rewrite (Hp eq_refl) in Hbs).
      rewrite list_lookup_alter_ne, Hc by done.
      destruct (IH (alter (set_next (next c)) prev buf)) with (beacon := next c) (prev := prev) (start := start)
        as (start' & buf' & H1 & H2 & H3 & H4).
      * eapply linked_alter; [done| |done]. lia.
      * apply Hn. by rewrite length_alter.
      * by rewrite length_alter.
      * destruct (Hn buf eq_refl) as [H1 H2]. destruct (next c); [lia|done].
      * rewrite length_alter in *. by exists start', buf'.
  - apply IH; [done|by apply Hn|done|]. destruct (Hn buf eq_refl) as [H1 H2]. destruct (next c); [lia|done].
Qed.

Lemma sort_total buf : linked buf -> (0 < length buf)%nat ->
  exists start' buf', sort_provisioning_beacons 0 buf = Some (start', buf') /\
    length buf' = length buf /\ linked buf' /\ match start' with Some b => (b < length buf)%nat | None => True end.
Proof. intros Hl H. apply sort_loop_total; [done|lia|done|done]. Qed.

(** [prev] never moves: a beacon behind the second one that is not a
    provisioning beacon takes those in front of it with it, and a list that
    starts with such a beacon keeps the others. *)
Definition example_beacon (n : option nat) (provisioning : bool) (a : Z) : app_lib_joining_received_beacon_t :=
  {| next := n; beacon_type := if provisioning then JOINING_BEACON_TYPE else 0; payload := []; addr := a;
     channel := 1; rssi := 0 |}.

Fixpoint beacons_from (fuel : nat) (p : option nat) (buf : list app_lib_joining_received_beacon_t) : list Z :=
  match fuel, p with
  | S fuel, Some b => match buf !! b with Some c => addr c :: beacons_from fuel (next c) buf | None => [] end
  | _, _ => []
  end.

Lemma sort_loses_beacon :
  let buf := [example_beacon (Some 1%nat) true 10; example_beacon (Some 2%nat) true 11;
              example_beacon (Some 3%nat) false 12; example_beacon None true 13] in
  (fun r => beacons_from 9 r.1 r.2) <$> sort_provisioning_beacons 0 buf = Some [10; 13].
Proof. reflexivity. Qed.

Lemma sort_keeps_other_beacon :
  let buf := [example_beacon (Some 1%nat) false 10; example_beacon (Some 2%nat) true 11;
              example_beacon None false 12] in
  (fun r => beacons_from 9 r.1 r.2) <$> sort_provisioning_beacons 0 buf = Some [11; 12].
Proof. reflexivity. Qed.

(** ** Sessions *)

(** What is observed of the surroundings: the pending tasks, and how often a
    scan was started and the end of a session reported. *)
Record view := { run_pending : bool; timeout_pending : bool; scans : Z; ends : Z }.

Definition pend (t : task) (b : bool) (v : view) : view :=
  match t with
  | run_state_machine_task => {| run_pending := b; timeout_pending := timeout_pending v; scans := scans v; ends := ends v |}
  | timeout_task_ => {| run_pending := run_pending v; timeout_pending := b; scans := scans v; ends := ends v |}
  end.
Definition one_scan v := {| run_pending := run_pending v; timeout_pending := timeout_pending v; scans := scans v + 1;
  ends := ends v |}.
Definition one_end v := {| run_pending := run_pending v; timeout_pending := timeout_pending v; scans := scans v;
  ends := ends v + 1 |}.

(** The five parts of the invariant of a session, and plain goals. *)
Ltac session_parts :=
  split; [|split; [|split; [|split]]]; cbn in *; try done; try lia.

Section Sessions.
Context {W : Type} (E : env W) (vw : W -> view) (take : task -> W -> W) (resume : Z -> W -> W).
Implicit Types (s : state W) (w : W).

(** The scheduler has room for the two tasks, the application chooses among
    the beacons it is given, and the end of the session is only noted. *)
Class Surroundings : Prop := {
  add_room t d w : (addTask E t d w).1 = APP_SCHEDULER_RES_OK;
  add_view t d w : vw (addTask E t d w).2 = pend t true (vw w);
  cancel_view t w : vw (cancelTask E t w) = pend t false (vw w);
  add_event_view w : vw (addEventCb E w) = vw w;
  remove_event_view w : vw (removeEventCb E w) = vw w;
  scan_view w : vw (startJoiningBeaconRx E w).2 = one_scan (vw w);
  stop_scan_view w : vw (stopJoiningBeaconRx E w) = vw w;
  join_view a c w : vw (startJoiningProcess E a c w).2 = vw w;
  stop_join_view w : vw (stopJoiningProcess E w) = vw w;
  choice_view p buf w : vw (joining_cb E p buf w).2 = vw w;
  choice_range p buf w b : (joining_cb E p buf w).1 = Some b -> (b < length buf)%nat;
  end_view r s : exists w, end_cb E r s = Some (tt, set_world w s) /\ vw w = one_end (vw (world s));
  take_view t w : vw (take t w) = pend t false (vw w);
  resume_view d w : vw (resume d w) =
    if d =? APP_SCHEDULER_STOP_TASK then vw w else pend run_state_machine_task true (vw w) }.

Context {SU : Surroundings}.

(** An event: a task whose time has come, the end of a scan with what the
    stack put into the buffer, a change of route. *)
Inductive event := Run | Timeout | ScanEnd (num : Z) (buf : list app_lib_joining_received_beacon_t) | RouteChange.

Definition event_ok (e : event) : Prop :=
  match e with ScanEnd num buf => linked buf /\ (0 < num -> (0 < length buf)%nat) | _ => True end.

(** A task runs when it is pending; it is pending again when it returns a delay. *)
Definition do_event (e : event) : sf (state W) unit :=
  match e with
  | Run =>
      p ← asks (fun s => run_pending (vw (world s)));
      if (p : bool) then
        _ ← do_world (take run_state_machine_task); d ← run_state_machine E; do_world (resume d)
      else mret tt
  | Timeout =>
      p ← asks (fun s => timeout_pending (vw (world s)));
      if (p : bool) then _ ← do_world (take timeout_task_); _ ← timeout_task E; mret tt else mret tt
  | ScanEnd num buf => _ ← puts (set_buffer buf); joining_beacon_rx_cb E num
  | RouteChange => route_changed_cb E
  end.

Fixpoint do_events (es : list event) : sf (state W) unit :=
  match es with [] => mret tt | e :: es => _ ← do_event e; do_events es end.

Lemma do_worldE {B} (f : W -> W) (k : unit -> sf (state W) B) s :
  (y ← do_world f; k y) s = k tt (set_world (f (world s)) s).
Proof. reflexivity. Qed.

Lemma in_worldE {A B} (f : W -> A * W) (k : A -> sf (state W) B) s :
  (y ← in_world f; k y) s = k (f (world s)).1 (set_world (f (world s)).2 s).
Proof. unfold mbind, sf_bind, in_world. by destruct (f (world s)). Qed.

Lemma reset_ok b s : exists w, reset_joining E b s =
    Some (tt, {| m_events := no_events; m_retry := m_retry s; m_state := JOIN_STATE_IDLE; nb_retry := nb_retry s;
                 m_beacon_rx_buffer := m_beacon_rx_buffer s; m_num_beacons := m_num_beacons s; world := w |}) /\
  vw w = pend timeout_task_ false (vw (world s)).
Proof.
  unfold reset_joining. rewrite do_worldE. destruct b.
  - rewrite !do_worldE, putsE. eexists. split; [reflexivity|]. cbn.
    by rewrite remove_event_view, cancel_view, stop_join_view, stop_scan_view.
  - rewrite sf_retE, !do_worldE, putsE. eexists. split; [reflexivity|]. cbn.
    by rewrite remove_event_view, cancel_view, stop_scan_view.
Qed.

Lemma fail_ok r s : exists w, fail_with E r s =
    Some (tt, {| m_events := no_events; m_retry := m_retry s; m_state := JOIN_STATE_IDLE; nb_retry := nb_retry s;
                 m_beacon_rx_buffer := m_beacon_rx_buffer s; m_num_beacons := m_num_beacons s; world := w |}) /\
  vw w = one_end (pend timeout_task_ false (vw (world s))).
Proof.
  unfold fail_with. destruct (reset_ok true s) as (w & H & Hw). rewrite (sf_bindE _ _ _ _ _ H).
  destruct (end_view r {| m_events := no_events; m_retry := m_retry s; m_state := JOIN_STATE_IDLE;
    nb_retry := nb_retry s; m_beacon_rx_buffer := m_beacon_rx_buffer s; m_num_beacons := m_num_beacons s; world := w |})
    as (w' & H' & Hw').
  exists w'. split; [exact H'|]. by rewrite Hw', <- Hw.
Qed.

Lemma add_ok t d s : exists w, in_world (addTask E t d) s = Some (APP_SCHEDULER_RES_OK, set_world w s) /\
  vw w = pend t true (vw (world s)).
Proof.
  unfold in_world. pose proof (add_room t d (world s)) as H. pose proof (add_view t d (world s)) as Hw.
  destruct (addTask E t d (world s)) as [r w]. cbn in *. subst r. by exists w.
Qed.

Lemma schedule_ok s : exists w, schedule E s = Some (tt, set_world w s) /\
  vw w = pend run_state_machine_task true (vw (world s)).
Proof.
  destruct (add_ok run_state_machine_task APP_SCHEDULER_SCHEDULE_ASAP s) as (w & H & Hw).
  exists w. split; [|done]. unfold schedule. by rewrite (sf_bindE _ _ _ _ _ H).
Qed.

Lemma start_timeout_ok d s : exists w, start_timeout E d s = Some (tt, set_world w s) /\
  vw w = pend timeout_task_ true (vw (world s)).
Proof.
  destruct (add_ok timeout_task_ d s) as (w & H & Hw).
  exists w. split; [|done]. unfold start_timeout. by rewrite (sf_bindE _ _ _ _ _ H).
Qed.

(** ** The invariant of a session *)

Section Invariant.
(** [sc] scans and [en] ends were seen when it was started, with [nr] retries. *)
Context (sc en nr : Z).

Definition session_at (v : view) s : Prop :=
  let tries := scans v - sc in
  0 <= m_retry s /\ (nb_retry s = nr /\ 0 <= nr < 255) /\ linked (m_beacon_rx_buffer s) /\
  (0 < m_num_beacons s -> (0 < length (m_beacon_rx_buffer s))%nat) /\
  match m_state s with
  | JOIN_STATE_UNINIT => False
  | JOIN_STATE_IDLE =>
      if start (m_events s) then run_pending v = true /\ tries = 0 /\ ends v = en
      else tries <= nr + 1 /\ ends v = en + 1
  | JOIN_STATE_START => run_pending v = true /\ tries <= m_retry s <= nr /\ ends v = en
  | JOIN_STATE_WAIT_SCAN_END | JOIN_STATE_WAIT_ROUTE_CHANGE =>
      (timeout_pending v = true \/ timeout (m_events s) = true /\ run_pending v = true) /\
      tries <= m_retry s + 1 <= nr + 1 /\ ends v = en
  end.

Definition session s : Prop := session_at (vw (world s)) s.

(** What the scheduler does with the delay a task returns. *)
Definition again (d : Z) (v : view) : view :=
  if d =? APP_SCHEDULER_STOP_TASK then v else pend run_state_machine_task true v.

Lemma again_stop v : again APP_SCHEDULER_STOP_TASK v = v.
Proof. reflexivity. Qed.

Lemma again_asap v : again APP_SCHEDULER_SCHEDULE_ASAP v = pend run_state_machine_task true v.
Proof. reflexivity. Qed.

Lemma again_restart v : again DELAY_RESTART_SCAN_MS v = pend run_state_machine_task true v.
Proof. reflexivity. Qed.

(** What a function of the state machine, called with nothing pending for it,
    owes: it returns a delay after which the session goes on. *)
Definition goes_on (r : option (Z * state W)) : Prop :=
  exists d s, r = Some (d, s) /\ session_at (again d (vw (world s))) s.

Lemma idle_ok s : session_at (again APP_SCHEDULER_SCHEDULE_ASAP (vw (world s))) s -> m_state s = JOIN_STATE_IDLE ->
  goes_on (state_idle E s).
Proof.
  intros (H1 & H2 & H3 & H4 & H5) Hst. unfold goes_on, state_idle. rewrite Hst in H5. cbn in H5.
  rewrite asksE. destruct (start (m_events s)).
  - rewrite !sf_assoc, putsE, sf_assoc, putsE, sf_retE, do_worldE, putsE. eexists _, _. split; [reflexivity|].
    rewrite again_asap in *. session_parts. rewrite ?cancel_view; cbn. lia.
  - rewrite sf_retE, do_worldE, putsE. eexists _, _. split; [reflexivity|].
    rewrite again_asap, again_stop in *.
    session_parts. rewrite Hst, cancel_view. cbn. lia.
Qed.

Lemma one_more_tryE {B} (k : bool -> sf (state W) B) s : 0 <= m_retry s < 255 ->
  (y ← one_more_try; k y) s = k (nb_retry s <? m_retry s + 1) (set_retry (m_retry s + 1) s).
Proof.
  intros H. unfold one_more_try. rewrite sf_assoc, putsE, asksE. cbn. unfold u8, uwrap.
  by rewrite Z.mod_small by lia.
Qed.

(** Too many tries: the session is over. *)
Lemma over_ok r s d k : 0 <= m_retry s -> nb_retry s = nr /\ 0 <= nr < 255 -> linked (m_beacon_rx_buffer s) ->
  (0 < m_num_beacons s -> (0 < length (m_beacon_rx_buffer s))%nat) ->
  scans (vw (world s)) - sc <= nb_retry s + 1 -> ends (vw (world s)) = en ->
  (forall s', session_at (again d (vw (world s'))) s' ->
    session_at (again d (vw (world s'))) (set_events no_events s') -> goes_on (k tt s')) ->
  goes_on ((y ← fail_with E r; k y) s).
Proof.
  intros H1 H2 H3 H4 H5 H6 Hk. destruct (fail_ok r s) as (w & Hf & Hw).
  rewrite (sf_bindE _ _ _ _ _ Hf). apply Hk; cbn; rewrite Hw; unfold again; destruct (d =? _); session_parts.
Qed.

(** The result of a function that is done. *)
Lemma goes_onI d s : session_at (again d (vw (world s))) s -> goes_on (Some (d, s)).
Proof. intros H. by exists d, s. Qed.

Lemma linked_clear buf : linked (clear_beacon <$> buf).
Proof. intros i c j Hi. apply list_lookup_fmap_Some in Hi as (b & -> & Hb). done. Qed.

Lemma scan_start_ok s : session_at (again APP_SCHEDULER_SCHEDULE_ASAP (vw (world s))) s ->
  m_state s = JOIN_STATE_START -> goes_on (state_start E s).
Proof.
  intros (H1 & H2 & H3 & H4 & H5) Hst. unfold state_start. rewrite Hst, again_asap in H5. cbn in H5.
  destruct H5 as (_ & H5 & H6).
  rewrite do_worldE, putsE, in_worldE. cbn [world set_world set_buffer].
  destruct (negb _).
  - rewrite sf_assoc, one_more_tryE by (cbn; lia). cbn [nb_retry m_retry set_world set_buffer set_retry].
    destruct (Z.ltb_spec (nb_retry s) (m_retry s + 1)) as [Hlt|Hge].
    + rewrite sf_assoc. apply over_ok with (d := APP_SCHEDULER_STOP_TASK);
        cbn; rewrite ?scan_view, ?stop_scan_view, ?length_map; cbn; auto using linked_clear; try lia.
      intros s' _ Hs'. rewrite sf_retE, putsE. by apply goes_onI.
    + rewrite sf_retE, putsE. apply goes_onI. rewrite again_restart.
      session_parts; rewrite ?Hst, ?scan_view, ?stop_scan_view, ?length_map; cbn; auto using linked_clear; lia.
  - rewrite sf_assoc. edestruct start_timeout_ok as (w & Ht & Hw).
    rewrite (sf_bindE _ _ _ _ _ Ht), sf_assoc, putsE, sf_retE, putsE. apply goes_onI. rewrite again_stop.
    cbn in Hw. rewrite scan_view, stop_scan_view in Hw.
    session_parts; rewrite ?Hw, ?length_map; cbn; auto using linked_clear; lia.
Qed.

(** The end of a scan: the choice of a beacon leaves the counters alone. *)
Definition kept s s' : Prop :=
  m_retry s' = m_retry s /\ nb_retry s' = nb_retry s /\ linked (m_beacon_rx_buffer s') /\
  (0 < m_num_beacons s' -> (0 < length (m_beacon_rx_buffer s'))%nat) /\
  scans (vw (world s')) = scans (vw (world s)) /\ ends (vw (world s')) = ends (vw (world s)).

Lemma select_ok s : linked (m_beacon_rx_buffer s) -> (0 < length (m_beacon_rx_buffer s))%nat ->
  exists o s', select_beacon E s = Some (o, s') /\ kept s s'.
Proof.
  intros Hl Hn. destruct (sort_total (m_beacon_rx_buffer s)) as (st & buf & Hs & Hlen & Hl' & _); [done..|].
  unfold select_beacon. rewrite (readsE _ _ _ (st, buf)) by done. rewrite putsE, in_worldE. cbn [fst snd world set_buffer].
  assert (Hk : forall w, vw w = vw (world s) -> kept s (set_world w (set_buffer buf s))).
  { intros w Hw. unfold kept. cbn. rewrite Hw, Hlen. auto 10. }
  destruct ((joining_cb E st buf (world s)).1) as [b|] eqn:Hc.
  - apply choice_range in Hc. apply lookup_lt_is_Some_2 in Hc as [c Hc].
    erewrite readsE by (cbn; exact Hc). eexists _, _. split; [reflexivity|]. apply Hk, choice_view.
  - eexists _, _. split; [reflexivity|]. apply Hk, choice_view.
Qed.

(** The node goes on to wait for a route, with a timeout. *)
Definition waits_for_route s' : Prop :=
  m_state s' = JOIN_STATE_WAIT_ROUTE_CHANGE /\ timeout_pending (vw (world s')) = true.

Lemma kept_world s w : linked (m_beacon_rx_buffer s) ->
  (0 < m_num_beacons s -> (0 < length (m_beacon_rx_buffer s))%nat) ->
  scans (vw w) = scans (vw (world s)) -> ends (vw w) = ends (vw (world s)) -> kept s (set_world w s).
Proof. done. Qed.

Lemma join_ok b s : linked (m_beacon_rx_buffer s) -> (0 < m_num_beacons s -> (0 < length (m_beacon_rx_buffer s))%nat) ->
  exists r s', join_network E b s = Some (r, s') /\ kept s s' /\ (r.1 = PROV_RES_SUCCESS -> waits_for_route s').
Proof.
  intros Hl Hn. unfold join_network. rewrite asksE. destruct (negb (negb _)).
  - rewrite in_worldE. destruct (negb _).
    + eexists _, _. split; [reflexivity|]. split; [|done]. apply kept_world; [done..| |]; by rewrite join_view.
    + rewrite do_worldE, putsE. edestruct start_timeout_ok as (w & Ht & Hw). rewrite (sf_bindE _ _ _ _ _ Ht).
      cbn in Hw. rewrite add_event_view, join_view in Hw.
      eexists _, _. split; [reflexivity|]. unfold kept, waits_for_route. cbn. rewrite Hw. auto 10.
  - rewrite !putsE. edestruct start_timeout_ok as (w & Ht & Hw). rewrite (sf_bindE _ _ _ _ _ Ht). cbn in Hw.
    eexists _, _. split; [reflexivity|]. unfold kept, waits_for_route. cbn. rewrite Hw. auto 10.
Qed.

Lemma kept_trans s1 s2 s3 : kept s1 s2 -> kept s2 s3 -> kept s1 s3.
Proof. unfold kept. intuition congruence. Qed.

Lemma scan_ended_ok s : linked (m_beacon_rx_buffer s) ->
  (0 < m_num_beacons s -> (0 < length (m_beacon_rx_buffer s))%nat) ->
  exists r s', scan_ended E s = Some (r, s') /\ kept s s' /\ (r.1 = PROV_RES_SUCCESS -> waits_for_route s').
Proof.
  intros Hl Hn. unfold scan_ended. rewrite do_worldE, putsE, asksE. cbn [m_num_beacons set_events set_world].
  set (s1 := set_events _ _).
  assert (Hk : kept s s1) by (unfold kept; cbn; by rewrite cancel_view).
  destruct (Z.ltb_spec 0 (m_num_beacons s)) as [H|H]; [|by eexists _, s1].
  destruct (select_ok s1) as (o & s2 & Hs & Hk2); [done|by apply Hn|]. rewrite (sf_bindE _ _ _ _ _ Hs).
  pose proof (kept_trans _ _ _ Hk Hk2) as Hk'.
  destruct o as [b|]; [|by eexists _, s2].
  destruct (join_ok b s2) as (r & s3 & Hj & Hk3 & Hr); [apply Hk2..|].
  exists r, s3. split; [done|]. split; [by eapply kept_trans|done].
Qed.

(** One more try after a failure, or the end. *)
Lemma try_again_ok r d s : kept s s ->
  0 <= m_retry s <= nr -> nb_retry s = nr /\ nr < 255 -> scans (vw (world s)) - sc <= m_retry s + 1 -> ends (vw (world s)) = en ->
  goes_on ((over ← one_more_try;
    new_delay_ms ← (if (over : bool) then _ ← fail_with E r; mret d
                    else _ ← puts (set_state JOIN_STATE_START); mret APP_SCHEDULER_SCHEDULE_ASAP);
    _ ← puts (set_events no_events);
    mret new_delay_ms) s).
Proof.
  intros (_ & _ & H3 & H4 & _) H1 H2 H5 H6. rewrite one_more_tryE by lia.
  destruct (Z.ltb_spec (nb_retry s) (m_retry s + 1)) as [Hlt|Hge].
  - rewrite sf_assoc. apply over_ok with (d := d); [cbn; done || lia..|].
    intros s' _ Hs'. rewrite sf_retE, putsE. by apply goes_onI.
  - rewrite sf_assoc, putsE, sf_retE, putsE. apply goes_onI. rewrite again_asap. session_parts.
Qed.

Lemma wait_scan_end_ok s : session_at (again APP_SCHEDULER_SCHEDULE_ASAP (vw (world s))) s ->
  m_state s = JOIN_STATE_WAIT_SCAN_END -> goes_on (state_wait_scan_end E s).
Proof.
  intros (H1 & H2 & H3 & H4 & H5) Hst. unfold state_wait_scan_end. rewrite Hst, again_asap in H5. cbn in H5.
  rewrite asksE.
  assert (exists r s', ((if scan_end (m_events s) then scan_ended E
       else mret (if timeout (m_events s) then PROV_RES_TIMEOUT else PROV_RES_SUCCESS, APP_SCHEDULER_STOP_TASK)) : sf (state W) (provisioning_res_e * Z)) s
       = Some (r, s') /\ kept s s' /\ (r.1 = PROV_RES_SUCCESS -> waits_for_route s' \/
         s' = s /\ r.2 = APP_SCHEDULER_STOP_TASK /\ timeout (m_events s) = false))
    as (r & s' & Hr & Hk & Hs).
  { destruct (scan_end (m_events s)).
    - destruct (scan_ended_ok s) as (r & s' & Hr & Hk & Hs); [done..|]. exists r, s'. auto.
    - eexists _, s. split; [reflexivity|]. split; [done|]. destruct (timeout (m_events s)); [done|by right]. }
  erewrite sf_bindE by exact Hr.
  destruct Hk as (K1 & K2 & K3 & K4 & K5 & K6). case_decide as Hd.
  - apply try_again_ok; [done|lia..].
  - destruct Hs as [[Hs1 Hs2]|(-> & Hd' & Ht)]; [by destruct (decide (r.1 = PROV_RES_SUCCESS))|apply goes_onI..].
    + unfold session_at. rewrite Hs1.
      assert (forall d v, timeout_pending v = true -> timeout_pending (again d v) = true /\ scans (again d v) = scans v /\ ends (again d v) = ends v)
        as Ha by (intros d v; unfold again; by destruct (d =? _)).
      destruct (Ha r.2 _ Hs2) as (A1 & A2 & A3). rewrite A1, A2, A3. session_parts; rewrite ?K1, ?K2; lia || auto with lia.
    + rewrite Hd', again_stop. unfold session_at. rewrite Hst. session_parts.
      destruct H5 as ([?|[??]] & ?); [auto|congruence].
Qed.

Lemma wait_route_change_ok s : session_at (again APP_SCHEDULER_SCHEDULE_ASAP (vw (world s))) s ->
  m_state s = JOIN_STATE_WAIT_ROUTE_CHANGE -> goes_on (state_wait_route_change E s).
Proof.
  intros (H1 & H2 & H3 & H4 & H5) Hst. unfold state_wait_route_change. rewrite Hst, again_asap in H5. cbn in H5.
  rewrite asksE. destruct (negb _).
  - rewrite putsE, asksE. cbn. destruct (timeout (m_events s)) eqn:Ht.
    + rewrite do_worldE, one_more_tryE by (cbn; lia). cbn [nb_retry m_retry set_world raise_route_change set_events].
      destruct (Z.ltb_spec (nb_retry s) (m_retry s + 1)) as [Hlt|Hge].
      * apply over_ok with (d := APP_SCHEDULER_STOP_TASK); cbn; rewrite ?remove_event_view; try done; try lia.
        intros s' Hs' _. by apply goes_onI.
      * rewrite putsE. apply goes_onI. rewrite again_asap. session_parts. rewrite remove_event_view. cbn. lia.
    + apply goes_onI. rewrite again_stop. unfold session_at. cbn. rewrite Hst, Ht. session_parts.
      destruct H5 as ([?|[??]] & ?); [auto|congruence].
  - rewrite !sf_assoc, do_worldE, sf_assoc, do_worldE, sf_assoc.
    set (s0 := set_world _ _). destruct (reset_ok false s0) as (w & Hr & Hw). rewrite (sf_bindE _ _ _ _ _ Hr).
    match type of Hr with _ = Some (tt, ?x) => destruct (end_view PROV_RES_SUCCESS x) as (w' & He & Hw') end.
    rewrite (sf_bindE _ _ _ _ _ He), asksE. cbn. apply goes_onI. rewrite again_stop. cbn in Hw', Hw.
    rewrite remove_event_view, cancel_view in Hw.
    session_parts. rewrite Hw', Hw. cbn. lia.
Qed.

Lemma run_ok s : session_at (again APP_SCHEDULER_SCHEDULE_ASAP (vw (world s))) s ->
  goes_on (run_state_machine E s).
Proof.
  intros H. pose proof H as (_ & _ & _ & _ & H5). unfold run_state_machine. rewrite asksE.
  destruct (m_state s) eqn:Hst; [done|by apply idle_ok|by apply scan_start_ok|by apply wait_scan_end_ok|by apply wait_route_change_ok].
Qed.

(** An event keeps the session. *)
Lemma scheduled_ok s w : session s ->
  vw w = pend run_state_machine_task true (vw (world s)) -> session (set_world w s).
Proof.
  intros (H1 & H2 & H3 & H4 & H5) Hw. unfold session. cbn. rewrite Hw. session_parts.
  destruct (m_state s); [done|destruct (start (m_events s)); tauto|tauto|..]; destruct H5 as ([?|[??]] & ?); auto.
Qed.

Lemma session_events s e : session s -> start e = start (m_events s) ->
  (timeout (m_events s) = true -> timeout e = true) -> session (set_events e s).
Proof.
  intros (H1 & H2 & H3 & H4 & H5) Hs Ht. session_parts. rewrite Hs.
  destruct (m_state s); [done..| |]; destruct H5 as ([?|[??]] & ?); auto.
Qed.

Lemma timeout_ok s w : session s -> vw w = pend timeout_task_ false (vw (world s)) ->
  exists s', (_ ← timeout_task E; mret tt) (set_world w s) = Some (tt, s') /\ session s'.
Proof.
  intros (H1 & H2 & H3 & H4 & H5) Hw. unfold timeout_task. rewrite sf_assoc, putsE, sf_assoc.
  edestruct schedule_ok as (w' & Hs & Hw'). rewrite (sf_bindE _ _ _ _ _ Hs). cbn in Hw'. rewrite Hw in Hw'.
  eexists. split; [reflexivity|]. unfold session. cbn. rewrite Hw'. session_parts.
  destruct (m_state s); [done|destruct (start (m_events s)); tauto|tauto|..]; destruct H5 as ([?|[??]] & ?); auto.
Qed.

Lemma event_keeps e s : event_ok e -> session s ->
  exists s', do_event e s = Some (tt, s') /\ session s'.
Proof.
  intros He Hs. destruct e as [| |num buf|]; cbn [do_event].
  - rewrite asksE. destruct (run_pending (vw (world s))) eqn:Hp; [|by exists s].
    rewrite do_worldE. set (s0 := set_world _ s).
    destruct (run_ok s0) as (d & s' & Hr & Hs').
    { unfold s0. cbn. rewrite take_view, again_asap. cbn.
      replace {| run_pending := true; timeout_pending := _; scans := _; ends := _ |} with (vw (world s)); [done|].
      destruct (vw (world s)). cbn in *. by subst. }
    rewrite (sf_bindE _ _ _ _ _ Hr). eexists. split; [reflexivity|].
    unfold session. cbn. rewrite resume_view. exact Hs'.
  - rewrite asksE. destruct (timeout_pending (vw (world s))); [|by exists s].
    rewrite do_worldE. by apply timeout_ok, take_view.
  - unfold joining_beacon_rx_cb. rewrite !putsE. edestruct schedule_ok as (w & H & Hw). rewrite H.
    eexists. split; [reflexivity|]. apply scheduled_ok; [|done]. apply session_events; [|done..].
    destruct Hs as (H1 & H2 & H3 & H4 & H5), He. by session_parts.
  - unfold route_changed_cb. rewrite putsE. edestruct schedule_ok as (w & H & Hw). rewrite H.
    eexists. split; [reflexivity|]. apply scheduled_ok; [|done]. by apply session_events.
Qed.

Lemma events_keep es s : Forall event_ok es -> session s ->
  exists s', do_events es s = Some (tt, s') /\ session s'.
Proof.
  intros Hes. revert s. induction Hes as [|e es He _ IH]; intros s Hs; [by exists s|].
  destruct (event_keeps e s He Hs) as (s1 & H1 & Hs1). destruct (IH s1 Hs1) as (s2 & H2 & Hs2).
  exists s2. split; [|done]. cbn [do_events]. by rewrite (sf_bindE _ _ _ _ _ H1).
Qed.

End Invariant.

(** C38: a joining session that is started from idle, with fewer than 255
    retries, never faults and is never stuck, whatever events come in whatever
    order (its task, timeouts, ends of scans with the beacons the stack has
    found, changes of route): while it is not over, a task of it is pending and
    it can go on; it scans once more than it may retry at most; its end is
    reported exactly once, when it is over. *)
Theorem joining_session s es :
  m_state s = JOIN_STATE_IDLE -> 0 <= m_retry s -> 0 <= nb_retry s < 255 -> linked (m_beacon_rx_buffer s) ->
  (0 < m_num_beacons s -> (0 < length (m_beacon_rx_buffer s))%nat) -> Forall event_ok es ->
  exists s1 s', Provisioning_Joining_start E s = Some (PROV_RET_OK, s1) /\ do_events es s1 = Some (tt, s') /\
    let before := vw (world s) in let v := vw (world s') in
    let over := m_state s' = JOIN_STATE_IDLE /\ start (m_events s') = false in
    scans v <= scans before + nb_retry s + 1 /\
    (over /\ ends v = ends before + 1 \/
     ~ over /\ ends v = ends before /\ (run_pending v = true \/ timeout_pending v = true)).
Proof.
  intros Hst Hr Hn Hl Hb Hes. unfold Provisioning_Joining_start. rewrite asksE, decide_False by tauto.
  rewrite putsE. edestruct add_ok as (w & Ha & Hw). rewrite (sf_bindE _ _ _ _ _ Ha). cbn in Hw. cbn [negb Z.eqb APP_SCHEDULER_RES_OK].
  destruct (events_keep (scans (vw (world s))) (ends (vw (world s))) (nb_retry s) es (set_world w (raise_start s)))
    as (s' & He & Hs); [done| |].
  { unfold session. cbn. rewrite Hw. session_parts. rewrite Hst. cbn. lia. }
  eexists _, s'. split; [reflexivity|]. split; [exact He|]. cbn zeta. destruct Hs as (H1 & H2 & _ & _ & H5). cbn zeta in H5.
  destruct (m_state s') eqn:E'; [done| | | |]; [destruct (start (m_events s'))| | |]; (split; [lia|]); [right|left|right..];
    split_and!; intuition (done || congruence || lia).
Qed.

End Sessions.

(** ** A session *)

(** An application that takes the first provisioning beacon, on a stack that
    finds a route. *)
Module JoiningExample.
Definition ok_world (v : view) : Z * view := (APP_RES_OK, v).
Definition E : env view := {|
  addTask := fun t _ v => (APP_SCHEDULER_RES_OK, pend t true v);
  cancelTask := fun t v => pend t false v;
  addEventCb := id;
  removeEventCb := id;
  startJoiningBeaconRx := fun v => (APP_RES_OK, one_scan v);
  stopJoiningBeaconRx := id;
  startJoiningProcess := fun _ _ v => (APP_RES_OK, v);
  stopJoiningProcess := id;
  getNetworkAddress := fun _ => (APP_RES_OK, 1);
  getNetworkChannel := fun _ => (APP_RES_OK, 1);
  getRouteInfo := fun _ => APP_LIB_STATE_ROUTE_STATE_VALID;
  joining_cb := fun p buf v => (match p with Some b => if decide (b < length buf)%nat then Some b else None | None => None end, v);
  end_cb := fun _ s => Some (tt, set_world (one_end (world s)) s) |}.
Definition take (t : task) (v : view) : view := pend t false v.
Definition resume (d : Z) (v : view) : view := again d v.

#[export] Instance surroundings : Surroundings E id take resume.
Proof.
  split; try done; cbn; intros.
  - destruct p as [c|]; [|done]. case_decide; [|done]. by simplify_eq.
  - eexists. split; reflexivity.
Qed.

Definition s0 : state view :=
  {| m_events := no_events; m_retry := 0; m_state := JOIN_STATE_IDLE; nb_retry := 3;
     m_beacon_rx_buffer := []; m_num_beacons := 0;
     world := {| run_pending := false; timeout_pending := false; scans := 0; ends := 0 |} |}.

Definition events : list event :=
  [Run; Run; ScanEnd 0 []; Run; Run;
   ScanEnd 2 [example_beacon (Some 1%nat) false 10; example_beacon None true 11]; Run; Timeout; RouteChange; Run].
End JoiningExample.

(** With 255 retries the counter wraps around and a session never gives up. *)
Lemma retries_255_never_over {W} (s : state W) : nb_retry s = 255 ->
  fst <$> one_more_try s = Some false.
Proof.
  intros H. unfold one_more_try. rewrite putsE. unfold asks, fmap, option_fmap, option_map. cbn [nb_retry set_retry m_retry fst].
  rewrite H. f_equal. apply Z.ltb_ge. unfold u8, uwrap.
  pose proof (Z.mod_pos_bound (m_retry s + 1) (2 ^ 8)). lia.
Qed.

(** A node without a network address takes the branch of a node that is
    already in the network of the beacon, and joins none. *)
Lemma unset_address_is_joined {W} (E : env W) b s :
  (getNetworkAddress E (world s)).1 = APP_RES_INVALID_CONFIGURATION ->
  join_network E b s =
    (_ ← start_timeout E DELAY_WAIT_END_JOINING_MS; mret (PROV_RES_SUCCESS, APP_SCHEDULER_SCHEDULE_ASAP))
      (set_state JOIN_STATE_WAIT_ROUTE_CHANGE (raise_route_change true s)).
Proof. intros H. unfold join_network. rewrite asksE, H. reflexivity. Qed.

(** When no timeout can be scheduled for a scan, the end of the session is
    reported and the state is still that of a scan under way: nothing is
    pending, and the library cannot be started again. *)
Definition full_scheduler : env view := {|
  addTask := fun _ _ v => (1, v);
  cancelTask := cancelTask JoiningExample.E; addEventCb := id; removeEventCb := id;
  startJoiningBeaconRx := startJoiningBeaconRx JoiningExample.E; stopJoiningBeaconRx := id;
  startJoiningProcess := startJoiningProcess JoiningExample.E; stopJoiningProcess := id;
  getNetworkAddress := getNetworkAddress JoiningExample.E; getNetworkChannel := getNetworkChannel JoiningExample.E;
  getRouteInfo := getRouteInfo JoiningExample.E; joining_cb := joining_cb JoiningExample.E;
  end_cb := end_cb JoiningExample.E |}.

Lemma start_after_end :
  (r ← state_start full_scheduler (set_state JOIN_STATE_START JoiningExample.s0);
   again ← fst <$> Provisioning_Joining_start full_scheduler r.2;
   Some (m_state r.2, ends (world r.2), timeout_pending (world r.2), again)) =
  Some (JOIN_STATE_WAIT_SCAN_END, 1, false, PROV_RET_INVALID_STATE).
Proof. reflexivity. Qed.

Lemma linked_nil : linked [].
Proof. by intros i c j Hi. Qed.

Lemma events_ok : Forall event_ok JoiningExample.events.
Proof.
  repeat (apply Forall_cons; split); try done.
  split; [|cbn; lia]. intros i c j Hi Hc.
  destruct i as [|[|i]]; cbn in Hi; simplify_eq; cbn in *; simplify_eq; lia.
Qed.

(** The first scan finds nothing, the second one a network. *)
Lemma joining_session_witness : exists s1 s',
  Provisioning_Joining_start JoiningExample.E JoiningExample.s0 = Some (PROV_RET_OK, s1) /\
  do_events JoiningExample.E id JoiningExample.take JoiningExample.resume JoiningExample.events s1 = Some (tt, s') /\
  let v := world s' in
  scans v <= 0 + 3 + 1 /\
  (m_state s' = JOIN_STATE_IDLE /\ start (m_events s') = false /\ ends v = 0 + 1 \/ ends v = 0).
Proof.
  destruct (joining_session JoiningExample.E id JoiningExample.take JoiningExample.resume
    JoiningExample.s0 JoiningExample.events (SU := JoiningExample.surroundings)) as (s1 & s' & H1 & H2 & H3 & H4).
  - reflexivity.
  - cbn. lia.
  - cbn. lia.
  - apply linked_nil.
  - cbn. lia.
  - apply events_ok.
  - exists s1, s'. split; [exact H1|]. split; [exact H2|]. split; [exact H3|].
    destruct H4 as [([? ?] & ?)|(_ & ? & _)]; [by left|by right].
Defined.

(** It ends with one report after two scans. *)
Example joining_run :
  (s1 ← snd <$> Provisioning_Joining_start JoiningExample.E JoiningExample.s0;
   s' ← snd <$> do_events JoiningExample.E id JoiningExample.take JoiningExample.resume JoiningExample.events s1;
   Some (m_state s', m_retry s', scans (world s'), ends (world s'))) = Some (JOIN_STATE_IDLE, 1, 2, 1).
Proof. vm_compute. reflexivity. Qed.
