(* ===== verification/Proxy.v ===== *)
(** * Provisioning proxy

    [libraries/provisioning/proxy.c]: a node of the network sends joining
    beacons and, when local provisioning is allowed, answers the START packets
    of new nodes with the network parameters, encrypted under the factory key
    for the secured method.

    The CBOR encoder is vendored code: the record [cbor_encoder] holds its
    functions over a type of encoders.  The stack, the random numbers and the
    callback of the application are functions over a world [W]. *)

From S2P Require Import Prelude Api Aes Aessw ProvPdu ProvData.

(** ** The encoder *)

Record cbor_encoder (T : Type) := {
  cbor_encoder_init : Z -> T;
  (** the encoder and that of the map *)
  cbor_encoder_create_map : T -> Z -> CborError * T * T;
  cbor_encode_uint : T -> Z -> CborError * T;
  cbor_encode_byte_string : T -> list Z -> CborError * T;
  cbor_encoder_close_container : T -> T -> CborError * T;
  (** what [cbor_encoder_get_buffer_size] counts: the bytes in the buffer *)
  cbor_encoder_buffer : T -> list Z }.
Arguments cbor_encoder_init {T}. Arguments cbor_encoder_create_map {T}. Arguments cbor_encode_uint {T}.
Arguments cbor_encode_byte_string {T}. Arguments cbor_encoder_close_container {T}. Arguments cbor_encoder_buffer {T}.

(** ** State *)

Record provisioning_proxy_net_param_t := {
  net_enc_key : list Z; net_auth_key : list Z; net_net_addr : Z; net_net_chan : Z }.

(** A received packet; [image] is the memory of the structure itself. *)
Record received := { rx_data : list Z; rx_src : Z; image : list Z }.

Section Proxy.
Context {T W : Type} (C : cbor_encoder T).

Abbreviation start_cb_f := (list Z -> Z -> Z -> provisioning_proxy_net_param_t -> W -> bool * provisioning_proxy_net_param_t * W).

Record provisioning_proxy_conf_t := {
  conf_payload : option (list Z);
  conf_num_bytes : Z;
  conf_tx_power : Z;
  is_local_unsec_allowed : bool;
  is_local_sec_allowed : bool;
  conf_key : list Z;
  conf_key_len : Z;
  conf_start_cb : option start_cb_f }.

Record state := {
  m_conf : provisioning_proxy_conf_t;
  m_net_param : provisioning_proxy_net_param_t;
  m_started : bool;
  m_init : bool;
  m_counter : Z;
  world : W }.

Record env := {
  sendData : app_lib_data_to_send_t -> W -> Z * W;
  addDataReceivedCb : W -> W;
  removeDataReceivedCb : W -> W;
  enableProxy : bool -> W -> W;
  startJoiningBeaconTx : option (list Z) -> Z -> Z -> W -> Z * W;
  stopJoiningBeaconTx : W -> Z * W;
  random_init : W -> W;
  random_get16 : W -> Z * W;
  (** what the stack holds where the local buffer of a handler is put *)
  stack_bytes : W -> list Z }.

Abbreviation M := (sf state).

Definition set_conf c s := {| m_conf := c; m_net_param := m_net_param s; m_started := m_started s; m_init := m_init s;
  m_counter := m_counter s; world := world s |}.
Definition set_net_param p s := {| m_conf := m_conf s; m_net_param := p; m_started := m_started s; m_init := m_init s;
  m_counter := m_counter s; world := world s |}.
Definition set_flags started init s := {| m_conf := m_conf s; m_net_param := m_net_param s; m_started := started;
  m_init := init; m_counter := m_counter s; world := world s |}.
Definition set_counter n s := {| m_conf := m_conf s; m_net_param := m_net_param s; m_started := m_started s;
  m_init := m_init s; m_counter := n; world := world s |}.
Definition set_world w s := {| m_conf := m_conf s; m_net_param := m_net_param s; m_started := m_started s;
  m_init := m_init s; m_counter := m_counter s; world := w |}.

Definition in_world {A} (f : W -> A * W) : M A := fun s => let '(x, w) := f (world s) in Some (x, set_world w s).
Definition do_world (f : W -> W) : M unit := puts (fun s => set_world (f (world s)) s).

(** ** Packets *)

Definition downlink (bytes : list Z) (num_bytes dest : Z) : app_lib_data_to_send_t :=
  {| to_bytes := bytes; to_num_bytes := num_bytes; to_dest_address := dest; to_delay := 0; to_tracking_id := 0;
     to_qos := 1; to_flags := 0; to_src_endpoint := PROV_DOWNLINK_EP; to_dest_endpoint := PROV_UPLINK_EP;
     to_hop_limit := 0; to_fragment_info := {| packet_id := 0; fragment_offset := 0; last_fragment := false |} |}.

(** [pdu] is the structure with the metadata, not the packet. *)
Definition send_nack (E : env) (type : Z) (data : received) : M unit :=
  let pdu := image data in
  let nack_pdu := pdu_prov_hdr PROV_PACKET_TYPE_DATA (field 1 4 pdu) (field 5 1 pdu) ++ [type] in
  _ ← in_world (sendData E (downlink nack_pdu 7 (rx_src data)));
  mret tt.

Definition encode_entry (id : Z) (value : T -> CborError * T) (m : T) : CborError * T :=
  match cbor_encode_uint C m id with
  | (CborNoError, m) => value m
  | r => r
  end.

Definition and_then (r : CborError * T) (k : T -> CborError * T) : CborError * T :=
  match r with (CborNoError, m) => k m | r => r end.

(** The error and the bytes, for a buffer of [len] bytes. *)
Definition encode_cbor_map (p : provisioning_proxy_net_param_t) (len : Z) : CborError * list Z :=
  let encoder := cbor_encoder_init C len in
  match cbor_encoder_create_map C encoder 4 with
  | (CborNoError, encoder, mapEncoder) =>
      match
        and_then (encode_entry PROV_DATA_ID_ENC_KEY (fun m => cbor_encode_byte_string C m (net_enc_key p)) mapEncoder)
        (fun m => and_then (encode_entry PROV_DATA_ID_AUTH_KEY (fun m => cbor_encode_byte_string C m (net_auth_key p)) m)
        (fun m => and_then (encode_entry PROV_DATA_ID_NET_ADDR (fun m => cbor_encode_uint C m (net_net_addr p)) m)
        (fun m => encode_entry PROV_DATA_ID_NET_CHAN (fun m => cbor_encode_uint C m (net_net_chan p)) m)))
      with
      | (CborNoError, mapEncoder) =>
          match cbor_encoder_close_container C encoder mapEncoder with
          | (CborNoError, encoder) => (CborNoError, cbor_encoder_buffer C encoder)
          | (err, _) => (err, [])
          end
      | (err, _) => (err, [])
      end
  | (err, _, _) => (err, [])
  end.


(** The packet with its key index, counter, code and encryption. *)
Definition encrypt_data (data_pdu : list Z) (data_len : nat) (iv : list Z) : M (list Z) :=
  _ ← puts (fun s => set_counter (u16 (m_counter s + 1)) s);
  counter ← asks m_counter;
  k ← reads (fun s => if (length (conf_key (m_conf s)) <? 32)%nat then None else Some (conf_key (m_conf s)));
  let data_pdu := set_field 7 2 counter (set_field 6 1 1 data_pdu) in
  let icb := add_counter iv counter in
  let omac1_state := aes_initOmac1 (take 16 k) omac0 in
  let '(mic, _) := aes_omac1 omac1_state PROV_MIC_SIZE (take (data_len + PROV_DATA_OFFSET) data_pdu) in
  let data_pdu := blit (PROV_DATA_OFFSET + data_len) mic data_pdu in
  let data_stream := aes_setupStream (drop ENC_KEY_OFFSET k) icb stream0 in
  let '(text, _) := aes_crypto128Ctr data_stream (slice PROV_DATA_OFFSET (data_len + PROV_MIC_SIZE) data_pdu) in
  mret (blit PROV_DATA_OFFSET text data_pdu).

(** [int8_t] *)
Definition s8 (x : Z) : Z := let y := u8 x in if y <? 128 then y else y - 256.

(** The method must be allowed. *)
Definition method_allowed (c : provisioning_proxy_conf_t) (method : Z) : option bool :=
  if method =? PROV_METHOD_UNSECURED then Some (is_local_unsec_allowed c)
  else if method =? PROV_METHOD_SECURED then Some (is_local_sec_allowed c)
  else None.

Definition send_data_packet (E : env) (data : received) (method : Z) : M unit :=
  let pdu := rx_data data in
  data_buffer ← asks (fun s => stack_bytes E (world s));
  p ← asks m_net_param;
  let data_pdu := blit 0 (pdu_prov_hdr PROV_PACKET_TYPE_DATA (field 1 4 pdu) (field 5 1 pdu)) data_buffer in
  let data_pdu := set_field 7 2 0 (set_field 6 1 0 data_pdu) in
  match encode_cbor_map p (Z.of_nat (PROV_PDU_SIZE - PROV_DATA_OFFSET - PROV_MIC_SIZE)) with
  | (CborNoError, map) =>
      let data_pdu := blit PROV_DATA_OFFSET map data_pdu in
      let data_len := length map in
      r ← (if method =? PROV_METHOD_SECURED then
             data_pdu ← encrypt_data data_pdu data_len (slice 7 16 pdu);
             mret (data_pdu, (data_len + PROV_MIC_SIZE)%nat)
           else mret (data_pdu, data_len));
      let num_bytes := (PROV_DATA_OFFSET + r.2)%nat in
      _ ← in_world (sendData E (downlink (take num_bytes r.1) (Z.of_nat num_bytes) (rx_src data)));
      mret tt
  | _ => mret tt
  end.

Definition pkt_received_cb (E : env) (data : received) : M Z :=
  let pdu := rx_data data in
  type ← reads (fun _ => pdu !! 0%nat);
  if negb (type =? PROV_PACKET_TYPE_START) then mret APP_LIB_DATA_RECEIVE_RES_HANDLED
  else if negb (type =? PROV_PACKET_TYPE_START) then mret APP_LIB_DATA_RECEIVE_RES_HANDLED
  else
    let uid_len := s8 (Z.of_nat (length pdu) - Z.of_nat sizeof_hdr - 1 - Z.of_nat AES_128_KEY_BLOCK_SIZE) in
    if uid_len <=? 0 then mret APP_LIB_DATA_RECEIVE_RES_HANDLED
    else
      let method := field 6 1 pdu in
      c ← asks m_conf;
      match method_allowed c method with
      | None => mret APP_LIB_DATA_RECEIVE_RES_HANDLED
      | Some false =>
          _ ← send_nack E PROV_NACK_TYPE_METHOD_NOT_SUPPORTED data; mret APP_LIB_DATA_RECEIVE_RES_HANDLED
      | Some true =>
          accepted ← match conf_start_cb c with
            | Some cb =>
                p ← asks m_net_param;
                r ← in_world (fun w =>
                      let '(b, p, w) := cb (slice 23 (Z.to_nat uid_len) pdu) uid_len method p w in ((b, p), w));
                _ ← puts (set_net_param r.2);
                mret r.1
            | None => mret true
            end;
          if negb accepted then
            _ ← send_nack E PROV_NACK_TYPE_NOT_AUTHORIZED data; mret APP_LIB_DATA_RECEIVE_RES_HANDLED
          else
            _ ← send_data_packet E data method; mret APP_LIB_DATA_RECEIVE_RES_HANDLED
      end.

(** ** The interface *)

Definition is_local_provisioning (c : provisioning_proxy_conf_t) : bool :=
  is_local_sec_allowed c || is_local_unsec_allowed c.

Definition no_payload (c : provisioning_proxy_conf_t) : bool := match conf_payload c with None => true | _ => false end.

Definition Provisioning_Proxy_init (E : env) (conf : provisioning_proxy_conf_t) : M provisioning_ret_e :=
  running ← asks (fun s => m_init s && m_started s);
  if (running : bool) then mret PROV_RET_INVALID_STATE
  else if (no_payload conf && negb (conf_num_bytes conf =? 0)) || (negb (no_payload conf) && (conf_num_bytes conf =? 0))
  then mret PROV_RET_INVALID_PARAM
  else if is_local_provisioning conf &&
          ((is_local_sec_allowed conf && (conf_key_len conf =? 0)) ||
           match conf_start_cb conf with None => true | _ => false end)
  then mret PROV_RET_INVALID_PARAM
  else
    _ ← puts (set_conf conf);
    _ ← (if is_local_provisioning conf then
           _ ← do_world (enableProxy E false);
           _ ← do_world (addDataReceivedCb E);
           _ ← do_world (random_init E);
           n ← in_world (random_get16 E);
           puts (set_counter n)
         else mret tt);
    _ ← puts (set_flags false true);
    mret PROV_RET_OK.

Definition Provisioning_Proxy_start (E : env) : M provisioning_ret_e :=
  ready ← asks (fun s => m_init s && negb (m_started s));
  if negb ready then mret PROV_RET_INVALID_STATE
  else
    c ← asks m_conf;
    res ← in_world (startJoiningBeaconTx E (conf_payload c) (conf_num_bytes c) (conf_tx_power c));
    if negb (res =? APP_RES_OK) then mret PROV_RET_JOINING_LIB_ERROR
    else
      _ ← (if is_local_provisioning c then _ ← do_world (enableProxy E false); do_world (addDataReceivedCb E) else mret tt);
      _ ← puts (fun s => set_flags true (m_init s) s);
      mret PROV_RET_OK.

Definition Provisioning_Proxy_stop (E : env) : M provisioning_ret_e :=
  running ← asks (fun s => m_init s && m_started s);
  if negb running then mret PROV_RET_INVALID_STATE
  else
    c ← asks m_conf;
    _ ← (if is_local_provisioning c then _ ← do_world (enableProxy E true); do_world (removeDataReceivedCb E) else mret tt);
    res ← in_world (stopJoiningBeaconTx E);
    if negb (res =? APP_RES_OK) then mret PROV_RET_JOINING_LIB_ERROR
    else
      _ ← puts (fun s => set_flags false (m_init s) s);
      mret PROV_RET_OK.

End Proxy.
Arguments env : clear implicits.
Arguments state : clear implicits.
Arguments provisioning_proxy_conf_t : clear implicits.

(** * Properties *)

#[local] Opaque AES_ECB_encrypt AES_init_ctx le_put cmac aes_crypto128Ctr aes_omac1 aes_initOmac1 add_counter.

(** ** The encrypted packet *)

(** The key index and the counter replace what is there. *)
Lemma head_fields a i ki c l1 l2 rest : length l1 = 1%nat -> length l2 = 2%nat ->
  set_field 7 2 c (set_field 6 1 ki (pdu_prov_hdr PROV_PACKET_TYPE_DATA a i ++ l1 ++ l2 ++ rest)) =
  data_head a i ki c ++ rest.
Proof.
  intros H1 H2. set (h := pdu_prov_hdr _ a i). pose proof (length_pdu_prov_hdr PROV_PACKET_TYPE_DATA a i) as Hh. fold h in Hh.
  unfold sizeof_hdr in Hh. unfold set_field.
  replace 7%nat with (length (h ++ le_put 1 ki)) by (rewrite length_app, length_le_put; lia).
  replace 6%nat with (length h) by done. rewrite blit_at by (by rewrite length_le_put).
  rewrite app_assoc, blit_at by (by rewrite length_le_put). unfold data_head. fold h. by rewrite <- !app_assoc.
Qed.

Section ProxyProofs.
Context {T W : Type} (C : cbor_encoder T).
Implicit Types (s : state W) (w : W).

Lemma proxy_do_worldE {B} (f : W -> W) (k : unit -> sf (state W) B) s :
  (y ← do_world f; k y) s = k tt (set_world (f (world s)) s).
Proof. reflexivity. Qed.

Lemma proxy_in_worldE {A B} (f : W -> A * W) (k : A -> sf (state W) B) s :
  (y ← in_world f; k y) s = k (f (world s)).1 (set_world (f (world s)).2 s).
Proof. unfold mbind, sf_bind, in_world. by destruct (f (world s)). Qed.

Lemma encrypt_data_spec map a i l1 l2 tail iv s :
  length l1 = 1%nat -> length l2 = 2%nat ->
  bytes map -> block iv -> factory_key (conf_key (m_conf s)) ->
  let counter := u16 (m_counter s + 1) in
  let head := data_head a i 1 counter in
  forall old, (length old = PROV_MIC_SIZE) ->
  encrypt_data (pdu_prov_hdr PROV_PACKET_TYPE_DATA a i ++ l1 ++ l2 ++ map ++ old ++ tail) (length map) iv s =
    Some (head ++ sealed (conf_key (m_conf s)) iv counter head map ++ tail, set_counter counter s).
Proof.
  intros H1 H2 Hm Hi Hk counter head old Ho. set (k := conf_key (m_conf s)) in *. set (n := length map).
  unfold encrypt_data. rewrite putsE, asksE. cbn [m_counter set_counter]. fold counter.
  rewrite (readsE _ _ _ k).
  2:{ cbn [m_conf set_counter]. fold k. rewrite (proj1 Hk). done. }
  rewrite head_fields by done. fold head.
  assert (Hh : length head = PROV_DATA_OFFSET) by apply length_data_head.
  assert (Hc : is_u32 counter) by (pose proof (u16_range (m_counter s + 1)); unfold counter, fits in *; lia).
  assert (Hne : head <> []) by (intros E; by rewrite E in Hh).
  assert (Ht : take (n + PROV_DATA_OFFSET) (head ++ map ++ old ++ tail) = head ++ map).
  { rewrite <- Hh, Nat.add_comm. rewrite app_assoc. unfold n. rewrite <- length_app. apply take_app_length. }
  rewrite Ht.
  pose proof (omac1_spec (take 16 k) omac0 PROV_MIC_SIZE (head ++ map) (auth_key_block k Hk)
    ltac:(intros E; by apply app_nil in E as [E _])) as Hmic.
  destruct (aes_omac1 _ _ _) as [mic st]. cbn [fst] in Hmic. fold (the_mic k head map) in Hmic. subst mic.
  pose proof (length_the_mic k head map Hk (data_head_bytes _ _ _ _) Hm Hne) as Hlm.
  replace (PROV_DATA_OFFSET + n)%nat with (length (head ++ map)) by (rewrite length_app, Hh; done).
  rewrite (app_assoc head map), blit_at by lia. rewrite <- app_assoc.
  fold (the_stream k iv counter).
  assert (Hs : slice PROV_DATA_OFFSET (n + PROV_MIC_SIZE) (head ++ map ++ the_mic k head map ++ tail) = map ++ the_mic k head map).
  { unfold slice. rewrite <- Hh, drop_app_length, app_assoc. rewrite <- Hlm. unfold n. rewrite <- length_app. apply take_app_length. }
  rewrite Hs.
  pose proof (sealed_spec k iv counter head map Hk Hi Hc (data_head_bytes _ _ _ _) Hm Hne) as [Hls _].
  unfold sealed in *. destruct (aes_crypto128Ctr _ _) as [text st']. cbn [fst] in *.
  rewrite <- Hh. rewrite (app_assoc map), blit_at by (rewrite length_app; lia). done.
Qed.

End ProxyProofs.
(** ** The encoder *)

Definition net_doc (p : provisioning_proxy_net_param_t) : document :=
  [(PROV_DATA_ID_ENC_KEY, Bytes (net_enc_key p)); (PROV_DATA_ID_AUTH_KEY, Bytes (net_auth_key p));
   (PROV_DATA_ID_NET_ADDR, Uint (net_net_addr p)); (PROV_DATA_ID_NET_CHAN, Uint (net_net_chan p))].

Definition net_param_ok (p : provisioning_proxy_net_param_t) : Prop :=
  bytes (net_enc_key p) /\ bytes (net_auth_key p) /\ is_u32 (net_net_addr p) /\ is_u8 (net_net_chan p).

(** What the documentation of the encoder says: as long as no error is
    returned, the buffer holds the entries so far, and in the end a map of the
    size announced that the parser reads back. *)
Class CborWriter {T V} (C : cbor_encoder T) (P : cbor V) (at_key : V -> document -> Prop)
    (building : Z -> Z -> T -> T -> document -> option Z -> Prop) : Prop := {
  writer_create cap n e m : cbor_encoder_create_map C (cbor_encoder_init C cap) n = (CborNoError, e, m) ->
    building cap n e m [] None;
  writer_key cap n e m doc id m' : building cap n e m doc None -> is_u8 id ->
    cbor_encode_uint C m id = (CborNoError, m') -> building cap n e m' doc (Some id);
  writer_uint cap n e m doc id x m' : building cap n e m doc (Some id) -> fits 64 x ->
    cbor_encode_uint C m x = (CborNoError, m') -> building cap n e m' (doc ++ [(id, Uint x)]) None;
  writer_bytes cap n e m doc id bs m' : building cap n e m doc (Some id) -> bytes bs ->
    cbor_encode_byte_string C m bs = (CborNoError, m') -> building cap n e m' (doc ++ [(id, Bytes bs)]) None;
  writer_close cap n e m doc e' : building cap n e m doc None -> Z.of_nat (length doc) = n ->
    cbor_encoder_close_container C e m = (CborNoError, e') ->
    0 < Z.of_nat (length (cbor_encoder_buffer C e')) <= cap /\ bytes (cbor_encoder_buffer C e') /\
    encodes P at_key (cbor_encoder_buffer C e') doc }.

Section Writer.
Context {T V : Type} (C : cbor_encoder T) (P : cbor V) at_key building `{CW : !CborWriter C P at_key building}.

Lemma entry_uint cap n e m doc id x m' : building cap n e m doc None -> is_u8 id -> fits 64 x ->
  encode_entry C id (fun m => cbor_encode_uint C m x) m = (CborNoError, m') ->
  building cap n e m' (doc ++ [(id, Uint x)]) None.
Proof.
  intros H Hid Hx. unfold encode_entry. destruct (cbor_encode_uint C m id) as [[] m1] eqn:E; try done.
  intros E'. by eapply writer_uint, E'; [eapply writer_key, E|].
Qed.

Lemma entry_bytes cap n e m doc id bs m' : building cap n e m doc None -> is_u8 id -> bytes bs ->
  encode_entry C id (fun m => cbor_encode_byte_string C m bs) m = (CborNoError, m') ->
  building cap n e m' (doc ++ [(id, Bytes bs)]) None.
Proof.
  intros H Hid Hx. unfold encode_entry. destruct (cbor_encode_uint C m id) as [[] m1] eqn:E; try done.
  intros E'. by eapply writer_bytes, E'; [eapply writer_key, E|].
Qed.

Lemma encode_cbor_map_spec p cap map : net_param_ok p -> encode_cbor_map C p cap = (CborNoError, map) ->
  0 < Z.of_nat (length map) <= cap /\ bytes map /\ encodes P at_key map (net_doc p).
Proof.
  intros (H1 & H2 & H3 & H4). unfold encode_cbor_map.
  destruct (cbor_encoder_create_map C _ 4) as [[[] e] m] eqn:E0; try done.
  apply writer_create in E0.
  destruct (encode_entry C PROV_DATA_ID_ENC_KEY _ m) as [[] m1] eqn:E1; try done.
  eapply entry_bytes in E1; [|exact E0|done|done]. cbn [and_then].
  destruct (encode_entry C PROV_DATA_ID_AUTH_KEY _ m1) as [[] m2] eqn:E2; try done.
  eapply entry_bytes in E2; [|exact E1|done|done]. cbn [and_then].
  destruct (encode_entry C PROV_DATA_ID_NET_ADDR _ m2) as [[] m3] eqn:E3; try done.
  eapply entry_uint in E3; [|exact E2|done|unfold fits in *; lia]. cbn [and_then].
  destruct (encode_entry C PROV_DATA_ID_NET_CHAN _ m3) as [[] m4] eqn:E4; try done.
  eapply entry_uint in E4; [|exact E3|done|unfold fits in *; lia].
  destruct (cbor_encoder_close_container C e m4) as [[] e'] eqn:E5; try done.
  intros [= <-]. by eapply writer_close, E5.
Qed.

End Writer.

(** ** The answer to a START packet *)

Section Answer.
Context {T V W : Type} (C : cbor_encoder T) (E : env W).
Implicit Types (s : state W) (w : W).

(** The packet to a new node. *)
Definition reply (k : list Z) (pdu map : list Z) (secure : bool) (counter : Z) : list Z :=
  let head := data_head (field 1 4 pdu) (field 5 1 pdu) (if secure then 1 else 0) counter in
  head ++ if secure then sealed k (slice 7 16 pdu) counter head map else map.

Definition nack (type : Z) (data : received) : app_lib_data_to_send_t :=
  downlink (pdu_prov_hdr PROV_PACKET_TYPE_DATA (field 1 4 (image data)) (field 5 1 (image data)) ++ [type]) 7 (rx_src data).

Definition sent (d : app_lib_data_to_send_t) (w : W) : W := (sendData E d w).2.

Lemma send_nack_spec type data s : send_nack E type data s = Some (tt, set_world (sent (nack type data) (world s)) s).
Proof. unfold send_nack. rewrite proxy_in_worldE. done. Qed.

Lemma split_buffer n (buf : list Z) : (n <= 88)%nat -> length buf = PROV_PDU_SIZE ->
  exists b0 b1 b2 b3 b4 tail, buf = b0 ++ b1 ++ b2 ++ b3 ++ b4 ++ tail /\ length b0 = 6%nat /\ length b1 = 1%nat /\
    length b2 = 2%nat /\ length b3 = n /\ length b4 = PROV_MIC_SIZE.
Proof.
  intros Hn Hl. unfold PROV_PDU_SIZE, PROV_MIC_SIZE in *.
  destruct (split_list 6 buf) as (b0 & r0 & -> & H0); [lia|]. rewrite length_app in Hl.
  destruct (split_list 1 r0) as (b1 & r1 & -> & H1); [lia|]. rewrite length_app in Hl.
  destruct (split_list 2 r1) as (b2 & r2 & -> & H2); [lia|]. rewrite length_app in Hl.
  destruct (split_list n r2) as (b3 & r3 & -> & H3); [lia|]. rewrite length_app in Hl.
  destruct (split_list 5 r3) as (b4 & r4 & -> & H4); [lia|].
  by exists b0, b1, b2, b3, b4, r4.
Qed.

Lemma send_data_packet_spec data method s map :
  length (stack_bytes E (world s)) = PROV_PDU_SIZE ->
  encode_cbor_map C (m_net_param s) 88 = (CborNoError, map) -> (length map <= 88)%nat -> bytes map ->
  ((method =? PROV_METHOD_SECURED) = true -> factory_key (conf_key (m_conf s)) /\ block (slice 7 16 (rx_data data))) ->
  let secure := method =? PROV_METHOD_SECURED in
  let counter := if secure then u16 (m_counter s + 1) else 0 in
  let bs := reply (conf_key (m_conf s)) (rx_data data) map secure counter in
  send_data_packet C E data method s =
    Some (tt, set_world (sent (downlink bs (Z.of_nat (length bs)) (rx_src data)) (world s))
                (if secure then set_counter counter s else s)).
Proof.
  intros Hb Hm Hl Hbm Hk secure counter bs. unfold send_data_packet. rewrite !asksE.
  change (Z.of_nat (PROV_PDU_SIZE - PROV_DATA_OFFSET - PROV_MIC_SIZE)) with 88. rewrite Hm.
  set (pdu := rx_data data) in *. set (h := pdu_prov_hdr _ _ _).
  assert (Hh : length h = 6%nat) by apply length_pdu_prov_hdr.
  destruct (split_buffer (length map) _ Hl Hb) as (b0 & b1 & b2 & b3 & b4 & tail & -> & H0 & H1 & H2 & H3 & H4).
  assert (E1 : blit 0 h (b0 ++ b1 ++ b2 ++ b3 ++ b4 ++ tail) = h ++ b1 ++ b2 ++ b3 ++ b4 ++ tail)
    by (apply (blit_at [] h b0); lia).
  rewrite E1. unfold h. rewrite head_fields by done. fold h.
  assert (E2 : blit PROV_DATA_OFFSET map (data_head (field 1 4 pdu) (field 5 1 pdu) 0 0 ++ b3 ++ b4 ++ tail) =
    h ++ ([0] ++ le_put 2 0 ++ map ++ b4 ++ tail)).
  { rewrite <- (length_data_head (field 1 4 pdu) (field 5 1 pdu) 0 0), blit_at by lia.
    unfold data_head. fold h. rewrite <- app_assoc. reflexivity. }
  rewrite E2. fold secure. destruct secure eqn:Es.
  - destruct (Hk Es) as [Hk1 Hk2]. rewrite sf_assoc.
    rewrite (sf_bindE _ _ _ _ _ (encrypt_data_spec map (field 1 4 pdu) (field 5 1 pdu) [0] (le_put 2 0) tail (slice 7 16 pdu) s
      eq_refl (length_le_put 2 0) Hbm Hk2 Hk1 b4 H4)).
    rewrite sf_retE, proxy_in_worldE. cbn [fst snd world set_counter].
    assert (Hlb : length bs = (PROV_DATA_OFFSET + (length map + PROV_MIC_SIZE))%nat).
    { unfold bs, reply. rewrite length_app, length_data_head. f_equal.
      destruct (sealed_spec (conf_key (m_conf s)) (slice 7 16 pdu) counter (data_head (field 1 4 pdu) (field 5 1 pdu) 1 counter) map)
        as [-> _]; try done.
      - pose proof (u16_range (m_counter s + 1)). unfold counter, fits. lia.
      - apply data_head_bytes. }
    rewrite <- Hlb. rewrite app_assoc, take_app_length. done.
  - rewrite sf_retE, proxy_in_worldE. cbn [fst snd].
    assert (Hbs : bs = h ++ [0] ++ le_put 2 0 ++ map).
    { unfold bs, reply, counter, data_head. fold h. rewrite <- app_assoc. done. }
    assert (Hlb : length bs = (PROV_DATA_OFFSET + length map)%nat).
    { rewrite Hbs, !length_app, Hh, length_le_put. cbn [length]. unfold PROV_DATA_OFFSET. lia. }
    rewrite <- Hlb. rewrite !app_assoc, <- (app_assoc (((h ++ [0]) ++ le_put 2 0) ++ map)).
    replace (((h ++ [0]) ++ le_put 2 0) ++ map) with bs by (by rewrite Hbs, !app_assoc).
    rewrite take_app_length. done.
Qed.

(** What the application answers for a new node. *)
Definition ask_start_cb s (pdu : list Z) : bool * provisioning_proxy_net_param_t * W :=
  match conf_start_cb (m_conf s) with
  | Some cb => cb (drop 23 pdu) (Z.of_nat (length pdu) - 23) (field 6 1 pdu) (m_net_param s) (world s)
  | None => (true, m_net_param s, world s)
  end.

Lemma uid_length (pdu : list Z) : (24 <= length pdu <= 150)%nat ->
  s8 (Z.of_nat (length pdu) - Z.of_nat sizeof_hdr - 1 - Z.of_nat AES_128_KEY_BLOCK_SIZE) = Z.of_nat (length pdu) - 23.
Proof.
  intros H. change (Z.of_nat sizeof_hdr) with 6. change (Z.of_nat AES_128_KEY_BLOCK_SIZE) with 16.
  unfold s8. rewrite uwrap_small by (unfold fits; lia). rewrite (proj2 (Z.ltb_lt _ _)) by lia. lia.
Qed.

(** A packet that reaches the application, and what follows. *)
Lemma pkt_received_start data s (pdu : list Z) : rx_data data = pdu -> (24 <= length pdu <= 150)%nat ->
  pdu !! 0%nat = Some PROV_PACKET_TYPE_START ->
  pkt_received_cb C E data s =
    match method_allowed (m_conf s) (field 6 1 pdu) with
    | None => Some (APP_LIB_DATA_RECEIVE_RES_HANDLED, s)
    | Some false =>
        Some (APP_LIB_DATA_RECEIVE_RES_HANDLED, set_world (sent (nack PROV_NACK_TYPE_METHOD_NOT_SUPPORTED data) (world s)) s)
    | Some true =>
        let '(ok, p, w) := ask_start_cb s pdu in
        let s := set_net_param p (set_world w s) in
        if ok then (_ ← send_data_packet C E data (field 6 1 pdu); mret APP_LIB_DATA_RECEIVE_RES_HANDLED) s
        else Some (APP_LIB_DATA_RECEIVE_RES_HANDLED, set_world (sent (nack PROV_NACK_TYPE_NOT_AUTHORIZED data) w) s)
    end.
Proof.
  intros Hp Hl Ht. unfold pkt_received_cb. rewrite Hp, (readsE (fun _ => pdu !! 0%nat) _ s _ Ht), Z.eqb_refl. cbn [negb].
  rewrite uid_length, (proj2 (Z.leb_gt _ _)), asksE by lia.
  destruct (method_allowed (m_conf s) (field 6 1 pdu)) as [[]|]; [| |done].
  - assert (Hd : slice 23 (Z.to_nat (Z.of_nat (length pdu) - 23)) pdu = drop 23 pdu).
    { unfold slice. apply take_ge. rewrite length_drop. lia. }
    unfold ask_start_cb. destruct (conf_start_cb (m_conf s)) as [cb|].
    + rewrite sf_assoc, asksE, sf_assoc, proxy_in_worldE, Hd.
      destruct (cb (drop 23 pdu) _ _ _ _) as [[b p] w]. cbn [fst snd]. rewrite sf_assoc, putsE. cbn [fst snd].
      rewrite sf_retE. destruct b; cbn [negb]; [done|]. erewrite sf_bindE by apply send_nack_spec. done.
    + rewrite sf_retE. cbn [negb]. by destruct s.
  - erewrite sf_bindE by apply send_nack_spec. done.
Qed.

End Answer.

(** The proxy can answer: a buffer for the packet, and keys when it needs them. *)
Record proxy_ok {W} (E : env W) (s : state W) : Prop := {
  ok_buffer : forall w, length (stack_bytes E w) = PROV_PDU_SIZE;
  ok_key : is_local_sec_allowed (m_conf s) = true -> factory_key (conf_key (m_conf s));
  ok_params : forall pdu, net_param_ok (ask_start_cb s pdu).1.2 }.

(** the answer of the proxy to a START packet.  A method that is unknown
    is ignored and one that is not allowed, or a node that the application
    rejects, gets a NACK packet.  Otherwise the application's network
    parameters are sent in one DATA packet that repeats the address and the
    session of the request: as they are for the unsecured method, with key
    index 1, the next value of the counter and the message code, encrypted from
    the node's initialization vector on, for the secured one; nothing is sent
    when they do not fit.  The handler never faults. *)
Theorem proxy_answers {T V W} (C : cbor_encoder T) (P : cbor V) at_key building (E : env W) data s pdu :
  CborWriter C P at_key building -> proxy_ok E s ->
  rx_data data = pdu -> (24 <= length pdu <= 150)%nat -> bytes pdu -> pdu !! 0%nat = Some PROV_PACKET_TYPE_START ->
  exists s', pkt_received_cb C E data s = Some (APP_LIB_DATA_RECEIVE_RES_HANDLED, s') /\
    m_conf s' = m_conf s /\
    match method_allowed (m_conf s) (field 6 1 pdu) with
    | None => s' = s
    | Some false => s' = set_world (sent E (nack PROV_NACK_TYPE_METHOD_NOT_SUPPORTED data) (world s)) s
    | Some true =>
        let '(ok, p, w) := ask_start_cb s pdu in
        m_net_param s' = p /\
        if ok then
          let secure := field 6 1 pdu =? PROV_METHOD_SECURED in
          match encode_cbor_map C p 88 with
          | (CborNoError, map) =>
              let counter := if secure then u16 (m_counter s + 1) else 0 in
              let bs := reply (conf_key (m_conf s)) pdu map secure counter in
              world s' = sent E (downlink bs (Z.of_nat (length bs)) (rx_src data)) w /\
              m_counter s' = if secure then counter else m_counter s
          | _ => world s' = w
          end
        else world s' = sent E (nack PROV_NACK_TYPE_NOT_AUTHORIZED data) w
    end.
Proof.
  intros CW [Hb Hk Hp] Hd Hl Hby Ht. rewrite (pkt_received_start C E data s pdu Hd Hl Ht).
  specialize (Hp pdu). destruct (method_allowed (m_conf s) (field 6 1 pdu)) as [[]|] eqn:Hm; [|by eexists..].
  destruct (ask_start_cb s pdu) as [[ok p] w]. cbn [fst snd] in Hp.
  destruct ok; [|by eexists]. cbn zeta. set (s1 := set_net_param p (set_world w s)).
  destruct (encode_cbor_map C p 88) as [err map] eqn:He.
  destruct (no_error err) eqn:Hne; [destruct err; [clear Hne|done..]|].
  - destruct (encode_cbor_map_spec C P at_key building p 88 map Hp He) as (Hn & Hbm & _).
    erewrite sf_bindE.
    2:{ apply (send_data_packet_spec C E data (field 6 1 pdu) s1 map); [apply Hb|exact He|lia|exact Hbm|].
        intros Hs. rewrite Hd. unfold method_allowed in Hm. rewrite Hs in Hm.
        destruct (Z.eqb_spec (field 6 1 pdu) PROV_METHOD_UNSECURED) as [E0|_].
        { rewrite E0 in Hs. done. }
        injection Hm as Hm. split; [by apply Hk|]. split; [apply length_slice; lia|by apply slice_bytes]. }
    rewrite Hd. eexists. split; [reflexivity|]. cbn. by destruct (field 6 1 pdu =? PROV_METHOD_SECURED).
  - assert (Hs : send_data_packet C E data (field 6 1 pdu) s1 = Some (tt, s1)).
    { unfold send_data_packet. rewrite !asksE. cbn [m_net_param s1 set_net_param].
      change (Z.of_nat (PROV_PDU_SIZE - PROV_DATA_OFFSET - PROV_MIC_SIZE)) with 88. rewrite He. by destruct err. }
    erewrite sf_bindE by exact Hs. exists s1. split; [reflexivity|]. split; [done|]. split; [done|]. by destruct err.
Qed.

(** ** A concrete encoder

    It writes what [MiniCbor] reads. *)

Module MiniWriter.

(** The first byte and the argument. *)
Definition head (major n : Z) : list Z :=
  if n <? 24 then [major * 32 + n]
  else if n <? 2 ^ 8 then major * 32 + 24 :: rev (le_put 1 n)
  else if n <? 2 ^ 16 then major * 32 + 25 :: rev (le_put 2 n)
  else if n <? 2 ^ 32 then major * 32 + 26 :: rev (le_put 4 n)
  else major * 32 + 27 :: rev (le_put 8 n).

Definition value (x : item) : list Z :=
  match x with
  | Uint n => head 0 n
  | Bytes bs => head 2 (Z.of_nat (length bs)) ++ bs
  | Other _ _ _ _ => []
  end.

Definition entry (e : Z * item) : list Z := head 0 e.1 ++ value e.2.

(** The room, at most 255 bytes, and the bytes so far. *)
Definition writer : Type := Z * list Z.

Definition append (m : writer) (bs : list Z) : CborError * writer :=
  if m.1 <? Z.of_nat (length (m.2 ++ bs)) then (CborErrorOutOfMemory, m) else (CborNoError, (m.1, m.2 ++ bs)).

Definition encoder : cbor_encoder writer :=
  {| cbor_encoder_init cap := (Z.min cap 255, []);
     cbor_encoder_create_map e n := let r := append e (head 5 n) in (if (0 <=? n) && (n <? 2 ^ 64) then r.1 else CborErrorOther 3, e, r.2);
     cbor_encode_uint m n := append m (value (Uint n));
     cbor_encode_byte_string m bs := append m (value (Bytes bs));
     cbor_encoder_close_container _ m := (CborNoError, m);
     cbor_encoder_buffer m := m.2 |}.

Lemma cbor_first_byte major info : 0 <= major -> 0 <= info < 32 ->
  Z.shiftr (major * 32 + info) 5 = major /\ Z.land (major * 32 + info) 31 = info.
Proof.
  intros H Hi. split.
  - rewrite Z.shiftr_div_pow2 by lia. change (2 ^ 5) with 32. rewrite Z.div_add_l, Z.div_small by lia. lia.
  - change 31 with (Z.ones 5). rewrite Z.land_ones by lia. change (2 ^ 5) with 32.
    rewrite Z.add_comm, Z_mod_plus_full. apply Z.mod_small. lia.
Qed.

Lemma long_head major info n k rest : 0 <= major -> 24 <= info <= 27 -> fits (8 * Z.of_nat k) n ->
  k = (if info =? 24 then 1%nat else if info =? 25 then 2%nat else if info =? 26 then 4%nat else 8%nat) ->
  MiniCbor.head (major * 32 + info :: rev (le_put k n) ++ rest) = Some (major, n, rest).
Proof.
  intros Hm Hi Hn Hk. unfold MiniCbor.head. destruct (cbor_first_byte major info Hm ltac:(lia)) as [-> ->].
  rewrite (proj2 (Z.ltb_ge info 24)), (proj2 (Z.ltb_ge 27 info)) by lia. cbn [orb]. rewrite <- Hk.
  assert (Hl : length (rev (le_put k n)) = k) by (by rewrite length_rev, length_le_put).
  rewrite (proj2 (Nat.ltb_ge _ _)) by (rewrite length_app; lia).
  rewrite take_app_length', drop_app_length' by done.
  rewrite rev_involutive, le_get_put, uwrap_small by done. done.
Qed.

Lemma head_read major n rest : 0 <= major -> fits 64 n -> MiniCbor.head (head major n ++ rest) = Some (major, n, rest).
Proof.
  intros Hm Hn. unfold head, fits in *.
  destruct (Z.ltb_spec n 24) as [H24|H24].
  { cbn [app]. unfold MiniCbor.head. destruct (cbor_first_byte major n Hm ltac:(lia)) as [-> ->].
    by rewrite (proj2 (Z.ltb_lt n 24)) by lia. }
  destruct (Z.ltb_spec n (2 ^ 8)); [apply long_head; [done|lia| |done]; unfold fits; cbn; lia|].
  destruct (Z.ltb_spec n (2 ^ 16)); [apply long_head; [done|lia| |done]; unfold fits; cbn; lia|].
  destruct (Z.ltb_spec n (2 ^ 32)); [apply long_head; [done|lia| |done]; unfold fits; cbn; lia|].
  apply long_head; [done|lia| |done]. unfold fits. cbn. lia.
Qed.

Lemma head_bytes major n : 0 <= major < 8 -> 0 <= n -> bytes (head major n).
Proof.
  intros Hm Hn. unfold head.
  assert (forall k, bytes (rev (le_put k n))) by (intros k; apply Forall_rev, le_put_bytes).
  destruct (Z.ltb_spec n 24); [constructor; [unfold fits; lia|constructor]|].
  repeat (destruct (n <? _)); (constructor; [unfold fits; lia|done]).
Qed.

(** What can be written. *)
Definition plain (e : Z * item) : Prop :=
  is_u8 e.1 /\ match e.2 with Uint n => fits 64 n | Bytes bs => bytes bs /\ Z.of_nat (length bs) < 2 ^ 64 | Other _ _ _ _ => False end.

Lemma value_read e rest : plain e -> MiniCbor.value (value e.2 ++ rest) = Some (e.2, rest).
Proof.
  intros [_ H]. destruct e as [id [n|bs|]]; cbn in H; [| |done]; cbn [snd value]; unfold MiniCbor.value.
  - by rewrite head_read.
  - destruct H as [_ H]. rewrite <- app_assoc, head_read by (unfold fits; lia).
    rewrite (proj2 (Z.ltb_ge _ _)) by (rewrite length_app; lia).
    by rewrite Nat2Z.id, take_app_length, drop_app_length.
Qed.

Lemma entries_read doc rest : Forall plain doc ->
  MiniCbor.entries (length doc) (concat (entry <$> doc) ++ rest) = Some doc.
Proof.
  induction 1 as [|e doc He _ IH]; [done|]. rewrite fmap_cons. cbn [concat length MiniCbor.entries].
  unfold entry at 1. rewrite <- !app_assoc, head_read by (destruct He as [? _]; unfold fits in *; lia).
  rewrite value_read by done. cbn [Nat.add]. rewrite IH. by destruct e.
Qed.

Lemma mini_entry_bytes e : plain e -> bytes (entry e).
Proof.
  intros [H1 H2]. unfold entry. apply Forall_app. split; [apply head_bytes; unfold fits in *; lia|].
  destruct e as [id [n|bs|]]; cbn in H2; [| |done]; cbn [snd value].
  - apply head_bytes; unfold fits in *; lia.
  - destruct H2 as [H2 _]. apply Forall_app. split; [apply head_bytes; lia|done].
Qed.

(** The bytes are those of the entries, and of a key that waits for its value. *)
Definition building (cap n : Z) (_ m : writer) (doc : document) (id : option Z) : Prop :=
  fits 64 n /\ Forall plain doc /\ m.1 <= cap /\ m.1 <= 255 /\ Z.of_nat (length m.2) <= m.1 /\
  m.2 = head 5 n ++ concat (entry <$> doc) ++ match id with Some id => head 0 id | None => [] end /\
  match id with Some id => is_u8 id | None => True end.

Lemma append_ok m bs m' : append m bs = (CborNoError, m') ->
  m' = (m.1, m.2 ++ bs) /\ Z.of_nat (length (m.2 ++ bs)) <= m.1.
Proof. unfold append. destruct (Z.ltb_spec m.1 (Z.of_nat (length (m.2 ++ bs)))); [done|]. intros [= <-]. done. Qed.

Lemma building_value cap n e m doc id x m' : building cap n e m doc (Some id) -> plain (id, x) ->
  append m (value x) = (CborNoError, m') -> building cap n e m' (doc ++ [(id, x)]) None.
Proof.
  intros (H1 & H2 & H3 & H4 & H5 & H6 & H7) Hx [-> Hl]%append_ok. cbn [fst snd].
  split; [done|]. split; [|split; [done|split; [done|split; [done|split; [|done]]]]].
  - by apply Forall_app; split; [|constructor; [|constructor]].
  - cbn [fst snd]. rewrite fmap_app, concat_app, H6. cbn. unfold entry. cbn [fst snd].
    by rewrite <- !app_assoc, !app_nil_r.
Qed.

#[export] Instance encoder_ok : CborWriter encoder MiniCbor.parser MiniCbor.at_key building.
Proof.
  split.
  - intros cap n e m. cbn. destruct ((0 <=? n) && (n <? 2 ^ 64)) eqn:Hn; [|done]. bool_props.
    destruct (append _ _) as [err r] eqn:Ha. cbn. intros [= -> <- ->]. apply append_ok in Ha as [-> Hl].
    cbn [fst snd app] in *. split; [by split|]. split; [constructor|]. cbn [fst snd]. split; [lia|]. split; [lia|].
    split; [done|]. split; [by rewrite app_nil_r|done].
  - intros cap n e m doc id m' (H1 & H2 & H3 & H4 & H5 & H6 & H7) Hid [-> Hl]%append_ok.
    do 5 (split; [done|]). split; [|done]. cbn [fst snd]. rewrite H6, app_nil_r. by rewrite <- app_assoc.
  - intros cap n e m doc id x m' H Hx. apply building_value; [done|]. by split; [apply H|].
  - intros cap n e m doc id bs m' H Hb Ha. eapply building_value; [done| |exact Ha]. split; [apply H|]. split; [done|].
    destruct H as (_ & _ & _ & H4 & _). apply append_ok in Ha as [_ Hl].
    cbn [value] in Hl. rewrite !length_app in Hl. cbn. lia.
  - intros cap n e m doc e' (H1 & H2 & H3 & H4 & H5 & H6 & _) Hn. cbn. intros [= <-]. rewrite app_nil_r in H6.
    split; [|split].
    + split; [|lia]. rewrite H6, length_app. unfold head. cbn. repeat case_match; cbn; lia.
    + rewrite H6. apply Forall_app. split; [apply head_bytes; unfold fits in *; lia|].
      apply Forall_concat, Forall_fmap. eapply Forall_impl; [exact H2|]. apply mini_entry_bytes.
    + exists (doc, None), (doc, None). split.
      { cbn. unfold MiniCbor.decode. rewrite H6, head_read by done. rewrite <- Hn, Nat2Z.id.
        rewrite <- (app_nil_r (concat _)), entries_read by done. done. }
      split; [done|]. split; [done|]. split; [done|]. eapply Forall_impl; [exact H2|].
      intros [id x] [_ Hx]. destruct x; [done|done|by destruct Hx].
Qed.

End MiniWriter.

(** ** An answer *)

Module ProxyExample.

Definition demo_key : list Z := Z.of_nat <$> seq 100 32.
Definition params : provisioning_proxy_net_param_t :=
  {| net_enc_key := repeat 7 16; net_auth_key := repeat 9 16; net_net_addr := 0x123456; net_net_chan := 18 |}.

(** The world is the list of the packets that were sent. *)
Definition demo_env : env (list app_lib_data_to_send_t) :=
  {| sendData d w := (APP_LIB_DATA_SEND_RES_SUCCESS, w ++ [d]);
     addDataReceivedCb w := w; removeDataReceivedCb w := w; enableProxy _ w := w;
     startJoiningBeaconTx _ _ _ w := (APP_RES_OK, w); stopJoiningBeaconTx w := (APP_RES_OK, w);
     random_init w := w; random_get16 w := (4, w);
     stack_bytes _ := repeat 0xAA PROV_PDU_SIZE |}.

Definition demo_state : state (list app_lib_data_to_send_t) :=
  {| m_conf := {| conf_payload := None; conf_num_bytes := 0; conf_tx_power := 0; is_local_unsec_allowed := false;
       is_local_sec_allowed := true; conf_key := demo_key; conf_key_len := 32;
       conf_start_cb := Some (fun _ _ _ _ w => (true, params, w)) |};
     m_net_param := params; m_started := true; m_init := true; m_counter := 4; world := [] |}.

(** A node with the identifier [1; 2; 3], in session 77. *)
Definition demo_iv : list Z := repeat 255 16.
Definition demo_start : list Z :=
  pdu_prov_hdr PROV_PACKET_TYPE_START 0x1000 77 ++ [PROV_METHOD_SECURED] ++ demo_iv ++ [1; 2; 3].
Definition demo_data : received := {| rx_data := demo_start; rx_src := 0x2000; image := repeat 0 8 |}.

Lemma demo_proxy_ok : proxy_ok demo_env demo_state.
Proof.
  split; [done| |].
  - intros _. split; [done|]. cbn. byte_list.
  - intros pdu. split; [|split; [|split]]; cbn; [byte_list|byte_list|by split|by split].
Qed.
End ProxyExample.

Lemma proxy_answers_witness :
  exists s' map, pkt_received_cb MiniWriter.encoder ProxyExample.demo_env ProxyExample.demo_data ProxyExample.demo_state =
      Some (APP_LIB_DATA_RECEIVE_RES_HANDLED, s') /\
    length map = 45%nat /\ m_counter s' = 5 /\
    to_bytes <$> world s' = [reply ProxyExample.demo_key ProxyExample.demo_start map true 5].
Proof.
  destruct (proxy_answers MiniWriter.encoder MiniCbor.parser MiniCbor.at_key MiniWriter.building ProxyExample.demo_env
    ProxyExample.demo_data ProxyExample.demo_state ProxyExample.demo_start MiniWriter.encoder_ok ProxyExample.demo_proxy_ok
    eq_refl) as (s' & H1 & _ & H2).
  - split; vm_compute; lia.
  - unfold ProxyExample.demo_start. apply Forall_app. split; [apply pdu_prov_hdr_bytes|].
    unfold ProxyExample.demo_iv, PROV_METHOD_SECURED. cbn. byte_list.
  - reflexivity.
  - set (map := (encode_cbor_map MiniWriter.encoder ProxyExample.params 88).2).
    assert (Em : method_allowed (m_conf ProxyExample.demo_state) (field 6 1 ProxyExample.demo_start) = Some true)
      by (vm_compute; reflexivity).
    assert (Ea : ask_start_cb ProxyExample.demo_state ProxyExample.demo_start = (true, ProxyExample.params, []))
      by reflexivity.
    assert (Es : (field 6 1 ProxyExample.demo_start =? PROV_METHOD_SECURED) = true) by (vm_compute; reflexivity).
    assert (Ee : encode_cbor_map MiniWriter.encoder ProxyExample.params 88 = (CborNoError, map))
      by (vm_compute; reflexivity).
    rewrite Em, Ea, Es in H2. cbn zeta in H2. rewrite Ee in H2. destruct H2 as [_ [H2 H3]].
    exists s', map. split; [exact H1|]. split; [vm_compute; reflexivity|]. split; [rewrite H3; vm_compute; reflexivity|].
    rewrite H2. reflexivity.
Defined.

(** A key that is too short passes the check of the configuration and is read
    beyond its end for the first node. *)
Lemma short_key_faults :
  let short := {| conf_payload := None; conf_num_bytes := 0; conf_tx_power := 0; is_local_unsec_allowed := false;
    is_local_sec_allowed := true; conf_key := [1]; conf_key_len := 1;
    conf_start_cb := Some (fun _ _ _ _ w => (true, ProxyExample.params, w)) |} in
  (r ← Provisioning_Proxy_init ProxyExample.demo_env short (set_flags false false ProxyExample.demo_state);
   Some r.1) = Some PROV_RET_OK /\
  (r ← Provisioning_Proxy_init ProxyExample.demo_env short (set_flags false false ProxyExample.demo_state);
   pkt_received_cb MiniWriter.encoder ProxyExample.demo_env ProxyExample.demo_data r.2) = None.
Proof. vm_compute. split; reflexivity. Qed.

(** A rejection is sent as a DATA packet, with an address and a session that
    are not those of the request but bytes of the structure of its metadata. *)
Lemma nack_is_data : to_bytes (nack PROV_NACK_TYPE_NOT_AUTHORIZED ProxyExample.demo_data) = [PROV_PACKET_TYPE_DATA; 0; 0; 0; 0; 0; 0].
Proof. reflexivity. Qed.
