(* ===== verification/Provisioning.v ===== *)
(** * Provisioning of a new node

    [libraries/provisioning/provisioning.c]: a new node joins a network, sends
    a START packet, waits for a DATA packet with its parameters, acknowledges
    it and applies them.

    The library is a client of [Joining], whose state holds its own as the
    world: [Joining.state prov].  Joining reports its end to [end_joining_cb],
    which may reset this library, which stops joining, which reports its end
    again; the calls are nested as deep as [depth].  Below both are the
    scheduler, the stack and the callbacks of the application, functions over
    the world [W]. *)

From S2P Require Import Prelude Api Aes Aessw ProvPdu ProvData Joining.

Definition DELAY_RESEND_PACKET_MS : Z := 4000.

Inductive provisioning_state_e :=
| PROV_STATE_UNINIT | PROV_STATE_IDLE | PROV_STATE_WAIT_JOINING | PROV_STATE_START | PROV_STATE_WAIT_DATA
| PROV_STATE_WAIT_ACK_SENT.

#[export] Instance provisioning_state_dec : EqDecision provisioning_state_e.
Proof. solve_decision. Defined.

Record m_events_t := { rxd_packet : bool; timeout : bool; start : bool; ack_sent : bool; joined : bool }.

Definition no_events : m_events_t :=
  {| rxd_packet := false; timeout := false; start := false; ack_sent := false; joined := false |}.

(** The tasks of the scheduler. *)
Inductive task := joining_task (t : Joining.task) | run_state_machine_task | timeout_task_.

Section Provisioning.
Context {V W : Type} (C : cbor V).

Record provisioning_conf_t := {
  method : Z;
  nb_retry : Z;
  timeout_s : Z;
  uid : option (list Z);
  uid_len : Z;
  key : list Z;
  key_len : Z;
  end_cb : option (provisioning_res_e -> W -> bool * W);
  user_data_cb : option (Z -> CborType -> list Z -> Z -> W -> W);
  beacon_joining_cb : option (option nat -> list app_lib_joining_received_beacon_t -> W -> option nat * W) }.

Record prov := {
  m_events : m_events_t;
  m_retry : Z;
  m_timeout_ms : Z;
  m_session_id : Z;
  m_state : provisioning_state_e;
  m_conf : provisioning_conf_t;
  m_iv : list Z;
  m_data_buffer : list Z;
  m_data_length : Z;
  m_joining_res : provisioning_res_e;
  (** the callback in the configuration of [Joining] *)
  m_joining_cb : option nat -> list app_lib_joining_received_beacon_t -> W -> option nat * W;
  p_data : m_provisioning_data_t;
  outer : W }.

Record env := {
  addTask : task -> Z -> W -> Z * W;
  cancelTask : task -> W -> W;
  addEventCb : W -> W;
  removeEventCb : W -> W;
  startJoiningBeaconRx : W -> Z * W;
  stopJoiningBeaconRx : W -> W;
  startJoiningProcess : Z -> Z -> W -> Z * W;
  stopJoiningProcess : W -> W;
  getNetworkAddress : W -> Z * Z;
  getNetworkChannel : W -> Z * Z;
  getRouteState : W -> Z;
  getNextHop : W -> Z;
  getNodeAddress : W -> Z;
  (** with the callback for the end of the transmission, or without *)
  sendData : app_lib_data_to_send_t -> bool -> W -> Z * W;
  addDataReceivedCb : W -> W;
  removeDataReceivedCb : W -> W;
  random_init : W -> W;
  random_get8 : W -> Z * W;
  data_env : ProvData.env W;
  parse_fuel : nat;
  depth : nat }.

Abbreviation state := (Joining.state prov).
Abbreviation M := (sf state).

(** ** State *)

Definition set_events e p := {| m_events := e; m_retry := m_retry p; m_timeout_ms := m_timeout_ms p;
  m_session_id := m_session_id p; m_state := m_state p; m_conf := m_conf p; m_iv := m_iv p;
  m_data_buffer := m_data_buffer p; m_data_length := m_data_length p; m_joining_res := m_joining_res p;
  m_joining_cb := m_joining_cb p; p_data := p_data p; outer := outer p |}.
Definition set_retry r p := {| m_events := m_events p; m_retry := r; m_timeout_ms := m_timeout_ms p;
  m_session_id := m_session_id p; m_state := m_state p; m_conf := m_conf p; m_iv := m_iv p;
  m_data_buffer := m_data_buffer p; m_data_length := m_data_length p; m_joining_res := m_joining_res p;
  m_joining_cb := m_joining_cb p; p_data := p_data p; outer := outer p |}.
Definition set_timeout_ms t p := {| m_events := m_events p; m_retry := m_retry p; m_timeout_ms := t;
  m_session_id := m_session_id p; m_state := m_state p; m_conf := m_conf p; m_iv := m_iv p;
  m_data_buffer := m_data_buffer p; m_data_length := m_data_length p; m_joining_res := m_joining_res p;
  m_joining_cb := m_joining_cb p; p_data := p_data p; outer := outer p |}.
Definition set_session_id i p := {| m_events := m_events p; m_retry := m_retry p; m_timeout_ms := m_timeout_ms p;
  m_session_id := i; m_state := m_state p; m_conf := m_conf p; m_iv := m_iv p;
  m_data_buffer := m_data_buffer p; m_data_length := m_data_length p; m_joining_res := m_joining_res p;
  m_joining_cb := m_joining_cb p; p_data := p_data p; outer := outer p |}.
Definition set_state x p := {| m_events := m_events p; m_retry := m_retry p; m_timeout_ms := m_timeout_ms p;
  m_session_id := m_session_id p; m_state := x; m_conf := m_conf p; m_iv := m_iv p;
  m_data_buffer := m_data_buffer p; m_data_length := m_data_length p; m_joining_res := m_joining_res p;
  m_joining_cb := m_joining_cb p; p_data := p_data p; outer := outer p |}.
Definition set_conf c p := {| m_events := m_events p; m_retry := m_retry p; m_timeout_ms := m_timeout_ms p;
  m_session_id := m_session_id p; m_state := m_state p; m_conf := c; m_iv := m_iv p;
  m_data_buffer := m_data_buffer p; m_data_length := m_data_length p; m_joining_res := m_joining_res p;
  m_joining_cb := m_joining_cb p; p_data := p_data p; outer := outer p |}.
Definition set_iv v p := {| m_events := m_events p; m_retry := m_retry p; m_timeout_ms := m_timeout_ms p;
  m_session_id := m_session_id p; m_state := m_state p; m_conf := m_conf p; m_iv := v;
  m_data_buffer := m_data_buffer p; m_data_length := m_data_length p; m_joining_res := m_joining_res p;
  m_joining_cb := m_joining_cb p; p_data := p_data p; outer := outer p |}.
Definition set_buffer b n p := {| m_events := m_events p; m_retry := m_retry p; m_timeout_ms := m_timeout_ms p;
  m_session_id := m_session_id p; m_state := m_state p; m_conf := m_conf p; m_iv := m_iv p;
  m_data_buffer := b; m_data_length := n; m_joining_res := m_joining_res p;
  m_joining_cb := m_joining_cb p; p_data := p_data p; outer := outer p |}.
Definition set_joining_res r p := {| m_events := m_events p; m_retry := m_retry p; m_timeout_ms := m_timeout_ms p;
  m_session_id := m_session_id p; m_state := m_state p; m_conf := m_conf p; m_iv := m_iv p;
  m_data_buffer := m_data_buffer p; m_data_length := m_data_length p; m_joining_res := r;
  m_joining_cb := m_joining_cb p; p_data := p_data p; outer := outer p |}.
Definition set_joining_cb f p := {| m_events := m_events p; m_retry := m_retry p; m_timeout_ms := m_timeout_ms p;
  m_session_id := m_session_id p; m_state := m_state p; m_conf := m_conf p; m_iv := m_iv p;
  m_data_buffer := m_data_buffer p; m_data_length := m_data_length p; m_joining_res := m_joining_res p;
  m_joining_cb := f; p_data := p_data p; outer := outer p |}.
Definition set_data d w p := {| m_events := m_events p; m_retry := m_retry p; m_timeout_ms := m_timeout_ms p;
  m_session_id := m_session_id p; m_state := m_state p; m_conf := m_conf p; m_iv := m_iv p;
  m_data_buffer := m_data_buffer p; m_data_length := m_data_length p; m_joining_res := m_joining_res p;
  m_joining_cb := m_joining_cb p; p_data := d; outer := w |}.
Definition set_outer w p := set_data (p_data p) w p.

Definition raise_rxd p := set_events {| rxd_packet := true; timeout := timeout (m_events p); start := start (m_events p);
  ack_sent := ack_sent (m_events p); joined := joined (m_events p) |} p.
Definition raise_timeout p := set_events {| rxd_packet := rxd_packet (m_events p); timeout := true;
  start := start (m_events p); ack_sent := ack_sent (m_events p); joined := joined (m_events p) |} p.
Definition raise_start p := set_events {| rxd_packet := rxd_packet (m_events p); timeout := timeout (m_events p);
  start := true; ack_sent := ack_sent (m_events p); joined := joined (m_events p) |} p.
Definition raise_ack_sent p := set_events {| rxd_packet := rxd_packet (m_events p); timeout := timeout (m_events p);
  start := start (m_events p); ack_sent := true; joined := joined (m_events p) |} p.
Definition raise_joined p := set_events {| rxd_packet := rxd_packet (m_events p); timeout := timeout (m_events p);
  start := start (m_events p); ack_sent := ack_sent (m_events p); joined := true |} p.

Definition get {A} (f : prov -> A) : M A := asks (fun s => f (world s)).
Definition put (f : prov -> prov) : M unit := puts (fun s => set_world (f (world s)) s).
Definition lift {A} (f : W -> A * W) (p : prov) : A * prov := let '(x, w) := f (outer p) in (x, set_outer w p).
Definition lift_ (f : W -> W) (p : prov) : prov := set_outer (f (outer p)) p.
Definition in_outer {A} (f : W -> A * W) : M A := in_world (lift f).
Definition do_outer (f : W -> W) : M unit := put (lift_ f).

(** [m_conf.end_cb(res)], whose answer is ignored. *)
Definition call_end_cb (res : provisioning_res_e) : M unit :=
  cb ← reads (fun s => end_cb (m_conf (world s)));
  _ ← in_outer (cb res); mret tt.

(** ** Joining and reset *)

Definition joining_env (E : env) (end_joining : provisioning_res_e -> state -> option (unit * state)) : Joining.env prov :=
  {| Joining.addTask := fun t d => lift (addTask E (joining_task t) d);
     Joining.cancelTask := fun t => lift_ (cancelTask E (joining_task t));
     Joining.addEventCb := lift_ (addEventCb E);
     Joining.removeEventCb := lift_ (removeEventCb E);
     Joining.startJoiningBeaconRx := lift (startJoiningBeaconRx E);
     Joining.stopJoiningBeaconRx := lift_ (stopJoiningBeaconRx E);
     Joining.startJoiningProcess := fun a c => lift (startJoiningProcess E a c);
     Joining.stopJoiningProcess := lift_ (stopJoiningProcess E);
     Joining.getNetworkAddress := fun p => getNetworkAddress E (outer p);
     Joining.getNetworkChannel := fun p => getNetworkChannel E (outer p);
     Joining.getRouteInfo := fun p => getRouteState E (outer p);
     Joining.joining_cb := fun b buf p => lift (m_joining_cb p b buf) p;
     Joining.end_cb := end_joining |}.

Definition reset_with (E : env) (end_joining : provisioning_res_e -> state -> option (unit * state)) : M unit :=
  _ ← do_outer (removeDataReceivedCb E);
  _ ← do_outer (cancelTask E timeout_task_);
  _ ← do_outer (cancelTask E run_state_machine_task);
  _ ← put (set_state PROV_STATE_IDLE);
  _ ← put (set_events no_events);
  _ ← do_outer (setShutdownCb (data_env E) false);
  _ ← Provisioning_Joining_stop (joining_env E end_joining);
  mret tt.

Fixpoint end_joining_n (E : env) (n : nat) (result : provisioning_res_e) : M unit :=
  match n with
  | O => fault
  | S n =>
      _ ← put (set_joining_res result);
      _ ← put raise_joined;
      res ← in_outer (addTask E run_state_machine_task APP_SCHEDULER_SCHEDULE_ASAP);
      if negb (res =? APP_SCHEDULER_RES_OK) then
        _ ← reset_with E (end_joining_n E n);
        call_end_cb PROV_RES_ERROR_INTERNAL
      else mret tt
  end.

Definition end_joining_cb (E : env) : provisioning_res_e -> M unit := end_joining_n E (depth E).
Definition reset_provisioning (E : env) : M unit := reset_with E (end_joining_cb E).
Definition J (E : env) : Joining.env prov := joining_env E (end_joining_cb E).

(** The end of a session with an error. *)
Definition fail_with (E : env) (res : provisioning_res_e) : M unit :=
  _ ← reset_provisioning E; call_end_cb res.

(** Schedule a task, or end with an internal error. *)
Definition schedule (E : env) (t : task) (delay : Z) : M unit :=
  res ← in_outer (addTask E t delay);
  if negb (res =? APP_SCHEDULER_RES_OK) then fail_with E PROV_RES_ERROR_INTERNAL else mret tt.

(** ** Events *)

Definition pkt_received_cb (E : env) (bytes : list Z) : M Z :=
  _ ← put raise_rxd;
  let n := (length bytes `min` PROV_PDU_SIZE)%nat in
  _ ← put (fun p => set_buffer (blit 0 (take n bytes) (m_data_buffer p)) (Z.of_nat n) p);
  _ ← schedule E run_state_machine_task APP_SCHEDULER_SCHEDULE_ASAP;
  mret APP_LIB_DATA_RECEIVE_RES_HANDLED.

Definition timeout_task (E : env) : M Z :=
  _ ← put raise_timeout; _ ← schedule E run_state_machine_task APP_SCHEDULER_SCHEDULE_ASAP; mret APP_SCHEDULER_STOP_TASK.

Definition packet_sent_cb (E : env) : M unit :=
  _ ← put raise_ack_sent; schedule E run_state_machine_task APP_SCHEDULER_SCHEDULE_ASAP.

(** ** Packets *)

Definition uplink (bytes : list Z) (dest : Z) : app_lib_data_to_send_t :=
  {| to_bytes := bytes; to_num_bytes := Z.of_nat (length bytes); to_dest_address := dest; to_delay := 0;
     to_tracking_id := 0; to_qos := 1; to_flags := 0; to_src_endpoint := PROV_UPLINK_EP;
     to_dest_endpoint := PROV_DOWNLINK_EP; to_hop_limit := 0;
     to_fragment_info := {| packet_id := 0; fragment_offset := 0; last_fragment := false |} |}.

Definition send_ack_packet (E : env) : M Z :=
  addr ← get (fun p => getNodeAddress E (outer p));
  id ← get m_session_id;
  dest ← get (fun p => getNextHop E (outer p));
  res ← in_outer (sendData E (uplink (pdu_prov_hdr PROV_PACKET_TYPE_DATA_ACK addr id) dest) true);
  if negb (res =? APP_LIB_DATA_SEND_RES_SUCCESS) then mret APP_SCHEDULER_SCHEDULE_ASAP
  else
    _ ← put (fun p => set_timeout_ms (timeout_s (m_conf p) * 1000) p);
    t ← get m_timeout_ms;
    _ ← schedule E timeout_task_ t;
    mret APP_SCHEDULER_STOP_TASK.

Definition data_decode (E : env) (conf : provisioning_data_conf_t W) (dry_run : bool) : M provisioning_ret_e :=
  fun s =>
    let p := world s in
    match Provisioning_Data_decode C (data_env E) (parse_fuel E) conf dry_run
            {| m_provisioning_data := p_data p; ProvData.world := outer p |} with
    | Some (r, d) => Some (r, set_world (set_data (m_provisioning_data d) (ProvData.world d) p) s)
    | None => None
    end.


(** The buffer decrypted, for a key of 32 bytes, and whether its code is right;
    [length] is that of the data without the code.  It is a fault to decrypt,
    or to authenticate, beyond the buffer. *)
Definition open_packet (k iv buffer : list Z) (m_data_length length_ : Z) : option (list Z * bool) :=
  let icb := add_counter iv (field 7 2 buffer) in
  let n := Z.to_nat (length_ + Z.of_nat PROV_MIC_SIZE) in
  if (length k <? 32)%nat || (length buffer <? PROV_DATA_OFFSET + n)%nat then None
  else
    let data_stream := aes_setupStream (drop ENC_KEY_OFFSET k) icb stream0 in
    let '(text, _) := aes_crypto128Ctr data_stream (slice PROV_DATA_OFFSET n buffer) in
    let buffer := blit PROV_DATA_OFFSET text buffer in
    if (m_data_length <? Z.of_nat PROV_MIC_SIZE) then None
    else
      let omac1_state := aes_initOmac1 (take 16 k) omac0 in
      let '(mic, _) := aes_omac1 omac1_state PROV_MIC_SIZE (take (Z.to_nat m_data_length - PROV_MIC_SIZE) buffer) in
      Some (buffer, bool_decide (mic = slice (PROV_DATA_OFFSET + Z.to_nat length_) PROV_MIC_SIZE buffer)).

Definition secured (c : provisioning_conf_t) : bool :=
  (method c =? PROV_METHOD_SECURED) || (method c =? PROV_METHOD_EXTENDED_UID).

Definition process_data_packet (E : env) : M provisioning_res_e :=
  c ← get m_conf;
  buffer ← get m_data_buffer;
  len ← get m_data_length;
  let length := u8 (len - Z.of_nat PROV_DATA_OFFSET) in
  let key_index := field 6 1 buffer in
  r ← (if method c =? PROV_METHOD_UNSECURED then
         mret (if key_index =? 0 then PROV_RES_SUCCESS else PROV_RES_INVALID_PACKET, length)
       else if secured c then
         if key_index =? 1 then
           let length := u8 (length - Z.of_nat PROV_MIC_SIZE) in
           o ← reads (fun s => open_packet (key c) (m_iv (world s)) buffer len length);
           _ ← put (fun p => set_buffer o.1 (m_data_length p) p);
           mret (if (o.2 : bool) then PROV_RES_SUCCESS else PROV_RES_INVALID_DATA, length)
         else mret (PROV_RES_INVALID_DATA, length)
       else mret (PROV_RES_INVALID_DATA, length));
  if decide (r.1 = PROV_RES_SUCCESS) then
    buffer ← get m_data_buffer;
    ret ← data_decode E {| conf_end_cb := None; conf_user_data_cb := None;
                           conf_buffer := Some (drop PROV_DATA_OFFSET buffer); conf_length := r.2 |} true;
    mret (if decide (ret <> PROV_RET_OK) then PROV_RES_INVALID_DATA else PROV_RES_SUCCESS)
  else mret r.1.

(** ** The state machine *)

Fixpoint random_bytes (E : env) (n : nat) : M (list Z) :=
  match n with
  | O => mret []
  | S n => b ← in_outer (random_get8 E); bs ← random_bytes E n; mret (b :: bs)
  end.

Definition state_idle (E : env) : M Z :=
  ev ← get m_events;
  _ ← (if start ev then
         _ ← put (set_state PROV_STATE_WAIT_JOINING);
         _ ← put (set_retry 0);
         r ← Provisioning_Joining_start (J E);
         if decide (r <> PROV_RET_OK) then fail_with E PROV_RES_ERROR_JOINING
         else
           c ← get m_conf;
           if secured c then iv ← random_bytes E AES_128_KEY_BLOCK_SIZE; put (set_iv iv) else mret tt
       else mret tt);
  _ ← do_outer (removeDataReceivedCb E);
  _ ← do_outer (cancelTask E timeout_task_);
  _ ← put (set_events no_events);
  mret APP_SCHEDULER_STOP_TASK.

Definition state_wait_joining (E : env) : M Z :=
  ev ← get m_events;
  new_delay_ms ←
    (if joined ev then
       r ← get m_joining_res;
       if decide (r = PROV_RES_SUCCESS) then
         _ ← put (set_state PROV_STATE_START);
         _ ← put (fun p => set_session_id (u8 (m_session_id p + 1)) p);
         mret APP_SCHEDULER_SCHEDULE_ASAP
       else _ ← fail_with E r; mret APP_SCHEDULER_STOP_TASK
     else mret APP_SCHEDULER_STOP_TASK);
  _ ← put (set_events no_events);
  mret new_delay_ms.

(** The START packet: [memcpy] of the identifier into its 79 bytes. *)
Definition start_packet (E : env) (p : prov) : option (list Z) :=
  let c := m_conf p in
  match uid c with
  | Some u =>
      let n := Z.to_nat (uid_len c) in
      if (MAX_UID <? n)%nat || (length u <? n)%nat then None
      else Some (pdu_prov_hdr PROV_PACKET_TYPE_START (getNodeAddress E (outer p)) (m_session_id p) ++
                 [method c] ++ m_iv p ++ take n u)
  | None => None
  end.

(** [m_retry++], and whether the retries are used up. *)
Definition one_more_try : M bool :=
  _ ← put (fun p => set_retry (u8 (m_retry p + 1)) p);
  get (fun p => nb_retry (m_conf p) <? m_retry p).

Definition state_start (E : env) : M Z :=
  pdu ← reads (fun s => start_packet E (world s));
  dest ← get (fun p => getNextHop E (outer p));
  res ← in_outer (sendData E (uplink pdu dest) false);
  new_delay_ms ←
    (if negb (res =? APP_LIB_DATA_SEND_RES_SUCCESS) then
       over ← one_more_try;
       if (over : bool) then _ ← fail_with E PROV_RES_ERROR_SENDING_DATA; mret APP_SCHEDULER_STOP_TASK
       else mret DELAY_RESEND_PACKET_MS
     else
       _ ← do_outer (addDataReceivedCb E);
       _ ← put (fun p => set_timeout_ms (timeout_s (m_conf p) * 1000) p);
       t ← get m_timeout_ms;
       _ ← schedule E timeout_task_ t;
       _ ← put (set_state PROV_STATE_WAIT_DATA);
       mret APP_SCHEDULER_STOP_TASK);
  _ ← put (set_events no_events);
  mret new_delay_ms.

(** The result of a received packet. *)
Definition received_packet (E : env) : M provisioning_res_e :=
  buffer ← get m_data_buffer;
  id ← get m_session_id;
  if negb (field 5 1 buffer =? id) then mret PROV_RES_INVALID_PACKET
  else if field 0 1 buffer =? PROV_PACKET_TYPE_NACK then
    _ ← put (fun p => set_retry (nb_retry (m_conf p)) p); mret PROV_RES_NACK
  else if negb (field 0 1 buffer =? PROV_PACKET_TYPE_DATA) then mret PROV_RES_INVALID_PACKET
  else process_data_packet E.

Definition double_timeout (p : prov) : prov :=
  let c := m_conf p in
  set_conf {| method := method c; nb_retry := nb_retry c; timeout_s := u16 (timeout_s c * 2); uid := uid c;
    uid_len := uid_len c; key := key c; key_len := key_len c; end_cb := end_cb c; user_data_cb := user_data_cb c;
    beacon_joining_cb := beacon_joining_cb c |} p.

Definition state_wait_data (E : env) : M Z :=
  ev ← get m_events;
  r ← (if rxd_packet ev then
         res ← received_packet E;
         if decide (res = PROV_RES_SUCCESS) then
           _ ← put (set_state PROV_STATE_WAIT_ACK_SENT);
           _ ← do_outer (removeDataReceivedCb E);
           _ ← do_outer (cancelTask E timeout_task_);
           d ← send_ack_packet E;
           mret (res, d)
         else mret (res, APP_SCHEDULER_STOP_TASK)
       else mret (if timeout ev then PROV_RES_TIMEOUT else PROV_RES_SUCCESS, APP_SCHEDULER_STOP_TASK));
  new_delay_ms ←
    (if decide (r.1 <> PROV_RES_SUCCESS) then
       over ← one_more_try;
       if (over : bool) then _ ← fail_with E r.1; mret r.2
       else
         _ ← put double_timeout;
         _ ← put (set_state PROV_STATE_START);
         _ ← do_outer (removeDataReceivedCb E);
         _ ← do_outer (cancelTask E timeout_task_);
         mret APP_SCHEDULER_SCHEDULE_ASAP
     else mret r.2);
  _ ← put (set_events no_events);
  mret new_delay_ms.

(** What the packet is decoded as once the acknowledgement is sent. *)
Definition final_conf (p : prov) : provisioning_data_conf_t W :=
  let c := m_conf p in
  let length := u8 (m_data_length p - Z.of_nat PROV_DATA_OFFSET) in
  {| conf_end_cb := end_cb c;
     conf_user_data_cb := user_data_cb c;
     conf_buffer := Some (drop PROV_DATA_OFFSET (m_data_buffer p));
     conf_length := if method c =? PROV_METHOD_SECURED then u8 (length - Z.of_nat PROV_MIC_SIZE) else length |}.

Definition state_wait_ack_sent (E : env) : M Z :=
  ev ← get m_events;
  _ ← (if ack_sent ev || timeout ev then
         conf ← get final_conf;
         _ ← do_outer (cancelTask E timeout_task_);
         ret ← data_decode E conf false;
         if decide (ret <> PROV_RET_OK) then fail_with E PROV_RES_INVALID_DATA
         else reset_provisioning E
       else mret tt);
  _ ← put (set_events no_events);
  mret APP_SCHEDULER_STOP_TASK.

Definition run_state_machine (E : env) : M Z :=
  st ← get m_state;
  match st with
  | PROV_STATE_IDLE => state_idle E
  | PROV_STATE_WAIT_JOINING => state_wait_joining E
  | PROV_STATE_START => state_start E
  | PROV_STATE_WAIT_DATA => state_wait_data E
  | PROV_STATE_WAIT_ACK_SENT => state_wait_ack_sent E
  | PROV_STATE_UNINIT => mret APP_SCHEDULER_STOP_TASK
  end.

(** ** The interface *)

Definition bad_conf (c : provisioning_conf_t) : bool :=
  ((method c =? PROV_METHOD_UNSECURED) && negb (key_len c =? 0)) ||
  ((method c =? PROV_METHOD_SECURED) && negb (key_len c =? 32)) ||
  (timeout_s c =? 0) || match uid c with None => true | _ => false end || (uid_len c =? 0) ||
  match beacon_joining_cb c with None => true | _ => false end.

Definition Provisioning_init (E : env) (conf : provisioning_conf_t) : M provisioning_ret_e :=
  st ← get m_state;
  if decide (st <> PROV_STATE_UNINIT /\ st <> PROV_STATE_IDLE) then mret PROV_RET_INVALID_STATE
  else if bad_conf conf then mret PROV_RET_INVALID_PARAM
  else
    _ ← put (set_conf conf);
    _ ← do_outer (random_init E);
    id ← in_outer (random_get8 E);
    _ ← put (set_session_id id);
    ret ← Provisioning_Joining_init true (nb_retry conf);
    if decide (ret <> PROV_RET_OK) then mret ret
    else
      _ ← put (fun p => match beacon_joining_cb conf with Some f => set_joining_cb f p | None => p end);
      _ ← put (set_state PROV_STATE_IDLE);
      mret PROV_RET_OK.

Definition Provisioning_start (E : env) : M provisioning_ret_e :=
  st ← get m_state;
  if decide (st <> PROV_STATE_IDLE) then mret PROV_RET_INVALID_STATE
  else
    res ← in_outer (addTask E run_state_machine_task APP_SCHEDULER_SCHEDULE_ASAP);
    if negb (res =? APP_SCHEDULER_RES_OK) then
      _ ← fail_with E PROV_RES_ERROR_INTERNAL; mret PROV_RET_INTERNAL_ERROR
    else _ ← put raise_start; mret PROV_RET_OK.

Definition Provisioning_stop (E : env) : M provisioning_ret_e :=
  _ ← fail_with E PROV_RES_STOPPED; mret PROV_RET_OK.

End Provisioning.
Arguments env : clear implicits.
Arguments prov : clear implicits.
Arguments provisioning_conf_t : clear implicits.

(** * Properties *)

#[local] Opaque AES_ECB_encrypt AES_init_ctx le_put cmac aes_crypto128Ctr aes_omac1 aes_initOmac1 add_counter.

(** ** What joining does to the state of its client *)

Section JoiningKeeps.
Context {P : Type} (E : Joining.env P) (I : P -> Prop).

(** Whatever the functions below keep, joining keeps. *)
Class JoiningKeeps : Prop := {
  keeps_addTask t d p : I p -> I (Joining.addTask E t d p).2;
  keeps_cancelTask t p : I p -> I (Joining.cancelTask E t p);
  keeps_addEventCb p : I p -> I (Joining.addEventCb E p);
  keeps_removeEventCb p : I p -> I (Joining.removeEventCb E p);
  keeps_startRx p : I p -> I (Joining.startJoiningBeaconRx E p).2;
  keeps_stopRx p : I p -> I (Joining.stopJoiningBeaconRx E p);
  keeps_startProcess a c p : I p -> I (Joining.startJoiningProcess E a c p).2;
  keeps_stopProcess p : I p -> I (Joining.stopJoiningProcess E p);
  keeps_choice b buf p : I p -> I (Joining.joining_cb E b buf p).2;
  keeps_end r : sf_keeps (fun s => I (world s)) (Joining.end_cb E r : sf (Joining.state P) unit) }.

Context {JK : JoiningKeeps}.
Abbreviation K := (sf_keeps (fun s : Joining.state P => I (world s))).

Lemma K_in_world {A} (f : P -> A * P) : (forall p, I p -> I (f p).2) -> K (Joining.in_world f).
Proof. intros H s x s'. unfold in_world. specialize (H (world s)). destruct (f (world s)). intros [= <- <-]. exact H. Qed.

Lemma K_do_world (f : P -> P) : (forall p, I p -> I (f p)) -> K (Joining.do_world f).
Proof. intros H. apply sf_keeps_puts. intros s. apply H. Qed.

(** A change of joining's own variables. *)
Lemma K_own (f : Joining.state P -> Joining.state P) : (forall s, world (f s) = world s) -> K (puts f).
Proof. intros H. apply sf_keeps_puts. intros s. by rewrite H. Qed.

Hint Resolve keeps_addTask keeps_cancelTask keeps_addEventCb keeps_removeEventCb keeps_startRx keeps_stopRx
  keeps_startProcess keeps_stopProcess keeps_choice keeps_end K_in_world K_do_world : sf_keeps.
Hint Extern 1 (sf_keeps _ (puts _)) => apply K_own; reflexivity : sf_keeps.

Lemma K_reset b : K (reset_joining E b).
Proof. unfold reset_joining. sf_keep. Qed.

Lemma K_fail r : K (Joining.fail_with E r).
Proof. unfold Joining.fail_with. apply sf_keeps_bind; [apply K_reset|intros _; apply keeps_end]. Qed.
Hint Resolve K_reset K_fail : sf_keeps.

Lemma K_schedule : K (Joining.schedule E).
Proof. unfold Joining.schedule. sf_keep. Qed.

Lemma K_start_timeout d : K (start_timeout E d).
Proof. unfold start_timeout. sf_keep. Qed.

Lemma K_one_more_try : K Joining.one_more_try.
Proof. unfold Joining.one_more_try. sf_keep. Qed.
Hint Resolve K_schedule K_start_timeout K_one_more_try : sf_keeps.

Lemma K_joining_start : K (Provisioning_Joining_start E).
Proof. unfold Provisioning_Joining_start. sf_keep. Qed.

Lemma K_joining_stop : K (Provisioning_Joining_stop E).
Proof. unfold Provisioning_Joining_stop. sf_keep. Qed.

Lemma K_joining_init b n : K (Provisioning_Joining_init b n).
Proof. unfold Provisioning_Joining_init. sf_keep. Qed.

Lemma K_select : K (select_beacon E).
Proof. unfold select_beacon. sf_keep. Qed.

Lemma K_join b : K (join_network E b).
Proof. unfold join_network. sf_keep. Qed.
Hint Resolve K_select K_join : sf_keeps.

Lemma K_scan_ended : K (scan_ended E).
Proof. unfold scan_ended. sf_keep. Qed.
Hint Resolve K_scan_ended : sf_keeps.

Lemma K_joining_run : K (Joining.run_state_machine E).
Proof.
  unfold Joining.run_state_machine, Joining.state_idle, Joining.state_start, state_wait_scan_end, state_wait_route_change.
  sf_keep.
Qed.

Lemma K_joining_timeout : K (Joining.timeout_task E).
Proof. unfold Joining.timeout_task. sf_keep. Qed.

Lemma K_scan_end n buf : K (_ ← puts (Joining.set_buffer buf); joining_beacon_rx_cb E n).
Proof. unfold joining_beacon_rx_cb. sf_keep. Qed.

Lemma K_route_changed : K (route_changed_cb E).
Proof. unfold route_changed_cb. sf_keep. Qed.

End JoiningKeeps.

(** ** Decryption *)

(** The bytes in front of the data are not changed, and the code is that of the
    decrypted packet. *)
Lemma open_packet_ok k iv buffer len buffer' : length buffer = PROV_PDU_SIZE -> 0 <= len <= 102 ->
  open_packet k iv buffer len (u8 (u8 (len - Z.of_nat PROV_DATA_OFFSET) - Z.of_nat PROV_MIC_SIZE)) = Some (buffer', true) ->
  14 <= len /\ length buffer' = PROV_PDU_SIZE /\ take PROV_DATA_OFFSET buffer' = take PROV_DATA_OFFSET buffer /\
  slice (Z.to_nat len - PROV_MIC_SIZE) PROV_MIC_SIZE buffer' =
    (aes_omac1 (aes_initOmac1 (take 16 k) omac0) PROV_MIC_SIZE (take (Z.to_nat len - PROV_MIC_SIZE) buffer')).1.
Proof.
  intros Hl Hn. unfold open_packet. set (n := u8 _). destruct (_ || _) eqn:Hg; [done|].
  apply orb_false_iff in Hg as [_ Hg]. apply Nat.ltb_ge in Hg. rewrite Hl in Hg.
  unfold PROV_PDU_SIZE, PROV_DATA_OFFSET, PROV_MIC_SIZE in *. change (Z.of_nat 9) with 9 in *. change (Z.of_nat 5) with 5 in *.
  assert (Hlen : 14 <= len /\ n = len - 14).
  { unfold n in *. pose proof (u8_range (u8 (len - 9) - 5)).
    destruct (decide (14 <= len)).
    { split; [done|]. rewrite (uwrap_small 8 (len - 9)), uwrap_small by (unfold fits; lia). lia. }
    exfalso. destruct (decide (9 <= len)).
    - rewrite (uwrap_small 8 (len - 9)) in Hg by (unfold fits; lia).
      assert (u8 (len - 9 - 5) = len - 14 + 256) by (unfold uwrap; symmetry; apply Z.mod_unique with (-1); lia). lia.
    - assert (E9 : u8 (len - 9) = len - 9 + 256) by (unfold uwrap; symmetry; apply Z.mod_unique with (-1); lia).
      rewrite E9 in Hg. rewrite uwrap_small in Hg by (unfold fits; lia). lia. }
  destruct Hlen as [Hlen ->]. replace (Z.to_nat (len - 14 + 5)) with (Z.to_nat len - 9)%nat by lia.
  replace (9 + Z.to_nat (len - 14))%nat with (Z.to_nat len - 5)%nat by lia.
  destruct (aes_crypto128Ctr _ _) as [text st]. rewrite (proj2 (Z.ltb_ge len 5)) by lia.
  destruct (aes_omac1 _ _ _) as [mic st'] eqn:Em. intros [= <- Hm].
  apply bool_decide_eq_true in Hm. rewrite Em. cbn [fst]. split; [done|].
  rewrite length_blit, take_blit_ge by done. done.
Qed.

(** ** What the library keeps *)

Section Quiet.
Context {V W : Type} (C : cbor V) (E : env W) (registered : W -> bool).
Abbreviation state := (Joining.state (prov W)).
Implicit Types (s : state) (p : prov W) (w : W).

Definition quiet (f : W -> W) : Prop := forall w, registered w = false -> registered (f w) = false.

(** Packets are received when the library asked for them; nothing but the
    library asks in its name. *)
Class Quiet : Prop := {
  quiet_addTask t d : quiet (fun w => (addTask E t d w).2);
  quiet_cancelTask t : quiet (cancelTask E t);
  quiet_addEventCb : quiet (addEventCb E);
  quiet_removeEventCb : quiet (removeEventCb E);
  quiet_startRx : quiet (fun w => (startJoiningBeaconRx E w).2);
  quiet_stopRx : quiet (stopJoiningBeaconRx E);
  quiet_startProcess a c : quiet (fun w => (startJoiningProcess E a c w).2);
  quiet_stopProcess : quiet (stopJoiningProcess E);
  quiet_sendData d b : quiet (fun w => (sendData E d b w).2);
  quiet_shutdown b : quiet (setShutdownCb (data_env E) b);
  not_registered w : registered (removeDataReceivedCb E w) = false }.

Context {Q : Quiet}.

Definition quiet_choice (f : option nat -> list app_lib_joining_received_beacon_t -> W -> option nat * W) : Prop :=
  forall b buf, quiet (fun w => (f b buf w).2).

(** The packet in the buffer is a DATA packet of the session, and it comes
    from who knows the factory key if the method needs one. *)
Definition authentic p : Prop :=
  let buffer := m_data_buffer p in
  let n := Z.to_nat (m_data_length p) in
  let k := key (m_conf p) in
  field 0 1 buffer = PROV_PACKET_TYPE_DATA /\ field 5 1 buffer = m_session_id p /\
  (method (m_conf p) = PROV_METHOD_UNSECURED /\ field 6 1 buffer = 0 \/
   secured (m_conf p) = true /\ field 6 1 buffer = 1 /\ (14 <= n)%nat /\
   slice (n - PROV_MIC_SIZE) PROV_MIC_SIZE buffer =
     (aes_omac1 (aes_initOmac1 (take 16 k) omac0) PROV_MIC_SIZE (take (n - PROV_MIC_SIZE) buffer)).1).

(** Its data are good: decoding them cannot fail any more. *)
Definition decodes p : Prop := forall d t r t',
  Provisioning_Data_decode C (data_env E) (parse_fuel E) (final_conf p) d t = Some (r, t') -> r = PROV_RET_OK.

Record steady p : Prop := {
  steady_choice : quiet_choice (m_joining_cb p);
  steady_buffer : length (m_data_buffer p) = PROV_PDU_SIZE;
  steady_length : 0 <= m_data_length p <= 102 }.

(** No packet was accepted yet, or the accepted one is. *)
Definition away p : Prop := steady p /\ m_state p <> PROV_STATE_WAIT_ACK_SENT.
Definition accepting p : Prop :=
  steady p /\
  (m_state p = PROV_STATE_WAIT_ACK_SENT ->
    registered (outer p) = false /\ authentic p /\ (method (m_conf p) <> PROV_METHOD_EXTENDED_UID -> decodes p)).

Lemma away_accepting p : away p -> accepting p.
Proof. intros [H1 H2]. by split. Qed.

Abbreviation on P := (fun s : state => P (world s)).

(** Either is kept by what does not touch the packet. *)
Record Kept (P : prov W -> Prop) : Prop := {
  kept_outer p w : P p -> (registered (outer p) = false -> registered w = false) -> P (set_outer w p);
  kept_events p e : P p -> P (set_events e p);
  kept_joining_res p r : P p -> P (set_joining_res r p);
  kept_timeout_ms p t : P p -> P (set_timeout_ms t p);
  kept_reset p : steady p -> m_state p = PROV_STATE_IDLE -> P p;
  kept_steady p : P p -> steady p }.

Lemma Kept_away : Kept away.
Proof.
  split; try (by intros ? ? [[H1 H2 H3] H4]); try (by intros ? ? [[H1 H2 H3] H4] ?).
  - intros p H Hst. split; [done|]. by rewrite Hst.
  - by intros p [H _].
Qed.

Lemma Kept_accepting : Kept accepting.
Proof.
  split.
  - intros p w [[H1 H2 H3] H4] Hw. split; [done|]. intros Hst. destruct (H4 Hst) as (H5 & H6 & H7). auto.
  - intros p e [[H1 H2 H3] H4]. split; [done|]. intros Hst. destruct (H4 Hst) as (H5 & H6 & H7). auto.
  - intros p e [[H1 H2 H3] H4]. split; [done|]. intros Hst. destruct (H4 Hst) as (H5 & H6 & H7). auto.
  - intros p e [[H1 H2 H3] H4]. split; [done|]. intros Hst. destruct (H4 Hst) as (H5 & H6 & H7). auto.
  - intros p H Hst. split; [done|]. by rewrite Hst.
  - by intros p [H _].
Qed.

(** ** Joining and reset *)

Section Steps.
Context (P : prov W -> Prop) (KP : Kept P).
Abbreviation K := (sf_keeps (on P)).

Lemma steady_outer p w : steady p -> steady (set_outer w p).
Proof. by intros [H1 H2 H3]. Qed.

Lemma K_outer {A} (f : W -> A * W) : quiet (fun w => (f w).2) -> K (in_outer f).
Proof.
  intros Hf. unfold in_outer. apply (K_in_world P). intros p Hp. unfold lift. specialize (Hf (outer p)). cbn in Hf. destruct (f (outer p)) as [x w].
  by apply (kept_outer P KP); [|exact Hf].
Qed.

Lemma K_do_outer (f : W -> W) : quiet f -> K (do_outer f).
Proof. intros Hf. apply sf_keeps_puts. intros s Hp. cbn. apply (kept_outer P KP); [done|apply Hf]. Qed.

Lemma K_put (f : prov W -> prov W) : (forall p, P p -> P (f p)) -> K (put f).
Proof. intros Hf. apply sf_keeps_puts. intros s. apply Hf. Qed.

Lemma K_get {A} (f : prov W -> A) : K (get f).
Proof. apply sf_keeps_asks. Qed.

(** Back to idle: nothing is left of a packet. *)
Definition idle p : Prop := steady p /\ m_state p = PROV_STATE_IDLE.

Lemma idle_P p : idle p -> P p.
Proof. intros [H1 H2]. by apply (kept_reset P KP). Qed.

End Steps.

Lemma Kept_idle : Kept idle.
Proof.
  split; try (by intros ? ? [[H1 H2 H3] H4]); try (by intros ? ? [[H1 H2 H3] H4] ?); [done|by intros p [H _]].
Qed.

Lemma Kept_steady : Kept steady.
Proof. split; try done; by intros ? ? [H1 H2 H3]. Qed.

Lemma quiet_outer P (KP : Kept P) f p : quiet f -> P p -> P (lift_ f p).
Proof. intros Hf Hp. apply (kept_outer P KP); [done|apply Hf]. Qed.

Lemma quiet_outer2 {A} P (KP : Kept P) (f : W -> A * W) p : quiet (fun w => (f w).2) -> P p -> P (lift f p).2.
Proof.
  intros Hf Hp. unfold lift. specialize (Hf (outer p)). cbn in Hf. destruct (f (outer p)) as [x w].
  by apply (kept_outer P KP); [|exact Hf].
Qed.

Lemma joining_keeps P (KP : Kept P) (end_joining : provisioning_res_e -> state -> option (unit * state)) :
  (forall r, sf_keeps (on P) (end_joining r : sf state unit)) -> JoiningKeeps (joining_env E end_joining) P.
Proof.
  intros He. split; cbn; intros;
    try (apply quiet_outer; [done|apply Q|done]); try (apply quiet_outer2; [done|apply Q|done]).
  - apply quiet_outer2; [done| |done]. apply (kept_steady P KP p H).
  - apply He.
Qed.

(** A reset goes to idle, and calls joining, which may reset again. *)
Lemma reset_with_idle P (KP : Kept P) (end_joining : provisioning_res_e -> state -> option (unit * state)) s r s' :
  (forall r, sf_keeps (on idle) (end_joining r : sf state unit)) ->
  reset_with E end_joining s = Some (r, s') -> P (world s) -> idle (world s').
Proof.
  intros He H Hp. unfold reset_with in H. unfold do_outer, put in H. rewrite !putsE in H.
  match type of H with (_ _ ?s1) = _ => set (s1' := s1) in H end.
  assert (Hi : idle (world s1')).
  { unfold s1'. cbn. split; [|done]. destruct (kept_steady P KP _ Hp) as [H1 H2 H3]. done. }
  revert H Hi. apply (sf_keeps_bind (on idle)); [|intros; apply sf_keeps_ret].
  apply K_joining_stop. apply joining_keeps; [apply Kept_idle|exact He].
Qed.

End Quiet.

(** ** The operations *)

Section Operations.
Context {V W : Type} (C : cbor V) (E : env W) (registered : W -> bool) {Q : Quiet E registered}.
Abbreviation state := (Joining.state (prov W)).
Implicit Types (s : state) (p : prov W) (w : W).
Abbreviation quiet := (quiet registered).
Abbreviation steady := (steady registered).
Abbreviation idle := (idle registered).
Abbreviation away := (away registered).
Abbreviation accepting := (accepting C E registered).
Abbreviation Kept := (Kept registered).
Abbreviation on P := (fun s : state => P (world s)).

Lemma idle_outer {A} (f : W -> A * W) : sf_keeps (on idle) (in_outer f : sf state A).
Proof.
  unfold in_outer. apply (K_in_world idle). intros p [[H1 H2 H3] H4]. unfold lift. by destruct (f (outer p)).
Qed.

Lemma call_end_cb_idle res : sf_keeps (on idle) (call_end_cb res : sf state unit).
Proof.
  unfold call_end_cb. apply sf_keeps_bind; [apply sf_keeps_reads|]. intros cb.
  apply sf_keeps_bind; [apply idle_outer|intros; apply sf_keeps_ret].
Qed.

Lemma K_end_joining P (KP : Kept P) n : (forall r, sf_keeps (on idle) (end_joining_n E n r)) ->
  forall r, sf_keeps (on P) (end_joining_n E (S n) r).
Proof.
  intros IH r. cbn [end_joining_n].
  apply sf_keeps_bind; [apply K_put; intros p Hp; by apply (kept_joining_res _ P KP)|intros _].
  apply sf_keeps_bind; [apply K_put; intros p Hp; by apply (kept_events _ P KP)|intros _].
  apply sf_keeps_bind; [apply (K_outer registered P KP), Q|intros res].
  destruct (negb _); [|apply sf_keeps_ret].
  intros s x s' H Hp. unfold mbind, sf_bind in H.
  destruct (reset_with E (end_joining_n E n) s) as [[u s1]|] eqn:Hr; [|done].
  apply (idle_P registered P KP). eapply call_end_cb_idle; [exact H|].
  by eapply (reset_with_idle E registered P KP).
Qed.

Lemma end_joining_idle n r : sf_keeps (on idle) (end_joining_n E n r).
Proof.
  revert r. induction n as [|n IH]; intros r; [by intros s x s'|]. apply K_end_joining; [apply Kept_idle|exact IH].
Qed.

Lemma K_end_joining_n P (KP : Kept P) n r : sf_keeps (on P) (end_joining_n E n r).
Proof. destruct n as [|n]; [by intros s x s'|]. apply K_end_joining; [done|]. apply end_joining_idle. Qed.

Lemma J_keeps P (KP : Kept P) : JoiningKeeps (J E) P.
Proof. apply (joining_keeps E registered P KP). intros r. by apply K_end_joining_n. Qed.

Lemma reset_idle s x s' : reset_provisioning E s = Some (x, s') -> steady (world s) -> idle (world s').
Proof.
  intros H Hs. eapply (reset_with_idle E registered steady (Kept_steady registered)); [|exact H|exact Hs].
  intros r. apply end_joining_idle.
Qed.

Lemma fail_idle res s x s' : fail_with E res s = Some (x, s') -> steady (world s) -> idle (world s').
Proof.
  unfold fail_with. intros H Hs. unfold mbind, sf_bind in H.
  destruct (reset_provisioning E s) as [[u s1]|] eqn:Hr; [|done].
  eapply call_end_cb_idle; [exact H|]. by eapply reset_idle.
Qed.

Lemma K_fail_with P (KP : Kept P) res : sf_keeps (on P) (fail_with E res).
Proof. intros s x s' H Hp. apply (idle_P registered P KP). eapply fail_idle; [exact H|]. by apply (kept_steady _ P KP). Qed.

Lemma K_reset_provisioning P (KP : Kept P) : sf_keeps (on P) (reset_provisioning E).
Proof. intros s x s' H Hp. apply (idle_P registered P KP). eapply reset_idle; [exact H|]. by apply (kept_steady _ P KP). Qed.

Lemma K_schedule_task P (KP : Kept P) t d : sf_keeps (on P) (schedule E t d).
Proof.
  unfold schedule. apply sf_keeps_bind; [apply (K_outer registered P KP), Q|intros res].
  destruct (negb _); [by apply K_fail_with|apply sf_keeps_ret].
Qed.

Lemma K_events P (KP : Kept P) e : sf_keeps (on P) (put (set_events e) : sf state unit).
Proof. apply K_put. intros p Hp. by apply (kept_events _ P KP). Qed.

Lemma K_timeout_task P (KP : Kept P) : sf_keeps (on P) (timeout_task E).
Proof.
  unfold timeout_task. apply sf_keeps_bind; [apply K_put; intros p Hp; by apply (kept_events _ P KP)|intros _].
  apply sf_keeps_bind; [by apply K_schedule_task|intros; apply sf_keeps_ret].
Qed.

Lemma K_packet_sent P (KP : Kept P) : sf_keeps (on P) (packet_sent_cb E).
Proof.
  unfold packet_sent_cb. apply sf_keeps_bind; [apply K_put; intros p Hp; by apply (kept_events _ P KP)|intros _].
  by apply K_schedule_task.
Qed.

Lemma K_send_ack P (KP : Kept P) : sf_keeps (on P) (send_ack_packet E).
Proof.
  unfold send_ack_packet. do 3 (apply sf_keeps_bind; [apply K_get|intros ?]).
  apply sf_keeps_bind; [apply (K_outer registered P KP), Q|intros res].
  destruct (negb _); [apply sf_keeps_ret|].
  apply sf_keeps_bind; [apply K_put; intros p Hp; by apply (kept_timeout_ms _ P KP)|intros _].
  apply sf_keeps_bind; [apply K_get|intros t].
  apply sf_keeps_bind; [by apply K_schedule_task|intros; apply sf_keeps_ret].
Qed.

(** ** Before a packet is accepted *)

Lemma away_outer {A} (f : W -> A * W) : sf_keeps (on away) (in_outer f : sf state A).
Proof.
  unfold in_outer. apply (K_in_world away). intros p [[H1 H2 H3] H4]. unfold lift. by destruct (f (outer p)).
Qed.

Lemma away_do_outer (f : W -> W) : sf_keeps (on away) (do_outer f : sf state unit).
Proof. apply sf_keeps_puts. by intros s [[H1 H2 H3] H4]. Qed.

(** A change of variables other than the state, the buffer and the callback. *)
Lemma away_put (f : prov W -> prov W) :
  (forall p, m_data_buffer (f p) = m_data_buffer p /\ m_data_length (f p) = m_data_length p /\
     m_joining_cb (f p) = m_joining_cb p /\ (m_state (f p) = m_state p \/ m_state (f p) <> PROV_STATE_WAIT_ACK_SENT)) ->
  sf_keeps (on away) (put f : sf state unit).
Proof.
  intros Hf. apply K_put. intros p [[H1 H2 H3] H4]. destruct (Hf p) as (F1 & F2 & F3 & F4).
  split; [split; by rewrite ?F1, ?F2, ?F3|]. by destruct F4 as [-> |].
Qed.

Lemma away_joining_start : sf_keeps (on away) (Provisioning_Joining_start (J E)).
Proof. apply K_joining_start. apply J_keeps, Kept_away. Qed.

Lemma away_fail res : sf_keeps (on away) (fail_with E res).
Proof. apply K_fail_with, Kept_away. Qed.

Lemma away_schedule t d : sf_keeps (on away) (schedule E t d).
Proof. apply K_schedule_task, Kept_away. Qed.

Lemma away_get {A} (f : prov W -> A) : sf_keeps (on away) (get f : sf state A).
Proof. apply sf_keeps_asks. Qed.

Hint Resolve away_outer away_do_outer away_joining_start away_fail away_schedule away_get : sf_keeps.
Hint Extern 1 (sf_keeps _ (put _)) => apply away_put; intros [? ? ? ? ? ? ? ? ? ? ? ? ?]; cbn; by auto : sf_keeps.

Lemma away_random n : sf_keeps (on away) (random_bytes E n).
Proof. induction n; cbn [random_bytes]; sf_keep. Qed.
Hint Resolve away_random : sf_keeps.

Lemma away_one_more : sf_keeps (on away) (one_more_try : sf state bool).
Proof. unfold one_more_try. sf_keep. Qed.
Hint Resolve away_one_more : sf_keeps.

Lemma away_idle : sf_keeps (on away) (state_idle E).
Proof. unfold state_idle. sf_keep. Qed.

Lemma away_wait_joining : sf_keeps (on away) (state_wait_joining E).
Proof. unfold state_wait_joining. sf_keep. Qed.

Lemma away_start : sf_keeps (on away) (state_start E).
Proof. unfold state_start. sf_keep. Qed.

(** ** A packet *)

Lemma slice_of_take a n m (l l' : list Z) : (a + n <= m)%nat -> take m l = take m l' -> slice a n l = slice a n l'.
Proof.
  intros H Ht. unfold slice. rewrite !take_drop_commute.
  assert (Hm : forall k : list Z, take (a + n) k = take (a + n) (take m k)) by (intros k; rewrite take_take; f_equal; lia).
  by rewrite (Hm l), (Hm l'), Ht.
Qed.

(** A dry run that succeeds tells that the data can be decoded. *)
Lemma dry_run_decodes p conf t t' :
  Provisioning_Data_decode C (data_env E) (parse_fuel E) conf true t = Some (PROV_RET_OK, t') ->
  conf_buffer conf = conf_buffer (final_conf p) -> conf_length conf = conf_length (final_conf p) -> decodes C E p.
Proof.
  intros H Hb Hl d u r' u' H'. symmetry. eapply (decode_code C (data_env E)); [exact Hb|exact Hl|exact H|exact H'].
Qed.

Definition accepted_packet p : Prop :=
  authentic p /\ (method (m_conf p) <> PROV_METHOD_EXTENDED_UID -> decodes C E p).

(** The dry run. *)
Lemma check_data p n s x s' : world s = p ->
  (ret ← data_decode C E {| conf_end_cb := None; conf_user_data_cb := None;
      conf_buffer := Some (drop PROV_DATA_OFFSET (m_data_buffer p)); conf_length := n |} true;
   mret (if decide (ret <> PROV_RET_OK) then PROV_RES_INVALID_DATA else PROV_RES_SUCCESS)) s = Some (x, s') ->
  exists d w, world s' = set_data d w p /\
    (x = PROV_RES_SUCCESS -> conf_length (final_conf p) = n -> decodes C E p).
Proof.
  intros Hp. unfold mbind, sf_bind, data_decode. rewrite Hp.
  destruct (Provisioning_Data_decode _ _ _ _ _ _) as [[ret t]|] eqn:Hd; [|done]. intros [= <- <-].
  eexists _, _. split; [reflexivity|]. intros Hx Hn. destruct (decide (ret <> PROV_RET_OK)) as [|Hr]; [done|].
  destruct (decide (ret = PROV_RET_OK)) as [->|]; [|done].
  eapply dry_run_decodes; [exact Hd|done|by rewrite Hn].
Qed.
(** What processing a packet leaves: the first nine bytes, the configuration
    and the session. *)
Definition same_packet p p' : Prop :=
  m_conf p' = m_conf p /\ m_session_id p' = m_session_id p /\ m_data_length p' = m_data_length p /\
  m_state p' = m_state p /\ m_joining_cb p' = m_joining_cb p /\ length (m_data_buffer p') = length (m_data_buffer p) /\
  take PROV_DATA_OFFSET (m_data_buffer p') = take PROV_DATA_OFFSET (m_data_buffer p).

(** The method's own condition. *)
Definition keyed p : Prop :=
  let n := Z.to_nat (m_data_length p) in
  method (m_conf p) = PROV_METHOD_UNSECURED /\ field 6 1 (m_data_buffer p) = 0 \/
  secured (m_conf p) = true /\ field 6 1 (m_data_buffer p) = 1 /\ (14 <= n)%nat /\
  slice (n - PROV_MIC_SIZE) PROV_MIC_SIZE (m_data_buffer p) =
    (aes_omac1 (aes_initOmac1 (take 16 (key (m_conf p))) omac0) PROV_MIC_SIZE
       (take (n - PROV_MIC_SIZE) (m_data_buffer p))).1.

Lemma process_ok s x s' : process_data_packet C E s = Some (x, s') -> steady (world s) ->
  same_packet (world s) (world s') /\
  (x = PROV_RES_SUCCESS ->
    keyed (world s') /\ (method (m_conf (world s)) <> PROV_METHOD_EXTENDED_UID -> decodes C E (world s'))).
Proof.
  intros H [_ Hl Hn]. unfold process_data_packet in H. unfold get in H. rewrite !asksE in H. set (p := world s) in *.
  destruct (Z.eqb_spec (method (m_conf p)) PROV_METHOD_UNSECURED) as [Hm|Hm].
  - rewrite sf_retE in H. cbn [fst snd] in H.
    destruct (Z.eqb_spec (field 6 1 (m_data_buffer p)) 0) as [Hk|Hk]; [|by injection H as <- <-].
    rewrite decide_True, asksE in H by done. fold p in H.
    apply (check_data p) in H as (d & w & Hw & Hd); [|done]. rewrite Hw. split; [by repeat split|].
    intros Hx. split; [by left|]. intros _. apply Hd; [done|]. cbn. rewrite Hm. done.
  - destruct (secured (m_conf p)) eqn:Hs; [|by injection H as <- <-].
    destruct (Z.eqb_spec (field 6 1 (m_data_buffer p)) 1) as [Hk|Hk]; [|by injection H as <- <-].
    rewrite sf_assoc in H. fold p in H.
    set (n := u8 (u8 (m_data_length p - Z.of_nat PROV_DATA_OFFSET) - Z.of_nat PROV_MIC_SIZE)) in *.
    destruct (open_packet (key (m_conf p)) (m_iv p) (m_data_buffer p) (m_data_length p) n) as [[b ok]|] eqn:Ho.
    2:{ unfold mbind, sf_bind, reads in H. fold p in H. by rewrite Ho in H. }
    erewrite readsE in H by exact Ho. rewrite sf_assoc in H. unfold put in H. rewrite putsE, sf_retE in H.
    cbn [fst snd] in H. set (s1 := set_world _ s) in H.
    assert (Hsame : ok = true -> same_packet p (world s1) /\ keyed (world s1)).
    { intros ->. destruct (open_packet_ok _ _ _ _ _ Hl Hn Ho) as (O1 & O2 & O3 & O4).
      split; [split_and!; cbn; done || by rewrite Hl|]. right. cbn. split; [done|]. split.
      - rewrite <- Hk. unfold field. f_equal. apply (slice_of_take 6 1 PROV_DATA_OFFSET); [unfold PROV_DATA_OFFSET; lia|done].
      - split; [fold p; lia|done]. }
    destruct ok.
    + destruct (Hsame eq_refl) as [Hp Hkey]. rewrite decide_True, asksE in H by done.
      apply (check_data (world s1)) in H as (d & w & Hw & Hd); [|done]. rewrite Hw. split; [exact Hp|].
      intros Hx. split; [exact Hkey|]. intros He. apply Hd; [done|]. cbn. fold p. unfold secured in Hs.
      destruct (Z.eqb_spec (method (m_conf p)) PROV_METHOD_SECURED); [done|].
      cbn [orb] in Hs. by apply Z.eqb_eq in Hs.
    + injection H as <- <-. split; [|done]. cbn. unfold open_packet in Ho.
      destruct (_ || _); [done|]. destruct (aes_crypto128Ctr _ _) as [text st].
      destruct (_ <? _); [done|]. destruct (aes_omac1 _ _ _) as [mic st']. injection Ho as <- _.
      split_and!; try done; cbn; [apply length_blit|by apply take_blit_ge].
Qed.

Lemma same_packet_away p p' : same_packet p p' -> away p -> away p'.
Proof.
  intros (S1 & S2 & S3 & S4 & S5 & S6 & S7) [[H1 H2 H3] H4]. split; [|by rewrite S4].
  split; [by rewrite S5|by rewrite S6|by rewrite S3].
Qed.

Lemma received_packet_ok s x s' : received_packet C E s = Some (x, s') -> away (world s) ->
  away (world s') /\ (x = PROV_RES_SUCCESS -> accepted_packet (world s')).
Proof.
  intros H Ha. unfold received_packet in H. unfold get in H. rewrite !asksE in H.
  destruct (Z.eqb_spec (field 5 1 (m_data_buffer (world s))) (m_session_id (world s))) as [Hi|Hi]; cbn [negb] in H;
    [|by injection H as <- <-].
  destruct (field 0 1 (m_data_buffer (world s)) =? PROV_PACKET_TYPE_NACK).
  { unfold put in H. rewrite putsE in H. injection H as <- <-. split; [|done]. by destruct Ha as [[H1 H2 H3] H4]. }
  destruct (Z.eqb_spec (field 0 1 (m_data_buffer (world s))) PROV_PACKET_TYPE_DATA) as [Ht|Ht]; cbn [negb] in H;
    [|by injection H as <- <-].
  destruct (process_ok s x s' H (proj1 Ha)) as [Hs Hx]. split; [by eapply same_packet_away|].
  intros Hr. destruct (Hx Hr) as [Hk Hd]. destruct Hs as (S1 & S2 & S3 & S4 & S5 & S6 & S7).
  split; [|by rewrite S1]. split; [|split; [|exact Hk]].
  - rewrite <- Ht. unfold field. f_equal. apply (slice_of_take 0 1 PROV_DATA_OFFSET); [unfold PROV_DATA_OFFSET; lia|done].
  - rewrite S2, <- Hi. unfold field. f_equal. apply (slice_of_take 5 1 PROV_DATA_OFFSET); [unfold PROV_DATA_OFFSET; lia|done].
Qed.

(** ** The state machine *)

Hint Resolve away_outer away_do_outer away_fail away_schedule away_get away_one_more : sf_keeps.
Hint Extern 1 (sf_keeps _ (put _)) => apply away_put; intros [? ? ? ? ? ? ? ? ? ? ? ? ?]; cbn; by auto : sf_keeps.

Lemma accepted_accepting p w : steady p -> accepted_packet p -> registered w = false ->
  accepting (set_outer w (set_state PROV_STATE_WAIT_ACK_SENT p)).
Proof. intros [H1 H2 H3] [Ha Hd] Hw. split; [done|]. intros _. split; [exact Hw|]. split; [exact Ha|exact Hd]. Qed.

Lemma wait_data_accepting s x s' : state_wait_data C E s = Some (x, s') -> away (world s) -> accepting (world s').
Proof.
  assert (HK : Kept accepting) by apply Kept_accepting.
  enough (H : sf_leaves (on away) (state_wait_data C E) (fun _ s => accepting (world s))) by (intros E1 E2; by eapply H).
  unfold state_wait_data. apply sf_leaves_asks. intros ev.
  apply sf_leaves_bind with (R := fun r s => if decide (r.1 = PROV_RES_SUCCESS) then accepting (world s) else away (world s)).
  - destruct (rxd_packet ev).
    2:{ apply sf_leaves_ret. intros t Ht. destruct (decide _); [by apply away_accepting|done]. }
    apply sf_leaves_bind with (R := fun r s => away (world s) /\ (r = PROV_RES_SUCCESS -> accepted_packet (world s))).
    { intros t r t' Ht Ha. by apply received_packet_ok in Ht. }
    intros r. destruct (decide (r = PROV_RES_SUCCESS)) as [->|Hr].
    2:{ apply sf_leaves_ret. cbn. intros t [Ht _]. by rewrite decide_False. }
    apply sf_leaves_puts with (P' := fun t => exists p, steady p /\ accepted_packet p /\ world t = set_state PROV_STATE_WAIT_ACK_SENT p).
    { intros t [[Hs _] Hp]. exists (world t). split; [exact Hs|]. by split; [apply Hp|]. }
    apply sf_leaves_puts with (P' := on accepting).
    { intros t (p & Hs & Hp & Ht). unfold lift_. cbn. rewrite Ht. apply accepted_accepting; [done|done|]. apply Q. }
    apply sf_leaves_bind with (R := fun _ => on accepting).
    { apply sf_leaves_keeps; [|done]. apply (K_do_outer registered _ HK), Q. }
    intros _. apply sf_leaves_bind with (R := fun _ => on accepting).
    { apply sf_leaves_keeps; [by apply K_send_ack|done]. }
    intros d. apply sf_leaves_ret. intros t Ht. cbn. by rewrite decide_True.
  - intros r. apply sf_leaves_bind with (R := fun _ => on accepting).
    2:{ intros d. apply sf_leaves_puts with (P' := on accepting); [|by apply sf_leaves_ret].
        intros t Ht. by apply (kept_events _ _ HK). }
    destruct (decide (r.1 <> PROV_RES_SUCCESS)) as [Hr|Hr].
    + destruct (decide (r.1 = PROV_RES_SUCCESS)); [done|]. apply sf_leaves_keeps; [|intros; by apply away_accepting].
      apply sf_keeps_bind; [apply away_one_more|intros over]. sf_keep.
    + destruct (decide (r.1 = PROV_RES_SUCCESS)); [|done]. by apply sf_leaves_ret.
Qed.

Lemma data_decode_steady conf d : sf_keeps (on steady) (data_decode C E conf d).
Proof.
  intros s x s'. unfold data_decode. destruct (Provisioning_Data_decode _ _ _ _ _ _) as [[r t]|]; [|done].
  intros [= <- <-]. by intros [H1 H2 H3].
Qed.

Lemma wait_ack_accepting s x s' : state_wait_ack_sent C E s = Some (x, s') -> accepting (world s) -> accepting (world s').
Proof.
  assert (HK : Kept accepting) by apply Kept_accepting.
  enough (H : sf_leaves (on accepting) (state_wait_ack_sent C E) (fun _ s => accepting (world s))) by (intros E1 E2; by eapply H).
  unfold state_wait_ack_sent. apply sf_leaves_asks. intros ev. apply sf_leaves_bind with (R := fun _ => on accepting).
  2:{ intros d. apply sf_leaves_puts with (P' := on accepting); [|by apply sf_leaves_ret].
      intros t Ht. by apply (kept_events _ _ HK). }
  destruct (ack_sent ev || timeout ev); [|by apply sf_leaves_ret].
  apply sf_leaves_asks. intros conf.
  apply sf_leaves_puts with (P' := on steady); [intros t [[H1 H2 H3] _]; done|].
  apply sf_leaves_bind with (R := fun _ => on steady); [apply sf_leaves_keeps; [apply data_decode_steady|done]|].
  intros ret. destruct (decide (ret <> PROV_RET_OK)); intros t y t' Ht Hs;
    apply (idle_P registered _ HK); [by eapply fail_idle|by eapply reset_idle].
Qed.

Lemma run_accepting s x s' : run_state_machine C E s = Some (x, s') -> accepting (world s) -> accepting (world s').
Proof.
  unfold run_state_machine, get. rewrite asksE. intros H Ha.
  assert (Hw : m_state (world s) <> PROV_STATE_WAIT_ACK_SENT -> away (world s)) by (intros Hn; by split; [apply Ha|]).
  destruct (m_state (world s)); try specialize (Hw ltac:(done)).
  - by injection H as _ <-.
  - apply away_accepting. by eapply away_idle.
  - apply away_accepting. by eapply away_wait_joining.
  - apply away_accepting. by eapply away_start.
  - by eapply wait_data_accepting.
  - by eapply wait_ack_accepting.
Qed.

Lemma pkt_received_accepting bytes s x s' : pkt_received_cb E bytes s = Some (x, s') -> registered (outer (world s)) = true ->
  accepting (world s) -> accepting (world s').
Proof.
  intros H Hr Ha. assert (Hw : away (world s)).
  { split; [apply Ha|]. intros Hst. destruct Ha as [_ Ha]. destruct (Ha Hst) as [Hf _]. by rewrite Hr in Hf. }
  clear Ha Hr. apply away_accepting. revert H Hw.
  enough (Hk : sf_keeps (on away) (pkt_received_cb E bytes)) by apply Hk.
  unfold pkt_received_cb. apply sf_keeps_bind; [apply K_put; intros p; apply (kept_events _ _ (Kept_away registered))|intros _].
  apply sf_keeps_bind; [|intros _; sf_keep].
  apply K_put. intros p [[H1 H2 H3] H4]. split; [|done]. split; [done| |].
  - cbn. by rewrite length_blit.
  - cbn. unfold PROV_PDU_SIZE. lia.
Qed.

(** ** The interface *)

Lemma init_accepting conf s x s' : Provisioning_init E conf s = Some (x, s') ->
  match beacon_joining_cb conf with Some f => quiet_choice registered f | None => True end ->
  accepting (world s) -> accepting (world s').
Proof.
  unfold Provisioning_init, get. rewrite asksE. intros H Hq Ha.
  destruct (decide _) as [Hd|Hd]; [by injection H as _ <-|].
  destruct (bad_conf conf); [by injection H as _ <-|]. apply away_accepting.
  assert (Hw : away (world s)).
  { split; [apply Ha|]. intros Hst. apply Hd. rewrite Hst. done. }
  clear Ha Hd. revert H Hw.
  match goal with |- ?m s = _ -> _ => enough (Hk : sf_keeps (on away) m) by apply Hk end.
  apply sf_keeps_bind; [sf_keep|intros _]. apply sf_keeps_bind; [sf_keep|intros _].
  apply sf_keeps_bind; [sf_keep|intros id]. apply sf_keeps_bind; [sf_keep|intros _].
  apply sf_keeps_bind; [apply (K_joining_init away)|intros ret].
  destruct (decide _); [sf_keep|]. apply sf_keeps_bind; [|intros _; sf_keep].
  apply K_put. intros p [[H1 H2 H3] H4]. destruct (beacon_joining_cb conf); by split.
Qed.

Lemma start_accepting : sf_keeps (on accepting) (Provisioning_start E).
Proof.
  assert (HK : Kept accepting) by apply Kept_accepting. unfold Provisioning_start.
  apply sf_keeps_bind; [apply K_get|intros st]. destruct (decide _); [apply sf_keeps_ret|].
  apply sf_keeps_bind; [apply (K_outer registered _ HK), Q|intros res].
  destruct (negb _).
  - apply sf_keeps_bind; [by apply K_fail_with|intros; apply sf_keeps_ret].
  - apply sf_keeps_bind; [apply K_put; intros p Hp; by apply (kept_events _ _ HK)|intros; apply sf_keeps_ret].
Qed.

Lemma stop_accepting : sf_keeps (on accepting) (Provisioning_stop E).
Proof.
  unfold Provisioning_stop. apply sf_keeps_bind; [apply K_fail_with, Kept_accepting|intros; apply sf_keeps_ret].
Qed.

(** ** Everything that can happen *)

(** The calls of the application, the callbacks and tasks of both libraries,
    at any time; a packet, when the library has asked for packets; and other
    things, which do not concern it. *)
Inductive event :=
| Init (conf : provisioning_conf_t W) | Start | Stop
| Run | Timeout | Packet (bytes : list Z) | AckSent
| JoiningRun | JoiningTimeout | ScanEnd (num : Z) (buf : list app_lib_joining_received_beacon_t) | RouteChange
| Other (f : W -> W).

Definition event_ok (e : event) : Prop :=
  match e with
  | Init conf => match beacon_joining_cb conf with Some f => quiet_choice registered f | None => True end
  | Other f => quiet f
  | _ => True
  end.

Definition discard {A} (m : sf state A) : sf state unit := _ ← m; mret tt.

Definition do_event (e : event) : sf state unit :=
  match e with
  | Init conf => discard (Provisioning_init E conf)
  | Start => discard (Provisioning_start E)
  | Stop => discard (Provisioning_stop E)
  | Run => discard (run_state_machine C E)
  | Timeout => discard (timeout_task E)
  | Packet bytes =>
      r ← get (fun p => registered (outer p));
      if (r : bool) then discard (pkt_received_cb E bytes) else mret tt
  | AckSent => packet_sent_cb E
  | JoiningRun => discard (Joining.run_state_machine (J E))
  | JoiningTimeout => discard (Joining.timeout_task (J E))
  | ScanEnd num buf => _ ← puts (Joining.set_buffer buf); joining_beacon_rx_cb (J E) num
  | RouteChange => route_changed_cb (J E)
  | Other f => do_outer f
  end.

Fixpoint do_events (es : list event) : sf state unit :=
  match es with [] => mret tt | e :: es => _ ← do_event e; do_events es end.

Lemma discard_keeps {A} (m : sf state A) P : sf_keeps P m -> sf_keeps P (discard m).
Proof. intros H. apply sf_keeps_bind; [exact H|intros; apply sf_keeps_ret]. Qed.

Lemma event_accepting e : event_ok e -> sf_keeps (on accepting) (do_event e).
Proof.
  assert (HK : Kept accepting) by apply Kept_accepting. intros He. destruct e; cbn [do_event]; try apply discard_keeps.
  - intros s x s' H. by eapply init_accepting.
  - apply start_accepting.
  - apply stop_accepting.
  - intros s x s'. apply run_accepting.
  - by apply K_timeout_task.
  - intros s x s' H. unfold get in H. rewrite asksE in H. destruct (registered (outer (world s))) eqn:Hr; [|by injection H as _ <-].
    unfold discard, mbind, sf_bind in H. destruct (pkt_received_cb E bytes s) as [[r s1]|] eqn:Hp; [|done].
    injection H as _ <-. by eapply pkt_received_accepting.
  - by apply K_packet_sent.
  - apply K_joining_run, (J_keeps _ HK).
  - apply K_joining_timeout, (J_keeps _ HK).
  - apply K_scan_end, (J_keeps _ HK).
  - apply K_route_changed, (J_keeps _ HK).
  - by apply (K_do_outer registered _ HK).
Qed.

Lemma events_accepting es : Forall event_ok es -> sf_keeps (on accepting) (do_events es).
Proof.
  induction 1 as [|e es He _ IH]; cbn [do_events]; [apply sf_keeps_ret|].
  apply sf_keeps_bind; [by apply event_accepting|intros _; exact IH].
Qed.


End Operations.

(** C6: a new node applies only parameters that were meant for it.  Whatever
    calls, callbacks, tasks and packets come in whatever order from a library
    that is not in a session on, once a packet is accepted and until it is
    decoded, the buffer holds a DATA packet of the current session; with a
    secured method it is one whose message code is right under the factory key,
    else the key index is 0; and, but for the extended UID method, decoding
    it after the acknowledgement cannot fail any more. *)
Theorem provisioning_authentic {V W} (C : cbor V) (E : env W) registered es s s' :
  Quiet E registered -> steady registered (world s) -> m_state (world s) <> PROV_STATE_WAIT_ACK_SENT ->
  Forall (event_ok registered) es -> do_events C E registered es s = Some (tt, s') ->
  m_state (world s') = PROV_STATE_WAIT_ACK_SENT ->
  authentic (world s') /\
  (method (m_conf (world s')) <> PROV_METHOD_EXTENDED_UID ->
    forall r t, data_decode C E (final_conf (world s')) false s' = Some (r, t) -> r = PROV_RET_OK).
Proof.
  intros Q Hs Hst Hes H Hack.
  assert (Ha : accepting C E registered (world s')).
  { eapply (events_accepting C E registered es Hes); [exact H|]. by apply away_accepting. }
  destruct Ha as [_ Ha]. destruct (Ha Hack) as (_ & H1 & H2). split; [exact H1|].
  intros Hm r t. unfold data_decode.
  destruct (Provisioning_Data_decode _ _ _ _ _ _) as [[r' d]|] eqn:Hd; [|done]. intros [= <- _].
  by eapply (H2 Hm).
Qed.

(** ** A session *)

(** A node in a network with one proxy, and the DATA packet for it. *)
Module ProvisioningExample.

Inductive seen := Sent (packet : list Z) | Data (t : DataExample.told).

(** Whether packets are received, and what the rest of the node is told. *)
Definition demo_world : Type := bool * list seen.

Definition also (x : seen) (w : demo_world) : demo_world := (w.1, w.2 ++ [x]).
Definition tell (t : DataExample.told) : demo_world -> demo_world := also (Data t).

Definition demo_data_env : ProvData.env demo_world :=
  {| isValidNetworkAddress := isValidNetworkAddress DataExample.demo_env;
     isValidNetworkChannel := isValidNetworkChannel DataExample.demo_env;
     isValidNodeAddress := isValidNodeAddress DataExample.demo_env;
     isValidNodeRole := isValidNodeRole DataExample.demo_env;
     setAuthenticationKey k := tell (DataExample.Set_ 1 k);
     setEncryptionKey k := tell (DataExample.Set_ 0 k);
     setNetworkAddress a := tell (DataExample.Set_ 2 [a]);
     setNetworkChannel c := tell (DataExample.Set_ 3 [c]);
     setNodeAddress a := tell (DataExample.Set_ 4 [a]);
     setNodeRole r := tell (DataExample.Set_ 5 [r]);
     setShutdownCb b := tell (DataExample.Shutdown b);
     stopStack := tell DataExample.Stopped;
     undefined_shift _ := 0 |}.

Definition demo_env : env demo_world :=
  {| addTask _ _ w := (APP_SCHEDULER_RES_OK, w); cancelTask _ w := w; addEventCb w := w; removeEventCb w := w;
     startJoiningBeaconRx w := (APP_RES_OK, w); stopJoiningBeaconRx w := w;
     startJoiningProcess _ _ w := (APP_RES_OK, w); stopJoiningProcess w := w;
     getNetworkAddress _ := (APP_RES_OK, 1); getNetworkChannel _ := (APP_RES_OK, 1);
     getRouteState _ := APP_LIB_STATE_ROUTE_STATE_VALID; getNextHop _ := 0x2000; getNodeAddress _ := 0x1000;
     sendData d _ w := (APP_LIB_DATA_SEND_RES_SUCCESS, also (Sent (to_bytes d)) w);
     addDataReceivedCb w := (true, w.2); removeDataReceivedCb w := (false, w.2);
     random_init w := w; random_get8 w := (77, w);
     data_env := demo_data_env; parse_fuel := 9; depth := 3 |}.

Definition registered (w : demo_world) : bool := w.1.

#[export] Instance demo_node_quiet : Quiet demo_env registered.
Proof. split; intros; try (intros w Hw; exact Hw). reflexivity. Qed.

Definition demo_key : list Z := Z.of_nat <$> seq 100 32.

Definition demo_conf (m : Z) : provisioning_conf_t demo_world :=
  {| method := m; nb_retry := 2; timeout_s := 10; uid := Some [1; 2; 3]; uid_len := 3; key := demo_key; key_len := 32;
     end_cb := Some (fun _ w => (true, tell DataExample.Ended w));
     user_data_cb := Some (fun id _ bs _ w => tell (DataExample.User id bs) w);
     beacon_joining_cb := Some (fun b _ w => (b, w)) |}.

Definition demo_state : Joining.state (prov demo_world) :=
  {| Joining.m_events := Joining.no_events; Joining.m_retry := 0; Joining.m_state := JOIN_STATE_UNINIT;
     Joining.nb_retry := 0; m_beacon_rx_buffer := []; m_num_beacons := 0;
     world := {| m_events := no_events; m_retry := 0; m_timeout_ms := 0; m_session_id := 0;
       m_state := PROV_STATE_UNINIT; m_conf := demo_conf PROV_METHOD_UNSECURED; m_iv := repeat 0 16;
       m_data_buffer := repeat 0 PROV_PDU_SIZE; m_data_length := 0; m_joining_res := PROV_RES_SUCCESS;
       m_joining_cb := fun b _ w => (b, w); p_data := m_provisioning_data DataExample.demo_state; outer := (false, []) |} |}.

(** The parameters of [DataExample], sealed for session 78. *)
Definition demo_head : list Z := data_head 0x1000 78 1 5.
Definition demo_packet : list Z := demo_head ++ sealed demo_key (repeat 77 16) 5 demo_head DataExample.demo_bytes.

Definition beacon : app_lib_joining_received_beacon_t :=
  {| next := None; beacon_type := JOINING_BEACON_TYPE; payload := []; addr := 10; channel := 1; rssi := 0 |}.

(** Join a network, send START. *)
Definition to_wait_data : list (event (W := demo_world)) :=
  [Init (demo_conf PROV_METHOD_SECURED); Start; Run; JoiningRun; JoiningRun; ScanEnd 1 [beacon]; JoiningRun; JoiningRun;
   Run; Run].

Definition run (es : list (event (W := demo_world))) := do_events MiniCbor.parser demo_env registered es demo_state.

Lemma runE es : run es = do_events MiniCbor.parser demo_env registered es demo_state.
Proof. reflexivity. Qed.

(** The whole session: the START packet and the acknowledgement are sent, and
    the parameters are set to be applied. *)
Example whole_session :
  (fun r => (m_state (world r.2), (outer (world r.2)).2)) <$> run (to_wait_data ++ [Packet demo_packet; Run; AckSent; Run]) =
  Some (PROV_STATE_IDLE,
    [Sent (pdu_prov_hdr PROV_PACKET_TYPE_START 0x1000 78 ++ [PROV_METHOD_SECURED] ++ repeat 77 16 ++ [1; 2; 3]);
     Sent (pdu_prov_hdr PROV_PACKET_TYPE_DATA_ACK 0x1000 78);
     Data (DataExample.User 200 [1; 2]); Data DataExample.Ended; Data (DataExample.Shutdown true);
     Data DataExample.Stopped; Data (DataExample.Shutdown false)]).
Proof. vm_compute. reflexivity. Qed.

End ProvisioningExample.

Lemma provisioning_authentic_witness :
  exists s', ProvisioningExample.run (ProvisioningExample.to_wait_data ++ [Packet ProvisioningExample.demo_packet; Run]) = Some (tt, s') /\
    m_state (world s') = PROV_STATE_WAIT_ACK_SENT /\ authentic (world s').
Proof.
  set (es := ProvisioningExample.to_wait_data ++ [Packet ProvisioningExample.demo_packet; Run]).
  assert (Hm : (fun r => m_state (world r.2)) <$> ProvisioningExample.run es = Some PROV_STATE_WAIT_ACK_SENT)
    by (vm_compute; reflexivity).
  destruct (ProvisioningExample.run es) as [[[] s']|] eqn:He; [|discriminate Hm]. cbn in Hm. injection Hm as Hm.
  exists s'. split; [reflexivity|]. split; [exact Hm|].
  apply (provisioning_authentic MiniCbor.parser ProvisioningExample.demo_env ProvisioningExample.registered es
    ProvisioningExample.demo_state s' ProvisioningExample.demo_node_quiet).
  - split; [intros b buf w Hw; exact Hw|reflexivity|cbn; lia].
  - discriminate.
  - repeat (apply Forall_cons; split; [exact I || (intros b buf w Hw; exact Hw)|]). apply Forall_nil_2.
  - rewrite <- ProvisioningExample.runE. exact He.
  - exact Hm.
Defined.

(** ** What goes wrong *)

(** A DATA packet of session 78 that is too short: the length of its data wraps
    around, and the decryption runs over the end of the buffer. *)
Lemma short_packet_faults :
  ProvisioningExample.run (ProvisioningExample.to_wait_data ++
    [Packet (pdu_prov_hdr PROV_PACKET_TYPE_DATA 0x1000 78 ++ [1; 0; 0])]) <> None /\
  ProvisioningExample.run (ProvisioningExample.to_wait_data ++
    [Packet (pdu_prov_hdr PROV_PACKET_TYPE_DATA 0x1000 78 ++ [1; 0; 0]); Run]) = None.
Proof. split; [vm_compute; discriminate|vm_compute; reflexivity]. Qed.

(** When the acknowledgement cannot be sent, the state machine is run once
    more, without an event: it stays where it is, and no timeout was started
    since that of the START packet (the log has the packet and its timeout). *)
Definition no_ack : env ProvisioningExample.demo_world :=
  let E := ProvisioningExample.demo_env in
  {| addTask := fun t _ w => (APP_SCHEDULER_RES_OK, match t with timeout_task_ => ProvisioningExample.also (ProvisioningExample.Sent []) w | _ => w end);
     cancelTask := cancelTask E; addEventCb := addEventCb E; removeEventCb := removeEventCb E;
     startJoiningBeaconRx := startJoiningBeaconRx E; stopJoiningBeaconRx := stopJoiningBeaconRx E;
     startJoiningProcess := startJoiningProcess E; stopJoiningProcess := stopJoiningProcess E;
     getNetworkAddress := getNetworkAddress E; getNetworkChannel := getNetworkChannel E;
     getRouteState := getRouteState E; getNextHop := getNextHop E; getNodeAddress := getNodeAddress E;
     sendData := fun d (tracked : bool) w => if tracked then (APP_LIB_DATA_SEND_RES_OUT_OF_TRACKING_IDS, w) else sendData E d tracked w;
     addDataReceivedCb := addDataReceivedCb E; removeDataReceivedCb := removeDataReceivedCb E;
     random_init := random_init E; random_get8 := random_get8 E; data_env := data_env E; parse_fuel := 9; depth := 3 |}.

Lemma ack_refused_is_stuck :
  let run es := do_events MiniCbor.parser no_ack ProvisioningExample.registered es ProvisioningExample.demo_state in
  let es := ProvisioningExample.to_wait_data ++ [Packet ProvisioningExample.demo_packet; Run] in
  (fun r => (m_state (world r.2), m_events (world r.2), length (outer (world r.2)).2)) <$> run es =
    Some (PROV_STATE_WAIT_ACK_SENT, no_events, 2%nat) /\
  (fun r => (m_state (world r.2), m_events (world r.2), length (outer (world r.2)).2)) <$> run (es ++ [Run]) =
    Some (PROV_STATE_WAIT_ACK_SENT, no_events, 2%nat).
Proof. vm_compute. split; reflexivity. Qed.

(** Without room in the scheduler the end of joining and the reset call each
    other without end: whatever the depth, it is used up. *)
Lemma reset_never_ends (E : env ProvisioningExample.demo_world) n r s :
  (forall t d w, (addTask E t d w).1 <> APP_SCHEDULER_RES_OK) -> end_joining_n E n r s = None.
Proof.
  intros Hf. revert r s. induction n as [|n IH]; intros r s; [done|]. cbn [end_joining_n].
  unfold put, in_outer. rewrite !putsE. unfold mbind at 1, sf_bind, in_world, lift. cbn.
  specialize (Hf run_state_machine_task APP_SCHEDULER_SCHEDULE_ASAP (outer (world s))).
  destruct (addTask E _ _ _) as [x w]. cbn in Hf. rewrite (proj2 (Z.eqb_neq _ _)) by done. cbn [negb].
  unfold reset_with, do_outer, put. unfold mbind, sf_bind, puts. cbn.
  unfold Provisioning_Joining_stop, Joining.fail_with, reset_joining, Joining.do_world, puts, mbind, sf_bind. cbn.
  by rewrite IH.
Qed.

(** The configuration does not bound the identifier, which is copied into the
    79 bytes that the START packet has for it. *)
Lemma long_uid_faults :
  let conf := {| method := PROV_METHOD_UNSECURED; nb_retry := 2; timeout_s := 10; uid := Some (repeat 1 80); uid_len := 80;
    key := []; key_len := 0; end_cb := None; user_data_cb := None; beacon_joining_cb := Some (fun b _ w => (b, w)) |} in
  bad_conf conf = false /\
  start_packet ProvisioningExample.demo_env (set_conf conf (world ProvisioningExample.demo_state)) = None.
Proof. vm_compute. split; reflexivity. Qed.
