(* ===== verification/ProvExchange.v ===== *)
(** * A node and a proxy

    The two ends of local provisioning together: the START packet of
    [Provisioning], the answer of [Proxy], and what the node makes of it. *)

From S2P Require Import Prelude Api Aes Aessw ProvPdu ProvData Proxy Joining Provisioning.

#[local] Opaque AES_ECB_encrypt AES_init_ctx le_put cmac aes_crypto128Ctr aes_omac1 aes_initOmac1 add_counter.

(** ** The sealed packet is opened *)

Lemma field_of_app off n l1 l2 l3 : length l1 = off -> length l2 = n -> field off n (l1 ++ l2 ++ l3) = le_get l2.
Proof. intros <- <-. unfold field, slice. by rewrite drop_app_length, take_app_length. Qed.

Lemma field_le_put off n v l1 l3 : length l1 = off -> field off n (l1 ++ le_put n v ++ l3) = uwrap (8 * Z.of_nat n) v.
Proof. intros H. rewrite field_of_app by (done || apply length_le_put). apply le_get_put. Qed.

Section Head.
Context (a i ki c : Z) (rest : list Z).

Lemma drop_head : drop PROV_DATA_OFFSET (data_head a i ki c ++ rest) = rest.
Proof. rewrite <- (length_data_head a i ki c). apply drop_app_length. Qed.

Lemma head_type : field 0 1 (data_head a i ki c ++ rest) = PROV_PACKET_TYPE_DATA.
Proof. reflexivity. Qed.

Lemma head_session : field 5 1 (data_head a i ki c ++ rest) = u8 i.
Proof.
  unfold data_head, pdu_prov_hdr. rewrite <- !app_assoc.
  change (u8 PROV_PACKET_TYPE_DATA :: le_put 4 a ++ [u8 i]) with ((u8 PROV_PACKET_TYPE_DATA :: le_put 4 a) ++ [u8 i]).
  rewrite <- !app_assoc, field_of_app; [cbn; lia|cbn [length]; by rewrite length_le_put|done].
Qed.

Lemma head_key_index : field 6 1 (data_head a i ki c ++ rest) = u8 ki.
Proof.
  unfold data_head. rewrite <- !app_assoc.
  change (u8 ki :: le_put 2 c) with ([u8 ki] ++ le_put 2 c). rewrite <- !app_assoc, field_of_app; [cbn; lia| |done].
  apply length_pdu_prov_hdr.
Qed.

Lemma head_counter : field 7 2 (data_head a i ki c ++ rest) = u16 c.
Proof.
  unfold data_head. change (u8 ki :: le_put 2 c) with ([u8 ki] ++ le_put 2 c).
  rewrite app_assoc, <- app_assoc. apply (field_le_put 7 2).
  rewrite length_app, length_pdu_prov_hdr. done.
Qed.
End Head.

Lemma open_sealed k iv a i c map tail : factory_key k -> block iv -> is_u16 c -> bytes map -> (length map <= 88)%nat ->
  let head := data_head a i 1 c in
  (length map + length tail = 88)%nat ->
  open_packet k iv (head ++ sealed k iv c head map ++ tail) (Z.of_nat (PROV_DATA_OFFSET + (length map + PROV_MIC_SIZE)))
    (Z.of_nat (length map)) = Some (head ++ map ++ the_mic k head map ++ tail, true).
Proof.
  intros Hk Hi Hc Hm Hn head Ht. assert (Hc32 : is_u32 c) by (unfold fits in *; lia).
  assert (Hh : length head = PROV_DATA_OFFSET) by apply length_data_head.
  assert (Hne : head <> []) by (intros E; by rewrite E in Hh).
  pose proof (data_head_bytes a i 1 c : bytes head) as Hhb.
  destruct (sealed_spec k iv c head map Hk Hi Hc32 Hhb Hm Hne) as [Hls Hopen].
  pose proof (length_the_mic k head map Hk Hhb Hm Hne) as Hlm.
  set (text := sealed k iv c head map) in *. set (mic := the_mic k head map) in *. set (n := length map) in *.
  assert (Hctr : field 7 2 (head ++ text ++ tail) = c) by (unfold head; rewrite head_counter; by apply uwrap_small).
  unfold open_packet. rewrite Hctr.
  assert (Hlen : length (head ++ text ++ tail) = 102%nat).
  { rewrite !length_app, Hh, Hls. unfold PROV_DATA_OFFSET, PROV_MIC_SIZE. lia. }
  assert (Hz : Z.to_nat (Z.of_nat n + Z.of_nat PROV_MIC_SIZE) = (n + PROV_MIC_SIZE)%nat) by lia.
  assert (Hfit : (length k <? 32)%nat || (102 <? PROV_DATA_OFFSET + (n + PROV_MIC_SIZE))%nat = false).
  { rewrite (proj1 Hk). apply Nat.ltb_ge. unfold PROV_DATA_OFFSET, PROV_MIC_SIZE. lia. }
  rewrite Hz, Hlen, Hfit.
  fold (the_stream k iv c).
  assert (Hs : slice PROV_DATA_OFFSET (n + PROV_MIC_SIZE) (head ++ text ++ tail) = text).
  { unfold slice. rewrite <- Hh, drop_app_length, <- Hls. apply take_app_length. }
  rewrite Hs. destruct (aes_crypto128Ctr _ _) as [plain st]. cbn [fst] in Hopen. subst plain.
  assert (Hb : blit PROV_DATA_OFFSET (map ++ mic) (head ++ text ++ tail) = head ++ (map ++ mic) ++ tail).
  { rewrite <- Hh. apply blit_at. rewrite length_app. lia. }
  rewrite Hb, <- app_assoc.
  rewrite (proj2 (Z.ltb_ge _ _)) by (unfold PROV_DATA_OFFSET, PROV_MIC_SIZE in *; lia).
  assert (Hp : take (Z.to_nat (Z.of_nat (PROV_DATA_OFFSET + (n + PROV_MIC_SIZE))) - PROV_MIC_SIZE) (head ++ map ++ mic ++ tail) = head ++ map).
  { replace (Z.to_nat _ - PROV_MIC_SIZE)%nat with (length (head ++ map)) by (rewrite length_app; lia).
    rewrite app_assoc. apply take_app_length. }
  rewrite Hp.
  pose proof (omac1_spec (take 16 k) omac0 PROV_MIC_SIZE (head ++ map) (auth_key_block k Hk)
    ltac:(intros E; by apply app_nil in E as [E _])) as Hmic.
  destruct (aes_omac1 _ _ _) as [mic' st']. cbn [fst] in Hmic. fold (the_mic k head map) in Hmic. subst mic'. fold mic.
  assert (Hq : slice (PROV_DATA_OFFSET + Z.to_nat (Z.of_nat n)) PROV_MIC_SIZE (head ++ map ++ mic ++ tail) = mic).
  { rewrite Nat2Z.id, <- Hh. unfold n. rewrite <- length_app, app_assoc. unfold slice.
    rewrite drop_app_length, <- Hlm. apply take_app_length. }
  rewrite Hq. by rewrite bool_decide_eq_true_2.
Qed.

(** ** The node *)

Section Node.
Context {V W : Type} (P : cbor V) at_key at_value `{CM : !CborMap P at_key at_value} (E : env W).
Implicit Types (n : Joining.state (prov W)).

(** The verdict on the data of a packet, and what is kept of them. *)
Definition verdict (doc : document) : provisioning_res_e :=
  if accepted (data_env E) doc then PROV_RES_SUCCESS else PROV_RES_INVALID_DATA.

Lemma node_decodes n (m : list Z) rest doc k :
  drop PROV_DATA_OFFSET (m_data_buffer (world n)) = m ++ rest -> (0 < length m)%nat -> encodes P at_key m doc ->
  sized (p_data (world n)) -> (length doc < parse_fuel E)%nat -> k = Z.of_nat (length m) ->
  exists n', (ret ← data_decode P E {| conf_end_cb := None; conf_user_data_cb := None;
        conf_buffer := Some (drop PROV_DATA_OFFSET (m_data_buffer (world n))); conf_length := k |} true;
      mret (if decide (ret <> PROV_RET_OK) then PROV_RES_INVALID_DATA else PROV_RES_SUCCESS)) n = Some (verdict doc, n') /\
    (accepted (data_env E) doc = true -> holds (p_data (world n)) doc (p_data (world n'))).
Proof.
  intros Hb Hm Hd Hs Hf ->.
  destruct (decode_document P (data_env E) at_key at_value
    {| conf_end_cb := None; conf_user_data_cb := None;
       conf_buffer := Some (drop PROV_DATA_OFFSET (m_data_buffer (world n))); conf_length := Z.of_nat (length m) |}
    doc (m ++ rest) true {| m_provisioning_data := p_data (world n); ProvData.world := outer (world n) |} (parse_fuel E))
    as (t & Ht & _ & Hh & _).
  - cbn [conf_buffer]. by rewrite Hb.
  - cbn [conf_length]. rewrite length_app. lia.
  - cbn [conf_length]. by rewrite Nat2Z.id, take_app_length.
  - done.
  - done.
  - eexists. split.
    + unfold mbind, sf_bind, data_decode. rewrite Ht. unfold verdict.
      destruct (accepted (data_env E) doc); reflexivity.
    + done.
Qed.

(** The answer of the proxy in the node's buffer, which may hold more. *)
Lemma node_processes n (secure : bool) (a i c : Z) (m tail : list Z) :
  let p := world n in
  let bs := data_head a i (if secure then 1 else 0) c ++
    (if secure then sealed (key (m_conf p)) (m_iv p) c (data_head a i 1 c) m else m) in
  method (m_conf p) = (if secure then PROV_METHOD_SECURED else PROV_METHOD_UNSECURED) ->
  (secure = true -> factory_key (key (m_conf p)) /\ block (m_iv p)) -> is_u16 c -> bytes m ->
  (0 < length m <= 88)%nat -> m_data_buffer p = bs ++ tail -> length (m_data_buffer p) = PROV_PDU_SIZE ->
  m_data_length p = Z.of_nat (length bs) -> sized (p_data p) ->
  forall doc, encodes P at_key m doc -> (length doc < parse_fuel E)%nat ->
  exists n', process_data_packet P E n = Some (verdict doc, n') /\
    (accepted (data_env E) doc = true -> holds (p_data p) doc (p_data (world n'))).
Proof.
  intros p bs Hm Hk Hc Hb Hl Hbuf Hlen Hn Hs doc Hd Hf. unfold process_data_packet, get. rewrite !asksE.
  fold p. rewrite Hm, Hbuf.
  assert (Hh : forall ki : Z, length (data_head a i ki c) = PROV_DATA_OFFSET) by (intros; apply length_data_head).
  destruct secure; cbn [Z.eqb PROV_METHOD_SECURED PROV_METHOD_UNSECURED].
  - destruct (Hk eq_refl) as [Hk1 Hk2]. assert (Hsec : secured (m_conf p) = true) by (unfold secured; by rewrite Hm).
    set (head := data_head a i 1 c) in *.
    pose proof (data_head_bytes a i 1 c : bytes head) as Hhb.
    assert (Hne : head <> []) by (intros E0; specialize (Hh 1); fold head in Hh; by rewrite E0 in Hh).
    assert (Hls : length (sealed (key (m_conf p)) (m_iv p) c head m) = (length m + PROV_MIC_SIZE)%nat).
    { apply sealed_spec; try done. unfold fits in *. lia. }
    assert (Hlb : length bs = (PROV_DATA_OFFSET + (length m + PROV_MIC_SIZE))%nat).
    { unfold bs. rewrite length_app, Hls. by unfold head; rewrite Hh. }
    assert (Ho : open_packet (key (m_conf p)) (m_iv p) (bs ++ tail) (m_data_length p) (Z.of_nat (length m)) =
      Some (head ++ m ++ the_mic (key (m_conf p)) head m ++ tail, true)).
    { rewrite Hn, Hlb. unfold bs. rewrite <- app_assoc. apply open_sealed; try done; [lia|].
      rewrite Hbuf, length_app, Hlb in Hlen. unfold PROV_PDU_SIZE, PROV_DATA_OFFSET, PROV_MIC_SIZE in Hlen. lia. }
    assert (Hn' : u8 (u8 (m_data_length p - Z.of_nat PROV_DATA_OFFSET) - Z.of_nat PROV_MIC_SIZE) = Z.of_nat (length m)).
    { rewrite Hn, Hlb. unfold PROV_DATA_OFFSET, PROV_MIC_SIZE.
      rewrite (uwrap_small 8 (Z.of_nat _ - Z.of_nat 9)) by (unfold fits; lia). rewrite uwrap_small; unfold fits; lia. }
    assert (Hki : field 6 1 (bs ++ tail) = 1) by (unfold bs, head; by rewrite <- app_assoc, head_key_index).
    rewrite Hsec, Hki, Hn', Z.eqb_refl, sf_assoc. erewrite readsE by exact Ho.
    rewrite sf_assoc. unfold put. rewrite putsE, sf_retE. cbn [fst snd]. rewrite decide_True, asksE by done.
    set (n1 := set_world _ n).
    apply (node_decodes n1 m (the_mic (key (m_conf p)) head m ++ tail)); [|lia|done|done|done|done].
    apply drop_head.
  - assert (Hn' : u8 (m_data_length p - Z.of_nat PROV_DATA_OFFSET) = Z.of_nat (length m)).
    { rewrite Hn. unfold bs. rewrite length_app, Hh. rewrite uwrap_small; unfold PROV_DATA_OFFSET, fits; lia. }
    unfold bs at 1. rewrite <- app_assoc, head_key_index, sf_retE. cbn [fst snd]. rewrite decide_True by done.
    rewrite asksE. fold p. eapply node_decodes; try done; [|lia]. fold p. rewrite Hbuf. unfold bs.
    rewrite <- app_assoc. apply drop_head.
Qed.

Lemma node_schedule_ok t d n : (forall w, (addTask E t d w).1 = APP_SCHEDULER_RES_OK) ->
  exists w, schedule E t d n = Some (tt, set_world (set_outer w (world n)) n).
Proof.
  intros Ht. unfold schedule, in_outer, Joining.in_world, lift, mbind, sf_bind. specialize (Ht (outer (world n))).
  destruct (addTask E t d (outer (world n))) as [r w]. cbn in Ht. subst r. by exists w.
Qed.

(** It is received, and taken for the answer to the START packet. *)
Definition receive (bs : list Z) : sf (Joining.state (prov W)) provisioning_res_e :=
  _ ← Provisioning.pkt_received_cb E bs; received_packet P E.

Lemma node_receives n (secure : bool) (a i c : Z) (m : list Z) :
  let p := world n in
  let bs := data_head a i (if secure then 1 else 0) c ++
    (if secure then sealed (key (m_conf p)) (m_iv p) c (data_head a i 1 c) m else m) in
  method (m_conf p) = (if secure then PROV_METHOD_SECURED else PROV_METHOD_UNSECURED) ->
  (secure = true -> factory_key (key (m_conf p)) /\ block (m_iv p)) -> is_u16 c -> bytes m ->
  (0 < length m <= 88)%nat -> length (m_data_buffer p) = PROV_PDU_SIZE -> u8 i = m_session_id p ->
  sized (p_data p) -> (forall w, (addTask E run_state_machine_task APP_SCHEDULER_SCHEDULE_ASAP w).1 = APP_SCHEDULER_RES_OK) ->
  forall doc, encodes P at_key m doc -> (length doc < parse_fuel E)%nat ->
  exists n', receive bs n = Some (verdict doc, n') /\
    (accepted (data_env E) doc = true -> holds (p_data p) doc (p_data (world n'))).
Proof.
  intros p bs Hm Hk Hc Hb Hl Hbuf Hi Hs Ht doc Hd Hf.
  assert (Hlb : (length bs <= PROV_PDU_SIZE)%nat).
  { unfold bs. rewrite length_app, length_data_head. unfold PROV_PDU_SIZE, PROV_DATA_OFFSET.
    destruct secure; [|lia]. destruct (Hk eq_refl) as [Hk1 Hk2].
    destruct (sealed_spec (key (m_conf p)) (m_iv p) c (data_head a i 1 c) m) as [-> _]; try done.
    - unfold fits in *. lia.
    - apply data_head_bytes.
    - unfold PROV_MIC_SIZE. lia. }
  unfold receive, Provisioning.pkt_received_cb. rewrite (Nat.min_l _ _ Hlb), take_ge by done.
  rewrite sf_assoc. unfold put. rewrite putsE, sf_assoc, putsE, sf_assoc.
  set (n1 := set_world _ (set_world _ n)).
  destruct (node_schedule_ok run_state_machine_task APP_SCHEDULER_SCHEDULE_ASAP n1 Ht) as [w Hw].
  erewrite sf_bindE by exact Hw. rewrite sf_retE. set (n2 := set_world _ n1).
  assert (Hb2 : m_data_buffer (world n2) = bs ++ drop (length bs) (m_data_buffer p)).
  { change (blit 0 bs (m_data_buffer p) = bs ++ drop (length bs) (m_data_buffer p)).
    rewrite blit_app by (rewrite Hbuf; exact Hlb). reflexivity. }
  unfold received_packet, get. rewrite !asksE, Hb2. unfold bs at 1 2 3. rewrite <- !app_assoc, head_session, head_type, Hi.
  change (m_session_id (world n2)) with (m_session_id p). rewrite !Z.eqb_refl. cbn [negb].
  apply (node_processes n2 secure a i c m (drop (length bs) (m_data_buffer p))); try done.
  change (length (blit 0 bs (m_data_buffer p)) = PROV_PDU_SIZE). by rewrite length_blit.
Qed.

End Node.

(** ** Both *)

(** A node that has sent a START packet and waits for the answer. *)
Record waiting {W} (E : env W) (p : prov W) (pdu : list Z) : Prop := {
  wait_start : start_packet E p = Some pdu;
  wait_bytes : bytes pdu;
  wait_iv : block (m_iv p);
  wait_session : is_u8 (m_session_id p);
  wait_uid : 1 <= uid_len (m_conf p);
  wait_buffer : length (m_data_buffer p) = PROV_PDU_SIZE;
  wait_data : sized (p_data p);
  wait_task w : (addTask E run_state_machine_task APP_SCHEDULER_SCHEDULE_ASAP w).1 = APP_SCHEDULER_RES_OK }.

Lemma start_fields {W} (E : env W) p pdu : waiting E p pdu -> is_u8 (method (m_conf p)) ->
  field 5 1 pdu = m_session_id p /\ field 6 1 pdu = method (m_conf p) /\ slice 7 16 pdu = m_iv p /\
  (24 <= length pdu <= 150)%nat /\ pdu !! 0%nat = Some PROV_PACKET_TYPE_START.
Proof.
  intros [Hst Hb [Hil Hib] Hs Hu _ _ _] Hm. unfold start_packet in Hst.
  destruct (uid (m_conf p)) as [u|]; [|done].
  destruct (Nat.ltb_spec MAX_UID (Z.to_nat (uid_len (m_conf p)))) as [|Hn]; [done|].
  destruct (Nat.ltb_spec (length u) (Z.to_nat (uid_len (m_conf p)))) as [|Hn']; [done|]. cbn [orb] in Hst.
  apply (inj Some) in Hst. rewrite <- Hst. clear Hst Hb. set (rest := take _ u). unfold MAX_UID in Hn.
  assert (Hr : (1 <= length rest <= 79)%nat) by (unfold rest; rewrite length_take; lia).
  set (h := pdu_prov_hdr _ _ _). assert (Hh : length h = 6%nat) by apply length_pdu_prov_hdr.
  split_and!; [| | | | |reflexivity].
  - unfold h, pdu_prov_hdr. set (a := getNodeAddress E (outer p)).
    change (u8 PROV_PACKET_TYPE_START :: le_put 4 a ++ [u8 (m_session_id p)])
      with ((u8 PROV_PACKET_TYPE_START :: le_put 4 a) ++ [u8 (m_session_id p)]).
    rewrite <- app_assoc, field_of_app; [|cbn [length]; by rewrite length_le_put|done].
    cbn. rewrite (uwrap_small 8) by done. lia.
  - rewrite field_of_app by done. cbn. lia.
  - rewrite app_assoc. unfold slice.
    assert (Hd : drop 7 ((h ++ [method (m_conf p)]) ++ m_iv p ++ rest) = m_iv p ++ rest).
    { replace 7%nat with (length (h ++ [method (m_conf p)])) by (rewrite length_app, Hh; done). apply drop_app_length. }
    rewrite Hd, <- Hil. apply take_app_length.
  - rewrite !length_app, Hh, Hil. cbn [length]. lia.
  - rewrite !length_app, Hh, Hil. cbn [length]. lia.
Qed.

(** A node and a proxy with the same factory key, and the parameters [q]. *)
Lemma node_proxy_agree {T V Wn Wp} (C : cbor_encoder T) (P : cbor V) at_key at_value building
    (En : env Wn) (Ep : Proxy.env Wp) (n : Joining.state (prov Wn)) (s : Proxy.state Wp) data pdu q w map :
  CborWriter C P at_key building -> CborMap P at_key at_value -> (4 < parse_fuel En)%nat ->
  waiting En (world n) pdu -> proxy_ok Ep s -> rx_data data = pdu ->
  conf_key (Proxy.m_conf s) = key (m_conf (world n)) ->
  method_allowed (Proxy.m_conf s) (method (m_conf (world n))) = Some true ->
  ask_start_cb s pdu = (true, q, w) -> encode_cbor_map C q 88 = (CborNoError, map) ->
  exists s' bs n', Proxy.pkt_received_cb C Ep data s = Some (APP_LIB_DATA_RECEIVE_RES_HANDLED, s') /\
    Proxy.world s' = sent Ep (downlink bs (Z.of_nat (length bs)) (rx_src data)) w /\
    receive P En bs n = Some (if accepted (data_env En) (net_doc q) then PROV_RES_SUCCESS else PROV_RES_INVALID_DATA, n') /\
    (accepted (data_env En) (net_doc q) = true ->
      let d := p_data (world n') in
      enc_key d = net_enc_key q /\ auth_key d = net_auth_key q /\ net_addr d = net_net_addr q /\ net_chan d = net_net_chan q).
Proof.
  intros CW CM Hf Hw Hok Hd Hkey Hma Hask He. set (p := world n) in *.
  assert (Hm : method (m_conf p) = PROV_METHOD_UNSECURED \/ method (m_conf p) = PROV_METHOD_SECURED /\ is_local_sec_allowed (Proxy.m_conf s) = true).
  { unfold method_allowed in Hma. destruct (Z.eqb_spec (method (m_conf p)) PROV_METHOD_UNSECURED); [by left|].
    destruct (Z.eqb_spec (method (m_conf p)) PROV_METHOD_SECURED); [|done]. right. split; [done|]. by injection Hma. }
  assert (Hm8 : is_u8 (method (m_conf p))) by (destruct Hm as [->|[-> _]]; by split).
  destruct (start_fields En p pdu Hw Hm8) as (F1 & F2 & F3 & F4 & F5).
  pose proof (ok_params _ _ Hok pdu) as Hq. rewrite Hask in Hq. cbn [fst snd] in Hq.
  destruct (encode_cbor_map_spec C P at_key building q 88 map Hq He) as (Hn & Hbm & Henc).
  set (secure := method (m_conf p) =? PROV_METHOD_SECURED).
  assert (Hk : secure = true -> factory_key (key (m_conf p)) /\ block (m_iv p)).
  { intros Hs. split; [|apply Hw]. rewrite <- Hkey. apply Hok. apply Z.eqb_eq in Hs.
    destruct Hm as [E|[_ E]]; [by rewrite E in Hs|done]. }
  set (s1 := set_net_param q (Proxy.set_world w s)). set (c := if secure then u16 (m_counter s + 1) else 0).
  set (bs := reply (conf_key (Proxy.m_conf s)) pdu map secure c).
  assert (Hsend : exists s', send_data_packet C Ep data (field 6 1 pdu) s1 = Some (tt, s') /\
    Proxy.world s' = sent Ep (downlink bs (Z.of_nat (length bs)) (rx_src data)) w).
  { eexists. split.
    - rewrite F2. apply (send_data_packet_spec C Ep data (method (m_conf p)) s1 map); [apply Hok|exact He|lia|exact Hbm|].
      intros Hs. rewrite Hd, F3. change (Proxy.m_conf s1) with (Proxy.m_conf s). rewrite Hkey. by apply Hk.
    - rewrite Hd. change (Proxy.m_conf s1) with (Proxy.m_conf s). fold secure. change (m_counter s1) with (m_counter s).
      fold c. fold bs. by destruct secure. }
  destruct Hsend as (s' & Hs1 & Hs2).
  destruct (node_receives P at_key at_value En n secure (field 1 4 pdu) (field 5 1 pdu) c map) with (doc := net_doc q)
    as (n' & Hn1 & Hn2).
  - fold p. unfold secure. by destruct Hm as [->|[-> _]].
  - exact Hk.
  - unfold c. destruct secure; [apply u16_range|by split].
  - exact Hbm.
  - lia.
  - apply Hw.
  - fold p. rewrite F1. apply uwrap_small, Hw.
  - apply Hw.
  - apply Hw.
  - exact Henc.
  - cbn. lia.
  - exists s', bs, n'. split; [|split; [exact Hs2|split]].
    + rewrite (pkt_received_start C Ep data s pdu Hd F4 F5), F2, Hma, Hask. rewrite F2 in Hs1. cbn zeta. fold s1.
      by erewrite sf_bindE by exact Hs1.
    + unfold bs, reply. rewrite Hkey, F3. destruct secure; exact Hn1.
    + intros Ha. specialize (Hn2 Ha). destruct Hn2 as [[_ H1] [_ H2] H3 H4 _ _ _]. destruct Hq as (_ & _ & Hq1 & Hq2).
      split; [by apply H1|]. split; [by apply H2|]. cbn in H3, H4. rewrite H3, H4. split; by apply uwrap_small.
Qed.

(** C4: a node and a proxy with the same factory key agree.  When the proxy
    allows the method of the node and its application accepts the node with
    the network parameters [q], which fit in a packet, the proxy answers the
    START packet of the node with one packet.  The node takes that packet for
    a valid answer to its session, with the secured method through
    decryption under its own initialization vector and the check of the
    message code, and finds exactly [q] in it; it accepts them unless they are
    parameters that it accepts from nobody, such as a reserved address. *)
Theorem provisioning_exchange {T V Wn Wp} (C : cbor_encoder T) (P : cbor V) at_key at_value building
    (En : env Wn) (Ep : Proxy.env Wp) (n : Joining.state (prov Wn)) (s : Proxy.state Wp) data pdu q w map :
  CborWriter C P at_key building -> CborMap P at_key at_value -> (4 < parse_fuel En)%nat ->
  waiting En (world n) pdu -> proxy_ok Ep s -> rx_data data = pdu ->
  conf_key (Proxy.m_conf s) = key (m_conf (world n)) ->
  method_allowed (Proxy.m_conf s) (method (m_conf (world n))) = Some true ->
  ask_start_cb s pdu = (true, q, w) -> encode_cbor_map C q 88 = (CborNoError, map) ->
  exists s' bs n', Proxy.pkt_received_cb C Ep data s = Some (APP_LIB_DATA_RECEIVE_RES_HANDLED, s') /\
    Proxy.world s' = sent Ep (downlink bs (Z.of_nat (length bs)) (rx_src data)) w /\
    receive P En bs n = Some (if accepted (data_env En) (net_doc q) then PROV_RES_SUCCESS else PROV_RES_INVALID_DATA, n') /\
    (accepted (data_env En) (net_doc q) = true ->
      let d := p_data (world n') in
      enc_key d = net_enc_key q /\ auth_key d = net_auth_key q /\ net_addr d = net_net_addr q /\ net_chan d = net_net_chan q).
Proof.
  intros CW CM Hf Hw Hok Hd Hkey Hma Hask He.
  exact (node_proxy_agree C P at_key at_value building En Ep n s data pdu q w map CW CM Hf Hw Hok Hd Hkey Hma Hask He).
Qed.

Module ExchangeExample.
Import ProvisioningExample.

Definition node : Joining.state (prov demo_world) :=
  let p := world demo_state in
  {| Joining.m_events := Joining.no_events; Joining.m_retry := 0; Joining.m_state := JOIN_STATE_UNINIT;
     Joining.nb_retry := 0; m_beacon_rx_buffer := []; m_num_beacons := 0;
     world := set_conf (demo_conf PROV_METHOD_SECURED) (set_iv (repeat 255 16) (set_session_id 78 (set_state PROV_STATE_WAIT_DATA p))) |}.

Definition pdu : list Z :=
  pdu_prov_hdr PROV_PACKET_TYPE_START 0x1000 78 ++ [PROV_METHOD_SECURED] ++ repeat 255 16 ++ [1; 2; 3].

Definition data : received := {| rx_data := pdu; rx_src := 0x1000; image := repeat 0 8 |}.

Lemma node_waiting : waiting demo_env (world node) pdu.
Proof.
  split; try reflexivity; try (cbn; lia).
  - apply Forall_app. split; [apply pdu_prov_hdr_bytes|]. unfold PROV_METHOD_SECURED. cbn. byte_list.
  - split; [reflexivity|]. cbn. byte_list.
  - by split.
  - by split.
Qed.
End ExchangeExample.

Lemma provisioning_exchange_witness :
  exists s' bs n',
    Proxy.pkt_received_cb MiniWriter.encoder ProxyExample.demo_env ExchangeExample.data ProxyExample.demo_state =
      Some (APP_LIB_DATA_RECEIVE_RES_HANDLED, s') /\
    to_bytes <$> Proxy.world s' = [bs] /\
    receive MiniCbor.parser ProvisioningExample.demo_env bs ExchangeExample.node = Some (PROV_RES_SUCCESS, n') /\
    net_addr (p_data (world n')) = 0x123456 /\ enc_key (p_data (world n')) = repeat 7 16.
Proof.
  set (map := (encode_cbor_map MiniWriter.encoder ProxyExample.params 88).2).
  destruct (provisioning_exchange MiniWriter.encoder MiniCbor.parser MiniCbor.at_key MiniCbor.at_value MiniWriter.building
    ProvisioningExample.demo_env ProxyExample.demo_env ExchangeExample.node ProxyExample.demo_state ExchangeExample.data
    ExchangeExample.pdu ProxyExample.params [] map MiniWriter.encoder_ok MiniCbor.parser_ok)
    as (s' & bs & n' & H1 & H2 & H3 & H4).
  - cbn. lia.
  - apply ExchangeExample.node_waiting.
  - apply ProxyExample.demo_proxy_ok.
  - reflexivity.
  - reflexivity.
  - reflexivity.
  - reflexivity.
  - vm_compute. reflexivity.
  - assert (Ha : accepted (data_env ProvisioningExample.demo_env) (net_doc ProxyExample.params) = true) by (vm_compute; reflexivity).
    rewrite Ha in H3. destruct (H4 Ha) as (K1 & _ & K3 & _).
    exists s', bs, n'. split; [exact H1|]. split; [rewrite H2; reflexivity|]. split; [exact H3|]. split; [exact K3|exact K1].
Defined.
