(* ===== verification/LocalProvisioning.v ===== *)
(** * Local provisioning

    [libraries/local_provisioning/local_provisioning.c]: a node of the network
    becomes a provisioning proxy when the application configuration says so, and
    a node that is not provisioned starts a joining session, with a key that both
    have; and [configureNode] of [util/node_configuration.h].

    The library calls [Proxy] and [Provisioning]: its state holds that of the
    proxy, and is what a provisioning session calls its world.  The configuration
    of the proxy holds pointers to [m_psk]: [shared] says that it is that of this
    library, so that a change of [m_psk] changes it too.  The settings, the
    scheduler, the stack state, the application configuration and the callbacks of
    the application are functions of the environment. *)

From S2P Require Import Prelude Api Aes Aessw ProvPdu ProvData Joining Provisioning Proxy ProvExchange.

Abbreviation fn := positive.

(** ** Data *)

Definition PROVISIONING_TLV_TYPE : Z := 0xC4.
Definition APP_LIB_STATE_STACK_EVENT_STACK_STOPPED : Z := 0.
Definition APP_LIB_STATE_STACK_EVENT_STACK_STARTED : Z := 1.
Definition DEFAULT_NET_ADDR : Z := 0xE68FA4.
Definition DEFAULT_NET_CHAN : Z := 18.

Inductive Local_provisioning_res_e :=
| LOCAL_PROVISIONING_RES_SUCCESS | LOCAL_PROVISIONING_RES_UNINTIALLIZED | LOCAL_PROVISIONING_RES_WRONG_STATE
| LOCAL_PROVISIONING_RES_INTERNAL_ERROR | LOCAL_PROVISIONING_RES_UNPROVISIONED
| LOCAL_PROVISIONING_RES_ALREADY_PROVISIONED.

Record local_provisioning_psk_t := { id : Z; psk : list Z }.

Definition default_psk_key : local_provisioning_psk_t :=
  {| id := 0x35f5eb3c;
     psk := [0xcc; 0x25; 0x37; 0xd1; 0x7c; 0x6c; 0x12; 0x80; 0x16; 0xbd; 0x8a; 0xf5; 0xe9; 0xdd; 0x97; 0x28;
             0x98; 0x47; 0xd7; 0x83; 0xa5; 0xf7; 0xde; 0xec; 0xc7; 0x0a; 0x0c; 0x31; 0xe9; 0x56; 0x42; 0xa3] |}.

(** [local_provisioning_app_config_t] *)
Definition LP_APP_CONFIG_DISABLED : Z := 0.
Definition LP_APP_CONFIG_ENABLED : Z := 1.
Definition LP_APP_CONFIG_ENABLED_WITH_KEY : Z := 2.

(** The tasks of the library. *)
Inductive lp_task := add_filter_for_proxy_task | provisioning_start_task_.

(** ** The choice of a beacon *)

(** [beacons] is a pointer into the buffer of the stack, [best] what is the strongest so far. *)
Fixpoint selection_loop (key_id : Z) (fuel : nat) (beacons best : option nat) (strongest_rssi : Z)
    (buf : list app_lib_joining_received_beacon_t) : option nat :=
  match fuel, beacons with
  | S fuel, Some b =>
      match buf !! b with
      | Some c =>
          if (length (payload c) =? 4)%nat && (key_id =? le_get (payload c)) && (strongest_rssi <? rssi c)
          then selection_loop key_id fuel (next c) (Some b) (rssi c) buf
          else selection_loop key_id fuel (next c) best strongest_rssi buf
      | None => best
      end
  | _, _ => best
  end.

Definition default_rssi_joining_beacon_selection (key_id : Z) (beacons : option nat)
    (buf : list app_lib_joining_received_beacon_t) : option nat :=
  selection_loop key_id (S (length buf)) beacons None (-32768) buf.

Section LocalProvisioning.
Context {W : Type}.

(** ** State *)

Record local := {
  m_filter_id : Z;
  m_reset_node : bool;
  m_psk : local_provisioning_psk_t;
  m_psk_init : local_provisioning_psk_t;
  m_on_provisioning_proxy_enabled_cb : option fn;
  m_user_cb_end : option fn;
  proxy : Proxy.state W;
  shared : bool }.

Record env := {
  proxy_env : Proxy.env W;
  provisioning_env : Provisioning.env local;
  on_proxy_enabled : fn -> bool -> local -> local;
  on_joining_done : fn -> bool -> local -> bool * local;
  on_beacons : fn -> option nat -> list app_lib_joining_received_beacon_t -> local -> option nat * local;
  (** with a buffer, its content afterwards; without one *)
  getEncryptionKey : list Z -> W -> Z * list Z;
  hasEncryptionKey : W -> Z;
  getAuthenticationKey : list Z -> W -> Z * list Z;
  hasAuthenticationKey : W -> Z;
  getNodeAddress : W -> Z * Z;
  getNetworkAddress : Z -> W -> Z * Z;
  getNetworkChannel : Z -> W -> Z * Z;
  setEncryptionKey : list Z -> W -> Z * W;
  setAuthenticationKey : list Z -> W -> Z * W;
  setNodeAddress : Z -> W -> Z * W;
  setNetworkAddress : Z -> W -> Z * W;
  setNetworkChannel : Z -> W -> Z * W;
  resetAll : W -> W;
  getUniqueId : W -> Z;
  Stack_State_startStack : local -> Z * local;
  Stack_State_stopStack : local -> local;
  Stack_State_isStarted : W -> bool;
  Stack_State_addEventCb : Z -> W -> W;
  (** the type of the filter and [call_cb_always]; the identifier *)
  Shared_Appconfig_addFilter : Z -> bool -> local -> Z * local;
  addTask : lp_task -> Z -> W -> Z * W;
  (** what the memory of a local variable holds later *)
  dangling : local -> list Z }.

Definition lworld (l : local) : W := Proxy.world (proxy l).

Definition set_filter_id x l := {| m_filter_id := x; m_reset_node := m_reset_node l; m_psk := m_psk l;
  m_psk_init := m_psk_init l; m_on_provisioning_proxy_enabled_cb := m_on_provisioning_proxy_enabled_cb l;
  m_user_cb_end := m_user_cb_end l; proxy := proxy l; shared := shared l |}.
Definition set_reset_node x l := {| m_filter_id := m_filter_id l; m_reset_node := x; m_psk := m_psk l;
  m_psk_init := m_psk_init l; m_on_provisioning_proxy_enabled_cb := m_on_provisioning_proxy_enabled_cb l;
  m_user_cb_end := m_user_cb_end l; proxy := proxy l; shared := shared l |}.
Definition set_psk_init x l := {| m_filter_id := m_filter_id l; m_reset_node := m_reset_node l; m_psk := m_psk l;
  m_psk_init := x; m_on_provisioning_proxy_enabled_cb := m_on_provisioning_proxy_enabled_cb l;
  m_user_cb_end := m_user_cb_end l; proxy := proxy l; shared := shared l |}.
Definition set_enabled_cb x l := {| m_filter_id := m_filter_id l; m_reset_node := m_reset_node l; m_psk := m_psk l;
  m_psk_init := m_psk_init l; m_on_provisioning_proxy_enabled_cb := x;
  m_user_cb_end := m_user_cb_end l; proxy := proxy l; shared := shared l |}.
Definition set_user_cb_end x l := {| m_filter_id := m_filter_id l; m_reset_node := m_reset_node l; m_psk := m_psk l;
  m_psk_init := m_psk_init l; m_on_provisioning_proxy_enabled_cb := m_on_provisioning_proxy_enabled_cb l;
  m_user_cb_end := x; proxy := proxy l; shared := shared l |}.
Definition set_proxy x l := {| m_filter_id := m_filter_id l; m_reset_node := m_reset_node l; m_psk := m_psk l;
  m_psk_init := m_psk_init l; m_on_provisioning_proxy_enabled_cb := m_on_provisioning_proxy_enabled_cb l;
  m_user_cb_end := m_user_cb_end l; proxy := x; shared := shared l |}.
Definition set_shared x l := {| m_filter_id := m_filter_id l; m_reset_node := m_reset_node l; m_psk := m_psk l;
  m_psk_init := m_psk_init l; m_on_provisioning_proxy_enabled_cb := m_on_provisioning_proxy_enabled_cb l;
  m_user_cb_end := m_user_cb_end l; proxy := proxy l; shared := x |}.
Definition set_lworld w l := set_proxy (Proxy.set_world w (proxy l)) l.

(** What is read through the pointers to [m_psk] of a configuration. *)
Definition point_to (k : local_provisioning_psk_t) (c : Proxy.provisioning_proxy_conf_t W) : Proxy.provisioning_proxy_conf_t W :=
  {| conf_payload := Some (le_put 4 (id k)); conf_num_bytes := conf_num_bytes c; conf_tx_power := conf_tx_power c;
     is_local_unsec_allowed := is_local_unsec_allowed c; is_local_sec_allowed := is_local_sec_allowed c;
     conf_key := psk k; conf_key_len := conf_key_len c; conf_start_cb := conf_start_cb c |}.

Definition set_psk k l :=
  {| m_filter_id := m_filter_id l; m_reset_node := m_reset_node l; m_psk := k; m_psk_init := m_psk_init l;
     m_on_provisioning_proxy_enabled_cb := m_on_provisioning_proxy_enabled_cb l; m_user_cb_end := m_user_cb_end l;
     proxy := if shared l then Proxy.set_conf (point_to k (Proxy.m_conf (proxy l))) (proxy l) else proxy l;
     shared := shared l |}.

Abbreviation L := (sf local).

Definition on_proxy {A} (m : sf (Proxy.state W) A) : L A :=
  fun l => match m (proxy l) with Some (x, p) => Some (x, set_proxy p l) | None => None end.
Definition on_world {A} (f : W -> A * W) : L A := fun l => Some ((f (lworld l)).1, set_lworld (f (lworld l)).2 l).
Definition on_local {A} (f : local -> A * local) : L A := fun l => Some (f l).

(** ** The proxy *)

Definition start_cb (E : env) (uid : list Z) (uid_len method : Z) (param : provisioning_proxy_net_param_t) (w : W)
    : bool * provisioning_proxy_net_param_t * W :=
  let enc := getEncryptionKey E (net_enc_key param) w in
  let param := {| net_enc_key := enc.2; net_auth_key := net_auth_key param; net_net_addr := net_net_addr param;
                  net_net_chan := net_net_chan param |} in
  if negb (enc.1 =? APP_RES_OK) then (false, param, w)
  else
    let auth := getAuthenticationKey E (net_auth_key param) w in
    let param := {| net_enc_key := net_enc_key param; net_auth_key := auth.2; net_net_addr := net_net_addr param;
                    net_net_chan := net_net_chan param |} in
    if negb (auth.1 =? APP_RES_OK) then (false, param, w)
    else
      let addr := getNetworkAddress E (net_net_addr param) w in
      let param := {| net_enc_key := net_enc_key param; net_auth_key := net_auth_key param; net_net_addr := addr.2;
                      net_net_chan := net_net_chan param |} in
      if negb (addr.1 =? APP_RES_OK) then (false, param, w)
      else
        let chan := getNetworkChannel E (net_net_chan param) w in
        let param := {| net_enc_key := net_enc_key param; net_auth_key := net_auth_key param;
                        net_net_addr := net_net_addr param; net_net_chan := chan.2 |} in
        if negb (chan.1 =? APP_RES_OK) then (false, param, w) else (true, param, w).

Definition proxy_conf (E : env) (k : local_provisioning_psk_t) : Proxy.provisioning_proxy_conf_t W :=
  {| conf_payload := Some (le_put 4 (id k)); conf_num_bytes := 4; conf_tx_power := 8; is_local_unsec_allowed := false;
     is_local_sec_allowed := true; conf_key := psk k; conf_key_len := 32; conf_start_cb := Some (start_cb E) |}.

(** The configuration in a TLV record: whether the proxy is enabled, and the
    change of [m_psk]. *)
Definition parse_config (value_p : list Z) (l : local) : bool * local :=
  let length_ := length value_p in
  let type := nth 0 value_p 0 in
  if ((length_ =? 1)%nat && (type =? LP_APP_CONFIG_DISABLED)) then (false, l)
  else if ((length_ =? 1)%nat && (type =? LP_APP_CONFIG_ENABLED)) then (true, set_psk (m_psk_init l) l)
  else if ((length_ =? 37)%nat && (type =? LP_APP_CONFIG_ENABLED_WITH_KEY)) then
    (true, set_psk {| id := field 1 4 value_p; psk := slice 5 32 value_p |} l)
  else (false, l).

Definition appConfigTLVReceivedCb (E : env) (value_p : list Z) : L unit :=
  enabled ← on_local (parse_config value_p);
  _ ← (if enabled : bool then
         conf ← asks (fun l => proxy_conf E (m_psk l));
         _ ← on_proxy (Provisioning_Proxy_stop (proxy_env E));
         ret ← on_proxy (Provisioning_Proxy_init (proxy_env E) conf);
         _ ← (if decide (ret = PROV_RET_OK) then puts (set_shared true) else mret tt);
         on_proxy (Provisioning_Proxy_start (proxy_env E))
       else on_proxy (Provisioning_Proxy_stop (proxy_env E)));
  cb ← asks m_on_provisioning_proxy_enabled_cb;
  match cb with
  | Some f => puts (on_proxy_enabled E f enabled)
  | None => mret tt
  end.

Definition add_filter_for_proxy (E : env) : L Z :=
  filter_id ← on_local (Shared_Appconfig_addFilter E PROVISIONING_TLV_TYPE true);
  _ ← puts (set_filter_id filter_id);
  mret APP_SCHEDULER_STOP_TASK.

Definition Local_provisioning_is_provisioned (E : env) (w : W) : bool :=
  (hasEncryptionKey E w =? APP_RES_OK) && (hasAuthenticationKey E w =? APP_RES_OK) &&
  ((getNetworkAddress E 0 w).1 =? APP_RES_OK) && ((getNetworkChannel E 0 w).1 =? APP_RES_OK).

Definition enable_proxy (E : env) : L unit :=
  provisioned ← asks (fun l => Local_provisioning_is_provisioned E (lworld l));
  if negb provisioned then mret tt
  else _ ← on_world (addTask E add_filter_for_proxy_task APP_SCHEDULER_SCHEDULE_ASAP); mret tt.

Definition on_stack_state_event_cb (E : env) (event : Z) : L unit :=
  reset ← asks m_reset_node;
  if (event =? APP_LIB_STATE_STACK_EVENT_STACK_STOPPED) && reset then on_world (fun w => (tt, resetAll E w))
  else if event =? APP_LIB_STATE_STACK_EVENT_STACK_STARTED then enable_proxy E
  else mret tt.

Definition Local_provisioning_init (E : env) (key : option local_provisioning_psk_t) (on_proxy_enabled_cb : option fn)
    : L Local_provisioning_res_e :=
  let key := default default_psk_key key in
  _ ← puts (set_reset_node false);
  _ ← puts (set_enabled_cb on_proxy_enabled_cb);
  _ ← puts (set_psk_init key);
  _ ← puts (fun l => set_psk (m_psk_init l) l);
  _ ← on_world (fun w => (tt, Stack_State_addEventCb E
        (Z.lor (Z.shiftl 1 APP_LIB_STATE_STACK_EVENT_STACK_STARTED) (Z.shiftl 1 APP_LIB_STATE_STACK_EVENT_STACK_STOPPED)) w));
  mret LOCAL_PROVISIONING_RES_SUCCESS.

Definition Local_provisioning_reset_node (E : env) : L unit :=
  started ← asks (fun l => Stack_State_isStarted E (lworld l));
  if (started : bool) then
    _ ← puts (set_reset_node true);
    puts (Stack_State_stopStack E)
  else on_world (fun w => (tt, resetAll E w)).

(** ** A joining session *)

Definition joining_end_cb (E : env) (res : provisioning_res_e) (l : local) : bool * local :=
  let success := bool_decide (res = PROV_RES_SUCCESS) in
  let r := match m_user_cb_end l with Some f => on_joining_done E f success l | None => (true, l) end in
  if success then (true, r.2)
  else if (r.1 : bool) then (false, Stack_State_stopStack E r.2) else (false, r.2).

Definition getUniqueAddress (unique_id : Z) : Z :=
  let address := unique_id in
  let address :=
    if address =? 0 then 1
    else if Z.land address 0xFF000000 =? 0x80000000 then Z.land address 0x7ffffffd
    else address in
  Z.land address 0x7fffffff.

(** Set what is not set; the result and the world. *)
Definition set_missing (res : Z) (set : W -> Z * W) (w : W) : Z * W :=
  if negb (res =? APP_RES_OK) then set w else (APP_RES_OK, w).

Definition and_ok (r : Z * W) (k : W -> Z * W) : Z * W := if negb (r.1 =? APP_RES_OK) then r else k r.2.

Definition configureNode (E : env) (my_addr my_network_addr my_network_ch : Z) (auth enc : option (list Z)) (w : W) : Z * W :=
  and_ok
    (if negb ((getNodeAddress E w).1 =? APP_RES_OK) then
       and_ok (setNodeAddress E my_addr w) (fun w =>
       and_ok (match auth with
               | Some k => set_missing (hasAuthenticationKey E w) (setAuthenticationKey E k) w
               | None => (APP_RES_OK, w) end) (fun w =>
       match enc with
       | Some k => set_missing (hasEncryptionKey E w) (setEncryptionKey E k) w
       | None => (APP_RES_OK, w) end))
     else (APP_RES_OK, w))
  (fun w => and_ok (set_missing (getNetworkAddress E 0 w).1 (setNetworkAddress E my_network_addr) w)
  (fun w => set_missing (getNetworkChannel E 0 w).1 (setNetworkChannel E my_network_ch) w)).

(** The state of a session, with that of this library as its world. *)
Abbreviation session := (Joining.state (prov local)).
Abbreviation SM := (sf session).

Definition of_local {A} (m : L A) : SM A := fun s =>
  match m (outer (Joining.world s)) with
  | Some (x, l) => Some (x, Joining.set_world (set_outer l (Joining.world s)) s)
  | None => None
  end.

Definition joining_conf (E : env) (l : local) (uid : Z) (cb_beacons : option fn) : Provisioning.provisioning_conf_t local :=
  {| method := PROV_METHOD_SECURED; Provisioning.nb_retry := 3; timeout_s := 20; Provisioning.uid := Some (le_put 4 uid);
     uid_len := 4; key := psk (m_psk_init l); key_len := 32; Provisioning.end_cb := Some (joining_end_cb E);
     user_data_cb := None;
     beacon_joining_cb := Some (match cb_beacons with
       | Some f => on_beacons E f
       | None => fun beacons buf l => (default_rssi_joining_beacon_selection (id (m_psk l)) beacons buf, l) end) |}.

(** [conf.uid] points to a local variable: its memory is reused when the function is left. *)
Definition forget_uid (E : env) (p : prov local) : prov local :=
  let c := Provisioning.m_conf p in
  Provisioning.set_conf {| method := method c; Provisioning.nb_retry := Provisioning.nb_retry c; timeout_s := timeout_s c;
    Provisioning.uid := Some (dangling E (outer p)); uid_len := uid_len c; key := key c; key_len := key_len c;
    Provisioning.end_cb := Provisioning.end_cb c; user_data_cb := user_data_cb c; beacon_joining_cb := beacon_joining_cb c |} p.

Definition Local_provisioning_start_joining (E : env) (cb_beacons cb_end : option fn) : SM Local_provisioning_res_e :=
  uid ← of_local (asks (fun l => getUniqueId E (lworld l)));
  _ ← of_local (puts (set_user_cb_end cb_end));
  l ← of_local (asks (fun l => l));
  let conf := joining_conf E l uid cb_beacons in
  if Local_provisioning_is_provisioned E (lworld l) then mret LOCAL_PROVISIONING_RES_ALREADY_PROVISIONED
  else
    _ ← of_local (on_world (configureNode E (getUniqueAddress (getUniqueId E (lworld l))) DEFAULT_NET_ADDR DEFAULT_NET_CHAN None None));
    ret ← Provisioning_init (provisioning_env E) conf;
    if decide (ret <> PROV_RET_OK) then mret LOCAL_PROVISIONING_RES_WRONG_STATE
    else
      res ← of_local (on_local (Stack_State_startStack E));
      result ← (if negb (res =? APP_RES_OK) then mret LOCAL_PROVISIONING_RES_INTERNAL_ERROR
                else
                  res ← of_local (on_world (addTask E provisioning_start_task_ 2000));
                  if negb (res =? APP_SCHEDULER_RES_OK) then mret LOCAL_PROVISIONING_RES_INTERNAL_ERROR
                  else mret LOCAL_PROVISIONING_RES_SUCCESS);
      _ ← put (forget_uid E);
      mret result.

Definition provisioning_start_task (E : env) : SM Z :=
  _ ← Provisioning_start (provisioning_env E);
  mret APP_SCHEDULER_STOP_TASK.

End LocalProvisioning.
Arguments local : clear implicits.
Arguments env : clear implicits.

(** * Properties *)

#[local] Opaque le_put.

(** ** The choice of a beacon *)

(** [int8_t] *)
Definition is_s8 (x : Z) : Prop := -128 <= x <= 127.

Section Selection.
Context (buf : list app_lib_joining_received_beacon_t) (key_id : Z).

(** The beacons that the list from [p] on leads to, in its order. *)
Inductive leads : option nat -> list nat -> Prop :=
  | leads_end : leads None []
  | leads_next b c l : buf !! b = Some c -> leads (next c) l -> leads (Some b) (b :: l).

Definition matching (c : app_lib_joining_received_beacon_t) : bool :=
  (length (payload c) =? 4)%nat && (key_id =? le_get (payload c)).

(** The best of some beacons. *)
Record best_of (l : list nat) (best : option nat) (strongest : Z) : Prop := {
  best_none_better b c : b ∈ l -> buf !! b = Some c -> matching c = true -> rssi c <= strongest;
  best_one : match best with
    | Some b => b ∈ l /\ exists c, buf !! b = Some c /\ matching c = true /\ rssi c = strongest
    | None => strongest = -32768
    end }.

Lemma best_step seen best strongest b c : best_of seen best strongest -> buf !! b = Some c ->
  if matching c && (strongest <? rssi c) then best_of (seen ++ [b]) (Some b) (rssi c)
  else best_of (seen ++ [b]) best strongest.
Proof.
  intros [Hbest Hone] Hb. destruct (matching c) eqn:Hm; cbn [andb]; [destruct (Z.ltb_spec strongest (rssi c))|].
  - split.
    + intros b' c' [Hin| ->%list_elem_of_singleton]%elem_of_app Hb' Hm'; [|simplify_eq; lia].
      specialize (Hbest _ _ Hin Hb' Hm'). lia.
    + split; [set_solver|]. by exists c.
  - split.
    + intros b' c' [Hin| ->%list_elem_of_singleton]%elem_of_app Hb' Hm'; [by eapply Hbest|simplify_eq; lia || congruence].
    + destruct best as [b0|]; [|done]. destruct Hone as [? ?]. split; [set_solver|done].
  - split.
    + intros b' c' [Hin| ->%list_elem_of_singleton]%elem_of_app Hb' Hm'; [by eapply Hbest|simplify_eq; lia || congruence].
    + destruct best as [b0|]; [|done]. destruct Hone as [? ?]. split; [set_solver|done].
Qed.

Lemma selection_loop_spec p l : leads p l -> forall fuel seen best strongest, (length l < fuel)%nat ->
  best_of seen best strongest ->
  exists r, best_of (seen ++ l) (selection_loop key_id fuel p best strongest buf) r.
Proof.
  induction 1 as [|b c l Hb Hl IH]; intros fuel seen best strongest Hf Hs.
  - exists strongest. rewrite app_nil_r. by destruct fuel.
  - destruct fuel as [|fuel]; [lia|]. cbn [length] in Hf. cbn [selection_loop]. rewrite Hb.
    replace (seen ++ b :: l) with ((seen ++ [b]) ++ l) by (by rewrite <- app_assoc).
    pose proof (best_step _ _ _ _ _ Hs Hb) as Hstep. fold (matching c).
    destruct (matching c && (strongest <? rssi c)); apply IH; (lia || done).
Qed.

Lemma leads_lt p l : leads p l -> Forall (fun b => (b < length buf)%nat) l.
Proof. induction 1; constructor; [by eapply lookup_lt_Some|done]. Qed.

Lemma nodup_length p l : leads p l -> NoDup l -> (length l <= length buf)%nat.
Proof.
  intros Hl Hn. rewrite <- (length_seq (length buf) 0). apply submseteq_length, NoDup_submseteq; [done|].
  intros b Hb. apply elem_of_seq. pose proof (proj1 (Forall_forall _ _) (leads_lt _ _ Hl) b Hb). simpl in *. lia.
Qed.

(** Of the beacons in the list with the identifier of the key, the one with the
    strongest signal; none only when there is no such beacon. *)
Lemma selection_spec p l : leads p l -> NoDup l -> (forall b c, buf !! b = Some c -> is_s8 (rssi c)) ->
  match default_rssi_joining_beacon_selection key_id p buf with
  | Some b => b ∈ l /\ exists c, buf !! b = Some c /\ matching c = true /\
      forall b' c', b' ∈ l -> buf !! b' = Some c' -> matching c' = true -> rssi c' <= rssi c
  | None => forall b c, b ∈ l -> buf !! b = Some c -> matching c = false
  end.
Proof.
  intros Hl Hn Hr. unfold default_rssi_joining_beacon_selection.
  destruct (selection_loop_spec p l Hl (S (length buf)) [] None (-32768)) as (r & [Hbest Hone]).
  - pose proof (nodup_length _ _ Hl Hn). lia.
  - split; [set_solver|done].
  - cbn [app] in *. destruct (selection_loop _ _ _ _ _ _) as [b|].
    + destruct Hone as [Hin (c & Hb & Hm & <-)]. split; [done|]. by exists c.
    + intros b c Hin Hb. destruct (matching c) eqn:Hm; [|done].
      specialize (Hbest _ _ Hin Hb Hm). specialize (Hr _ _ Hb). unfold is_s8 in Hr. lia.
Qed.

End Selection.

(** ** The proxy follows the configuration *)

(** What the application configuration says of local provisioning. *)
Inductive lp_config := Disabled | Enabled | Enabled_with_key (k : local_provisioning_psk_t).

Definition config_bytes (c : lp_config) : list Z :=
  match c with
  | Disabled => [LP_APP_CONFIG_DISABLED]
  | Enabled => [LP_APP_CONFIG_ENABLED]
  | Enabled_with_key k => [LP_APP_CONFIG_ENABLED_WITH_KEY] ++ le_put 4 (id k) ++ psk k
  end.

Record key_ok (k : local_provisioning_psk_t) : Prop := { ok_id : is_u32 (id k); ok_psk : factory_key (psk k) }.

Definition config_ok (c : lp_config) : Prop := match c with Enabled_with_key k => key_ok k | _ => True end.

Section Follows.
Context {W : Type} (E : env W).
Implicit Types (l : local W) (p : Proxy.state W) (w : W).

(** The key of the proxy, when it is enabled. *)
Definition config_key (c : lp_config) l : option local_provisioning_psk_t :=
  match c with Disabled => None | Enabled => Some (m_psk_init l) | Enabled_with_key k => Some k end.

Class RadioOk := {
  start_ok payload n power w : (startJoiningBeaconTx (proxy_env E) payload n power w).1 = APP_RES_OK;
  stop_ok w : (stopJoiningBeaconTx (proxy_env E) w).1 = APP_RES_OK;
  enabled_cb_proxy f b l : proxy (on_proxy_enabled E f b l) = proxy l }.
Context `{RO : RadioOk}.

Lemma parse_config_spec c l : config_ok c ->
  parse_config (config_bytes c) l =
    match config_key c l with Some k => (true, set_psk k l) | None => (false, l) end.
Proof.
  intros Hc. destruct c as [| |k]; [done..|]. destruct Hc as [Hid [Hl Hb]]. unfold parse_config, config_bytes.
  set (bs := [_] ++ _).
  assert (Hbs : length bs = 37%nat) by (unfold bs; rewrite !length_app, length_le_put, Hl; done).
  rewrite Hbs. cbn [Nat.eqb andb]. unfold bs at 1. cbn [app nth]. rewrite Z.eqb_refl. cbn [config_key].
  assert (H1 : field 1 4 bs = id k)
    by (unfold bs; rewrite field_le_put by done; apply uwrap_small, Hid).
  assert (H2 : slice 5 32 bs = psk k).
  { unfold bs, slice. rewrite app_assoc, drop_app_length' by (rewrite length_app, length_le_put; done).
    apply take_ge. lia. }
  rewrite H1, H2. by destruct k.
Qed.

(** What each operation of the proxy leaves. *)
Record proxy_is (started init : bool) (conf : Proxy.provisioning_proxy_conf_t W) p : Prop := {
  is_started : Proxy.m_started p = started;
  is_init : Proxy.m_init p = init;
  is_conf : Proxy.m_conf p = conf }.

Lemma proxy_stop_spec started init conf p : proxy_is started init conf p -> (started = true -> init = true) ->
  exists r p', Provisioning_Proxy_stop (proxy_env E) p = Some (r, p') /\ proxy_is false init conf p'.
Proof.
  intros [Hs Hi Hc] Hsi. unfold Provisioning_Proxy_stop. rewrite asksE, Hs, Hi.
  destruct started; [rewrite (Hsi eq_refl) in *|rewrite andb_false_r]; cbn [andb negb]; [|by exists PROV_RET_INVALID_STATE, p].
  rewrite asksE.
  assert (Hlocal : exists w, (if is_local_provisioning (Proxy.m_conf p)
      then _ ← Proxy.do_world (enableProxy (proxy_env E) true); Proxy.do_world (removeDataReceivedCb (proxy_env E))
      else mret tt) p = Some (tt, Proxy.set_world w p)).
  { destruct (is_local_provisioning _); [by eexists|]. exists (Proxy.world p). by destruct p. }
  destruct Hlocal as [w Hw]. erewrite sf_bindE by exact Hw.
  rewrite proxy_in_worldE, stop_ok. cbn [negb Z.eqb APP_RES_OK]. rewrite putsE. eexists _, _. split; [reflexivity|]. by split.
Qed.

Lemma proxy_init_spec init conf0 p k : proxy_is false init conf0 p ->
  exists p', Provisioning_Proxy_init (proxy_env E) (proxy_conf E k) p = Some (PROV_RET_OK, p') /\
    proxy_is false true (proxy_conf E k) p'.
Proof.
  intros [Hs Hi Hc]. unfold Provisioning_Proxy_init. rewrite asksE, Hs, andb_false_r.
  cbn [no_payload proxy_conf conf_payload conf_num_bytes negb andb orb Z.eqb is_local_provisioning is_local_sec_allowed
       is_local_unsec_allowed conf_key_len conf_start_cb].
  rewrite putsE, sf_assoc, proxy_do_worldE, sf_assoc, proxy_do_worldE, sf_assoc, proxy_do_worldE, sf_assoc, proxy_in_worldE.
  rewrite !putsE. eexists. split; [reflexivity|]. by split.
Qed.

Lemma proxy_start_spec conf p : proxy_is false true conf p ->
  exists p', Provisioning_Proxy_start (proxy_env E) p = Some (PROV_RET_OK, p') /\ proxy_is true true conf p'.
Proof.
  intros [Hs Hi Hc]. unfold Provisioning_Proxy_start. rewrite asksE, Hs, Hi. cbn [andb negb]. rewrite asksE, proxy_in_worldE, start_ok.
  cbn [negb Z.eqb APP_RES_OK].
  destruct (is_local_provisioning (Proxy.m_conf p)).
  - rewrite sf_assoc, proxy_do_worldE, proxy_do_worldE, putsE. eexists. split; [reflexivity|]. by split.
  - rewrite sf_retE, putsE. eexists. split; [reflexivity|]. by split.
Qed.

Lemma on_proxyE {A B} (m : sf (Proxy.state W) A) (k : A -> sf (local W) B) l x p :
  m (proxy l) = Some (x, p) -> (y ← on_proxy m; k y) l = k x (set_proxy p l).
Proof. intros H. apply sf_bindE. unfold on_proxy. by rewrite H. Qed.

Lemma is_itself p : proxy_is (Proxy.m_started p) (Proxy.m_init p) (Proxy.m_conf p) p.
Proof. by split. Qed.

Lemma set_psk_is k l : let p := proxy (set_psk k l) in
  Proxy.m_started p = Proxy.m_started (proxy l) /\ Proxy.m_init p = Proxy.m_init (proxy l).
Proof. cbn. by destruct (shared l). Qed.

(** The application is told, and leaves the proxy alone. *)
Lemma told_spec enabled l : exists l',
  (cb ← asks m_on_provisioning_proxy_enabled_cb;
   match cb with Some f => puts (on_proxy_enabled E f enabled) | None => mret tt end) l = Some (tt, l') /\
  proxy l' = proxy l.
Proof.
  rewrite asksE. destruct (m_on_provisioning_proxy_enabled_cb l) as [f|].
  - eexists. split; [reflexivity|]. apply enabled_cb_proxy.
  - by exists l.
Qed.

(** Of two application configurations, the second one counts: the proxy has its
    key, whatever it had before, or is stopped. *)
Lemma config_spec c l : config_ok c -> (Proxy.m_started (proxy l) = true -> Proxy.m_init (proxy l) = true) ->
  exists l', appConfigTLVReceivedCb E (config_bytes c) l = Some (tt, l') /\
    match config_key c l with
    | Some k => proxy_is true true (proxy_conf E k) (proxy l')
    | None => Proxy.m_started (proxy l') = false
    end.
Proof.
  intros Hc Hsi. unfold appConfigTLVReceivedCb.
  assert (Hp : on_local (parse_config (config_bytes c)) l =
    Some (match config_key c l with Some k => (true, set_psk k l) | None => (false, l) end))
    by (unfold on_local; by rewrite (parse_config_spec c l Hc)).
  destruct (config_key c l) as [k|]; erewrite sf_bindE by exact Hp.
  - set (l1 := set_psk k l). destruct (set_psk_is k l) as [Hs1 Hi1]. rewrite <- Hs1, <- Hi1 in Hsi.
    destruct (proxy_stop_spec _ _ _ _ (is_itself (proxy l1)) Hsi) as (r & p1 & E1 & H1).
    destruct (proxy_init_spec _ _ _ k H1) as (p2 & E2 & H2).
    destruct (proxy_start_spec _ _ H2) as (p3 & E3 & H3).
    rewrite sf_assoc, asksE, sf_assoc. erewrite on_proxyE by exact E1. rewrite sf_assoc.
    erewrite on_proxyE by exact E2. rewrite decide_True, sf_assoc, putsE by done.
    erewrite on_proxyE by exact E3. edestruct told_spec as (l' & Hl & Hproxy). exists l'. split; [exact Hl|].
    rewrite Hproxy. exact H3.
  - destruct (proxy_stop_spec _ _ _ _ (is_itself (proxy l)) Hsi) as (r & p1 & E1 & H1).
    erewrite on_proxyE by exact E1. edestruct told_spec as (l' & Hl & Hproxy). exists l'. split; [exact Hl|].
    rewrite Hproxy. apply H1.
Qed.

End Follows.

(** ** The joining session *)

Section Joins.
Context {W : Type} (E : env W).
Implicit Types (s : Joining.state (prov (local W))).

(** A session that [Provisioning_start] can start, with the key of the library. *)
Record ready (k : local_provisioning_psk_t) s : Prop := {
  ready_prov : Provisioning.m_state (Joining.world s) = PROV_STATE_IDLE;
  ready_joining : Joining.m_state s = JOIN_STATE_IDLE;
  ready_method : method (Provisioning.m_conf (Joining.world s)) = PROV_METHOD_SECURED;
  ready_key : key (Provisioning.m_conf (Joining.world s)) = psk k;
  ready_key_len : key_len (Provisioning.m_conf (Joining.world s)) = 32;
  ready_end : Provisioning.end_cb (Provisioning.m_conf (Joining.world s)) = Some (joining_end_cb E) }.

Definition session_idle s : Prop :=
  (Provisioning.m_state (Joining.world s) = PROV_STATE_UNINIT \/ Provisioning.m_state (Joining.world s) = PROV_STATE_IDLE) /\
  (Joining.m_state s = JOIN_STATE_UNINIT \/ Joining.m_state s = JOIN_STATE_IDLE).

Lemma session_outerE {A B} (f : local W -> A * local W) (k : A -> sf (Joining.state (prov (local W))) B) s :
  (y ← in_outer f; k y) s =
  k (f (outer (Joining.world s))).1
    (Joining.set_world (set_outer (f (outer (Joining.world s))).2 (Joining.world s)) s).
Proof. unfold in_outer, Joining.in_world, lift, mbind, sf_bind. by destruct (f (outer (Joining.world s))). Qed.

Lemma session_putE {B} f (k : unit -> sf (Joining.state (prov (local W))) B) s :
  (y ← put f; k y) s = k tt (Joining.set_world (f (Joining.world s)) s).
Proof. reflexivity. Qed.

Lemma session_init_spec l uid cb_beacons s :
  exists r s', Provisioning_init (provisioning_env E) (joining_conf E l uid cb_beacons) s = Some (r, s') /\
    (r = PROV_RET_OK <-> session_idle s) /\ (r = PROV_RET_OK -> ready (m_psk_init l) s').
Proof.
  unfold Provisioning_init, session_idle, get. rewrite asksE. case_decide as Hst.
  { exists PROV_RET_INVALID_STATE, s. split; [done|]. split; [|done]. split; [done|]. intros [[|] _]; naive_solver. }
  assert (Hbad : bad_conf (joining_conf E l uid cb_beacons) = false) by reflexivity. rewrite Hbad.
  unfold do_outer. rewrite !session_putE, session_outerE. cbv beta. rewrite session_putE. unfold Provisioning_Joining_init. rewrite sf_assoc, asksE.
  cbn [Joining.m_state Joining.set_world]. case_decide as Hj.
  - rewrite sf_retE. eexists PROV_RET_INVALID_STATE, _. split; [reflexivity|]. split; [|done].
    split; [done|]. intros [_ [|]]; naive_solver.
  - cbn [negb]. rewrite sf_assoc, putsE, sf_assoc, putsE, sf_retE. rewrite decide_False by (by intros []).
    rewrite !session_putE. eexists PROV_RET_OK, _. split; [reflexivity|]. split.
    + split; [|done]. intros _. split.
      * destruct (Provisioning.m_state (Joining.world s)) eqn:?; auto; destruct Hst; by split.
      * destruct (Joining.m_state s) eqn:?; auto; destruct Hj; by split.
    + intros _. by split.
Qed.

Lemma forget_uid_ready k s : ready k s -> ready k (Joining.set_world (forget_uid E (Joining.world s)) s).
Proof. intros []. by split. Qed.

Lemma of_local_ready {A B} (m : sf (local W) A) (k : A -> sf (Joining.state (prov (local W))) B) s x l :
  m (outer (Joining.world s)) = Some (x, l) ->
  (y ← of_local m; k y) s = k x (Joining.set_world (set_outer l (Joining.world s)) s).
Proof. intros H. apply sf_bindE. unfold of_local. by rewrite H. Qed.

Lemma outer_ready k l s : ready k s -> ready k (Joining.set_world (set_outer l (Joining.world s)) s).
Proof. intros []. by split. Qed.

(** The state with the world of a session replaced. *)
Definition with_local l s : Joining.state (prov (local W)) :=
  Joining.set_world (set_outer l (Joining.world s)) s.

Lemma start_prefix {B} cb_end (k : Z -> local W -> sf (Joining.state (prov (local W))) B) s :
  let l := set_user_cb_end cb_end (outer (Joining.world s)) in
  (uid ← of_local (asks (fun l => getUniqueId E (lworld l)));
   _ ← of_local (puts (set_user_cb_end cb_end));
   l ← of_local (asks (fun l => l));
   k uid l) s = k (getUniqueId E (lworld l)) l (with_local l s).
Proof. reflexivity. Qed.

(** A node that is provisioned is left alone; another one is started with a
    session ready under the key of the library, unless one runs, the stack does
    not start or the scheduler is full. *)
Lemma start_joining_spec cb_beacons cb_end s :
  let l := outer (Joining.world s) in
  exists r s', Local_provisioning_start_joining E cb_beacons cb_end s = Some (r, s') /\
    match r with
    | LOCAL_PROVISIONING_RES_ALREADY_PROVISIONED =>
        Local_provisioning_is_provisioned E (lworld l) = true /\
        s' = Joining.set_world (set_outer (set_user_cb_end cb_end l) (Joining.world s)) s
    | LOCAL_PROVISIONING_RES_WRONG_STATE =>
        Local_provisioning_is_provisioned E (lworld l) = false /\ ~ session_idle s
    | LOCAL_PROVISIONING_RES_INTERNAL_ERROR | LOCAL_PROVISIONING_RES_SUCCESS =>
        Local_provisioning_is_provisioned E (lworld l) = false /\ session_idle s /\ ready (m_psk_init l) s'
    | _ => False
    end.
Proof.
  intros l. unfold Local_provisioning_start_joining.
  rewrite start_prefix. cbn zeta. fold l. set (l1 := set_user_cb_end cb_end l).
  change (lworld l1) with (lworld l). set (s1 := with_local l1 s).
  destruct (Local_provisioning_is_provisioned E (lworld l)) eqn:Hp.
  { eexists _, _. split; [reflexivity|]. by split. }
  erewrite of_local_ready by reflexivity. set (s2 := Joining.set_world _ s1).
  destruct (session_init_spec l1 (getUniqueId E (lworld l)) cb_beacons s2) as (r & s3 & Hinit & Hok & Hready).
  erewrite sf_bindE by exact Hinit. change (session_idle s2) with (session_idle s) in Hok.
  case_decide as Hr.
  { eexists _, _. split; [reflexivity|]. split; [done|]. by rewrite <- Hok. }
  pose proof (Hready Hr) as H3. apply Hok in Hr.
  destruct (Stack_State_startStack E (outer (Joining.world s3))) as [res l4] eqn:Hstack.
  erewrite of_local_ready by (unfold on_local; by rewrite Hstack). set (s4 := Joining.set_world _ s3).
  assert (H4 : ready (m_psk_init l) s4) by apply (outer_ready _ _ _ H3).
  assert (Hend : forall r s5, ready (m_psk_init l) s5 -> r = LOCAL_PROVISIONING_RES_INTERNAL_ERROR \/ r = LOCAL_PROVISIONING_RES_SUCCESS ->
    (_ ← put (forget_uid E); mret r) s5 = Some (r, Joining.set_world (forget_uid E (Joining.world s5)) s5) /\
    match r with
    | LOCAL_PROVISIONING_RES_INTERNAL_ERROR | LOCAL_PROVISIONING_RES_SUCCESS =>
        Local_provisioning_is_provisioned E (lworld l) = false /\ session_idle s /\
        ready (m_psk_init l) (Joining.set_world (forget_uid E (Joining.world s5)) s5)
    | _ => True
    end).
  { intros r' s5 H5 Hres. split; [reflexivity|].
    destruct Hres as [-> | ->]; (split; [done|]); (split; [done|]); by apply forget_uid_ready. }
  destruct (negb _).
  - rewrite sf_retE. destruct (Hend LOCAL_PROVISIONING_RES_INTERNAL_ERROR s4 H4) as [Hrun Hpost]; [auto|].
    rewrite Hrun. eexists _, _. split; [reflexivity|]. by destruct Hpost as (_ & ? & ?).
  - rewrite sf_assoc. erewrite of_local_ready by reflexivity. set (s5 := Joining.set_world _ s4).
    assert (H5 : ready (m_psk_init l) s5) by apply (outer_ready _ _ _ H4).
    destruct (negb _); rewrite sf_retE.
    + destruct (Hend LOCAL_PROVISIONING_RES_INTERNAL_ERROR s5 H5) as [Hrun Hpost]; [auto|]. rewrite Hrun. eexists _, _. split; [reflexivity|]. by destruct Hpost as (_ & ? & ?).
    + destruct (Hend LOCAL_PROVISIONING_RES_SUCCESS s5 H5) as [Hrun Hpost]; [auto|]. rewrite Hrun. eexists _, _. split; [reflexivity|]. by destruct Hpost as (_ & ? & ?).
Qed.

End Joins.

(** ** From the application configuration to the parameters of a new node *)

(** What the settings of the proxy node hold. *)
Record settings_are {W} (E : env W) (w : W) (q : provisioning_proxy_net_param_t) : Prop := {
  are_enc b : getEncryptionKey E b w = (APP_RES_OK, net_enc_key q);
  are_auth b : getAuthenticationKey E b w = (APP_RES_OK, net_auth_key q);
  are_addr a : getNetworkAddress E a w = (APP_RES_OK, net_net_addr q);
  are_chan c : getNetworkChannel E c w = (APP_RES_OK, net_net_chan q) }.

Lemma start_cb_spec {W} (E : env W) q u n m p w : settings_are E w q -> start_cb E u n m p w = (true, q, w).
Proof. intros [H1 H2 H3 H4]. unfold start_cb. rewrite H1, H2, H3, H4. by destruct q. Qed.

Lemma ask_spec {W} (E : env W) k q (p : Proxy.state W) pdu : Proxy.m_conf p = proxy_conf E k ->
  settings_are E (Proxy.world p) q -> ask_start_cb p pdu = (true, q, Proxy.world p).
Proof. intros Hc Hq. unfold ask_start_cb. rewrite Hc. cbn [proxy_conf conf_start_cb]. by apply start_cb_spec. Qed.

(** C3: from the application configuration of a network to a new node of it. When
    the configuration enables local provisioning, with the key of the proxy node or
    with one of its own, and a node that is not provisioned starts a session with the
    same key, then, whatever the proxy did before, the START packet of the node is
    answered with one packet in which the node, with its own key, finds exactly the
    network keys, the address and the channel that are in the settings of the proxy
    node; it accepts them unless they are parameters that it accepts from nobody.
    After a configuration that disables local provisioning the proxy is stopped. *)
Theorem local_provisioning_exchange {T V Wp Wj} (C : cbor_encoder T) (P : cbor V) at_key at_value building
    (Ep : env Wp) (Ej : env Wj) (c : lp_config) (l : local Wp) cb_beacons cb_end
    (s0 s1 n : Joining.state (prov (local Wj))) data pdu q map :
  CborWriter C P at_key building -> CborMap P at_key at_value -> RadioOk Ep ->
  (forall w, length (stack_bytes (proxy_env Ep) w) = PROV_PDU_SIZE) ->
  config_ok c -> (forall k, config_key c l = Some k -> key_ok k) ->
  (Proxy.m_started (proxy l) = true -> Proxy.m_init (proxy l) = true) ->
  Local_provisioning_start_joining Ej cb_beacons cb_end s0 = Some (LOCAL_PROVISIONING_RES_SUCCESS, s1) ->
  Provisioning.m_conf (Joining.world n) = Provisioning.m_conf (Joining.world s1) ->
  (4 < parse_fuel (provisioning_env Ej))%nat -> waiting (provisioning_env Ej) (Joining.world n) pdu -> rx_data data = pdu ->
  net_param_ok q -> encode_cbor_map C q 88 = (CborNoError, map) ->
  exists l', appConfigTLVReceivedCb Ep (config_bytes c) l = Some (tt, l') /\
    match config_key c l with
    | None => Proxy.m_started (proxy l') = false
    | Some k =>
        Proxy.m_started (proxy l') = true /\
        (psk k = psk (m_psk_init (outer (Joining.world s0))) -> settings_are Ep (lworld l') q ->
         exists p' bs n', Proxy.pkt_received_cb C (proxy_env Ep) data (proxy l') = Some (APP_LIB_DATA_RECEIVE_RES_HANDLED, p') /\
           Proxy.world p' = sent (proxy_env Ep) (downlink bs (Z.of_nat (length bs)) (rx_src data)) (lworld l') /\
           let ok := accepted (data_env (provisioning_env Ej)) (net_doc q) in
           receive P (provisioning_env Ej) bs n = Some (if ok then PROV_RES_SUCCESS else PROV_RES_INVALID_DATA, n') /\
           (ok = true -> let d := p_data (Joining.world n') in
             enc_key d = net_enc_key q /\ auth_key d = net_auth_key q /\ net_addr d = net_net_addr q /\ net_chan d = net_net_chan q))
    end.
Proof.
  intros CW CM RO Hbuf Hc Hk Hsi Hstart Hconf Hf Hw Hd Hq He.
  destruct (config_spec Ep c l Hc Hsi) as (l' & Hrun & Hl'). exists l'. split; [exact Hrun|].
  destruct (config_key c l) as [k|]; [|exact Hl']. specialize (Hk k eq_refl). destruct Hl' as [Hs Hi Hpc].
  split; [exact Hs|]. intros Hkey Hset.
  destruct (start_joining_spec Ej cb_beacons cb_end s0) as (r & s1' & Hrun' & Hpost).
  rewrite Hstart in Hrun'. injection Hrun' as <- <-. destruct Hpost as (_ & _ & Hready).
  eapply (node_proxy_agree C P at_key at_value building (provisioning_env Ej) (proxy_env Ep) n (proxy l') data pdu q); try done.
  - split; [exact Hbuf|rewrite Hpc; intros _; apply Hk|]. intros pdu'. by rewrite (ask_spec Ep k q (proxy l') pdu' Hpc Hset).
  - rewrite Hpc, Hconf, (ready_key _ _ _ Hready). exact Hkey.
  - rewrite Hpc, Hconf, (ready_method _ _ _ Hready). done.
  - by apply (ask_spec Ep k q).
Qed.

(** ** Two nodes *)

#[local] Transparent le_put.

Module Examples.
Import ProxyExample.

Definition quiet_data {X} : ProvData.env X :=
  {| isValidNetworkAddress a := a <? 0x1000000; isValidNetworkChannel c := (0 <? c) && (c <=? 40);
     isValidNodeAddress _ := true; isValidNodeRole _ := true; ProvData.setAuthenticationKey _ w := w;
     ProvData.setEncryptionKey _ w := w; ProvData.setNetworkAddress _ w := w; ProvData.setNetworkChannel _ w := w;
     ProvData.setNodeAddress _ w := w; setNodeRole _ w := w; setShutdownCb _ w := w; stopStack w := w; undefined_shift _ := 0 |}.

Definition quiet_session {X} : Provisioning.env X :=
  {| Provisioning.addTask _ _ w := (APP_SCHEDULER_RES_OK, w); Provisioning.cancelTask _ w := w;
     Provisioning.addEventCb w := w; Provisioning.removeEventCb w := w;
     Provisioning.startJoiningBeaconRx w := (APP_RES_OK, w); Provisioning.stopJoiningBeaconRx w := w;
     Provisioning.startJoiningProcess _ _ w := (APP_RES_OK, w); Provisioning.stopJoiningProcess w := w;
     Provisioning.getNetworkAddress _ := (APP_RES_OK, 1); Provisioning.getNetworkChannel _ := (APP_RES_OK, 1);
     getRouteState _ := APP_LIB_STATE_ROUTE_STATE_VALID; getNextHop _ := 0x2000; Provisioning.getNodeAddress _ := 0x1000;
     Provisioning.sendData _ _ w := (APP_LIB_DATA_SEND_RES_SUCCESS, w); Provisioning.addDataReceivedCb w := w;
     Provisioning.removeDataReceivedCb w := w; Provisioning.random_init w := w; random_get8 w := (77, w);
     data_env := quiet_data; parse_fuel := 9; depth := 3 |}.

(** A node with the given results of the settings and of the start of the beacons;
    the application keeps what it is told in [m_filter_id]. *)
Definition node_env (keys addr beacons : Z) : env (list app_lib_data_to_send_t) :=
  {| proxy_env := {| sendData := sendData demo_env; addDataReceivedCb := addDataReceivedCb demo_env;
       removeDataReceivedCb := removeDataReceivedCb demo_env; enableProxy := enableProxy demo_env;
       startJoiningBeaconTx _ _ _ w := (beacons, w); stopJoiningBeaconTx := stopJoiningBeaconTx demo_env;
       random_init := random_init demo_env; random_get16 := random_get16 demo_env; stack_bytes := stack_bytes demo_env |};
     provisioning_env := quiet_session;
     on_proxy_enabled _ b l := set_filter_id (if b : bool then 1 else 0) l; on_joining_done _ _ l := (true, l);
     on_beacons _ b _ l := (b, l);
     getEncryptionKey _ _ := (keys, net_enc_key params); hasEncryptionKey _ := keys;
     getAuthenticationKey _ _ := (keys, net_auth_key params); hasAuthenticationKey _ := keys;
     getNodeAddress _ := (addr, 0x1000); getNetworkAddress _ _ := (APP_RES_OK, net_net_addr params);
     getNetworkChannel _ _ := (APP_RES_OK, net_net_chan params);
     setEncryptionKey _ w := (APP_RES_OK, w); setAuthenticationKey _ w := (APP_RES_OK, w); setNodeAddress _ w := (APP_RES_OK, w);
     setNetworkAddress _ w := (APP_RES_OK, w); setNetworkChannel _ w := (APP_RES_OK, w); resetAll _ := [];
     getUniqueId _ := 0xAABBCCDD; Stack_State_startStack l := (APP_RES_OK, l); Stack_State_stopStack l := l;
     Stack_State_isStarted _ := false; Stack_State_addEventCb _ w := w; Shared_Appconfig_addFilter _ _ l := (0, l);
     addTask _ _ w := (APP_SCHEDULER_RES_OK, w); dangling _ := [1; 2; 3; 4] |}.

Definition in_network : env (list app_lib_data_to_send_t) := node_env APP_RES_OK APP_RES_OK APP_RES_OK.
Definition new_node : env (list app_lib_data_to_send_t) := node_env 1 APP_RES_OK APP_RES_OK.

Definition key0 : local_provisioning_psk_t := {| id := 0x11223344; psk := demo_key |}.

Definition boot : local (list app_lib_data_to_send_t) :=
  {| m_filter_id := 7; m_reset_node := false; m_psk := default_psk_key; m_psk_init := default_psk_key;
     m_on_provisioning_proxy_enabled_cb := Some 1%positive; m_user_cb_end := None;
     proxy := {| Proxy.m_conf := Proxy.m_conf demo_state; m_net_param := params; Proxy.m_started := false; Proxy.m_init := false;
       m_counter := 0; Proxy.world := [] |};
     shared := false |}.

(** The new node has the key of its application. *)
Definition joiner0 : Joining.state (prov (local (list app_lib_data_to_send_t))) :=
  let p := ProvisioningExample.demo_state in
  {| Joining.m_events := Joining.no_events; Joining.m_retry := 0; Joining.m_state := JOIN_STATE_UNINIT;
     Joining.nb_retry := 0; m_beacon_rx_buffer := []; m_num_beacons := 0;
     Joining.world := {| Provisioning.m_events := no_events; Provisioning.m_retry := 0; m_timeout_ms := 0; m_session_id := 0;
       Provisioning.m_state := PROV_STATE_UNINIT;
       Provisioning.m_conf := joining_conf new_node boot 0 None; m_iv := repeat 0 16;
       m_data_buffer := repeat 0 PROV_PDU_SIZE; m_data_length := 0; m_joining_res := PROV_RES_SUCCESS;
       m_joining_cb := fun b _ w => (b, w); p_data := m_provisioning_data DataExample.demo_state;
       outer := set_psk_init key0 boot |} |}.

Definition joiner1 : Joining.state (prov (local (list app_lib_data_to_send_t))) :=
  match Local_provisioning_start_joining new_node None None joiner0 with Some (_, s) => s | None => joiner0 end.

Lemma joiner_started :
  Local_provisioning_start_joining new_node None None joiner0 = Some (LOCAL_PROVISIONING_RES_SUCCESS, joiner1).
Proof.
  assert (H : fst <$> Local_provisioning_start_joining new_node None None joiner0 = Some LOCAL_PROVISIONING_RES_SUCCESS)
    by (vm_compute; reflexivity).
  unfold joiner1. destruct (Local_provisioning_start_joining _ _ _ _) as [[r s]|]; simplify_eq/=; done.
Qed.

(** It waits for the answer to the START packet. *)
Definition wait_of (s : Joining.state (prov (local (list app_lib_data_to_send_t)))) :=
  Joining.set_world (set_iv (repeat 255 16) (set_session_id 78 (Provisioning.set_state PROV_STATE_WAIT_DATA (Joining.world s)))) s.
Definition waits : Joining.state (prov (local (list app_lib_data_to_send_t))) := wait_of joiner1.

Lemma wait_of_conf s : Provisioning.m_conf (Joining.world (wait_of s)) = Provisioning.m_conf (Joining.world s).
Proof. reflexivity. Qed.

Lemma waits_conf : Provisioning.m_conf (Joining.world waits) = Provisioning.m_conf (Joining.world joiner1).
Proof. apply wait_of_conf. Qed.

Definition start_pdu : list Z :=
  pdu_prov_hdr PROV_PACKET_TYPE_START 0x1000 78 ++ [PROV_METHOD_SECURED] ++ repeat 255 16 ++ [1; 2; 3; 4].

Lemma joiner_waiting : waiting (provisioning_env new_node) (Joining.world waits) start_pdu.
Proof.
  split; try (vm_compute; reflexivity).
  - apply Forall_app. split; [apply pdu_prov_hdr_bytes|]. unfold PROV_METHOD_SECURED. cbn. byte_list.
  - split; [reflexivity|]. cbn. byte_list.
  - by split.
  - vm_compute. discriminate.
  - by split.
Qed.

Lemma key0_ok : key_ok key0.
Proof. split; [by split|]. split; [reflexivity|]. cbn. byte_list. Qed.

#[export] Instance in_network_radio : RadioOk in_network.
Proof. by split. Qed.

Lemma in_network_settings w : settings_are in_network w params.
Proof. by split. Qed.

Lemma local_provisioning_exchange_witness :
  exists l' p' bs n',
    appConfigTLVReceivedCb in_network (config_bytes (Enabled_with_key key0)) boot = Some (tt, l') /\
    Proxy.m_started (proxy l') = true /\
    Proxy.pkt_received_cb MiniWriter.encoder (proxy_env in_network) {| rx_data := start_pdu; rx_src := 0x1000; image := [] |}
      (proxy l') = Some (APP_LIB_DATA_RECEIVE_RES_HANDLED, p') /\
    receive MiniCbor.parser quiet_session bs waits = Some (PROV_RES_SUCCESS, n') /\
    net_addr (p_data (Joining.world n')) = 0x123456 /\ enc_key (p_data (Joining.world n')) = repeat 7 16.
Proof.
  set (map := (encode_cbor_map MiniWriter.encoder params 88).2).
  destruct (local_provisioning_exchange MiniWriter.encoder MiniCbor.parser MiniCbor.at_key MiniCbor.at_value MiniWriter.building
    in_network new_node (Enabled_with_key key0) boot None None joiner0 joiner1 waits
    {| rx_data := start_pdu; rx_src := 0x1000; image := [] |} start_pdu params map MiniWriter.encoder_ok MiniCbor.parser_ok
    in_network_radio) as (l' & Hl & Hs & H).
  - done.
  - apply key0_ok.
  - intros k [= <-]. apply key0_ok.
  - done.
  - apply joiner_started.
  - apply waits_conf.
  - cbn. lia.
  - apply joiner_waiting.
  - done.
  - apply (ok_params _ _ demo_proxy_ok []).
  - vm_compute. reflexivity.
  - destruct (H eq_refl (in_network_settings _)) as (p' & bs & n' & H1 & _ & H3 & H4).
    assert (Ha : accepted (data_env (provisioning_env new_node)) (net_doc params) = true) by (vm_compute; reflexivity).
    rewrite Ha in H3. destruct (H4 Ha) as (K1 & _ & K3 & _).
    exists l', p', bs, n'. split; [exact Hl|]. split; [exact Hs|]. split; [exact H1|]. split; [exact H3|]. split; [exact K3|exact K1].
Defined.

(** The stack refuses to send joining beacons, and the application is told that they
    are sent. *)
Lemma told_though_refused :
  (fun r => (m_filter_id r.2, Proxy.m_started (proxy r.2))) <$>
    appConfigTLVReceivedCb (node_env APP_RES_OK APP_RES_OK 1) [LP_APP_CONFIG_ENABLED] boot = Some (1, false).
Proof. reflexivity. Qed.

(** The identifier in the START packet is what the memory of a local variable of
    [Local_provisioning_start_joining] holds after its end. *)
Lemma identifier_is_stack_memory :
  start_packet quiet_session (Joining.world waits) = Some start_pdu /\ drop 23 start_pdu = dangling new_node boot /\
  drop 23 start_pdu <> le_put 4 (getUniqueId new_node []).
Proof. split; [reflexivity|]. split; [reflexivity|]. vm_compute. discriminate. Qed.

(** A node without an address is provisioned. *)
Lemma provisioned_without_address : Local_provisioning_is_provisioned (node_env APP_RES_OK 1 APP_RES_OK) [] = true.
Proof. reflexivity. Qed.

(** With the stack stopped, a reset returns. *)
Lemma reset_returns : fst <$> Local_provisioning_reset_node in_network boot = Some tt.
Proof. reflexivity. Qed.

End Examples.
