(* ===== verification/PosTlv.v ===== *)
(** * Compact TLV records

    [libraries/positioning/poslib/poslib_tlv.c]: items whose type and length
    share a byte when the value has at most seven bytes.  A buffer is the memory
    from its address on, which may hold more than the length of the record; a
    read or a write outside of it is a fault. *)

From S2P Require Import Prelude.

Inductive poslib_tlv_res_e := POSLIB_TLV_RES_OK | POSLIB_TLV_RES_ERROR | POSLIB_TLV_RES_END.

#[export] Instance poslib_tlv_res_dec : EqDecision poslib_tlv_res_e.
Proof. solve_decision. Defined.

(** The value is the memory at its address, of which [length] bytes are the item. *)
Record poslib_tlv_item_t := { type : Z; value : option (list Z); length : Z }.

Record poslib_tlv_record := { rcd_buffer : option (list Z); rcd_length : Z; rcd_index : Z }.

Definition MINIMAL_POSLIB_TLV_SIZE : Z := 2.

Definition PosLibTlv_init (buffer : option (list Z)) (len : Z) : poslib_tlv_record :=
  {| rcd_buffer := buffer; rcd_length := len; rcd_index := 0 |}.

Definition at_index (i : Z) (r : poslib_tlv_record) : poslib_tlv_record :=
  {| rcd_buffer := rcd_buffer r; rcd_length := rcd_length r; rcd_index := u8 i |}.

(** [rcd->buffer[i]] *)
Definition byte_at (r : poslib_tlv_record) (i : Z) : option Z := b ← rcd_buffer r; b !! Z.to_nat i.

(** The type and the length, and the index of the last byte of the header. *)
Definition decode_header (r : poslib_tlv_record) : option (Z * Z * Z) :=
  ty ← byte_at r (rcd_index r);
  if Z.land ty 0xE0 =? 0 then
    let i := u8 (rcd_index r + 1) in
    len ← byte_at r i;
    Some (ty, len, i)
  else Some (Z.land ty 0x1F, Z.shiftr ty 5, rcd_index r).

Definition PosLibTlv_Decode_getNextItem (r : poslib_tlv_record)
    : option (poslib_tlv_res_e * poslib_tlv_record * option poslib_tlv_item_t) :=
  if rcd_length r <=? rcd_index r then Some (POSLIB_TLV_RES_END, r, None)
  else if rcd_length r - rcd_index r <? MINIMAL_POSLIB_TLV_SIZE then Some (POSLIB_TLV_RES_ERROR, r, None)
  else
    '(ty, len, i) ← decode_header r;
    if len <=? rcd_length r - i then
      let r := at_index (i + 1) r in
      let item := {| type := ty; length := len; value := drop (Z.to_nat (rcd_index r)) <$> rcd_buffer r |} in
      Some (POSLIB_TLV_RES_OK, at_index (rcd_index r + len) r, Some item)
    else Some (POSLIB_TLV_RES_ERROR, at_index (rcd_length r) r, None).

(** [length] bytes of the value, as [memcpy] reads them. *)
Definition item_bytes (item : poslib_tlv_item_t) : option (list Z) :=
  v ← value item;
  if (List.length v <? Z.to_nat (length item))%nat then None else Some (take (Z.to_nat (length item)) v).

(** Writes at the index, which move it. *)
Definition put (bs : list Z) (r : poslib_tlv_record) : option poslib_tlv_record :=
  b ← rcd_buffer r;
  if (List.length b <? Z.to_nat (rcd_index r) + List.length bs)%nat then None
  else Some {| rcd_buffer := Some (blit (Z.to_nat (rcd_index r)) bs b); rcd_length := rcd_length r;
               rcd_index := u8 (rcd_index r + Z.of_nat (List.length bs)) |}.

Definition is_null (p : option (list Z)) : bool := match p with None => true | _ => false end.

Definition PosLibTlv_Encode_addItem (r : poslib_tlv_record) (item : poslib_tlv_item_t)
    : option (poslib_tlv_res_e * poslib_tlv_record) :=
  if (rcd_length r <=? rcd_index r) || (length item =? 0) || is_null (rcd_buffer r) || is_null (value item) ||
     (31 <? type item)
  then Some (POSLIB_TLV_RES_ERROR, r)
  else
    let bytes_left := u8 (rcd_length r - rcd_index r) in
    if (length item <=? 7) && (length item + 1 <=? bytes_left) then
      r ← put [u8 (Z.lor (Z.shiftl (length item) 5) (Z.land (type item) 0x1F))] r;
      v ← item_bytes item;
      r ← put v r;
      Some (POSLIB_TLV_RES_OK, r)
    else if (7 <? length item) && (length item + 2 <=? bytes_left) then
      r ← put [Z.land (type item) 0x1F] r;
      r ← put [length item] r;
      v ← item_bytes item;
      r ← put v r;
      Some (POSLIB_TLV_RES_OK, r)
    else Some (POSLIB_TLV_RES_ERROR, r).

(** * Properties *)

(** ** The wire format *)

Record item_wf (item : poslib_tlv_item_t) (v : list Z) : Prop := {
  item_type : 0 <= type item <= 31;
  item_length : 0 < length item <= 255;
  item_value : item_bytes item = Some v;
  item_u8 : bytes v }.

(** The bytes of an item with the value [v]. *)
Definition wire (ty : Z) (v : list Z) : list Z :=
  let n := Z.of_nat (List.length v) in
  if n <=? 7 then (32 * n + ty) :: v else ty :: n :: v.

Lemma item_bytes_length item v : item_bytes item = Some v -> 0 <= length item -> Z.of_nat (List.length v) = length item.
Proof.
  unfold item_bytes. destruct (value item) as [w|]; [|done]. cbn [mbind option_bind].
  destruct (Nat.ltb_spec (List.length w) (Z.to_nat (length item))); [done|]. intros [= <-] ?.
  rewrite length_take. lia.
Qed.

(** The first byte of a short item, and of a long one. *)
Lemma short_byte n ty : 0 < n <= 7 -> 0 <= ty <= 31 ->
  u8 (Z.lor (Z.shiftl n 5) (Z.land ty 0x1F)) = 32 * n + ty /\ Z.land (32 * n + ty) 0xE0 <> 0 /\
  Z.land (32 * n + ty) 0x1F = ty /\ Z.shiftr (32 * n + ty) 5 = n.
Proof.
  intros Hn Hty.
  assert (Hc : forallb (fun n => forallb (fun ty => let n := Z.of_nat n in let ty := Z.of_nat ty in
     (u8 (Z.lor (Z.shiftl n 5) (Z.land ty 0x1F)) =? 32 * n + ty) && negb (Z.land (32 * n + ty) 0xE0 =? 0) &&
     (Z.land (32 * n + ty) 0x1F =? ty) && (Z.shiftr (32 * n + ty) 5 =? n)) (seq 0 32)) (seq 1 7) = true)
    by (vm_compute; reflexivity).
  rewrite forallb_forall in Hc. specialize (Hc (Z.to_nat n)). rewrite forallb_forall in Hc.
  assert (H : (fun m ty => let n := Z.of_nat m in let ty := Z.of_nat ty in
     (u8 (Z.lor (Z.shiftl n 5) (Z.land ty 0x1F)) =? 32 * n + ty) && negb (Z.land (32 * n + ty) 0xE0 =? 0) &&
     (Z.land (32 * n + ty) 0x1F =? ty) && (Z.shiftr (32 * n + ty) 5 =? n)) (Z.to_nat n) (Z.to_nat ty) = true)
    by (apply Hc; apply in_seq; lia).
  cbv beta zeta in H. rewrite !Z2Nat.id in H by lia. bool_props. done.
Qed.

Lemma long_byte ty : 0 <= ty <= 31 -> Z.land ty 0x1F = ty /\ Z.land ty 0xE0 = 0.
Proof.
  intros Hty.
  assert (Hc : all_bytes (fun ty => negb (ty <=? 31) || (Z.land ty 0x1F =? ty) && (Z.land ty 0xE0 =? 0)) = true)
    by (vm_compute; reflexivity).
  apply (all_bytes_spec _ ty) in Hc; [|unfold fits; lia]. cbv beta in Hc.
  rewrite (proj2 (Z.leb_le ty 31)) in Hc by lia. cbn [negb orb] in Hc. bool_props. done.
Qed.

Lemma pos_wire_bytes ty v : 0 <= ty <= 31 -> bytes v -> (List.length v < 256)%nat -> bytes (wire ty v).
Proof.
  intros Ht Hv Hl. unfold wire. destruct (Z.leb_spec (Z.of_nat (List.length v)) 7).
  - constructor; [unfold fits; lia|done].
  - repeat constructor; [unfold fits; lia..|done].
Qed.

Lemma pos_length_wire ty v : (List.length v < List.length (wire ty v) <= List.length v + 2)%nat.
Proof. unfold wire. destruct (_ <=? _); cbn; lia. Qed.

(** ** Encoding *)

Definition advance (bs : list Z) (b : list Z) (r : poslib_tlv_record) : poslib_tlv_record :=
  {| rcd_buffer := Some (blit (Z.to_nat (rcd_index r)) bs b); rcd_length := rcd_length r;
     rcd_index := rcd_index r + Z.of_nat (List.length bs) |}.

(** A record whose buffer is as long as it says. *)
Record encodes (r : poslib_tlv_record) (b : list Z) : Prop := {
  enc_buffer : rcd_buffer r = Some b;
  enc_length : rcd_length r <= Z.of_nat (List.length b);
  enc_u8 : is_u8 (rcd_length r);
  enc_index : 0 <= rcd_index r <= rcd_length r }.

Lemma put_spec bs b r :
  encodes r b -> rcd_index r + Z.of_nat (List.length bs) <= rcd_length r ->
  put bs r = Some (advance bs b r) /\ encodes (advance bs b r) (blit (Z.to_nat (rcd_index r)) bs b).
Proof.
  intros [Hb Hl Hu Hi] Hn. unfold fits in Hu. split.
  - unfold put, advance. rewrite Hb. cbn [mbind option_bind].
    rewrite (proj2 (Nat.ltb_ge _ _)) by lia. by rewrite uwrap_small by (unfold fits; lia).
  - constructor; cbn; [done|rewrite length_blit; lia|done|lia].
Qed.

Lemma advance_advance b1 b2 b r :
  encodes r b -> rcd_index r + Z.of_nat (List.length b1 + List.length b2) <= rcd_length r ->
  advance b2 (blit (Z.to_nat (rcd_index r)) b1 b) (advance b1 b r) = advance (b1 ++ b2) b r.
Proof.
  intros [Hb Hl Hu Hi] Hn. unfold advance. cbn [rcd_index rcd_length].
  replace (Z.to_nat (rcd_index r + Z.of_nat (List.length b1))) with (Z.to_nat (rcd_index r) + List.length b1)%nat by lia.
  rewrite blit_blit_app by lia. f_equal. rewrite length_app. lia.
Qed.

Lemma length_wire_short ty v : (List.length v <= 7)%nat -> wire ty v = (32 * Z.of_nat (List.length v) + ty) :: v.
Proof. intros. unfold wire. by rewrite (proj2 (Z.leb_le _ _)) by lia. Qed.

Lemma length_wire_long ty v : (7 < List.length v)%nat -> wire ty v = ty :: Z.of_nat (List.length v) :: v.
Proof. intros. unfold wire. by rewrite (proj2 (Z.leb_gt _ _)) by lia. Qed.

(** An item is added when it fits, and nothing is written otherwise. *)
Lemma pos_addItem_spec item v b r :
  encodes r b -> item_wf item v ->
  PosLibTlv_Encode_addItem r item =
    if rcd_index r + Z.of_nat (List.length (wire (type item) v)) <=? rcd_length r
    then Some (POSLIB_TLV_RES_OK, advance (wire (type item) v) b r) else Some (POSLIB_TLV_RES_ERROR, r).
Proof.
  intros He [Ht Hl Hv Hu]. pose proof (item_bytes_length _ _ Hv ltac:(lia)) as Hn.
  pose proof He as [Hb Hlb Hu8 Hi]. unfold fits in Hu8. unfold PosLibTlv_Encode_addItem.
  destruct (Z.leb_spec (rcd_length r) (rcd_index r)).
  { cbn [orb]. pose proof (pos_length_wire (type item) v). rewrite (proj2 (Z.leb_gt _ _)) by lia. done. }
  rewrite (proj2 (Z.eqb_neq (length item) 0)), Hb, (proj2 (Z.ltb_ge 31 (type item))) by lia.
  destruct (value item) eqn:Eval; [|unfold item_bytes in Hv; by rewrite Eval in Hv].
  cbn [orb is_null]. rewrite (uwrap_small 8 (_ - _)) by (unfold fits; lia).
  destruct (Z.leb_spec (length item) 7); cbn [andb].
  - rewrite length_wire_short by lia. cbn [List.length]. rewrite Hn.
    destruct (Z.leb_spec (length item + 1) (rcd_length r - rcd_index r)); cbn [andb].
    + rewrite (proj2 (Z.leb_le _ _)) by lia.
      pose proof (short_byte (length item) (type item) ltac:(lia) Ht) as (-> & _).
      destruct (put_spec [32 * length item + type item] b r He) as [-> He']; [cbn; lia|]. cbn [mbind option_bind].
      rewrite Hv. cbn [mbind option_bind].
      destruct (put_spec v _ _ He') as [-> _]; [cbn; lia|]. cbn [mbind option_bind].
      rewrite advance_advance by (done || cbn; lia). done.
    + rewrite (proj2 (Z.ltb_ge 7 _)) by lia. cbn [andb]. by rewrite (proj2 (Z.leb_gt _ _)) by lia.
  - rewrite length_wire_long by lia. cbn [List.length]. rewrite Hn. rewrite (proj2 (Z.ltb_lt 7 _)) by lia. cbn [andb].
    destruct (Z.leb_spec (length item + 2) (rcd_length r - rcd_index r)).
    + rewrite (proj2 (Z.leb_le _ _)) by lia. pose proof (long_byte (type item) Ht) as [-> _].
      destruct (put_spec [type item] b r He) as [-> He1]; [cbn; lia|]. cbn [mbind option_bind].
      destruct (put_spec [length item] _ _ He1) as [-> He2]; [cbn; lia|]. cbn [mbind option_bind].
      rewrite Hv. cbn [mbind option_bind].
      destruct (put_spec v _ _ He2) as [-> _]; [cbn; lia|]. cbn [mbind option_bind].
      change (rcd_index (advance [type item] b r)) with (rcd_index (advance [type item] b r)).
      rewrite advance_advance by (done || cbn; lia). rewrite advance_advance by (done || cbn; lia). done.
    + by rewrite (proj2 (Z.leb_gt _ _)) by lia.
Qed.

(** ** Decoding *)

Lemma decode_header_wire pre ty v post r :
  rcd_buffer r = Some (pre ++ wire ty v ++ post) -> rcd_index r = Z.of_nat (List.length pre) ->
  rcd_index r < 255 -> 0 <= ty <= 31 -> 0 < Z.of_nat (List.length v) ->
  decode_header r = Some (ty, Z.of_nat (List.length v),
    if (List.length v <=? 7)%nat then Z.of_nat (List.length pre) else Z.of_nat (List.length pre) + 1).
Proof.
  intros Hb Hi Hn Ht Hv. unfold decode_header, byte_at. rewrite Hb. cbn [mbind option_bind]. rewrite Hi, Nat2Z.id.
  destruct (Nat.leb_spec (List.length v) 7).
  - rewrite length_wire_short by lia. cbn [app]. rewrite (list_lookup_middle pre _ _ _ eq_refl). cbn [mbind option_bind].
    pose proof (short_byte (Z.of_nat (List.length v)) ty ltac:(lia) Ht) as (_ & Hz & -> & ->).
    by rewrite (proj2 (Z.eqb_neq _ _) Hz).
  - rewrite length_wire_long by lia. cbn [app]. rewrite (list_lookup_middle pre _ _ _ eq_refl). cbn [mbind option_bind].
    pose proof (long_byte ty Ht) as [_ ->]. rewrite Z.eqb_refl, uwrap_small by (unfold fits; lia).
    replace (Z.to_nat (Z.of_nat (List.length pre) + 1)) with (List.length (pre ++ [ty])) by (rewrite length_app; cbn; lia).
    rewrite (cons_middle ty pre (_ :: _)), (app_assoc pre [ty]), (list_lookup_middle (pre ++ [ty]) _ _ _ eq_refl). done.
Qed.

Lemma header_index (pre : list Z) ty v :
  let i := if (List.length v <=? 7)%nat then Z.of_nat (List.length pre) else Z.of_nat (List.length pre) + 1 in
  i + 1 = Z.of_nat (List.length pre + List.length (wire ty v) - List.length v) /\
  drop (List.length (wire ty v) - List.length v) (wire ty v) = v.
Proof.
  cbv zeta. destruct (Nat.leb_spec (List.length v) 7).
  - rewrite length_wire_short by lia. cbn [List.length]. split; [lia|]. by replace (_ - _)%nat with 1%nat by lia.
  - rewrite length_wire_long by lia. cbn [List.length]. split; [lia|]. by replace (_ - _)%nat with 2%nat by lia.
Qed.

(** Reading an item back, wherever it stands, with its value at hand. *)
Lemma decode_wire pre ty v post r :
  rcd_buffer r = Some (pre ++ wire ty v ++ post) -> rcd_index r = Z.of_nat (List.length pre) ->
  is_u8 (rcd_length r) -> rcd_index r + Z.of_nat (List.length (wire ty v)) <= rcd_length r ->
  0 <= ty <= 31 -> v <> [] ->
  PosLibTlv_Decode_getNextItem r =
    Some (POSLIB_TLV_RES_OK, at_index (rcd_index r + Z.of_nat (List.length (wire ty v))) r,
          Some {| type := ty; value := Some (v ++ post); length := Z.of_nat (List.length v) |}).
Proof.
  intros Hb Hi Hu Hn Ht Hv. unfold fits in Hu. unfold PosLibTlv_Decode_getNextItem.
  assert (0 < List.length v)%nat by (destruct v; [done|cbn; lia]). pose proof (pos_length_wire ty v) as Hlw.
  rewrite (proj2 (Z.leb_gt _ _)), (proj2 (Z.ltb_ge _ MINIMAL_POSLIB_TLV_SIZE)) by (unfold MINIMAL_POSLIB_TLV_SIZE; lia).
  rewrite (decode_header_wire pre ty v post r Hb Hi) by (done || unfold fits; lia). cbn [mbind option_bind].
  destruct (header_index pre ty v) as [Hx Hd]. set (i := if (_ <=? 7)%nat then _ else _) in *.
  rewrite (proj2 (Z.leb_le _ _)) by lia. unfold at_index. cbn [rcd_index rcd_buffer rcd_length].
  rewrite Hb. cbn [fmap option_fmap option_map]. rewrite (uwrap_small 8 (i + 1)), !(uwrap_small 8) by (unfold fits; lia).
  do 3 f_equal; [f_equal; lia|]. do 3 f_equal. rewrite drop_app_ge by lia.
  replace (_ - _)%nat with (List.length (wire ty v) - List.length v)%nat by lia.
  rewrite drop_app_le by lia. by rewrite Hd.
Qed.

(** Decoding goes on: the index grows with every item, by more than the value. *)
Lemma header_progress r mem ty len i :
  rcd_buffer r = Some mem -> bytes mem -> 0 <= rcd_index r < 255 ->
  decode_header r = Some (ty, len, i) -> is_u8 ty /\ is_u8 len /\ rcd_index r <= i <= rcd_index r + 1.
Proof.
  intros Hb Hm Hi. unfold decode_header, byte_at. rewrite Hb. cbn [mbind option_bind].
  destruct (mem !! Z.to_nat (rcd_index r)) as [t|] eqn:Et; [|done]. cbn [mbind option_bind].
  pose proof (Forall_lookup_1 _ _ _ _ Hm Et) as Ht. destruct (_ =? 0).
  - rewrite uwrap_small by (unfold fits; lia).
    destruct (mem !! Z.to_nat (rcd_index r + 1)) as [n|] eqn:En; [|done]. cbn [mbind option_bind]. intros [= <- <- <-].
    pose proof (Forall_lookup_1 _ _ _ _ Hm En) as Hn. split_and!; [done..|lia|lia].
  - intros [= <- <- <-]. split; [by apply fits_land_l|]. split; [|lia].
    assert (Hd : Z.shiftr t 5 = t / 32) by by rewrite Z.shiftr_div_pow2.
    rewrite Hd. unfold fits in *. split; [apply Z.div_pos; lia|].
    apply Z.div_lt_upper_bound; lia.
Qed.

Lemma getNextItem_progress r mem r' item :
  rcd_buffer r = Some mem -> bytes mem -> 0 <= rcd_index r -> rcd_length r < 255 ->
  PosLibTlv_Decode_getNextItem r = Some (POSLIB_TLV_RES_OK, r', item) ->
  rcd_index r < rcd_index r' <= rcd_length r + 1 /\ rcd_length r' = rcd_length r /\ rcd_buffer r' = Some mem.
Proof.
  intros Hb Hm Hi Hl. unfold PosLibTlv_Decode_getNextItem, MINIMAL_POSLIB_TLV_SIZE.
  destruct (Z.leb_spec (rcd_length r) (rcd_index r)); [done|]. destruct (Z.ltb_spec (rcd_length r - rcd_index r) 2); [done|].
  destruct (decode_header r) as [[[ty len] i]|] eqn:E; [|done]. cbn [mbind option_bind].
  destruct (header_progress r mem ty len i Hb Hm ltac:(lia) E) as (_ & Hlen & Hr). unfold fits in Hlen.
  destruct (Z.leb_spec len (rcd_length r - i)); [|done]. intros [= <- <-].
  unfold at_index. cbn [rcd_index rcd_length rcd_buffer].
  rewrite (uwrap_small 8 (i + 1)), uwrap_small by (unfold fits; lia). split; [lia|done].
Qed.

(** The end of the record. *)
Lemma decode_end r : rcd_length r <= rcd_index r -> PosLibTlv_Decode_getNextItem r = Some (POSLIB_TLV_RES_END, r, None).
Proof. intros. unfold PosLibTlv_Decode_getNextItem. by rewrite (proj2 (Z.leb_le _ _)) by lia. Qed.

(** ** Lists of items *)

Abbreviation items := (list (Z * list Z)).

Definition wires (l : items) : list Z := concat (map (fun '(ty, v) => wire ty v) l).

(** The items that [addItem] takes, one after the other, in so much room. *)
Fixpoint fitted (room : Z) (l : items) : items :=
  match l with
  | [] => []
  | (ty, v) :: l =>
      let n := Z.of_nat (List.length (wire ty v)) in
      if n <=? room then (ty, v) :: fitted (room - n) l else fitted room l
  end.

Lemma length_wires_fitted room l : 0 <= room -> Z.of_nat (List.length (wires (fitted room l))) <= room.
Proof.
  revert room. induction l as [|[ty v] l IH]; intros room Hr; [done|]. cbn [fitted].
  destruct (Z.leb_spec (Z.of_nat (List.length (wire ty v))) room) as [H|H]; [|by apply IH].
  unfold wires. cbn [map concat]. rewrite length_app. specialize (IH (room - Z.of_nat (List.length (wire ty v)))). unfold wires in IH. lia.
Qed.

Lemma fitted_sub room l x : x ∈ fitted room l -> x ∈ l.
Proof.
  revert room. induction l as [|[ty v] l IH]; intros room; [done|]. cbn [fitted].
  destruct (_ <=? _); [|by right; eapply IH]. intros [->|H]%elem_of_cons; [by left|right; by eapply IH].
Qed.

Lemma fitted_all room l : Z.of_nat (List.length (wires l)) <= room -> fitted room l = l.
Proof.
  revert room. induction l as [|[ty v] l IH]; intros room; [done|]. unfold wires. cbn [map concat fitted]. rewrite length_app.
  intros H. rewrite (proj2 (Z.leb_le _ _)) by lia. f_equal. apply IH. unfold wires. lia.
Qed.

Lemma advance_nil b r : encodes r b -> advance [] b r = r.
Proof.
  intros [Hb _ _ _]. unfold advance. rewrite blit_nil. cbn. rewrite Z.add_0_r, <- Hb. by destruct r.
Qed.

(** One more item: what the record becomes when the rest of the list is added to it. *)
Lemma add_step item v b r l :
  encodes r b -> item_wf item v ->
  exists res r' b', PosLibTlv_Encode_addItem r item = Some (res, r') /\ encodes r' b' /\
    advance (wires (fitted (rcd_length r - rcd_index r) ((type item, v) :: l))) b r =
    advance (wires (fitted (rcd_length r' - rcd_index r') l)) b' r'.
Proof.
  intros He Hi. rewrite (pos_addItem_spec item v b r He Hi). cbn [fitted].
  set (w := wire (type item) v).
  destruct (Z.leb_spec (rcd_index r + Z.of_nat (List.length w)) (rcd_length r)) as [H|H].
  - destruct (put_spec w b r He H) as [_ He']. exists POSLIB_TLV_RES_OK, (advance w b r). eexists. split; [done|]. split; [done|].
    rewrite (proj2 (Z.leb_le _ _)) by lia. unfold wires at 1. cbn [map concat]. fold w.
    cbn [advance rcd_length rcd_index].
    replace (rcd_length r - (rcd_index r + Z.of_nat (List.length w))) with (rcd_length r - rcd_index r - Z.of_nat (List.length w)) by lia.
    fold (wires (fitted (rcd_length r - rcd_index r - Z.of_nat (List.length w)) l)).
    pose proof (length_wires_fitted (rcd_length r - rcd_index r - Z.of_nat (List.length w)) l ltac:(lia)).
    symmetry. apply advance_advance; [done|lia].
  - exists POSLIB_TLV_RES_ERROR, r, b. split; [done|]. split; [done|]. by rewrite (proj2 (Z.leb_gt _ _)) by lia.
Qed.

Lemma item_bytes_some ty v n :
  0 <= n <= Z.of_nat (List.length v) ->
  item_bytes {| type := ty; value := Some v; length := n |} = Some (take (Z.to_nat n) v).
Proof. intros. unfold item_bytes. cbn [mbind option_bind value length]. by rewrite (proj2 (Nat.ltb_ge _ _)) by lia. Qed.

Lemma item_bytes_app ty v post :
  item_bytes {| type := ty; value := Some (v ++ post); length := Z.of_nat (List.length v) |} = Some v.
Proof. rewrite item_bytes_some by (rewrite length_app; lia). by rewrite Nat2Z.id, take_app_length. Qed.

Lemma pos_wires_cons ty v l : wires ((ty, v) :: l) = wire ty v ++ wires l.
Proof. done. Qed.

Lemma length_wires l : (List.length l <= List.length (wires l))%nat.
Proof.
  induction l as [|[ty v] l IH]; [done|]. rewrite pos_wires_cons, length_app. cbn [List.length].
  pose proof (pos_length_wire ty v). lia.
Qed.

Lemma length_fitted room l : (List.length (fitted room l) <= List.length l)%nat.
Proof.
  revert room. induction l as [|[ty v] l IH]; intros room; [done|]. cbn [fitted].
  destruct (_ <=? _); cbn [List.length]; [specialize (IH (room - Z.of_nat (List.length (wire ty v))))|specialize (IH room)]; lia.
Qed.

(** With one readable byte behind the record no read is a fault, and the value
    of an item can be read. *)
Record readable (r : poslib_tlv_record) (mem : list Z) : Prop := {
  rd_buffer : rcd_buffer r = Some mem;
  rd_bytes : bytes mem;
  rd_index : 0 <= rcd_index r;
  rd_length : rcd_length r < 255;
  rd_room : rcd_length r < Z.of_nat (List.length mem) }.

Lemma byte_at_some r mem i :
  rcd_buffer r = Some mem -> 0 <= i < Z.of_nat (List.length mem) -> exists x, byte_at r i = Some x.
Proof.
  intros Hb Hi. unfold byte_at. rewrite Hb. cbn [mbind option_bind].
  destruct (mem !! Z.to_nat i) eqn:E; [by eexists|]. apply lookup_ge_None_1 in E. lia.
Qed.

Lemma decode_header_some r mem :
  readable r mem -> rcd_index r + 2 <= rcd_length r -> exists x, decode_header r = Some x.
Proof.
  intros [Hb _ Hi Hl Hr] H. unfold decode_header.
  destruct (byte_at_some r mem (rcd_index r) Hb ltac:(lia)) as [x ->]. cbn [mbind option_bind].
  destruct (_ =? 0); [|by eexists]. rewrite uwrap_small by (unfold fits; lia).
  destruct (byte_at_some r mem (rcd_index r + 1) Hb ltac:(lia)) as [y ->]. by eexists.
Qed.

Lemma getNextItem_readable r mem :
  readable r mem ->
  exists res r' item, PosLibTlv_Decode_getNextItem r = Some (res, r', item) /\
    (res = POSLIB_TLV_RES_OK ->
     rcd_index r < rcd_length r /\ rcd_index r < rcd_index r' /\ rcd_length r' = rcd_length r /\ readable r' mem /\
     exists x v, item = Some x /\ item_bytes x = Some v /\ bytes v /\ is_u8 (type x) /\ is_u8 (length x)).
Proof.
  intros Hr. pose proof Hr as [Hb Hm Hi Hl Hs]. unfold PosLibTlv_Decode_getNextItem.
  destruct (Z.leb_spec (rcd_length r) (rcd_index r)); [by eexists _, _, _|].
  unfold MINIMAL_POSLIB_TLV_SIZE. destruct (Z.ltb_spec (rcd_length r - rcd_index r) 2); [by eexists _, _, _|].
  destruct (decode_header_some r mem Hr ltac:(lia)) as [[[ty len] i] E]. rewrite E. cbn [mbind option_bind].
  destruct (header_progress r mem ty len i Hb Hm ltac:(lia) E) as (Ht & Hlen & Hr'). unfold fits in Hlen.
  destruct (Z.leb_spec len (rcd_length r - i)); [|by eexists _, _, _].
  eexists _, _, _. split; [done|]. intros _. unfold at_index. cbn [rcd_index rcd_length rcd_buffer].
  rewrite (uwrap_small 8 (i + 1)), uwrap_small by (unfold fits; lia).
  split_and!; [lia|lia|done|by constructor; cbn [rcd_index rcd_length rcd_buffer]; try lia|].
  rewrite Hb. eexists _, (take (Z.to_nat len) (drop (Z.to_nat (i + 1)) mem)). split; [done|].
  split; [|split; [by apply Forall_take, Forall_drop|done]]. apply item_bytes_some. rewrite length_drop. lia.
Qed.

(** Items that the encoder takes. *)
Definition cmd_wf (x : Z * list Z) : Prop := 0 <= x.1 <= 31 /\ x.2 <> [] /\ bytes x.2.

Lemma wires_bytes l : Forall cmd_wf l -> (List.length (wires l) < 256)%nat -> bytes (wires l).
Proof.
  induction 1 as [|[ty v] l (Ht & _ & Hb) _ IH]; [intros; constructor|]. rewrite pos_wires_cons, length_app. intros Hl.
  pose proof (pos_length_wire ty v). apply Forall_app. split; [apply pos_wire_bytes; (done || lia)|apply IH; lia].
Qed.
