(* ===== verification/PosMbcn.v ===== *)
(** * Mini-beacons

    [libraries/positioning/poslib/poslib_mbcn.c]: packets that an anchor
    broadcasts at an interval, with optional records of 16 bytes at most, and
    their decoding by who hears them.  The task and the data service are
    parameters. *)

From S2P Require Import Prelude PosTlv Api.

Definition POSLIB_MBCN_INVALID_TYPE : Z := 0.
Definition POSLIB_MBCN_TX_INTERVAL : Z := 1.
Definition POSLIB_MBCN_FEATURES : Z := 2.
Definition POSLIB_MBCN_AREA_ID : Z := 3.
Definition POSLIB_MBCN_FLOOR_ID : Z := 4.
Definition POSLIB_MBCN_X : Z := 5.
Definition POSLIB_MBCN_Y : Z := 6.
Definition POSLIB_MBCN_Z : Z := 7.
Definition POSLIB_MBCN_CUSTOM_1 : Z := 16.
Definition POSLIB_MBCN_CUSTOM_2 : Z := 17.
Definition POSLIB_MBCN_CUSTOM_3 : Z := 18.
Definition POSLIB_MBCN_CUSTOM_4 : Z := 19.
Definition POSLIB_MBCN_MAX_TYPE : Z := 31.
Definition POSLIB_MBCN_RECORD_MAX_SIZE : nat := 16.
Definition POSLIB_MBCN_RECORDS : nat := 8.
Definition POSLIB_MBCN_SRC_EP : Z := 238.
Definition POSLIB_MBCN_DEST_EP : Z := 238.
(** [sizeof(m_payload.data)] *)
Definition MBCN_DATA_SIZE : nat := 100.
(** [app_lib_data_qos_e] and [app_lib_data_send_flags_e] *)
Definition APP_LIB_DATA_QOS_NORMAL : Z := 0.
Definition APP_LIB_DATA_SEND_NW_CH_ONLY : Z := 16.

Record poslib_mbcn_record_t := { mb_type : Z; mb_length : Z; mb_value : list Z }.

(** [sizeof] such a record, and that of an array of them. *)
Definition RECORD_SIZE : nat := 2 + POSLIB_MBCN_RECORD_MAX_SIZE.
Definition RECORDS_SIZE : nat := POSLIB_MBCN_RECORDS * RECORD_SIZE.

Record poslib_mbcn_config_t := {
  mb_enabled : bool; mb_tx_interval_ms : Z; mb_records : list poslib_mbcn_record_t }.

Record poslib_mbcn_data_t := {
  md_seq : Z; md_tx_interval_ms : Z; md_features : Z; md_records : list poslib_mbcn_record_t }.

Record poslib_mbcn_payload_t := { p_seq : Z; p_data : list Z }.

Section Mbcn.
Context {W : Type}.

Record state := {
  m_payload : poslib_mbcn_payload_t;
  m_mbcn : app_lib_data_to_send_t;
  m_settings : poslib_mbcn_config_t;
  m_started : bool;
  world : W }.

(** The scheduler and [Shared_Data_sendData(data, NULL)]. *)
Record env := {
  add_mbcn_task : Z -> Z -> W -> bool * W;
  cancel_mbcn_task : W -> W;
  sendData : app_lib_data_to_send_t -> W -> Z * W }.

Abbreviation M := (sf state).

Definition set_payload (p : poslib_mbcn_payload_t) (s : state) : state :=
  {| m_payload := p; m_mbcn := m_mbcn s; m_settings := m_settings s; m_started := m_started s; world := world s |}.
Definition set_mbcn (d : app_lib_data_to_send_t) (s : state) : state :=
  {| m_payload := m_payload s; m_mbcn := d; m_settings := m_settings s; m_started := m_started s; world := world s |}.
Definition set_settings (c : poslib_mbcn_config_t) (s : state) : state :=
  {| m_payload := m_payload s; m_mbcn := m_mbcn s; m_settings := c; m_started := m_started s; world := world s |}.
Definition set_started (b : bool) (s : state) : state :=
  {| m_payload := m_payload s; m_mbcn := m_mbcn s; m_settings := m_settings s; m_started := b; world := world s |}.
Definition set_world (w : W) (s : state) : state :=
  {| m_payload := m_payload s; m_mbcn := m_mbcn s; m_settings := m_settings s; m_started := m_started s; world := w |}.

(** A call of the surroundings. *)
Definition calls {A} (f : W -> A * W) : M A :=
  fun s => Some ((f (world s)).1, set_world (f (world s)).2 s).

(** The bytes of [m_payload]. *)
Definition image (p : poslib_mbcn_payload_t) : list Z := le_put 2 (p_seq p) ++ p_data p.

(** [m_mbcn.bytes] points at [m_payload], so the bytes are those it has when it is sent. *)
Definition frame (s : state) : app_lib_data_to_send_t :=
  let d := m_mbcn s in
  {| to_bytes := image (m_payload s); to_num_bytes := to_num_bytes d; to_dest_address := to_dest_address d;
     to_delay := to_delay d; to_tracking_id := to_tracking_id d; to_qos := to_qos d; to_flags := to_flags d;
     to_src_endpoint := to_src_endpoint d; to_dest_endpoint := to_dest_endpoint d;
     to_hop_limit := to_hop_limit d; to_fragment_info := to_fragment_info d |}.

Definition mbcn_task (E : env) : M Z :=
  _ ← puts (fun s => set_payload {| p_seq := u16 (p_seq (m_payload s) + 1); p_data := p_data (m_payload s) |} s);
  d ← asks frame;
  _ ← calls (sendData E d);
  asks (fun s => mb_tx_interval_ms (m_settings s)).

(** [PosLibTlv_Encode_addItem(&rcd, &item)], whose result is dropped. *)
Definition add_item (ty len : Z) (value : list Z) (r : poslib_tlv_record) : option poslib_tlv_record :=
  snd <$> PosLibTlv_Encode_addItem r {| type := ty; value := Some value; length := len |}.

Definition record_ok (x : poslib_mbcn_record_t) : bool :=
  negb (mb_type x =? POSLIB_MBCN_INVALID_TYPE) && (mb_type x <=? POSLIB_MBCN_MAX_TYPE) &&
  negb (mb_length x =? 0) && (mb_length x <=? Z.of_nat POSLIB_MBCN_RECORD_MAX_SIZE).

Fixpoint encode_records (l : list poslib_mbcn_record_t) (r : poslib_tlv_record) : option poslib_tlv_record :=
  match l with
  | [] => Some r
  | x :: l =>
      r ← (if record_ok x then add_item (mb_type x) (mb_length x) (mb_value x) r else Some r);
      encode_records l r
  end.

Definition encode_mbcn (settings : poslib_mbcn_config_t) (buf : list Z) (length : Z) : option poslib_tlv_record :=
  let r := PosLibTlv_init (Some buf) length in
  r ← add_item POSLIB_MBCN_TX_INTERVAL 2 (le_put 2 (mb_tx_interval_ms settings)) r;
  r ← add_item POSLIB_MBCN_FEATURES 2 (le_put 2 0) r;
  encode_records (mb_records settings) r.

Definition PosLibMbcn_stop (E : env) : M unit :=
  _ ← calls (fun w => (tt, cancel_mbcn_task E w));
  puts (set_started false).

(** The constant fields of the frame; [num_bytes] is set below. *)
Definition constant_fields (d : app_lib_data_to_send_t) : app_lib_data_to_send_t :=
  {| to_bytes := to_bytes d; to_num_bytes := to_num_bytes d; to_dest_address := APP_ADDR_BROADCAST;
     to_delay := 0; to_tracking_id := 0; to_qos := APP_LIB_DATA_QOS_NORMAL;
     to_flags := APP_LIB_DATA_SEND_NW_CH_ONLY;
     to_src_endpoint := POSLIB_MBCN_SRC_EP; to_dest_endpoint := POSLIB_MBCN_DEST_EP;
     to_hop_limit := 1; to_fragment_info := to_fragment_info d |}.

Definition set_num_bytes (n : Z) (d : app_lib_data_to_send_t) : app_lib_data_to_send_t :=
  {| to_bytes := to_bytes d; to_num_bytes := n; to_dest_address := to_dest_address d; to_delay := to_delay d;
     to_tracking_id := to_tracking_id d; to_qos := to_qos d; to_flags := to_flags d;
     to_src_endpoint := to_src_endpoint d; to_dest_endpoint := to_dest_endpoint d;
     to_hop_limit := to_hop_limit d; to_fragment_info := to_fragment_info d |}.

(** The payload content: a sequence of zero and the encoded settings. *)
Definition fill_payload (settings : poslib_mbcn_config_t) : M unit :=
  r ← reads (fun s => encode_mbcn settings (p_data (m_payload s)) (Z.of_nat MBCN_DATA_SIZE));
  b ← reads (fun _ => rcd_buffer r);
  _ ← puts (set_payload {| p_seq := 0; p_data := b |});
  puts (fun s => set_mbcn (set_num_bytes (2 + rcd_index r) (m_mbcn s)) s).

(** Add the task sending mini-beacons. *)
Definition add_task (E : env) (interval : Z) : M unit :=
  ok ← calls (add_mbcn_task E interval 50);
  puts (set_started ok).

Definition PosLibMbcn_start (E : env) (settings : poslib_mbcn_config_t) : M bool :=
  _ ← puts (set_settings settings);
  if negb (mb_enabled settings) then
    _ ← puts (set_started false);
    mret false
  else
    started ← asks m_started;
    _ ← (if (started : bool) then mret tt else puts (fun s => set_mbcn (constant_fields (m_mbcn s)) s));
    _ ← fill_payload settings;
    _ ← (if (started : bool) then mret tt else add_task E (mb_tx_interval_ms settings));
    asks m_started.

(** ** Decoding *)

Definition zero_record : poslib_mbcn_record_t :=
  {| mb_type := 0; mb_length := 0; mb_value := repeat 0 POSLIB_MBCN_RECORD_MAX_SIZE |}.

Definition set_interval (v : Z) (m : poslib_mbcn_data_t) : poslib_mbcn_data_t :=
  {| md_seq := md_seq m; md_tx_interval_ms := v; md_features := md_features m; md_records := md_records m |}.
Definition set_features (v : Z) (m : poslib_mbcn_data_t) : poslib_mbcn_data_t :=
  {| md_seq := md_seq m; md_tx_interval_ms := md_tx_interval_ms m; md_features := v; md_records := md_records m |}.
Definition set_records (l : list poslib_mbcn_record_t) (m : poslib_mbcn_data_t) : poslib_mbcn_data_t :=
  {| md_seq := md_seq m; md_tx_interval_ms := md_tx_interval_ms m; md_features := md_features m; md_records := l |}.

Definition known_type (ty : Z) : bool :=
  bool_decide (ty ∈ [POSLIB_MBCN_AREA_ID; POSLIB_MBCN_FLOOR_ID; POSLIB_MBCN_X; POSLIB_MBCN_Y; POSLIB_MBCN_Z;
                     POSLIB_MBCN_CUSTOM_1; POSLIB_MBCN_CUSTOM_2; POSLIB_MBCN_CUSTOM_3; POSLIB_MBCN_CUSTOM_4]).

(** The [switch] on the type of an item.  A write of a record behind the last one is a fault. *)
Definition store_item (item : poslib_tlv_item_t) (i : nat) (m : poslib_mbcn_data_t)
    : option (nat * poslib_mbcn_data_t) :=
  if type item =? POSLIB_MBCN_TX_INTERVAL then
    if length item =? 2 then v ← item_bytes item; Some (i, set_interval (le_get v) m) else Some (i, m)
  else if type item =? POSLIB_MBCN_FEATURES then
    if length item =? 2 then v ← item_bytes item; Some (i, set_features (le_get v) m) else Some (i, m)
  else if known_type (type item) then
    if length item <=? Z.of_nat POSLIB_MBCN_RECORD_MAX_SIZE then
      x ← md_records m !! i;
      v ← item_bytes item;
      let x := {| mb_type := type item; mb_length := length item; mb_value := blit 0 v (mb_value x) |} in
      Some (S i, set_records (<[i := x]> (md_records m)) m)
    else Some (i, m)
  else Some (i, m).

(** [while (i < sizeof(mbcn->records))] *)
Fixpoint decode_loop (fuel : nat) (r : poslib_tlv_record) (i : nat) (m : poslib_mbcn_data_t)
    : option (bool * poslib_mbcn_data_t) :=
  match fuel with
  | O => None
  | S fuel =>
      if (i <? RECORDS_SIZE)%nat then
        '(res, r, item) ← PosLibTlv_Decode_getNextItem r;
        match res, item with
        | POSLIB_TLV_RES_OK, Some item => '(i, m) ← store_item item i m; decode_loop fuel r i m
        | POSLIB_TLV_RES_ERROR, _ => Some (false, m)
        | _, _ => Some (true, m)
        end
      else Some (true, m)
  end.

(** Every item moves the index, so the loop has the length as fuel.  [buf] is the
    memory from its address on; the structure is returned, or [None] for [NULL]. *)
Definition PosLibMbcn_decode (buf : option (list Z)) (length : Z) (mbcn : option poslib_mbcn_data_t)
    : option (bool * option poslib_mbcn_data_t) :=
  match buf, mbcn with
  | Some buf, Some m =>
      if length <? 2 then Some (false, Some m)
      else
        if (List.length buf <? 2)%nat then None else
        let m := {| md_seq := field 0 2 buf; md_tx_interval_ms := md_tx_interval_ms m; md_features := md_features m;
                    md_records := repeat zero_record POSLIB_MBCN_RECORDS |} in
        '(ok, m) ← decode_loop (Z.to_nat length) (PosLibTlv_init (Some (drop 2 buf)) (length - 2)) 0 m;
        Some (ok, Some m)
  | _, _ => Some (false, mbcn)
  end.

(** * Properties *)

(** ** The fuel of the decoder *)

(** More fuel than bytes left gives the same result. *)
Lemma decode_loop_fuel f1 f2 mem r i m :
  rcd_buffer r = Some mem -> bytes mem -> 0 <= rcd_index r -> rcd_length r < 255 ->
  Z.max 0 (rcd_length r - rcd_index r) < Z.of_nat f1 -> (f1 <= f2)%nat ->
  decode_loop f2 r i m = decode_loop f1 r i m.
Proof.
  revert f2 r i m. induction f1 as [|f1 IH]; intros f2 r i m Hb Hm Hi Hl Hf Hle; [lia|].
  destruct f2 as [|f2]; [lia|]. cbn [decode_loop]. destruct (_ <? _)%nat; [|done].
  destruct (PosLibTlv_Decode_getNextItem r) as [[[res r'] item]|] eqn:E; [|done]. cbn [mbind option_bind].
  destruct res; [|done..]. destruct item as [item|]; [|done].
  destruct (getNextItem_progress r mem r' _ Hb Hm Hi Hl E) as (Hp & Hl' & Hb').
  assert (rcd_index r < rcd_length r).
  { destruct (Z_lt_le_dec (rcd_index r) (rcd_length r)); [done|]. by rewrite decode_end in E by done. }
  destruct (store_item item i m) as [[i' m']|]; [|done]. cbn [mbind option_bind]. apply IH; (done || lia).
Qed.

(** ** The payload *)

Record record_wf (x : poslib_mbcn_record_t) : Prop := {
  rec_type : is_u8 (mb_type x);
  rec_length : is_u8 (mb_length x);
  rec_size : List.length (mb_value x) = POSLIB_MBCN_RECORD_MAX_SIZE;
  rec_bytes : bytes (mb_value x) }.

Record settings_wf (c : poslib_mbcn_config_t) : Prop := {
  cfg_interval : is_u16 (mb_tx_interval_ms c);
  cfg_records : List.length (mb_records c) = POSLIB_MBCN_RECORDS;
  cfg_each : Forall record_wf (mb_records c);
  cfg_types : Forall (fun x => mb_type x <> POSLIB_MBCN_TX_INTERVAL /\ mb_type x <> POSLIB_MBCN_FEATURES) (mb_records c) }.

(** What a record holds. *)
Definition content (x : poslib_mbcn_record_t) : Z * list Z := (mb_type x, take (Z.to_nat (mb_length x)) (mb_value x)).

Definition record_items (l : list poslib_mbcn_record_t) : items := map content (filter record_ok l).

(** The records that are sent: the valid ones, in order, as long as there is room. *)
Definition sent_records (c : poslib_mbcn_config_t) : items :=
  fitted (Z.of_nat MBCN_DATA_SIZE - 6) (record_items (mb_records c)).

Definition payload_items (c : poslib_mbcn_config_t) : items :=
  (POSLIB_MBCN_TX_INTERVAL, le_put 2 (mb_tx_interval_ms c)) :: (POSLIB_MBCN_FEATURES, le_put 2 0) :: sent_records c.

Lemma record_ok_wf x :
  record_wf x -> record_ok x = true ->
  item_wf {| type := mb_type x; value := Some (mb_value x); length := mb_length x |} (content x).2.
Proof.
  intros [Ht Hl Hs Hb] Ho. unfold record_ok, POSLIB_MBCN_RECORD_MAX_SIZE, POSLIB_MBCN_MAX_TYPE in *. bool_props. unfold fits in *.
  constructor; cbn [content snd type length]; [lia|lia| |by apply Forall_take].
  apply item_bytes_some. lia.
Qed.

Lemma encode_records_spec l r b :
  encodes r b -> Forall record_wf l ->
  encode_records l r = Some (advance (wires (fitted (rcd_length r - rcd_index r) (record_items l))) b r).
Proof.
  intros He Hl. revert r b He. induction Hl as [|x l Hx _ IH]; intros r b He.
  { cbn. by rewrite (advance_nil b r He). }
  cbn [encode_records]. unfold record_items. rewrite filter_cons.
  destruct (record_ok x) eqn:Ho; cbn [decide].
  - destruct (add_step _ _ b r (record_items l) He (record_ok_wf x Hx Ho)) as (res & r' & b' & E & He' & Ha).
    unfold add_item. rewrite E. cbn [fmap option_fmap option_map snd mbind option_bind]. rewrite (IH r' b' He').
    case_decide; [|done]. cbn [map]. fold (record_items l). by rewrite <- Ha.
  - cbn [mbind option_bind]. case_decide; [done|]. by apply IH.
Qed.

Lemma le_put_item ty v :
  0 <= ty <= 31 -> item_wf {| type := ty; value := Some (le_put 2 v); length := 2 |} (le_put 2 v).
Proof. intros. constructor; cbn [type value length]; [done|lia|done|apply le_put_bytes]. Qed.

Lemma encode_mbcn_spec c b :
  List.length b = MBCN_DATA_SIZE -> settings_wf c ->
  encode_mbcn c b (Z.of_nat MBCN_DATA_SIZE) =
    Some (advance (wires (payload_items c)) b (PosLibTlv_init (Some b) (Z.of_nat MBCN_DATA_SIZE))).
Proof.
  intros Hb Hc. unfold encode_mbcn. set (r := PosLibTlv_init _ _).
  assert (He : encodes r b) by (constructor; cbn; [done|lia|done|lia]).
  destruct (add_step _ _ b r ((POSLIB_MBCN_FEATURES, le_put 2 0) :: record_items (mb_records c)) He
              (le_put_item POSLIB_MBCN_TX_INTERVAL (mb_tx_interval_ms c) ltac:(done))) as (res1 & r1 & b1 & E1 & He1 & H1).
  destruct (add_step _ _ b1 r1 (record_items (mb_records c)) He1 (le_put_item POSLIB_MBCN_FEATURES 0 ltac:(done)))
    as (res2 & r2 & b2 & E2 & He2 & H2).
  unfold add_item. rewrite E1. cbn [fmap option_fmap option_map snd mbind option_bind]. rewrite E2.
  cbn [fmap option_fmap option_map snd mbind option_bind].
  rewrite (encode_records_spec (mb_records c) r2 b2 He2) by apply Hc. f_equal. etransitivity; [symmetry; exact H2|].
  etransitivity; [symmetry; exact H1|]. done.
Qed.

(** ** Decoding what was encoded *)

(** What the decoder makes of an item. *)
Definition decoded (x : Z * list Z) : poslib_mbcn_record_t :=
  {| mb_type := x.1; mb_length := Z.of_nat (List.length x.2); mb_value := blit 0 x.2 (mb_value zero_record) |}.

Definition kept (l : items) : list poslib_mbcn_record_t := map decoded (filter (fun x => known_type x.1) l).

(** A list of records in the array of eight. *)
Definition in_array (l : list poslib_mbcn_record_t) : list poslib_mbcn_record_t :=
  l ++ repeat zero_record (POSLIB_MBCN_RECORDS - List.length l).

Record sendable (x : Z * list Z) : Prop := {
  snd_type : 2 < x.1 <= POSLIB_MBCN_MAX_TYPE;
  snd_length : (0 < List.length x.2 <= POSLIB_MBCN_RECORD_MAX_SIZE)%nat }.

Lemma insert_in_array l x :
  (List.length l < POSLIB_MBCN_RECORDS)%nat ->
  in_array l !! List.length l = Some zero_record /\ <[List.length l := x]> (in_array l) = in_array (l ++ [x]).
Proof.
  intros Hl. unfold in_array.
  destruct (POSLIB_MBCN_RECORDS - List.length l)%nat as [|k] eqn:Ek; [lia|]. cbn [repeat]. split.
  - by apply list_lookup_middle.
  - rewrite insert_app_r_alt, Nat.sub_diag by done. cbn. rewrite <- app_assoc, length_app. cbn.
    unfold POSLIB_MBCN_RECORDS in Ek. by replace (8 - (List.length l + 1))%nat with k by lia.
Qed.

Lemma kept_cons x l : kept (x :: l) = (if known_type x.1 then [decoded x] else []) ++ kept l.
Proof.
  unfold kept. rewrite filter_cons.
  destruct (decide _) as [H|H]; destruct (known_type x.1); [done|by destruct H|by destruct H; constructor|done].
Qed.

Lemma store_sendable ty v post l m :
  sendable (ty, v) -> md_records m = in_array l ->
  (List.length l + List.length (kept [(ty, v)]) <= POSLIB_MBCN_RECORDS)%nat ->
  store_item {| type := ty; value := Some (v ++ post); length := Z.of_nat (List.length v) |} (List.length l) m =
    Some (List.length (l ++ kept [(ty, v)]), set_records (in_array (l ++ kept [(ty, v)])) m).
Proof.
  intros [Ht Hl] Hm Hr. cbn [fst snd] in *. unfold store_item. cbn [type length].
  unfold POSLIB_MBCN_TX_INTERVAL, POSLIB_MBCN_FEATURES.
  rewrite (proj2 (Z.eqb_neq ty 1)), (proj2 (Z.eqb_neq ty 2)), item_bytes_app by lia.
  rewrite kept_cons in *. cbn [fst] in *. destruct (known_type ty) eqn:E; cbn [app kept map filter list_filter List.length] in *.
  - rewrite (proj2 (Z.leb_le _ _)) by lia. rewrite Hm.
    destruct (insert_in_array l (decoded (ty, v))) as [-> <-]; [lia|]. cbn [mbind option_bind].
    rewrite length_app. cbn [List.length]. by rewrite Nat.add_1_r.
  - rewrite app_nil_r. unfold set_records. rewrite <- Hm. by destruct m.
Qed.

Lemma store_interval v post i m :
  List.length v = 2%nat ->
  store_item {| type := POSLIB_MBCN_TX_INTERVAL; value := Some (v ++ post); length := Z.of_nat (List.length v) |} i m =
    Some (i, set_interval (le_get v) m).
Proof. intros Hv. unfold store_item. rewrite item_bytes_app. cbn [type length]. by rewrite Hv. Qed.

Lemma store_features v post i m :
  List.length v = 2%nat ->
  store_item {| type := POSLIB_MBCN_FEATURES; value := Some (v ++ post); length := Z.of_nat (List.length v) |} i m =
    Some (i, set_features (le_get v) m).
Proof. intros Hv. unfold store_item. rewrite item_bytes_app. cbn [type length]. by rewrite Hv. Qed.

Lemma decode_step fuel pre ty v post r i m :
  rcd_buffer r = Some (pre ++ wire ty v ++ post) -> rcd_index r = Z.of_nat (List.length pre) ->
  is_u8 (rcd_length r) -> rcd_index r + Z.of_nat (List.length (wire ty v)) <= rcd_length r ->
  0 <= ty <= 31 -> v <> [] -> (i <= POSLIB_MBCN_RECORDS)%nat ->
  decode_loop (S fuel) r i m =
    '(i, m) ← store_item {| type := ty; value := Some (v ++ post); length := Z.of_nat (List.length v) |} i m;
    decode_loop fuel (at_index (rcd_index r + Z.of_nat (List.length (wire ty v))) r) i m.
Proof.
  intros. cbn [decode_loop].
  rewrite (proj2 (Nat.ltb_lt _ _)) by (unfold RECORDS_SIZE, RECORD_SIZE, POSLIB_MBCN_RECORDS, POSLIB_MBCN_RECORD_MAX_SIZE in *; lia).
  by rewrite (decode_wire pre ty v post r).
Qed.

Lemma decode_records fuel pre l post r done m :
  rcd_buffer r = Some (pre ++ wires l ++ post) -> rcd_index r = Z.of_nat (List.length pre) ->
  rcd_length r = Z.of_nat (List.length (pre ++ wires l)) -> is_u8 (rcd_length r) ->
  Forall sendable l -> md_records m = in_array done ->
  (List.length done + List.length (kept l) <= POSLIB_MBCN_RECORDS)%nat -> (List.length l < fuel)%nat ->
  decode_loop fuel r (List.length done) m = Some (true, set_records (in_array (done ++ kept l)) m).
Proof.
  intros Hb Hi Hn Hu Hl. revert pre r done m fuel Hb Hi Hn Hu.
  induction Hl as [|[ty v] l Hx Hl IH]; intros pre r done m fuel Hb Hi Hn Hu Hm Hd Hf.
  - destruct fuel as [|fuel]; [lia|]. cbn [decode_loop].
    rewrite (proj2 (Nat.ltb_lt _ _)) by (unfold RECORDS_SIZE, RECORD_SIZE, POSLIB_MBCN_RECORDS, POSLIB_MBCN_RECORD_MAX_SIZE in *; lia).
    rewrite decode_end by (rewrite Hn, Hi, length_app; cbn; lia). cbn [mbind option_bind].
    unfold kept. cbn. rewrite app_nil_r. do 2 f_equal. rewrite <- Hm. by destruct m.
  - destruct fuel as [|fuel]; [cbn in Hf; lia|].
    unfold wires in Hb, Hn. cbn [map concat] in Hb, Hn. fold (wires l) in Hb, Hn.
    rewrite (decode_step fuel pre ty v (wires l ++ post) r);
      [|by rewrite Hb, <- app_assoc|done|done|rewrite Hn, !length_app; lia
       |destruct Hx as [Ht _]; unfold POSLIB_MBCN_MAX_TYPE in Ht; cbn in Ht; lia
       |by destruct v as [|]; [destruct Hx as [_ [? _]]; cbn in *; lia|]|lia].
    assert (Hk : kept ((ty, v) :: l) = kept [(ty, v)] ++ kept l) by (rewrite !kept_cons; cbn [kept filter list_filter map]; by rewrite app_nil_r).
    rewrite Hk in *. rewrite length_app in Hd.
    rewrite (store_sendable ty v (wires l ++ post) done m Hx Hm) by lia. cbn [mbind option_bind].
    unfold fits in Hu. rewrite !length_app in Hn.
    rewrite (IH (pre ++ wire ty v)).
    + by rewrite <- app_assoc.
    + cbn. by rewrite Hb, <- !app_assoc.
    + cbn. rewrite uwrap_small by (unfold fits; lia). rewrite Hi, length_app. lia.
    + cbn. rewrite Hn, !length_app. lia.
    + done.
    + done.
    + rewrite length_app. lia.
    + cbn in Hf. lia.
Qed.

Lemma sent_records_ok c :
  settings_wf c -> Forall sendable (sent_records c) /\ (List.length (kept (sent_records c)) <= POSLIB_MBCN_RECORDS)%nat.
Proof.
  intros [_ Hn He Ht]. unfold sent_records. split.
  - apply Forall_forall. intros x Hx%fitted_sub. unfold record_items in Hx.
    apply list_elem_of_fmap in Hx as (y & -> & Hy). apply list_elem_of_filter in Hy as [Ho Hy].
    rewrite Forall_forall in He, Ht. specialize (He y Hy). specialize (Ht y Hy). destruct He as [Hty Hl Hs _].
    apply Is_true_true in Ho. unfold record_ok, POSLIB_MBCN_INVALID_TYPE, POSLIB_MBCN_RECORD_MAX_SIZE in *.
    unfold POSLIB_MBCN_TX_INTERVAL, POSLIB_MBCN_FEATURES in Ht. bool_props. unfold fits in *.
    constructor; cbn [content fst snd]; [lia|]. rewrite length_take. unfold POSLIB_MBCN_RECORD_MAX_SIZE. lia.
  - unfold kept. rewrite length_map. etransitivity; [apply length_filter|]. etransitivity; [apply length_fitted|].
    unfold record_items. rewrite length_map. etransitivity; [apply length_filter|]. by rewrite Hn.
Qed.

Lemma length_payload c : (List.length (wires (payload_items c)) <= MBCN_DATA_SIZE)%nat.
Proof.
  unfold payload_items. rewrite !pos_wires_cons, !length_app. unfold sent_records.
  pose proof (length_wires_fitted (Z.of_nat MBCN_DATA_SIZE - 6) (record_items (mb_records c)) ltac:(done)) as H.
  change (List.length (wire POSLIB_MBCN_TX_INTERVAL (le_put 2 (mb_tx_interval_ms c)))) with 3%nat.
  change (List.length (wire POSLIB_MBCN_FEATURES (le_put 2 0))) with 3%nat. unfold MBCN_DATA_SIZE in *. lia.
Qed.

(** What the decoder returns for the payload of the settings. *)
Definition received (seq : Z) (c : poslib_mbcn_config_t) : poslib_mbcn_data_t :=
  {| md_seq := seq; md_tx_interval_ms := mb_tx_interval_ms c; md_features := 0;
     md_records := in_array (kept (sent_records c)) |}.

Lemma decode_payload c fuel post m :
  settings_wf c -> md_records m = repeat zero_record POSLIB_MBCN_RECORDS ->
  (List.length (payload_items c) < fuel)%nat ->
  decode_loop fuel (PosLibTlv_init (Some (wires (payload_items c) ++ post)) (Z.of_nat (List.length (wires (payload_items c))))) 0 m =
    Some (true, received (md_seq m) c).
Proof.
  intros Hc Hm Hf. pose proof (length_payload c) as Hp. destruct (sent_records_ok c Hc) as [Hs Hk].
  destruct fuel as [|[|fuel]]; [cbn in Hf; lia..|]. unfold payload_items in *. rewrite !pos_wires_cons, !length_app in *.
  set (w1 := wire POSLIB_MBCN_TX_INTERVAL _) in *. set (w2 := wire POSLIB_MBCN_FEATURES _) in *.
  set (l := sent_records c) in *. unfold MBCN_DATA_SIZE in Hp.
  assert (E1 : List.length w1 = 3%nat) by done. assert (E2 : List.length w2 = 3%nat) by done. rewrite E1, E2 in *.
  set (n := Z.of_nat _). assert (Hn : n = 6 + Z.of_nat (List.length (wires l))) by lia.
  assert (Hu : is_u8 n) by (unfold fits; lia).
  set (r := PosLibTlv_init _ _).
  assert (Hr1 : rcd_index r + Z.of_nat (List.length w1) <= rcd_length r) by (rewrite E1; change (3 <= n); lia).
  rewrite (decode_step (S fuel) [] POSLIB_MBCN_TX_INTERVAL (le_put 2 (mb_tx_interval_ms c)) (w2 ++ wires l ++ post) r);
    [|by cbn; rewrite <- !app_assoc|done|done|exact Hr1|done|done|cbn; lia].
  rewrite store_interval by done. cbn [mbind option_bind]. fold w1. rewrite E1.
  rewrite (decode_step fuel w1 POSLIB_MBCN_FEATURES (le_put 2 0) (wires l ++ post));
    [|by cbn; rewrite <- !app_assoc|done|done|fold w2; rewrite E2; change (3 + 3 <= n); lia|done|done|cbn; lia].
  rewrite store_features by done. cbn [mbind option_bind]. fold w2. rewrite E2.
  rewrite (decode_records fuel (w1 ++ w2) l post _ []); [|by cbn; rewrite <- !app_assoc|done| |done|done|done|done|cbn in Hf; lia].
  - unfold received, set_records. cbn [md_seq md_tx_interval_ms md_features set_interval set_features app].
    rewrite le_get_put, uwrap_small by apply Hc. done.
  - cbn [at_index rcd_length r PosLibTlv_init]. subst n. rewrite !length_app, E1, E2. lia.
Qed.

Lemma decode_spec c seq post m :
  settings_wf c -> is_u16 seq ->
  PosLibMbcn_decode (Some (le_put 2 seq ++ wires (payload_items c) ++ post))
      (2 + Z.of_nat (List.length (wires (payload_items c)))) (Some m) = Some (true, Some (received seq c)).
Proof.
  intros Hc Hseq. unfold PosLibMbcn_decode. rewrite (proj2 (Z.ltb_ge _ 2)) by lia.
  rewrite (proj2 (Nat.ltb_ge _ 2)) by (rewrite length_app, length_le_put; lia).
  replace (drop 2 _) with (wires (payload_items c) ++ post) by by rewrite drop_app_length' by done.
  replace (2 + _ - 2) with (Z.of_nat (List.length (wires (payload_items c)))) by lia.
  assert (Hf : field 0 2 (le_put 2 seq ++ wires (payload_items c) ++ post) = seq).
  { unfold field, slice. rewrite drop_0, take_app_length' by done. rewrite le_get_put. by apply uwrap_small. }
  rewrite Hf. rewrite decode_payload; [done|done|done|].
  pose proof (length_wires (payload_items c)). lia.
Qed.

(** ** Sending *)

(** The frame holds the payload of the settings. *)
Definition carries (c : poslib_mbcn_config_t) (s : state) : Prop :=
  m_settings s = c /\ to_num_bytes (m_mbcn s) = 2 + Z.of_nat (List.length (wires (payload_items c))) /\
  is_u16 (p_seq (m_payload s)) /\ exists rest, p_data (m_payload s) = wires (payload_items c) ++ rest.

Fixpoint ticks (E : env) (k : nat) : M unit :=
  match k with O => mret tt | S k => _ ← mbcn_task E; ticks E k end.

(** What the next task sends: [frame] with the next sequence. *)
Definition next_frame (s : state) : app_lib_data_to_send_t :=
  frame (set_payload {| p_seq := u16 (p_seq (m_payload s) + 1); p_data := p_data (m_payload s) |} s).

Lemma mbcn_task_spec E c s :
  carries c s ->
  exists s', mbcn_task E s = Some (mb_tx_interval_ms c, s') /\ carries c s' /\
    p_seq (m_payload s') = u16 (p_seq (m_payload s) + 1) /\ world s' = (sendData E (next_frame s) (world s)).2.
Proof.
  intros (<- & Hn & Hu & rest & Hd). unfold mbcn_task. rewrite putsE, asksE. fold (next_frame s).
  eexists. split; [|split; [|split]]; [reflexivity| |done|done].
  split_and!; [done|done|by apply (uwrap_range 16)|by exists rest].
Qed.

Lemma ticks_spec E c k s :
  carries c s ->
  exists s', ticks E k s = Some (tt, s') /\ carries c s' /\
    p_seq (m_payload s') = u16 (p_seq (m_payload s) + Z.of_nat k).
Proof.
  revert s. induction k as [|k IH]; intros s Hs.
  - exists s. split_and!; [done|apply Hs..|]. rewrite Z.add_0_r. symmetry. apply uwrap_small, Hs.
  - destruct (mbcn_task_spec E c s Hs) as (s1 & E1 & Hs1 & Hq & _). destruct (IH s1 Hs1) as (s2 & E2 & Hs2 & Hq2).
    exists s2. cbn [ticks]. rewrite (sf_bindE _ _ _ _ _ E1), E2. split_and!; [done|apply Hs2..|].
    rewrite Hq2, Hq, uwrap_add_l. f_equal. lia.
Qed.

Lemma fill_payload_spec c s :
  settings_wf c -> List.length (p_data (m_payload s)) = MBCN_DATA_SIZE -> m_settings s = c ->
  exists s', fill_payload c s = Some (tt, s') /\ carries c s' /\ p_seq (m_payload s') = 0 /\
    m_started s' = m_started s /\ world s' = world s.
Proof.
  intros Hc Hl Hs. unfold fill_payload. set (b := p_data (m_payload s)) in *.
  erewrite readsE by exact (encode_mbcn_spec c b Hl Hc). erewrite readsE by done. rewrite putsE.
  eexists. split; [reflexivity|]. split; [|done]. pose proof (length_payload c) as Hp. unfold MBCN_DATA_SIZE in *.
  split_and!; [done|done|done|].
  eexists. exact (blit_app 0 (wires (payload_items c)) b ltac:(lia)).
Qed.

Lemma start_spec E c s :
  settings_wf c -> List.length (p_data (m_payload s)) = MBCN_DATA_SIZE -> mb_enabled c = true ->
  exists ok s', PosLibMbcn_start E c s = Some (ok, s') /\ carries c s' /\ p_seq (m_payload s') = 0.
Proof.
  intros Hc Hl He. unfold PosLibMbcn_start. rewrite putsE, He. cbn [negb]. rewrite asksE.
  change (m_started (set_settings c s)) with (m_started s). destruct (m_started s) eqn:Est.
  - rewrite sf_retE. destruct (fill_payload_spec c (set_settings c s) Hc Hl eq_refl) as (s1 & E1 & H1 & Hq & _).
    rewrite (sf_bindE _ _ _ _ _ E1), sf_retE. by eexists _, s1.
  - rewrite putsE.
    destruct (fill_payload_spec c (set_mbcn (constant_fields (m_mbcn (set_settings c s))) (set_settings c s)) Hc Hl eq_refl)
      as (s1 & E1 & (H1 & H2 & H3 & H4) & Hq & _).
    rewrite (sf_bindE _ _ _ _ _ E1). eexists _, _. split; [reflexivity|]. by split_and!.
Qed.

Lemma frame_payload c s :
  carries c s ->
  take (Z.to_nat (to_num_bytes (next_frame s))) (to_bytes (next_frame s)) =
    le_put 2 (u16 (p_seq (m_payload s) + 1)) ++ wires (payload_items c).
Proof.
  intros (_ & Hn & _ & rest & Hd).
  change (to_num_bytes (next_frame s)) with (to_num_bytes (m_mbcn s)).
  change (to_bytes (next_frame s)) with (le_put 2 (u16 (p_seq (m_payload s) + 1)) ++ p_data (m_payload s)).
  rewrite Hn, Hd, app_assoc, take_app_length'; [done|]. rewrite length_app, length_le_put. lia.
Qed.

(** C16: what a mini-beacon says arrives: after a start with any settings and
    any number of earlier beacons, the task sends a packet of at most 102 bytes
    from which a receiver, whatever lies behind the packet in its memory,
    decodes without an error the number of the packet, the interval and, in
    order, the valid records that the payload had room for and whose types the
    decoder knows. *)
Theorem mbcn_roundtrip E c s k post m :
  settings_wf c -> List.length (p_data (m_payload s)) = MBCN_DATA_SIZE -> mb_enabled c = true ->
  exists ok s1 s2 s3 d,
    PosLibMbcn_start E c s = Some (ok, s1) /\ ticks E k s1 = Some (tt, s2) /\
    mbcn_task E s2 = Some (mb_tx_interval_ms c, s3) /\ world s3 = (sendData E d (world s2)).2 /\
    to_num_bytes d <= 102 /\
    PosLibMbcn_decode (Some (take (Z.to_nat (to_num_bytes d)) (to_bytes d) ++ post)) (to_num_bytes d) (Some m) =
      Some (true, Some (received (u16 (Z.of_nat k + 1)) c)).
Proof.
  intros Hc Hl He. destruct (start_spec E c s Hc Hl He) as (ok & s1 & E1 & H1 & Hq1).
  destruct (ticks_spec E c k s1 H1) as (s2 & E2 & H2 & Hq2).
  destruct (mbcn_task_spec E c s2 H2) as (s3 & E3 & _ & _ & Hw).
  exists ok, s1, s2, s3, (next_frame s2). split_and!; [done..| |].
  - change (to_num_bytes (m_mbcn s2) <= 102). destruct H2 as (_ & -> & _). pose proof (length_payload c) as Hp.
    unfold MBCN_DATA_SIZE in Hp. lia.
  - rewrite (frame_payload c s2 H2), Hq2, Hq1, uwrap_add_l, <- app_assoc.
    change (to_num_bytes (next_frame s2)) with (to_num_bytes (m_mbcn s2)). destruct H2 as (_ & -> & _).
    rewrite decode_spec; [done|done|by apply (uwrap_range 16)].
Qed.

End Mbcn.

Arguments state : clear implicits.
Arguments env : clear implicits.

(** ** Examples *)

Module Examples.

Definition env0 : env (list app_lib_data_to_send_t) := {|
  add_mbcn_task := fun _ _ w => (true, w);
  cancel_mbcn_task := fun w => w;
  sendData := fun d w => (0, w ++ [d]) |}.

Definition data0 : app_lib_data_to_send_t :=
  {| to_bytes := []; to_num_bytes := 0; to_dest_address := 0; to_delay := 0; to_tracking_id := 0; to_qos := 0;
     to_flags := 0; to_src_endpoint := 0; to_dest_endpoint := 0; to_hop_limit := 0;
     to_fragment_info := {| packet_id := 0; fragment_offset := 0; last_fragment := false |} |}.

Definition rec (ty len : Z) : poslib_mbcn_record_t := {| mb_type := ty; mb_length := len; mb_value := seqZ 1 16 |}.

(** Five records, one of them of a type that the decoder skips, one that is not valid. *)
Definition settings0 : poslib_mbcn_config_t :=
  {| mb_enabled := true; mb_tx_interval_ms := 1000;
     mb_records := [rec 3 4; rec 8 2; rec 5 16; rec 0 1; rec 16 1; zero_record; zero_record; zero_record] |}.

Definition state0 : state (list app_lib_data_to_send_t) :=
  {| m_payload := {| p_seq := 0; p_data := repeat 0 MBCN_DATA_SIZE |}; m_mbcn := data0;
     m_settings := {| mb_enabled := false; mb_tx_interval_ms := 0; mb_records := [] |};
     m_started := false; world := [] |}.

Definition blank : poslib_mbcn_data_t :=
  {| md_seq := 0; md_tx_interval_ms := 0; md_features := 7; md_records := [] |}.

Lemma settings0_wf : settings_wf settings0.
Proof.
  constructor; [by unfold fits|done| |].
  - cbn. repeat (apply Forall_cons; split); [..|apply Forall_nil_2]; constructor; cbn; first [done | by apply (bool_decide_unpack _); vm_compute | byte_list].
  - cbn. repeat (apply Forall_cons; split); first [apply Forall_nil_2 | done].
Qed.

Lemma mbcn_roundtrip_witness :
  kept (sent_records settings0) = [decoded (3, [1; 2; 3; 4]); decoded (5, seqZ 1 16); decoded (16, [1])] /\
  exists ok s1 s2 s3 d,
    PosLibMbcn_start env0 settings0 state0 = Some (ok, s1) /\ ticks env0 3 s1 = Some (tt, s2) /\
    mbcn_task env0 s2 = Some (1000, s3) /\ world s3 = (sendData env0 d (world s2)).2 /\ to_num_bytes d <= 102 /\
    PosLibMbcn_decode (Some (take (Z.to_nat (to_num_bytes d)) (to_bytes d) ++ [255])) (to_num_bytes d) (Some blank) =
      Some (true, Some (received 4 settings0)).
Proof.
  split; [by vm_compute|].
  exact (mbcn_roundtrip env0 settings0 state0 3 [255] blank settings0_wf eq_refl eq_refl).
Defined.

(** The decoder's loop ends at the size of the array in bytes, so a ninth known
    record is written behind the array. *)
Lemma ninth_record_out_of_bounds :
  PosLibMbcn_decode (Some ([1; 0] ++ concat (repeat [32 + 3; 9] 8))) 18 (Some blank) <> None /\
  PosLibMbcn_decode (Some ([1; 0] ++ concat (repeat [32 + 3; 9] 9))) 20 (Some blank) = None.
Proof. by split; vm_compute. Qed.

(** An item whose length is one more than what is left of the packet is accepted:
    its last byte is the one behind the packet. *)
Lemma item_behind_the_packet :
  PosLibTlv_Decode_getNextItem (PosLibTlv_init (Some [3 * 32 + 5; 1; 2; 99]) 3) =
    Some (POSLIB_TLV_RES_OK, {| rcd_buffer := Some [3 * 32 + 5; 1; 2; 99]; rcd_length := 3; rcd_index := 4 |},
          Some {| type := 5; value := Some [1; 2; 99]; length := 3 |}).
Proof. by vm_compute. Qed.

(** Settings that disable the beacons while they are sent leave the task running. *)
Lemma disabled_still_sends :
  let off := {| mb_enabled := false; mb_tx_interval_ms := 1000; mb_records := mb_records settings0 |} in
  match (_ ← PosLibMbcn_start env0 settings0; _ ← PosLibMbcn_start env0 off; mbcn_task env0) state0 with
  | Some (interval, s) => interval = 1000 /\ List.length (world s) = 1%nat /\ m_started s = false
  | None => False
  end.
Proof. by vm_compute. Qed.

End Examples.
