(* ===== verification/PosDecode.v ===== *)
(** * The positioning app config

    [libraries/positioning/poslib/poslib_decode.c]: an app config holds records
    of a class, each of them a list of commands in the compact TLV of [PosTlv];
    a node applies the commands of the records for it, then those of its class.
    The two options of the build are arguments. *)

From S2P Require Import Prelude Tlv PosTlv PosMbcn.

(** ** Settings *)

Definition POSLIB_MIN_MEAS_RATE_S : Z := 8.
Definition POSLIB_MAX_MEAS_RATE_S : Z := 86400.

(** [poslib_mode_e] *)
Definition POSLIB_MODE_NRLS_TAG : Z := 1.
Definition POSLIB_MODE_AUTOSCAN_TAG : Z := 2.
Definition POSLIB_MODE_AUTOSCAN_ANCHOR : Z := 3.
Definition POSLIB_MODE_OPPORTUNISTIC_ANCHOR : Z := 4.
Definition POSLIB_MODE_DA_TAG : Z := 5.

(** [poslib_class_e] *)
Definition POSLIB_CLASS_NODE_SPECIFIC : Z := 0xF8.
Definition POSLIB_CLASS_DEFAULT : Z := 0xF9.
Definition POSLIB_CLASS_A : Z := 0xFA.
Definition POSLIB_CLASS_B : Z := 0xFB.
Definition POSLIB_CLASS_C : Z := 0xFC.
Definition POSLIB_CLASS_D : Z := 0xFD.
Definition POSLIB_CLASS_E : Z := 0xFE.
Definition POSLIB_CLASS_F : Z := 0xFF.

(** [poslib_ble_mode_e] *)
Definition POSLIB_BLE_OFF : Z := 0.
Definition POSLIB_BLE_ON : Z := 1.
Definition POSLIB_BLE_ON_WHEN_OFFLINE : Z := 2.

(** [app_lib_settings_role_e] *)
Definition APP_LIB_SETTINGS_ROLE_SINK_LE : Z := 0x00.
Definition APP_LIB_SETTINGS_ROLE_SINK_LL : Z := 0x10.
Definition APP_LIB_SETTINGS_ROLE_HEADNODE_LE : Z := 0x01.
Definition APP_LIB_SETTINGS_ROLE_HEADNODE_LL : Z := 0x11.
Definition APP_LIB_SETTINGS_ROLE_SUBNODE_LE : Z := 0x02.
Definition APP_LIB_SETTINGS_ROLE_SUBNODE_LL : Z := 0x12.
Definition APP_LIB_SETTINGS_ROLE_ADVERTISER : Z := 0x04.

(** [poslib_decode_msg_e] *)
Definition POSLIB_MEASUREMENT_RATE_STATIC : Z := 0x01.
Definition POSLIB_OPERATING_MODE : Z := 0x02.
Definition POSLIB_MEASUREMENT_RATE_DYNAMIC : Z := 0x03.
Definition POSLIB_OTAP : Z := 0x04.
Definition POSLIB_MEASUREMENT_RATE_OFFLINE : Z := 0x05.
Definition POSLIB_NODE_ADDR_SELECTION : Z := 0x06.
Definition POSLIB_BEACON : Z := 0x08.
Definition POSLIB_DEVICE_CLASS_CHANGE : Z := 0x0A.
Definition POSLIB_MOTION_THRESHOLD : Z := 0x0B.
Definition POSLIB_MOTION_DURATION : Z := 0x0C.
Definition POSLIB_LED_ON_DURATION : Z := 0x0E.
Definition POSLIB_LED_CMD_SEQ : Z := 0x0F.

Definition POSLIB_DECODE_BEACON_OFF : Z := 0.
Definition POSLIB_DECODE_BEACON_ON : Z := 65535.
Definition POSAPP_MOTION_THRESHOLD_MG_DISABLED : Z := 65535.

(** [positioning_app/motion/motion.h] *)
Definition POSAPP_MOTION_THRESHOLD_MG_MIN : Z := 100.
Definition POSAPP_MOTION_THRESHOLD_MG_MAX : Z := 2000.
Definition POSAPP_MOTION_DURATION_MS_MIN : Z := 0.
Definition POSAPP_MOTION_DURATION_MS_MAX : Z := 2000.

Record poslib_ble_mode_config_t := { tx_power : Z; channels : Z; tx_interval_ms : Z }.

Record ble_beacon_settings_t := {
  ble_type : Z; ble_mode : Z; eddystone : poslib_ble_mode_config_t; ibeacon : poslib_ble_mode_config_t;
  activation_delay_s : Z }.

Record poslib_motion_mon_settings_t := { motion_enabled : bool; threshold_mg : Z; duration_ms : Z }.

Record poslib_da_settings_t := { routing_enabled : bool; follow_network : bool }.

Record poslib_settings_t := {
  node_mode : Z;
  node_class : Z;
  update_period_static_s : Z;
  update_period_dynamic_s : Z;
  update_period_offline_s : Z;
  ble : ble_beacon_settings_t;
  motion : poslib_motion_mon_settings_t;
  mbcn : poslib_mbcn_config_t;
  da : poslib_da_settings_t }.

Record poslib_aux_settings_t := { led_on_duration_s : Z; led_cmd_seq : Z }.

Definition set_node_mode (v : Z) (s : poslib_settings_t) : poslib_settings_t :=
  {| node_mode := v; node_class := node_class s; update_period_static_s := update_period_static_s s;
     update_period_dynamic_s := update_period_dynamic_s s; update_period_offline_s := update_period_offline_s s;
     ble := ble s; motion := motion s; mbcn := mbcn s; da := da s |}.
Definition set_node_class (v : Z) (s : poslib_settings_t) : poslib_settings_t :=
  {| node_mode := node_mode s; node_class := v; update_period_static_s := update_period_static_s s;
     update_period_dynamic_s := update_period_dynamic_s s; update_period_offline_s := update_period_offline_s s;
     ble := ble s; motion := motion s; mbcn := mbcn s; da := da s |}.
Definition set_periods (st dyn off : Z) (s : poslib_settings_t) : poslib_settings_t :=
  {| node_mode := node_mode s; node_class := node_class s; update_period_static_s := st;
     update_period_dynamic_s := dyn; update_period_offline_s := off;
     ble := ble s; motion := motion s; mbcn := mbcn s; da := da s |}.
Definition set_ble (b : ble_beacon_settings_t) (s : poslib_settings_t) : poslib_settings_t :=
  {| node_mode := node_mode s; node_class := node_class s; update_period_static_s := update_period_static_s s;
     update_period_dynamic_s := update_period_dynamic_s s; update_period_offline_s := update_period_offline_s s;
     ble := b; motion := motion s; mbcn := mbcn s; da := da s |}.
Definition set_motion (m : poslib_motion_mon_settings_t) (s : poslib_settings_t) : poslib_settings_t :=
  {| node_mode := node_mode s; node_class := node_class s; update_period_static_s := update_period_static_s s;
     update_period_dynamic_s := update_period_dynamic_s s; update_period_offline_s := update_period_offline_s s;
     ble := ble s; motion := m; mbcn := mbcn s; da := da s |}.

Definition set_static (v : Z) (s : poslib_settings_t) : poslib_settings_t :=
  set_periods v (update_period_dynamic_s s) (update_period_offline_s s) s.
Definition set_dynamic (v : Z) (s : poslib_settings_t) : poslib_settings_t :=
  set_periods (update_period_static_s s) v (update_period_offline_s s) s.
Definition set_offline (v : Z) (s : poslib_settings_t) : poslib_settings_t :=
  set_periods (update_period_static_s s) (update_period_dynamic_s s) v s.
Definition set_activation (delay mode : Z) (s : poslib_settings_t) : poslib_settings_t :=
  set_ble {| ble_type := ble_type (ble s); ble_mode := mode; eddystone := eddystone (ble s);
             ibeacon := ibeacon (ble s); activation_delay_s := delay |} s.
Definition set_threshold (on : bool) (v : Z) (s : poslib_settings_t) : poslib_settings_t :=
  set_motion {| motion_enabled := on; threshold_mg := v; duration_ms := duration_ms (motion s) |} s.
Definition set_duration (v : Z) (s : poslib_settings_t) : poslib_settings_t :=
  set_motion {| motion_enabled := motion_enabled (motion s); threshold_mg := threshold_mg (motion s);
                duration_ms := v |} s.

Section Decode.
Context {W : Type} (MOTION_SUPPORTED CONF_USE_PERSISTENT_MEMORY : bool).

(** The structures behind the two pointers, and the stack. *)
Record state := { settings : poslib_settings_t; aux : poslib_aux_settings_t; world : W }.

(** The stack; [getNodeAddress] gives [None] when it does not return [APP_RES_OK]. *)
Record env := {
  getNodeAddress : W -> option Z;
  getNodeRole : W -> Z;
  otap_isValid : W -> bool;
  otap_isProcessed : W -> bool;
  otap_getSeq : W -> Z;
  setToBeProcessed : W -> W;
  stopStack : W -> W }.

Abbreviation M := (sf state).

Definition on_settings (f : poslib_settings_t -> poslib_settings_t) : M unit :=
  puts (fun s => {| settings := f (settings s); aux := aux s; world := world s |}).
Definition on_aux (f : poslib_aux_settings_t -> poslib_aux_settings_t) : M unit :=
  puts (fun s => {| settings := settings s; aux := f (aux s); world := world s |}).
Definition on_world (f : W -> W) : M unit :=
  puts (fun s => {| settings := settings s; aux := aux s; world := f (world s) |}).

Definition is_node_mode_anchor (m : Z) : bool :=
  (m =? POSLIB_MODE_AUTOSCAN_ANCHOR) || (m =? POSLIB_MODE_OPPORTUNISTIC_ANCHOR).

Definition is_node_mode_tag (m : Z) : bool :=
  (m =? POSLIB_MODE_NRLS_TAG) || (m =? POSLIB_MODE_AUTOSCAN_TAG) || (m =? POSLIB_MODE_DA_TAG).

(** The value in a variable that was zero, or [None] when the size is not that of the type. *)
Definition get_uint (item : poslib_tlv_item_t) (uint_type : Z) : M (option Z) :=
  if (uint_type =? length item) && ((uint_type =? 1) || (uint_type =? 2) || (uint_type =? 4)) then
    v ← reads (fun _ => item_bytes item);
    mret (Some (le_get v))
  else mret None.

Definition get_uint8 (item : poslib_tlv_item_t) : M (option Z) := get_uint item 1.
Definition get_uint16 (item : poslib_tlv_item_t) : M (option Z) := get_uint item 2.
Definition get_uint32 (item : poslib_tlv_item_t) : M (option Z) := get_uint item 4.

Definition check_node_address (E : env) (item : poslib_tlv_item_t) : M bool :=
  if negb (type item =? POSLIB_NODE_ADDR_SELECTION) then mret false
  else
    target ← get_uint32 item;
    match target with
    | Some target => asks (fun s => bool_decide (getNodeAddress E (world s) = Some target))
    | None => mret false
    end.

Definition set_measurement_rate (item : poslib_tlv_item_t) : M bool :=
  v16 ← get_uint16 item;
  v ← (match v16 with Some v => mret (Some v) | None => get_uint32 item end);
  match v with
  | None => mret false
  | Some v =>
      if (POSLIB_MAX_MEAS_RATE_S <? v) || ((v <? POSLIB_MIN_MEAS_RATE_S) && negb (v =? 0)) then mret false
      else if type item =? POSLIB_MEASUREMENT_RATE_STATIC then
        if v =? 0 then mret false else _ ← on_settings (set_static v); mret true
      else if type item =? POSLIB_MEASUREMENT_RATE_DYNAMIC then _ ← on_settings (set_dynamic v); mret true
      else if type item =? POSLIB_MEASUREMENT_RATE_OFFLINE then _ ← on_settings (set_offline v); mret true
      else mret false
  end.

Definition set_blebeacon (item : poslib_tlv_item_t) : M bool :=
  v ← get_uint16 item;
  match v with
  | None => mret false
  | Some v =>
      let mode := if v =? POSLIB_DECODE_BEACON_OFF then POSLIB_BLE_OFF
                  else if v =? POSLIB_DECODE_BEACON_ON then POSLIB_BLE_ON else POSLIB_BLE_ON_WHEN_OFFLINE in
      _ ← on_settings (set_activation v mode);
      mret true
  end.

Definition settable_class (c : Z) : bool :=
  bool_decide (c ∈ [POSLIB_CLASS_DEFAULT; POSLIB_CLASS_A; POSLIB_CLASS_B; POSLIB_CLASS_C; POSLIB_CLASS_D;
                    POSLIB_CLASS_E; POSLIB_CLASS_F]).

Definition set_class (item : poslib_tlv_item_t) : M bool :=
  v ← get_uint8 item;
  match v with
  | None => mret false
  | Some c => if settable_class c then _ ← on_settings (set_node_class c); mret true else mret false
  end.

(** The scratchpad is taken into use, and the node reboots. *)
Definition trigger_otap (E : env) (w : W) : W := stopStack E (setToBeProcessed E w).

Definition set_otap (E : env) (item : poslib_tlv_item_t) : M bool :=
  v ← get_uint8 item;
  match v with
  | None => mret false
  | Some target_seq =>
      go ← asks (fun s => otap_isValid E (world s) && negb (otap_isProcessed E (world s)) &&
                          (target_seq =? otap_getSeq E (world s)));
      _ ← (if go : bool then on_world (trigger_otap E) else mret tt);
      mret true
  end.

(** The modes that a node of this role takes. *)
Definition mode_accepted (role mode : Z) (force : bool) : bool :=
  if bool_decide (role ∈ [APP_LIB_SETTINGS_ROLE_SINK_LE; APP_LIB_SETTINGS_ROLE_SINK_LL;
                          APP_LIB_SETTINGS_ROLE_HEADNODE_LE; APP_LIB_SETTINGS_ROLE_HEADNODE_LL])
  then is_node_mode_anchor mode || force
  else if bool_decide (role ∈ [APP_LIB_SETTINGS_ROLE_SUBNODE_LE; APP_LIB_SETTINGS_ROLE_SUBNODE_LL])
  then is_node_mode_tag mode || force
  else if role =? APP_LIB_SETTINGS_ROLE_ADVERTISER then is_node_mode_tag mode || force
  else false.

Definition set_mode (E : env) (item : poslib_tlv_item_t) (node_specific : bool) : M bool :=
  let force := CONF_USE_PERSISTENT_MEMORY && node_specific in
  v ← get_uint8 item;
  match v with
  | None => mret false
  | Some mode =>
      ok ← asks (fun s => mode_accepted (getNodeRole E (world s)) mode force);
      _ ← (if ok : bool then on_settings (set_node_mode mode) else mret tt);
      mret true
  end.

Definition set_motion_threshold (item : poslib_tlv_item_t) : M bool :=
  v ← get_uint16 item;
  match v with
  | None => mret false
  | Some v =>
      if (POSAPP_MOTION_THRESHOLD_MG_MIN <=? v) && (v <=? POSAPP_MOTION_THRESHOLD_MG_MAX) then
        _ ← on_settings (set_threshold true v); mret true
      else if v =? POSAPP_MOTION_THRESHOLD_MG_DISABLED then
        _ ← on_settings (set_threshold false POSAPP_MOTION_THRESHOLD_MG_MAX); mret true
      else mret false
  end.

Definition set_motion_duration (item : poslib_tlv_item_t) : M bool :=
  v ← get_uint16 item;
  match v with
  | None => mret false
  | Some v =>
      if (v <=? POSAPP_MOTION_DURATION_MS_MIN) || (POSAPP_MOTION_DURATION_MS_MAX <? v) then mret false
      else _ ← on_settings (set_duration v); mret true
  end.

Definition set_led_on_duration (item : poslib_tlv_item_t) : M bool :=
  v ← get_uint16 item;
  match v with
  | None => mret false
  | Some v => _ ← on_aux (fun a => {| led_on_duration_s := v; led_cmd_seq := led_cmd_seq a |}); mret true
  end.

Definition set_led_cmd (item : poslib_tlv_item_t) : M bool :=
  v ← get_uint8 item;
  match v with
  | None => mret false
  | Some v => _ ← on_aux (fun a => {| led_on_duration_s := led_on_duration_s a; led_cmd_seq := v |}); mret true
  end.

(** The [switch] on the type of a command. *)
Definition command (E : env) (node_specific : bool) (item : poslib_tlv_item_t) : M bool :=
  let ty := type item in
  if (ty =? POSLIB_MEASUREMENT_RATE_STATIC) || (ty =? POSLIB_MEASUREMENT_RATE_DYNAMIC) ||
     (ty =? POSLIB_MEASUREMENT_RATE_OFFLINE) then set_measurement_rate item
  else if ty =? POSLIB_BEACON then set_blebeacon item
  else if ty =? POSLIB_OPERATING_MODE then set_mode E item node_specific
  else if ty =? POSLIB_OTAP then set_otap E item
  else if ty =? POSLIB_DEVICE_CLASS_CHANGE then if node_specific then set_class item else mret false
  else if MOTION_SUPPORTED && (ty =? POSLIB_MOTION_THRESHOLD) then set_motion_threshold item
  else if MOTION_SUPPORTED && (ty =? POSLIB_MOTION_DURATION) then set_motion_duration item
  else if ty =? POSLIB_LED_ON_DURATION then set_led_on_duration item
  else if ty =? POSLIB_LED_CMD_SEQ then set_led_cmd item
  else mret false.

(** [while (true)] over the commands, which move the index: the fuel is above the length. *)
Fixpoint commands_loop (E : env) (fuel : nat) (node_specific : bool) (r : poslib_tlv_record) (ret : bool) : M bool :=
  match fuel with
  | O => fault
  | S fuel =>
      '(res, r, item) ← reads (fun _ => PosLibTlv_Decode_getNextItem r);
      match res, item with
      | POSLIB_TLV_RES_OK, Some item =>
          b ← command E node_specific item;
          commands_loop E fuel node_specific r (ret || b)
      | _, _ => mret ret
      end
  end.

Definition decode_configuration_commands (E : env) (r : poslib_tlv_record) (node_specific : bool) : M bool :=
  commands_loop E (S (Z.to_nat (rcd_length r))) node_specific r false.

Definition decode_configuration_record (E : env) (cls : Z) (buffer : list Z) (length : Z) : M bool :=
  let r := PosLibTlv_init (Some buffer) length in
  if cls =? POSLIB_CLASS_NODE_SPECIFIC then
    '(res, r, item) ← reads (fun _ => PosLibTlv_Decode_getNextItem r);
    match res, item with
    | POSLIB_TLV_RES_OK, Some item =>
        ok ← check_node_address E item;
        if negb ok then mret false else decode_configuration_commands E r true
    | _, _ => mret false
    end
  else decode_configuration_commands E r false.

(** [while (true)] over the records. *)
Fixpoint records_loop (E : env) (fuel : nat) (cls : Z) (r : tlv_record) (ret : bool) : M bool :=
  match fuel with
  | O => fault
  | S fuel =>
      match Tlv_Decode_getNextItem r with
      | (TLV_RES_OK, r, Some item) =>
          b ← (if Tlv.type item =? cls
               then decode_configuration_record E cls (Tlv.value item) (Tlv.length item) else mret false);
          records_loop E fuel cls r (ret || b)
      | _ => mret ret
      end
  end.

Definition decode_configuration (E : env) (cls : Z) (buffer : list Z) (length : Z) : M bool :=
  records_loop E (S (Z.to_nat length)) cls (Tlv_init buffer length) false.

(** [length] is cut to a byte when it is passed on. *)
Definition PosLibDecode_config (E : env) (buffer : list Z) (length : Z) : M bool :=
  b1 ← decode_configuration E POSLIB_CLASS_NODE_SPECIFIC buffer (u8 length);
  cls ← asks (fun s => node_class (settings s));
  b2 ← decode_configuration E cls buffer (u8 length);
  mret (b1 || b2).

(** * Properties *)

(** ** The records of the app config *)

Record outer_step (r r' : tlv_record) (item : tlv_item_t) : Prop := {
  os_index : Tlv.rcd_index r < Tlv.rcd_index r' <= Tlv.rcd_length r;
  os_length : Tlv.rcd_length r' = Tlv.rcd_length r;
  os_buffer : Tlv.rcd_buffer r' = Tlv.rcd_buffer r;
  os_item : 0 <= Tlv.length item <= 127;
  os_value : exists k, Tlv.value item = drop k (Tlv.rcd_buffer r) /\ Z.of_nat k + Tlv.length item <= Tlv.rcd_length r }.

Lemma decode_value_step r k ty len r' item :
  0 <= Tlv.rcd_index r -> 0 < k -> Tlv.rcd_index r + k <= Tlv.rcd_length r -> Tlv.rcd_length r < 256 -> 0 <= len <= 127 ->
  decode_value (with_index r (Tlv.rcd_index r + k)) ty len = (TLV_RES_OK, r', Some item) -> outer_step r r' item.
Proof.
  intros Hi Hk Hr Hu Hlen. unfold decode_value, with_index. cbn [Tlv.rcd_index Tlv.rcd_length Tlv.rcd_buffer].
  rewrite (uwrap_small 8 (_ + k)), (uwrap_small 8 (_ - _)) by (unfold fits; lia).
  destruct (Z.ltb_spec (Tlv.rcd_length r - (Tlv.rcd_index r + k)) len); [done|]. intros [= <- <-].
  constructor; cbn [Tlv.rcd_index Tlv.rcd_length Tlv.rcd_buffer Tlv.length Tlv.value]; [|done|done|done|].
  - rewrite uwrap_small by (unfold fits; lia). lia.
  - eexists. split; [done|]. lia.
Qed.

(** The index of a record of [Tlv] grows with every item, whose value lies in the record. *)
Lemma outer_progress (r : tlv_record) r' item :
  0 <= Tlv.rcd_index r <= Tlv.rcd_length r -> Tlv.rcd_length r < 256 ->
  Tlv_Decode_getNextItem r = (TLV_RES_OK, r', Some item) -> outer_step r r' item.
Proof.
  intros Hi Hu. unfold Tlv_Decode_getNextItem, MINIMAL_TLV_SIZE.
  rewrite (uwrap_small 8 (_ - _)) by (unfold fits; lia).
  destruct (Z.eqb_spec (Tlv.rcd_length r - Tlv.rcd_index r) 0); [done|].
  destruct (Z.ltb_spec (Tlv.rcd_length r - Tlv.rcd_index r) 3); [done|].
  set (len := Z.land _ 127). assert (Hlen : 0 <= len <= 127).
  { pose proof (Z.mod_pos_bound (Tlv.byte_at r (Tlv.rcd_index r + 1)) 128).
    subst len. change 127 with (Z.ones 7) at 1 2. rewrite Z.land_ones by done. change (2 ^ 7) with 128. lia. }
  destruct (negb _); [|apply decode_value_step; lia].
  replace (with_index (with_index r (Tlv.rcd_index r + 2)) (Tlv.rcd_index (with_index r (Tlv.rcd_index r + 2)) + 1))
    with (with_index r (Tlv.rcd_index r + 3)); [apply decode_value_step; lia|].
  unfold with_index. cbn [Tlv.rcd_index Tlv.rcd_length Tlv.rcd_buffer]. f_equal. rewrite uwrap_add_l. f_equal. lia.
Qed.

(** ** Settings stay well-formed *)

Definition period_ok (v : Z) : Prop := POSLIB_MIN_MEAS_RATE_S <= v <= POSLIB_MAX_MEAS_RATE_S.

(** With a persistent memory a command for the node itself may set any mode. *)
Definition mode_ok (m : Z) : Prop :=
  if CONF_USE_PERSISTENT_MEMORY then is_u8 m else POSLIB_MODE_NRLS_TAG <= m <= POSLIB_MODE_DA_TAG.

Record settings_ok (c : poslib_settings_t) : Prop := {
  ok_mode : mode_ok (node_mode c);
  ok_class : settable_class (node_class c) = true;
  ok_static : period_ok (update_period_static_s c);
  ok_dynamic : update_period_dynamic_s c = 0 \/ period_ok (update_period_dynamic_s c);
  ok_offline : update_period_offline_s c = 0 \/ period_ok (update_period_offline_s c);
  ok_delay : is_u16 (activation_delay_s (ble c));
  ok_ble : POSLIB_BLE_OFF <= ble_mode (ble c) <= POSLIB_BLE_ON_WHEN_OFFLINE;
  ok_threshold : POSAPP_MOTION_THRESHOLD_MG_MIN <= threshold_mg (motion c) <= POSAPP_MOTION_THRESHOLD_MG_MAX;
  ok_duration : POSAPP_MOTION_DURATION_MS_MIN < duration_ms (motion c) <= POSAPP_MOTION_DURATION_MS_MAX }.

(** The update periods alone, which is what the control module needs. *)
Record rates_ok (c : poslib_settings_t) : Prop := {
  rt_static : period_ok (update_period_static_s c);
  rt_dynamic : update_period_dynamic_s c = 0 \/ period_ok (update_period_dynamic_s c);
  rt_offline : update_period_offline_s c = 0 \/ period_ok (update_period_offline_s c) }.

(** A property of the settings that no command breaks. *)
Class Closed (K : poslib_settings_t -> Prop) : Prop := {
  closed_static v c : period_ok v -> K c -> K (set_static v c);
  closed_dynamic v c : v = 0 \/ period_ok v -> K c -> K (set_dynamic v c);
  closed_offline v c : v = 0 \/ period_ok v -> K c -> K (set_offline v c);
  closed_activation d m c : is_u16 d -> POSLIB_BLE_OFF <= m <= POSLIB_BLE_ON_WHEN_OFFLINE -> K c -> K (set_activation d m c);
  closed_class v c : settable_class v = true -> K c -> K (set_node_class v c);
  closed_mode v c : mode_ok v -> K c -> K (set_node_mode v c);
  closed_threshold b v c : POSAPP_MOTION_THRESHOLD_MG_MIN <= v <= POSAPP_MOTION_THRESHOLD_MG_MAX -> K c -> K (set_threshold b v c);
  closed_duration v c : POSAPP_MOTION_DURATION_MS_MIN < v <= POSAPP_MOTION_DURATION_MS_MAX -> K c -> K (set_duration v c) }.

#[export] Instance settings_ok_closed : Closed settings_ok.
Proof. split; intros; match goal with H : settings_ok _ |- _ => destruct H end; by constructor. Qed.

#[export] Instance rates_ok_closed : Closed rates_ok.
Proof. split; intros; match goal with H : rates_ok _ |- _ => destruct H end; by constructor. Qed.

Lemma settings_rates c : settings_ok c -> rates_ok c.
Proof. intros []. by constructor. Qed.

Record inv (K : poslib_settings_t -> Prop) (s : state) : Prop := {
  inv_settings : K (settings s);
  inv_led : is_u16 (led_on_duration_s (aux s));
  inv_seq : is_u8 (led_cmd_seq (aux s)) }.

Section Keeps.
Context (K : poslib_settings_t -> Prop) `{!Closed K}.

(** An item whose value can be read. *)
Definition good_item (x : poslib_tlv_item_t) : Prop :=
  exists v, item_bytes x = Some v /\ bytes v /\ is_u8 (type x) /\ is_u8 (length x).

Lemma get_uint_runs (P : state -> Prop) item n :
  good_item item -> runs P (get_uint item n) (fun v s => P s /\ match v with Some x => fits (8 * n) x | None => True end).
Proof.
  intros (v & Hv & Hb & _ & Hl). unfold get_uint.
  destruct (_ && _) eqn:E; [|apply runs_ret; by intros]. intros s HP. erewrite readsE by exact Hv.
  eexists _, s. split; [done|]. split; [done|]. bool_props. unfold fits in Hl.
  pose proof (item_bytes_length item v Hv ltac:(lia)). replace n with (Z.of_nat (List.length v)) by lia. by apply le_get_range.
Qed.

Lemma runs_if {A} (P : state -> Prop) (b : bool) (m1 m2 : M A) Q :
  (b = true -> runs P m1 Q) -> (b = false -> runs P m2 Q) -> runs P (if b then m1 else m2) Q.
Proof. destruct b; auto. Qed.

(** Conclude [true] or [false] with the invariant. *)
Abbreviation keeps_inv m := (runs (inv K) m (fun _ => inv K)).

Lemma runs_result (b : bool) : keeps_inv (mret b : M bool).
Proof. by apply runs_ret. Qed.

Lemma runs_settings f (b : bool) (phi : Prop) :
  phi -> (forall c, phi -> K c -> K (f c)) -> keeps_inv (_ ← on_settings f; mret b).
Proof.
  intros Hp H s [Hs Hl Hq]. eexists _, _. split; [reflexivity|]. constructor; cbn; [by apply H|done|done].
Qed.

(** A handler that reads one number and goes on with it. *)
Lemma runs_uint item n (k : option Z -> M bool) :
  good_item item -> keeps_inv (k None) -> (forall x, fits (8 * n) x -> keeps_inv (k (Some x))) ->
  keeps_inv (v ← get_uint item n; k v).
Proof.
  intros Hi Hn Hk. eapply runs_bind; [by apply get_uint_runs|]. intros [x|] s [Hs Hx]; [by apply (Hk x Hx)|by apply Hn].
Qed.

Lemma set_measurement_rate_inv item : good_item item -> keeps_inv (set_measurement_rate item).
Proof.
  intros Hi. unfold set_measurement_rate, get_uint16.
  set (k := fun v : option Z => match v with None => mret false | Some v => _ end).
  assert (Hk : forall o, (forall x, o = Some x -> 0 <= x) -> keeps_inv (k o)).
  { intros [v|] Hv; [|apply runs_result]. specialize (Hv v eq_refl). unfold k.
    destruct (Z.ltb_spec POSLIB_MAX_MEAS_RATE_S v); [apply runs_result|].
    destruct (_ && _) eqn:E; [apply runs_result|]. cbn [orb].
    assert (Hp : v = 0 \/ period_ok v).
    { unfold period_ok. apply andb_false_iff in E as [E|E]; bool_props; [right|left]; lia. }
    repeat (apply runs_if; intros ?); bool_props; try apply runs_result; (eapply runs_settings; [exact Hp|]); intros c [->|Hc];
      first [done | apply closed_static; done | apply closed_dynamic; tauto | apply closed_offline; tauto]. }
  apply runs_uint; [done|apply runs_uint; [done|by apply Hk|]|].
  - intros x [Hx _]. apply Hk. by intros ? [= <-].
  - intros x [Hx _] s Hs. apply (Hk (Some x)); [by intros ? [= <-]|done].
Qed.

Lemma set_blebeacon_inv item : good_item item -> keeps_inv (set_blebeacon item).
Proof.
  intros Hi. apply runs_uint; [done|apply runs_result|]. intros x Hx. eapply runs_settings; [exact Hx|].
  intros c Hc. apply closed_activation; [done|]. unfold POSLIB_BLE_OFF, POSLIB_BLE_ON, POSLIB_BLE_ON_WHEN_OFFLINE.
  repeat destruct (_ =? _); lia.
Qed.

Lemma set_class_inv item : good_item item -> keeps_inv (set_class item).
Proof.
  intros Hi. apply runs_uint; [done|apply runs_result|]. intros x _. apply runs_if; intros Hx; [|apply runs_result].
  eapply runs_settings; [exact Hx|]. intros c Hc. by apply closed_class.
Qed.

Lemma set_otap_inv E item : good_item item -> keeps_inv (set_otap E item).
Proof.
  intros Hi. apply runs_uint; [done|apply runs_result|]. intros x _ s Hs. rewrite asksE.
  destruct (_ && _); (eexists _, _; split; [reflexivity|]); [|done]. by destruct Hs.
Qed.

Lemma mode_accepted_ok role x ns :
  is_u8 x -> mode_accepted role x (CONF_USE_PERSISTENT_MEMORY && ns) = true -> mode_ok x.
Proof.
  intros Hx. unfold mode_ok, mode_accepted, is_node_mode_anchor, is_node_mode_tag, POSLIB_MODE_AUTOSCAN_ANCHOR,
    POSLIB_MODE_OPPORTUNISTIC_ANCHOR, POSLIB_MODE_NRLS_TAG, POSLIB_MODE_AUTOSCAN_TAG, POSLIB_MODE_DA_TAG.
  destruct CONF_USE_PERSISTENT_MEMORY; [done|]. cbn [andb]. rewrite !orb_false_r.
  repeat case_match; intros Ha; try done; repeat apply orb_true_iff in Ha as [Ha|Ha]; apply Z.eqb_eq in Ha; lia.
Qed.

Lemma set_mode_inv E item ns : good_item item -> keeps_inv (set_mode E item ns).
Proof.
  intros Hi. apply runs_uint; [done|apply runs_result|]. intros x Hx s Hs. rewrite asksE.
  destruct (mode_accepted _ _ _) eqn:Ea; (eexists _, _; split; [reflexivity|]); [|done].
  pose proof (mode_accepted_ok _ _ _ Hx Ea). destruct Hs. constructor; [by apply closed_mode|done..].
Qed.

Lemma set_motion_threshold_inv item : good_item item -> keeps_inv (set_motion_threshold item).
Proof.
  intros Hi. apply runs_uint; [done|apply runs_result|]. intros x _. repeat (apply runs_if; intros ?); bool_props.
  - eapply (runs_settings _ _ (POSAPP_MOTION_THRESHOLD_MG_MIN <= x <= POSAPP_MOTION_THRESHOLD_MG_MAX)); [lia|].
    intros c Hc. by apply closed_threshold.
  - apply (runs_settings _ _ True); [done|]. intros c _. by apply closed_threshold.
  - apply runs_result.
Qed.

Lemma set_motion_duration_inv item : good_item item -> keeps_inv (set_motion_duration item).
Proof.
  intros Hi. apply runs_uint; [done|apply runs_result|]. intros x _. apply runs_if; intros ?; bool_props; [apply runs_result|].
  apply (runs_settings _ _ (POSAPP_MOTION_DURATION_MS_MIN < x <= POSAPP_MOTION_DURATION_MS_MAX)); [lia|].
  intros c Hc. by apply closed_duration.
Qed.

Lemma set_led_on_duration_inv item : good_item item -> keeps_inv (set_led_on_duration item).
Proof.
  intros Hi. apply runs_uint; [done|apply runs_result|]. intros x Hx s []. by eexists _, _.
Qed.

Lemma set_led_cmd_inv item : good_item item -> keeps_inv (set_led_cmd item).
Proof.
  intros Hi. apply runs_uint; [done|apply runs_result|]. intros x Hx s []. by eexists _, _.
Qed.

Lemma command_inv E ns item : good_item item -> keeps_inv (command E ns item).
Proof.
  intros Hi. unfold command.
  repeat (apply runs_if; intros _);
    [by apply set_measurement_rate_inv|by apply set_blebeacon_inv|by apply set_mode_inv|by apply set_otap_inv
    |by apply set_class_inv|apply runs_result|by apply set_motion_threshold_inv|by apply set_motion_duration_inv
    |by apply set_led_on_duration_inv|by apply set_led_cmd_inv|apply runs_result].
Qed.

(** ** The loops end *)

Lemma commands_loop_inv E fuel ns r mem ret :
  readable r mem -> Z.max 0 (rcd_length r - rcd_index r) < Z.of_nat fuel -> keeps_inv (commands_loop E fuel ns r ret).
Proof.
  revert r ret. induction fuel as [|fuel IH]; intros r ret Hr Hf; [lia|]. cbn [commands_loop].
  destruct (getNextItem_readable r mem Hr) as (res & r' & item & E1 & H). intros s Hs.
  erewrite readsE by exact E1. destruct res; [|by eexists _, s..].
  destruct (H eq_refl) as (Hlt & Hi & Hl & Hr' & x & v & -> & Hx).
  destruct (command_inv E ns x ltac:(by exists v) s Hs) as (b & s1 & E2 & H1). rewrite (sf_bindE _ _ _ _ _ E2).
  apply IH; [done|lia|done].
Qed.

Lemma decode_configuration_record_inv E cls mem len :
  bytes mem -> 0 <= len <= 127 -> len < Z.of_nat (List.length mem) ->
  keeps_inv (decode_configuration_record E cls mem len).
Proof.
  intros Hm Hl Hr. unfold decode_configuration_record.
  assert (H0 : readable (PosLibTlv_init (Some mem) len) mem) by (constructor; cbn; (done || lia)).
  apply runs_if; intros _.
  - destruct (getNextItem_readable _ mem H0) as (res & r' & item & E1 & H). intros s Hs.
    erewrite readsE by exact E1. destruct res; [|by eexists _, s..].
    destruct (H eq_refl) as (Hlt & Hi & Hle & Hr' & x & v & -> & Hx).
    revert s Hs. apply (runs_bind _ _ (fun _ => inv K)).
    + unfold check_node_address. apply runs_if; intros _; [apply runs_result|].
      apply runs_uint; [by exists v|apply runs_result|]. intros y _ s Hs. by eexists _, s.
    + intros ok. apply runs_if; intros _; [apply runs_result|]. unfold decode_configuration_commands.
      eapply commands_loop_inv; [exact Hr'|]. cbn in Hle, Hi. lia.
  - unfold decode_configuration_commands. eapply commands_loop_inv; [exact H0|]. cbn. lia.
Qed.

Lemma records_loop_inv E fuel cls r ret :
  bytes (Tlv.rcd_buffer r) -> 0 <= Tlv.rcd_index r <= Tlv.rcd_length r -> Tlv.rcd_length r < 256 ->
  Tlv.rcd_length r < Z.of_nat (List.length (Tlv.rcd_buffer r)) ->
  Tlv.rcd_length r - Tlv.rcd_index r < Z.of_nat fuel -> keeps_inv (records_loop E fuel cls r ret).
Proof.
  revert r ret. induction fuel as [|fuel IH]; intros r ret Hb Hi Hu Hr Hf; [lia|]. cbn [records_loop].
  destruct (Tlv_Decode_getNextItem r) as [[[] r'] [item|]] eqn:E1; try apply runs_result.
  destruct (outer_progress r r' item Hi Hu E1) as [Hx Hl Hbuf Hit (k & Hv & Hk)].
  apply (runs_bind _ _ (fun _ => inv K)).
  - apply runs_if; intros _; [|apply runs_result].
    rewrite Hv. apply decode_configuration_record_inv; [by apply Forall_drop|done|]. rewrite length_drop. lia.
  - intros b. apply IH; rewrite ?Hbuf, ?Hl; (done || lia).
Qed.

Lemma decode_configuration_inv E cls mem len :
  bytes mem -> is_u8 len -> len < Z.of_nat (List.length mem) -> keeps_inv (decode_configuration E cls mem len).
Proof. intros Hm Hu Hl. unfold fits in Hu. apply records_loop_inv; cbn; (done || lia). Qed.

Lemma decode_config_keeps E mem len :
  bytes mem -> u8 len < Z.of_nat (List.length mem) -> keeps_inv (PosLibDecode_config E mem len).
Proof.
  intros Hm Hl.
  assert (Hd : forall cls, keeps_inv (decode_configuration E cls mem (u8 len))).
  { intros cls. apply decode_configuration_inv; [done|by apply (uwrap_range 8)|done]. }
  eapply runs_bind; [apply Hd|]. intros b1 s Hs. rewrite asksE. revert s Hs.
  assert (H2 : forall cls, keeps_inv (b2 ← decode_configuration E cls mem (u8 len); mret (b1 || b2))).
  { intros cls. eapply runs_bind; [apply Hd|]. intros b2. apply runs_result. }
  intros s Hs. by apply H2.
Qed.

End Keeps.

(** whatever bytes an app config has, decoding it returns and leaves
    settings that the library can work with: the static period is in its range,
    the others are too or are off, the class, the mode, the BLE mode and the
    motion settings have legal values.  One byte behind the config must be
    readable. *)
Theorem config_settings_ok E mem len s :
  bytes mem -> u8 len < Z.of_nat (List.length mem) -> inv settings_ok s ->
  exists b s', PosLibDecode_config E mem len s = Some (b, s') /\ inv settings_ok s'.
Proof. intros Hm Hl. by apply decode_config_keeps; [apply settings_ok_closed| |]. Qed.

(** ** What a config does to the rest of the node

    Only the commands that take a scratchpad into use reach it. *)
Section World.
Context (E : env) (P : W -> Prop) (Htrigger : forall w, P w -> P (trigger_otap E w)).

Abbreviation stays m := (sf_keeps (fun s => P (world s)) m).

Lemma command_world ns item : stays (command E ns item).
Proof.
  unfold command, set_measurement_rate, set_blebeacon, set_mode, set_otap, set_class, set_motion_threshold,
    set_motion_duration, set_led_on_duration, set_led_cmd, get_uint8, get_uint16, get_uint32, get_uint.
  sf_keep; try (by apply sf_keeps_puts); try (apply sf_keeps_puts; intros []; apply Htrigger).
Qed.

Lemma commands_loop_world fuel ns r ret : stays (commands_loop E fuel ns r ret).
Proof.
  revert r ret. induction fuel as [|fuel IH]; intros r ret; cbn [commands_loop]; [apply sf_keeps_fault|].
  sf_keep; try apply command_world; try apply IH.
Qed.

Lemma decode_configuration_world cls mem len : stays (decode_configuration E cls mem len).
Proof.
  unfold decode_configuration. generalize (Tlv_init mem len), false. generalize (S (Z.to_nat len)).
  intros fuel. induction fuel as [|fuel IH]; intros r ret; cbn [records_loop]; [apply sf_keeps_fault|].
  sf_keep; try apply IH.
  unfold decode_configuration_record, decode_configuration_commands, check_node_address, get_uint32, get_uint.
  sf_keep; apply commands_loop_world.
Qed.

Lemma decode_config_world mem len : stays (PosLibDecode_config E mem len).
Proof. unfold PosLibDecode_config. sf_keep; apply decode_configuration_world. Qed.

End World.

(** ** The meaning of a config

    A config as data: a list of records, each a class and a list of commands. *)

Definition item_of (x : Z * list Z) : poslib_tlv_item_t :=
  {| type := x.1; value := Some x.2; length := Z.of_nat (List.length x.2) |}.

Fixpoint run_commands (E : env) (ns : bool) (cmds : items) (ret : bool) : M bool :=
  match cmds with
  | [] => mret ret
  | x :: cmds => b ← command E ns (item_of x); run_commands E ns cmds (ret || b)
  end.

(** A record for single nodes begins with the address of the node. *)
Definition run_record (E : env) (cls : Z) (cmds : items) : M bool :=
  if cls =? POSLIB_CLASS_NODE_SPECIFIC then
    match cmds with
    | [] => mret false
    | x :: cmds =>
        ok ← check_node_address E (item_of x);
        if negb ok then mret false else run_commands E true cmds false
    end
  else run_commands E false cmds false.

Fixpoint run_pass (E : env) (cls : Z) (config : list (Z * items)) (ret : bool) : M bool :=
  match config with
  | [] => mret ret
  | (c, cmds) :: config =>
      b ← (if c =? cls then run_record E cls cmds else mret false);
      run_pass E cls config (ret || b)
  end.

Definition run_config (E : env) (config : list (Z * items)) : M bool :=
  b1 ← run_pass E POSLIB_CLASS_NODE_SPECIFIC config false;
  cls ← asks (fun s => node_class (settings s));
  b2 ← run_pass E cls config false;
  mret (b1 || b2).

(** Its bytes. *)
Definition config_item (x : Z * items) : tlv_item_t :=
  {| Tlv.value := wires x.2; Tlv.type := x.1; Tlv.length := Z.of_nat (List.length (wires x.2)) |}.

Definition config_bytes (config : list (Z * items)) : list Z := Tlv.wires (map config_item config).

Record record_ok (x : Z * items) : Prop := {
  cr_class : is_u16 x.1;
  cr_some : x.2 <> [];
  cr_length : (List.length (wires x.2) <= 127)%nat;
  cr_commands : Forall cmd_wf x.2 }.

(** A command reads its type, its length and the bytes of its value only. *)
Lemma get_uint_ext i1 i2 n :
  length i1 = length i2 -> item_bytes i1 = item_bytes i2 -> get_uint i1 n = get_uint i2 n.
Proof. intros Hl Hb. unfold get_uint. by rewrite Hl, Hb. Qed.

Lemma command_ext E ns i1 i2 :
  type i1 = type i2 -> length i1 = length i2 -> item_bytes i1 = item_bytes i2 -> command E ns i1 = command E ns i2.
Proof.
  intros Ht Hl Hb. pose proof (get_uint_ext i1 i2) as Hg.
  unfold command, set_measurement_rate, set_blebeacon, set_mode, set_otap, set_class, set_motion_threshold,
    set_motion_duration, set_led_on_duration, set_led_cmd, get_uint8, get_uint16, get_uint32.
  by rewrite Ht, !(Hg _ Hl Hb).
Qed.

Lemma check_node_address_ext E i1 i2 :
  type i1 = type i2 -> length i1 = length i2 -> item_bytes i1 = item_bytes i2 ->
  check_node_address E i1 = check_node_address E i2.
Proof.
  intros Ht Hl Hb. unfold check_node_address, get_uint32. by rewrite Ht, (get_uint_ext i1 i2 _ Hl Hb).
Qed.

Lemma item_of_bytes ty v post :
  item_bytes {| type := ty; value := Some (v ++ post); length := Z.of_nat (List.length v) |} = item_bytes (item_of (ty, v)).
Proof.
  rewrite item_bytes_app. unfold item_of. cbn [fst snd]. rewrite item_bytes_some by lia.
  by rewrite Nat2Z.id, firstn_all.
Qed.

Lemma command_item_of E ns ty v post :
  command E ns {| type := ty; value := Some (v ++ post); length := Z.of_nat (List.length v) |} = command E ns (item_of (ty, v)).
Proof. apply command_ext; (done || apply item_of_bytes). Qed.

Lemma check_item_of E ty v post :
  check_node_address E {| type := ty; value := Some (v ++ post); length := Z.of_nat (List.length v) |} =
    check_node_address E (item_of (ty, v)).
Proof. apply check_node_address_ext; (done || apply item_of_bytes). Qed.

(** The record of a decoder at the beginning of encoded commands. *)
Record at_wires (r : poslib_tlv_record) (cmds : items) : Prop := {
  aw_buffer : exists pre post, rcd_buffer r = Some (pre ++ wires cmds ++ post) /\ rcd_index r = Z.of_nat (List.length pre) /\
                rcd_length r = Z.of_nat (List.length (pre ++ wires cmds));
  aw_length : is_u8 (rcd_length r);
  aw_commands : Forall cmd_wf cmds }.

Lemma at_wires_next r ty v cmds :
  at_wires r ((ty, v) :: cmds) ->
  exists r' post, PosLibTlv_Decode_getNextItem r =
      Some (POSLIB_TLV_RES_OK, r', Some {| type := ty; value := Some (v ++ post); length := Z.of_nat (List.length v) |}) /\
    at_wires r' cmds /\ rcd_length r' = rcd_length r.
Proof.
  intros [(pre & post & Hb & Hi & Hl) Hu Hc]. apply Forall_cons in Hc as [(Ht & Hv & _) Hc].
  rewrite pos_wires_cons in Hb, Hl. cbn [fst snd] in Ht, Hv. rewrite !length_app in Hl. unfold fits in Hu.
  eexists _, (wires cmds ++ post). split.
  { apply (decode_wire pre); [by rewrite Hb, <- app_assoc|done|done|lia|done|done]. }
  split; [|done]. constructor; [|done|done]. exists (pre ++ wire ty v), post. cbn [at_index rcd_buffer rcd_index rcd_length].
  rewrite uwrap_small by (unfold fits; lia). rewrite Hb, !length_app, <- !app_assoc. split; [done|lia].
Qed.

Lemma at_wires_end r : at_wires r [] -> PosLibTlv_Decode_getNextItem r = Some (POSLIB_TLV_RES_END, r, None).
Proof. intros [(pre & post & _ & Hi & Hl) _ _]. apply decode_end. rewrite Hi, Hl, length_app. cbn. lia. Qed.

Lemma commands_loop_run E fuel ns r cmds ret s :
  at_wires r cmds -> (List.length cmds < fuel)%nat -> commands_loop E fuel ns r ret s = run_commands E ns cmds ret s.
Proof.
  revert fuel r ret s. induction cmds as [|[ty v] cmds IH]; intros fuel r ret s Hr Hf;
    (destruct fuel as [|fuel]; [cbn in Hf; lia|]); cbn [commands_loop run_commands].
  - erewrite readsE by exact (at_wires_end r Hr). done.
  - destruct (at_wires_next r ty v cmds Hr) as (r' & post & E1 & Hr' & _). erewrite readsE by exact E1.
    cbv beta iota. rewrite command_item_of.
    unfold mbind, sf_bind. destruct (command E ns (item_of (ty, v)) s) as [[b s']|]; [|done].
    apply IH; [done|cbn in Hf; lia].
Qed.

Lemma decode_record_run E cls cmds post s :
  record_ok (cls, cmds) ->
  decode_configuration_record E cls (wires cmds ++ post) (Z.of_nat (List.length (wires cmds))) s = run_record E cls cmds s.
Proof.
  intros [_ Hsome Hl Hc]. cbn [fst snd] in *. unfold decode_configuration_record, run_record.
  set (r := PosLibTlv_init _ _).
  assert (Hr : at_wires r cmds).
  { constructor; [exists [], post|unfold fits; cbn; lia|done]. by rewrite app_nil_l. }
  pose proof (length_wires cmds) as Hw. destruct (cls =? POSLIB_CLASS_NODE_SPECIFIC).
  - destruct cmds as [|[ty v] cmds]; [done|]. destruct (at_wires_next r ty v cmds Hr) as (r' & post' & E1 & Hr' & Hl').
    erewrite readsE by exact E1.
    cbv beta iota. rewrite check_item_of.
    unfold mbind, sf_bind. destruct (check_node_address E (item_of (ty, v)) s) as [[[] s']|]; [|done..]. cbn [negb].
    apply commands_loop_run; [done|]. rewrite Hl'. cbn [List.length] in Hw.
    change (rcd_length r) with (Z.of_nat (List.length (wires ((ty, v) :: cmds)))). lia.
  - apply commands_loop_run; [done|]. change (rcd_length r) with (Z.of_nat (List.length (wires cmds))). lia.
Qed.

(** The config in the decoder of [Tlv]. *)
Lemma config_item_wf x : record_ok x -> Tlv.item_wf (config_item x) /\ Tlv.item_bytes (config_item x) = wires x.2.
Proof.
  intros [Hcls Hs Hl Hc]. split.
  - constructor; cbn; [done|unfold fits; lia| |lia]. apply wires_bytes; [done|lia].
  - unfold Tlv.item_bytes, config_item. cbn [Tlv.length Tlv.value]. by rewrite Nat2Z.id, firstn_all.
Qed.

Lemma config_item_long x : record_ok x -> (3 <= List.length (Tlv.wire (config_item x)))%nat.
Proof.
  intros Hx. destruct (config_item_wf x Hx) as [Hw _]. pose proof (Tlv.length_wire _ Hw) as Hl.
  change (Tlv.length (config_item x)) with (Z.of_nat (List.length (wires x.2))) in Hl.
  destruct Hx as [_ Hs _ _]. pose proof (length_wires x.2) as Hn.
  assert (0 < List.length x.2)%nat by (destruct x.2; [done|cbn; lia]). unfold SIZE_EXTENDED_HEADER, SIZE_SHORT_HEADER in Hl. case_match; lia.
Qed.

Lemma records_loop_run E fuel cls r config ret s :
  Tlv.wf r -> Tlv.rest r = config_bytes config -> Forall record_ok config -> (List.length config < fuel)%nat ->
  records_loop E fuel cls r ret s = run_pass E cls config ret s.
Proof.
  intros Hr He Hc. revert fuel r ret s Hr He. induction Hc as [|[c cmds] config Hx Hc IH]; intros fuel r ret s Hr He Hf;
    (destruct fuel as [|fuel]; [cbn in Hf; lia|]); cbn [records_loop run_pass].
  - by rewrite getNextItem_spec, He by done.
  - unfold config_bytes in He. cbn [map] in He. rewrite Tlv.wires_cons in He. fold (config_bytes config) in He.
    destruct (config_item_wf _ Hx) as [Hw Hb]. pose proof (config_item_long _ Hx) as H3.
    rewrite (Tlv.getNextItem_wire r _ _ Hr Hw) with (2 := He);
      [|cbn; destruct Hx as [_ _ Hl _]; cbn in Hl; lia|rewrite He, length_app; lia].
    cbn [Tlv.type Tlv.length Tlv.value config_item fst snd] in *. rewrite Hb.
    pose proof (Tlv.length_rest r Hr) as Hlr. rewrite He, length_app in Hlr.
    destruct Hr as [Hr1 Hr2 Hr3 Hr4] eqn:Er.
    assert (Hnext : forall ret s, records_loop E fuel cls (with_index r (Tlv.rcd_index r + Z.of_nat (List.length (Tlv.wire (config_item (c, cmds)))))) ret s =
                      run_pass E cls config ret s).
    { intros ret' s'. apply IH; [apply with_index_wf; [done|lia]| |cbn in Hf; lia].
      rewrite Tlv.rest_with_index, He, Nat2Z.id by (done || lia). by rewrite drop_app_length. }
    destruct (c =? cls) eqn:Ec.
    + unfold mbind, sf_bind. apply Z.eqb_eq in Ec as ->. rewrite (decode_record_run E cls cmds (config_bytes config) s Hx).
      destruct (run_record E cls cmds s) as [[b s']|]; [|done]. apply Hnext.
    + apply Hnext.
Qed.

Lemma config_bytes_ok config :
  Forall record_ok config -> bytes (config_bytes config) /\ (List.length config <= List.length (config_bytes config))%nat.
Proof.
  induction 1 as [|x config Hx _ [IHb IHl]]; [by split; [constructor|]|].
  unfold config_bytes in *. cbn [map]. rewrite Tlv.wires_cons, length_app. cbn [List.length].
  destruct (config_item_wf x Hx) as [Hw _]. pose proof (config_item_long x Hx) as H3. split; [|lia].
  apply Forall_app. split; [|done]. apply Tlv.wire_bytes; [done|]. destruct Hx as [_ _ Hl _]. cbn. lia.
Qed.


End Decode.

Arguments state : clear implicits.
Arguments env : clear implicits.

(** ** Examples *)

Module Examples.

(** A sub-node with the address 7; the world counts reboots. *)
Definition env0 : env nat := {|
  getNodeAddress := fun _ => Some 7;
  getNodeRole := fun _ => APP_LIB_SETTINGS_ROLE_SUBNODE_LE;
  otap_isValid := fun _ => true;
  otap_isProcessed := fun _ => false;
  otap_getSeq := fun _ => 3;
  setToBeProcessed := fun w => w;
  stopStack := S |}.

Definition ble_off : poslib_ble_mode_config_t := {| tx_power := 0; channels := 7; tx_interval_ms := 1000 |}.

Definition settings0 : poslib_settings_t := {|
  node_mode := POSLIB_MODE_NRLS_TAG; node_class := POSLIB_CLASS_DEFAULT;
  update_period_static_s := 900; update_period_dynamic_s := 0; update_period_offline_s := 0;
  ble := {| ble_type := 3; ble_mode := POSLIB_BLE_OFF; eddystone := ble_off; ibeacon := ble_off; activation_delay_s := 0 |};
  motion := {| motion_enabled := false; threshold_mg := 200; duration_ms := 100 |};
  mbcn := {| mb_enabled := false; mb_tx_interval_ms := 0; mb_records := [] |};
  da := {| routing_enabled := false; follow_network := false |} |}.

Definition state0 : state nat :=
  {| settings := settings0; aux := {| led_on_duration_s := 0; led_cmd_seq := 0 |}; world := 0%nat |}.

(** A record for node 8, one for node 7, which moves it to class B, one of the
    default class and one of class B. *)
Definition config0 : list (Z * items) :=
  [(POSLIB_CLASS_NODE_SPECIFIC, [(6, le_put 4 8); (1, le_put 2 60)]);
   (POSLIB_CLASS_NODE_SPECIFIC, [(6, le_put 4 7); (10, [POSLIB_CLASS_B]); (2, [POSLIB_MODE_DA_TAG])]);
   (POSLIB_CLASS_DEFAULT, [(1, le_put 2 100)]);
   (POSLIB_CLASS_B, [(1, le_put 4 86400); (3, le_put 2 0); (5, le_put 2 7); (8, le_put 2 65535)])].

Definition result0 : poslib_settings_t :=
  set_activation 65535 POSLIB_BLE_ON (set_dynamic 0 (set_static 86400 (set_node_mode POSLIB_MODE_DA_TAG
    (set_node_class POSLIB_CLASS_B settings0)))).

Lemma config0_ok : Forall record_ok config0.
Proof.
  repeat (apply Forall_cons; split); try apply Forall_nil_2;
    (constructor; cbn [fst snd]; [by unfold fits|done|vm_compute; lia|]);
    repeat (apply Forall_cons; split); try apply Forall_nil_2;
    (split; [cbn; lia|split; [done|]]); first [apply le_put_bytes | by repeat constructor].
Qed.


Lemma state0_inv : inv (settings_ok false) state0.
Proof. constructor; [|by unfold fits..]. constructor; cbn; unfold mode_ok, period_ok, fits; (done || (try right; done) || lia). Qed.

Lemma config_settings_ok_witness :
  exists b s', PosLibDecode_config true false env0 (config_bytes config0 ++ [0]) (Z.of_nat (List.length (config_bytes config0))) state0 = Some (b, s') /\
    inv (settings_ok false) s'.
Proof.
  apply (config_settings_ok true false env0); [|by vm_compute|exact state0_inv].
  apply Forall_app. split; [apply (config_bytes_ok config0 config0_ok)|byte_list].
Defined.

(** A command whose value is cut off by one byte takes the byte behind the
    config; without a readable byte there it is a fault. *)
Lemma value_behind_the_config :
  let bs := [POSLIB_CLASS_DEFAULT; 2; 32 * 2 + 1; 60] in
  PosLibDecode_config true false env0 bs 4 state0 = None /\
  (fun x => update_period_static_s (settings x.2)) <$> PosLibDecode_config true false env0 (bs ++ [1]) 4 state0 = Some 316.
Proof. split; by vm_compute. Qed.

(** With a persistent memory a command for the node itself sets a mode that does not exist. *)
Lemma any_mode_with_persistent_memory :
  let config := [(POSLIB_CLASS_NODE_SPECIFIC, [(6, le_put 4 7); (2, [200])])] in
  (fun x => node_mode (settings x.2)) <$> run_config true true env0 config state0 = Some 200 /\
  (fun x => node_mode (settings x.2)) <$> run_config true false env0 config state0 = Some POSLIB_MODE_NRLS_TAG.
Proof. split; by vm_compute. Qed.

(** A class change in the records of a class is skipped, and a period below
    the minimum is refused, while the rest of the record is applied. *)
Lemma refused_commands :
  let config := [(POSLIB_CLASS_DEFAULT, [(10, [POSLIB_CLASS_B]); (1, le_put 2 7); (14, le_put 2 30)])] in
  (fun x => (x.1, node_class (settings x.2), update_period_static_s (settings x.2), led_on_duration_s (aux x.2))) <$>
    run_config true false env0 config state0 = Some (true, POSLIB_CLASS_DEFAULT, 900, 30).
Proof. by vm_compute. Qed.

End Examples.
