(* ===== verification/PosMeasurement.v ===== *)
(** * Position measurements

    [libraries/positioning/poslib/poslib_measurement.c]: the table of the
    beacons that were heard during a scan, with their filtered signal strengths,
    and the message made of it.  The scan and the tables in which the callbacks
    are registered are parameters, as is the voltage, whose report is an option
    of the build. *)

From S2P Require Import Prelude Api.

(** [poslib_measurements_e], the types of the records *)
Definition POSLIB_MEAS_VOLTAGE : Z := 0x04.
Definition POSLIB_MEAS_RSS_SR_4BYTE_ADDR : Z := 0x05.
Definition POSLIB_MEAS_NODE_INFO : Z := 0x06.

Definition MAX_PAYLOAD : Z := 102.
Definition MAX_BEACONS : nat := 14.
Definition MAX_FLT_SAMPLES : Z := 8.
Definition SCAN_MODE_STANDARD : Z := 1.
Definition POSLIB_VOLTAGE_SAMPLING_MAX_S : Z := 60.
Definition POSLIB_VOLTAGE_FILTER_SAMPLES : Z := 30.
Definition POSLIB_MBCN_SRC_EP : Z := 238.
Definition POSLIB_MBCN_DEST_EP : Z := 238.
Definition POSLIB_CTRL_EVENT_SCAN_STARTED : Z := 1.
Definition POSLIB_CTRL_EVENT_SCAN_END : Z := 2.
Definition APP_LIB_STATE_BEACON_TYPE_NB : Z := 0.
Definition APP_LIB_STATE_BEACON_TYPE_CB : Z := 1.
Definition APP_LIB_SETTINGS_ROLE_ADVERTISER : Z := 4.

Inductive poslib_meas_beacon_type_e :=
| POSLIB_MEAS_BEACON_TYPE_CB | POSLIB_MEAS_BEACON_TYPE_NB | POSLIB_MEAS_BEACON_TYPE_MBCN
| POSLIB_MEAS_BEACON_TYPE_FLT | POSLIB_MEAS_BEACON_TYPE_UNKNOWN.

(** [last_update] is not read anywhere. *)
Record poslib_meas_wm_beacon_t := {
  address : Z; norm_rss : Z; txpower : Z; type : poslib_meas_beacon_type_e; samples : Z; last_update : Z }.

Record poslib_meas_table_t := {
  beacons : list poslib_meas_wm_beacon_t; num_beacons : nat; min_index : nat; min_rss : Z }.

(** What the callbacks read of a beacon and of a received packet. *)
Record app_lib_state_beacon_rx_t := { rx_address : Z; rx_rssi : Z; rx_txpower : Z; rx_type : Z }.
Record mbcn_received_t := { mac_src_address : Z; mb_rssi : Z; mb_tx_power : Z }.

Record poslib_scan_ctrl_t := { mode : Z; max_duration_ms : Z }.
Record poslib_meas_record_node_info_t := { update_s : Z; features : Z; node_mode : Z; node_class : Z }.

(** [(int16_t)] *)
Definition s16 (x : Z) : Z := (x + 2 ^ 15) mod 2 ^ 16 - 2 ^ 15.

Definition zero_beacon : poslib_meas_wm_beacon_t :=
  {| address := 0; norm_rss := 0; txpower := 0; type := POSLIB_MEAS_BEACON_TYPE_CB; samples := 0; last_update := 0 |}.
Definition zero_table : poslib_meas_table_t :=
  {| beacons := repeat zero_beacon MAX_BEACONS; num_beacons := 0; min_index := 0; min_rss := 0 |}.

(** ** The table *)

Definition set_min (i : nat) (rss : Z) (t : poslib_meas_table_t) : poslib_meas_table_t :=
  {| beacons := beacons t; num_beacons := num_beacons t; min_index := i; min_rss := rss |}.
Definition set_num (n : nat) (t : poslib_meas_table_t) : poslib_meas_table_t :=
  {| beacons := beacons t; num_beacons := n; min_index := min_index t; min_rss := min_rss t |}.
Definition set_beacons (l : list poslib_meas_wm_beacon_t) (t : poslib_meas_table_t) : poslib_meas_table_t :=
  {| beacons := l; num_beacons := num_beacons t; min_index := min_index t; min_rss := min_rss t |}.

Definition clear_measurement_table (t : poslib_meas_table_t) : poslib_meas_table_t :=
  set_beacons (repeat zero_beacon MAX_BEACONS) (set_num 0 t).

Definition beacon_at (t : poslib_meas_table_t) (i : nat) : poslib_meas_wm_beacon_t := default zero_beacon (beacons t !! i).

(** One round of the loop of [update_min]. *)
Definition min_step (t : poslib_meas_table_t) (i : nat) : poslib_meas_table_t :=
  if norm_rss (beacon_at t i) <? min_rss t then set_min i (norm_rss (beacon_at t i)) t else t.

Definition update_min (t : poslib_meas_table_t) : poslib_meas_table_t :=
  fold_left min_step (seq 0 (num_beacons t)) (set_min (min_index t) 0 t).

(** The first entry with this address. *)
Fixpoint search (addr : Z) (l : list poslib_meas_wm_beacon_t) : option nat :=
  match l with
  | [] => None
  | x :: l => if address x =? addr then Some O else S <$> search addr l
  end.

(** The index to write, or [MAX_BEACONS], and the table with its new count or minimum. *)
Definition insert_index (b : poslib_meas_wm_beacon_t) (t : poslib_meas_table_t) : nat * poslib_meas_table_t :=
  match search (address b) (take (num_beacons t) (beacons t)) with
  | Some i => (i, t)
  | None =>
      if (num_beacons t =? MAX_BEACONS)%nat then
        let t := update_min t in
        (if min_rss t <? norm_rss b then min_index t else MAX_BEACONS, t)
      else (num_beacons t, set_num (S (num_beacons t)) t)
  end.

(** The entry [e] after the beacon [b], heard at [now]. *)
Definition filter_beacon (b : poslib_meas_wm_beacon_t) (now : Z) (e : poslib_meas_wm_beacon_t) : poslib_meas_wm_beacon_t :=
  let n := if samples e <? MAX_FLT_SAMPLES then samples e + 1 else samples e in
  if 1 <? n then
    {| address := address b; norm_rss := s16 (norm_rss e + (norm_rss b - norm_rss e) ÷ n); txpower := txpower b;
       type := POSLIB_MEAS_BEACON_TYPE_FLT; samples := n; last_update := now |}
  else
    {| address := address b; norm_rss := norm_rss b; txpower := txpower b; type := type b; samples := n;
       last_update := now |}.

Definition update_table (b : poslib_meas_wm_beacon_t) (now : Z) (it : nat * poslib_meas_table_t) : poslib_meas_table_t :=
  if (it.1 <? MAX_BEACONS)%nat
  then set_beacons (<[it.1 := filter_beacon b now (beacon_at it.2 it.1)]> (beacons it.2)) it.2
  else it.2.

(** ** The message *)

Record poslib_meas_payload_buffer_t := { dest : list Z; max_len : Z; cursor : Z }.

Definition get_payload_len (buf : poslib_meas_payload_buffer_t) : Z := u8 (cursor buf).

Definition set_cursor (c : Z) (buf : poslib_meas_payload_buffer_t) : poslib_meas_payload_buffer_t :=
  {| dest := dest buf; max_len := max_len buf; cursor := c |}.

Definition meas_copy_payload (from : list Z) (buf : poslib_meas_payload_buffer_t) : bool * poslib_meas_payload_buffer_t :=
  let len := Z.of_nat (List.length from) in
  if max_len buf - get_payload_len buf <? len then (false, buf)
  else (true, {| dest := blit (Z.to_nat (cursor buf)) from (dest buf); max_len := max_len buf; cursor := cursor buf + len |}).

Definition node_info_bytes (x : poslib_meas_record_node_info_t) : list Z :=
  le_put 4 (update_s x) ++ le_put 4 (features x) ++ [node_mode x; node_class x].

Definition add_node_info_record (x : poslib_meas_record_node_info_t) (buf : poslib_meas_payload_buffer_t)
    : bool * poslib_meas_payload_buffer_t :=
  let '(r1, b) := meas_copy_payload [POSLIB_MEAS_NODE_INFO; 10] buf in
  let '(r2, b) := meas_copy_payload (node_info_bytes x) b in
  if r1 && r2 then (true, b) else (false, set_cursor (cursor buf) b).

(** [norm_rss * -2], cut to a byte. *)
Definition rss_byte (rss : Z) : Z :=
  let v := s16 (rss * -2) in if 0xFF <=? v then 0xFF else u8 v.

Definition rss_data (b : poslib_meas_wm_beacon_t) : list Z := le_put 4 (address b) ++ [rss_byte (norm_rss b)].

(** The loop over the entries, until one does not fit. *)
Fixpoint add_rss_loop (l : list poslib_meas_wm_beacon_t) (ret : bool) (buf : poslib_meas_payload_buffer_t)
    : bool * poslib_meas_payload_buffer_t :=
  match l with
  | [] => (ret, buf)
  | x :: l =>
      let '(r, buf) := meas_copy_payload (rss_data x) buf in
      if ret && r then add_rss_loop l true buf else (false, buf)
  end.

Definition add_rss_record (t : poslib_meas_table_t) (meas_type : Z) (buf : poslib_meas_payload_buffer_t)
    : nat * poslib_meas_payload_buffer_t :=
  let num_meas := num_beacons t in
  if (num_meas =? 0)%nat then (num_meas, buf)
  else
    let '(r1, b) := meas_copy_payload [meas_type; u8 (Z.of_nat num_meas * 5)] buf in
    let '(r2, b) := add_rss_loop (take num_meas (beacons t)) r1 b in
    if r2 then (num_meas, b) else (O, set_cursor (cursor buf) b).

Definition add_voltage_record (voltage : Z) (buf : poslib_meas_payload_buffer_t) : bool * poslib_meas_payload_buffer_t :=
  let '(r, b) := meas_copy_payload ([POSLIB_MEAS_VOLTAGE; 2] ++ le_put 2 voltage) buf in
  if r then (true, b) else (false, set_cursor (cursor buf) b).

(** The parts of a message that are always there: the sequence, and the measurements. *)
Definition add_measurements (t : poslib_meas_table_t) (sequence meas_type : Z) (buf : poslib_meas_payload_buffer_t)
    : bool * nat * poslib_meas_payload_buffer_t :=
  let '(r, buf) := meas_copy_payload (le_put 2 (u8 sequence)) buf in
  if r then
    let '(num_meas, buf) := add_rss_record t meas_type buf in
    (negb (num_meas =? 0)%nat, num_meas, buf)
  else (false, O, buf).

(** [if (ret && node_info != NULL)] *)
Definition add_node_info (node_info : option poslib_meas_record_node_info_t) (ret : bool) (buf : poslib_meas_payload_buffer_t)
    : bool * poslib_meas_payload_buffer_t :=
  match node_info with
  | Some x => if ret then add_node_info_record x buf else (ret, buf)
  | None => (ret, buf)
  end.

(** ** The module *)

Section Measurement.
Context {W : Type} (CONF_VOLTAGE_REPORT : bool).

Record state := {
  m_meas_table : poslib_meas_table_t;
  m_beacon_cb_id : Z;
  m_beacon_cb_reg : bool;
  m_opportunistic : bool;
  m_mbcn_item : bool;
  m_time_when_no_beacons_s : Z;
  m_scan_pending : bool;
  m_init : bool;
  m_samples : Z;
  m_voltage_sampling_time_s : Z;
  m_voltage_flt : Z;
  world : W }.

(** [add_beacon_cb] gives the identifier, or [None] when it does not set it;
    the two [add_..._cb] and [startScanNbors] tell whether the result is [APP_RES_OK]. *)
Record env := {
  add_scanend_cb : W -> bool * W;
  remove_scanend_cb : W -> W;
  add_beacon_cb : W -> option Z * W;
  remove_beacon_cb : Z -> W -> W;
  add_mbcn_cb : W -> bool * W;
  remove_mbcn_cb : W -> W;
  startScanNbors : W -> bool * W;
  stopScanNbors : W -> W;
  add_stop_task : Z -> W -> bool * W;
  PosLibEvent_add : Z -> W -> bool * W;
  getNodeRole : W -> Z;
  getTimestampHp : W -> Z * W;
  getTimestampS : W -> Z * W;
  voltageGet : W -> Z * W }.

Abbreviation M := (st state).

Definition set_world (w : W) (s : state) : state :=
  {| m_meas_table := m_meas_table s; m_beacon_cb_id := m_beacon_cb_id s; m_beacon_cb_reg := m_beacon_cb_reg s;
     m_opportunistic := m_opportunistic s; m_mbcn_item := m_mbcn_item s;
     m_time_when_no_beacons_s := m_time_when_no_beacons_s s; m_scan_pending := m_scan_pending s; m_init := m_init s;
     m_samples := m_samples s; m_voltage_sampling_time_s := m_voltage_sampling_time_s s;
     m_voltage_flt := m_voltage_flt s; world := w |}.
Definition set_table (t : poslib_meas_table_t) (s : state) : state :=
  {| m_meas_table := t; m_beacon_cb_id := m_beacon_cb_id s; m_beacon_cb_reg := m_beacon_cb_reg s;
     m_opportunistic := m_opportunistic s; m_mbcn_item := m_mbcn_item s;
     m_time_when_no_beacons_s := m_time_when_no_beacons_s s; m_scan_pending := m_scan_pending s; m_init := m_init s;
     m_samples := m_samples s; m_voltage_sampling_time_s := m_voltage_sampling_time_s s;
     m_voltage_flt := m_voltage_flt s; world := world s |}.
Definition set_callback (id : Z) (reg : bool) (s : state) : state :=
  {| m_meas_table := m_meas_table s; m_beacon_cb_id := id; m_beacon_cb_reg := reg;
     m_opportunistic := m_opportunistic s; m_mbcn_item := m_mbcn_item s;
     m_time_when_no_beacons_s := m_time_when_no_beacons_s s; m_scan_pending := m_scan_pending s; m_init := m_init s;
     m_samples := m_samples s; m_voltage_sampling_time_s := m_voltage_sampling_time_s s;
     m_voltage_flt := m_voltage_flt s; world := world s |}.
(** The flags: opportunistic, mini-beacon item in use, scan pending, initialised. *)
Definition set_flags (opp item pending ini : bool) (s : state) : state :=
  {| m_meas_table := m_meas_table s; m_beacon_cb_id := m_beacon_cb_id s; m_beacon_cb_reg := m_beacon_cb_reg s;
     m_opportunistic := opp; m_mbcn_item := item;
     m_time_when_no_beacons_s := m_time_when_no_beacons_s s; m_scan_pending := pending; m_init := ini;
     m_samples := m_samples s; m_voltage_sampling_time_s := m_voltage_sampling_time_s s;
     m_voltage_flt := m_voltage_flt s; world := world s |}.
Definition set_no_beacons (v : Z) (s : state) : state :=
  {| m_meas_table := m_meas_table s; m_beacon_cb_id := m_beacon_cb_id s; m_beacon_cb_reg := m_beacon_cb_reg s;
     m_opportunistic := m_opportunistic s; m_mbcn_item := m_mbcn_item s;
     m_time_when_no_beacons_s := v; m_scan_pending := m_scan_pending s; m_init := m_init s;
     m_samples := m_samples s; m_voltage_sampling_time_s := m_voltage_sampling_time_s s;
     m_voltage_flt := m_voltage_flt s; world := world s |}.
Definition set_voltage (n time flt : Z) (s : state) : state :=
  {| m_meas_table := m_meas_table s; m_beacon_cb_id := m_beacon_cb_id s; m_beacon_cb_reg := m_beacon_cb_reg s;
     m_opportunistic := m_opportunistic s; m_mbcn_item := m_mbcn_item s;
     m_time_when_no_beacons_s := m_time_when_no_beacons_s s; m_scan_pending := m_scan_pending s; m_init := m_init s;
     m_samples := n; m_voltage_sampling_time_s := time; m_voltage_flt := flt; world := world s |}.

Definition set_opportunistic (b : bool) (s : state) : state := set_flags b (m_mbcn_item s) (m_scan_pending s) (m_init s) s.
Definition set_item (b : bool) (s : state) : state := set_flags (m_opportunistic s) b (m_scan_pending s) (m_init s) s.
Definition set_pending (b : bool) (s : state) : state := set_flags (m_opportunistic s) (m_mbcn_item s) b (m_init s) s.
Definition set_init (b : bool) (s : state) : state := set_flags (m_opportunistic s) (m_mbcn_item s) (m_scan_pending s) b s.

Definition calls {A} (f : W -> A * W) : M A := fun s => ((f (world s)).1, set_world (f (world s)).2 s).
Definition runs_call (f : W -> W) : M unit := modify (fun s => set_world (f (world s)) s).
Definition on_table (f : poslib_meas_table_t -> poslib_meas_table_t) : M unit :=
  modify (fun s => set_table (f (m_meas_table s)) s).

Definition insert_beacon (E : env) (b : poslib_meas_wm_beacon_t) : M unit :=
  it ← gets (fun s => insert_index b (m_meas_table s));
  now ← (if (it.1 <? MAX_BEACONS)%nat then calls (getTimestampHp E) else mret 0);
  modify (set_table (update_table b now it)).

Definition deregister_callbacks (E : env) : M unit :=
  _ ← runs_call (remove_scanend_cb E);
  reg ← gets m_beacon_cb_reg;
  _ ← (if (reg : bool) then
         id ← gets m_beacon_cb_id;
         _ ← runs_call (remove_beacon_cb E id);
         modify (set_callback id false)
       else mret tt);
  item ← gets m_mbcn_item;
  if (item : bool) then
    _ ← runs_call (remove_mbcn_cb E);
    modify (set_item false)
  else mret tt.

(** The result of [Shared_Neighbors_addOnBeaconCb] is dropped. *)
Definition register_callbacks (E : env) : M unit :=
  _ ← calls (add_scanend_cb E);
  reg ← gets m_beacon_cb_reg;
  _ ← (if (reg : bool) then mret tt else
         id ← calls (add_beacon_cb E);
         old ← gets m_beacon_cb_id;
         modify (set_callback (default old id) true));
  item ← gets m_mbcn_item;
  if (item : bool) then mret tt
  else ok ← calls (add_mbcn_cb E); modify (set_item ok).

Definition init_module : M unit :=
  ini ← gets m_init;
  if (ini : bool) then mret tt
  else _ ← on_table (fun _ => zero_table); modify (set_init true).

Definition scanend_cb (E : env) (complete : bool) : M unit :=
  role ← gets (fun s => getNodeRole E (world s));
  _ ← (if complete || (role =? APP_LIB_SETTINGS_ROLE_ADVERTISER) then
         opp ← gets m_opportunistic;
         _ ← (if (opp : bool) then mret tt else deregister_callbacks E);
         n ← gets (fun s => num_beacons (m_meas_table s));
         time ← gets m_time_when_no_beacons_s;
         if (n =? 0)%nat && (time =? 0) then now ← calls (getTimestampS E); modify (set_no_beacons now)
         else if negb (n =? 0)%nat then modify (set_no_beacons 0) else mret tt
       else mret tt);
  _ ← calls (PosLibEvent_add E POSLIB_CTRL_EVENT_SCAN_END);
  modify (set_pending false).

Definition beacon_cb (E : env) (x : app_lib_state_beacon_rx_t) : M unit :=
  now ← calls (getTimestampHp E);
  insert_beacon E
    {| address := rx_address x; norm_rss := s16 (rx_rssi x - rx_txpower x); txpower := rx_txpower x;
       type := if rx_type x =? APP_LIB_STATE_BEACON_TYPE_NB then POSLIB_MEAS_BEACON_TYPE_NB
               else if rx_type x =? APP_LIB_STATE_BEACON_TYPE_CB then POSLIB_MEAS_BEACON_TYPE_CB
               else POSLIB_MEAS_BEACON_TYPE_UNKNOWN;
       samples := 1; last_update := now |}.

(** The endpoints are those of the filter of the item. *)
Definition mbcn_cb (E : env) (src_endpoint dest_endpoint : Z) (x : mbcn_received_t) : M Z :=
  if negb (src_endpoint =? POSLIB_MBCN_SRC_EP) || negb (dest_endpoint =? POSLIB_MBCN_DEST_EP)
  then mret APP_LIB_DATA_RECEIVE_RES_HANDLED
  else
    now ← calls (getTimestampHp E);
    _ ← insert_beacon E
      {| address := mac_src_address x; norm_rss := s16 (mb_rssi x - mb_tx_power x); txpower := mb_tx_power x;
         type := POSLIB_MEAS_BEACON_TYPE_MBCN; samples := 1; last_update := now |};
    mret APP_LIB_DATA_RECEIVE_RES_HANDLED.

Definition PosLibMeas_opportunisticScan (E : env) (enable : bool) : M bool :=
  _ ← init_module;
  _ ← (if enable then
         _ ← register_callbacks E;
         _ ← modify (set_opportunistic true);
         on_table clear_measurement_table
       else
         _ ← deregister_callbacks E;
         modify (set_opportunistic false));
  mret true.

(** The task that ends a scan. *)
Definition stop_scan_task (E : env) : M unit := runs_call (stopScanNbors E).

Definition PosLibMeas_startScan (E : env) (ctrl : poslib_scan_ctrl_t) : M bool :=
  _ ← init_module;
  pending ← gets m_scan_pending;
  if (pending : bool) then mret false
  else if negb (mode ctrl =? SCAN_MODE_STANDARD) then mret false
  else
    _ ← on_table clear_measurement_table;
    _ ← register_callbacks E;
    started ← calls (startScanNbors E);
    if negb started then mret false
    else
      _ ← modify (set_pending true);
      _ ← (if 0 <? max_duration_ms ctrl
           then _ ← calls (add_stop_task E (max_duration_ms ctrl)); mret tt else mret tt);
      _ ← calls (PosLibEvent_add E POSLIB_CTRL_EVENT_SCAN_STARTED);
      mret true.

Definition PosLibMeas_stop (E : env) : M unit :=
  _ ← deregister_callbacks E;
  _ ← modify (set_opportunistic false);
  modify (set_pending false).

Definition PosLibMeas_getBeaconNum : M Z := gets (fun s => Z.of_nat (num_beacons (m_meas_table s))).

Definition PosLibMeas_clearMeas : M unit := on_table (fun _ => zero_table).

(** A moving average over the last samples, one a minute at most. *)
Definition get_voltage (E : env) : M Z :=
  if negb CONF_VOLTAGE_REPORT then mret 0
  else
    now ← calls (getTimestampS E);
    time ← gets m_voltage_sampling_time_s;
    n ← gets m_samples;
    flt ← gets m_voltage_flt;
    if (POSLIB_VOLTAGE_SAMPLING_MAX_S <=? u32 (now - time)) || (n =? 0) then
      voltage ← calls (voltageGet E);
      let delta k := s16 (s16 (u16 voltage - flt) ÷ k) in
      let flt' := if POSLIB_VOLTAGE_FILTER_SAMPLES <=? n then u16 (flt + delta POSLIB_VOLTAGE_FILTER_SAMPLES)
                  else u16 (flt + delta (u8 (n + 1))) in
      _ ← modify (set_voltage (if POSLIB_VOLTAGE_FILTER_SAMPLES <=? n then n else u8 (n + 1)) now flt');
      mret flt'
    else mret flt.

(** The result, the buffer, [num_bytes] and [num_meas]. *)
Definition PosLibMeas_getPayload (E : env) (bytes : list Z) (max_len sequence meas_type : Z) (add_voltage : bool)
    (node_info : option poslib_meas_record_node_info_t) : M (bool * list Z * Z * nat) :=
  t ← gets m_meas_table;
  let '(ret, num_meas, buf) := add_measurements t sequence meas_type {| dest := bytes; max_len := max_len; cursor := 0 |} in
  '(ret, buf) ← (if ret && add_voltage
                 then v ← get_voltage E; mret (add_voltage_record v buf) else mret (ret, buf));
  let '(ret, buf) := add_node_info node_info ret buf in
  mret (ret, dest buf, get_payload_len buf, num_meas).

End Measurement.

Arguments state : clear implicits.
Arguments env : clear implicits.

(** * Properties *)

(** ** The table *)

Definition entries (t : poslib_meas_table_t) : list poslib_meas_wm_beacon_t := take (num_beacons t) (beacons t).

Definition rss_ok (v : Z) : Prop := -255 <= v <= 255.

Record entry_ok (e : poslib_meas_wm_beacon_t) : Prop := {
  en_address : is_u32 (address e);
  en_rss : rss_ok (norm_rss e);
  en_samples : 1 <= samples e <= MAX_FLT_SAMPLES }.

(** At most fourteen entries, of different nodes; behind them nothing is left of
    earlier scans. *)
Record table_ok (t : poslib_meas_table_t) : Prop := {
  tb_length : List.length (beacons t) = MAX_BEACONS;
  tb_num : (num_beacons t <= MAX_BEACONS)%nat;
  tb_min : (min_index t < MAX_BEACONS)%nat;
  tb_unique : NoDup (map address (entries t));
  tb_entries : Forall entry_ok (entries t);
  tb_rest : drop (num_beacons t) (beacons t) = repeat zero_beacon (MAX_BEACONS - num_beacons t) }.

Lemma zero_table_ok n rss : (n < MAX_BEACONS)%nat -> table_ok {| beacons := repeat zero_beacon MAX_BEACONS; num_beacons := 0; min_index := n; min_rss := rss |}.
Proof. intros. by constructor; cbn; try lia; constructor. Qed.

Lemma clear_ok t : table_ok t -> table_ok (clear_measurement_table t).
Proof. intros Ht. apply (zero_table_ok _ (min_rss t)). apply Ht. Qed.

Lemma s16_small x : -32768 <= x < 32768 -> s16 x = x.
Proof. intros. unfold s16. rewrite Z.mod_small by lia. lia. Qed.

(** The filter moves the strength towards the new one, without overshoot. *)
Lemma quot_between d n : 1 <= n -> Z.min 0 d <= d ÷ n <= Z.max 0 d.
Proof.
  intros Hn. destruct (Z.le_ge_cases 0 d).
  - rewrite Z.quot_div_nonneg by lia. pose proof (Z.div_pos d n ltac:(lia) ltac:(lia)).
    pose proof (Z.div_le_upper_bound d n d ltac:(lia) ltac:(nia)). lia.
  - rewrite <- (Z.opp_involutive d), Z.quot_opp_l, Z.quot_div_nonneg by lia.
    pose proof (Z.div_pos (- d) n ltac:(lia) ltac:(lia)).
    pose proof (Z.div_le_upper_bound (- d) n (- d) ltac:(lia) ltac:(nia)). lia.
Qed.

Lemma filter_rss a b n : rss_ok a -> rss_ok b -> 1 <= n -> s16 (a + (b - a) ÷ n) = a + (b - a) ÷ n /\ Z.min a b <= a + (b - a) ÷ n <= Z.max a b.
Proof. unfold rss_ok. intros Ha Hb Hn. pose proof (quot_between (b - a) n Hn). split; [apply s16_small|]; lia. Qed.

(** A beacon as the callbacks make it. *)
Record heard_ok (b : poslib_meas_wm_beacon_t) : Prop := { hd_address : is_u32 (address b); hd_rss : rss_ok (norm_rss b) }.

Lemma filter_ok b now e :
  heard_ok b -> entry_ok e \/ e = zero_beacon -> entry_ok (filter_beacon b now e) /\ address (filter_beacon b now e) = address b.
Proof.
  intros [Ha Hr] He. unfold filter_beacon, MAX_FLT_SAMPLES. set (n := if samples e <? 8 then samples e + 1 else samples e).
  assert (Hn : 1 <= n <= 8 /\ rss_ok (norm_rss e)).
  { subst n. destruct He as [[_ Hre Hs]| ->]; [|by split; [cbn|unfold rss_ok; cbn; lia]]. unfold MAX_FLT_SAMPLES in Hs.
    split; [|done]. destruct (Z.ltb_spec (samples e) 8); lia. }
  destruct Hn as [Hn Hre]. destruct (1 <? n); (split; [constructor; cbn; [done| |done]|done]); [|done].
  destruct (filter_rss (norm_rss e) (norm_rss b) n Hre Hr ltac:(lia)) as [-> Hb]. unfold rss_ok in *. lia.
Qed.

Lemma search_some a l i : search a l = Some i -> exists e, l !! i = Some e /\ address e = a.
Proof.
  revert i. induction l as [|x l IH]; intros i; [done|]. cbn [search]. destruct (Z.eqb_spec (address x) a) as [Hx|].
  - intros [= <-]. by exists x.
  - destruct (search a l) as [j|] eqn:E; [|done]. cbn. intros [= <-]. by apply IH.
Qed.

Lemma search_none a l : search a l = None -> a ∉ map address l.
Proof.
  induction l as [|x l IH]; cbn [search map]; [intros _; apply not_elem_of_nil|].
  destruct (Z.eqb_spec (address x) a); [done|]. destruct (search a l); [done|]. intros _.
  apply not_elem_of_cons. split; [done|by apply IH].
Qed.

(** The loop of [update_min] on a part of the table. *)
Lemma min_fold l t :
  Forall (fun i => i < MAX_BEACONS)%nat l -> (min_index t < MAX_BEACONS)%nat ->
  let t' := fold_left min_step l t in
  beacons t' = beacons t /\ num_beacons t' = num_beacons t /\ (min_index t' < MAX_BEACONS)%nat /\
  (forall i, i ∈ l -> min_rss t' <= norm_rss (beacon_at t i)) /\ min_rss t' <= min_rss t /\
  (min_rss t' = min_rss t /\ min_index t' = min_index t \/ exists i, i ∈ l /\ min_index t' = i /\ norm_rss (beacon_at t i) = min_rss t').
Proof.
  revert t. induction l as [|j l IH]; intros t Hl Ht; cbn [fold_left].
  { split_and!; [done..| |lia|by left]. by intros i ?%elem_of_nil. }
  apply Forall_cons in Hl as [Hj Hl]. set (t1 := min_step t j).
  assert (H1 : beacons t1 = beacons t /\ num_beacons t1 = num_beacons t /\ (min_index t1 < MAX_BEACONS)%nat /\
    min_rss t1 <= norm_rss (beacon_at t j) /\ min_rss t1 <= min_rss t /\
    (min_rss t1 = min_rss t /\ min_index t1 = min_index t \/ min_index t1 = j /\ norm_rss (beacon_at t j) = min_rss t1)).
  { subst t1. unfold min_step. destruct (Z.ltb_spec (norm_rss (beacon_at t j)) (min_rss t)); cbn; split_and!; try done; try lia; auto. }
  destruct H1 as (Hb & Hn & Hi & Hj1 & Hr & Hc).
  assert (Hat : forall i, beacon_at t1 i = beacon_at t i) by (intros i; unfold beacon_at; by rewrite Hb).
  destruct (IH t1 Hl Hi) as (Hb' & Hn' & Hi' & Ha' & Hr' & Hc'). cbn zeta. split_and!; [congruence..|done| |lia|].
  - intros i [->|H]%elem_of_cons; [lia|]. rewrite <- Hat. by apply Ha'.
  - destruct Hc' as [[Hc' Hx']|(i & Hin & Hx & Hv)].
    + rewrite Hc', Hx'. destruct Hc as [Hc|[Hx Hv]]; [by left|right]. exists j. split; [by left|done].
    + right. exists i. rewrite <- Hat. split; [by right|done].
Qed.

(** A minimum is found when the strengths are below zero. *)
Lemma update_min_spec t :
  (num_beacons t <= MAX_BEACONS)%nat -> (min_index t < MAX_BEACONS)%nat ->
  let t' := update_min t in
  beacons t' = beacons t /\ num_beacons t' = num_beacons t /\ (min_index t' < MAX_BEACONS)%nat /\ min_rss t' <= 0 /\
  (forall i, (i < num_beacons t)%nat -> min_rss t' <= norm_rss (beacon_at t i)) /\
  (min_rss t' < 0 -> (min_index t' < num_beacons t)%nat /\ norm_rss (beacon_at t (min_index t')) = min_rss t').
Proof.
  intros Hn Hi. unfold update_min. set (t0 := set_min (min_index t) 0 t).
  destruct (min_fold (seq 0 (num_beacons t)) t0) as (Hb & Hnum & Hi' & Ha & Hr & Hc); [|done|].
  { apply Forall_forall. intros i Hx%elem_of_seq. lia. }
  cbn zeta. split_and!; [done..|exact Hr| |].
  - intros i Hx. apply Ha. apply elem_of_seq. lia.
  - intros Hlt. destruct Hc as [[Hc _]|(i & Hx%elem_of_seq & -> & Hv)]; [|by split; [lia|]].
    change (min_rss t0) with 0 in Hc. lia.
Qed.


Lemma beacon_at_entry t i : table_ok t -> (i < num_beacons t)%nat -> entries t !! i = Some (beacon_at t i).
Proof.
  intros Ht Hi. unfold entries, beacon_at. rewrite lookup_take_lt by done.
  destruct (beacons t !! i) eqn:E; [done|]. apply lookup_ge_None_1 in E. rewrite (tb_length t Ht) in E. pose proof (tb_num t Ht). lia.
Qed.

Lemma length_entries t : table_ok t -> List.length (entries t) = num_beacons t.
Proof. intros Ht. unfold entries. rewrite length_take, (tb_length t Ht). pose proof (tb_num t Ht). lia. Qed.

Lemma NoDup_overwrite (l : list Z) i a : NoDup l -> a ∉ l -> NoDup (<[i := a]> l).
Proof.
  intros Hl Ha. apply NoDup_alt. intros j k x Hj Hk.
  apply list_lookup_insert_Some in Hj as [(-> & <- & ?)|(? & Hj)]; apply list_lookup_insert_Some in Hk as [(-> & ? & ?)|(? & Hk)];
    [done| | |]; subst.
  - destruct Ha. by eapply list_elem_of_lookup_2.
  - destruct Ha. by eapply list_elem_of_lookup_2.
  - by eapply NoDup_lookup.
Qed.

(** The table with the entry [i] written. *)
Definition written (b : poslib_meas_wm_beacon_t) (now : Z) (i : nat) (t : poslib_meas_table_t) : poslib_meas_table_t :=
  set_beacons (<[i := filter_beacon b now (beacon_at t i)]> (beacons t)) t.

Lemma write_ok b now t i :
  table_ok t -> heard_ok b -> (i < num_beacons t)%nat ->
  address (beacon_at t i) = address b \/ address b ∉ map address (entries t) ->
  table_ok (written b now i t) /\ entries (written b now i t) = <[i := filter_beacon b now (beacon_at t i)]> (entries t).
Proof.
  intros Ht Hb Hi Ha. pose proof (beacon_at_entry t i Ht Hi) as He.
  assert (Hen : entries (written b now i t) = <[i := filter_beacon b now (beacon_at t i)]> (entries t)).
  { unfold entries, written. cbn [num_beacons beacons set_beacons]. by rewrite take_insert_lt. }
  destruct (filter_ok b now (beacon_at t i) Hb) as [Hf Hfa].
  { left. eapply Forall_lookup_1; [apply Ht|done]. }
  split; [|done]. destruct Ht as [Hl Hn Hm Hu Hall Hr]. constructor; rewrite ?Hen; cbn [written num_beacons beacons min_index set_beacons].
  - by rewrite length_insert.
  - done.
  - done.
  - rewrite (list_fmap_insert address), Hfa. destruct Ha as [Ha|Ha]; [|by apply NoDup_overwrite].
    rewrite list_insert_id; [done|]. rewrite list_lookup_fmap, He. cbn. by rewrite Ha.
  - by apply Forall_insert.
  - by rewrite drop_insert_lt.
Qed.

(** The first heard beacon of a node, while there is room. *)
Lemma append_record_ok b now t :
  table_ok t -> heard_ok b -> (num_beacons t < MAX_BEACONS)%nat -> address b ∉ map address (entries t) ->
  let t' := written b now (num_beacons t) (set_num (S (num_beacons t)) t) in
  table_ok t' /\ entries t' = entries t ++ [filter_beacon b now zero_beacon].
Proof.
  intros Ht Hb Hn Ha. set (n := num_beacons t) in *. set (t' := written _ _ _ _).
  pose proof Ht as [Hl _ Hm Hu Hall Hr]. fold n in Hr.
  destruct (MAX_BEACONS - n)%nat as [|k] eqn:Ek; [lia|]. cbn [repeat] in Hr.
  assert (Hat : beacons t !! n = Some zero_beacon).
  { rewrite <- (Nat.add_0_r n), <- lookup_drop, Hr. done. }
  assert (Hz : beacon_at (set_num (S n) t) n = zero_beacon) by (unfold beacon_at; cbn [set_num beacons]; by rewrite Hat).
  destruct (filter_ok b now zero_beacon Hb (or_intror eq_refl)) as [Hf Hfa].
  assert (Hen : entries t' = entries t ++ [filter_beacon b now zero_beacon]).
  { unfold entries, t', written. cbn [num_beacons beacons set_beacons set_num]. rewrite Hz.
    rewrite (take_S_r _ _ (filter_beacon b now zero_beacon)) by (apply list_lookup_insert_eq; lia).
    by rewrite take_insert_ge. }
  split; [|done]. constructor; rewrite ?Hen; unfold t', written; cbn [num_beacons beacons min_index set_beacons set_num].
  - by rewrite length_insert.
  - lia.
  - done.
  - rewrite map_app. apply NoDup_app. split_and!; [done| |by apply NoDup_singleton].
    intros x Hx Hy. cbn in Hy. rewrite Hfa in Hy. apply list_elem_of_singleton in Hy as ->. done.
  - apply Forall_app. split; [done|]. by constructor.
  - rewrite drop_insert_lt by lia. replace (MAX_BEACONS - S n)%nat with k by lia.
    rewrite <- Nat.add_1_r, <- drop_drop, Hr. done.
Qed.

(** The entry of a beacon that is heard for the first time. *)
Definition first_heard (b : poslib_meas_wm_beacon_t) (now : Z) : poslib_meas_wm_beacon_t :=
  {| address := address b; norm_rss := norm_rss b; txpower := txpower b; type := type b; samples := 1; last_update := now |}.

(** What a beacon does to the list of entries. *)
Inductive inserted (b : poslib_meas_wm_beacon_t) (now : Z) (l : list poslib_meas_wm_beacon_t)
    : list poslib_meas_wm_beacon_t -> Prop :=
| Known i e :
    l !! i = Some e -> address e = address b -> inserted b now l (<[i := filter_beacon b now e]> l)
| Appended :
    address b ∉ map address l -> (List.length l < MAX_BEACONS)%nat -> inserted b now l (l ++ [first_heard b now])
| Ignored :
    address b ∉ map address l -> List.length l = MAX_BEACONS ->
    norm_rss b <= 0 -> (forall e, e ∈ l -> norm_rss b <= norm_rss e) -> inserted b now l l
| Replaced i e :
    address b ∉ map address l -> List.length l = MAX_BEACONS -> l !! i = Some e ->
    0 < norm_rss b \/ norm_rss e < norm_rss b ->
    (forall e', e' ∈ l -> norm_rss e <= norm_rss e') \/ (forall e', e' ∈ l -> 0 <= norm_rss e') ->
    inserted b now l (<[i := filter_beacon b now e]> l).

Definition heard (b : poslib_meas_wm_beacon_t) (now : Z) (t : poslib_meas_table_t) : poslib_meas_table_t :=
  update_table b now (insert_index b t).

Lemma update_min_ok t : table_ok t -> table_ok (update_min t) /\ entries (update_min t) = entries t.
Proof.
  intros Ht. destruct (update_min_spec t (tb_num t Ht) (tb_min t Ht)) as (Hb & Hn & Hi & _).
  assert (He : entries (update_min t) = entries t) by (unfold entries; by rewrite Hb, Hn).
  split; [|done]. destruct Ht. constructor; rewrite ?He, ?Hb, ?Hn; done.
Qed.

Lemma heard_full b now t :
  table_ok t -> heard_ok b -> num_beacons t = MAX_BEACONS -> address b ∉ map address (entries t) ->
  let t' := update_table b now (if min_rss (update_min t) <? norm_rss b then min_index (update_min t) else MAX_BEACONS, update_min t) in
  table_ok t' /\ inserted b now (entries t) (entries t').
Proof.
  intros Ht Hb Hn Ha. destruct (update_min_ok t Ht) as [Ht1 He1].
  destruct (update_min_spec t (tb_num t Ht) (tb_min t Ht)) as (Hbe & Hnum & Hi & H0 & Hall & Hmin).
  pose proof (length_entries t Ht) as Hlen. rewrite Hn in Hlen.
  assert (Hin : forall e, e ∈ entries t -> min_rss (update_min t) <= norm_rss e).
  { intros e He. apply list_elem_of_lookup in He as (i & Hei). pose proof (lookup_lt_Some _ _ _ Hei) as Hlt.
    rewrite length_entries in Hlt by done. rewrite beacon_at_entry in Hei by done. injection Hei as <-. by apply Hall. }
  destruct (Z.ltb_spec (min_rss (update_min t)) (norm_rss b)) as [Hlt|Hge]; unfold update_table; cbn [fst snd].
  - rewrite (proj2 (Nat.ltb_lt _ _)) by done. set (i := min_index (update_min t)) in *.
    assert (Hi' : (i < num_beacons (update_min t))%nat) by lia.
    destruct (write_ok b now (update_min t) i Ht1 Hb Hi') as [Hw Hew]; [right; by rewrite He1|].
    split; [done|]. fold (written b now i (update_min t)). rewrite Hew, He1.
    assert (Hat : beacon_at (update_min t) i = beacon_at t i) by (unfold beacon_at; by rewrite Hbe). rewrite Hat.
    assert (Hei : entries t !! i = Some (beacon_at t i)) by (apply beacon_at_entry; [done|lia]).
    destruct (Z_lt_le_dec (min_rss (update_min t)) 0) as [Hneg|Hpos].
    + destruct (Hmin Hneg) as [_ Hv]. apply Replaced; [done|done|done|right; lia|left]. intros e He. rewrite Hv. by apply Hin.
    + apply Replaced; [done|done|done|left; lia|right]. intros e He. specialize (Hin e He). lia.
  - rewrite (proj2 (Nat.ltb_ge _ _)) by done. split; [done|]. rewrite He1. apply Ignored; [done|done|lia|].
    intros e He. specialize (Hin e He). lia.
Qed.

Lemma heard_cases b now t :
  table_ok t -> heard_ok b -> table_ok (heard b now t) /\ inserted b now (entries t) (entries (heard b now t)).
Proof.
  intros Ht Hb. unfold heard, insert_index. fold (entries t). destruct (search (address b) (entries t)) as [i|] eqn:Es.
  - apply search_some in Es as (e & He & Hae). pose proof (lookup_lt_Some _ _ _ He) as Hi. rewrite length_entries in Hi by done.
    pose proof (beacon_at_entry t i Ht Hi) as Hat. rewrite He in Hat. injection Hat as ->.
    unfold update_table. cbn [fst snd]. rewrite (proj2 (Nat.ltb_lt _ _)) by (pose proof (tb_num t Ht); lia).
    destruct (write_ok b now t i Ht Hb Hi) as [Hw Hew]; [by left|]. split; [done|].
    fold (written b now i t). rewrite Hew. by apply Known.
  - apply search_none in Es. destruct (Nat.eqb_spec (num_beacons t) MAX_BEACONS) as [Hn|Hn].
    + by apply heard_full.
    + assert (Hlt : (num_beacons t < MAX_BEACONS)%nat) by (pose proof (tb_num t Ht); lia).
      unfold update_table. cbn [fst snd]. rewrite (proj2 (Nat.ltb_lt _ _)) by done.
      destruct (append_record_ok b now t Ht Hb Hlt Es) as [Hw Hew]. split; [done|].
      fold (written b now (num_beacons t) (set_num (S (num_beacons t)) t)). rewrite Hew.
      apply Appended; [done|]. by rewrite length_entries.
Qed.

(** ** The message *)

(** The buffer holds [out] at its beginning, and what lies behind [max_len] is untouched. *)
Record holds (orig : list Z) (max : Z) (buf : poslib_meas_payload_buffer_t) (out : list Z) : Prop := {
  h_max : max_len buf = max;
  h_out : take (List.length out) (dest buf) = out;
  h_cursor : cursor buf = Z.of_nat (List.length out);
  h_room : Z.of_nat (List.length out) <= max <= 255;
  h_length : List.length (dest buf) = List.length orig;
  h_orig : max <= Z.of_nat (List.length orig);
  h_behind : drop (Z.to_nat max) (dest buf) = drop (Z.to_nat max) orig }.

Lemma copy_spec orig max buf out from :
  holds orig max buf out ->
  if Z.of_nat (List.length out + List.length from) <=? max
  then exists buf', meas_copy_payload from buf = (true, buf') /\ holds orig max buf' (out ++ from)
  else meas_copy_payload from buf = (false, buf).
Proof.
  intros [Hm Ho Hc Hr Hl Hor Hb]. unfold meas_copy_payload, get_payload_len. rewrite Hm, Hc, uwrap_small by (unfold fits; lia).
  destruct (Z.leb_spec (Z.of_nat (List.length out + List.length from)) max).
  - rewrite (proj2 (Z.ltb_ge _ _)) by lia. eexists. split; [done|]. rewrite Nat2Z.id.
    constructor; cbn; rewrite ?length_blit, ?length_app; try done; try lia.
    + rewrite blit_app by lia. rewrite Ho, app_assoc, take_app_length'; [done|by rewrite length_app].
    + rewrite blit_app by lia. rewrite drop_app_ge by (rewrite length_take; lia).
      rewrite drop_app_ge by (rewrite length_take; lia). rewrite drop_drop, length_take, <- Hb. f_equal. lia.
  - by rewrite (proj2 (Z.ltb_lt _ _)) by lia.
Qed.

Lemma revert_spec orig max buf out more : holds orig max buf (out ++ more) -> holds orig max (set_cursor (Z.of_nat (List.length out)) buf) out.
Proof.
  intros [Hm Ho Hc Hr Hl Hor Hb]. rewrite length_app in *. constructor; cbn; try done; [|lia].
  rewrite <- (take_app_length out more) at 2. rewrite <- Ho, take_take. f_equal. lia.
Qed.

Lemma rss_loop_spec orig max l buf out :
  holds orig max buf out ->
  exists buf' more, add_rss_loop l true buf = (Z.of_nat (List.length out + 5 * List.length l) <=? max, buf') /\
    holds orig max buf' (out ++ more) /\
    (Z.of_nat (List.length out + 5 * List.length l) <= max -> more = concat (map rss_data l)).
Proof.
  revert buf out. induction l as [|x l IH]; intros buf out Hh; cbn [add_rss_loop map concat].
  { exists buf, []. rewrite app_nil_r. split_and!; [|done|done]. rewrite (proj2 (Z.leb_le _ _)); [done|]. cbn. destruct Hh. lia. }
  pose proof (copy_spec orig max buf out (rss_data x) Hh) as Hcp. change (List.length (rss_data x)) with 5%nat in Hcp.
  cbn [List.length]. destruct (Z.leb_spec (Z.of_nat (List.length out + 5)) max).
  - destruct Hcp as (b1 & -> & H1). cbn [andb]. destruct (IH b1 (out ++ rss_data x) H1) as (b2 & more & -> & H2 & Hmore).
    exists b2, (rss_data x ++ more). rewrite length_app in *. change (List.length (rss_data x)) with 5%nat in *.
    split_and!; [do 2 f_equal; lia|by rewrite app_assoc|]. intros Hle. f_equal. apply Hmore. lia.
  - rewrite Hcp. cbn [andb]. exists buf, []. rewrite app_nil_r. split_and!; [|done|lia].
    by rewrite (proj2 (Z.leb_gt _ _)) by lia.
Qed.

(** A record: its type, its length and its data. *)
Definition record_wire (x : Z * list Z) : list Z := x.1 :: Z.of_nat (List.length x.2) :: x.2.

Definition rss_record (t : poslib_meas_table_t) (meas_type : Z) : Z * list Z := (meas_type, concat (map rss_data (entries t))).
Definition voltage_record (v : Z) : Z * list Z := (POSLIB_MEAS_VOLTAGE, le_put 2 v).
Definition node_info_record (x : poslib_meas_record_node_info_t) : Z * list Z := (POSLIB_MEAS_NODE_INFO, node_info_bytes x).

Lemma length_rss l : List.length (concat (map rss_data l)) = (5 * List.length l)%nat.
Proof. induction l as [|x l IH]; [done|]. cbn [map concat List.length]. rewrite length_app, IH. change (List.length (rss_data x)) with 5%nat. lia. Qed.

(** What each of the three parts does to the buffer. *)
Definition added (orig : list Z) (max : Z) (out : list Z) (x : Z * list Z) (r : bool) (buf : poslib_meas_payload_buffer_t) : Prop :=
  r = (Z.of_nat (List.length (out ++ record_wire x)) <=? max) /\
  holds orig max buf (if r then out ++ record_wire x else out).

Lemma rss_record_spec orig max t mt buf out :
  table_ok t -> num_beacons t <> O -> holds orig max buf out ->
  exists r buf', add_rss_record t mt buf = ((if r : bool then num_beacons t else O), buf') /\
    added orig max out (rss_record t mt) r buf'.
Proof.
  intros Ht Hn Hh. unfold add_rss_record, added. rewrite (proj2 (Nat.eqb_neq _ _) Hn). fold (entries t).
  pose proof (tb_num t Ht) as Hm. unfold MAX_BEACONS in Hm. rewrite uwrap_small by (unfold fits; lia).
  set (hd := [mt; Z.of_nat (num_beacons t) * 5]). pose proof (length_entries t Ht) as Hle.
  assert (Hw : record_wire (rss_record t mt) = hd ++ concat (map rss_data (entries t))).
  { unfold record_wire, rss_record, hd. cbn [fst snd app]. rewrite length_rss, Hle. do 2 f_equal. lia. }
  rewrite Hw, !length_app, length_rss, Hle. change (List.length hd) with 2%nat.
  pose proof (copy_spec orig max buf out hd Hh) as Hcp. change (List.length hd) with 2%nat in Hcp.
  destruct (Z.leb_spec (Z.of_nat (List.length out + 2)) max).
  - destruct Hcp as (b1 & -> & H1). destruct (rss_loop_spec orig max (entries t) b1 (out ++ hd) H1) as (b2 & more & -> & H2 & Hmore).
    rewrite length_app, Hle in *. change (List.length hd) with 2%nat in *.
    replace (Z.of_nat (List.length out + (2 + 5 * num_beacons t))) with (Z.of_nat (List.length out + 2 + 5 * num_beacons t)) by lia.
    destruct (Z.leb_spec (Z.of_nat (List.length out + 2 + 5 * num_beacons t)) max).
    + exists true, b2. split; [done|]. split; [done|]. rewrite <- Hmore by lia. by rewrite app_assoc.
    + exists false. eexists. split; [done|]. split; [done|]. rewrite <- app_assoc in H2.
      rewrite (h_cursor _ _ _ _ Hh). by eapply revert_spec.
  - rewrite Hcp. exists false. rewrite (proj2 (Z.leb_gt _ _)) by lia.
    destruct (entries t) as [|e l] eqn:Ee; [cbn in Hle; lia|]. cbn [add_rss_loop].
    destruct (meas_copy_payload (rss_data e) buf) as [r b] eqn:Ec. cbn [andb]. eexists. split; [done|]. split; [done|].
    pose proof (copy_spec orig max buf out (rss_data e) Hh) as Hc2. change (List.length (rss_data e)) with 5%nat in Hc2.
    rewrite (proj2 (Z.leb_gt _ _)) in Hc2 by lia. rewrite Hc2 in Ec. injection Ec as <- <-.
    rewrite (h_cursor _ _ _ _ Hh). apply (revert_spec _ _ _ _ []). by rewrite app_nil_r.
Qed.

Lemma voltage_record_spec orig max v buf out :
  holds orig max buf out ->
  exists r buf', add_voltage_record v buf = (r, buf') /\ added orig max out (voltage_record v) r buf'.
Proof.
  intros Hh. unfold add_voltage_record, added. change ([POSLIB_MEAS_VOLTAGE; 2] ++ le_put 2 v) with (record_wire (voltage_record v)).
  pose proof (copy_spec orig max buf out (record_wire (voltage_record v)) Hh) as Hcp. rewrite length_app.
  destruct (_ <=? max).
  - destruct Hcp as (b1 & -> & H1). by exists true, b1.
  - rewrite Hcp. exists false. eexists. split; [done|]. split; [done|]. rewrite (h_cursor _ _ _ _ Hh).
    apply (revert_spec _ _ _ _ []). by rewrite app_nil_r.
Qed.

Lemma node_info_record_spec orig max x buf out :
  holds orig max buf out ->
  exists r buf', add_node_info_record x buf = (r, buf') /\ added orig max out (node_info_record x) r buf'.
Proof.
  intros Hh. unfold add_node_info_record, added.
  assert (Hw : record_wire (node_info_record x) = [POSLIB_MEAS_NODE_INFO; 10] ++ node_info_bytes x) by done.
  rewrite Hw, !length_app. set (hd := [POSLIB_MEAS_NODE_INFO; 10]). change (List.length hd) with 2%nat.
  assert (Hni : List.length (node_info_bytes x) = 10%nat) by done. rewrite Hni.
  pose proof (copy_spec orig max buf out hd Hh) as Hcp. change (List.length hd) with 2%nat in Hcp.
  destruct (Z.leb_spec (Z.of_nat (List.length out + 2)) max).
  - destruct Hcp as (b1 & -> & H1). pose proof (copy_spec orig max b1 (out ++ hd) (node_info_bytes x) H1) as Hc2.
    rewrite length_app, Hni in Hc2. change (List.length hd) with 2%nat in Hc2.
    replace (Z.of_nat (List.length out + (2 + 10))) with (Z.of_nat (List.length out + 2 + 10)) by lia.
    destruct (_ <=? max).
    + destruct Hc2 as (b2 & -> & H2). exists true, b2. split_and!; [done..|]. by rewrite app_assoc.
    + rewrite Hc2. exists false. eexists. split_and!; [done..|]. rewrite (h_cursor _ _ _ _ Hh). by eapply revert_spec.
  - rewrite Hcp. pose proof (copy_spec orig max buf out (node_info_bytes x) Hh) as Hc2. rewrite Hni in Hc2.
    rewrite (proj2 (Z.leb_gt _ _)) in Hc2 by lia. rewrite Hc2. exists false. eexists.
    rewrite (proj2 (Z.leb_gt _ _)) by lia. split_and!; [done..|]. rewrite (h_cursor _ _ _ _ Hh).
    apply (revert_spec _ _ _ _ []). by rewrite app_nil_r.
Qed.

(** A reader of messages: the sequence and the records. *)
Fixpoint parse_records (fuel : nat) (l : list Z) : option (list (Z * list Z)) :=
  match fuel with
  | O => None
  | S fuel =>
      match l with
      | [] => Some []
      | ty :: n :: l =>
          if (List.length l <? Z.to_nat n)%nat then None
          else rs ← parse_records fuel (drop (Z.to_nat n) l); Some ((ty, take (Z.to_nat n) l) :: rs)
      | _ => None
      end
  end.

Definition parse_message (l : list Z) : option (Z * list (Z * list Z)) :=
  match l with
  | a :: b :: l => rs ← parse_records (S (List.length l)) l; Some (le_get [a; b], rs)
  | _ => None
  end.

(** The nodes of a record of strengths. *)
Fixpoint parse_rss (l : list Z) : list (Z * Z) :=
  match l with
  | a :: b :: c :: d :: r :: l => (le_get [a; b; c; d], r) :: parse_rss l
  | _ => []
  end.

Definition message (rs : list (Z * list Z)) : list Z := concat (map record_wire rs).

Lemma parse_records_message rs fuel :
  (List.length (message rs) < fuel)%nat -> parse_records fuel (message rs) = Some rs.
Proof.
  revert fuel. induction rs as [|[ty d] rs IH]; intros fuel Hf; (destruct fuel as [|fuel]; [lia|]); [done|].
  change (message ((ty, d) :: rs)) with (ty :: Z.of_nat (List.length d) :: d ++ message rs) in *. cbn [parse_records].
  rewrite Nat2Z.id, (proj2 (Nat.ltb_ge _ _)) by (rewrite length_app; lia).
  rewrite drop_app_length, take_app_length. cbn [List.length] in Hf. rewrite length_app in Hf. by rewrite IH by lia.
Qed.

Lemma parse_message_spec seq rs : is_u16 seq -> parse_message (le_put 2 seq ++ message rs) = Some (seq, rs).
Proof.
  intros Hs. change (le_put 2 seq ++ message rs) with (u8 seq :: u8 (seq / 256) :: message rs). unfold parse_message.
  rewrite parse_records_message by lia. cbn [mbind option_bind]. change [u8 seq; u8 (seq / 256)] with (le_put 2 seq).
  by rewrite le_get_put, uwrap_small.
Qed.

Lemma parse_rss_spec l :
  Forall entry_ok l -> parse_rss (concat (map rss_data l)) = map (fun e => (address e, rss_byte (norm_rss e))) l.
Proof.
  induction 1 as [|e l He _ IH]; [done|]. cbn [map concat]. rewrite <- IH. destruct He as [Ha _ _].
  unfold rss_data at 1. rewrite <- app_assoc. set (r := concat _) at 1.
  change (parse_rss (le_put 4 (address e) ++ [rss_byte (norm_rss e)] ++ r)) with
    ((le_get (le_put 4 (address e)), rss_byte (norm_rss e)) :: parse_rss r).
  by rewrite le_get_put, uwrap_small.
Qed.

(** What the byte says: half a decibel per unit, for strengths below zero. *)
Lemma rss_byte_exact v : -127 <= v <= 0 -> rss_byte v = -2 * v.
Proof.
  intros Hv. unfold rss_byte. rewrite s16_small by lia. destruct (Z.leb_spec 255 (v * -2)); [lia|].
  rewrite uwrap_small; unfold fits; lia.
Qed.

Section Properties.
Context {W : Type} (CONF_VOLTAGE_REPORT : bool) (E : env W).

Lemma insert_beacon_spec b s :
  exists now w, (insert_beacon E b s).2 = set_world w (set_table (heard b now (m_meas_table s)) s).
Proof.
  unfold insert_beacon, heard. unfold gets, modify, calls, mbind, st_bind, mret, st_ret.
  destruct (_ <? _)%nat; cbn.
  - destruct (getTimestampHp E (world s)) as [now w]. by exists now, w.
  - exists 0, (world s). by destruct s.
Qed.

(** A received beacon: its strengths are [int8_t]. *)
Record rx_ok (a r t : Z) : Prop := { rx_addr : is_u32 a; rx_strength : -128 <= r < 128; rx_power : -128 <= t < 128 }.

Definition beacon_of (x : app_lib_state_beacon_rx_t) (now : Z) : poslib_meas_wm_beacon_t :=
  {| address := rx_address x; norm_rss := rx_rssi x - rx_txpower x; txpower := rx_txpower x;
     type := if rx_type x =? APP_LIB_STATE_BEACON_TYPE_NB then POSLIB_MEAS_BEACON_TYPE_NB
             else if rx_type x =? APP_LIB_STATE_BEACON_TYPE_CB then POSLIB_MEAS_BEACON_TYPE_CB
             else POSLIB_MEAS_BEACON_TYPE_UNKNOWN;
     samples := 1; last_update := now |}.

Lemma rx_heard a r t p k n now : rx_ok a r t -> heard_ok {| address := a; norm_rss := r - t; txpower := p; type := k; samples := n; last_update := now |}.
Proof. intros [Ha Hr Ht]. constructor; cbn; [done|unfold rss_ok; lia]. Qed.

Lemma beacon_cb_spec x s :
  rx_ok (rx_address x) (rx_rssi x) (rx_txpower x) ->
  exists t0 now w, (beacon_cb E x s).2 = set_world w (set_table (heard (beacon_of x t0) now (m_meas_table s)) s).
Proof.
  intros [_ Hr Ht]. unfold beacon_cb. rewrite bindE. unfold calls at 1 2. cbn [fst snd]. rewrite s16_small by lia.
  destruct (getTimestampHp E (world s)) as [t0 w0]. cbn [fst snd].
  destruct (insert_beacon_spec (beacon_of x t0) (set_world w0 s)) as (now & w & Ei). exists t0, now, w. exact Ei.
Qed.

(** hearing a beacon keeps the table well-formed (at most fourteen entries,
    all of different nodes, each with one to eight samples and a strength in its
    range) and does to it, on every branch, one of four things: a known node
    is filtered, a new one is appended while there is room, and in a full table
    a new one takes the place of the weakest entry if it is stronger and is
    dropped otherwise. *)
Theorem beacon_heard x s :
  table_ok (m_meas_table s) -> rx_ok (rx_address x) (rx_rssi x) (rx_txpower x) ->
  let t' := m_meas_table (beacon_cb E x s).2 in
  table_ok t' /\ exists t0 now, inserted (beacon_of x t0) now (entries (m_meas_table s)) (entries t').
Proof.
  intros Ht Hx. destruct (beacon_cb_spec x s Hx) as (t0 & now & w & ->). cbn zeta. cbn [m_meas_table set_world set_table].
  destruct (heard_cases (beacon_of x t0) now (m_meas_table s) Ht) as [H1 H2]; [by apply rx_heard|]. eauto.
Qed.

(** ** Any sequence of events *)

Inductive event :=
| BeaconRx (x : app_lib_state_beacon_rx_t)
| MbcnRx (src_endpoint dest_endpoint : Z) (x : mbcn_received_t)
| ScanEnd (complete : bool)
| StopTask
| StartScan (ctrl : poslib_scan_ctrl_t)
| Opportunistic (enable : bool)
| Stop
| ClearMeas
| GetPayload (buffer : list Z) (max_len sequence meas_type : Z) (add_voltage : bool) (info : option poslib_meas_record_node_info_t).

Definition void {A} (m : st (state W) A) : st (state W) unit := _ ← m; mret tt.

Definition handle (ev : event) : st (state W) unit :=
  match ev with
  | BeaconRx x => beacon_cb E x
  | MbcnRx src dst x => void (mbcn_cb E src dst x)
  | ScanEnd complete => scanend_cb E complete
  | StopTask => stop_scan_task E
  | StartScan ctrl => void (PosLibMeas_startScan E ctrl)
  | Opportunistic enable => void (PosLibMeas_opportunisticScan E enable)
  | Stop => PosLibMeas_stop E
  | ClearMeas => PosLibMeas_clearMeas
  | GetPayload buffer max_len sequence meas_type voltage info =>
      void (PosLibMeas_getPayload CONF_VOLTAGE_REPORT E buffer max_len sequence meas_type voltage info)
  end.

Definition run (evs : list event) (s : state W) : state W := fold_left (fun s ev => (handle ev s).2) evs s.

Definition event_ok (ev : event) : Prop :=
  match ev with
  | BeaconRx x => rx_ok (rx_address x) (rx_rssi x) (rx_txpower x)
  | MbcnRx _ _ x => rx_ok (mac_src_address x) (mb_rssi x) (mb_tx_power x)
  | _ => True
  end.

Record inv (s : state W) : Prop := {
  inv_table : table_ok (m_meas_table s);
  inv_samples : 0 <= m_samples s <= POSLIB_VOLTAGE_FILTER_SAMPLES;
  inv_voltage : is_u16 (m_voltage_flt s) }.

Abbreviation keeps_inv m := (triple inv m (fun _ => inv)).

Lemma inv_calls {A} (f : W -> A * W) : keeps_inv (calls f).
Proof. by intros s []. Qed.

Lemma inv_runs_call (f : W -> W) : keeps_inv (runs_call f).
Proof. by intros s []. Qed.

Lemma inv_modify (f : state W -> state W) : (forall s, inv s -> inv (f s)) -> keeps_inv (modify f).
Proof. intros H. by apply triple_modify. Qed.

Lemma inv_ret {A} (x : A) : keeps_inv (mret x).
Proof. by apply triple_ret. Qed.

Lemma meas_inv_gets {A} (f : state W -> A) : keeps_inv (gets f).
Proof. by intros s H. Qed.

Lemma inv_table_map f : (forall t, table_ok t -> table_ok (f t)) -> keeps_inv (on_table f).
Proof. intros H. apply inv_modify. intros s []. by constructor; [apply H|..]. Qed.

(** Through the structure of a handler, up to the steps that change the state. *)
Ltac inv_keep :=
  repeat match goal with
  | |- triple inv (mbind _ _) _ => apply triple_skip; [|intros ?]
  | |- triple inv (calls _) _ => apply inv_calls
  | |- triple inv (runs_call _) _ => apply inv_runs_call
  | |- triple inv (mret _) _ => apply inv_ret
  | |- triple inv (gets _) _ => apply meas_inv_gets
  | |- triple inv (modify _) _ => apply inv_modify; intros ? []; by constructor
  | |- triple inv (match ?x with _ => _ end) _ => destruct x
  end.

Lemma deregister_inv : keeps_inv (deregister_callbacks E).
Proof. unfold deregister_callbacks. inv_keep. Qed.

Lemma register_inv : keeps_inv (register_callbacks E).
Proof. unfold register_callbacks. inv_keep. Qed.

Lemma init_module_inv : keeps_inv init_module.
Proof. unfold init_module. inv_keep. apply inv_table_map. intros _ _. apply (zero_table_ok 0 0). unfold MAX_BEACONS. lia. Qed.

Lemma clear_table_inv : keeps_inv (on_table clear_measurement_table).
Proof. apply inv_table_map, clear_ok. Qed.

Lemma insert_inv b : heard_ok b -> keeps_inv (insert_beacon E b).
Proof.
  intros Hb s [Ht Hn Hv]. destruct (insert_beacon_spec b s) as (now & w & ->). constructor; [|done|done].
  by apply heard_cases.
Qed.

Lemma get_voltage_inv : keeps_inv (get_voltage CONF_VOLTAGE_REPORT E).
Proof.
  intros s [Ht Hn Hv]. unfold get_voltage. destruct CONF_VOLTAGE_REPORT; [|done]. cbn [negb].
  unfold gets, modify, calls, mbind, st_bind, mret, st_ret. cbn. destruct (getTimestampS E (world s)) as [now w]. cbn.
  destruct (_ || _); cbn; [|done]. constructor; [done| |]; cbn.
  - unfold POSLIB_VOLTAGE_FILTER_SAMPLES in *. destruct (Z.leb_spec 30 (m_samples s)); [done|].
    rewrite uwrap_small; unfold fits; lia.
  - destruct (_ <=? _); by apply (uwrap_range 16).
Qed.


(** ** The message of a scan *)

(** The records of a message. *)
Definition message_records (t : poslib_meas_table_t) (meas_type : Z) (voltage : option Z)
    (info : option poslib_meas_record_node_info_t) : list (Z * list Z) :=
  rss_record t meas_type :: option_list (voltage_record <$> voltage) ++ option_list (node_info_record <$> info).

Lemma message_cons x rs : message (x :: rs) = record_wire x ++ message rs.
Proof. done. Qed.

Lemma message_snoc out x : out ++ message [x] = out ++ record_wire x.
Proof. unfold message. cbn. by rewrite app_nil_r. Qed.

(** A part of the message is there, or the message does not fit. *)
Record stage (orig : list Z) (max : Z) (cond : bool) (full : list Z) (ret : bool) (buf : poslib_meas_payload_buffer_t) : Prop := {
  st_ret : ret = cond && (Z.of_nat (List.length full) <=? max);
  st_out : exists out, holds orig max buf out /\ (ret = true -> out = full) }.

Lemma stage_skip orig max cond full more ret buf x :
  stage orig max cond full ret buf -> (ret = true -> False) -> x = full ++ more -> stage orig max cond x false buf.
Proof.
  intros [Hr (out & Hh & _)] Hf ->. constructor; [|by exists out].
  destruct cond; [|done]. cbn in *. destruct (Z.leb_spec (Z.of_nat (List.length full)) max); [by destruct Hf|].
  rewrite length_app, (proj2 (Z.leb_gt _ _)) by lia. done.
Qed.

Lemma stage_record orig max cond full buf x r buf' :
  stage orig max cond full true buf -> (forall out, holds orig max buf out -> added orig max out x r buf') ->
  stage orig max cond (full ++ record_wire x) r buf'.
Proof.
  intros [Hr (out & Hh & Ho)] Hx. specialize (Ho eq_refl) as ->. destruct (Hx full Hh) as [-> Hb].
  symmetry in Hr. apply andb_true_iff in Hr as [-> _]. constructor; [done|]. eexists. split; [exact Hb|]. by intros ->.
Qed.

Lemma stage_measurements t seq mt bytes max :
  table_ok t -> 0 <= max <= 255 -> max <= Z.of_nat (List.length bytes) ->
  exists ret buf, add_measurements t seq mt {| dest := bytes; max_len := max; cursor := 0 |} =
      (ret, if ret : bool then num_beacons t else O, buf) /\
    stage bytes max (negb (num_beacons t =? 0)%nat) (le_put 2 (u8 seq) ++ record_wire (rss_record t mt)) ret buf.
Proof.
  intros Ht Hmax Hlen. unfold add_measurements. set (b0 := {| dest := bytes; max_len := max; cursor := 0 |}).
  assert (H0 : holds bytes max b0 []) by (constructor; cbn; (done || lia)).
  pose proof (copy_spec bytes max b0 [] (le_put 2 (u8 seq)) H0) as Hcp. rewrite length_le_put in Hcp. cbn [List.length app Nat.add] in Hcp.
  destruct (Z.leb_spec (Z.of_nat 2) max).
  - destruct Hcp as (b1 & -> & H1). destruct (Nat.eqb_spec (num_beacons t) 0) as [Hn|Hn].
    + unfold add_rss_record. rewrite Hn. cbn. exists false, b1. split; [done|]. constructor; [done|]. by eexists.
    + destruct (rss_record_spec bytes max t mt b1 _ Ht Hn H1) as (r & b2 & -> & Hr & Hb). exists r, b2.
      destruct r; cbn [negb andb].
      * rewrite (proj2 (Nat.eqb_neq _ _) Hn). split; [done|]. constructor; [done|]. by eexists.
      * split; [done|]. constructor; [done|]. by eexists.
  - rewrite Hcp. exists false, b0. split; [done|]. constructor; [|by eexists].
    rewrite length_app, length_le_put, (proj2 (Z.leb_gt _ _)) by lia. by rewrite andb_false_r.
Qed.

Lemma stage_info orig max cond full ret buf info :
  stage orig max cond full ret buf ->
  exists ret' buf', add_node_info info ret buf = (ret', buf') /\
    stage orig max cond (full ++ message (option_list (node_info_record <$> info))) ret' buf'.
Proof.
  intros Hs. unfold add_node_info. destruct info as [x|].
  - change (option_list (node_info_record <$> Some x)) with [node_info_record x]. rewrite message_snoc. destruct ret.
    + destruct (st_out _ _ _ _ _ _ Hs) as (out & Hh & Ho). specialize (Ho eq_refl) as ->.
      destruct (node_info_record_spec orig max x buf full Hh) as (r & b & -> & Hb). exists r, b. split; [done|].
      destruct Hb as [-> Hb]. destruct Hs as [Hr _]. symmetry in Hr. apply andb_true_iff in Hr as [-> _].
      constructor; [done|]. eexists. split; [exact Hb|]. by intros ->.
    + exists false, buf. split; [done|]. by eapply stage_skip.
  - exists ret, buf. split; [done|]. change (option_list (node_info_record <$> None)) with (@nil (Z * list Z)).
    change (message []) with (@nil Z). by rewrite app_nil_r.
Qed.

Lemma stage_voltage orig max cond full ret buf voltage s :
  stage orig max cond full ret buf ->
  let v := if (voltage : bool) then Some (get_voltage CONF_VOLTAGE_REPORT E s).1 else None in
  exists ret' buf' s', (if ret && voltage then v ← get_voltage CONF_VOLTAGE_REPORT E; mret (add_voltage_record v buf)
                        else mret (ret, buf)) s = ((ret', buf'), s') /\
    stage orig max cond (full ++ message (option_list (voltage_record <$> v))) ret' buf'.
Proof.
  intros Hs. cbn zeta. destruct voltage.
  - set (v := (get_voltage CONF_VOLTAGE_REPORT E s).1).
    change (option_list (voltage_record <$> Some v)) with [voltage_record v]. rewrite message_snoc. destruct ret; cbn [andb].
    + rewrite bindE. fold v. destruct (st_out _ _ _ _ _ _ Hs) as (out & Hh & Ho). specialize (Ho eq_refl) as ->.
      destruct (voltage_record_spec orig max v buf full Hh) as (r & b & -> & Hb). eexists r, b, _. split; [done|].
      destruct Hb as [-> Hb]. destruct Hs as [Hr _]. symmetry in Hr. apply andb_true_iff in Hr as [-> _].
      constructor; [done|]. eexists. split; [exact Hb|]. by intros ->.
    + eexists false, buf, s. split; [done|]. by eapply stage_skip.
  - rewrite andb_false_r. exists ret, buf, s. split; [done|].
    change (option_list (voltage_record <$> None)) with (@nil (Z * list Z)). change (message []) with (@nil Z). by rewrite app_nil_r.
Qed.

(** C15: the message of a scan says what the table holds: it is made exactly if
    there is a measurement and all its records fit, and then a reader finds in
    it the sequence (its low byte), every node of the table with its strength,
    the voltage and the node info that were asked for.  In any case nothing
    behind the given length is written. *)
Theorem payload_message s bytes max seq mt voltage info :
  table_ok (m_meas_table s) -> 0 <= max <= 255 -> max <= Z.of_nat (List.length bytes) ->
  let t := m_meas_table s in
  let v := if (voltage : bool) then Some (get_voltage CONF_VOLTAGE_REPORT E s).1 else None in
  let rs := message_records t mt v info in
  let '(ret, buf, num_bytes, num_meas) := (PosLibMeas_getPayload CONF_VOLTAGE_REPORT E bytes max seq mt voltage info s).1 in
  ret = negb (num_beacons t =? 0)%nat && (Z.of_nat (2 + List.length (message rs)) <=? max) /\
  (ret = true -> num_meas = num_beacons t /\ parse_message (take (Z.to_nat num_bytes) buf) = Some (u8 seq, rs)) /\
  parse_rss (rss_record t mt).2 = map (fun e => (address e, rss_byte (norm_rss e))) (entries t) /\
  0 <= num_bytes <= max /\ List.length buf = List.length bytes /\
  drop (Z.to_nat max) buf = drop (Z.to_nat max) bytes.
Proof.
  intros Ht Hmax Hlen. cbn zeta. set (t := m_meas_table s) in *. unfold PosLibMeas_getPayload.
  rewrite bindE. unfold gets at 1 2. cbn [fst snd]. fold t.
  destruct (stage_measurements t seq mt bytes max Ht Hmax Hlen) as (r1 & b1 & -> & H1).
  rewrite bindE. destruct (stage_voltage _ _ _ _ _ _ voltage s H1) as (r2 & b2 & s2 & -> & H2). cbn [fst snd].
  destruct (stage_info _ _ _ _ _ _ info H2) as (r3 & b3 & -> & H3).
  set (v := if voltage then _ else _) in *. rewrite <- !app_assoc in H3.
  assert (Hm : record_wire (rss_record t mt) ++ message (option_list (voltage_record <$> v)) ++
                 message (option_list (node_info_record <$> info)) = message (message_records t mt v info)).
  { unfold message_records. rewrite message_cons. f_equal. unfold message. by rewrite map_app, concat_app. }
  rewrite Hm in H3. destruct H3 as [Hr (out & Hh & Ho)]. rewrite length_app, length_le_put in Hr.
  destruct Hh as [_ Hout Hc Hroom Hl _ Hb]. cbn. unfold get_payload_len.
  rewrite Hc, uwrap_small by (unfold fits; lia). split_and!; [exact Hr| | |lia|lia|done|done].
  - intros ->. split.
    + symmetry in Hr. apply andb_true_iff in Hr as [Hn Hle]. apply Z.leb_le in Hle. rewrite <- Hm, length_app in Hle.
      pose proof (st_ret _ _ _ _ _ _ H1) as ->. rewrite Hn, length_app, length_le_put, (proj2 (Z.leb_le _ _)) by lia. done.
    + rewrite Nat2Z.id, Hout, (Ho eq_refl). apply parse_message_spec. apply (fits_weaken 8); [done|by apply (uwrap_range 8)].
  - apply parse_rss_spec, Ht.
Qed.

End Properties.

(** ** Examples *)

Module Examples.

Definition env0 : env Z := {|
  add_scanend_cb := fun w => (true, w); remove_scanend_cb := fun w => w;
  add_beacon_cb := fun w => (None, w); remove_beacon_cb := fun id w => 1000 + id; add_mbcn_cb := fun w => (true, w);
  remove_mbcn_cb := fun w => w; startScanNbors := fun w => (true, w); stopScanNbors := fun w => w;
  add_stop_task := fun _ w => (true, w); PosLibEvent_add := fun _ w => (true, w); getNodeRole := fun _ => 2;
  getTimestampHp := fun w => (w, w + 1); getTimestampS := fun w => (w, w); voltageGet := fun w => (3000, w) |}.

Definition state0 : state Z := {|
  m_meas_table := zero_table; m_beacon_cb_id := 0; m_beacon_cb_reg := false; m_opportunistic := false; m_mbcn_item := false;
  m_time_when_no_beacons_s := 0; m_scan_pending := false; m_init := false; m_samples := 0;
  m_voltage_sampling_time_s := 0; m_voltage_flt := 0; world := 7 |}.

Definition rx (a r : Z) : app_lib_state_beacon_rx_t := {| rx_address := a; rx_rssi := r; rx_txpower := 4; rx_type := 1 |}.

Definition scan : poslib_scan_ctrl_t := {| mode := SCAN_MODE_STANDARD; max_duration_ms := 0 |}.

(** Fourteen nodes, one of them twice, then a stronger fifteenth and a weaker one. *)
Definition events0 : list event :=
  StartScan scan :: map (fun n => BeaconRx (rx (Z.of_nat n) (-60 - Z.of_nat n))) (seq 1 14) ++
  [BeaconRx (rx 3 (-69)); BeaconRx (rx 20 (-50)); BeaconRx (rx 21 (-90)); ScanEnd true].

Definition state1 : state Z := run true env0 events0 state0.

Lemma meas_state0_inv : inv state0.
Proof. constructor; cbn; [apply (zero_table_ok 0 0); unfold MAX_BEACONS; lia|unfold POSLIB_VOLTAGE_FILTER_SAMPLES; lia|by unfold fits]. Qed.

Lemma events0_ok : Forall event_ok events0.
Proof. unfold events0. cbn. repeat (apply Forall_cons; split); try apply Forall_nil_2; try done; by constructor; cbn; unfold fits; lia. Qed.


Lemma state1_ok : table_ok (m_meas_table state1).
Proof.
  constructor; [by vm_compute|vm_compute; lia|vm_compute; lia| | |by vm_compute].
  - by apply (bool_decide_unpack _); vm_compute.
  - change (entries (m_meas_table state1)) with (entries (m_meas_table state1)). apply Forall_forall.
    intros e He. assert (Hc : forallb (fun e => (0 <=? address e) && (address e <? 2 ^ 32) && (-255 <=? norm_rss e) && (norm_rss e <=? 255) &&
      (1 <=? samples e) && (samples e <=? 8)) (entries (m_meas_table state1)) = true) by by vm_compute.
    rewrite forallb_forall in Hc. specialize (Hc e (proj1 (list_elem_of_In _ _) He)). bool_props.
    constructor; [by split|by split|by split].
Qed.

Lemma beacon_heard_witness :
  table_ok (m_meas_table (beacon_cb env0 (rx 22 (-40)) state1).2) /\
  exists t0 now, inserted (beacon_of (rx 22 (-40)) t0) now (entries (m_meas_table state1))
                   (entries (m_meas_table (beacon_cb env0 (rx 22 (-40)) state1).2)).
Proof. apply (beacon_heard env0 (rx 22 (-40)) state1 state1_ok). constructor; cbn; unfold fits; lia. Defined.

Definition info0 : poslib_meas_record_node_info_t := {| update_s := 60; features := 17; node_mode := 1; node_class := 249 |}.

Lemma payload_message_witness :
  let rs := message_records (m_meas_table state1) POSLIB_MEAS_RSS_SR_4BYTE_ADDR (Some 3000) (Some info0) in
  let '(ret, buf, num_bytes, num_meas) :=
    (PosLibMeas_getPayload true env0 (repeat 0 102) 102 300 POSLIB_MEAS_RSS_SR_4BYTE_ADDR true (Some info0) state1).1 in
  ret = negb (num_beacons (m_meas_table state1) =? 0)%nat && (Z.of_nat (2 + List.length (message rs)) <=? 102) /\
  (ret = true -> num_meas = num_beacons (m_meas_table state1) /\ parse_message (take (Z.to_nat num_bytes) buf) = Some (u8 300, rs)) /\
  parse_rss (rss_record (m_meas_table state1) POSLIB_MEAS_RSS_SR_4BYTE_ADDR).2 =
    map (fun e => (address e, rss_byte (norm_rss e))) (entries (m_meas_table state1)) /\
  0 <= num_bytes <= 102 /\ List.length buf = List.length (repeat 0 102) /\
  drop (Z.to_nat 102) buf = drop (Z.to_nat 102) (repeat 0 102).
Proof.
  exact (payload_message true env0 state1 (repeat 0 102) 102 300 POSLIB_MEAS_RSS_SR_4BYTE_ADDR true (Some info0) state1_ok
           ltac:(lia) ltac:(cbn; lia)).
Defined.

(** The node that takes the place of another inherits its samples: its strength
    is not its own ([-54] dB), but the eighth of the way from that of the other one. *)
Lemma replaced_keeps_history :
  let table := {| beacons := repeat {| address := 1; norm_rss := -90; txpower := 0; type := POSLIB_MEAS_BEACON_TYPE_FLT; samples := 8; last_update := 0 |} 14;
                  num_beacons := 14; min_index := 0; min_rss := 0 |} in
  match entries (heard (beacon_of (rx 20 (-50)) 0) 0 table) with
  | e :: _ => address e = 20 /\ norm_rss e = -86 /\ samples e = 8
  | [] => False
  end.
Proof. by vm_compute. Qed.

(** A strength above that of the sender reads as a very low one. *)
Lemma positive_strength_wraps : rss_byte 1 = 254 /\ rss_byte (-127) = 254.
Proof. by vm_compute. Qed.

(** When no callback could be added, the end of the scan removes one with an
    identifier that another module may have. *)
Lemma foreign_callback_removed :
  world (run true env0 [StartScan scan; ScanEnd true] state0) = 1000.
Proof. by vm_compute. Qed.

End Examples.
