(* ===== verification/PosEvent.v ===== *)
(** * Events of the positioning library

    [libraries/positioning/poslib/poslib_event.c]: a queue of internal events in
    sixteen slots, which a task gives to the other modules one by one, and the
    table of the subscribers to public events.

    The queue is an intrusive list of slots; [SlList] shows that such a list is
    the list of its cells, so it is here the list of the numbers of the slots.
    The modules and the subscribers are arbitrary functions on the state: they
    may add events, subscribe and unsubscribe. *)

From S2P Require Import Prelude.

Abbreviation fn := positive.

Definition MAX_INTERNAL_EVENTS : nat := 16.
Definition POSLIB_FLAG_EVENT_SUBSCRIBERS_MAX : nat := 8.
Definition APP_SCHEDULER_STOP_TASK : Z := u32 (-1).
Definition APP_SCHEDULER_SCHEDULE_ASAP : Z := 0.

(** [poslib_internal_event_type_e] *)
Definition POSLIB_CTRL_EVENT_NONE : Z := 0.
Definition POSLIB_CTRL_EVENT_SCAN_STARTED : Z := 1.
Definition POSLIB_CTRL_EVENT_SCAN_END : Z := 2.
Definition POSLIB_CTRL_EVENT_ONLINE : Z := 3.
Definition POSLIB_CTRL_EVENT_OFFLINE : Z := 4.
Definition POSLIB_CTRL_EVENT_APPCFG : Z := 5.
Definition POSLIB_CTRL_EVENT_TIMEOUT : Z := 6.
Definition POSLIB_CTRL_EVENT_DATA_SENT : Z := 7.
Definition POSLIB_CTRL_EVENT_ONESHOT : Z := 8.
Definition POSLIB_CTRL_EVENT_CONFIG_CHANGE : Z := 9.
Definition POSLIB_CTRL_EVENT_UPDATE_END : Z := 12.
Definition POSLIB_CTRL_EVENT_OUTSIDE_WM : Z := 13.
Definition POSLIB_CTRL_EVENT_UNDER_WM : Z := 14.
Definition POSLIB_CTRL_EVENT_MOTION : Z := 15.
Definition POSLIB_CTRL_EVENT_BLE_START : Z := 16.
Definition POSLIB_CTRL_EVENT_BLE_STOP : Z := 17.
Definition POSLIB_CTRL_EVENT_LED_ON : Z := 18.
Definition POSLIB_CTRL_EVENT_LED_OFF : Z := 19.

(** [poslib_events_e] *)
Definition POSLIB_FLAG_EVENT_NONE : Z := 0.
Definition POSLIB_FLAG_EVENT_UPDATE_START : Z := 1.
Definition POSLIB_FLAG_EVENT_UPDATE_END : Z := 2.
Definition POSLIB_FLAG_EVENT_BLE_START : Z := 4.
Definition POSLIB_FLAG_EVENT_BLE_STOP : Z := 8.
Definition POSLIB_FLAG_EVENT_ONLINE : Z := 32.
Definition POSLIB_FLAG_EVENT_CONFIG_CHANGE : Z := 64.
Definition POSLIB_FLAG_EVENT_LED_ON : Z := 128.
Definition POSLIB_FLAG_EVENT_LED_OFF : Z := 256.
Definition POSLIB_FLAG_EVENT_ALL : Z := 511.

Inductive poslib_ret_e :=
  | POS_RET_OK | POS_RET_INVALID_STATE | POS_RET_INVALID_PARAM | POS_RET_INVALID_DATA | POS_RET_LIB_ERROR
  | POS_RET_INTERNAL_ERROR | POS_RET_NOT_CONFIGURED | POS_RET_EVENT_REG_ERROR | POS_RET_MOTION_NOT_ENABLED.

Record subscriber_t := { sub_event : Z; sub_cb : option fn }.

(** [POSLIB_FLAG_EVENT_info_t], without the deprecated field. *)
Record event_info_t := { event_id : Z; time_hp : Z }.

Section Events.
Context {W : Type}.

Record state := {
  m_internal_init : bool;
  m_events : list nat;
  m_internal_events : list Z;
  m_public_init : bool;
  m_public_event_db : list subscriber_t;
  world : W }.

Record env := {
  process_ctrl : Z -> state -> state;
  process_ble : Z -> state -> state;
  on_public : fn -> event_info_t -> state -> state;
  add_events_task : W -> W;
  getTimestampHp : W -> Z * W }.

Abbreviation M := (st state).

Definition set_queue (ini : bool) (q : list nat) (slots : list Z) (s : state) : state :=
  {| m_internal_init := ini; m_events := q; m_internal_events := slots; m_public_init := m_public_init s;
     m_public_event_db := m_public_event_db s; world := world s |}.
Definition set_db (ini : bool) (db : list subscriber_t) (s : state) : state :=
  {| m_internal_init := m_internal_init s; m_events := m_events s; m_internal_events := m_internal_events s;
     m_public_init := ini; m_public_event_db := db; world := world s |}.
Definition set_world (w : W) (s : state) : state :=
  {| m_internal_init := m_internal_init s; m_events := m_events s; m_internal_events := m_internal_events s;
     m_public_init := m_public_init s; m_public_event_db := m_public_event_db s; world := w |}.

(** The first slot without an event. *)
Fixpoint free_slot (i : nat) (slots : list Z) : option nat :=
  match slots with
  | [] => None
  | t :: slots => if t =? POSLIB_CTRL_EVENT_NONE then Some i else free_slot (S i) slots
  end.

Definition init_events (s : state) : state :=
  if m_internal_init s then s
  else set_queue true [] (repeat POSLIB_CTRL_EVENT_NONE MAX_INTERNAL_EVENTS) s.

Definition PosLibEvent_add (E : env) (type : Z) : M bool :=
  _ ← modify init_events;
  slot ← gets (fun s => free_slot 0 (m_internal_events s));
  match slot with
  | None => mret false
  | Some i =>
      _ ← modify (fun s => set_queue (m_internal_init s) (m_events s ++ [i]) (<[i := type]> (m_internal_events s)) s);
      _ ← modify (fun s => set_world (add_events_task E (world s)) s);
      mret true
  end.

(** ** Public events *)

Definition no_subscriber : subscriber_t := {| sub_event := 0; sub_cb := None |}.

Definition init_public (s : state) : state :=
  if m_public_init s then s else set_db true (repeat no_subscriber POSLIB_FLAG_EVENT_SUBSCRIBERS_MAX) s.

Fixpoint free_subscriber (i : nat) (db : list subscriber_t) : option nat :=
  match db with
  | [] => None
  | x :: db => if bool_decide (sub_cb x = None) then Some i else free_subscriber (S i) db
  end.

(** The result, and the identifier when it is set. *)
Definition PosLibEvent_register (event : Z) (cb : option fn) : M (poslib_ret_e * option nat) :=
  _ ← modify init_public;
  match cb with
  | None => mret (POS_RET_EVENT_REG_ERROR, None)
  | Some _ =>
      if Z.land event POSLIB_FLAG_EVENT_ALL =? 0 then mret (POS_RET_EVENT_REG_ERROR, None)
      else
        slot ← gets (fun s => free_subscriber 0 (m_public_event_db s));
        match slot with
        | None => mret (POS_RET_EVENT_REG_ERROR, None)
        | Some i =>
            _ ← modify (fun s => set_db (m_public_init s) (<[i := {| sub_event := event; sub_cb := cb |}]> (m_public_event_db s)) s);
            mret (POS_RET_OK, Some i)
        end
  end.

Definition PosLibEvent_deregister (id : nat) : M unit :=
  if (id <? POSLIB_FLAG_EVENT_SUBSCRIBERS_MAX)%nat
  then modify (fun s => set_db (m_public_init s) (<[id := no_subscriber]> (m_public_event_db s)) s)
  else mret tt.

(** The public events of an internal one. *)
Definition public_event (type : Z) : Z :=
  if type =? POSLIB_CTRL_EVENT_SCAN_STARTED then POSLIB_FLAG_EVENT_UPDATE_START
  else if type =? POSLIB_CTRL_EVENT_ONLINE then Z.lor POSLIB_FLAG_EVENT_UPDATE_START POSLIB_FLAG_EVENT_ONLINE
  else if type =? POSLIB_CTRL_EVENT_CONFIG_CHANGE then POSLIB_FLAG_EVENT_CONFIG_CHANGE
  else if type =? POSLIB_CTRL_EVENT_UPDATE_END then POSLIB_FLAG_EVENT_UPDATE_END
  else if type =? POSLIB_CTRL_EVENT_BLE_START then POSLIB_FLAG_EVENT_BLE_START
  else if type =? POSLIB_CTRL_EVENT_BLE_STOP then POSLIB_FLAG_EVENT_BLE_STOP
  else if type =? POSLIB_CTRL_EVENT_LED_ON then POSLIB_FLAG_EVENT_LED_ON
  else if type =? POSLIB_CTRL_EVENT_LED_OFF then POSLIB_FLAG_EVENT_LED_OFF
  else POSLIB_FLAG_EVENT_NONE.

(** The loop over the table from entry [i] on, [n] entries left; an entry is read when its turn comes. *)
Fixpoint public_loop (E : env) (msg : event_info_t) (n i : nat) : M unit :=
  match n with
  | O => mret tt
  | S n =>
      x ← gets (fun s => default no_subscriber (m_public_event_db s !! i));
      _ ← match sub_cb x with
          | Some c => if negb (Z.land (sub_event x) (event_id msg) =? 0) then modify (on_public E c msg) else mret tt
          | None => mret tt
          end;
      public_loop E msg n (S i)
  end.

Definition generate_public_events (E : env) (type : Z) : M unit :=
  let event := public_event type in
  if event =? POSLIB_FLAG_EVENT_NONE then mret tt
  else
    now ← (fun s => ((getTimestampHp E (world s)).1, set_world (getTimestampHp E (world s)).2 s));
    public_loop E {| event_id := event; time_hp := now |} POSLIB_FLAG_EVENT_SUBSCRIBERS_MAX 0.

(** ** The task *)

(** [event->type], read when it is needed *)
Definition type_of (i : nat) (s : state) : Z := default POSLIB_CTRL_EVENT_NONE (m_internal_events s !! i).

Definition next_run (s : state) : Z :=
  match m_events s with [] => APP_SCHEDULER_STOP_TASK | _ => APP_SCHEDULER_SCHEDULE_ASAP end.

Definition handle_events (E : env) : M Z :=
  q ← gets m_events;
  match q with
  | [] => mret APP_SCHEDULER_STOP_TASK
  | i :: q =>
      _ ← modify (fun s => set_queue (m_internal_init s) q (m_internal_events s) s);
      _ ← modify (fun s => process_ctrl E (type_of i s) s);
      _ ← modify (fun s => process_ble E (type_of i s) s);
      type ← gets (type_of i);
      _ ← generate_public_events E type;
      _ ← modify (fun s => set_queue (m_internal_init s) (m_events s) (<[i := POSLIB_CTRL_EVENT_NONE]> (m_internal_events s)) s);
      gets next_run
  end.

(** ** What the modules and the subscribers may do

    They add events, subscribe, unsubscribe, and change their own state. [given]
    is the list of the events that the control module was given. *)
Inductive acts (E : env) (given : W -> list Z) : state -> list Z -> state -> Prop :=
  | acts_add t s : t <> POSLIB_CTRL_EVENT_NONE -> (PosLibEvent_add E t s).1 = true ->
      acts E given s [t] (PosLibEvent_add E t s).2
  | acts_refused t s : t <> POSLIB_CTRL_EVENT_NONE -> (PosLibEvent_add E t s).1 = false ->
      acts E given s [] (PosLibEvent_add E t s).2
  | acts_register event cb s : acts E given s [] (PosLibEvent_register event cb s).2
  | acts_deregister id s : acts E given s [] (PosLibEvent_deregister id s).2
  | acts_world w s : given w = given (world s) -> acts E given s [] (set_world w s)
  | acts_then s l s' l' s'' : acts E given s l s' -> acts E given s' l' s'' -> acts E given s (l ++ l') s''.

Class Modules (E : env) := {
  given : W -> list Z;
  ctrl_acts t s : exists l w, given w = given (world s) ++ [t] /\ acts E given (set_world w s) l (process_ctrl E t s);
  ble_acts t s : exists l, acts E given s l (process_ble E t s);
  public_acts c msg s : exists l, acts E given s l (on_public E c msg s);
  add_task_law w : given (add_events_task E w) = given w;
  timestamp_law w : given (getTimestampHp E w).2 = given w }.

(** ** The queue *)

(** The types of the events that wait. *)
Definition queued (s : state) : list Z := (fun i => type_of i s) <$> m_events s.

(** The slots that have an event are those that wait and those of [busy], the event
    in process. *)
Record ok (busy : list nat) (s : state) : Prop := {
  ok_init : m_internal_init s = true;
  ok_length : length (m_internal_events s) = MAX_INTERNAL_EVENTS;
  ok_nodup : NoDup (m_events s ++ busy);
  ok_slots i : type_of i s <> POSLIB_CTRL_EVENT_NONE <-> i ∈ m_events s ++ busy }.

Lemma free_slot_spec slots i :
  match free_slot i slots with
  | Some j => (i <= j)%nat /\ slots !! (j - i)%nat = Some POSLIB_CTRL_EVENT_NONE
  | None => Forall (fun t => t <> POSLIB_CTRL_EVENT_NONE) slots
  end.
Proof.
  revert i. induction slots as [|t slots IH]; intros i; simpl; [constructor|].
  destruct (Z.eqb_spec t POSLIB_CTRL_EVENT_NONE) as [->|Ht].
  - by rewrite Nat.sub_diag.
  - specialize (IH (S i)). destruct (free_slot (S i) slots) as [j|]; [|by constructor].
    destruct IH as [Hj H]. split; [lia|]. by replace (j - i)%nat with (S (j - S i)) by lia.
Qed.

Lemma type_of_lookup i s t : m_internal_events s !! i = Some t -> type_of i s = t.
Proof. unfold type_of. by intros ->. Qed.

Lemma type_of_lt i s : type_of i s <> POSLIB_CTRL_EVENT_NONE -> (i < length (m_internal_events s))%nat.
Proof.
  unfold type_of. destruct (m_internal_events s !! i) eqn:H; [|done]. intros _. by eapply lookup_lt_Some.
Qed.

Lemma type_of_set ini q j t s i : (j < length (m_internal_events s))%nat ->
  type_of i (set_queue ini q (<[j := t]> (m_internal_events s)) s) = if decide (i = j) then t else type_of i s.
Proof.
  intros Hj. unfold type_of. simpl. destruct (decide (i = j)) as [->|Hne].
  - by rewrite list_lookup_insert_eq.
  - by rewrite list_lookup_insert_ne.
Qed.

(** All slots are in use when the events that wait and those in process are sixteen. *)
Lemma in_use_lt busy s i : ok busy s -> i ∈ m_events s ++ busy -> (i < MAX_INTERNAL_EVENTS)%nat.
Proof. intros Hok Hi. rewrite <- (ok_length _ _ Hok). by apply type_of_lt, (ok_slots _ _ Hok). Qed.

Lemma in_use_full busy s : ok busy s ->
  Forall (fun t => t <> POSLIB_CTRL_EVENT_NONE) (m_internal_events s) ->
  (MAX_INTERNAL_EVENTS <= length (m_events s ++ busy))%nat.
Proof.
  intros Hok Hall. rewrite <- (length_seq MAX_INTERNAL_EVENTS 0).
  apply submseteq_length, NoDup_submseteq; [apply NoDup_seq|].
  intros i [_ Hi]%elem_of_seq. apply (ok_slots _ _ Hok).
  rewrite Nat.add_0_l, <- (ok_length _ _ Hok) in Hi. destruct (lookup_lt_is_Some_2 _ _ Hi) as [t Ht].
  rewrite (type_of_lookup _ _ _ Ht). by eapply (Forall_lookup_1 _ _ _ _ Hall).
Qed.

Lemma in_use_free busy s j : ok busy s -> m_internal_events s !! j = Some POSLIB_CTRL_EVENT_NONE ->
  j ∉ m_events s ++ busy /\ (length (m_events s ++ busy) < MAX_INTERNAL_EVENTS)%nat.
Proof.
  intros Hok Hj.
  assert (Hnot : j ∉ m_events s ++ busy).
  { intros Hin%(ok_slots _ _ Hok). by apply Hin, type_of_lookup. }
  split; [done|].
  enough (length (j :: m_events s ++ busy) <= length (seq 0 MAX_INTERNAL_EVENTS))%nat by
    (rewrite length_seq in *; simpl in *; lia).
  apply submseteq_length, NoDup_submseteq; [constructor; [done|apply (ok_nodup _ _ Hok)]|].
  intros i [->|Hi]%elem_of_cons; apply elem_of_seq; split; try lia.
  - rewrite Nat.add_0_l, <- (ok_length _ _ Hok). by eapply lookup_lt_Some.
  - rewrite Nat.add_0_l. by eapply in_use_lt.
Qed.

(** The state after an event was put into slot [j]. *)
Lemma put_ok busy s j t : t <> POSLIB_CTRL_EVENT_NONE -> ok busy s ->
  m_internal_events s !! j = Some POSLIB_CTRL_EVENT_NONE ->
  ok busy (set_queue true (m_events s ++ [j]) (<[j := t]> (m_internal_events s)) s).
Proof.
  intros Ht Hok Hj. destruct (in_use_free _ _ _ Hok Hj) as [Hnot _].
  split; simpl; [done|by rewrite length_insert; apply (ok_length _ _ Hok)| |].
  - rewrite <- app_assoc. simpl. rewrite <- Permutation_middle. constructor; [done|apply (ok_nodup _ _ Hok)].
  - intros i. rewrite type_of_set by (by eapply lookup_lt_Some). pose proof (ok_slots _ _ Hok i) as Hi.
    rewrite !elem_of_app, list_elem_of_singleton in *. destruct (decide (i = j)) as [->|Hne]; naive_solver.
Qed.

(** An event is accepted when a slot is free, and waits behind the others. *)
Record added (E : env) (t : Z) (busy : list nat) (s : state) (r : bool * state) : Prop := {
  added_accepted : r.1 = bool_decide (length (m_events s ++ busy) < MAX_INTERNAL_EVENTS)%nat;
  added_ok : ok busy r.2;
  added_queued : queued r.2 = queued s ++ (if r.1 then [t] else []);
  added_world : world r.2 = if r.1 then add_events_task E (world s) else world s;
  added_types i : i ∈ m_events s ++ busy -> type_of i r.2 = type_of i s }.

Lemma add_spec (E : env) t busy s : t <> POSLIB_CTRL_EVENT_NONE -> ok busy s ->
  added E t busy s (PosLibEvent_add E t s).
Proof.
  intros Ht Hok. unfold PosLibEvent_add, modify, gets. rewrite !bindE. simpl.
  unfold init_events. rewrite (ok_init _ _ Hok). simpl.
  pose proof (free_slot_spec (m_internal_events s) 0) as Hfree.
  destruct (free_slot 0 (m_internal_events s)) as [j|].
  - rewrite Nat.sub_0_r in Hfree. destruct Hfree as [_ Hj].
    pose proof (in_use_free _ _ _ Hok Hj) as [Hnot Hlen]. pose proof (put_ok _ _ _ _ Ht Hok Hj) as Hput.
    rewrite !bindE. simpl. rewrite (ok_init _ _ Hok).
    assert (Htypes : forall i, i ∈ m_events s ++ busy ->
      type_of i (set_queue true (m_events s ++ [j]) (<[j := t]> (m_internal_events s)) s) = type_of i s).
    { intros i Hi. rewrite type_of_set by (by eapply lookup_lt_Some). destruct (decide (i = j)) as [->|]; done. }
    split; simpl.
    + symmetry. by apply bool_decide_eq_true_2.
    + destruct Hput. by split.
    + unfold queued at 1. simpl. rewrite fmap_app. f_equal.
      * apply list_fmap_ext. intros k i Hk. apply Htypes, elem_of_app. left. by eapply list_elem_of_lookup_2.
      * simpl. f_equal. etrans; [apply (type_of_set true (m_events s ++ [j])); by eapply lookup_lt_Some|].
        by rewrite decide_True.
    + done.
    + apply Htypes.
  - pose proof (in_use_full _ _ Hok Hfree). split; simpl; try done.
    + symmetry. apply bool_decide_eq_false_2. lia.
    + by rewrite app_nil_r.
Qed.

(** What the modules do leaves the queue well-formed, and the accepted events wait
    behind the others. *)
Record grown (given : W -> list Z) (busy : list nat) (s : state) (l : list Z) (s' : state) : Prop := {
  grown_ok : ok busy s';
  grown_queued : queued s' = queued s ++ l;
  grown_given : given (world s') = given (world s);
  grown_busy i : i ∈ busy -> type_of i s' = type_of i s }.

Lemma grown_same given busy s s' : ok busy s -> m_internal_init s' = m_internal_init s ->
  m_events s' = m_events s -> m_internal_events s' = m_internal_events s -> given (world s') = given (world s) ->
  grown given busy s [] s'.
Proof.
  intros [] Hi Hq Hs Hw. unfold type_of in *. split; [|unfold queued, type_of; by rewrite Hq, Hs, app_nil_r|done|].
  - split; unfold type_of; rewrite ?Hi, ?Hq, ?Hs; done.
  - intros i _. unfold type_of. by rewrite Hs.
Qed.

Lemma register_same event cb s : let s' := (PosLibEvent_register event cb s).2 in
  m_internal_init s' = m_internal_init s /\ m_events s' = m_events s /\
  m_internal_events s' = m_internal_events s /\ world s' = world s.
Proof.
  unfold PosLibEvent_register, modify, gets. rewrite bindE. simpl.
  assert (H : forall ini db, let s' := set_db ini db (init_public s) in
    m_internal_init s' = m_internal_init s /\ m_events s' = m_events s /\
    m_internal_events s' = m_internal_events s /\ world s' = world s).
  { intros. unfold s', init_public. by destruct (m_public_init s). }
  assert (H0 : set_db (m_public_init (init_public s)) (m_public_event_db (init_public s)) (init_public s) = init_public s).
  { by destruct (init_public s). }
  pose proof (H (m_public_init (init_public s)) (m_public_event_db (init_public s))) as Hs. rewrite H0 in Hs.
  destruct cb as [c|]; [|exact Hs]. destruct (Z.land _ _ =? 0); [exact Hs|]. rewrite bindE. simpl.
  destruct (free_subscriber _ _) as [i|]; [|exact Hs]. rewrite bindE. apply H.
Qed.

Lemma acts_grown E `{!Modules E} s l s' : acts E given s l s' -> forall busy, ok busy s -> grown given busy s l s'.
Proof.
  induction 1 as [t s Ht Ha|t s Ht Ha|event cb s|id s|w s Hw|s l s' l' s'' _ IH _ IH']; intros busy Hok.
  1,2: destruct (add_spec E t busy s Ht Hok) as [_ Hok' Hq Hw Ht']; rewrite Ha in *;
    split; [done|done|by rewrite Hw, ?add_task_law|intros i Hi; apply Ht', elem_of_app; auto].
  - destruct (register_same event cb s) as (?&?&?&Hw). apply grown_same; try done. by rewrite Hw.
  - unfold PosLibEvent_deregister. destruct (id <? _)%nat; by apply grown_same.
  - by apply grown_same.
  - destruct (IH _ Hok) as [Hok1 Hq1 Hg1 Hb1]. destruct (IH' _ Hok1) as [Hok2 Hq2 Hg2 Hb2].
    split; [done|by rewrite Hq2, Hq1, app_assoc|by rewrite Hg2, Hg1|intros i Hi; by rewrite Hb2, Hb1].
Qed.

Lemma grown_then given busy s l s' l' s'' :
  grown given busy s l s' -> grown given busy s' l' s'' -> grown given busy s (l ++ l') s''.
Proof.
  intros [_ Hq1 Hg1 Hb1] [Hok Hq2 Hg2 Hb2].
  split; [done|by rewrite Hq2, Hq1, app_assoc|by rewrite Hg2, Hg1|intros i Hi; by rewrite Hb2, Hb1].
Qed.

Lemma public_grown E `{!Modules E} msg busy n : forall i s, ok busy s ->
  exists l, grown given busy s l (public_loop E msg n i s).2.
Proof.
  induction n as [|n IH]; intros i s Hok.
  - exists []. by apply grown_same.
  - cbn [public_loop]. rewrite bindE. cbn [gets fst snd]. rewrite bindE.
    assert (Hsub : exists l, grown given busy s l (match sub_cb (default no_subscriber (m_public_event_db s !! i)) with
      | Some c => if negb (Z.land (sub_event (default no_subscriber (m_public_event_db s !! i))) (event_id msg) =? 0)
                  then modify (on_public E c msg) else mret tt
      | None => mret tt end s).2).
    { destruct (sub_cb _) as [c|]; [|exists []; by apply grown_same].
      destruct (negb _); [|exists []; by apply grown_same].
      destruct (public_acts c msg s) as [l Hl]. exists l. by apply acts_grown. }
    destruct Hsub as [l Hl]. destruct (IH (S i) _ (grown_ok _ _ _ _ _ Hl)) as [l' Hl'].
    exists (l ++ l'). by eapply grown_then.
Qed.

Lemma generate_grown E `{!Modules E} type busy s : ok busy s ->
  exists l, grown given busy s l (generate_public_events E type s).2.
Proof.
  intros Hok. unfold generate_public_events.
  destruct (public_event type =? POSLIB_FLAG_EVENT_NONE); [exists []; by apply grown_same|].
  rewrite bindE. simpl.
  assert (Hw : grown given busy s [] (set_world (getTimestampHp E (world s)).2 s)).
  { apply grown_same; try done. simpl. apply timestamp_law. }
  destruct (public_grown E {| event_id := public_event type; time_hp := (getTimestampHp E (world s)).1 |}
    busy POSLIB_FLAG_EVENT_SUBSCRIBERS_MAX 0 _ (grown_ok _ _ _ _ _ Hw)) as [l Hl].
  exists l. exact (grown_then _ _ _ _ _ _ _ Hw Hl).
Qed.

(** The slot of the event in process is freed. *)
Lemma free_ok i s : ok [i] s ->
  let s' := set_queue (m_internal_init s) (m_events s) (<[i := POSLIB_CTRL_EVENT_NONE]> (m_internal_events s)) s in
  ok [] s' /\ queued s' = queued s.
Proof.
  intros Hok s'.
  assert (Hlt : (i < length (m_internal_events s))%nat).
  { rewrite (ok_length _ _ Hok). eapply in_use_lt; [done|]. set_solver. }
  assert (Hnot : i ∉ m_events s) by (pose proof (ok_nodup _ _ Hok) as Hn%NoDup_app; set_solver).
  assert (Ht : forall j, type_of j s' = if decide (j = i) then POSLIB_CTRL_EVENT_NONE else type_of j s)
    by (intros j; by apply type_of_set).
  split.
  - split; simpl; [apply (ok_init _ _ Hok)|by rewrite length_insert; apply (ok_length _ _ Hok)| |].
    + rewrite app_nil_r. by pose proof (ok_nodup _ _ Hok) as [? _]%NoDup_app.
    + intros j. rewrite Ht, app_nil_r. pose proof (ok_slots _ _ Hok j) as Hj.
      rewrite elem_of_app, list_elem_of_singleton in Hj.
      destruct (decide (j = i)) as [->|]; naive_solver.
  - apply list_fmap_ext. intros k j Hk%list_elem_of_lookup_2. rewrite Ht.
    destruct (decide (j = i)) as [->|]; [done|done].
Qed.

Lemma pop_ok i q s : ok [] s -> m_events s = i :: q ->
  ok [i] (set_queue (m_internal_init s) q (m_internal_events s) s).
Proof.
  intros [Hi Hl Hn Hs] Hq. rewrite Hq, app_nil_r in *. split; simpl; try done.
  - by rewrite <- Permutation_cons_append.
  - intros j. specialize (Hs j). change (type_of j (set_queue _ _ _ _)) with (type_of j s). rewrite Hs.
    rewrite elem_of_app, elem_of_cons, list_elem_of_singleton. tauto.
Qed.

(** A run of the task gives the first event to the modules, and only that one. *)
Record handled (g : W -> list Z) (t : Z) (ts : list Z) (s : state) (r : Z * state) : Prop := {
  handled_ok : ok [] r.2;
  handled_queued : exists l, queued r.2 = ts ++ l;
  handled_given : g (world r.2) = g (world s) ++ [t];
  handled_again : r.1 = match queued r.2 with [] => APP_SCHEDULER_STOP_TASK | _ => APP_SCHEDULER_SCHEDULE_ASAP end }.

Lemma next_runE s : next_run s = match queued s with [] => APP_SCHEDULER_STOP_TASK | _ => APP_SCHEDULER_SCHEDULE_ASAP end.
Proof. unfold next_run, queued. by destruct (m_events s). Qed.

Lemma handle_spec E `{!Modules E} t ts s : ok [] s -> queued s = t :: ts -> handled given t ts s (handle_events E s).
Proof.
  intros Hok Hq. unfold handle_events. rewrite bindE. cbn [gets fst snd].
  destruct (m_events s) as [|i q] eqn:Hev; [unfold queued in Hq; by rewrite Hev in Hq|].
  pose proof (pop_ok _ _ _ Hok Hev) as Hok0.
  unfold queued in Hq. rewrite Hev in Hq. injection Hq as Hi Hts.
  rewrite !bindE. cbn [modify gets fst snd].
  set (s0 := set_queue _ q _ s) in *.
  change (type_of i s0) with (type_of i s). rewrite Hi.
  destruct (ctrl_acts t s0) as (l1 & w & Hw & Hctrl).
  assert (Hok0' : ok [i] (set_world w s0)) by (destruct Hok0; by split).
  pose proof (acts_grown E _ _ _ Hctrl _ Hok0') as H1. set (s1 := process_ctrl E t s0) in *.
  destruct (ble_acts (type_of i s1) s1) as [l2 Hble].
  pose proof (acts_grown E _ _ _ Hble _ (grown_ok _ _ _ _ _ H1)) as H2. set (s2 := process_ble E _ s1) in *.
  destruct (generate_grown E (type_of i s2) _ _ (grown_ok _ _ _ _ _ H2)) as [l3 H3].
  set (s3 := (generate_public_events E _ s2).2) in *.
  pose proof (grown_then _ _ _ _ _ _ _ H1 (grown_then _ _ _ _ _ _ _ H2 H3)) as [Hok3 Hq3 Hg3 _].
  destruct (free_ok _ _ Hok3) as [Hok4 Hq4].
  split; cbn [fst snd]; [done| | |apply next_runE].
  - exists (l1 ++ l2 ++ l3). etrans; [exact Hq4|]. rewrite Hq3. by rewrite <- Hts.
  - etrans; [exact Hg3|exact Hw].
Qed.

(** Some runs of the task. *)
Fixpoint serve (E : env) (n : nat) (s : state) : state :=
  match n with O => s | S n => (handle_events E (serve E n s)).2 end.

Lemma serve_spec E `{!Modules E} s n : ok [] s -> (n <= length (queued s))%nat ->
  ok [] (serve E n s) /\ given (world (serve E n s)) = given (world s) ++ take n (queued s) /\
  exists l, queued (serve E n s) = drop n (queued s) ++ l.
Proof.
  intros Hok. induction n as [|n IH]; intros Hn.
  - split; [done|]. split; [by rewrite app_nil_r|]. exists []. by rewrite app_nil_r.
  - destruct IH as (Hok1 & Hg1 & l1 & Hq1); [lia|].
    destruct (lookup_lt_is_Some_2 (queued s) n) as [t Ht]; [lia|].
    rewrite (drop_S _ _ _ Ht) in Hq1. simpl in Hq1.
    destruct (handle_spec E _ _ _ Hok1 Hq1) as [Hok2 [l2 Hq2] Hg2 _]. cbn [serve].
    split; [done|]. split; [by rewrite Hg2, Hg1, (take_S_r _ _ _ Ht), app_assoc|].
    exists (l1 ++ l2). by rewrite Hq2, app_assoc.
Qed.

(** The result of a run is right whether events wait or not. *)
Lemma handle_again E `{!Modules E} s : ok [] s ->
  (handle_events E s).1 =
  match queued (handle_events E s).2 with [] => APP_SCHEDULER_STOP_TASK | _ => APP_SCHEDULER_SCHEDULE_ASAP end.
Proof.
  intros Hok. destruct (queued s) as [|t ts] eqn:Hq.
  - unfold queued in Hq. apply fmap_nil_inv in Hq. unfold handle_events. rewrite bindE. simpl. rewrite Hq.
    unfold queued. simpl. by rewrite Hq.
  - apply (handled_again _ _ _ _ _ (handle_spec E t ts s Hok Hq)).
Qed.


(** The first use sets the module up. *)
Lemma init_ok s : m_internal_init s = false -> ok [] (init_events s).
Proof.
  intros Hi. unfold init_events. rewrite Hi. split; [done|done|constructor|].
  intros i. unfold type_of. simpl.
  do 17 (destruct i as [|i]; [split; [done|set_solver]|]). split; [done|set_solver].
Qed.

End Events.

Arguments state : clear implicits.
Arguments env : clear implicits.

Module Examples.

(** The world is the list of the events that the control module was given. *)
Definition W0 : Type := list Z.

(** The control module answers a message with the application configuration by
    another event, and an event by the public events of the table. *)
Definition ctrl0 (E : env W0) (t : Z) (s : state W0) : state W0 :=
  let s := set_world (world s ++ [t]) s in
  if t =? 5 then (PosLibEvent_add E POSLIB_CTRL_EVENT_CONFIG_CHANGE s).2 else s.

Definition quiet : env W0 :=
  {| process_ctrl := fun t s => set_world (world s ++ [t]) s; process_ble := fun _ s => s; on_public := fun _ _ s => s;
     add_events_task := fun w => w; getTimestampHp := fun w => (0, w) |}.
Definition E0 : env W0 :=
  {| process_ctrl := ctrl0 quiet; process_ble := fun _ s => s;
     on_public := fun _ msg s => if event_id msg =? POSLIB_FLAG_EVENT_CONFIG_CHANGE then (PosLibEvent_deregister 0 s).2 else s;
     add_events_task := fun w => w; getTimestampHp := fun w => (0, w) |}.

Lemma acts_nothing {W} (E : env W) g (s : state W) : acts E g s [] s.
Proof. replace s with (set_world (world s) s) at 2 by (by destruct s). by constructor. Qed.

Lemma add_quiet t s : PosLibEvent_add quiet t s = PosLibEvent_add E0 t s.
Proof. reflexivity. Qed.

#[export] Instance modules0 : Modules E0.
Proof.
  refine {| given := fun w : W0 => w |}; try done.
  - intros t s. simpl. unfold ctrl0. destruct (t =? 5).
    + rewrite add_quiet. destruct (PosLibEvent_add E0 POSLIB_CTRL_EVENT_CONFIG_CHANGE (set_world (world s ++ [t]) s)).1 eqn:Ha.
      * exists [POSLIB_CTRL_EVENT_CONFIG_CHANGE], (world s ++ [t]). split; [done|]. by apply acts_add.
      * exists [], (world s ++ [t]). split; [done|]. by apply acts_refused.
    + exists [], (world s ++ [t]). split; [done|]. apply acts_nothing.
  - intros t s. exists []. apply acts_nothing.
  - intros c msg s. exists []. simpl. destruct (event_id msg =? _); [apply (acts_deregister _ _ 0)|apply acts_nothing].
Defined.

Definition boot : state W0 :=
  {| m_internal_init := false; m_events := []; m_internal_events := []; m_public_init := false;
     m_public_event_db := []; world := [] |}.

(** A scan started and a configuration arrived. *)
Definition s0 : state W0 := (PosLibEvent_add E0 5 (PosLibEvent_add E0 1 (init_events boot)).2).2.

Lemma s0_ok : ok [] s0.
Proof.
  apply (added_ok _ _ _ _ _ (add_spec E0 5 [] (PosLibEvent_add E0 1 (init_events boot)).2 ltac:(done)
    (added_ok _ _ _ _ _ (add_spec E0 1 [] (init_events boot) ltac:(done) (init_ok boot eq_refl))))).
Qed.


(** The seventeenth event is refused. *)
Lemma full_refused :
  let s := Nat.iter 16 (fun s => (PosLibEvent_add E0 1 s).2) boot in
  length (queued s) = 16%nat /\ (PosLibEvent_add E0 3 s).1 = false /\
  (PosLibEvent_add E0 3 (handle_events E0 s).2).1 = true.
Proof. by vm_compute. Qed.

End Examples.
