(* ===== verification/PosControl.v ===== *)
(** * Control of the positioning library

    [libraries/positioning/poslib/poslib_control.c]: the state machine that
    starts the updates of a node, waits for the scan, sends the measurements and
    schedules the next update, with the callbacks, the tasks and the calls that
    drive it.

    What the module asks of the rest of the node is a [request]; an environment
    performs it and gives the answer. *)

From S2P Require Import Prelude Api SharedOffline PosMeasurement PosTlv PosMbcn PosEvent PosDecode.

(** [poslib_motion_mode_e] *)
Definition POSLIB_MOTION_STATIC : Z := 1.
Definition POSLIB_MOTION_DYNAMIC : Z := 2.
Definition MOTION_DEFAULT : Z := POSLIB_MOTION_STATIC.

(** [poslib_ble_type_e] *)
Definition POSLIB_EDDYSTONE : Z := 1.
Definition POSLIB_IBEACON : Z := 2.
Definition POSLIB_BEACON_ALL : Z := 3.

(** [api/wms_beacon_tx.h] *)
Definition APP_LIB_BEACON_TX_MIN_INTERVAL : Z := 100.
Definition APP_LIB_BEACON_TX_MAX_INTERVAL : Z := 60000.
Definition APP_LIB_BEACON_TX_CHANNELS_ALL : Z := 7.

Definition SHARED_APP_CONFIG_INCOMPATIBLE_FILTER : Z := 0xFFFE.
Definition APP_SCHEDULER_RES_OK : Z := 0.
Definition SHARED_INVALID_ID : Z := 65535.
Definition TIMEOUT_APPCFG_MS : Z := 30000.
Definition TIMEOUT_SCAN_MS : Z := 60000.
Definition SCAN_MARGIN_RATIO : Z := 2.
Definition POSLIB_TLV_TYPE : Z := 0xC1.
Definition POS_SOURCE_ENDPOINT : Z := 238.
Definition POS_DESTINATION_ENDPOINT : Z := 238.
Definition MAX_PAYLOAD_LEN : Z := 102.

(** [poslib_measurement.h] *)
Definition DEFAULT_MEASUREMENT_TYPE_TAG : Z := 0x05.
Definition DEFAULT_MEASUREMENT_TYPE_ANCHOR : Z := 0xF5.
Definition POSLIB_NODE_INFO_FEATURES_VERSION : Z := 1.
Definition POSLIB_NODE_INFO_MASK_VERSION : Z := 0x0F.
Definition POSLIB_NODE_INFO_FLAG_MOTION_EN : Z := 0x10.
Definition POSLIB_NODE_INFO_FLAG_IS_STATIC : Z := 0x20.
Definition POSLIB_NODE_INFO_FLAG_EDDYSTONE_ON : Z := 0x40.
Definition POSLIB_NODE_INFO_FLAG_IBEACON_ON : Z := 0x80.
Definition POSLIB_NODE_INFO_FLAG_MBCN_ON : Z := 0x100.

Definition TIME_SEC_TO_MS (tm : Z) : Z := u32 (tm * 1000).

Inductive poslib_state_e := POSLIB_STATE_STOPPED | POSLIB_STATE_IDLE | POSLIB_STATE_UPDATE.

#[export] Instance poslib_state_eq : EqDecision poslib_state_e.
Proof. solve_decision. Defined.

Inductive poslib_status_e := POSLIB_STOPPED | POSLIB_IDLE | POSLIB_UPDATE_START.

(** The settings are compared with [memcmp]. *)
#[export] Instance poslib_ble_mode_config_eq : EqDecision poslib_ble_mode_config_t.
Proof. solve_decision. Defined.
#[export] Instance ble_beacon_settings_eq : EqDecision ble_beacon_settings_t.
Proof. solve_decision. Defined.
#[export] Instance poslib_motion_mon_settings_eq : EqDecision poslib_motion_mon_settings_t.
Proof. solve_decision. Defined.
#[export] Instance poslib_da_settings_eq : EqDecision poslib_da_settings_t.
Proof. solve_decision. Defined.
#[export] Instance poslib_mbcn_record_eq : EqDecision poslib_mbcn_record_t.
Proof. solve_decision. Defined.
#[export] Instance poslib_mbcn_config_eq : EqDecision poslib_mbcn_config_t.
Proof. solve_decision. Defined.
#[export] Instance poslib_settings_eq : EqDecision poslib_settings_t.
Proof. solve_decision. Defined.

(** The tasks of the module. *)
Inductive task := trigger_update | timeout | delayed | led_off.

#[export] Instance control_task_eq : EqDecision task.
Proof. solve_decision. Defined.

(** ** The state *)

Record control_events_t := {
  ev_online : bool;
  ev_offline : bool;
  ev_scan_start : bool;
  ev_scan_end : bool;
  ev_data_sent : bool;
  ev_data_sent_complete : bool;
  ev_app_cfg : bool;
  ev_timeout : bool;
  ev_oneshot : bool;
  ev_offline_req : bool;
  ev_sent_success : bool;
  ev_connected : bool;
  ev_scan_fail : bool;
  ev_is_static : bool }.

Record control_state_t := {
  c_state : poslib_state_e;
  c_mode : Z;
  scheduled : bool;
  outside_wm : bool;
  sequence : Z;
  events : control_events_t;
  last_update_s : Z;
  next_update_s : Z;
  update_start_hp : Z }.

Record callback_state_t := { reg : bool; reg_id : Z }.

Definition no_events : control_events_t :=
  {| ev_online := false; ev_offline := false; ev_scan_start := false; ev_scan_end := false; ev_data_sent := false;
     ev_data_sent_complete := false; ev_app_cfg := false; ev_timeout := false; ev_oneshot := false;
     ev_offline_req := false; ev_sent_success := false; ev_connected := false; ev_scan_fail := false;
     ev_is_static := false |}.

Definition set_ev_online (b : bool) (e : control_events_t) : control_events_t :=
  {| ev_online := b; ev_offline := ev_offline e; ev_scan_start := ev_scan_start e; ev_scan_end := ev_scan_end e;
     ev_data_sent := ev_data_sent e; ev_data_sent_complete := ev_data_sent_complete e; ev_app_cfg := ev_app_cfg
     e; ev_timeout := ev_timeout e; ev_oneshot := ev_oneshot e; ev_offline_req := ev_offline_req e;
     ev_sent_success := ev_sent_success e; ev_connected := ev_connected e; ev_scan_fail := ev_scan_fail e;
     ev_is_static := ev_is_static e |}.
Definition set_ev_offline (b : bool) (e : control_events_t) : control_events_t :=
  {| ev_online := ev_online e; ev_offline := b; ev_scan_start := ev_scan_start e; ev_scan_end := ev_scan_end e;
     ev_data_sent := ev_data_sent e; ev_data_sent_complete := ev_data_sent_complete e; ev_app_cfg := ev_app_cfg
     e; ev_timeout := ev_timeout e; ev_oneshot := ev_oneshot e; ev_offline_req := ev_offline_req e;
     ev_sent_success := ev_sent_success e; ev_connected := ev_connected e; ev_scan_fail := ev_scan_fail e;
     ev_is_static := ev_is_static e |}.
Definition set_ev_scan_start (b : bool) (e : control_events_t) : control_events_t :=
  {| ev_online := ev_online e; ev_offline := ev_offline e; ev_scan_start := b; ev_scan_end := ev_scan_end e;
     ev_data_sent := ev_data_sent e; ev_data_sent_complete := ev_data_sent_complete e; ev_app_cfg := ev_app_cfg
     e; ev_timeout := ev_timeout e; ev_oneshot := ev_oneshot e; ev_offline_req := ev_offline_req e;
     ev_sent_success := ev_sent_success e; ev_connected := ev_connected e; ev_scan_fail := ev_scan_fail e;
     ev_is_static := ev_is_static e |}.
Definition set_ev_scan_end (b : bool) (e : control_events_t) : control_events_t :=
  {| ev_online := ev_online e; ev_offline := ev_offline e; ev_scan_start := ev_scan_start e; ev_scan_end := b;
     ev_data_sent := ev_data_sent e; ev_data_sent_complete := ev_data_sent_complete e; ev_app_cfg := ev_app_cfg
     e; ev_timeout := ev_timeout e; ev_oneshot := ev_oneshot e; ev_offline_req := ev_offline_req e;
     ev_sent_success := ev_sent_success e; ev_connected := ev_connected e; ev_scan_fail := ev_scan_fail e;
     ev_is_static := ev_is_static e |}.
Definition set_ev_data_sent (b : bool) (e : control_events_t) : control_events_t :=
  {| ev_online := ev_online e; ev_offline := ev_offline e; ev_scan_start := ev_scan_start e; ev_scan_end :=
     ev_scan_end e; ev_data_sent := b; ev_data_sent_complete := ev_data_sent_complete e; ev_app_cfg :=
     ev_app_cfg e; ev_timeout := ev_timeout e; ev_oneshot := ev_oneshot e; ev_offline_req := ev_offline_req e;
     ev_sent_success := ev_sent_success e; ev_connected := ev_connected e; ev_scan_fail := ev_scan_fail e;
     ev_is_static := ev_is_static e |}.
Definition set_ev_data_sent_complete (b : bool) (e : control_events_t) : control_events_t :=
  {| ev_online := ev_online e; ev_offline := ev_offline e; ev_scan_start := ev_scan_start e; ev_scan_end :=
     ev_scan_end e; ev_data_sent := ev_data_sent e; ev_data_sent_complete := b; ev_app_cfg := ev_app_cfg e;
     ev_timeout := ev_timeout e; ev_oneshot := ev_oneshot e; ev_offline_req := ev_offline_req e; ev_sent_success
     := ev_sent_success e; ev_connected := ev_connected e; ev_scan_fail := ev_scan_fail e; ev_is_static :=
     ev_is_static e |}.
Definition set_ev_app_cfg (b : bool) (e : control_events_t) : control_events_t :=
  {| ev_online := ev_online e; ev_offline := ev_offline e; ev_scan_start := ev_scan_start e; ev_scan_end :=
     ev_scan_end e; ev_data_sent := ev_data_sent e; ev_data_sent_complete := ev_data_sent_complete e; ev_app_cfg
     := b; ev_timeout := ev_timeout e; ev_oneshot := ev_oneshot e; ev_offline_req := ev_offline_req e;
     ev_sent_success := ev_sent_success e; ev_connected := ev_connected e; ev_scan_fail := ev_scan_fail e;
     ev_is_static := ev_is_static e |}.
Definition set_ev_timeout (b : bool) (e : control_events_t) : control_events_t :=
  {| ev_online := ev_online e; ev_offline := ev_offline e; ev_scan_start := ev_scan_start e; ev_scan_end :=
     ev_scan_end e; ev_data_sent := ev_data_sent e; ev_data_sent_complete := ev_data_sent_complete e; ev_app_cfg
     := ev_app_cfg e; ev_timeout := b; ev_oneshot := ev_oneshot e; ev_offline_req := ev_offline_req e;
     ev_sent_success := ev_sent_success e; ev_connected := ev_connected e; ev_scan_fail := ev_scan_fail e;
     ev_is_static := ev_is_static e |}.
Definition set_ev_oneshot (b : bool) (e : control_events_t) : control_events_t :=
  {| ev_online := ev_online e; ev_offline := ev_offline e; ev_scan_start := ev_scan_start e; ev_scan_end :=
     ev_scan_end e; ev_data_sent := ev_data_sent e; ev_data_sent_complete := ev_data_sent_complete e; ev_app_cfg
     := ev_app_cfg e; ev_timeout := ev_timeout e; ev_oneshot := b; ev_offline_req := ev_offline_req e;
     ev_sent_success := ev_sent_success e; ev_connected := ev_connected e; ev_scan_fail := ev_scan_fail e;
     ev_is_static := ev_is_static e |}.
Definition set_ev_sent_success (b : bool) (e : control_events_t) : control_events_t :=
  {| ev_online := ev_online e; ev_offline := ev_offline e; ev_scan_start := ev_scan_start e; ev_scan_end :=
     ev_scan_end e; ev_data_sent := ev_data_sent e; ev_data_sent_complete := ev_data_sent_complete e; ev_app_cfg
     := ev_app_cfg e; ev_timeout := ev_timeout e; ev_oneshot := ev_oneshot e; ev_offline_req := ev_offline_req
     e; ev_sent_success := b; ev_connected := ev_connected e; ev_scan_fail := ev_scan_fail e; ev_is_static :=
     ev_is_static e |}.
Definition set_ev_scan_fail (b : bool) (e : control_events_t) : control_events_t :=
  {| ev_online := ev_online e; ev_offline := ev_offline e; ev_scan_start := ev_scan_start e; ev_scan_end :=
     ev_scan_end e; ev_data_sent := ev_data_sent e; ev_data_sent_complete := ev_data_sent_complete e; ev_app_cfg
     := ev_app_cfg e; ev_timeout := ev_timeout e; ev_oneshot := ev_oneshot e; ev_offline_req := ev_offline_req
     e; ev_sent_success := ev_sent_success e; ev_connected := ev_connected e; ev_scan_fail := b; ev_is_static :=
     ev_is_static e |}.
Definition set_ev_is_static (b : bool) (e : control_events_t) : control_events_t :=
  {| ev_online := ev_online e; ev_offline := ev_offline e; ev_scan_start := ev_scan_start e; ev_scan_end :=
     ev_scan_end e; ev_data_sent := ev_data_sent e; ev_data_sent_complete := ev_data_sent_complete e; ev_app_cfg
     := ev_app_cfg e; ev_timeout := ev_timeout e; ev_oneshot := ev_oneshot e; ev_offline_req := ev_offline_req
     e; ev_sent_success := ev_sent_success e; ev_connected := ev_connected e; ev_scan_fail := ev_scan_fail e;
     ev_is_static := b |}.

(** [memset(&m_ctrl, 0, sizeof(m_ctrl))] *)
Definition zero_ctrl : control_state_t :=
  {| c_state := POSLIB_STATE_STOPPED; c_mode := 0; scheduled := false; outside_wm := false; sequence := 0;
     events := no_events; last_update_s := 0; next_update_s := 0; update_start_hp := 0 |}.

Definition set_c_state (x : poslib_state_e) (c : control_state_t) : control_state_t :=
  {| c_state := x; c_mode := c_mode c; scheduled := scheduled c; outside_wm := outside_wm c; sequence := sequence c;
     events := events c; last_update_s := last_update_s c; next_update_s := next_update_s c;
     update_start_hp := update_start_hp c |}.
Definition set_scheduled (b : bool) (c : control_state_t) : control_state_t :=
  {| c_state := c_state c; c_mode := c_mode c; scheduled := b; outside_wm := outside_wm c; sequence := sequence c;
     events := events c; last_update_s := last_update_s c; next_update_s := next_update_s c;
     update_start_hp := update_start_hp c |}.
Definition set_outside (b : bool) (c : control_state_t) : control_state_t :=
  {| c_state := c_state c; c_mode := c_mode c; scheduled := scheduled c; outside_wm := b; sequence := sequence c;
     events := events c; last_update_s := last_update_s c; next_update_s := next_update_s c;
     update_start_hp := update_start_hp c |}.
Definition on_events (f : control_events_t -> control_events_t) (c : control_state_t) : control_state_t :=
  {| c_state := c_state c; c_mode := c_mode c; scheduled := scheduled c; outside_wm := outside_wm c;
     sequence := sequence c; events := f (events c); last_update_s := last_update_s c;
     next_update_s := next_update_s c; update_start_hp := update_start_hp c |}.
Definition set_updates (last next : Z) (c : control_state_t) : control_state_t :=
  {| c_state := c_state c; c_mode := c_mode c; scheduled := scheduled c; outside_wm := outside_wm c;
     sequence := sequence c; events := events c; last_update_s := last; next_update_s := next;
     update_start_hp := update_start_hp c |}.
Definition set_next (next : Z) (c : control_state_t) : control_state_t := set_updates (last_update_s c) next c.
Definition set_start (t : Z) (c : control_state_t) : control_state_t :=
  {| c_state := c_state c; c_mode := c_mode c; scheduled := scheduled c; outside_wm := outside_wm c;
     sequence := sequence c; events := events c; last_update_s := last_update_s c;
     next_update_s := next_update_s c; update_start_hp := t |}.

(** A new schedule: the fields that [schedule_next] sets before it asks for the update. *)
Definition new_schedule (mode next : Z) (is_static : bool) (c : control_state_t) : control_state_t :=
  {| c_state := POSLIB_STATE_IDLE; c_mode := mode; scheduled := true; outside_wm := outside_wm c;
     sequence := u16 (sequence c + 1); events := set_ev_is_static is_static no_events;
     last_update_s := last_update_s c; next_update_s := next; update_start_hp := update_start_hp c |}.

(** ** What the module asks of the rest of the node

    The scheduler, the stack, the other modules of the library and the shared
    libraries.  A data request has the callback [data_send_cb]. *)
Abbreviation node_info_t := PosMeasurement.poslib_meas_record_node_info_t.

Inductive request : Type -> Type :=
  | App_Scheduler_addTask_execTime (t : task) (delay_ms : Z) : request Z
  | App_Scheduler_cancelTask (t : task) : request unit
  | getTimestampS : request Z
  | getTimestampHp : request Z
  | getNodeAddress : request (option Z)
  | getNodeRole : request Z
  | getNumFreeBuffers : request Z
  | otap_isValid : request bool
  | otap_isProcessed : request bool
  | otap_getSeq : request Z
  | otap_setToBeProcessed : request unit
  | stopStack : request unit
  | PosLibEvent_add (type : Z) : request bool
  | PosLibMeas_startScan (ctrl : poslib_scan_ctrl_t) : request bool
  | PosLibMeas_opportunisticScan (enable : bool) : request bool
  | PosLibMeas_getBeaconNum : request Z
  | PosLibMeas_clearMeas : request unit
  | PosLibMeas_stop : request unit
  | PosLibMeas_getPayload (max_len sequence meas_type : Z) (add_voltage : bool) (node_info : node_info_t)
      : request (bool * list Z * Z * Z)
  | PosLibBle_start (settings : ble_beacon_settings_t) : request poslib_ret_e
  | PosLibBle_stop : request unit
  | PosLibBle_getEddystoneStatus : request bool
  | PosLibBle_getiBeaconStatus : request bool
  | PosLibMbcn_start (settings : poslib_mbcn_config_t) : request bool
  | PosLibMbcn_stop : request unit
  | PosLibDa_start (settings : poslib_settings_t) : request bool
  | PosLibDa_stop : request unit
  | PosLibDa_sendData (data : app_lib_data_to_send_t) : request Z
  | Shared_Data_sendData (data : app_lib_data_to_send_t) : request Z
  | Shared_Offline_register : request (shared_offline_res_e * Z)
  | Shared_Offline_unregister (id : Z) : request shared_offline_res_e
  | Shared_Offline_enter_offline_state (id delay_s : Z) : request shared_offline_res_e
  | Shared_Offline_enter_online_state (id : Z) : request shared_offline_res_e
  | Shared_Offline_get_status : request shared_offline_status_e
  | Shared_Appconfig_addFilter (type : Z) (call_cb_always : bool) : request (bool * option Z * list (Z * list Z))
  | Shared_Appconfig_removeFilter (id : Z) : request bool.

Section Control.
Context {W : Type} (MOTION_SUPPORTED CONF_USE_PERSISTENT_MEMORY CONF_VOLTAGE_REPORT : bool).

(** [perform] gives the answer to a request; [task_done] is what the scheduler
    does with the result of a task. *)
Record env := {
  perform : forall A, request A -> W -> A * W;
  task_done : task -> Z -> W -> W }.

Record state := {
  m_motion_mode : Z;
  m_pos_settings : poslib_settings_t;
  m_aux_settings : poslib_aux_settings_t;
  m_shared_offline : callback_state_t;
  m_shared_appcfg : callback_state_t;
  m_legacy_appcfg : callback_state_t;
  m_appcfg : list Z;
  m_appcfg_len : Z;
  m_poslib_started : bool;
  m_poslib_configured : bool;
  m_poslib_init : bool;
  m_ctrl : control_state_t;
  m_data_sent_success : bool;
  m_timeout_event_type : Z;
  world : W }.

Definition set_motion (m : Z) (s : state) : state :=
  {| m_motion_mode := m; m_pos_settings := m_pos_settings s; m_aux_settings := m_aux_settings s;
     m_shared_offline := m_shared_offline s; m_shared_appcfg := m_shared_appcfg s; m_legacy_appcfg :=
     m_legacy_appcfg s; m_appcfg := m_appcfg s; m_appcfg_len := m_appcfg_len s; m_poslib_started :=
     m_poslib_started s; m_poslib_configured := m_poslib_configured s; m_poslib_init := m_poslib_init s; m_ctrl
     := m_ctrl s; m_data_sent_success := m_data_sent_success s; m_timeout_event_type := m_timeout_event_type s;
     world := world s |}.
Definition set_settings (c : poslib_settings_t) (s : state) : state :=
  {| m_motion_mode := m_motion_mode s; m_pos_settings := c; m_aux_settings := m_aux_settings s; m_shared_offline
     := m_shared_offline s; m_shared_appcfg := m_shared_appcfg s; m_legacy_appcfg := m_legacy_appcfg s; m_appcfg
     := m_appcfg s; m_appcfg_len := m_appcfg_len s; m_poslib_started := m_poslib_started s; m_poslib_configured
     := m_poslib_configured s; m_poslib_init := m_poslib_init s; m_ctrl := m_ctrl s; m_data_sent_success :=
     m_data_sent_success s; m_timeout_event_type := m_timeout_event_type s; world := world s |}.
Definition set_aux (a : poslib_aux_settings_t) (s : state) : state :=
  {| m_motion_mode := m_motion_mode s; m_pos_settings := m_pos_settings s; m_aux_settings := a; m_shared_offline
     := m_shared_offline s; m_shared_appcfg := m_shared_appcfg s; m_legacy_appcfg := m_legacy_appcfg s; m_appcfg
     := m_appcfg s; m_appcfg_len := m_appcfg_len s; m_poslib_started := m_poslib_started s; m_poslib_configured
     := m_poslib_configured s; m_poslib_init := m_poslib_init s; m_ctrl := m_ctrl s; m_data_sent_success :=
     m_data_sent_success s; m_timeout_event_type := m_timeout_event_type s; world := world s |}.
Definition set_shared_offline (r : callback_state_t) (s : state) : state :=
  {| m_motion_mode := m_motion_mode s; m_pos_settings := m_pos_settings s; m_aux_settings := m_aux_settings s;
     m_shared_offline := r; m_shared_appcfg := m_shared_appcfg s; m_legacy_appcfg := m_legacy_appcfg s; m_appcfg
     := m_appcfg s; m_appcfg_len := m_appcfg_len s; m_poslib_started := m_poslib_started s; m_poslib_configured
     := m_poslib_configured s; m_poslib_init := m_poslib_init s; m_ctrl := m_ctrl s; m_data_sent_success :=
     m_data_sent_success s; m_timeout_event_type := m_timeout_event_type s; world := world s |}.
Definition set_shared_appcfg (r : callback_state_t) (s : state) : state :=
  {| m_motion_mode := m_motion_mode s; m_pos_settings := m_pos_settings s; m_aux_settings := m_aux_settings s;
     m_shared_offline := m_shared_offline s; m_shared_appcfg := r; m_legacy_appcfg := m_legacy_appcfg s;
     m_appcfg := m_appcfg s; m_appcfg_len := m_appcfg_len s; m_poslib_started := m_poslib_started s;
     m_poslib_configured := m_poslib_configured s; m_poslib_init := m_poslib_init s; m_ctrl := m_ctrl s;
     m_data_sent_success := m_data_sent_success s; m_timeout_event_type := m_timeout_event_type s; world :=
     world s |}.
Definition set_legacy_appcfg (r : callback_state_t) (s : state) : state :=
  {| m_motion_mode := m_motion_mode s; m_pos_settings := m_pos_settings s; m_aux_settings := m_aux_settings s;
     m_shared_offline := m_shared_offline s; m_shared_appcfg := m_shared_appcfg s; m_legacy_appcfg := r;
     m_appcfg := m_appcfg s; m_appcfg_len := m_appcfg_len s; m_poslib_started := m_poslib_started s;
     m_poslib_configured := m_poslib_configured s; m_poslib_init := m_poslib_init s; m_ctrl := m_ctrl s;
     m_data_sent_success := m_data_sent_success s; m_timeout_event_type := m_timeout_event_type s; world :=
     world s |}.
Definition set_appcfg (buf : list Z) (len : Z) (s : state) : state :=
  {| m_motion_mode := m_motion_mode s; m_pos_settings := m_pos_settings s; m_aux_settings := m_aux_settings s;
     m_shared_offline := m_shared_offline s; m_shared_appcfg := m_shared_appcfg s; m_legacy_appcfg :=
     m_legacy_appcfg s; m_appcfg := buf; m_appcfg_len := len; m_poslib_started := m_poslib_started s;
     m_poslib_configured := m_poslib_configured s; m_poslib_init := m_poslib_init s; m_ctrl := m_ctrl s;
     m_data_sent_success := m_data_sent_success s; m_timeout_event_type := m_timeout_event_type s; world :=
     world s |}.
Definition set_flags (started configured ini : bool) (s : state) : state :=
  {| m_motion_mode := m_motion_mode s; m_pos_settings := m_pos_settings s; m_aux_settings := m_aux_settings s;
     m_shared_offline := m_shared_offline s; m_shared_appcfg := m_shared_appcfg s; m_legacy_appcfg :=
     m_legacy_appcfg s; m_appcfg := m_appcfg s; m_appcfg_len := m_appcfg_len s; m_poslib_started := started;
     m_poslib_configured := configured; m_poslib_init := ini; m_ctrl := m_ctrl s; m_data_sent_success :=
     m_data_sent_success s; m_timeout_event_type := m_timeout_event_type s; world := world s |}.
Definition set_ctrl (c : control_state_t) (s : state) : state :=
  {| m_motion_mode := m_motion_mode s; m_pos_settings := m_pos_settings s; m_aux_settings := m_aux_settings s;
     m_shared_offline := m_shared_offline s; m_shared_appcfg := m_shared_appcfg s; m_legacy_appcfg :=
     m_legacy_appcfg s; m_appcfg := m_appcfg s; m_appcfg_len := m_appcfg_len s; m_poslib_started :=
     m_poslib_started s; m_poslib_configured := m_poslib_configured s; m_poslib_init := m_poslib_init s; m_ctrl
     := c; m_data_sent_success := m_data_sent_success s; m_timeout_event_type := m_timeout_event_type s; world
     := world s |}.
Definition set_private (sent : bool) (t : Z) (s : state) : state :=
  {| m_motion_mode := m_motion_mode s; m_pos_settings := m_pos_settings s; m_aux_settings := m_aux_settings s;
     m_shared_offline := m_shared_offline s; m_shared_appcfg := m_shared_appcfg s; m_legacy_appcfg :=
     m_legacy_appcfg s; m_appcfg := m_appcfg s; m_appcfg_len := m_appcfg_len s; m_poslib_started :=
     m_poslib_started s; m_poslib_configured := m_poslib_configured s; m_poslib_init := m_poslib_init s; m_ctrl
     := m_ctrl s; m_data_sent_success := sent; m_timeout_event_type := t; world := world s |}.
Definition set_world (w : W) (s : state) : state :=
  {| m_motion_mode := m_motion_mode s; m_pos_settings := m_pos_settings s; m_aux_settings := m_aux_settings s;
     m_shared_offline := m_shared_offline s; m_shared_appcfg := m_shared_appcfg s; m_legacy_appcfg :=
     m_legacy_appcfg s; m_appcfg := m_appcfg s; m_appcfg_len := m_appcfg_len s; m_poslib_started :=
     m_poslib_started s; m_poslib_configured := m_poslib_configured s; m_poslib_init := m_poslib_init s; m_ctrl
     := m_ctrl s; m_data_sent_success := m_data_sent_success s; m_timeout_event_type := m_timeout_event_type s;
     world := w |}.

Abbreviation M := (sf state).

Definition ask {A} (E : env) (r : request A) : M A :=
  fun s => Some ((perform E A r (world s)).1, set_world (perform E A r (world s)).2 s).

Definition on_ctrl (f : control_state_t -> control_state_t) : M unit := puts (fun s => set_ctrl (f (m_ctrl s)) s).
Definition mark (f : control_events_t -> control_events_t) : M unit := on_ctrl (on_events f).

Definition add_event (E : env) (type : Z) : M unit := _ ← ask E (PosLibEvent_add type); mret tt.

(** ** Callbacks *)

Definition on_offline_cb (E : env) : M unit := add_event E POSLIB_CTRL_EVENT_OFFLINE.
Definition on_online_cb (E : env) : M unit := add_event E POSLIB_CTRL_EVENT_ONLINE.

Definition data_send_cb (E : env) (success : bool) : M unit :=
  _ ← puts (fun s => set_private success (m_timeout_event_type s) s);
  add_event E POSLIB_CTRL_EVENT_DATA_SENT.

Definition led_off_cb (E : env) : M Z :=
  _ ← add_event E POSLIB_CTRL_EVENT_LED_OFF;
  _ ← puts (fun s => set_aux {| led_on_duration_s := 0; led_cmd_seq := led_cmd_seq (m_aux_settings s) |} s);
  mret APP_SCHEDULER_STOP_TASK.

Definition process_led_status (E : env) (aux : poslib_aux_settings_t) : M unit :=
  if led_on_duration_s aux =? 0 then
    _ ← add_event E POSLIB_CTRL_EVENT_LED_OFF;
    ask E (App_Scheduler_cancelTask led_off)
  else
    _ ← add_event E POSLIB_CTRL_EVENT_LED_ON;
    _ ← ask E (App_Scheduler_addTask_execTime led_off (TIME_SEC_TO_MS (led_on_duration_s aux)));
    mret tt.

(** What [poslib_decode.c] asks of the stack. *)
Definition decode_env (E : env) : PosDecode.env W := {|
  PosDecode.getNodeAddress := fun w => (perform E _ getNodeAddress w).1;
  PosDecode.getNodeRole := fun w => (perform E _ getNodeRole w).1;
  PosDecode.otap_isValid := fun w => (perform E _ otap_isValid w).1;
  PosDecode.otap_isProcessed := fun w => (perform E _ otap_isProcessed w).1;
  PosDecode.otap_getSeq := fun w => (perform E _ otap_getSeq w).1;
  PosDecode.setToBeProcessed := fun w => (perform E _ otap_setToBeProcessed w).2;
  PosDecode.stopStack := fun w => (perform E _ stopStack w).2 |}.

(** The result, and the copies of the settings that the decoder wrote. *)
Definition decode (E : env) : M (bool * poslib_settings_t * poslib_aux_settings_t) := fun s =>
  match PosLibDecode_config MOTION_SUPPORTED CONF_USE_PERSISTENT_MEMORY (decode_env E) (m_appcfg s) (m_appcfg_len s)
          {| PosDecode.settings := m_pos_settings s; aux := m_aux_settings s; PosDecode.world := world s |} with
  | Some (ok, d) => Some ((ok, PosDecode.settings d, aux d), set_world (PosDecode.world d) s)
  | None => None
  end.

Definition process_appcfg (E : env) : M unit :=
  '(ok, settings, aux) ← decode E;
  if negb ok then mret tt
  else
    same ← asks (fun s => bool_decide (m_pos_settings s = settings));
    _ ← (if (same : bool) then mret tt
         else
           _ ← puts (set_settings settings);
           add_event E POSLIB_CTRL_EVENT_CONFIG_CHANGE);
    seq ← asks (fun s => led_cmd_seq (m_aux_settings s));
    if led_cmd_seq aux =? seq then mret tt
    else
      _ ← puts (set_aux aux);
      process_led_status E aux.

(** [memcpy] of more than the buffer holds is a fault. *)
Definition appconfig_cb (E : env) (types : Z) (bytes : list Z) : M unit :=
  if types =? POSLIB_TLV_TYPE then
    if (APP_LIB_DATA_MAX_APP_CONFIG_NUM_BYTES <? List.length bytes)%nat then fault
    else
      _ ← puts (fun s => set_appcfg (blit 0 bytes (m_appcfg s)) (Z.of_nat (List.length bytes)) s);
      add_event E POSLIB_CTRL_EVENT_APPCFG
  else mret tt.

Definition appconfig_legacy_cb (E : env) (types : Z) : M unit :=
  if types =? SHARED_APP_CONFIG_INCOMPATIBLE_FILTER then
    _ ← puts (fun s => set_appcfg (m_appcfg s) 0 s);
    add_event E POSLIB_CTRL_EVENT_APPCFG
  else mret tt.

(** [Shared_Appconfig_addFilter] calls the callback back, for the configuration in use. *)
Fixpoint calls_back (cb : Z -> list Z -> M unit) (calls : list (Z * list Z)) : M unit :=
  match calls with
  | [] => mret tt
  | (types, bytes) :: calls => _ ← cb types bytes; calls_back cb calls
  end.

(** One of the two registrations, unless it is done. *)
Definition register_filter (E : env) (get : state -> callback_state_t) (put : callback_state_t -> state -> state)
    (type : Z) (always : bool) (cb : Z -> list Z -> M unit) : M bool :=
  r ← asks get;
  if reg r then mret true
  else
    '(ok, id, calls) ← ask E (Shared_Appconfig_addFilter type always);
    _ ← calls_back cb calls;
    _ ← puts (fun s => put {| reg := ok; reg_id := default (reg_id (get s)) id |} s);
    mret ok.

Definition register_callbacks (E : env) : M bool :=
  a ← register_filter E m_shared_appcfg set_shared_appcfg POSLIB_TLV_TYPE true (appconfig_cb E);
  b ← register_filter E m_legacy_appcfg set_legacy_appcfg SHARED_APP_CONFIG_INCOMPATIBLE_FILTER false
        (fun types _ => appconfig_legacy_cb E types);
  mret (a && b).

Definition deregister_filter (E : env) (get : state -> callback_state_t) (put : callback_state_t -> state -> state)
    : M unit :=
  r ← asks get;
  if reg r then
    _ ← ask E (Shared_Appconfig_removeFilter (reg_id r));
    puts (put {| reg := false; reg_id := reg_id r |})
  else mret tt.

Definition deregister_callbacks (E : env) : M unit :=
  _ ← deregister_filter E m_shared_appcfg set_shared_appcfg;
  deregister_filter E m_legacy_appcfg set_legacy_appcfg.

(** ** Settings *)

Definition rate_ok (v : Z) : bool := (POSLIB_MIN_MEAS_RATE_S <=? v) && (v <=? POSLIB_MAX_MEAS_RATE_S).

Definition check_params (c : poslib_settings_t) : poslib_ret_e :=
  if (update_period_static_s c <? POSLIB_MIN_MEAS_RATE_S) || (POSLIB_MAX_MEAS_RATE_S <? update_period_static_s c)
  then POS_RET_INVALID_PARAM
  else if (POSLIB_MAX_MEAS_RATE_S <? update_period_dynamic_s c) ||
          ((update_period_dynamic_s c <? POSLIB_MIN_MEAS_RATE_S) && negb (update_period_dynamic_s c =? 0))
  then POS_RET_INVALID_PARAM
  else if (POSLIB_MAX_MEAS_RATE_S <? update_period_offline_s c) ||
          ((update_period_offline_s c <? POSLIB_MIN_MEAS_RATE_S) && negb (update_period_offline_s c =? 0))
  then POS_RET_INVALID_PARAM
  else POS_RET_OK.

(** The roles of each mode. *)
Definition role_valid (c : poslib_settings_t) (role : Z) : bool :=
  let mode := u8 (node_mode c) in
  if (mode =? POSLIB_MODE_AUTOSCAN_ANCHOR) || (mode =? POSLIB_MODE_OPPORTUNISTIC_ANCHOR) then
    (role =? APP_LIB_SETTINGS_ROLE_HEADNODE_LL) || (role =? APP_LIB_SETTINGS_ROLE_HEADNODE_LE) ||
    (role =? APP_LIB_SETTINGS_ROLE_SINK_LL) || (role =? APP_LIB_SETTINGS_ROLE_SINK_LE) ||
    ((role =? APP_LIB_SETTINGS_ROLE_SUBNODE_LE) && mb_enabled (mbcn c)) ||
    ((role =? APP_LIB_SETTINGS_ROLE_SUBNODE_LL) && mb_enabled (mbcn c))
  else if (mode =? POSLIB_MODE_NRLS_TAG) || (mode =? POSLIB_MODE_AUTOSCAN_TAG) then
    (role =? APP_LIB_SETTINGS_ROLE_SUBNODE_LE) || (role =? APP_LIB_SETTINGS_ROLE_SUBNODE_LL)
  else if mode =? POSLIB_MODE_DA_TAG then role =? APP_LIB_SETTINGS_ROLE_ADVERTISER
  else false.

Definition check_role (E : env) (c : poslib_settings_t) : M poslib_ret_e :=
  role ← ask E getNodeRole;
  mret (if role_valid c role then POS_RET_OK else POS_RET_INVALID_PARAM).

Definition beacon_invalid (x : poslib_ble_mode_config_t) : bool :=
  (APP_LIB_BEACON_TX_MAX_INTERVAL <? tx_interval_ms x) || (tx_interval_ms x <? APP_LIB_BEACON_TX_MIN_INTERVAL) ||
  (APP_LIB_BEACON_TX_CHANNELS_ALL <? channels x).

Definition check_ble_params (c : poslib_settings_t) : poslib_ret_e :=
  let t := ble_type (ble c) in
  if negb (t =? POSLIB_BEACON_ALL) && negb (t =? POSLIB_IBEACON) && negb (t =? POSLIB_EDDYSTONE) then POS_RET_INVALID_PARAM
  else if ((t =? POSLIB_EDDYSTONE) || (t =? POSLIB_BEACON_ALL)) && beacon_invalid (eddystone (ble c)) then POS_RET_INVALID_PARAM
  else if ((t =? POSLIB_IBEACON) || (t =? POSLIB_BEACON_ALL)) && beacon_invalid (ibeacon (ble c)) then POS_RET_INVALID_PARAM
  else POS_RET_OK.

Definition invalid (r : poslib_ret_e) : bool := match r with POS_RET_INVALID_PARAM => true | _ => false end.

Definition check_ctrl_params (E : env) (c : poslib_settings_t) : M poslib_ret_e :=
  r ← check_role E c;
  if invalid r then mret POS_RET_INVALID_PARAM
  else if invalid (check_ble_params c) then mret POS_RET_INVALID_PARAM
  else if invalid (check_params c) then mret POS_RET_INVALID_PARAM
  else mret POS_RET_OK.

(** The identifier is written whatever the result. *)
Definition shared_offline_register (E : env) : M bool :=
  r ← asks m_shared_offline;
  if reg r then mret true
  else
    '(res, id) ← ask E Shared_Offline_register;
    let ok := match res with SHARED_OFFLINE_RES_OK => true | _ => false end in
    _ ← puts (set_shared_offline {| reg := ok; reg_id := id |});
    mret ok.

Definition shared_offline_unregister (E : env) : M bool :=
  r ← asks m_shared_offline;
  if reg r then
    res ← ask E (Shared_Offline_unregister (reg_id r));
    match res with
    | SHARED_OFFLINE_RES_OK => _ ← puts (set_shared_offline {| reg := false; reg_id := reg_id r |}); mret false
    | _ => mret true
    end
  else mret false.

Definition control_init (E : env) : M unit :=
  ini ← asks m_poslib_init;
  if (ini : bool) then mret tt
  else
    now ← ask E getTimestampS;
    _ ← on_ctrl (fun _ => set_updates (u32 (now - 1)) (u32 (now - 1)) zero_ctrl);
    _ ← puts (set_motion MOTION_DEFAULT);
    _ ← puts (fun s => set_flags (m_poslib_started s) (m_poslib_configured s) true s);
    puts (set_aux {| led_on_duration_s := 0; led_cmd_seq := 0 |}).

Definition PosLibCtrl_setConfig (E : env) (c : poslib_settings_t) : M poslib_ret_e :=
  ret ← check_ctrl_params E c;
  match ret with
  | POS_RET_OK =>
      change ← asks (fun s => negb (m_poslib_configured s) || negb (bool_decide (m_pos_settings s = c)));
      _ ← (if (change : bool) then puts (set_settings c) else mret tt);
      _ ← puts (fun s => set_flags (m_poslib_started s) true (m_poslib_init s) s);
      started ← asks m_poslib_started;
      _ ← (if started && change then add_event E POSLIB_CTRL_EVENT_CONFIG_CHANGE else mret tt);
      mret POS_RET_OK
  | _ => mret ret
  end.

Definition PosLibCtrl_getMode : M Z := asks (fun s => node_mode (m_pos_settings s)).
Definition PosLibCtrl_getConfig : M (poslib_ret_e * poslib_settings_t) := asks (fun s => (POS_RET_OK, m_pos_settings s)).

Definition PosLibCtrl_motion (E : env) (mode : Z) : M poslib_ret_e :=
  enabled ← asks (fun s => motion_enabled (motion (m_pos_settings s)));
  if negb enabled then mret POS_RET_MOTION_NOT_ENABLED
  else
    old ← asks m_motion_mode;
    _ ← (if old =? mode then mret tt
         else
           _ ← puts (set_motion mode);
           add_event E POSLIB_CTRL_EVENT_MOTION);
    mret POS_RET_OK.

Definition PosLibCtrl_status : M poslib_status_e :=
  asks (fun s => match c_state (m_ctrl s) with
    | POSLIB_STATE_UPDATE => POSLIB_UPDATE_START
    | POSLIB_STATE_IDLE => POSLIB_IDLE
    | POSLIB_STATE_STOPPED => POSLIB_STOPPED
    end).

(** ** The measurement message *)

Definition get_meas_type (mode : Z) : Z :=
  if (mode =? POSLIB_MODE_NRLS_TAG) || (mode =? POSLIB_MODE_AUTOSCAN_TAG) || (mode =? POSLIB_MODE_DA_TAG)
  then DEFAULT_MEASUREMENT_TYPE_TAG
  else if (mode =? POSLIB_MODE_AUTOSCAN_ANCHOR) || (mode =? POSLIB_MODE_OPPORTUNISTIC_ANCHOR)
  then DEFAULT_MEASUREMENT_TYPE_ANCHOR
  else DEFAULT_MEASUREMENT_TYPE_TAG.

Definition get_update_period (s : state) : Z :=
  let c := m_pos_settings s in
  if outside_wm (m_ctrl s) && negb (update_period_offline_s c =? 0) then update_period_offline_s c
  else if motion_enabled (motion c) && (m_motion_mode s =? POSLIB_MOTION_DYNAMIC) && negb (update_period_dynamic_s c =? 0)
  then update_period_dynamic_s c
  else update_period_static_s c.

Definition flag (b : bool) (v features : Z) : Z := if b then Z.lor features v else features.

Definition get_node_info (E : env) : M node_info_t :=
  c ← asks m_pos_settings;
  period ← asks get_update_period;
  static ← asks (fun s => ev_is_static (events (m_ctrl s)));
  let f := Z.land POSLIB_NODE_INFO_FEATURES_VERSION POSLIB_NODE_INFO_MASK_VERSION in
  let f := flag (motion_enabled (motion c)) POSLIB_NODE_INFO_FLAG_MOTION_EN f in
  let f := flag static POSLIB_NODE_INFO_FLAG_IS_STATIC f in
  e ← ask E PosLibBle_getEddystoneStatus;
  i ← ask E PosLibBle_getiBeaconStatus;
  let f := flag e POSLIB_NODE_INFO_FLAG_EDDYSTONE_ON f in
  let f := flag i POSLIB_NODE_INFO_FLAG_IBEACON_ON f in
  let f := flag (routing_enabled (da c)) POSLIB_NODE_INFO_FLAG_MBCN_ON f in
  mret {| PosMeasurement.update_s := period; PosMeasurement.features := f;
          PosMeasurement.node_mode := u8 (node_mode c); PosMeasurement.node_class := u8 (node_class c) |}.

(** The packet of a message. *)
Definition measurement_packet (bytes : list Z) (num_bytes : Z) : app_lib_data_to_send_t :=
  {| to_bytes := take (Z.to_nat num_bytes) bytes; to_num_bytes := num_bytes; to_dest_address := APP_ADDR_ANYSINK;
     to_delay := 0; to_tracking_id := 0; to_qos := APP_LIB_DATA_QOS_NORMAL; to_flags := APP_LIB_DATA_SEND_FLAG_TRACK;
     to_src_endpoint := POS_SOURCE_ENDPOINT; to_dest_endpoint := POS_DESTINATION_ENDPOINT; to_hop_limit := 0;
     to_fragment_info := {| packet_id := 0; fragment_offset := 0; last_fragment := false |} |}.

Definition send_measurement_message (E : env) : M Z :=
  _ ← puts (fun s => set_private false (m_timeout_event_type s) s);
  available ← ask E getNumFreeBuffers;
  if available =? 0 then mret 0
  else
    node_info ← get_node_info E;
    seq ← asks (fun s => sequence (m_ctrl s));
    mode ← asks (fun s => node_mode (m_pos_settings s));
    '(ok, bytes, num_bytes, num_meas) ←
      ask E (PosLibMeas_getPayload MAX_PAYLOAD_LEN seq (get_meas_type mode) CONF_VOLTAGE_REPORT node_info);
    _ ← (if ok : bool then
           role ← ask E getNodeRole;
           rc ← (if role =? APP_LIB_SETTINGS_ROLE_ADVERTISER
                 then ask E (PosLibDa_sendData (measurement_packet bytes num_bytes))
                 else ask E (Shared_Data_sendData (measurement_packet bytes num_bytes)));
           mark (set_ev_data_sent (rc =? APP_LIB_DATA_SEND_RES_SUCCESS))
         else mret tt);
    mret num_meas.

(** ** Tasks and schedule *)

Definition get_scan_duration (c : poslib_settings_t) : Z :=
  if mb_enabled (mbcn c) && (mb_tx_interval_ms (mbcn c) <? 1000)
  then mb_tx_interval_ms (mbcn c) + mb_tx_interval_ms (mbcn c) / SCAN_MARGIN_RATIO
  else 0.

Definition start_scan (E : env) : M Z :=
  duration ← asks (fun s => get_scan_duration (m_pos_settings s));
  _ ← ask E (PosLibMeas_startScan {| PosMeasurement.mode := SCAN_MODE_STANDARD; max_duration_ms := duration |});
  mret APP_SCHEDULER_STOP_TASK.

Definition trigger_update_task (E : env) : M Z :=
  _ ← shared_offline_register E;
  status ← ask E Shared_Offline_get_status;
  match status with
  | SHARED_OFFLINE_STATUS_OFFLINE =>
      r ← asks m_shared_offline;
      res ← ask E (Shared_Offline_enter_online_state (reg_id r));
      match res with
      | SHARED_OFFLINE_RES_OK => mret APP_SCHEDULER_SCHEDULE_ASAP
      | SHARED_OFFLINE_RES_ALREADY_ONLINE => start_scan E
      | _ => mret APP_SCHEDULER_STOP_TASK
      end
  | _ => start_scan E
  end.

Definition set_timeout (E : env) (type timeout_ms : Z) : M unit :=
  _ ← puts (fun s => set_private (m_data_sent_success s) type s);
  _ ← ask E (App_Scheduler_addTask_execTime timeout timeout_ms);
  mret tt.

Definition clear_timeout (E : env) : M unit := ask E (App_Scheduler_cancelTask timeout).

Definition stop_tasks (E : env) : M unit :=
  _ ← ask E (App_Scheduler_cancelTask trigger_update);
  ask E (App_Scheduler_cancelTask timeout).

Definition update_autoscan (E : env) (delta_s : Z) : M bool :=
  let next_update_ms := if delta_s =? 0 then APP_SCHEDULER_SCHEDULE_ASAP else TIME_SEC_TO_MS delta_s in
  res ← ask E (App_Scheduler_addTask_execTime trigger_update next_update_ms);
  mret (res =? APP_SCHEDULER_RES_OK).

Definition update_nrls (E : env) (delta_s : Z) : M bool :=
  ok ← shared_offline_register E;
  if negb ok then mret false
  else
    r ← asks m_shared_offline;
    res ← ask E (Shared_Offline_enter_offline_state (reg_id r) delta_s);
    mret (match res with SHARED_OFFLINE_RES_OK => true | _ => false end).

(** The update time and the delay to it; [None] to keep the present schedule. A remainder by zero is a fault. *)
Definition next_time (update_now : bool) (now : Z) : M (option (Z * Z)) :=
  if update_now then mret (Some (now, 0))
  else
    period ← asks get_update_period;
    if period =? 0 then fault
    else
      c ← asks m_ctrl;
      let delta := u32 (now - last_update_s c) mod period in
      let next := u32 (now + period - delta) in
      if scheduled c && (next_update_s c <? next) then mret None else mret (Some (next, u32 (next - now))).

Definition new_update (E : env) (next delta : Z) : M unit :=
  _ ← stop_tasks E;
  mode ← asks (fun s => node_mode (m_pos_settings s));
  static ← asks (fun s => (m_motion_mode s =? POSLIB_MOTION_STATIC) && motion_enabled (motion (m_pos_settings s)));
  _ ← on_ctrl (new_schedule mode next static);
  if mode =? POSLIB_MODE_NRLS_TAG then
    _ ← ask E (PosLibMeas_opportunisticScan true);
    _ ← update_nrls E delta;
    mret tt
  else if (mode =? POSLIB_MODE_AUTOSCAN_TAG) || (mode =? POSLIB_MODE_AUTOSCAN_ANCHOR) || (mode =? POSLIB_MODE_DA_TAG) then
    _ ← ask E (PosLibMeas_opportunisticScan false);
    _ ← update_autoscan E delta;
    mret tt
  else if mode =? POSLIB_MODE_OPPORTUNISTIC_ANCHOR then
    _ ← ask E (PosLibMeas_opportunisticScan true);
    on_ctrl (set_next 0)
  else mret tt.

Definition schedule_next (E : env) (update_now : bool) : M unit :=
  now ← ask E getTimestampS;
  c ← asks m_ctrl;
  match c_state c, update_now with
  | POSLIB_STATE_STOPPED, false => on_ctrl (set_scheduled false)
  | _, _ =>
      time ← next_time update_now now;
      match time with
      | None => mret tt
      | Some (next, delta) =>
          if scheduled c then
            if next =? next_update_s c then mret tt
            else
              _ ← on_ctrl (set_next next);
              _ ← update_autoscan E delta;
              mret tt
          else new_update E next delta
      end
  end.

Definition delayed_start (E : env) : M Z :=
  _ ← schedule_next E false;
  mret APP_SCHEDULER_STOP_TASK.

(** ** Events *)

Definition is_update_completed (c : control_state_t) : bool :=
  let e := events c in
  if ev_scan_fail e || ev_timeout e then true
  else if c_mode c =? POSLIB_MODE_NRLS_TAG then ev_data_sent e && ev_app_cfg e && ev_data_sent_complete e
  else ev_data_sent e.

Definition update_outside_wm (E : env) : M unit :=
  bcn ← ask E PosLibMeas_getBeaconNum;
  outside ← asks (fun s => outside_wm (m_ctrl s));
  if (bcn =? 0) && negb outside then
    _ ← add_event E POSLIB_CTRL_EVENT_OUTSIDE_WM;
    on_ctrl (set_outside true)
  else if (0 <? bcn) && outside then
    _ ← add_event E POSLIB_CTRL_EVENT_UNDER_WM;
    on_ctrl (set_outside false)
  else mret tt.

Definition is_scan_valid (E : env) : M bool :=
  bcn ← ask E PosLibMeas_getBeaconNum;
  mret (0 <? bcn).

(** [m_ctrl.events.is_static] is cleared when the node moves. *)
Definition motion_event : M unit :=
  mode ← asks m_motion_mode;
  if mode =? POSLIB_MOTION_DYNAMIC then mark (set_ev_is_static false) else mret tt.

Definition scan_end (E : env) : M unit :=
  _ ← mark (set_ev_scan_end true);
  _ ← clear_timeout E;
  _ ← update_outside_wm E;
  valid ← is_scan_valid E;
  if (valid : bool) then
    _ ← send_measurement_message E;
    _ ← mark (set_ev_scan_fail false);
    set_timeout E POSLIB_CTRL_EVENT_APPCFG TIMEOUT_APPCFG_MS
  else mark (set_ev_scan_fail true).

Definition appcfg_event (E : env) : M unit :=
  _ ← process_appcfg E;
  mark (set_ev_app_cfg true).

Definition update_event (E : env) (type : Z) : M unit :=
  if type =? POSLIB_CTRL_EVENT_SCAN_END then scan_end E
  else if type =? POSLIB_CTRL_EVENT_APPCFG then appcfg_event E
  else if type =? POSLIB_CTRL_EVENT_DATA_SENT then
    _ ← mark (set_ev_data_sent_complete true);
    ok ← asks m_data_sent_success;
    mark (set_ev_sent_success ok)
  else if type =? POSLIB_CTRL_EVENT_MOTION then motion_event
  else if type =? POSLIB_CTRL_EVENT_TIMEOUT then mark (set_ev_timeout true)
  else mret tt.

Definition complete_update (E : env) : M unit :=
  _ ← on_ctrl (fun c => set_updates (next_update_s c) (next_update_s c) (set_scheduled false c));
  _ ← add_event E POSLIB_CTRL_EVENT_UPDATE_END;
  schedule_next E false.

Definition handle_update_state (E : env) (type : Z) : M unit :=
  _ ← update_event E type;
  completed ← asks (fun s => is_update_completed (m_ctrl s));
  if (completed : bool) then complete_update E else mret tt.

Definition handle_stopped_state (E : env) (type : Z) : M unit :=
  go ← asks (fun s => negb (m_poslib_started s) && m_poslib_configured s && (type =? POSLIB_CTRL_EVENT_ONESHOT));
  if (go : bool) then
    _ ← mark (set_ev_oneshot true);
    schedule_next E true
  else mret tt.

(** An update starts with a scan or when the stack comes online. *)
Definition start_update (E : env) (f : control_events_t -> control_events_t) : M unit :=
  now ← ask E getTimestampHp;
  _ ← on_ctrl (set_start now);
  _ ← on_ctrl (set_c_state POSLIB_STATE_UPDATE);
  _ ← mark f;
  set_timeout E POSLIB_CTRL_EVENT_SCAN_END TIMEOUT_SCAN_MS.

Definition config_change (E : env) : M unit :=
  c ← asks m_pos_settings;
  _ ← (if motion_enabled (motion c) then mret tt else puts (set_motion MOTION_DEFAULT));
  _ ← ask E (PosLibBle_start (ble c));
  schedule_next E false.

Definition handle_idle_state (E : env) (type : Z) : M unit :=
  if type =? POSLIB_CTRL_EVENT_SCAN_STARTED then start_update E (set_ev_scan_start true)
  else if type =? POSLIB_CTRL_EVENT_SCAN_END then
    sch ← asks (fun s => scheduled (m_ctrl s));
    if (sch : bool) then
      _ ← on_ctrl (set_c_state POSLIB_STATE_UPDATE);
      _ ← mark (set_ev_scan_end true);
      handle_update_state E type
    else mret tt
  else if type =? POSLIB_CTRL_EVENT_ONLINE then start_update E (set_ev_online true)
  else if type =? POSLIB_CTRL_EVENT_OFFLINE then
    _ ← mark (set_ev_offline true);
    sch ← asks (fun s => scheduled (m_ctrl s));
    if (sch : bool) then
      _ ← mark (set_ev_app_cfg false);
      ask E PosLibMeas_clearMeas
    else mret tt
  else if type =? POSLIB_CTRL_EVENT_CONFIG_CHANGE then config_change E
  else if type =? POSLIB_CTRL_EVENT_ONESHOT then
    _ ← mark (set_ev_oneshot true);
    schedule_next E true
  else if type =? POSLIB_CTRL_EVENT_APPCFG then appcfg_event E
  else if type =? POSLIB_CTRL_EVENT_MOTION then
    _ ← motion_event;
    schedule_next E false
  else mret tt.

Definition PosLibCtrl_processEvent (E : env) (type : Z) : M unit :=
  state ← asks (fun s => c_state (m_ctrl s));
  match state with
  | POSLIB_STATE_STOPPED => handle_stopped_state E type
  | POSLIB_STATE_IDLE => handle_idle_state E type
  | POSLIB_STATE_UPDATE => handle_update_state E type
  end.

Definition timeout_task (E : env) : M Z :=
  _ ← PosLibCtrl_processEvent E POSLIB_CTRL_EVENT_TIMEOUT;
  mret APP_SCHEDULER_STOP_TASK.

(** ** Calls *)

Definition PosLibCtrl_startPeriodic (E : env) : M poslib_ret_e :=
  configured ← asks m_poslib_configured;
  started ← asks m_poslib_started;
  if negb configured then mret POS_RET_NOT_CONFIGURED
  else if (started : bool) then mret POS_RET_INVALID_STATE
  else
    _ ← control_init E;
    ok ← register_callbacks E;
    if negb ok then mret POS_RET_LIB_ERROR
    else
      _ ← on_ctrl (set_c_state POSLIB_STATE_IDLE);
      _ ← puts (fun s => set_flags true (m_poslib_configured s) (m_poslib_init s) s);
      _ ← ask E (App_Scheduler_addTask_execTime delayed 5000);
      c ← asks m_pos_settings;
      _ ← ask E (PosLibBle_start (ble c));
      _ ← (if (node_mode c =? POSLIB_MODE_AUTOSCAN_ANCHOR) || (node_mode c =? POSLIB_MODE_OPPORTUNISTIC_ANCHOR)
           then _ ← ask E (PosLibMbcn_start (mbcn c)); mret tt else mret tt);
      _ ← ask E (PosLibDa_start c);
      mret POS_RET_OK.

Definition PosLibCtrl_startOneshot (E : env) : M poslib_ret_e :=
  configured ← asks m_poslib_configured;
  if negb configured then mret POS_RET_NOT_CONFIGURED
  else
    _ ← control_init E;
    ok ← register_callbacks E;
    if negb ok then mret POS_RET_LIB_ERROR
    else
      _ ← add_event E POSLIB_CTRL_EVENT_ONESHOT;
      mret POS_RET_OK.

Definition PosLibCtrl_stopPeriodic (E : env) : M poslib_ret_e :=
  _ ← puts (fun s => set_flags false (m_poslib_configured s) (m_poslib_init s) s);
  _ ← on_ctrl (set_c_state POSLIB_STATE_STOPPED);
  _ ← stop_tasks E;
  _ ← deregister_callbacks E;
  _ ← shared_offline_unregister E;
  _ ← ask E PosLibMeas_stop;
  _ ← ask E PosLibBle_stop;
  _ ← ask E PosLibMbcn_stop;
  _ ← ask E PosLibDa_stop;
  mret POS_RET_OK.

(** The buffer and its length. *)
Definition PosLibCtrl_getAppConfig : M (list Z * Z) := asks (fun s => (m_appcfg s, m_appcfg_len s)).

Definition PosLibCtrl_setAppConfig (E : env) (cfg : list Z) : M unit :=
  _ ← (if (List.length cfg <=? APP_LIB_DATA_MAX_APP_CONFIG_NUM_BYTES)%nat
       then puts (fun s => set_appcfg (blit 0 cfg (m_appcfg s)) (Z.of_nat (List.length cfg)) s)
       else mret tt);
  add_event E POSLIB_CTRL_EVENT_APPCFG.

(** ** Everything that happens to the module *)

Inductive op :=
  | op_setConfig (c : poslib_settings_t)
  | op_startPeriodic
  | op_startOneshot
  | op_stopPeriodic
  | op_motion (mode : Z)
  | op_setAppConfig (cfg : list Z)
  | op_event (type : Z)
  | op_task (t : task)
  | op_online
  | op_offline
  | op_sent (success : bool)
  | op_appcfg (types : Z) (bytes : list Z)
  | op_legacy_appcfg (types : Z).

Definition run_task (E : env) (t : task) : M Z :=
  match t with
  | trigger_update => trigger_update_task E
  | timeout => timeout_task E
  | delayed => delayed_start E
  | led_off => led_off_cb E
  end.

(** The scheduler runs a task and does what its result asks for. *)
Definition scheduler_runs (E : env) (t : task) : M Z :=
  res ← run_task E t;
  _ ← puts (fun s => set_world (task_done E t res (world s)) s);
  mret res.

Definition run_op (E : env) (o : op) : M unit :=
  match o with
  | op_setConfig c => _ ← PosLibCtrl_setConfig E c; mret tt
  | op_startPeriodic => _ ← PosLibCtrl_startPeriodic E; mret tt
  | op_startOneshot => _ ← PosLibCtrl_startOneshot E; mret tt
  | op_stopPeriodic => _ ← PosLibCtrl_stopPeriodic E; mret tt
  | op_motion mode => _ ← PosLibCtrl_motion E mode; mret tt
  | op_setAppConfig cfg => PosLibCtrl_setAppConfig E cfg
  | op_event type => PosLibCtrl_processEvent E type
  | op_task t => _ ← scheduler_runs E t; mret tt
  | op_online => on_online_cb E
  | op_offline => on_offline_cb E
  | op_sent success => data_send_cb E success
  | op_appcfg types bytes => appconfig_cb E types bytes
  | op_legacy_appcfg types => appconfig_legacy_cb E types
  end.

Fixpoint run_ops (E : env) (os : list op) : M unit :=
  match os with
  | [] => mret tt
  | o :: os => _ ← run_op E o; run_ops E os
  end.

(** * Properties *)

(** ** The rest of the node

    What the tasks are after a request: the delay they were scheduled with, and
    the events that the module gave to the queue. *)
Definition effect {A} (r : request A) (t : task) (p : option Z) : option Z :=
  match r with
  | App_Scheduler_addTask_execTime t' d => if decide (t = t') then Some d else p
  | App_Scheduler_cancelTask t' => if decide (t = t') then None else p
  | _ => p
  end.

Definition offer {A} (r : request A) : list Z :=
  match r with PosLibEvent_add type => [type] | _ => [] end.

(** A configuration that the shared library gives to its callback. *)
Definition config_ok (bs : list Z) : Prop := bytes bs /\ (List.length bs < APP_LIB_DATA_MAX_APP_CONFIG_NUM_BYTES)%nat.

Definition legal {A} (r : request A) : A -> Prop :=
  match r in request A return A -> Prop with
  | getTimestampS => fun x => is_u32 x
  | Shared_Appconfig_addFilter _ _ => fun x => Forall (fun c => config_ok c.2) x.2
  | _ => fun _ => True
  end.

(** The scheduler has room for the four tasks, and the time is a 32-bit number. *)
Class Node (E : env) := {
  pending : task -> W -> option Z;
  offered : W -> list Z;
  node_pending A (r : request A) w t : pending t (perform E A r w).2 = effect r t (pending t w);
  node_offered A (r : request A) w : offered (perform E A r w).2 = offered w ++ offer r;
  node_legal A (r : request A) w : legal r (perform E A r w).1;
  node_done t res w t' : pending t' (task_done E t res w) =
    if decide (t = t' /\ res = APP_SCHEDULER_STOP_TASK) then None else pending t' w;
  node_done_offered t res w : offered (task_done E t res w) = offered w }.

Section Properties.
Context (E : env) `{!Node E}.

(** ** The invariant

    With [T] the timeout task is scheduled while an update is going on. *)
Record ok (T : bool) (s : state) : Prop := {
  ok_rates : m_poslib_configured s = true -> rates_ok (m_pos_settings s);
  ok_running : c_state (m_ctrl s) <> POSLIB_STATE_STOPPED -> m_poslib_configured s = true;
  ok_started : m_poslib_started s = true -> c_state (m_ctrl s) <> POSLIB_STATE_STOPPED /\ m_poslib_init s = true;
  ok_buffer : bytes (m_appcfg s) /\ List.length (m_appcfg s) = APP_LIB_DATA_MAX_APP_CONFIG_NUM_BYTES;
  ok_len : 0 <= m_appcfg_len s < Z.of_nat APP_LIB_DATA_MAX_APP_CONFIG_NUM_BYTES;
  ok_led : is_u16 (led_on_duration_s (m_aux_settings s)) /\ is_u8 (led_cmd_seq (m_aux_settings s));
  ok_times : is_u32 (last_update_s (m_ctrl s)) /\ is_u32 (next_update_s (m_ctrl s));
  ok_timeout : T = true -> c_state (m_ctrl s) = POSLIB_STATE_UPDATE -> is_Some (pending timeout (world s)) }.

Abbreviation keeps_ok T m := (runs (ok T) m (fun _ => ok T)).

Lemma ok_weaken T s : ok T s -> ok false s.
Proof. intros []. by constructor. Qed.

(** Only a cancelled timeout breaks the invariant. *)
Lemma ask_runs {A} T (r : request A) :
  (T = true -> forall p, is_Some p -> is_Some (effect r timeout p)) -> runs (ok T) (ask E r) (fun x s => legal r x /\ ok T s).
Proof.
  intros Hr s [H1 H2 H3 H4 H5 H6 H7 H8]. eexists _, _. split; [reflexivity|]. split; [apply node_legal|].
  constructor; try done. cbn. intros HT Hs. rewrite node_pending. by apply Hr, H8.
Qed.

Lemma ask_ok {A} T (r : request A) :
  (forall p, effect r timeout p = p) -> keeps_ok T (ask E r).
Proof. intros Hr. eapply runs_conseq; [apply ask_runs|done|by intros x s []]. intros _ p. by rewrite Hr. Qed.

Lemma ret_ok {A} T (x : A) : keeps_ok T (mret x).
Proof. by apply runs_ret. Qed.

Lemma asks_ok {A} T (f : state -> A) : keeps_ok T (asks f).
Proof. intros s Hs. by eexists _, s. Qed.

Lemma puts_ok T (f : state -> state) : (forall s, ok T s -> ok T (f s)) -> keeps_ok T (puts f).
Proof. intros H s Hs. eexists _, _. split; [reflexivity|]. by apply H. Qed.

Lemma bind_ok {A B} T (m : M A) (k : A -> M B) : keeps_ok T m -> (forall x, keeps_ok T (k x)) -> keeps_ok T (x ← m; k x).
Proof. intros. by eapply runs_bind. Qed.

(** A change of the control state that is not a change of its state. *)
Lemma ctrl_ok T f : (forall c, c_state (f c) = c_state c /\
    (is_u32 (last_update_s c) -> is_u32 (next_update_s c) -> is_u32 (last_update_s (f c)) /\ is_u32 (next_update_s (f c)))) ->
  keeps_ok T (on_ctrl f).
Proof.
  intros Hf. apply puts_ok. intros s [H1 H2 H3 H4 H5 H6 [H7 H7'] H8]. destruct (Hf (m_ctrl s)) as [Hs Ht].
  specialize (Ht H7 H7'). constructor; cbn; try done; rewrite Hs; done.
Qed.

Lemma mark_ok T f : keeps_ok T (mark f).
Proof. by apply ctrl_ok. Qed.

Lemma outside_ok T b : keeps_ok T (on_ctrl (set_outside b)).
Proof. by apply ctrl_ok. Qed.

Lemma private_ok T a b s : ok T s -> ok T (set_private a b s).
Proof. intros []. by constructor. Qed.

Lemma motion_ok T m s : ok T s -> ok T (set_motion m s).
Proof. intros []. by constructor. Qed.

Lemma offline_ok T r s : ok T s -> ok T (set_shared_offline r s).
Proof. intros []. by constructor. Qed.

Lemma shared_appcfg_ok T r s : ok T s -> ok T (set_shared_appcfg r s).
Proof. intros []. by constructor. Qed.

Lemma legacy_appcfg_ok T r s : ok T s -> ok T (set_legacy_appcfg r s).
Proof. intros []. by constructor. Qed.

Lemma appcfg_ok T bs s : config_ok bs -> ok T s -> ok T (set_appcfg (blit 0 bs (m_appcfg s)) (Z.of_nat (List.length bs)) s).
Proof.
  intros [Hb Hl] [H1 H2 H3 [H4 H4'] H5 H6 H7 H8]. constructor; cbn; try done; [|lia].
  split; [by apply blit_bytes|]. by rewrite length_blit.
Qed.

Lemma appcfg_len_ok T s : ok T s -> ok T (set_appcfg (m_appcfg s) 0 s).
Proof. intros []. by constructor. Qed.

Create HintDb control discriminated.
Hint Resolve ret_ok asks_ok mark_ok outside_ok private_ok motion_ok offline_ok shared_appcfg_ok legacy_appcfg_ok appcfg_ok
  appcfg_len_ok : control.

(** Prove that a program keeps the invariant by its structure. *)
Ltac keep_ok :=
  repeat match goal with
  | |- runs (ok _) (mbind _ _) (fun _ => ok _) => apply bind_ok; [|intros ?]
  | |- runs _ (ask E _) _ => apply ask_ok; intros ?; reflexivity
  | |- runs _ (match ?x with _ => _ end) _ => destruct x
  | |- runs (ok _) (puts _) _ => apply puts_ok; intros ? ?; solve [eauto with control]
  | |- runs _ _ _ => solve [eauto with control]
  end.

Lemma add_event_ok T type : keeps_ok T (add_event E type).
Proof. unfold add_event. keep_ok. Qed.
Hint Resolve add_event_ok : control.

Lemma shared_offline_register_ok T : keeps_ok T (shared_offline_register E).
Proof. unfold shared_offline_register. keep_ok. Qed.
Hint Resolve shared_offline_register_ok : control.

Lemma trigger_update_ok T : keeps_ok T (trigger_update_task E).
Proof. unfold trigger_update_task, start_scan. keep_ok. Qed.

Lemma send_measurement_ok T : keeps_ok T (send_measurement_message E).
Proof. unfold send_measurement_message, get_node_info. keep_ok. Qed.
Hint Resolve send_measurement_ok trigger_update_ok : control.

(** ** The configuration *)

#[local] Instance guarded_rates (phi : Prop) : Closed CONF_USE_PERSISTENT_MEMORY (fun c => phi -> rates_ok c).
Proof.
  destruct (rates_ok_closed CONF_USE_PERSISTENT_MEMORY).
  constructor; intros; match goal with H : phi -> _, p : phi |- _ => specialize (H p) end; auto.
Qed.

(** What a decoder leaves: periods in their range when the module is configured. *)
Definition decoded_ok (s : state) (x : bool * poslib_settings_t * poslib_aux_settings_t) : Prop :=
  (m_poslib_configured s = true -> rates_ok x.1.2) /\ is_u16 (led_on_duration_s x.2) /\ is_u8 (led_cmd_seq x.2).

Lemma trigger_otap_pending t w : pending t (trigger_otap (decode_env E) w) = pending t w.
Proof. unfold trigger_otap. cbn. by rewrite !node_pending. Qed.

Lemma decode_ok T : runs (ok T) (decode E) (fun x s => decoded_ok s x /\ ok T s).
Proof.
  intros s Hs. pose proof Hs as [H1 H2 H3 [H4 H4'] H5 [H6 H6'] H7 H8]. unfold decode.
  set (d := PosDecode.Build_state _ _ _).
  destruct (decode_config_keeps MOTION_SUPPORTED CONF_USE_PERSISTENT_MEMORY (fun c => m_poslib_configured s = true -> rates_ok c)
    (decode_env E) (m_appcfg s) (m_appcfg_len s) H4) with (s := d) as (b & d' & E1 & [Hr Hl Hq]).
  { rewrite H4', uwrap_small by (unfold fits, APP_LIB_DATA_MAX_APP_CONFIG_NUM_BYTES in *; lia).
    unfold APP_LIB_DATA_MAX_APP_CONFIG_NUM_BYTES in *. lia. }
  { by constructor. }
  rewrite E1. eexists _, _. split; [reflexivity|]. split; [done|]. constructor; try done. cbn.
  pose proof (decode_config_world MOTION_SUPPORTED CONF_USE_PERSISTENT_MEMORY (decode_env E)
    (fun w => T = true -> c_state (m_ctrl s) = POSLIB_STATE_UPDATE -> is_Some (pending timeout w))) as Hw.
  eapply Hw; [|exact E1|exact H8]. intros w Hw'. by rewrite trigger_otap_pending.
Qed.

Lemma add_event_runs (P : state -> Prop) type :
  (forall s w, P s -> P (set_world w s)) -> runs P (add_event E type) (fun _ => P).
Proof. intros HP s Hs. eexists _, _. split; [reflexivity|]. by apply HP. Qed.

Lemma process_led_ok T aux : keeps_ok T (process_led_status E aux).
Proof. unfold process_led_status. keep_ok. Qed.

Lemma process_appcfg_ok T : keeps_ok T (process_appcfg E).
Proof.
  unfold process_appcfg. eapply runs_bind; [apply decode_ok|]. intros [[b settings] a].
  destruct b; cbn [negb]; [|by apply runs_ret; intros s []].
  intros s [Hd Hs]. rewrite asksE. revert s Hd Hs.
  assert (Hput : forall s, decoded_ok s (true, settings, a) -> ok T s -> ok T (set_settings settings s)).
  { intros s [Hr Hl] []. by constructor. }
  assert (Haux : forall s, decoded_ok s (true, settings, a) -> ok T s -> ok T (set_aux a s)).
  { intros s [Hr Hl] []. by constructor. }
  set (k := fun _ : unit => seq ← _; _).
  assert (Hk : runs (fun s => decoded_ok s (true, settings, a) /\ ok T s) (k tt) (fun _ => ok T)).
  { subst k. intros s [Hd Hs]. rewrite asksE. destruct (_ =? _); [by eexists _, s|]. rewrite putsE.
    apply process_led_ok. by apply Haux. }
  intros s Hd Hs. destruct (bool_decide _); [by apply Hk|].
  revert s Hd Hs. enough (Hall : runs (fun s => decoded_ok s (true, settings, a) /\ ok T s)
    (_ ← (_ ← puts (set_settings settings); add_event E POSLIB_CTRL_EVENT_CONFIG_CHANGE); k tt) (fun _ => ok T))
    by (intros s Hd Hs; by apply Hall).
  eapply runs_bind; [|intros ?; exact Hk]. intros s [Hd Hs]. rewrite putsE. apply Hput in Hs; [|done].
  destruct (add_event_ok T POSLIB_CTRL_EVENT_CONFIG_CHANGE _ Hs) as (x & s' & E1 & Hs').
  exists x, s'. split; [done|]. split; [|done]. injection E1 as _ <-. exact Hd.
Qed.
Hint Resolve process_appcfg_ok : control.

Lemma appcfg_event_ok T : keeps_ok T (appcfg_event E).
Proof. unfold appcfg_event. keep_ok. Qed.

(** ** Callbacks and registration *)

Lemma appconfig_cb_ok T types bs : config_ok bs -> keeps_ok T (appconfig_cb E types bs).
Proof.
  intros Hb. unfold appconfig_cb. destruct (types =? POSLIB_TLV_TYPE); [|keep_ok].
  destruct Hb as [Hb Hl]. destruct (Nat.ltb_spec APP_LIB_DATA_MAX_APP_CONFIG_NUM_BYTES (List.length bs)); [lia|].
  apply bind_ok; [|intros; apply add_event_ok]. apply puts_ok. intros s Hs. by apply appcfg_ok.
Qed.

Lemma appconfig_legacy_cb_ok T types : keeps_ok T (appconfig_legacy_cb E types).
Proof. unfold appconfig_legacy_cb. keep_ok. Qed.

Lemma calls_back_ok T cb calls :
  (forall types bs, config_ok bs -> keeps_ok T (cb types bs)) -> Forall (fun c => config_ok c.2) calls ->
  keeps_ok T (calls_back cb calls).
Proof.
  intros Hcb. induction 1 as [|[types bs] calls Hc _ IH]; cbn [calls_back]; [apply ret_ok|].
  apply bind_ok; [by apply Hcb|done].
Qed.

Lemma register_filter_ok T get put type always cb :
  (forall r s, ok T s -> ok T (put r s)) -> (forall types bs, config_ok bs -> keeps_ok T (cb types bs)) ->
  keeps_ok T (register_filter E get put type always cb).
Proof.
  intros Hput Hcb. unfold register_filter. apply bind_ok; [apply asks_ok|]. intros r. destruct (reg r); [apply ret_ok|].
  eapply runs_bind; [by apply ask_runs|]. intros [[b id] calls]. cbn [legal snd].
  intros s [Hl Hs]. revert s Hs. apply bind_ok; [by apply calls_back_ok|]. intros _. apply bind_ok; [|intros; apply ret_ok].
  apply puts_ok. intros s. apply Hput.
Qed.

Lemma register_callbacks_ok T : keeps_ok T (register_callbacks E).
Proof.
  unfold register_callbacks. apply bind_ok; [apply register_filter_ok; [eauto with control|apply appconfig_cb_ok]|]. intros a.
  apply bind_ok; [apply register_filter_ok; [eauto with control|intros types _ _; apply appconfig_legacy_cb_ok]|].
  intros b. apply ret_ok.
Qed.

Lemma deregister_callbacks_ok T : keeps_ok T (deregister_callbacks E).
Proof. unfold deregister_callbacks, deregister_filter. keep_ok. Qed.
Hint Resolve appcfg_event_ok appconfig_legacy_cb_ok register_callbacks_ok deregister_callbacks_ok : control.

(** ** Schedules *)

Lemma askE {A B} (r : request A) (k : A -> M B) s :
  (x ← ask E r; k x) s = k (perform E A r (world s)).1 (set_world (perform E A r (world s)).2 s).
Proof. done. Qed.

Lemma world_ok T s w : (T = true -> pending timeout w = pending timeout (world s)) -> ok T s -> ok T (set_world w s).
Proof. intros Hw []. constructor; try done. intros HT. cbn. rewrite (Hw HT). auto. Qed.

(** Outside of an update no timeout is needed. *)
Lemma ok_any T s : c_state (m_ctrl s) <> POSLIB_STATE_UPDATE -> ok false s -> ok T s.
Proof. intros Hs []. by constructor. Qed.

Lemma period_positive s : rates_ok (m_pos_settings s) -> period_ok (get_update_period s).
Proof.
  intros [H1 H2 H3]. unfold get_update_period.
  repeat match goal with |- context [if ?b then _ else _] => destruct b eqn:? end; bool_props; try done; tauto.
Qed.

(** The first time after [now] that is a whole number of periods after [last]. *)
Record on_grid (last now period next delay : Z) : Prop := {
  gr_delay : 0 < delay <= period;
  gr_next : next = u32 (now + delay);
  gr_grid : exists k, 0 < k /\ next = u32 (last + k * period) /\ (k - 1) * period <= u32 (now - last) < k * period }.

Lemma grid_time last now period :
  is_u32 now -> period_ok period ->
  let next := u32 (now + period - u32 (now - last) mod period) in on_grid last now period next (u32 (next - now)).
Proof.
  intros Hn [Hp1 Hp2] next. unfold POSLIB_MIN_MEAS_RATE_S, POSLIB_MAX_MEAS_RATE_S in *.
  set (e := u32 (now - last)) in *. pose proof (Z.mod_pos_bound e period ltac:(lia)) as Hm.
  pose proof (Z.div_mod e period ltac:(lia)) as Hq. pose proof (uwrap_range 32 (now - last) ltac:(lia)) as He.
  fold e in He. unfold fits in He.
  assert (Hd : u32 (next - now) = period - e mod period).
  { subst next. rewrite uwrap_sub_l. replace (now + period - e mod period - now) with (period - e mod period) by lia.
    apply uwrap_small. unfold fits. lia. }
  rewrite Hd. constructor; [lia|subst next; f_equal; lia|]. exists (e / period + 1).
  split; [pose proof (Z.div_pos e period ltac:(lia) ltac:(lia)); lia|]. split; [|lia].
  subst next. replace (now + period - e mod period) with (now + (e / period + 1) * period - e) by lia.
  subst e. rewrite uwrap_sub_r. f_equal. lia.
Qed.

(** What [schedule_next] finds. *)
Definition found (s : state) (update_now : bool) (now : Z) (r : option (Z * Z)) : Prop :=
  match r with
  | None => update_now = false /\ scheduled (m_ctrl s) = true
  | Some (next, delay) =>
      if update_now then next = now /\ delay = 0
      else on_grid (last_update_s (m_ctrl s)) now (get_update_period s) next delay
  end.

Lemma next_time_runs s update_now now :
  is_u32 now -> (update_now = false -> rates_ok (m_pos_settings s)) ->
  exists r, next_time update_now now s = Some (r, s) /\ found s update_now now r.
Proof.
  intros Hn Hr. unfold next_time. destruct update_now; [by eexists|]. rewrite asksE.
  pose proof (period_positive s (Hr eq_refl)) as Hp.
  destruct (Z.eqb_spec (get_update_period s) 0) as [H0|_]; [destruct Hp as [Hp _]; rewrite H0 in Hp; by destruct Hp|].
  rewrite asksE. cbv zeta. pose proof (grid_time (last_update_s (m_ctrl s)) now _ Hn Hp) as Hg. cbv zeta in Hg.
  destruct (_ && _) eqn:Ek; (eexists; split; [reflexivity|]); [|done]. bool_props. done.
Qed.

Lemma found_u32 s update_now now next delay : is_u32 now -> found s update_now now (Some (next, delay)) -> is_u32 next.
Proof. intros Hn. cbn. destruct update_now; [by intros [-> _]|]. intros [_ -> _]. by apply (uwrap_range 32). Qed.

Definition autoscan (mode : Z) : bool :=
  (mode =? POSLIB_MODE_AUTOSCAN_TAG) || (mode =? POSLIB_MODE_AUTOSCAN_ANCHOR) || (mode =? POSLIB_MODE_DA_TAG).

Definition is_static (s : state) : bool :=
  (m_motion_mode s =? POSLIB_MOTION_STATIC) && motion_enabled (motion (m_pos_settings s)).

(** The state after a new schedule. *)
Record rescheduled (next delay : Z) (s s' : state) : Prop := {
  rs_ok : ok true s';
  rs_ctrl : m_ctrl s' = let c := new_schedule (node_mode (m_pos_settings s)) next (is_static s) (m_ctrl s) in
      if node_mode (m_pos_settings s) =? POSLIB_MODE_OPPORTUNISTIC_ANCHOR then set_next 0 c else c;
  rs_settings : m_pos_settings s' = m_pos_settings s;
  rs_timeout : pending timeout (world s') = None;
  rs_trigger : autoscan (node_mode (m_pos_settings s)) = true ->
      pending trigger_update (world s') = Some (if delay =? 0 then APP_SCHEDULER_SCHEDULE_ASAP else TIME_SEC_TO_MS delay);
  rs_offered : offered (world s') = offered (world s) }.

(** What the end of [new_update] leaves alone. *)
Record steady (s0 s : state) : Prop := {
  st_ok : ok true s;
  st_ctrl : m_ctrl s = m_ctrl s0;
  st_settings : m_pos_settings s = m_pos_settings s0;
  st_timeout : pending timeout (world s) = pending timeout (world s0);
  st_offered : offered (world s) = offered (world s0) }.

Lemma steady_ask {A} s0 (r : request A) :
  (forall p, effect r timeout p = p) -> offer r = [] -> runs (steady s0) (ask E r) (fun _ => steady s0).
Proof.
  intros Hr Ho s [H1 H2 H3 H4 H5]. eexists _, _. split; [reflexivity|]. constructor; cbn; try done.
  - apply world_ok; [|done]. intros _. by rewrite node_pending, Hr.
  - by rewrite node_pending, Hr.
  - by rewrite node_offered, Ho, app_nil_r.
Qed.

Lemma steady_offline s0 r s : steady s0 s -> steady s0 (set_shared_offline r s).
Proof. intros []. constructor; try done. by apply offline_ok. Qed.

Lemma steady_ret {A} s0 (x : A) : runs (steady s0) (mret x) (fun _ => steady s0).
Proof. by apply runs_ret. Qed.

Lemma update_nrls_steady s0 delay : runs (steady s0) (update_nrls E delay) (fun _ => steady s0).
Proof.
  unfold update_nrls. eapply runs_bind with (R := fun _ => steady s0).
  - unfold shared_offline_register. intros s Hs. rewrite asksE. destruct (reg _); [by eexists _, s|].
    revert s Hs. eapply runs_bind; [by apply steady_ask|]. intros [res id] s Hs.
    eexists _, _. split; [reflexivity|]. by apply steady_offline.
  - intros b. destruct b; cbn [negb]; [|apply steady_ret]. intros s Hs. rewrite asksE.
    destruct (steady_ask s0 (Shared_Offline_enter_offline_state (reg_id (m_shared_offline s)) delay) (fun _ => eq_refl) eq_refl s Hs)
      as (x & s' & E1 & Hs'). rewrite (sf_bindE _ _ _ _ _ E1). by eexists _, s'.
Qed.

(** [new_update] after its first part. *)
Definition ask_update (mode delay : Z) : M unit :=
  if mode =? POSLIB_MODE_NRLS_TAG then
    _ ← ask E (PosLibMeas_opportunisticScan true); _ ← update_nrls E delay; mret tt
  else if autoscan mode then
    _ ← ask E (PosLibMeas_opportunisticScan false); _ ← update_autoscan E delay; mret tt
  else if mode =? POSLIB_MODE_OPPORTUNISTIC_ANCHOR then
    _ ← ask E (PosLibMeas_opportunisticScan true); on_ctrl (set_next 0)
  else mret tt.

Lemma ask_update_runs mode delay s0 : ok true s0 ->
  exists s', ask_update mode delay s0 = Some (tt, s') /\ ok true s' /\
    m_ctrl s' = (if mode =? POSLIB_MODE_OPPORTUNISTIC_ANCHOR then set_next 0 (m_ctrl s0) else m_ctrl s0) /\
    m_pos_settings s' = m_pos_settings s0 /\ pending timeout (world s') = pending timeout (world s0) /\
    offered (world s') = offered (world s0) /\
    (autoscan mode = true -> pending trigger_update (world s') =
      Some (if delay =? 0 then APP_SCHEDULER_SCHEDULE_ASAP else TIME_SEC_TO_MS delay)).
Proof.
  intros Hok. assert (H0 : steady s0 s0) by (by constructor). unfold ask_update.
  destruct (Z.eqb_spec mode POSLIB_MODE_NRLS_TAG) as [->|_].
  - assert (Hr : runs (steady s0) (_ ← ask E (PosLibMeas_opportunisticScan true); _ ← update_nrls E delay; mret tt)
                   (fun _ => steady s0)).
    { eapply runs_bind; [by apply steady_ask|]. intros ?. eapply runs_bind; [apply update_nrls_steady|]. intros ?. apply steady_ret. }
    destruct (Hr s0 H0) as ([] & s' & E1 & [H1 H2 H3 H4 H5]). by exists s'.
  - destruct (autoscan mode) eqn:Ea.
    + unfold update_autoscan. rewrite askE. unfold mbind, sf_bind, ask. eexists. split; [reflexivity|]. cbn.
      rewrite !node_pending, !node_offered, !app_nil_r. cbn [effect]. rewrite decide_False, decide_True by done.
      split; [|destruct (Z.eqb_spec mode POSLIB_MODE_OPPORTUNISTIC_ANCHOR) as [->|_]; [by vm_compute in Ea|done]].
      apply world_ok; [|apply world_ok; [|done]]; cbn; intros _; by rewrite node_pending.
    + destruct (mode =? POSLIB_MODE_OPPORTUNISTIC_ANCHOR); [|by exists s0].
      rewrite askE. eexists. split; [reflexivity|].
      split; [|cbn; by rewrite node_pending, node_offered, app_nil_r].
      assert (Hw : ok true (set_world (perform E bool (PosLibMeas_opportunisticScan true) (world s0)).2 s0))
        by (apply world_ok; [intros _; by rewrite node_pending|done]).
      destruct (ctrl_ok true (set_next 0) ltac:(intros c; split; [done|by intros ? _; split]) _ Hw) as (x & s' & E1 & Hs').
      by injection E1 as _ <-.
Qed.

Lemma new_update_runs next delay s :
  ok false s -> m_poslib_configured s = true -> is_u32 next ->
  exists s', new_update E next delay s = Some (tt, s') /\ rescheduled next delay s s'.
Proof.
  intros Hok Hc Hn. unfold new_update, stop_tasks, on_ctrl. rewrite (sf_assoc (ask E _)), !askE, !asksE, putsE. cbn [m_ctrl set_world m_motion_mode m_pos_settings]. fold (is_static s).
  set (s0 := set_ctrl _ _).
  assert (Hs0 : ok true s0).
  { destruct Hok as [H1 H2 H3 H4 H5 H6 [H7 H7'] H8]. constructor; try done. intros Hst. split; [done|by apply H3]. }
  destruct (ask_update_runs (node_mode (m_pos_settings s)) delay s0 Hs0) as (s' & E1 & H1 & H2 & H3 & H4 & H5 & H6).
  exists s'. split; [exact E1|]. constructor; try done.
  - rewrite H4. cbn. rewrite node_pending. cbn [effect]. by rewrite decide_True.
  - rewrite H5. cbn. by rewrite !node_offered, !app_nil_r.
Qed.

(** The next update was scheduled, at the time [now] of the stack. *)
Definition scheduled_anew (update_now : bool) (s s' : state) : Prop :=
  exists now next delay, (exists w, now = (perform E _ getTimestampS w).1) /\
    found s update_now now (Some (next, delay)) /\ rescheduled next delay s s'.

Lemma schedule_next_runs T update_now s :
  ok T s -> (update_now = true -> m_poslib_configured s = true) ->
  exists s', schedule_next E update_now s = Some (tt, s') /\ ok (T || negb (scheduled (m_ctrl s))) s' /\
    (scheduled (m_ctrl s) = false -> (c_state (m_ctrl s) = POSLIB_STATE_STOPPED -> update_now = true) ->
     scheduled_anew update_now s s').
Proof.
  intros Hok Hc. unfold schedule_next. rewrite askE, asksE.
  pose proof (node_legal Z getTimestampS (world s)) as Hnow. cbn [legal] in Hnow.
  set (s1 := set_world _ s). set (now := (perform E _ getTimestampS (world s)).1) in *.
  assert (H1 : ok T s1) by (apply world_ok; [intros _; by rewrite node_pending|done]).
  change (m_ctrl s1) with (m_ctrl s).
  destruct (decide (c_state (m_ctrl s) = POSLIB_STATE_STOPPED /\ update_now = false)) as [[Hs ->]|Hgo].
  { rewrite Hs. destruct (ctrl_ok T (set_scheduled false) ltac:(done) s1 H1) as ([] & s' & E1 & H').
    exists s'. split; [exact E1|]. injection E1 as <-. split; [|intros _ H; by specialize (H eq_refl)].
    apply ok_any; [cbn; by rewrite Hs|by eapply ok_weaken]. }
  assert (Hconf : m_poslib_configured s = true).
  { destruct update_now; [by apply Hc|]. apply (ok_running _ _ Hok). intros Hs. by apply Hgo. }
  pose proof (ok_rates _ _ Hok Hconf) as Hr.
  destruct (next_time_runs s1 update_now now Hnow (fun _ => Hr)) as (r & Et & Hf).
  assert (Hk : forall k, (match c_state (m_ctrl s), update_now with
     | POSLIB_STATE_STOPPED, false => on_ctrl (set_scheduled false)
     | _, _ => time ← next_time update_now now; k time end) s1 = k r s1).
  { intros k. destruct (c_state (m_ctrl s)), update_now; try (by destruct Hgo); by rewrite (sf_bindE _ _ _ _ _ Et). }
  rewrite Hk. clear Hk. destruct r as [[next delay]|].
  - destruct (scheduled (m_ctrl s)) eqn:Hsch.
    + rewrite orb_false_r. enough (Hkeep : keeps_ok T (if next =? next_update_s (m_ctrl s) then mret tt
        else _ ← on_ctrl (set_next next); _ ← update_autoscan E delay; mret tt)).
      { destruct (Hkeep s1 H1) as ([] & s' & E1 & H'). by exists s'. }
      unfold update_autoscan. keep_ok. apply ctrl_ok. intros c. split; [done|]. intros Hl _. split; [done|].
      exact (found_u32 _ _ _ _ _ Hnow Hf).
    + destruct (new_update_runs next delay s1 (ok_weaken _ _ H1) Hconf (found_u32 _ _ _ _ _ Hnow Hf)) as (s' & E1 & Hres).
      exists s'. split; [exact E1|]. split; [rewrite orb_true_r; apply Hres|]. intros _ _.
      exists now, next, delay. split; [by eexists|]. split; [exact Hf|].
      destruct Hres as [R1 R2 R3 R4 R5 R6]. constructor; try done. rewrite R6. cbn. by rewrite node_offered, app_nil_r.
  - destruct Hf as [-> Hsch]. cbn in Hsch. rewrite Hsch. exists s1. split; [done|].
    rewrite orb_false_r. by split.
Qed.

Lemma schedule_next_ok T update_now :
  runs (fun s => ok T s /\ (update_now = true -> m_poslib_configured s = true)) (schedule_next E update_now) (fun _ => ok T).
Proof.
  intros s [Hok Hc]. destruct (schedule_next_runs T update_now s Hok Hc) as (s' & E1 & H' & _).
  exists tt, s'. split; [done|]. destruct T; [done|by eapply ok_weaken].
Qed.

Lemma schedule_later_ok T : keeps_ok T (schedule_next E false).
Proof. eapply runs_conseq; [apply schedule_next_ok|intros s Hs; by split|done]. Qed.
Hint Resolve schedule_later_ok : control.

Lemma delayed_start_ok T : keeps_ok T (delayed_start E).
Proof. unfold delayed_start. keep_ok. Qed.

(** ** Updates *)

Lemma set_timeout_ok type ms : runs (ok false) (set_timeout E type ms) (fun _ => ok true).
Proof.
  intros s []. eexists _, _. split; [reflexivity|]. constructor; try done. cbn. intros _ _.
  rewrite node_pending. cbn [effect]. rewrite decide_True by done. by eexists.
Qed.

Lemma clear_timeout_ok : keeps_ok false (clear_timeout E).
Proof. unfold clear_timeout. eapply runs_conseq; [by apply (ask_runs false)|done|by intros x s []]. Qed.

Lemma update_outside_ok T : keeps_ok T (update_outside_wm E).
Proof. unfold update_outside_wm. keep_ok. Qed.

Lemma motion_event_ok T : keeps_ok T motion_event.
Proof. unfold motion_event. keep_ok. Qed.

(** The timeout is scheduled unless the update is complete. *)
Definition settled (s : state) : Prop := ok (negb (is_update_completed (m_ctrl s))) s.

Lemma ok_settled s : ok true s -> settled s.
Proof. intros Hs. unfold settled. destruct (is_update_completed _); [by eapply ok_weaken|done]. Qed.

Lemma scan_end_ok : runs (ok false) (scan_end E) (fun _ => settled).
Proof.
  unfold scan_end. eapply runs_bind; [apply mark_ok|]. intros ?.
  eapply runs_bind; [apply clear_timeout_ok|].
  intros ?. eapply runs_bind; [apply update_outside_ok|]. intros ?.
  eapply runs_bind with (R := fun _ => ok false); [unfold is_scan_valid; keep_ok|]. intros valid. destruct valid.
  - eapply runs_bind; [apply send_measurement_ok|]. intros ?. eapply runs_bind; [apply mark_ok|]. intros ?.
    eapply runs_conseq; [apply set_timeout_ok|done|]. intros ? s. apply ok_settled.
  - intros s Hs. destruct (mark_ok false (set_ev_scan_fail true) s Hs) as (y & s' & E1 & H').
    exists y, s'. split; [done|]. injection E1 as _ <-. exact H'.
Qed.

(** The end of a scan sets its own timeout. *)
Definition timed (type : Z) : bool := negb (type =? POSLIB_CTRL_EVENT_SCAN_END).

Lemma update_event_ok type : runs (ok (timed type)) (update_event E type) (fun _ => settled).
Proof.
  unfold update_event, timed. destruct (type =? POSLIB_CTRL_EVENT_SCAN_END); [apply scan_end_ok|].
  eapply (runs_conseq _ (ok true)) with (Q' := fun _ => ok true); [|done|intros _ s; apply ok_settled].
  keep_ok. apply motion_event_ok.
Qed.

(** The end of an update. *)
Record finished (s s' : state) : Prop := {
  fi_ok : ok true s';
  fi_state : c_state (m_ctrl s') = POSLIB_STATE_IDLE;
  fi_scheduled : scheduled (m_ctrl s') = true;
  fi_timeout : pending timeout (world s') = None;
  fi_event : offered (world s') = offered (world s) ++ [POSLIB_CTRL_EVENT_UPDATE_END];
  fi_sequence : sequence (m_ctrl s') = u16 (sequence (m_ctrl s) + 1);
  fi_last : last_update_s (m_ctrl s') = next_update_s (m_ctrl s);
  fi_next : autoscan (node_mode (m_pos_settings s)) = true ->
    exists now delay, (exists w, now = (perform E _ getTimestampS w).1) /\
      on_grid (next_update_s (m_ctrl s)) now (get_update_period s) (next_update_s (m_ctrl s')) delay /\
      pending trigger_update (world s') = Some (1000 * delay) }.

Lemma complete_update_runs s :
  ok false s -> c_state (m_ctrl s) <> POSLIB_STATE_STOPPED ->
  exists s', complete_update E s = Some (tt, s') /\ finished s s'.
Proof.
  intros Hok Hs. unfold complete_update, on_ctrl. rewrite putsE.
  set (s0 := set_ctrl _ s). unfold add_event. rewrite sf_assoc, askE, sf_retE. set (s1 := set_world _ s0).
  assert (H1 : ok false s1).
  { apply world_ok; [done|]. destruct Hok as [H1 H2 H3 H4 H5 H6 [H7 H7'] H8]. by constructor. }
  destruct (schedule_next_runs false false s1 H1 ltac:(done)) as (s' & E1 & H' & Hnew).
  exists s'. split; [exact E1|].
  destruct (Hnew eq_refl ltac:(done)) as (now & next & delay & Hw & Hf & [R1 R2 R3 R4 R5 R6]). clear Hnew H'.
  constructor; try done; [rewrite R2; cbn; by destruct (_ =? _)..| | | |].
  - rewrite R6. cbn. by rewrite node_offered.
  - rewrite R2. cbn. by destruct (_ =? _).
  - rewrite R2. cbn. by destruct (_ =? _).
  - intros Ha. exists now, delay. split; [done|]. rewrite R2, R5 by done. cbn in Hf.
    replace (node_mode _ =? POSLIB_MODE_OPPORTUNISTIC_ANCHOR) with false
      by (symmetry; apply Z.eqb_neq; intros Hm; cbn in Hm; by rewrite Hm in Ha).
    split; [exact Hf|]. destruct Hf as [[Hd1 Hd2] _ _].
    destruct (period_positive s (ok_rates _ _ Hok (ok_running _ _ Hok Hs))) as [_ Hp].
    change (get_update_period s1) with (get_update_period s) in Hd2.
    unfold POSLIB_MAX_MEAS_RATE_S in Hp. destruct (Z.eqb_spec delay 0); [lia|]. f_equal.
    unfold TIME_SEC_TO_MS. rewrite uwrap_small by (unfold fits; lia). lia.
Qed.

(** The course of the module: what an event of an update does not change. *)
Definition course (s : state) : poslib_state_e * Z * Z * Z :=
  (c_state (m_ctrl s), sequence (m_ctrl s), last_update_s (m_ctrl s), next_update_s (m_ctrl s)).

(** Prove that a program leaves a part of the state alone. *)
Ltac leaves_alone :=
  sf_keep; try (apply sf_keeps_puts; by intros []); try (by intros [] ? ? [= <- <-]).

Lemma ask_alone {A B} (r : request A) (f : state -> B) (x : B) :
  (forall w s, f (set_world w s) = f s) -> sf_keeps (fun s => f s = x) (ask E r).
Proof. intros Hf s y s' [= <- <-]. by rewrite Hf. Qed.

Lemma decode_course x : sf_keeps (fun s => course s = x) (decode E).
Proof. intros s y s'. unfold decode. destruct (PosLibDecode_config _ _ _ _ _ _) as [[ok d]|]; [|done]. by intros [= <- <-]. Qed.

Lemma update_event_course type x : sf_keeps (fun s => course s = x) (update_event E type).
Proof.
  unfold update_event, scan_end, appcfg_event, process_appcfg, process_led_status, send_measurement_message, get_node_info,
    update_outside_wm, motion_event, is_scan_valid, clear_timeout, set_timeout, add_event, mark, on_ctrl.
  leaves_alone; first [by apply decode_course | by apply ask_alone | by apply sf_keeps_puts].
Qed.

(** An event ends the update or leaves it going on with the timeout. *)
Lemma handle_update_runs type s :
  ok (timed type) s -> c_state (m_ctrl s) = POSLIB_STATE_UPDATE ->
  exists s', handle_update_state E type s = Some (tt, s') /\ ok true s' /\
    (c_state (m_ctrl s') = POSLIB_STATE_UPDATE /\ course s' = course s \/
     exists s1, update_event E type s = Some (tt, s1) /\ course s1 = course s /\ finished s1 s').
Proof.
  intros Hok Hs. destruct (update_event_ok type s Hok) as ([] & s1 & E1 & H1).
  pose proof (update_event_course type (course s) s tt s1 E1 eq_refl) as Hc.
  assert (Hs1 : c_state (m_ctrl s1) = POSLIB_STATE_UPDATE) by (injection Hc; congruence).
  unfold handle_update_state. rewrite (sf_bindE _ _ _ _ _ E1), asksE. unfold settled in H1.
  destruct (is_update_completed (m_ctrl s1)).
  - destruct (complete_update_runs s1 H1) as (s' & E2 & Hf); [by rewrite Hs1|].
    exists s'. split; [done|]. split; [apply Hf|]. right. by exists s1.
  - exists s1. split; [done|]. split; [done|]. by left.
Qed.

Lemma handle_update_ok type :
  runs (fun s => ok (timed type) s /\ c_state (m_ctrl s) = POSLIB_STATE_UPDATE) (handle_update_state E type) (fun _ => ok true).
Proof. intros s [Hok Hs]. destruct (handle_update_runs type s Hok Hs) as (s' & E1 & H' & _). by exists tt, s'. Qed.

Lemma ok_updating s : c_state (m_ctrl s) <> POSLIB_STATE_STOPPED -> ok false s ->
  ok false (set_ctrl (on_events (set_ev_scan_end true) (set_c_state POSLIB_STATE_UPDATE (m_ctrl s))) s).
Proof. intros Hs []. constructor; cbn; try done; naive_solver. Qed.

Lemma start_update_ok f : runs (fun s => ok true s /\ c_state (m_ctrl s) = POSLIB_STATE_IDLE) (start_update E f) (fun _ => ok true).
Proof.
  intros s [Hok Hs]. unfold start_update, mark, on_ctrl. rewrite askE, !putsE. apply set_timeout_ok.
  pose proof (ok_running _ _ Hok) as Hr. rewrite Hs in Hr.
  destruct Hok as [H1 H2 H3 H4 H5 H6 H7 H8]. constructor; try done; cbn; naive_solver.
Qed.

(** Before a call that needs a configured module. *)
Lemma schedule_now_ok f : (forall c, c_state (f c) = c_state c) -> f = on_events (set_ev_oneshot true) ->
  runs (fun s => ok true s /\ m_poslib_configured s = true) (_ ← on_ctrl f; schedule_next E true) (fun _ => ok true).
Proof.
  intros _ ->. intros s [Hok Hc]. destruct (mark_ok true (set_ev_oneshot true) s Hok) as (x & s1 & E1 & H1).
  unfold mark in E1. rewrite (sf_bindE _ _ _ _ _ E1). apply schedule_next_ok. split; [done|]. by injection E1 as _ <-.
Qed.

Lemma handle_idle_ok type :
  runs (fun s => ok true s /\ c_state (m_ctrl s) = POSLIB_STATE_IDLE) (handle_idle_state E type) (fun _ => ok true).
Proof.
  assert (Hkeep : forall m : M unit, keeps_ok true m ->
    runs (fun s => ok true s /\ c_state (m_ctrl s) = POSLIB_STATE_IDLE) m (fun _ => ok true)).
  { intros m Hm s [Hok _]. by apply Hm. }
  unfold handle_idle_state.
  destruct (type =? POSLIB_CTRL_EVENT_SCAN_STARTED); [apply start_update_ok|].
  destruct (Z.eqb_spec type POSLIB_CTRL_EVENT_SCAN_END) as [->|_].
  { intros s [Hok Hs]. rewrite asksE. destruct (scheduled _); [|by eexists _, s].
    unfold mark, on_ctrl. rewrite !putsE. apply handle_update_ok. split; [|done].
    refine (ok_updating s _ (ok_weaken _ _ Hok)). by rewrite Hs. }
  destruct (type =? POSLIB_CTRL_EVENT_ONLINE); [apply start_update_ok|].
  destruct (type =? POSLIB_CTRL_EVENT_OFFLINE); [apply Hkeep; keep_ok|].
  destruct (type =? POSLIB_CTRL_EVENT_CONFIG_CHANGE); [apply Hkeep; unfold config_change; keep_ok|].
  destruct (type =? POSLIB_CTRL_EVENT_ONESHOT).
  { intros s [Hok Hs]. apply (schedule_now_ok (on_events (set_ev_oneshot true))); [done..|]. split; [done|].
    apply (ok_running _ _ Hok). by rewrite Hs. }
  apply Hkeep. keep_ok. apply motion_event_ok.
Qed.

Lemma handle_stopped_ok type : keeps_ok true (handle_stopped_state E type).
Proof.
  unfold handle_stopped_state. intros s Hok. rewrite asksE. destruct (_ && _) eqn:Hgo; [|by eexists _, s].
  bool_props. by apply (schedule_now_ok (on_events (set_ev_oneshot true))).
Qed.

Lemma processEvent_ok type : keeps_ok true (PosLibCtrl_processEvent E type).
Proof.
  intros s Hok. unfold PosLibCtrl_processEvent. rewrite asksE. destruct (c_state (m_ctrl s)) eqn:Hs.
  - by apply handle_stopped_ok.
  - by apply handle_idle_ok.
  - apply handle_update_ok. split; [|done]. unfold timed. destruct (negb _); [done|by eapply ok_weaken].
Qed.

(** ** Calls *)

Lemma check_params_ok c : invalid (check_params c) = false -> rates_ok c.
Proof.
  unfold check_params. repeat match goal with |- context [if ?b then _ else _] => destruct b eqn:? end; intros [=].
  repeat match goal with
  | H : (_ || _)%bool = false |- _ => apply orb_false_iff in H as [? ?]
  | H : (_ && _)%bool = false |- _ => apply andb_false_iff in H as [H|H]
  end; bool_props; constructor; unfold period_ok; (lia || (left; lia) || (right; lia)).
Qed.

Lemma check_ctrl_params_ok T c : runs (ok T) (check_ctrl_params E c) (fun r s => ok T s /\ (r = POS_RET_OK -> rates_ok c)).
Proof.
  unfold check_ctrl_params. eapply (runs_bind _ _ (fun _ => ok T)); [unfold check_role; keep_ok|]. intros r.
  pose proof (check_params_ok c) as Hp.
  destruct (invalid r), (invalid (check_ble_params c)), (invalid (check_params c)); apply runs_ret; intros s Hs; by auto.
Qed.

Lemma setConfig_ok T c : keeps_ok T (PosLibCtrl_setConfig E c).
Proof.
  unfold PosLibCtrl_setConfig. eapply runs_bind; [apply check_ctrl_params_ok|]. intros r. cbv beta.
  destruct r; try (apply runs_ret; by intros s [Hs _]).
  intros s [Hs Hr]. specialize (Hr eq_refl). rewrite asksE.
  set (change := negb (m_poslib_configured s) || _).
  assert (H0 : exists s0, (if change then puts (set_settings c) else mret tt) s = Some (tt, s0) /\ ok T s0 /\ rates_ok (m_pos_settings s0)).
  { subst change. destruct (_ || _) eqn:Hch; (eexists; split; [reflexivity|]).
    - destruct Hs. by split; [constructor|].
    - apply orb_false_iff in Hch as [_ Hch]. apply negb_false_iff, bool_decide_eq_true_1 in Hch. by rewrite Hch. }
  destruct H0 as (s0 & E0 & H0 & Hr0). rewrite (sf_bindE _ _ _ _ _ E0), putsE, asksE. clearbody change.
  set (s1 := set_flags _ _ _ s0). assert (H1 : ok T s1) by (destruct H0; by constructor).
  enough (Hk : keeps_ok T (_ ← (if m_poslib_started s1 && change then add_event E POSLIB_CTRL_EVENT_CONFIG_CHANGE else mret tt);
    mret POS_RET_OK)) by (by apply Hk).
  keep_ok.
Qed.

Lemma motion_call_ok T mode : keeps_ok T (PosLibCtrl_motion E mode).
Proof. unfold PosLibCtrl_motion. keep_ok. Qed.

Lemma setAppConfig_ok T cfg : config_ok cfg -> keeps_ok T (PosLibCtrl_setAppConfig E cfg).
Proof.
  intros Hc. unfold PosLibCtrl_setAppConfig. apply bind_ok; [|intros; apply add_event_ok].
  destruct (_ <=? _)%nat; [|apply ret_ok]. apply puts_ok. intros s. by apply appcfg_ok.
Qed.

Lemma data_send_ok T b : keeps_ok T (data_send_cb E b).
Proof. unfold data_send_cb. keep_ok. Qed.

Lemma control_init_ok T : keeps_ok T (control_init E).
Proof.
  intros s Hok. unfold control_init. rewrite asksE. destruct (m_poslib_init s) eqn:Hi; [by eexists _, s|].
  eexists _, _. split; [reflexivity|]. destruct Hok. constructor; try done; cbn.
  - intros Hst. destruct (ok_started0 Hst). congruence.
  - by split; apply (uwrap_range 32).
Qed.

(** Go on with what is left of a program. *)
Ltac keep_on H :=
  match goal with |- exists x s', ?m ?s = Some (x, s') /\ ok ?T s' => refine ((_ : runs (ok T) m (fun _ => ok T)) s H) end; keep_ok.

(** Registration does not touch the flags. *)
Definition flags (s : state) : bool * bool := (m_poslib_configured s, m_poslib_init s).

Lemma calls_back_flags cb calls x : (forall types bs, sf_keeps (fun s => flags s = x) (cb types bs)) ->
  sf_keeps (fun s => flags s = x) (calls_back cb calls).
Proof. intros Hcb. induction calls as [|[types bs] calls IH]; cbn [calls_back]; sf_keep. Qed.

Lemma register_flags x : sf_keeps (fun s => flags s = x) (register_callbacks E).
Proof.
  unfold register_callbacks, register_filter.
  leaves_alone; try (by apply ask_alone); apply calls_back_flags; intros types bs;
    unfold appconfig_cb, appconfig_legacy_cb, add_event; leaves_alone; by apply ask_alone.
Qed.

Lemma init_flags s x s' : control_init E s = Some (x, s') -> flags s' = (m_poslib_configured s, true).
Proof.
  unfold control_init, flags. rewrite asksE. destruct (m_poslib_init s) eqn:Hi; intros [= <- <-]; [|done].
  by rewrite Hi.
Qed.

(** The module is set up and its callbacks are registered. *)
Lemma set_up_ok T s : ok T s -> m_poslib_configured s = true ->
  exists b s', (_ ← control_init E; register_callbacks E) s = Some (b, s') /\ ok T s' /\ flags s' = (true, true).
Proof.
  intros Hok Hc. destruct (control_init_ok T s Hok) as (x & s1 & E1 & H1).
  destruct (register_callbacks_ok T s1 H1) as (b & s' & E2 & H'). exists b, s'.
  rewrite (sf_bindE _ _ _ _ _ E1). split; [done|]. split; [done|].
  eapply register_flags; [exact E2|]. by rewrite (init_flags _ _ _ E1), Hc.
Qed.

Lemma startPeriodic_ok : keeps_ok true (PosLibCtrl_startPeriodic E).
Proof.
  intros s Hok. unfold PosLibCtrl_startPeriodic. rewrite !asksE.
  destruct (m_poslib_configured s) eqn:Hc; cbn [negb]; [|by eexists _, s].
  destruct (m_poslib_started s); [by eexists _, s|].
  destruct (set_up_ok true s Hok Hc) as (b & s1 & E1 & H1 & [= Hc1 Hi1]).
  rewrite <- sf_assoc, (sf_bindE _ _ _ _ _ E1). destruct b; cbn [negb]; [|by eexists _, s1].
  unfold on_ctrl. rewrite !putsE. match goal with |- exists x s', ?m ?s = _ /\ _ => set (s2 := s) end.
  assert (H2 : ok true s2) by (destruct H1; constructor; try done; cbn; naive_solver).
  keep_on H2.
Qed.

Lemma startOneshot_ok : keeps_ok true (PosLibCtrl_startOneshot E).
Proof.
  intros s Hok. unfold PosLibCtrl_startOneshot. rewrite !asksE.
  destruct (m_poslib_configured s) eqn:Hc; cbn [negb]; [|by eexists _, s].
  destruct (set_up_ok true s Hok Hc) as (b & s1 & E1 & H1 & _).
  rewrite <- sf_assoc, (sf_bindE _ _ _ _ _ E1). destruct b; cbn [negb]; [|by eexists _, s1].
  keep_on H1.
Qed.

Lemma stopPeriodic_ok : keeps_ok true (PosLibCtrl_stopPeriodic E).
Proof.
  intros s Hok. unfold PosLibCtrl_stopPeriodic, on_ctrl, stop_tasks. rewrite !putsE, sf_assoc, !askE.
  match goal with |- exists x s', ?m ?s = _ /\ _ => set (s0 := s) end.
  assert (H0 : ok true s0) by (destruct Hok; by constructor). clearbody s0. unfold shared_offline_unregister. keep_on H0.
Qed.

(** ** Tasks *)

Lemma done_ok T t res s : (t = timeout -> c_state (m_ctrl s) <> POSLIB_STATE_UPDATE) -> ok T s ->
  ok T (set_world (task_done E t res (world s)) s).
Proof.
  intros Ht []. constructor; try done. cbn. intros HT Hs. rewrite node_done.
  destruct (decide _) as [[-> _]|_]; [by destruct Ht|auto].
Qed.

Lemma timeout_task_ok s : ok true s ->
  exists s', timeout_task E s = Some (APP_SCHEDULER_STOP_TASK, s') /\ ok true s' /\
    c_state (m_ctrl s') <> POSLIB_STATE_UPDATE /\
    (c_state (m_ctrl s) = POSLIB_STATE_UPDATE -> finished s s').
Proof.
  intros Hok. unfold timeout_task, PosLibCtrl_processEvent. rewrite sf_assoc, asksE.
  destruct (c_state (m_ctrl s)) eqn:Hs.
  - unfold handle_stopped_state. rewrite sf_assoc, asksE, andb_false_r, sf_retE. exists s. by rewrite Hs.
  - exists s. by rewrite Hs.
  - set (s1 := set_ctrl (on_events (set_ev_timeout true) (m_ctrl s)) s).
    assert (E1 : handle_update_state E POSLIB_CTRL_EVENT_TIMEOUT s = complete_update E s1).
    { unfold handle_update_state. rewrite (sf_bindE _ _ s tt s1), asksE by reflexivity.
      unfold is_update_completed. cbn. by rewrite orb_true_r. }
    assert (H1 : ok false s1) by (destruct (ok_weaken _ _ Hok); by constructor).
    destruct (complete_update_runs s1 H1) as (s' & E2 & Hf); [cbn; by rewrite Hs|].
    exists s'. rewrite (sf_bindE _ _ s tt s') by (by rewrite E1). split; [done|]. split; [apply Hf|].
    split; [by rewrite (fi_state _ _ Hf)|]. intros _. destruct Hf. by constructor.
Qed.

Lemma scheduler_runs_ok t s : ok true s -> exists res s', scheduler_runs E t s = Some (res, s') /\ ok true s'.
Proof.
  intros Hok.
  assert (Hr : exists res s1, run_task E t s = Some (res, s1) /\ ok true s1 /\ (t = timeout -> c_state (m_ctrl s1) <> POSLIB_STATE_UPDATE)).
  { destruct t; cbn [run_task].
    - destruct (trigger_update_ok true s Hok) as (res & s1 & E1 & H1). by exists res, s1.
    - destruct (timeout_task_ok s Hok) as (s1 & E1 & H1 & Hs & _). by exists APP_SCHEDULER_STOP_TASK, s1.
    - destruct (delayed_start_ok true s Hok) as (res & s1 & E1 & H1). by exists res, s1.
    - unfold led_off_cb. destruct (add_event_ok true POSLIB_CTRL_EVENT_LED_OFF s Hok) as (x & s1 & E1 & H1).
      rewrite (sf_bindE _ _ _ _ _ E1). eexists _, _. split; [reflexivity|]. split; [|done].
      destruct H1 as [? ? ? ? ? [_ ?] ? ?]. by constructor. }
  destruct Hr as (res & s1 & E1 & H1 & Ht). unfold scheduler_runs. rewrite (sf_bindE _ _ _ _ _ E1), putsE.
  eexists _, _. split; [reflexivity|]. by apply done_ok.
Qed.

(** The configurations that come from outside fit in the buffer. *)
Definition op_ok (o : op) : Prop :=
  match o with
  | op_setAppConfig cfg => config_ok cfg
  | op_appcfg _ bs => config_ok bs
  | _ => True
  end.

Lemma run_op_ok o : op_ok o -> keeps_ok true (run_op E o).
Proof.
  assert (Hunit : forall A (m : M A), keeps_ok true m -> keeps_ok true (_ ← m; mret tt)).
  { intros A m Hm. apply bind_ok; [done|]. intros. apply ret_ok. }
  intros Ho. destruct o; cbn [run_op op_ok] in *;
    [apply Hunit, setConfig_ok|apply Hunit, startPeriodic_ok|apply Hunit, startOneshot_ok|apply Hunit, stopPeriodic_ok
    |apply Hunit, motion_call_ok|by apply setAppConfig_ok|apply processEvent_ok
    |apply Hunit; intros s; apply scheduler_runs_ok|apply add_event_ok|apply add_event_ok
    |apply data_send_ok|by apply appconfig_cb_ok|apply appconfig_legacy_cb_ok].
Qed.

Lemma run_ops_ok os : Forall op_ok os -> keeps_ok true (run_ops E os).
Proof.
  induction 1 as [|o os Ho _ IH]; cbn [run_ops]; [apply ret_ok|]. apply bind_ok; [by apply run_op_ok|done].
Qed.

(** The variables of the module before its first use; [c] is the structure of zeroes. *)
Definition boot (c : poslib_settings_t) (w : W) : state := {|
  m_motion_mode := 0; m_pos_settings := c; m_aux_settings := {| led_on_duration_s := 0; led_cmd_seq := 0 |};
  m_shared_offline := {| reg := false; reg_id := SHARED_INVALID_ID |};
  m_shared_appcfg := {| reg := false; reg_id := SHARED_INVALID_ID |};
  m_legacy_appcfg := {| reg := false; reg_id := SHARED_INVALID_ID |};
  m_appcfg := repeat 0 APP_LIB_DATA_MAX_APP_CONFIG_NUM_BYTES; m_appcfg_len := 0;
  m_poslib_started := false; m_poslib_configured := false; m_poslib_init := false; m_ctrl := zero_ctrl;
  m_data_sent_success := false; m_timeout_event_type := POSLIB_CTRL_EVENT_NONE; world := w |}.

Lemma boot_ok c w : ok true (boot c w).
Proof. constructor; try done. split; [|done]. by apply bytes_repeat. Qed.

Lemma finished_done s s' : finished s s' ->
  finished s (set_world (task_done E timeout APP_SCHEDULER_STOP_TASK (world s')) s').
Proof.
  intros [F1 F2 F3 F4 F5 F6 F7 F8]. constructor; try done.
  - apply done_ok; [|done]. by rewrite F2.
  - cbn. rewrite node_done. by destruct (decide _).
  - cbn. by rewrite node_done_offered.
  - intros Ha. destruct (F8 Ha) as (now & delay & Hw & Hg & Hp). exists now, delay. split; [done|]. split; [done|].
    cbn. rewrite node_done, decide_False by (by intros []). exact Hp.
Qed.

Lemma timeout_ends s : ok true s -> c_state (m_ctrl s) = POSLIB_STATE_UPDATE ->
  exists s', scheduler_runs E timeout s = Some (APP_SCHEDULER_STOP_TASK, s') /\ finished s s'.
Proof.
  intros Hok Hs. destruct (timeout_task_ok s Hok) as (s1 & E1 & _ & _ & Hf). unfold scheduler_runs. cbn [run_task].
  rewrite (sf_bindE _ _ _ _ _ E1), putsE. eexists. split; [reflexivity|]. by apply finished_done, Hf.
Qed.


End Properties.

(** ** What an event does to the rest of the node

    Nothing but what the requests do. *)
Section World.
Context (E : env) (P : W -> Prop) (Hperform : forall A (r : request A) w, P w -> P (perform E A r w).2).

Abbreviation stays m := (sf_keeps (fun s => P (world s)) m).

Lemma ask_world {A} (r : request A) : stays (ask E r).
Proof. intros s x s' [= _ <-]. apply Hperform. Qed.

Lemma puts_world f : (forall s, world (f s) = world s) -> stays (puts f).
Proof. intros Hf. apply sf_keeps_puts. intros s. by rewrite Hf. Qed.

Lemma decode_world : stays (decode E).
Proof.
  intros s x s'. unfold decode. destruct (PosLibDecode_config _ _ _ _ _ _) as [[b d]|] eqn:E1; [|done].
  intros [= _ <-] HP. eapply (decode_config_world _ _ (decode_env E) P); [|exact E1|exact HP].
  intros w Hw. unfold trigger_otap. cbn. by do 2 apply Hperform.
Qed.

Ltac world_kept := sf_keep; first [apply ask_world | apply decode_world | by apply puts_world | idtac].

Lemma schedule_next_world b : stays (schedule_next E b).
Proof.
  unfold schedule_next, next_time, new_update, stop_tasks, update_nrls, update_autoscan, shared_offline_register, on_ctrl.
  world_kept.
Qed.

Lemma update_event_world type : stays (update_event E type).
Proof.
  unfold update_event, scan_end, appcfg_event, process_appcfg, process_led_status, send_measurement_message, get_node_info,
    update_outside_wm, motion_event, is_scan_valid, clear_timeout, set_timeout, add_event, mark, on_ctrl.
  world_kept.
Qed.

Lemma handle_update_world type : stays (handle_update_state E type).
Proof.
  unfold handle_update_state, complete_update, add_event, on_ctrl.
  world_kept; [apply update_event_world|apply schedule_next_world].
Qed.

Lemma processEvent_world type : stays (PosLibCtrl_processEvent E type).
Proof.
  unfold PosLibCtrl_processEvent, handle_stopped_state, handle_idle_state, start_update, config_change, appcfg_event,
    process_appcfg, process_led_status, motion_event, set_timeout, add_event, mark, on_ctrl.
  world_kept; first [apply schedule_next_world|apply handle_update_world].
Qed.

End World.

End Control.

Arguments state : clear implicits.
Arguments env : clear implicits.

(** ** The module in the event queue

    What [PosEvent] asks of the control module - that it only adds events,
    subscribes and changes its own state - holds when it holds for the requests.
    The variables of the module are a part of the world of the queue; [note]
    keeps the events that the module is given. *)
Section InQueue.
Context {O : Type} (MOTION_SUPPORTED CONF_USE_PERSISTENT_MEMORY CONF_VOLTAGE_REPORT : bool).

Abbreviation vars := (state unit).
Abbreviation queue := (PosEvent.state (vars * O)).

Definition with_world {W1 W2} (w : W2) (c : state W1) : state W2 := {|
  m_motion_mode := m_motion_mode c; m_pos_settings := m_pos_settings c; m_aux_settings := m_aux_settings c;
  m_shared_offline := m_shared_offline c; m_shared_appcfg := m_shared_appcfg c; m_legacy_appcfg := m_legacy_appcfg c;
  m_appcfg := m_appcfg c; m_appcfg_len := m_appcfg_len c; m_poslib_started := m_poslib_started c;
  m_poslib_configured := m_poslib_configured c; m_poslib_init := m_poslib_init c; m_ctrl := m_ctrl c;
  m_data_sent_success := m_data_sent_success c; m_timeout_event_type := m_timeout_event_type c; world := w |}.

Context (E : env queue) (Ev : PosEvent.env (vars * O)) (note : Z -> O -> O) (log : O -> list Z).
Context (note_log : forall t o, log (note t o) = log o ++ [t]).

Abbreviation given_to := (fun w : vars * O => log w.2).

Definition process_ctrl (t : Z) (q : queue) : queue :=
  let q := PosEvent.set_world ((PosEvent.world q).1, note t (PosEvent.world q).2) q in
  match PosLibCtrl_processEvent MOTION_SUPPORTED CONF_USE_PERSISTENT_MEMORY CONF_VOLTAGE_REPORT E t
          (with_world q (PosEvent.world q).1) with
  | Some (_, c) => PosEvent.set_world (with_world tt c, (PosEvent.world (world c)).2) (world c)
  | None => q
  end.

Lemma control_acts t q :
  (forall A (r : request A) q, exists l, PosEvent.acts Ev given_to q l (perform E A r q).2) ->
  exists l w, given_to w = given_to (PosEvent.world q) ++ [t] /\
    PosEvent.acts Ev given_to (PosEvent.set_world w q) l (process_ctrl t q).
Proof.
  intros Hr. unfold process_ctrl. set (w := ((PosEvent.world q).1, note t (PosEvent.world q).2)).
  set (q0 := PosEvent.set_world w q).
  assert (H0 : PosEvent.acts Ev given_to q0 [] q0).
  { replace q0 with (PosEvent.set_world w q0) at 2 by done. by constructor. }
  destruct (PosLibCtrl_processEvent _ _ _ E t _) as [[[] c]|] eqn:E1; [|exists [], w; split; [apply note_log|done]].
  pose proof (processEvent_world MOTION_SUPPORTED CONF_USE_PERSISTENT_MEMORY CONF_VOLTAGE_REPORT E (fun q' => exists l, PosEvent.acts Ev given_to q0 l q')) as Hw.
  destruct (Hw ltac:(intros A r q' [l Hl]; destruct (Hr A r q') as [l' Hl']; exists (l ++ l'); by eapply PosEvent.acts_then)
    t _ tt c E1 (ex_intro _ [] H0)) as [l Hl].
  exists (l ++ []), w. split; [apply note_log|]. eapply PosEvent.acts_then; [exact Hl|]. by constructor.
Qed.

End InQueue.

(** ** Examples *)

Module Examples.

(** A node that keeps the delays of its tasks and the events of the module; it
    hears [beacons] beacons, and the time is [now], which goes on by the delay of
    a task when the task was run. *)
Record node := { delays : task -> option Z; given_events : list Z; now : Z; beacons : Z }.

Definition answer {A} (r : request A) (w : node) : A :=
  match r in request A return A with
  | App_Scheduler_addTask_execTime _ _ => APP_SCHEDULER_RES_OK
  | App_Scheduler_cancelTask _ => tt
  | getTimestampS => u32 (now w)
  | getTimestampHp => 0
  | getNodeAddress => Some 7
  | getNodeRole => APP_LIB_SETTINGS_ROLE_SUBNODE_LE
  | getNumFreeBuffers => 4
  | otap_isValid => false
  | otap_isProcessed => false
  | otap_getSeq => 0
  | otap_setToBeProcessed => tt
  | stopStack => tt
  | PosLibEvent_add _ => true
  | PosLibMeas_startScan _ => true
  | PosLibMeas_opportunisticScan _ => true
  | PosLibMeas_getBeaconNum => beacons w
  | PosLibMeas_clearMeas => tt
  | PosLibMeas_stop => tt
  | PosLibMeas_getPayload _ _ _ _ _ => (true, [1; 2; 3], 3, 1)
  | PosLibBle_start _ => POS_RET_OK
  | PosLibBle_stop => tt
  | PosLibBle_getEddystoneStatus => false
  | PosLibBle_getiBeaconStatus => false
  | PosLibMbcn_start _ => true
  | PosLibMbcn_stop => tt
  | PosLibDa_start _ => true
  | PosLibDa_stop => tt
  | PosLibDa_sendData _ => APP_LIB_DATA_SEND_RES_SUCCESS
  | Shared_Data_sendData _ => APP_LIB_DATA_SEND_RES_SUCCESS
  | Shared_Offline_register => (SHARED_OFFLINE_RES_OK, 0)
  | Shared_Offline_unregister _ => SHARED_OFFLINE_RES_OK
  | Shared_Offline_enter_offline_state _ _ => SHARED_OFFLINE_RES_OK
  | Shared_Offline_enter_online_state _ => SHARED_OFFLINE_RES_OK
  | Shared_Offline_get_status => SHARED_OFFLINE_STATUS_ONLINE
  | Shared_Appconfig_addFilter _ _ => (true, Some 0, [])
  | Shared_Appconfig_removeFilter _ => true
  end.

Definition env0 : env node := {|
  perform A r w := (answer r w, {| delays := fun t => effect r t (delays w t); given_events := given_events w ++ offer r;
                                   now := now w; beacons := beacons w |});
  task_done t res w :=
    {| delays := fun t' => if decide (t = t' /\ res = APP_SCHEDULER_STOP_TASK) then None else delays w t';
       given_events := given_events w; now := now w + default 0 (delays w t) / 1000; beacons := beacons w |} |}.

#[export] Instance node0 : Node env0.
Proof.
  refine {| pending := fun t w => delays w t; offered := given_events |}; try done.
  intros A r w. destruct r; try done; cbn; [by apply (uwrap_range 32)|constructor].
Defined.

Definition w0 : node := {| delays := fun _ => None; given_events := []; now := 1000; beacons := 3 |}.

Definition beacon0 : poslib_ble_mode_config_t := {| tx_power := 0; channels := 7; tx_interval_ms := 1000 |}.

Definition settings0 (mode : Z) : poslib_settings_t := {|
  node_mode := mode; node_class := POSLIB_CLASS_DEFAULT;
  update_period_static_s := 60; update_period_dynamic_s := 0; update_period_offline_s := 0;
  ble := {| ble_type := 3; ble_mode := POSLIB_BLE_OFF; eddystone := beacon0; ibeacon := beacon0; activation_delay_s := 0 |};
  motion := {| motion_enabled := false; threshold_mg := 200; duration_ms := 100 |};
  mbcn := {| mb_enabled := false; mb_tx_interval_ms := 0; mb_records := [] |};
  da := {| routing_enabled := false; follow_network := false |} |}.

(** A tag is configured and started; its first update begins. *)
Definition ops0 : list op :=
  [op_setConfig (settings0 POSLIB_MODE_AUTOSCAN_TAG); op_startPeriodic; op_task delayed; op_task trigger_update;
   op_event POSLIB_CTRL_EVENT_SCAN_STARTED].

Definition after (os : list op) (w : node) : option (state node) :=
  snd <$> run_ops true false false env0 os (boot (settings0 0) w).

Lemma ops0_ok : Forall op_ok ops0.
Proof. by repeat constructor. Qed.

Lemma ops0_update s :
  run_ops true false false env0 ops0 (boot (settings0 0) w0) = Some (tt, s) -> c_state (m_ctrl s) = POSLIB_STATE_UPDATE.
Proof.
  intros E. assert (H : (fun x => c_state (m_ctrl x.2)) <$> run_ops true false false env0 ops0 (boot (settings0 0) w0) =
    Some POSLIB_STATE_UPDATE) by (by vm_compute).
  rewrite E in H. by injection H.
Qed.


(** What the examples look at: the state, whether an update is scheduled, its
    time, the delay of its task, and the timeout. *)
Definition view (s : state node) : poslib_state_e * bool * Z * option Z * option Z :=
  (c_state (m_ctrl s), scheduled (m_ctrl s), next_update_s (m_ctrl s),
   delays (world s) trigger_update, delays (world s) timeout).

(** A cycle: the update planned for 1059 ends when its message is sent, and the
    next one is a period later, although the time is 1064 by then. *)
Lemma a_cycle :
  view <$> after ops0 w0 = Some (POSLIB_STATE_UPDATE, true, 1059, None, Some TIMEOUT_SCAN_MS) /\
  view <$> after (ops0 ++ [op_event POSLIB_CTRL_EVENT_SCAN_END]) w0 = Some (POSLIB_STATE_IDLE, true, 1119, Some 55000, None).
Proof. split; by vm_compute. Qed.

(** A timeout ends the update of a tag that waits for its message to be sent. *)
Lemma a_timeout :
  view <$> after (ops0 ++ [op_task timeout]) w0 = Some (POSLIB_STATE_IDLE, true, 1119, Some 55000, None).
Proof. by vm_compute. Qed.

(** A stopped library that is started again schedules no update: the mark of the
    old schedule is still there, and its time is not later than the new one. *)
Lemma restart_schedules_nothing :
  view <$> after (ops0 ++ [op_event POSLIB_CTRL_EVENT_SCAN_END; op_stopPeriodic; op_startPeriodic; op_task delayed]) w0 =
    Some (POSLIB_STATE_IDLE, true, 1119, None, None).
Proof. by vm_compute. Qed.

(** After a stop a single update is asked for in the state STOPPED, which ignores its scan. *)
Lemma oneshot_after_stop :
  let os := ops0 ++ [op_event POSLIB_CTRL_EVENT_SCAN_END; op_stopPeriodic; op_startOneshot; op_event POSLIB_CTRL_EVENT_ONESHOT] in
  view <$> after os w0 = Some (POSLIB_STATE_STOPPED, true, 1064, Some 0, None) /\
  view <$> after (os ++ [op_task trigger_update; op_event POSLIB_CTRL_EVENT_SCAN_STARTED; op_event POSLIB_CTRL_EVENT_SCAN_END]) w0 =
    Some (POSLIB_STATE_STOPPED, true, 1064, None, None).
Proof. split; by vm_compute. Qed.

(** A single update of a library that was never started goes on periodically. *)
Lemma oneshot_is_periodic :
  view <$> after [op_setConfig (settings0 POSLIB_MODE_AUTOSCAN_TAG); op_startOneshot; op_event POSLIB_CTRL_EVENT_ONESHOT;
    op_task trigger_update; op_event POSLIB_CTRL_EVENT_SCAN_STARTED; op_event POSLIB_CTRL_EVENT_SCAN_END] w0 =
    Some (POSLIB_STATE_IDLE, true, 1060, Some 60000, None).
Proof. by vm_compute. Qed.

(** When the scan does not start no event comes, and nothing is scheduled. *)
Lemma refused_scan_stalls :
  view <$> after [op_setConfig (settings0 POSLIB_MODE_AUTOSCAN_TAG); op_startPeriodic; op_task delayed; op_task trigger_update] w0 =
    Some (POSLIB_STATE_IDLE, true, 1059, None, None).
Proof. by vm_compute. Qed.

(** An update that ends before its planned time - here another scan starts it at
    1005 - takes the wrap-around of the negative time into the remainder: the
    next update is at 1043, and neither at 1059 nor at 1119. *)
Lemma early_update_leaves_grid :
  view <$> after [op_setConfig (settings0 POSLIB_MODE_AUTOSCAN_TAG); op_startPeriodic; op_task delayed;
    op_event POSLIB_CTRL_EVENT_SCAN_STARTED; op_event POSLIB_CTRL_EVENT_SCAN_END] w0 =
    Some (POSLIB_STATE_IDLE, true, 1043, Some 38000, None).
Proof. by vm_compute. Qed.

(** A configuration of 80 bytes, of which the last command is cut off, is read behind the buffer. *)
Definition full_config : list Z :=
  [POSLIB_CLASS_DEFAULT; 78] ++ concat (repeat [78; 1; 0] 24) ++ [47; 1; 47; 2] ++ [65; 60].

Lemma full_config_read_outside :
  List.length full_config = APP_LIB_DATA_MAX_APP_CONFIG_NUM_BYTES /\
  after [op_setConfig (settings0 POSLIB_MODE_AUTOSCAN_TAG); op_startPeriodic; op_setAppConfig full_config;
    op_event POSLIB_CTRL_EVENT_APPCFG] w0 = None.
Proof. split; by vm_compute. Qed.

(** Routing sets the flag of the mini-beacons, mini-beacons do not. *)
Lemma wrong_mbcn_flag :
  let c := settings0 POSLIB_MODE_AUTOSCAN_ANCHOR in
  let mb := {| mb_enabled := true; mb_tx_interval_ms := 1000; mb_records := [] |} in
  let with_mb routing := {| node_mode := node_mode c; node_class := node_class c;
    update_period_static_s := update_period_static_s c; update_period_dynamic_s := 0; update_period_offline_s := 0;
    ble := ble c; motion := motion c; mbcn := mb; da := {| routing_enabled := routing; follow_network := false |} |} in
  let features c := (fun x => PosMeasurement.features x.1) <$> get_node_info env0 (set_settings c (boot c w0)) in
  features (with_mb false) = Some 1 /\ features (with_mb true) = Some 0x101.
Proof. split; by vm_compute. Qed.

End Examples.
