(* ===== verification/PosDa.v ===== *)
(** * Directed advertisers of the positioning library

    [libraries/positioning/poslib/poslib_da.c]: a tag that is a directed
    advertiser sends its packets to the best of its neighbours that accepts them;
    an anchor passes on what it receives from tags, with the address of the tag,
    and answers with the app config, which the tag takes.

    [lib_state->getNbors] fills the static table, which is here the list of the
    entries in use; [qsort] is an argument, about which it is only assumed that it
    permutes the table: the comparison of the code is not an order (see the
    examples). *)

From S2P Require Import Prelude Api PosMbcn PosMeasurement PosDecode PosControl.

Definition POSLIB_DA_SRC_EP : Z := POS_SOURCE_ENDPOINT.
Definition POSLIB_DA_DEST_EP : Z := POS_DESTINATION_ENDPOINT.
Definition POSLIB_MEAS_DA : Z := 0x07.

(** [api/wms_advertiser.h], [api/wms_state.h], [api/wms_data.h] *)
Definition DIRADV_EP_SRC_ACK : Z := 249.
Definition DIRADV_EP_DEST : Z := 248.
Definition APP_LIB_STATE_DIRADV_SUPPORTED : Z := 0.
Definition APP_LIB_STATE_DIRADV_NOT_SUPPORTED : Z := 1.
Definition APP_LIB_STATE_DIRADV_UNKNOWN : Z := 2.
Definition APP_LIB_STATE_INVALID_ROUTE_COST : Z := 255.
Definition APP_LIB_STATE_COST_UNKNOWN : Z := 0.
Definition APP_LIB_DATA_SEND_RES_INVALID_DEST_ADDRESS : Z := 5.

Definition MAX_NBORS : nat := 20.
Definition NBOR_LAST_SEEN_WINDOW : Z := 2.

Definition IS_DA_ROUTER (x : Z) : bool := x =? APP_LIB_STATE_DIRADV_SUPPORTED.
Definition IS_UNKNOWN_DA_ROUTER (x : Z) : bool := x =? APP_LIB_STATE_DIRADV_UNKNOWN.
Definition IS_NOT_DA_ROUTER (x : Z) : bool := x =? APP_LIB_STATE_DIRADV_NOT_SUPPORTED.
Definition ROUTER_COST_INVALID (x : Z) : bool := (x =? APP_LIB_STATE_INVALID_ROUTE_COST) || (x =? APP_LIB_STATE_COST_UNKNOWN).

(** The fields of [app_lib_state_nbor_info_t] that the module reads. *)
Record nbor_t := { address : Z; last_update : Z; norm_rssi : Z; cost : Z; diradv_support : Z }.

(** The two filters. *)
Inductive da_item := router_pos_item | tag_ack_item.

Record ack_gen_input_t := { in_src_endpoint : Z; in_dest_endpoint : Z }.

(** A result that the code returns without setting it is [None]. *)
Definition unset : option bool := None.

(** A comparison below zero puts [a] first. *)
Definition compare_neighbours (a b : nbor_t) : Z :=
  let x := diradv_support a in
  let y := diradv_support b in
  if (IS_DA_ROUTER x && IS_DA_ROUTER y) || (IS_UNKNOWN_DA_ROUTER x && IS_UNKNOWN_DA_ROUTER y) then
    let dt := last_update a - last_update b in
    if NBOR_LAST_SEEN_WINDOW <? Z.abs dt then dt else norm_rssi b - norm_rssi a
  else if IS_DA_ROUTER x || (IS_UNKNOWN_DA_ROUTER x && IS_NOT_DA_ROUTER y) then -1
  else if IS_DA_ROUTER y || (IS_UNKNOWN_DA_ROUTER y && IS_NOT_DA_ROUTER x) then 1
  else 0.

Section Da.
Context {W : Type} (qsort : (nbor_t -> nbor_t -> Z) -> list nbor_t -> list nbor_t).

Record state := {
  m_router_cb : bool;
  m_tag_cb : bool;
  m_sequence : Z;
  m_nbors : list nbor_t;
  world : W }.

(** The stack, [Shared_Data] and [PosLibCtrl].  The application config is the
    buffer and its length.  [setRouterAckGenCb] is told whether the callback is set. *)
Record env := {
  getNodeRole : W -> Z;
  getNbors : nat -> W -> list nbor_t * W;
  sendData : app_lib_data_to_send_t -> bool -> W -> Z * W;
  addDataReceivedCb : da_item -> W -> bool * W;
  removeDataReceivedCb : da_item -> W -> W;
  setRouterAckGenCb : bool -> W -> W;
  setOptions : bool -> W -> W;
  getAppConfig : W -> list Z * Z;
  setAppConfig : list Z -> Z -> W -> W }.

Abbreviation M := (st state).

Definition set_cbs (r t : bool) (s : state) : state :=
  {| m_router_cb := r; m_tag_cb := t; m_sequence := m_sequence s; m_nbors := m_nbors s; world := world s |}.
Definition set_sequence (v : Z) (s : state) : state :=
  {| m_router_cb := m_router_cb s; m_tag_cb := m_tag_cb s; m_sequence := v; m_nbors := m_nbors s; world := world s |}.
Definition set_nbors (l : list nbor_t) (s : state) : state :=
  {| m_router_cb := m_router_cb s; m_tag_cb := m_tag_cb s; m_sequence := m_sequence s; m_nbors := l; world := world s |}.
Definition set_world (w : W) (s : state) : state :=
  {| m_router_cb := m_router_cb s; m_tag_cb := m_tag_cb s; m_sequence := m_sequence s; m_nbors := m_nbors s; world := w |}.

Definition set_router (b : bool) (s : state) : state := set_cbs b (m_tag_cb s) s.
Definition set_tag (b : bool) (s : state) : state := set_cbs (m_router_cb s) b s.

Definition calls {A} (f : W -> A * W) : M A := fun s => ((f (world s)).1, set_world (f (world s)).2 s).
Definition runs_call (f : W -> W) : M unit := modify (fun s => set_world (f (world s)) s).

(** ** Routers *)

(** The header of a message, and that of the record. *)
Definition da_header (sequence src num_bytes : Z) : list Z :=
  le_put 2 sequence ++ [POSLIB_MEAS_DA; u8 (num_bytes + 4)] ++ le_put 4 src.

(** [sizeof] of the two headers. *)
Definition HEADER_SIZE : Z := 8.

Definition da_packet (bytes : list Z) (num_bytes delay : Z) : app_lib_data_to_send_t :=
  {| to_bytes := bytes; to_num_bytes := num_bytes; to_dest_address := APP_ADDR_ANYSINK;
     to_delay := delay; to_tracking_id := 0; to_qos := APP_LIB_DATA_QOS_NORMAL; to_flags := APP_LIB_DATA_SEND_FLAG_NONE;
     to_src_endpoint := POS_SOURCE_ENDPOINT; to_dest_endpoint := POS_DESTINATION_ENDPOINT; to_hop_limit := 0;
     to_fragment_info := {| packet_id := 0; fragment_offset := 0; last_fragment := false |} |}.

(** The endpoints are those of the filter of the item; [mac_src] is the field
    [mac_src_address] of the data, the node that the packet was received from. *)
Definition router_pos_data_cb (E : env) (src_endpoint dest_endpoint mac_src : Z) (data : app_lib_data_received_t) : M Z :=
  if negb (src_endpoint =? POSLIB_DA_SRC_EP) && negb (dest_endpoint =? POSLIB_DA_DEST_EP)
  then mret APP_LIB_DATA_RECEIVE_RES_HANDLED
  else if rx_num_bytes data =? 0 then mret APP_LIB_DATA_RECEIVE_RES_HANDLED
  else
    seq ← gets m_sequence;
    _ ← modify (set_sequence (u16 (seq + 1)));
    if rx_num_bytes data <=? MAX_PAYLOAD_LEN - HEADER_SIZE then
      let bytes := da_header seq mac_src (rx_num_bytes data) ++ take (Z.to_nat (rx_num_bytes data)) (rx_bytes data) in
      _ ← calls (sendData E (da_packet bytes (HEADER_SIZE + rx_num_bytes data) (rx_delay data)) false);
      mret APP_LIB_DATA_RECEIVE_RES_HANDLED
    else mret APP_LIB_DATA_RECEIVE_RES_HANDLED.

(** The result, the data ([None] is [NULL]) and the length. *)
Definition router_ack_cb (E : env) (i : ack_gen_input_t) : M (bool * option (list Z) * Z) :=
  if (in_src_endpoint i =? POS_SOURCE_ENDPOINT) && (in_dest_endpoint i =? POS_DESTINATION_ENDPOINT) then
    cfg ← gets (fun s => getAppConfig E (world s));
    mret (true, Some cfg.1, cfg.2)
  else mret (true, None, 0).

Definition start_router (E : env) : M bool :=
  role ← gets (fun s => getNodeRole E (world s));
  if negb (role =? APP_LIB_SETTINGS_ROLE_HEADNODE_LL) then mret false
  else
    _ ← runs_call (setRouterAckGenCb E true);
    _ ← modify (set_router true);
    ok ← calls (addDataReceivedCb E router_pos_item);
    if negb ok then _ ← modify (set_router false); mret false else mret true.

Definition stop_router (E : env) : M unit :=
  _ ← runs_call (setRouterAckGenCb E false);
  on ← gets m_router_cb;
  if (on : bool) then
    _ ← runs_call (removeDataReceivedCb E router_pos_item);
    modify (set_router false)
  else mret tt.

(** ** Tags *)

Definition tag_ack_cb (E : env) (src_endpoint dest_endpoint : Z) (data : app_lib_data_received_t) : M Z :=
  _ ← (if (src_endpoint =? DIRADV_EP_SRC_ACK) && (dest_endpoint =? DIRADV_EP_DEST) then
         if 0 <? rx_num_bytes data then runs_call (setAppConfig E (rx_bytes data) (u8 (rx_num_bytes data))) else mret tt
       else mret tt);
  mret APP_LIB_DATA_RECEIVE_RES_HANDLED.

Definition start_tag (E : env) (settings : poslib_da_settings_t) : M (option bool) :=
  _ ← runs_call (setOptions E (follow_network settings));
  _ ← modify (set_tag true);
  ok ← calls (addDataReceivedCb E tag_ack_item);
  if (ok : bool) then mret unset
  else _ ← modify (set_tag false); mret (Some false).

Definition stop_tag (E : env) : M unit :=
  on ← gets m_tag_cb;
  if (on : bool) then runs_call (removeDataReceivedCb E tag_ack_item) else mret tt.

(** ** The module *)

Definition PosLibDa_stop (E : env) : M unit :=
  _ ← stop_router E;
  stop_tag E.

Definition PosLibDa_start (E : env) (settings : poslib_settings_t) : M (option bool) :=
  if node_mode settings =? POSLIB_MODE_DA_TAG then
    _ ← stop_router E;
    start_tag E (da settings)
  else if (node_mode settings =? POSLIB_MODE_AUTOSCAN_ANCHOR) || (node_mode settings =? POSLIB_MODE_OPPORTUNISTIC_ANCHOR) then
    if routing_enabled (da settings) then
      _ ← stop_tag E;
      ok ← start_router E;
      mret (Some ok)
    else mret (Some true)
  else mret (Some true).

Definition update_neigbours (E : env) : M unit :=
  nbors ← calls (getNbors E MAX_NBORS);
  modify (set_nbors (qsort compare_neighbours nbors)).

Definition with_dest (a : Z) (d : app_lib_data_to_send_t) : app_lib_data_to_send_t :=
  {| to_bytes := to_bytes d; to_num_bytes := to_num_bytes d; to_dest_address := a; to_delay := to_delay d;
     to_tracking_id := to_tracking_id d; to_qos := to_qos d; to_flags := to_flags d;
     to_src_endpoint := to_src_endpoint d; to_dest_endpoint := to_dest_endpoint d; to_hop_limit := to_hop_limit d;
     to_fragment_info := to_fragment_info d |}.

(** The loop over the table; the caller's packet keeps the last address. *)
Fixpoint send_loop (E : env) (nbors : list nbor_t) (data : app_lib_data_to_send_t) (res : Z) : M (Z * app_lib_data_to_send_t) :=
  match nbors with
  | [] => mret (res, data)
  | x :: nbors =>
      if ROUTER_COST_INVALID (cost x) then send_loop E nbors data res
      else
        let data := with_dest (address x) data in
        res ← calls (sendData E data true);
        if negb (res =? APP_LIB_DATA_SEND_RES_INVALID_DEST_ADDRESS) then mret (res, data)
        else send_loop E nbors data res
  end.

(** The packet is sent with the caller's callback. *)
Definition PosLibDa_sendData (E : env) (data : app_lib_data_to_send_t) : M (Z * app_lib_data_to_send_t) :=
  role ← gets (fun s => getNodeRole E (world s));
  if negb (role =? APP_LIB_SETTINGS_ROLE_ADVERTISER) || negb (to_dest_address data =? APP_ADDR_ANYSINK) then
    res ← calls (sendData E data true);
    mret (res, data)
  else
    _ ← update_neigbours E;
    nbors ← gets m_nbors;
    send_loop E nbors data APP_LIB_DATA_SEND_RES_INVALID_DEST_ADDRESS.

(** * Properties *)

(** ** The packets of a tag *)

(** The neighbours that have a route. *)
Definition usable (l : list nbor_t) : list nbor_t := filter (fun x => ROUTER_COST_INVALID (cost x) = false) l.

(** All of [l] are offered the packet and refuse the address. *)
Fixpoint refused (E : env) (d : app_lib_data_to_send_t) (l : list nbor_t) (w : W) : option W :=
  match l with
  | [] => Some w
  | x :: l =>
      let '(res, w) := sendData E (with_dest (address x) d) true w in
      if res =? APP_LIB_DATA_SEND_RES_INVALID_DEST_ADDRESS then refused E d l w else None
  end.

(** The packet was taken by the first usable neighbour that does not refuse it. *)
Record taken (E : env) (d : app_lib_data_to_send_t) (l : list nbor_t) (w : W) (res : Z) (d' : app_lib_data_to_send_t) (w' : W) : Prop := {
  tk_taken : exists pre x post w1, l = pre ++ x :: post /\ refused E d pre w = Some w1 /\
    d' = with_dest (address x) d /\ sendData E d' true w1 = (res, w');
  tk_res : res <> APP_LIB_DATA_SEND_RES_INVALID_DEST_ADDRESS }.

Lemma with_dest_twice a b d : with_dest a (with_dest b d) = with_dest a d.
Proof. done. Qed.

Lemma refused_ext E d d' l w : (forall a, with_dest a d' = with_dest a d) -> refused E d' l w = refused E d l w.
Proof.
  intros Hd. revert w. induction l as [|x l IH]; intros w; [done|]. cbn [refused]. rewrite Hd.
  destruct (sendData _ _ _ _) as [res w']. destruct (_ =? _); [apply IH|done].
Qed.

Lemma send_loop_spec E l d s :
  let '((res, d'), s') := send_loop E l d APP_LIB_DATA_SEND_RES_INVALID_DEST_ADDRESS s in
  m_nbors s' = m_nbors s /\
  (taken E d (usable l) (world s) res d' (world s') \/
   res = APP_LIB_DATA_SEND_RES_INVALID_DEST_ADDRESS /\ refused E d (usable l) (world s) = Some (world s')).
Proof.
  revert d s. induction l as [|x l IH]; intros d s; cbn [send_loop].
  { split; [done|]. by right. }
  unfold usable. rewrite filter_cons. fold (usable l).
  destruct (ROUTER_COST_INVALID (cost x)) eqn:Hx.
  { rewrite decide_False by done. apply IH. }
  rewrite decide_True by done. rewrite bindE. cbn [calls fst snd refused].
  destruct (sendData E (with_dest (address x) d) true (world s)) as [res w] eqn:Es. cbn [fst snd].
  destruct (Z.eqb_spec res APP_LIB_DATA_SEND_RES_INVALID_DEST_ADDRESS) as [->|Hne]; cbn [negb].
  - specialize (IH (with_dest (address x) d) (set_world w s)).
    destruct (send_loop _ _ _ _ _) as [[res d'] s']. destruct IH as [Hn Hr]. split; [done|].
    cbn [world set_world] in Hr. rewrite (refused_ext E d) in Hr by done.
    destruct Hr as [[(pre & y & post & w1 & -> & Hp & -> & Hs) Hne]|[-> Hr]]; [left|by right].
    split; [|done]. exists (x :: pre), y, post, w1. split; [done|]. rewrite (refused_ext E d) in Hp by done.
    split; [|done]. cbn [refused]. by rewrite Es.
  - split; [done|]. left. split; [|done]. exists [], x, (usable l), (world s). by rewrite Es.
Qed.


(** ** The messages of a router *)

(** What is read from a forwarded message: the sequence, the tag and its message. *)
Definition read_da (bs : list Z) : option (Z * Z * list Z) :=
  if (8 <=? List.length bs)%nat && (field 2 1 bs =? POSLIB_MEAS_DA) && (field 3 1 bs =? Z.of_nat (List.length bs) - 4)
  then Some (field 0 2 bs, field 4 4 bs, drop 8 bs) else None.

Lemma read_da_header seq src bs :
  is_u16 seq -> is_u32 src -> (List.length bs <= 94)%nat ->
  read_da (da_header seq src (Z.of_nat (List.length bs)) ++ bs) = Some (seq, src, bs).
Proof.
  intros Hs Ha Hl. unfold read_da, da_header, field.
  set (n := u8 (Z.of_nat (List.length bs) + 4)).
  assert (Hn : n = Z.of_nat (List.length bs) + 4) by (subst n; apply uwrap_small; unfold fits; lia).
  change ((le_put 2 seq ++ [POSLIB_MEAS_DA; n] ++ le_put 4 src) ++ bs)
    with (le_put 2 seq ++ [POSLIB_MEAS_DA] ++ [n] ++ le_put 4 src ++ bs).
  set (l := le_put 2 seq ++ _).
  change (slice 2 1 l) with [POSLIB_MEAS_DA]. change (slice 3 1 l) with [n]. change (slice 0 2 l) with (le_put 2 seq).
  change (slice 4 4 l) with (le_put 4 src). change (drop 8 l) with bs.
  change (List.length l) with (8 + List.length bs)%nat. cbn [le_get]. rewrite !Z.mul_0_r, !Z.add_0_r, !le_get_put.
  rewrite !uwrap_small by done. rewrite (proj2 (Nat.leb_le 8 _)) by lia.
  rewrite Z.eqb_refl, (proj2 (Z.eqb_eq n _)) by lia. done.
Qed.

(** What a tag sends comes to the sink with its address, in one packet that fits;
    a message that does not fit is dropped and takes a sequence number. *)
Lemma da_forwarded (E : env) mac_src data s :
  rx_num_bytes data = Z.of_nat (List.length (rx_bytes data)) -> rx_bytes data <> [] ->
  is_u32 mac_src -> is_u16 (m_sequence s) ->
  let '(res, s') := router_pos_data_cb E POSLIB_DA_SRC_EP POSLIB_DA_DEST_EP mac_src data s in
  res = APP_LIB_DATA_RECEIVE_RES_HANDLED /\ m_sequence s' = u16 (m_sequence s + 1) /\
  if (List.length (rx_bytes data) <=? 94)%nat then
    exists frame, world s' = (sendData E frame false (world s)).2 /\
      to_num_bytes frame = Z.of_nat (List.length (to_bytes frame)) /\ to_num_bytes frame <= MAX_PAYLOAD_LEN /\
      to_delay frame = rx_delay data /\
      read_da (to_bytes frame) = Some (m_sequence s, mac_src, rx_bytes data)
  else world s' = world s.
Proof.
  intros Hn Hne Ha Hs. unfold router_pos_data_cb. cbn [negb andb Z.eqb]. rewrite Hn.
  change (negb (POSLIB_DA_SRC_EP =? POSLIB_DA_SRC_EP)) with false. cbn [andb].
  destruct (Z.eqb_spec (Z.of_nat (List.length (rx_bytes data))) 0) as [H0|_].
  { destruct (rx_bytes data); [done|cbn in H0; lia]. }
  rewrite bindE, bindE. cbn [gets modify fst snd].
  unfold MAX_PAYLOAD_LEN, HEADER_SIZE.
  destruct (Z.leb_spec (Z.of_nat (List.length (rx_bytes data))) (102 - 8)), (Nat.leb_spec (List.length (rx_bytes data)) 94); try lia;
    [|done].
  rewrite bindE. cbn [calls fst snd mret st_ret]. split; [done|]. split; [done|].
  rewrite Nat2Z.id, firstn_all. eexists. split; [reflexivity|]. cbn [to_num_bytes to_bytes to_delay da_packet].
  split; [rewrite length_app; unfold da_header; rewrite !length_app, !length_le_put; cbn; lia|].
  split; [lia|]. split; [done|]. by apply read_da_header.
Qed.

End Da.

Arguments state : clear implicits.
Arguments env : clear implicits.

(** ** The order of the neighbours *)

(** Routers come before neighbours of which it is not known, and those before the rest. *)
Definition rank (x : nbor_t) : Z :=
  if IS_DA_ROUTER (diradv_support x) then 0 else if IS_UNKNOWN_DA_ROUTER (diradv_support x) then 1 else 2.

Lemma routers_first a b :
  0 <= diradv_support a <= 2 -> 0 <= diradv_support b <= 2 -> compare_neighbours a b < 0 -> rank a <= rank b.
Proof.
  intros Ha Hb. unfold compare_neighbours, rank, IS_DA_ROUTER, IS_UNKNOWN_DA_ROUTER, IS_NOT_DA_ROUTER,
    APP_LIB_STATE_DIRADV_SUPPORTED, APP_LIB_STATE_DIRADV_UNKNOWN, APP_LIB_STATE_DIRADV_NOT_SUPPORTED.
  destruct (Z.eqb_spec (diradv_support a) 0), (Z.eqb_spec (diradv_support a) 2), (Z.eqb_spec (diradv_support a) 1),
    (Z.eqb_spec (diradv_support b) 0), (Z.eqb_spec (diradv_support b) 2), (Z.eqb_spec (diradv_support b) 1);
    cbn; intros; try lia.
Qed.

(** ** Examples *)

Module Examples.

Definition nbor (a seen rssi route support : Z) : nbor_t :=
  {| address := a; last_update := seen; norm_rssi := rssi; cost := route; diradv_support := support |}.

(** Each of three routers is before the next one, and the last before the first. *)
Lemma compare_cycle :
  let a := nbor 1 4 (-60) 1 0 in let b := nbor 2 2 (-70) 1 0 in let c := nbor 3 0 (-80) 1 0 in
  compare_neighbours a b < 0 /\ compare_neighbours b c < 0 /\ compare_neighbours c a < 0.
Proof. by vm_compute. Qed.

(** A sort by insertion. *)
Fixpoint insert (c : nbor_t -> nbor_t -> Z) (x : nbor_t) (l : list nbor_t) : list nbor_t :=
  match l with [] => [x] | y :: l => if c x y <=? 0 then x :: y :: l else y :: insert c x l end.
Definition isort (c : nbor_t -> nbor_t -> Z) (l : list nbor_t) : list nbor_t := foldr (insert c) [] l.

Lemma insert_perm c x l : insert c x l ≡ₚ x :: l.
Proof. induction l as [|y l IH]; cbn [insert]; [done|]. destruct (_ <=? 0); [done|]. rewrite IH. apply Permutation_swap. Qed.

Lemma isort_perm c l : isort c l ≡ₚ l.
Proof. induction l as [|x l IH]; cbn; [done|]. by rewrite insert_perm, IH. Qed.

(** The world is the list of the addresses that packets were sent to. *)
Definition env0 : env (list Z) := {|
  getNodeRole := fun _ => APP_LIB_SETTINGS_ROLE_ADVERTISER;
  getNbors := fun n w => (take n [nbor 10 30 (-50) 4 0; nbor 11 3 (-60) 4 2; nbor 12 5 (-90) 255 0; nbor 13 5 (-70) 9 0], w);
  sendData := fun d _ w => (if to_dest_address d =? 13 then 5 else 0, w ++ [to_dest_address d]);
  addDataReceivedCb := fun _ w => (true, w);
  removeDataReceivedCb := fun _ w => w;
  setRouterAckGenCb := fun _ w => w;
  setOptions := fun _ w => w;
  getAppConfig := fun _ => ([], 0);
  setAppConfig := fun _ _ w => w |}.

Definition s0 : state (list Z) :=
  {| m_router_cb := false; m_tag_cb := false; m_sequence := 65535; m_nbors := []; world := [] |}.

Definition packet : app_lib_data_to_send_t := da_packet [1; 2; 3] 3 0.


(** A packet to another endpoint, or from another one, is taken for that of a tag. *)
Lemma other_endpoint_taken :
  let data := {| rx_bytes := [7]; rx_num_bytes := 1; rx_src_address := 9; rx_delay := 0; rx_qos := 0; rx_src_endpoint := 1;
    rx_dest_endpoint := 238; rx_hops := 1; rx_dest_address := 0; rx_fragment_info := None |} in
  world (router_pos_data_cb env0 1 238 9 data s0).2 = [APP_ADDR_ANYSINK].
Proof. by vm_compute. Qed.

(** The result of a tag that starts is not set; a stopped tag still has its callback. *)
Lemma tag_start_stop :
  let '(res, s) := start_tag env0 {| routing_enabled := false; follow_network := false |} s0 in
  res = unset /\ m_tag_cb (PosLibDa_stop env0 s).2 = true.
Proof. by vm_compute. Qed.

End Examples.
