(* ===== verification/PosBle.v ===== *)
(** * Bluetooth beacons of the positioning library

    [libraries/positioning/poslib/poslib_ble_beacon.c]: an Eddystone and an
    iBeacon beacon with the address of the node, which are on, off, or on while
    the node is outside the network.  The beacons are slots of the shared beacon
    library, whose model ([SharedTables.SharedBeacon]) is used here.  The build
    has [USE_EDYSTONE_UID]. *)

From S2P Require Import Prelude Api SharedTables PosMbcn PosEvent PosDecode PosControl.

Definition MAX_BLE_BEACON_TX_SIZE : nat := 38.
Definition BLE_STACK_WAIT_MS : Z := 15000.
Definition AD_TYPE : Z := 0x42.
Definition TIME_SEC_TO_MSEC (tm : Z) : Z := u32 (tm * 1000).
Definition APP_LIB_SLEEP_STARTED : Z := 1.

(** The bytes of a name. *)
Definition wirepas : list Z := [119; 105; 114; 101; 112; 97; 115].
Definition mesh : list Z := [32; 109; 101; 115; 104].

Abbreviation shared_res := SharedBeacon.shared_beacon_res_e.

(** ** Frames *)

Definition set_common_dataframe (addresses : list Z) : list Z := [AD_TYPE] ++ addresses ++ [0x02; 0x01; 0x04].

(** The last bytes of a number, highest first. *)
Definition be3 (x : Z) : list Z := [u8 (Z.shiftr x 16); u8 (Z.shiftr x 8); u8 x].
Definition be4 (x : Z) : list Z := u8 (Z.shiftr x 24) :: be3 x.

Definition set_eddystone_dataframe (addresses : list Z) (network_address node_address tx_power : Z) : list Z :=
  set_common_dataframe addresses ++
  [0x03; 0x03; 0xaa; 0xfe; 0x17; 0x16; 0xaa; 0xfe; 0x00; u8 tx_power] ++
  wirepas ++ be3 network_address ++ [0; 0] ++ be4 node_address ++ [0; 0].

Definition set_ibeacon_dataframe (addresses : list Z) (network_address tx_power : Z) : list Z :=
  set_common_dataframe addresses ++
  [0x1a; 0xff; 0x4C; 0x00; 0x02; 0x15] ++ wirepas ++ mesh ++ [0] ++ be3 network_address ++
  [0; 0; 0; 0] ++ [u8 tx_power].

Definition set_random_address (node_address : Z) : list Z :=
  [u8 node_address; u8 (Z.shiftr node_address 8); u8 (Z.shiftr node_address 16); u8 (Z.shiftr node_address 24); 0x00; 0xC0].

(** ** The module *)

Section Ble.
Context {W : Type}.

Abbreviation shared := (@SharedBeacon.state W).

Record state := {
  m_addresses : list Z;
  m_eddystone_idx : Z;
  m_ibeacon_idx : Z;
  m_eddystone_enabled : bool;
  m_ibeacon_enabled : bool;
  m_ble_initialised : bool;
  m_ble_settings : ble_beacon_settings_t;
  m_activation_started : bool;
  beacons : shared }.

Record env := {
  tx : @SharedBeacon.env W;
  add_start_task : Z -> W -> W;
  cancel_start_task : W -> W;
  event_add : Z -> W -> W;
  getNetworkAddress : W -> Z;
  getNodeAddress : W -> Z;
  getStackState : W -> Z;
  getSleepState : W -> Z }.

Abbreviation M := (st state).

Definition set_addresses (a : list Z) (s : state) : state :=
  {| m_addresses := a; m_eddystone_idx := m_eddystone_idx s; m_ibeacon_idx := m_ibeacon_idx s;
     m_eddystone_enabled := m_eddystone_enabled s; m_ibeacon_enabled := m_ibeacon_enabled s;
     m_ble_initialised := m_ble_initialised s; m_ble_settings := m_ble_settings s;
     m_activation_started := m_activation_started s; beacons := beacons s |}.
Definition set_eddystone (i : Z) (b : bool) (s : state) : state :=
  {| m_addresses := m_addresses s; m_eddystone_idx := i; m_ibeacon_idx := m_ibeacon_idx s;
     m_eddystone_enabled := b; m_ibeacon_enabled := m_ibeacon_enabled s;
     m_ble_initialised := m_ble_initialised s; m_ble_settings := m_ble_settings s;
     m_activation_started := m_activation_started s; beacons := beacons s |}.
Definition set_ibeacon (i : Z) (b : bool) (s : state) : state :=
  {| m_addresses := m_addresses s; m_eddystone_idx := m_eddystone_idx s; m_ibeacon_idx := i;
     m_eddystone_enabled := m_eddystone_enabled s; m_ibeacon_enabled := b;
     m_ble_initialised := m_ble_initialised s; m_ble_settings := m_ble_settings s;
     m_activation_started := m_activation_started s; beacons := beacons s |}.
Definition set_initialised (b : bool) (s : state) : state :=
  {| m_addresses := m_addresses s; m_eddystone_idx := m_eddystone_idx s; m_ibeacon_idx := m_ibeacon_idx s;
     m_eddystone_enabled := m_eddystone_enabled s; m_ibeacon_enabled := m_ibeacon_enabled s;
     m_ble_initialised := b; m_ble_settings := m_ble_settings s;
     m_activation_started := m_activation_started s; beacons := beacons s |}.
Definition set_settings (c : ble_beacon_settings_t) (s : state) : state :=
  {| m_addresses := m_addresses s; m_eddystone_idx := m_eddystone_idx s; m_ibeacon_idx := m_ibeacon_idx s;
     m_eddystone_enabled := m_eddystone_enabled s; m_ibeacon_enabled := m_ibeacon_enabled s;
     m_ble_initialised := m_ble_initialised s; m_ble_settings := c;
     m_activation_started := m_activation_started s; beacons := beacons s |}.
Definition set_activation_started (b : bool) (s : state) : state :=
  {| m_addresses := m_addresses s; m_eddystone_idx := m_eddystone_idx s; m_ibeacon_idx := m_ibeacon_idx s;
     m_eddystone_enabled := m_eddystone_enabled s; m_ibeacon_enabled := m_ibeacon_enabled s;
     m_ble_initialised := m_ble_initialised s; m_ble_settings := m_ble_settings s;
     m_activation_started := b; beacons := beacons s |}.
Definition set_beacons (b : shared) (s : state) : state :=
  {| m_addresses := m_addresses s; m_eddystone_idx := m_eddystone_idx s; m_ibeacon_idx := m_ibeacon_idx s;
     m_eddystone_enabled := m_eddystone_enabled s; m_ibeacon_enabled := m_ibeacon_enabled s;
     m_ble_initialised := m_ble_initialised s; m_ble_settings := m_ble_settings s;
     m_activation_started := m_activation_started s; beacons := b |}.

Definition world (s : state) : W := SharedBeacon.world (beacons s).

Definition on_world (f : W -> W) : M unit :=
  modify (fun s => set_beacons (SharedBeacon.set_world (f (world s)) (beacons s)) s).

Definition on_shared {A} (m : st shared A) : M A := zoom beacons set_beacons m.

(** A beacon of the module: its slot and its flag. *)
Record slot_t := {
  idx : state -> Z;
  enabled : state -> bool;
  put : Z -> bool -> state -> state;
  dataframe : env -> poslib_ble_mode_config_t -> state -> list Z }.

Definition eddystone_slot : slot_t := {|
  idx := m_eddystone_idx; enabled := m_eddystone_enabled; put := set_eddystone;
  dataframe E c s := set_eddystone_dataframe (m_addresses s) (getNetworkAddress E (world s)) (getNodeAddress E (world s)) (tx_power c) |}.

Definition ibeacon_slot : slot_t := {|
  idx := m_ibeacon_idx; enabled := m_ibeacon_enabled; put := set_ibeacon;
  dataframe E c s := set_ibeacon_dataframe (m_addresses s) (getNetworkAddress E (world s)) (tx_power c) |}.

(** Stop the beacon of a slot that is enabled. *)
Definition stop_slot (E : env) (k : slot_t) : M shared_res :=
  i ← gets (idx k);
  res ← on_shared (SharedBeacon.Shared_Beacon_stopBeacon (tx E) i);
  _ ← modify (put k i false);
  mret res.

(** The body of [start_beacon] for a type: the frame, the old beacon, the new one.
    The index is written when the beacon starts. *)
Definition start_slot (E : env) (k : slot_t) (c : poslib_ble_mode_config_t) : M (bool * Z) :=
  frame ← gets (dataframe k E c);
  on ← gets (enabled k);
  _ ← (if (on : bool) then _ ← stop_slot E k; mret tt else mret tt);
  '(res, n) ← on_shared (SharedBeacon.Shared_Beacon_startBeacon (tx E) (tx_interval_ms c) (tx_power c) (channels c)
                           (blit 0 frame (repeat 0 MAX_BLE_BEACON_TX_SIZE)));
  i ← gets (idx k);
  mret (match res with SharedBeacon.SHARED_BEACON_RES_OK => true | _ => false end,
        match n with Some n => Z.of_nat n | None => i end).

Definition start_beacon (E : env) (k : slot_t) (c : poslib_ble_mode_config_t) : M bool :=
  _ ← modify (fun s => set_addresses (set_random_address (getNodeAddress E (world s))) s);
  '(ok, i) ← start_slot E k c;
  _ ← modify (put k i ok);
  mret ok.

Definition start_beacons (E : env) (c : ble_beacon_settings_t) : M unit :=
  e ← (if (ble_type c =? POSLIB_BEACON_ALL) || (ble_type c =? POSLIB_EDDYSTONE)
       then start_beacon E eddystone_slot (eddystone c) else mret false);
  i ← (if (ble_type c =? POSLIB_BEACON_ALL) || (ble_type c =? POSLIB_IBEACON)
       then start_beacon E ibeacon_slot (ibeacon c) else mret false);
  if e || i then on_world (event_add E POSLIB_CTRL_EVENT_BLE_START) else mret tt.

Definition start_beacons_task (E : env) : M Z :=
  ini ← gets m_ble_initialised;
  if (ini : bool) then
    up ← gets (fun s => (getStackState E (world s) =? APP_LIB_STATE_STARTED) || (getSleepState E (world s) =? APP_LIB_SLEEP_STARTED));
    if (up : bool) then
      c ← gets m_ble_settings;
      _ ← start_beacons E c;
      mret APP_SCHEDULER_STOP_TASK
    else mret BLE_STACK_WAIT_MS
  else mret APP_SCHEDULER_STOP_TASK.

Definition stop_if_enabled (E : env) (k : slot_t) : M bool :=
  on ← gets (enabled k);
  if (on : bool) then
    res ← stop_slot E k;
    mret (match res with SharedBeacon.SHARED_BEACON_RES_OK => true | _ => false end)
  else mret true.

Definition stop_beacons (E : env) : M unit :=
  _ ← on_world (cancel_start_task E);
  e ← stop_if_enabled E eddystone_slot;
  i ← stop_if_enabled E ibeacon_slot;
  if e && i then on_world (event_add E POSLIB_CTRL_EVENT_BLE_STOP) else mret tt.

Definition schedule_start (E : env) (delay_ms : Z) : M unit :=
  _ ← on_world (cancel_start_task E);
  on_world (add_start_task E delay_ms).

Definition PosLibBle_start (E : env) (c : ble_beacon_settings_t) : M poslib_ret_e :=
  same ← gets (fun s => m_ble_initialised s && bool_decide (m_ble_settings s = c));
  if (same : bool) then mret POS_RET_OK
  else
    _ ← modify (set_initialised true);
    _ ← modify (set_settings c);
    if ble_mode c =? POSLIB_BLE_OFF then _ ← stop_beacons E; mret POS_RET_OK
    else if ble_mode c =? POSLIB_BLE_ON then _ ← schedule_start E BLE_STACK_WAIT_MS; mret POS_RET_OK
    else if ble_mode c =? POSLIB_BLE_ON_WHEN_OFFLINE then mret POS_RET_OK
    else _ ← modify (set_initialised false); mret POS_RET_INVALID_PARAM.

Definition PosLibBle_stop (E : env) : M unit :=
  _ ← stop_beacons E;
  modify (set_initialised false).

Definition setConnectionStatus (E : env) (wm_coverage : bool) : M unit :=
  off ← gets (fun s => negb (m_ble_initialised s) || negb (ble_mode (m_ble_settings s) =? POSLIB_BLE_ON_WHEN_OFFLINE));
  if (off : bool) then mret tt
  else if wm_coverage then
    _ ← stop_beacons E;
    modify (set_activation_started false)
  else
    started ← gets m_activation_started;
    if (started : bool) then mret tt
    else
      _ ← modify (set_activation_started true);
      delay ← gets (fun s => activation_delay_s (m_ble_settings s));
      schedule_start E (TIME_SEC_TO_MSEC delay).

Definition PosLibBle_getEddystoneStatus : M bool := gets m_eddystone_enabled.
Definition PosLibBle_getiBeaconStatus : M bool := gets m_ibeacon_enabled.

Definition PosLibBle_processEvent (E : env) (type : Z) : M unit :=
  if type =? POSLIB_CTRL_EVENT_OUTSIDE_WM then setConnectionStatus E false
  else if type =? POSLIB_CTRL_EVENT_UNDER_WM then setConnectionStatus E true
  else mret tt.

(** Everything that happens to the module. *)
Inductive op := op_start (c : ble_beacon_settings_t) | op_stop | op_event (type : Z) | op_task.

Definition run_op (E : env) (o : op) : M unit :=
  match o with
  | op_start c => _ ← PosLibBle_start E c; mret tt
  | op_stop => PosLibBle_stop E
  | op_event type => PosLibBle_processEvent E type
  | op_task => _ ← start_beacons_task E; mret tt
  end.

Fixpoint run_ops (E : env) (os : list op) : M unit :=
  match os with
  | [] => mret tt
  | o :: os => _ ← run_op E o; run_ops E os
  end.

(** * Properties *)

(** ** The frames *)

(** What a receiver reads from an Eddystone frame: the address of the sender, the
    network in the name space, the node in the instance, and the power. *)
Definition read_eddystone (f : list Z) : option (Z * Z * Z * Z) :=
  if bool_decide (take 1 f = [AD_TYPE] /\ slice 7 12 f = [2; 1; 4; 3; 3; 0xaa; 0xfe; 0x17; 0x16; 0xaa; 0xfe; 0] /\ slice 20 7 f = wirepas)
  then Some (le_get (slice 1 4 f), le_get (rev (slice 27 3 f)), le_get (rev (slice 32 4 f)), le_get (slice 19 1 f)) else None.

Definition read_ibeacon (f : list Z) : option (Z * Z * Z) :=
  if bool_decide (take 1 f = [AD_TYPE] /\ slice 7 9 f = [2; 1; 4; 0x1a; 0xff; 0x4C; 0; 2; 0x15] /\ slice 16 12 f = wirepas ++ mesh)
  then Some (le_get (slice 1 4 f), le_get (rev (slice 29 3 f)), le_get (slice 36 1 f)) else None.

Lemma shifts4 x : [u8 x; u8 (Z.shiftr x 8); u8 (Z.shiftr x 16); u8 (Z.shiftr x 24)] = le_put 4 x.
Proof. cbn [le_put]. rewrite !Z.shiftr_div_pow2, !Z.div_div by lia. done. Qed.

Lemma shifts3 x : [u8 x; u8 (Z.shiftr x 8); u8 (Z.shiftr x 16)] = le_put 3 x.
Proof. cbn [le_put]. rewrite !Z.shiftr_div_pow2, !Z.div_div by lia. done. Qed.

Lemma eddystone_read node network power :
  is_u32 node -> 0 <= network < 2 ^ 24 ->
  let f := set_eddystone_dataframe (set_random_address node) network node power in
  List.length f = MAX_BLE_BEACON_TX_SIZE /\ read_eddystone f = Some (node, network, node, u8 power).
Proof.
  intros Hn Hw f. split; [done|]. unfold read_eddystone.
  rewrite bool_decide_eq_true_2 by done.
  change (slice 1 4 f) with [u8 node; u8 (Z.shiftr node 8); u8 (Z.shiftr node 16); u8 (Z.shiftr node 24)].
  change (rev (slice 27 3 f)) with [u8 network; u8 (Z.shiftr network 8); u8 (Z.shiftr network 16)].
  change (rev (slice 32 4 f)) with [u8 node; u8 (Z.shiftr node 8); u8 (Z.shiftr node 16); u8 (Z.shiftr node 24)].
  change (slice 19 1 f) with [u8 power]. rewrite shifts4, shifts3, !le_get_put, !uwrap_small by done. cbn [le_get].
  by rewrite Z.mul_0_r, Z.add_0_r.
Qed.

Lemma ibeacon_read node network power :
  is_u32 node -> 0 <= network < 2 ^ 24 ->
  let f := set_ibeacon_dataframe (set_random_address node) network power in
  (List.length f <= MAX_BLE_BEACON_TX_SIZE)%nat /\ read_ibeacon f = Some (node, network, u8 power).
Proof.
  intros Hn Hw f. split; [unfold MAX_BLE_BEACON_TX_SIZE; cbn; lia|]. unfold read_ibeacon.
  rewrite bool_decide_eq_true_2 by done.
  change (slice 1 4 f) with [u8 node; u8 (Z.shiftr node 8); u8 (Z.shiftr node 16); u8 (Z.shiftr node 24)].
  change (rev (slice 29 3 f)) with [u8 network; u8 (Z.shiftr network 8); u8 (Z.shiftr network 16)].
  change (slice 36 1 f) with [u8 power]. rewrite shifts4, shifts3, !le_get_put, !uwrap_small by done. cbn [le_get].
  by rewrite Z.mul_0_r, Z.add_0_r.
Qed.

(** ** The beacons of the module and those of others *)

(** Two different slots. *)
Class Slots (k k' : slot_t) : Prop := {
  idx_put i b s : idx k (put k i b s) = i;
  enabled_put i b s : enabled k (put k i b s) = b;
  idx_other i b s : idx k' (put k i b s) = idx k' s;
  enabled_other i b s : enabled k' (put k i b s) = enabled k' s;
  beacons_put i b s : beacons (put k i b s) = beacons s;
  settings_put i b s : m_ble_settings (put k i b s) = m_ble_settings s;
  idx_beacons b s : idx k (set_beacons b s) = idx k s /\ idx k' (set_beacons b s) = idx k' s;
  enabled_beacons b s : enabled k (set_beacons b s) = enabled k s /\ enabled k' (set_beacons b s) = enabled k' s;
  idx_addresses a s : idx k (set_addresses a s) = idx k s /\ idx k' (set_addresses a s) = idx k' s;
  enabled_addresses a s : enabled k (set_addresses a s) = enabled k s /\ enabled k' (set_addresses a s) = enabled k' s }.

#[local] Instance eddystone_ibeacon : Slots eddystone_slot ibeacon_slot.
Proof. by split. Qed.
#[local] Instance ibeacon_eddystone : Slots ibeacon_slot eddystone_slot.
Proof. by split. Qed.

(** The rest of the node does not give an interval to the stack. *)
Class BleNode (E : env) := {
  asked : W -> Z;
  ble_observes : SharedBeaconProofs.Observes (tx E) asked;
  add_asked d w : asked (add_start_task E d w) = asked w;
  cancel_asked w : asked (cancel_start_task E w) = asked w;
  event_asked t w : asked (event_add E t w) = asked w }.

Section Owned.
Context (E : env) `{!BleNode E}.
#[local] Existing Instance ble_observes.

Abbreviation T s := (SharedBeaconProofs.table (SharedBeacon.m_beacon_index (beacons s))).

Definition holds (k : slot_t) (s : state) (n : nat) : Prop := enabled k s = true /\ Z.to_nat (idx k s) = n.

#[local] Instance holds_dec k s n : Decision (holds k s n).
Proof. unfold holds. apply _. Defined.

(** The slots with those of the module taken out. *)
Definition others (k k' : slot_t) (s : state) (n : nat) : option (option Z) :=
  if decide (holds k s n \/ holds k' s n) then Some None else T s !! n.

Definition intervals_ok (c : ble_beacon_settings_t) : Prop :=
  is_u16 (tx_interval_ms (eddystone c)) /\ is_u16 (tx_interval_ms (ibeacon c)).

(** An enabled slot has a beacon of its own. *)
Record inv (k k' : slot_t) (s : state) : Prop := {
  bl_shared : SharedBeaconProofs.inv asked (beacons s);
  bl_used n : holds k s n -> exists x, T s !! n = Some (Some x);
  bl_used' n : holds k' s n -> exists x, T s !! n = Some (Some x);
  bl_apart n : holds k s n -> ~ holds k' s n;
  bl_idx : is_u8 (idx k s);
  bl_idx' : is_u8 (idx k' s);
  bl_settings : intervals_ok (m_ble_settings s) }.

Lemma inv_sym k k' s : inv k k' s -> inv k' k s.
Proof. intros []. constructor; try done. naive_solver. Qed.

Lemma others_sym k k' s n : others k k' s n = others k' k s n.
Proof. unfold others. apply decide_ext. tauto. Qed.

(** The module may have done that. *)
Record fair (k k' : slot_t) (s s' : state) : Prop := {
  fa_inv : inv k k' s';
  fa_others n : others k k' s' n = others k k' s n }.

Lemma fair_sym k k' s s' : fair k k' s s' -> fair k' k s s'.
Proof. intros [H1 H2]. constructor; [by apply inv_sym|]. intros n. by rewrite others_sym, H2, others_sym. Qed.

Lemma fair_trans k k' s s' s'' : fair k k' s s' -> fair k k' s' s'' -> fair k k' s s''.
Proof. intros [H1 H2] [H1' H2']. constructor; [done|]. intros n. by rewrite H2'. Qed.

(** A part of the state changed on which the slots do not depend. *)
Lemma fair_same k k' s s' :
  SharedBeaconProofs.inv asked (beacons s') -> SharedBeacon.m_beacon_index (beacons s') = SharedBeacon.m_beacon_index (beacons s) ->
  idx k s' = idx k s -> idx k' s' = idx k' s -> enabled k s' = enabled k s -> enabled k' s' = enabled k' s ->
  intervals_ok (m_ble_settings s') -> inv k k' s -> fair k k' s s'.
Proof.
  intros Hs Hb H1 H2 H3 H4 H5 [I1 I2 I3 I4 I5 I6 I7].
  assert (Hh : forall n, holds k s' n <-> holds k s n) by (intros n; unfold holds; by rewrite H1, H3).
  assert (Hh' : forall n, holds k' s' n <-> holds k' s n) by (intros n; unfold holds; by rewrite H2, H4).
  constructor; [|intros n; unfold others; rewrite Hb; apply decide_ext; by rewrite Hh, Hh'].
  constructor; try done; rewrite ?Hb, ?H1, ?H2; try done.
  - intros n. rewrite Hh. apply I2.
  - intros n. rewrite Hh'. apply I3.
  - intros n. rewrite Hh, Hh'. apply I4.
Qed.

Lemma length_T s : SharedBeaconProofs.inv asked (beacons s) -> List.length (T s) = 8%nat.
Proof. intros [_ H _ _]. unfold SharedBeaconProofs.table. by rewrite length_fmap. Qed.

(** The slot [k] of the state [s] gets the table [t], an index and a flag. *)
Lemma slot_set k k' `{!Slots k k'} s b i on :
  inv k k' s -> SharedBeaconProofs.inv asked b -> is_u8 i ->
  let s' := put k i on (set_beacons b s) in
  let n := Z.to_nat i in
  (on = true -> (exists x, SharedBeaconProofs.table (SharedBeacon.m_beacon_index b) !! n = Some (Some x)) /\ ~ holds k' s n) ->
  (forall m, others k k' s m = if decide (on = true /\ m = n \/ holds k' s m) then Some None
                               else SharedBeaconProofs.table (SharedBeacon.m_beacon_index b) !! m) ->
  (forall m, holds k' s m -> exists x, SharedBeaconProofs.table (SharedBeacon.m_beacon_index b) !! m = Some (Some x)) ->
  fair k k' s s' /\ enabled k s' = on /\ idx k s' = i.
Proof.
  intros [I1 I2 I3 I4 I5 I6 I7] Hb Hi s' n Hon Hoth Hk'.
  assert (Hh : forall m, holds k s' m <-> on = true /\ m = n).
  { intros m. unfold holds, s', n. rewrite enabled_put, idx_put. naive_solver. }
  assert (Hh' : forall m, holds k' s' m <-> holds k' s m).
  { intros m. unfold holds, s'. rewrite enabled_other, idx_other.
    by rewrite (proj2 (enabled_beacons _ _)), (proj2 (idx_beacons _ _)). }
  assert (Hbs : beacons s' = b) by (unfold s'; by rewrite beacons_put).
  split; [|split; [apply enabled_put|apply idx_put]]. constructor.
  - constructor; rewrite ?Hbs; try done.
    + intros m [Ho ->]%Hh. by apply Hon.
    + intros m Hm%Hh'. by apply Hk'.
    + intros m [Ho ->]%Hh Hm%Hh'. by apply (Hon Ho).
    + unfold s'. by rewrite idx_put.
    + unfold s'. rewrite idx_other. by rewrite (proj2 (idx_beacons _ _)).
    + unfold s'. by rewrite settings_put.
  - intros m. rewrite Hoth. unfold others. rewrite Hbs. apply decide_ext. by rewrite Hh, Hh'.
Qed.

Lemma stop_slot_fair k k' `{!Slots k k'} s : inv k k' s -> enabled k s = true ->
  let s' := (stop_slot E k s).2 in
  fair k k' s s' /\ enabled k s' = false /\ idx k s' = idx k s.
Proof.
  intros Hs He. unfold stop_slot, on_shared. rewrite bindE. cbn [gets fst snd].
  rewrite bindE, zoomE. cbn [fst snd]. rewrite bindE. cbn [modify fst snd mret st_ret].
  destruct (SharedBeaconProofs.stop_ok (tx E) asked (idx k s) (beacons s) (bl_idx _ _ _ Hs) (bl_shared _ _ _ Hs)) as [Hstep Hinv].
  destruct (SharedBeacon.Shared_Beacon_stopBeacon (tx E) (idx k s) (beacons s)) as [res b']. cbn [fst snd] in *.
  assert (Hk : holds k s (Z.to_nat (idx k s))) by done.
  destruct (bl_used _ _ _ Hs _ Hk) as [x Hx].
  pose proof (lookup_lt_Some _ _ _ Hx) as Hlt.
  assert (HT : SharedBeaconProofs.table (SharedBeacon.m_beacon_index b') = <[Z.to_nat (idx k s) := None]> (T s)).
  { inversion Hstep; subst; try congruence. rewrite length_T in Hlt by apply Hs.
    unfold SharedBeacon.APP_LIB_BEACON_TX_MAX_INDEX in *. pose proof (bl_idx _ _ _ Hs) as [? _]. lia. }
  refine (slot_set k k' s b' (idx k s) false Hs Hinv (bl_idx _ _ _ Hs) _ _ _); [done|..]; rewrite HT.
  - intros m. unfold others. destruct (decide (m = Z.to_nat (idx k s))) as [->|Hne].
    + rewrite decide_True by (by left). rewrite list_lookup_insert_eq by done. by destruct (decide _).
    + rewrite list_lookup_insert_ne by done. apply decide_ext. unfold holds. naive_solver.
  - intros m Hm. rewrite list_lookup_insert_ne; [by apply (bl_used' _ _ _ Hs)|]. intros <-.
    by apply (bl_apart _ _ _ Hs _ Hk).
Qed.

Lemma start_cases U i p m c res n U' :
  SharedBeaconProofs.step U (SharedBeaconProofs.Start i p m c) (SharedBeaconProofs.Started (res, n)) U' ->
  (res <> SharedBeacon.SHARED_BEACON_RES_OK /\ n = None /\ U' = U) \/
  (exists j, res = SharedBeacon.SHARED_BEACON_RES_OK /\ n = Some j /\ U !! j = Some None /\ U' = <[j := Some i]> U).
Proof. inversion 1; subst; [left|left|right]; naive_solver. Qed.

Lemma fair_refl k k' s : inv k k' s -> fair k k' s s.
Proof. by constructor. Qed.

(** The step of [start_beacon] from a slot that is not enabled. *)
Lemma start_step_fair k k' `{!Slots k k'} s interval power mask content :
  inv k k' s -> enabled k s = false -> is_u16 interval ->
  let '((res, n), b) := SharedBeacon.Shared_Beacon_startBeacon (tx E) interval power mask content (beacons s) in
  let ok := match res with SharedBeacon.SHARED_BEACON_RES_OK => true | _ => false end in
  fair k k' s (put k (match n with Some n => Z.of_nat n | None => idx k s end) ok (set_beacons b s)).
Proof.
  intros Hs He Hi.
  destruct (SharedBeaconProofs.start_ok (tx E) asked interval power mask content (beacons s) Hi (bl_shared _ _ _ Hs)) as [Hstep Hinv].
  destruct (SharedBeacon.Shared_Beacon_startBeacon _ _ _ _ _ _) as [[res n] b]. cbn [fst snd] in *.
  pose proof (length_T s (bl_shared _ _ _ Hs)) as Hl.
  assert (Hnot : forall m, ~ holds k s m) by (intros m [? _]; congruence).
  apply start_cases in Hstep as [(Hres & -> & HT)|(j & -> & -> & Hj & HT)]; cbv zeta.
  - replace (match res with SharedBeacon.SHARED_BEACON_RES_OK => true | _ => false end) with false by (by destruct res).
    refine (proj1 (slot_set k k' s b (idx k s) false Hs Hinv (bl_idx _ _ _ Hs) _ _ _)); [done|..]; rewrite HT.
    + intros m. unfold others. apply decide_ext. naive_solver.
    + apply (bl_used' _ _ _ Hs).
  - pose proof (lookup_lt_Some _ _ _ Hj) as Hlt. rewrite Hl in Hlt.
    assert (Hk' : ~ holds k' s j) by (intros [x Hx]%(bl_used' _ _ _ Hs); congruence).
    refine (proj1 (slot_set k k' s b (Z.of_nat j) true Hs Hinv _ _ _ _)); [unfold fits; lia|..]; rewrite ?HT, ?Nat2Z.id.
    + intros _. split; [|done]. rewrite list_lookup_insert_eq by lia. by eexists.
    + intros m. unfold others. destruct (decide (m = j)) as [->|Hne].
      * rewrite decide_False, decide_True by naive_solver. done.
      * rewrite list_lookup_insert_ne by done. apply decide_ext. naive_solver.
    + intros m Hm. rewrite list_lookup_insert_ne by (by intros ->). by apply (bl_used' _ _ _ Hs).
Qed.

Lemma start_beacon_fair k k' `{!Slots k k'} s c :
  inv k k' s -> is_u16 (tx_interval_ms c) -> fair k k' s (start_beacon E k c s).2.
Proof.
  intros Hs Hi. unfold start_beacon. rewrite bindE. cbn [modify fst snd].
  set (s1 := set_addresses _ s).
  assert (H1 : fair k k' s s1).
  { apply fair_same; try done; try apply Hs; first [apply idx_addresses | apply enabled_addresses]. }
  apply (fair_trans _ _ _ _ _ H1). rewrite bindE. unfold start_slot. rewrite bindE. cbn [gets fst snd].
  rewrite bindE. cbn [gets fst snd].
  assert (exists s2, (if enabled k s1 then _ ← stop_slot E k; mret tt else mret tt) s1 = (tt, s2) /\ fair k k' s1 s2 /\ enabled k s2 = false)
    as (s2 & Hstop & H2 & He).
  { destruct (enabled k s1) eqn:He; [|exists s1; split; [done|]; split; [|done]; apply fair_refl, H1].
    destruct (stop_slot_fair k k' s1 (fa_inv _ _ _ _ H1) He) as (Hf & He' & _).
    exists (stop_slot E k s1).2. rewrite bindE. split; [done|]. by split. }
  apply (fair_trans _ _ _ _ _ H2). rewrite bindE, Hstop. cbn [fst snd]. rewrite bindE. unfold on_shared. rewrite zoomE. cbn [fst snd].
  pose proof (start_step_fair k k' s2 (tx_interval_ms c) (tx_power c) (channels c)
    (blit 0 (dataframe k E c s1) (repeat 0 MAX_BLE_BEACON_TX_SIZE)) (fa_inv _ _ _ _ H2) He Hi) as H3.
  destruct (SharedBeacon.Shared_Beacon_startBeacon _ _ _ _ _ _) as [[res n] b]. cbn [fst snd]. rewrite bindE.
  cbn [gets fst snd mret st_ret modify]. by rewrite (proj1 (idx_beacons _ _)).
Qed.

(** ** The operations of the module *)

Abbreviation kept := (fair eddystone_slot ibeacon_slot).
Abbreviation good := (inv eddystone_slot ibeacon_slot).

(** [m] touches the slots of the module only. *)
Definition owns {A} (m : M A) : Prop := forall s, good s -> kept s (m s).2.

Lemma owns_ret {A} (x : A) : owns (mret x).
Proof. intros s Hs. by apply fair_refl. Qed.

Lemma owns_gets {A} (f : state -> A) : owns (gets f).
Proof. intros s Hs. by apply fair_refl. Qed.

Lemma owns_bind {A B} (m : M A) (f : A -> M B) : owns m -> (forall x, owns (f x)) -> owns (x ← m; f x).
Proof.
  intros Hm Hf s Hs. rewrite bindE. pose proof (Hm s Hs) as H.
  apply (fair_trans _ _ _ _ _ H), Hf, (fa_inv _ _ _ _ H).
Qed.

Lemma owns_if {A} (b : bool) (m1 m2 : M A) : owns m1 -> owns m2 -> owns (if b then m1 else m2).
Proof. by destruct b. Qed.

Lemma owns_world f : (forall w, asked (f w) = asked w) -> owns (on_world f).
Proof.
  intros Hf s Hs. apply fair_same; try done; try apply Hs. cbn [on_world modify snd beacons set_beacons].
  by apply (SharedBeaconProofs.inv_keep asked (beacons s) (SharedBeacon.m_beacon_index (beacons s)));
    [apply Hs|..]; rewrite ?Hf.
Qed.

Lemma owns_initialised b : owns (modify (set_initialised b)).
Proof. intros s Hs. apply fair_same; try done; apply Hs. Qed.

Lemma owns_activation b : owns (modify (set_activation_started b)).
Proof. intros s Hs. apply fair_same; try done; apply Hs. Qed.

Lemma owns_settings c : intervals_ok c -> owns (modify (set_settings c)).
Proof. intros Hc s Hs. apply fair_same; try done; apply Hs. Qed.

Lemma owns_event t : owns (on_world (event_add E t)).
Proof. apply owns_world, event_asked. Qed.

Lemma owns_schedule d : owns (schedule_start E d).
Proof. apply owns_bind; [apply owns_world, cancel_asked|intros ?; apply owns_world, add_asked]. Qed.

Lemma owns_start c : intervals_ok c -> owns (start_beacons E c).
Proof.
  intros [He Hi]. unfold start_beacons.
  apply owns_bind; [apply owns_if; [|apply owns_ret]|intros e; apply owns_bind; [apply owns_if; [|apply owns_ret]|intros i]].
  - intros s Hs. by apply start_beacon_fair; [apply _| |].
  - intros s Hs. apply fair_sym, start_beacon_fair; [apply _|by apply inv_sym|done].
  - apply owns_if; [apply owns_event|apply owns_ret].
Qed.

Lemma owns_task : owns (start_beacons_task E).
Proof.
  unfold start_beacons_task. apply owns_bind; [apply owns_gets|intros ini]. apply owns_if; [|apply owns_ret].
  apply owns_bind; [apply owns_gets|intros up]. apply owns_if; [|apply owns_ret].
  intros s Hs. rewrite bindE. cbn [gets fst snd].
  refine (owns_bind _ _ (owns_start _ (bl_settings _ _ _ Hs)) _ s Hs). intros ?. apply owns_ret.
Qed.

(** After it a slot is not enabled. *)
Lemma stop_if_enabled_fair k k' `{!Slots k k'} s : inv k k' s ->
  let s' := (stop_if_enabled E k s).2 in fair k k' s s' /\ enabled k s' = false /\ enabled k' s' = enabled k' s.
Proof.
  intros Hs. unfold stop_if_enabled. rewrite bindE. cbn [gets fst snd].
  destruct (enabled k s) eqn:He; [|split; [by apply fair_refl|done]].
  rewrite bindE. cbn [mret st_ret snd]. destruct (stop_slot_fair k k' s Hs He) as (Hf & He' & _).
  split; [done|]. split; [done|]. unfold stop_slot, on_shared. rewrite bindE. cbn [gets fst snd]. rewrite bindE, zoomE.
  cbn [fst snd]. rewrite bindE. cbn [modify fst snd mret st_ret]. rewrite enabled_other. apply enabled_beacons.
Qed.

Lemma stop_beacons_fair s : good s ->
  let s' := (stop_beacons E s).2 in kept s s' /\ m_eddystone_enabled s' = false /\ m_ibeacon_enabled s' = false.
Proof.
  intros Hs. unfold stop_beacons. rewrite bindE. pose proof (owns_world _ cancel_asked s Hs) as H0.
  set (s0 := (on_world _ s).2) in *. rewrite bindE.
  destruct (stop_if_enabled_fair eddystone_slot ibeacon_slot s0 (fa_inv _ _ _ _ H0)) as (H1 & He & _).
  set (s1 := (stop_if_enabled E eddystone_slot s0).2) in *. rewrite bindE.
  destruct (stop_if_enabled_fair ibeacon_slot eddystone_slot s1 (inv_sym _ _ _ (fa_inv _ _ _ _ H1))) as (H2 & Hi & He').
  apply fair_sym in H2. set (s2 := (stop_if_enabled E ibeacon_slot s1).2) in *. cbn [enabled eddystone_slot ibeacon_slot] in *.
  assert (kept s s2) as H by eauto using fair_trans.
  destruct (_ && _); [|cbn [mret st_ret snd]; split; [done|]; split; [congruence|done]].
  split; [|cbn; split; [congruence|done]]. apply (fair_trans _ _ _ _ _ H), owns_event, (fa_inv _ _ _ _ H).
Qed.

Lemma owns_stop : owns (stop_beacons E).
Proof. intros s Hs. by apply stop_beacons_fair. Qed.

Lemma owns_PosLibBle_start c : intervals_ok c -> owns (PosLibBle_start E c).
Proof.
  intros Hc. unfold PosLibBle_start. apply owns_bind; [apply owns_gets|intros same].
  apply owns_if; [apply owns_ret|]. apply owns_bind; [apply owns_initialised|intros ?].
  apply owns_bind; [by apply owns_settings|intros ?].
  repeat apply owns_if; try apply owns_ret; apply owns_bind;
    eauto using owns_stop, owns_schedule, owns_initialised; intros ?; apply owns_ret.
Qed.

Lemma owns_status b : owns (setConnectionStatus E b).
Proof.
  unfold setConnectionStatus. apply owns_bind; [apply owns_gets|intros off]. apply owns_if; [apply owns_ret|].
  apply owns_if; apply owns_bind; eauto using owns_stop, owns_activation, owns_gets. intros started.
  apply owns_if; [apply owns_ret|]. apply owns_bind; [apply owns_activation|intros ?].
  apply owns_bind; [apply owns_gets|intros d]. apply owns_schedule.
Qed.

Definition op_ok (o : op) : Prop := match o with op_start c => intervals_ok c | _ => True end.

Lemma owns_op o : op_ok o -> owns (run_op E o).
Proof.
  destruct o as [c| |t|]; cbn [op_ok run_op]; intros Ho.
  - apply owns_bind; [by apply owns_PosLibBle_start|intros ?; apply owns_ret].
  - apply owns_bind; [apply owns_stop|intros ?; apply owns_initialised].
  - unfold PosLibBle_processEvent. repeat apply owns_if; auto using owns_status, owns_ret.
  - apply owns_bind; [apply owns_task|intros ?; apply owns_ret].
Qed.

Lemma owns_ops os : Forall op_ok os -> owns (run_ops E os).
Proof. induction 1; [apply owns_ret|]. apply owns_bind; [by apply owns_op|done]. Qed.

(** C13: the module keeps the account of its beacons.  Whatever happens to it
    (starts and stops with other settings, the node entering and leaving the
    network, its task), every beacon it has on is in a slot of the shared library
    of its own, and the slots of other users are what they were; stopped, it
    holds none: every slot is again what it was without the module. *)
Theorem beacons_owned os s : good s -> Forall op_ok os ->
  let s' := (run_ops E os s).2 in
  let z := (PosLibBle_stop E s').2 in
  good s' /\ (forall n, others eddystone_slot ibeacon_slot s' n = others eddystone_slot ibeacon_slot s n) /\
  (forall n, T z !! n = others eddystone_slot ibeacon_slot s n).
Proof.
  intros Hs Hos s' z. pose proof (owns_ops os Hos s Hs) as [H1 H2]. split; [done|]. split; [done|].
  destruct (stop_beacons_fair s' H1) as (H3 & He & Hi).
  assert (beacons z = beacons (stop_beacons E s').2) as Hz by (unfold z, PosLibBle_stop; by rewrite bindE).
  intros n. rewrite Hz, <- H2, <- (fa_others _ _ _ _ H3). unfold others.
  rewrite decide_False; [done|]. unfold holds. cbn. intros [[] | []]; congruence.
Qed.

End Owned.
End Ble.

Arguments state : clear implicits.
Arguments env : clear implicits.

(** * Concrete runs *)

Module Examples.

(** The world: the interval given to the stack, the delay of the start task, the
    events and whether the stack runs. *)
Record node := { interval : Z; plan : option Z; events : list Z; up : bool }.

Definition tx0 : @SharedBeacon.env node :=
  {| SharedBeacon.clearBeacons w := w;
     SharedBeacon.enableBeacons _ w := (APP_RES_OK, w);
     SharedBeacon.setBeaconInterval i w := (APP_RES_OK, {| interval := i; plan := plan w; events := events w; up := up w |});
     SharedBeacon.setBeaconPower _ _ w := (APP_RES_OK, w);
     SharedBeacon.setBeaconChannels _ m w := (if m =? 0 then APP_RES_INVALID_VALUE else APP_RES_OK, w);
     SharedBeacon.setBeaconContents _ _ w := (APP_RES_OK, w) |}.

Definition env0 : env node :=
  {| tx := tx0;
     add_start_task d w := {| interval := interval w; plan := Some d; events := events w; up := up w |};
     cancel_start_task w := {| interval := interval w; plan := None; events := events w; up := up w |};
     event_add t w := {| interval := interval w; plan := plan w; events := events w ++ [t]; up := up w |};
     getNetworkAddress _ := 0x123456;
     getNodeAddress _ := 0x01020304;
     getStackState w := if up w then APP_LIB_STATE_STARTED else 1;
     getSleepState _ := 0 |}.

#[local] Instance ble_node0 : BleNode env0.
Proof. refine {| asked := interval |}; [by split|done..]. Defined.

Definition mode0 (ms : Z) : poslib_ble_mode_config_t := {| tx_power := 8; channels := 7; tx_interval_ms := ms |}.

Definition settings0 (mode type : Z) : ble_beacon_settings_t :=
  {| ble_type := type; ble_mode := mode; eddystone := mode0 250; ibeacon := mode0 1000; activation_delay_s := 60 |}.

Definition used (i : Z) := {| SharedBeacon.interval_ms := i; SharedBeacon.in_use := true |}.
Definition unused := {| SharedBeacon.interval_ms := 0; SharedBeacon.in_use := false |}.

(** Another user of the shared library has the first slot. *)
Definition boot : state node :=
  {| m_addresses := replicate 6 0; m_eddystone_idx := 0; m_ibeacon_idx := 0; m_eddystone_enabled := false;
     m_ibeacon_enabled := false; m_ble_initialised := true;
     m_ble_settings := {| ble_type := 0; ble_mode := 0; eddystone := {| tx_power := 0; channels := 0; tx_interval_ms := 0 |};
       ibeacon := {| tx_power := 0; channels := 0; tx_interval_ms := 0 |}; activation_delay_s := 0 |};
     m_activation_started := false;
     beacons := {| SharedBeacon.m_init_done := true; SharedBeacon.m_beacons_enabled := true;
       SharedBeacon.m_beacon_index := used 500 :: replicate 7 unused;
       SharedBeacon.m_min_interval_used_ms := 500;
       SharedBeacon.world := {| interval := 500; plan := None; events := []; up := true |} |} |}.

(** The slots, the flags, the delay of the start task and the events. *)
Definition view (s : state node) :=
  (take 4 (SharedBeaconProofs.table (SharedBeacon.m_beacon_index (beacons s))),
   (m_eddystone_enabled s, m_ibeacon_enabled s), plan (world s), events (world s)).

Definition after (os : list op) : state node := (run_ops env0 os boot).2.

Lemma boot_good : inv env0 eddystone_slot ibeacon_slot boot.
Proof. constructor; try (by intros n []); try done; by split. Qed.

(** On, with both beacons; off again, the slot of the other user stays. *)
Lemma on_and_off :
  view (after [op_start (settings0 POSLIB_BLE_ON POSLIB_BEACON_ALL); op_task]) =
    ([Some 500; Some 250; Some 1000; None], (true, true), Some BLE_STACK_WAIT_MS, [POSLIB_CTRL_EVENT_BLE_START]) /\
  view (after [op_start (settings0 POSLIB_BLE_ON POSLIB_BEACON_ALL); op_task; op_stop]) =
    ([Some 500; None; None; None], (false, false), None, [POSLIB_CTRL_EVENT_BLE_START; POSLIB_CTRL_EVENT_BLE_STOP]).
Proof. split; by vm_compute. Qed.

Lemma beacons_owned_witness :
  let os := [op_start (settings0 POSLIB_BLE_ON POSLIB_BEACON_ALL); op_task; op_task; op_event POSLIB_CTRL_EVENT_UNDER_WM;
    op_start (settings0 POSLIB_BLE_ON_WHEN_OFFLINE POSLIB_IBEACON); op_event POSLIB_CTRL_EVENT_OUTSIDE_WM; op_task] in
  let s' := (run_ops env0 os boot).2 in
  (m_eddystone_enabled s', m_ibeacon_enabled s') = (true, true) /\
  inv env0 eddystone_slot ibeacon_slot s' /\
  forall n, SharedBeaconProofs.table (SharedBeacon.m_beacon_index (beacons (PosLibBle_stop env0 s').2)) !! n =
    others eddystone_slot ibeacon_slot boot n.
Proof.
  intros os s'. split; [by vm_compute|].
  assert (Hos : Forall op_ok os) by (repeat constructor; cbn; done).
  destruct (beacons_owned env0 os boot boot_good Hos) as (H1 & _ & H3). by split.
Defined.

(** Stopped while its start was planned, the module keeps the mark that it is
    planned: started again with the same settings, it never starts its beacons
    when the node leaves the network, until the node was in the network once. *)
Lemma activation_mark_survives_stop :
  let c := settings0 POSLIB_BLE_ON_WHEN_OFFLINE POSLIB_BEACON_ALL in
  let os := [op_start c; op_event POSLIB_CTRL_EVENT_OUTSIDE_WM; op_stop; op_start c] in
  plan (world (after (take 2 os))) = Some 60000 /\
  plan (world (after (os ++ [op_event POSLIB_CTRL_EVENT_OUTSIDE_WM]))) = None /\
  plan (world (after (os ++ [op_event POSLIB_CTRL_EVENT_UNDER_WM; op_event POSLIB_CTRL_EVENT_OUTSIDE_WM]))) = Some 60000.
Proof. split_and!; by vm_compute. Qed.

(** Beacons that are on stay on, inside the network too, when the settings ask
    for them only outside it. *)
Lemma mode_change_leaves_beacons :
  view (after [op_start (settings0 POSLIB_BLE_ON POSLIB_BEACON_ALL); op_task;
    op_start (settings0 POSLIB_BLE_ON_WHEN_OFFLINE POSLIB_BEACON_ALL)]) =
    ([Some 500; Some 250; Some 1000; None], (true, true), Some BLE_STACK_WAIT_MS, [POSLIB_CTRL_EVENT_BLE_START]).
Proof. by vm_compute. Qed.

(** A beacon of a type that the new settings leave out stays on. *)
Lemma type_change_leaves_beacon :
  view (after [op_start (settings0 POSLIB_BLE_ON POSLIB_BEACON_ALL); op_task;
    op_start (settings0 POSLIB_BLE_ON POSLIB_IBEACON); op_task]) =
    ([Some 500; Some 250; Some 1000; None], (true, true), Some BLE_STACK_WAIT_MS,
     [POSLIB_CTRL_EVENT_BLE_START; POSLIB_CTRL_EVENT_BLE_START]).
Proof. by vm_compute. Qed.

(** Before any start the module counts as initialised: the settings of the
    memory's zeros are taken as started. *)
Lemma first_start_skipped :
  let c := m_ble_settings boot in
  (PosLibBle_start env0 c boot) = (POS_RET_OK, boot).
Proof. by vm_compute. Qed.

End Examples.
