(* ===== verification/ControlNode.v ===== *)
(** * Control node and its router

    [libraries/control_node/control_node.c]: a directed advertiser sends a packet
    to the best router around, and to a second one when the first does not take
    it in time; [control_router.c]: a router forwards the diagnostics of control
    nodes to the sink.

    The functions of the application are arbitrary functions on the state, so
    that they may call the library again.  A scheduled task and the report on a
    packet are calls of the surroundings. *)

From S2P Require Import Prelude Api.

Abbreviation fn := positive.

Definition MAX_PAYLOAD : Z := 102.
Definition NBOR_MAX_TIME_LAST_SEEN : Z := 60.
Definition MIN_DIAG_PERIOD_MS : Z := 30000.
Definition NO_ROUTE_FOUND_ADDRESS : Z := 0.
Definition MAX_NBORS : nat := 10.
Definition INT8_MIN : Z := -128.
Definition CONTROL_DIAG_SRC_EP : Z := 237.
Definition CONTROL_DIAG_DEST_EP : Z := 237.
Definition APP_SCHEDULER_STOP_TASK : Z := u32 (-1).
Definition APP_LIB_SETTINGS_ROLE_ADVERTISER : Z := 4.

Inductive control_node_state_e := CTRL_STATE_UNINIT | CTRL_STATE_IDLE | CTRL_STATE_BUSY.

#[export] Instance control_node_state_dec : EqDecision control_node_state_e.
Proof. solve_decision. Defined.

Inductive control_node_ret_e :=
| CONTROL_RET_OK | CONTROL_RET_ERROR | CONTROL_RET_INVALID_STATE | CONTROL_RET_INVALID_PARAM
| CONTROL_RET_INVALID_ROLE | CONTROL_RET_SEND_ERROR.

#[export] Instance control_node_ret_dec : EqDecision control_node_ret_e.
Proof. solve_decision. Defined.

(** What the library reads of a neighbour; [diradv] is [diradv_support]
    compared with [APP_LIB_STATE_DIRADV_SUPPORTED]. *)
Record nbor_t := { nb_address : Z; nb_norm_rssi : Z; nb_last_update : Z; nb_diradv : bool }.

(** [app_lib_data_sent_status_t], the fields that are read. *)
Record sent_status_t := { sent_dest : Z; sent_success : bool }.

Record send_handle_t := { h_sent : bool; h_ack : bool; h_end : bool; h_address : Z }.

Record control_node_conf_t := { diag_period_ms : Z; packet_ttl_ms : Z; ack_cb : option fn }.

Record diag_info_t := { dg_success : Z; dg_error : Z; dg_send_time_us : Z }.

(** ** The choice of a router *)

(** The two best neighbours so far: (strength, index) for those seen lately and for all. *)
Record best_t := { in_window : Z * nat; any_time : Z * nat }.

Definition best0 : best_t := {| in_window := (INT8_MIN, MAX_NBORS); any_time := (INT8_MIN, MAX_NBORS) |}.

Definition best_step (exclude : Z) (b : best_t) (i : nat) (n : nbor_t) : best_t :=
  if negb (nb_address n =? exclude) && nb_diradv n then
    {| in_window := if (nb_last_update n <? NBOR_MAX_TIME_LAST_SEEN) && ((in_window b).1 <? nb_norm_rssi n)
                    then (nb_norm_rssi n, i) else in_window b;
       any_time := if (any_time b).1 <? nb_norm_rssi n then (nb_norm_rssi n, i) else any_time b |}
  else b.

(** The loop over the neighbours from index [i] on. *)
Fixpoint best_loop (exclude : Z) (i : nat) (l : list nbor_t) (b : best_t) : best_t :=
  match l with
  | [] => b
  | n :: l => best_loop exclude (S i) l (best_step exclude b i n)
  end.

Definition address_at (l : list nbor_t) (i : nat) : Z := from_option nb_address NO_ROUTE_FOUND_ADDRESS (l !! i).

(** [nbors] is what [getNbors] gives, in an array of [MAX_NBORS]. *)
Definition get_da_router_address (nbors : list nbor_t) (exclude : Z) : Z :=
  let b := best_loop exclude 0 nbors best0 in
  if negb ((in_window b).2 =? MAX_NBORS)%nat then address_at nbors (in_window b).2
  else if negb ((any_time b).2 =? MAX_NBORS)%nat then address_at nbors (any_time b).2
  else NO_ROUTE_FOUND_ADDRESS.

(** ** The state *)

Section ControlNode.
Context {W : Type}.

Record state := {
  m_state : control_node_state_e;
  m_send_handle0 : send_handle_t;
  m_send_handle1 : send_handle_t;
  m_data : app_lib_data_to_send_t;
  m_data_buff : list Z;
  m_sent_cb : option fn;
  m_time_sent : Z;
  m_conf : control_node_conf_t;
  m_diag_info : diag_info_t;
  world : W }.

(** A [bool] tells whether a call succeeded. *)
Record env := {
  getNbors : W -> list nbor_t;
  getTimestampCoarse : W -> Z * W;
  getTimestampHp : W -> Z * W;
  getTimeDiffUs : Z -> Z -> W -> Z * W;
  send_packet : app_lib_data_to_send_t -> W -> bool * W;
  send_diag : app_lib_data_to_send_t -> W -> bool * W;
  add_reset_task : Z -> W -> bool * W;
  add_backup_task : Z -> W -> bool * W;
  add_diag_task : Z -> W -> bool * W;
  cancel_reset_task : W -> W;
  cancel_backup_task : W -> W;
  getProcessedSeq : W -> Z;
  getSeq : W -> Z;
  getNodeRole : W -> option Z;
  setOptions : W -> bool * W;
  setQueuingTimeHp : Z -> W -> bool * W;
  addDataReceivedCb : W -> bool * W;
  on_sent : fn -> sent_status_t -> state -> state;
  on_ack : fn -> list Z -> state -> state }.

Abbreviation M := (st state).

Definition set_state (x : control_node_state_e) (s : state) : state :=
  {| m_state := x; m_send_handle0 := m_send_handle0 s; m_send_handle1 := m_send_handle1 s; m_data := m_data s;
     m_data_buff := m_data_buff s; m_sent_cb := m_sent_cb s; m_time_sent := m_time_sent s; m_conf := m_conf s;
     m_diag_info := m_diag_info s; world := world s |}.
Definition set_handles (a b : send_handle_t) (s : state) : state :=
  {| m_state := m_state s; m_send_handle0 := a; m_send_handle1 := b; m_data := m_data s;
     m_data_buff := m_data_buff s; m_sent_cb := m_sent_cb s; m_time_sent := m_time_sent s; m_conf := m_conf s;
     m_diag_info := m_diag_info s; world := world s |}.
Definition set_data (d : app_lib_data_to_send_t) (s : state) : state :=
  {| m_state := m_state s; m_send_handle0 := m_send_handle0 s; m_send_handle1 := m_send_handle1 s; m_data := d;
     m_data_buff := m_data_buff s; m_sent_cb := m_sent_cb s; m_time_sent := m_time_sent s; m_conf := m_conf s;
     m_diag_info := m_diag_info s; world := world s |}.
Definition set_buff (b : list Z) (s : state) : state :=
  {| m_state := m_state s; m_send_handle0 := m_send_handle0 s; m_send_handle1 := m_send_handle1 s; m_data := m_data s;
     m_data_buff := b; m_sent_cb := m_sent_cb s; m_time_sent := m_time_sent s; m_conf := m_conf s;
     m_diag_info := m_diag_info s; world := world s |}.
Definition set_sent_cb (c : option fn) (s : state) : state :=
  {| m_state := m_state s; m_send_handle0 := m_send_handle0 s; m_send_handle1 := m_send_handle1 s; m_data := m_data s;
     m_data_buff := m_data_buff s; m_sent_cb := c; m_time_sent := m_time_sent s; m_conf := m_conf s;
     m_diag_info := m_diag_info s; world := world s |}.
Definition set_time_sent (t : Z) (s : state) : state :=
  {| m_state := m_state s; m_send_handle0 := m_send_handle0 s; m_send_handle1 := m_send_handle1 s; m_data := m_data s;
     m_data_buff := m_data_buff s; m_sent_cb := m_sent_cb s; m_time_sent := t; m_conf := m_conf s;
     m_diag_info := m_diag_info s; world := world s |}.
Definition set_conf (c : control_node_conf_t) (s : state) : state :=
  {| m_state := m_state s; m_send_handle0 := m_send_handle0 s; m_send_handle1 := m_send_handle1 s; m_data := m_data s;
     m_data_buff := m_data_buff s; m_sent_cb := m_sent_cb s; m_time_sent := m_time_sent s; m_conf := c;
     m_diag_info := m_diag_info s; world := world s |}.
Definition set_diag (d : diag_info_t) (s : state) : state :=
  {| m_state := m_state s; m_send_handle0 := m_send_handle0 s; m_send_handle1 := m_send_handle1 s; m_data := m_data s;
     m_data_buff := m_data_buff s; m_sent_cb := m_sent_cb s; m_time_sent := m_time_sent s; m_conf := m_conf s;
     m_diag_info := d; world := world s |}.
Definition set_world (w : W) (s : state) : state :=
  {| m_state := m_state s; m_send_handle0 := m_send_handle0 s; m_send_handle1 := m_send_handle1 s; m_data := m_data s;
     m_data_buff := m_data_buff s; m_sent_cb := m_sent_cb s; m_time_sent := m_time_sent s; m_conf := m_conf s;
     m_diag_info := m_diag_info s; world := w |}.

Definition calls {A} (f : W -> A * W) : M A := fun s => ((f (world s)).1, set_world (f (world s)).2 s).
Definition runs_call (f : W -> W) : M unit := modify (fun s => set_world (f (world s)) s).

Definition on_handle0 (f : send_handle_t -> send_handle_t) : M unit :=
  modify (fun s => set_handles (f (m_send_handle0 s)) (m_send_handle1 s) s).
Definition on_handle1 (f : send_handle_t -> send_handle_t) : M unit :=
  modify (fun s => set_handles (m_send_handle0 s) (f (m_send_handle1 s)) s).

Definition with_end (h : send_handle_t) : send_handle_t :=
  {| h_sent := h_sent h; h_ack := h_ack h; h_end := true; h_address := h_address h |}.
Definition with_sent (h : send_handle_t) : send_handle_t :=
  {| h_sent := true; h_ack := h_ack h; h_end := h_end h; h_address := h_address h |}.
Definition with_ack (h : send_handle_t) : send_handle_t :=
  {| h_sent := h_sent h; h_ack := true; h_end := h_end h; h_address := h_address h |}.
(** [end] and [ack] true, and no address. *)
Definition reset_handle (h : send_handle_t) : send_handle_t :=
  {| h_sent := h_sent h; h_ack := true; h_end := true; h_address := NO_ROUTE_FOUND_ADDRESS |}.
Definition fresh_handle (address : Z) : send_handle_t :=
  {| h_sent := false; h_ack := false; h_end := false; h_address := address |}.

(** [m_data.bytes] points at [m_data_buff], so the bytes are those of the buffer when it is sent. *)
Definition to_send (bytes : list Z) (dest delay : Z) (d : app_lib_data_to_send_t) : app_lib_data_to_send_t :=
  {| to_bytes := bytes; to_num_bytes := to_num_bytes d; to_dest_address := dest; to_delay := delay;
     to_tracking_id := to_tracking_id d; to_qos := to_qos d; to_flags := to_flags d;
     to_src_endpoint := to_src_endpoint d; to_dest_endpoint := to_dest_endpoint d;
     to_hop_limit := to_hop_limit d; to_fragment_info := to_fragment_info d |}.

(** [m_data.dest_address] and [m_data.delay] are set, and the packet is sent. *)
Definition send_to (E : env) (dest delay : Z) : M bool :=
  _ ← modify (fun s => set_data (to_send (to_bytes (m_data s)) dest delay (m_data s)) s);
  d ← gets (fun s => to_send (m_data_buff s) dest delay (m_data s));
  calls (send_packet E d).

(** The packet to the backup router, with the time since the first try. *)
Definition send_backup (E : env) : M bool :=
  dest ← gets (fun s => h_address (m_send_handle1 s));
  now ← calls (getTimestampCoarse E);
  sent ← gets m_time_sent;
  send_to E dest (u32 (now - sent)).

(** The function of the application, then [NULL], so that it is not called again. *)
Definition call_sent_cb (E : env) (status : sent_status_t) : M unit :=
  c ← gets m_sent_cb;
  match c with
  | Some c => _ ← modify (on_sent E c status); modify (set_sent_cb None)
  | None => mret tt
  end.

(** A status of zeros. *)
Definition failed : sent_status_t := {| sent_dest := 0; sent_success := false |}.

Definition reset_task (E : env) : M unit :=
  _ ← runs_call (cancel_backup_task E);
  _ ← on_handle0 reset_handle;
  _ ← on_handle1 reset_handle;
  _ ← modify (set_state CTRL_STATE_IDLE);
  call_sent_cb E failed.

Definition both_ended (s : state) : bool := h_end (m_send_handle0 s) && h_end (m_send_handle1 s).

Definition backup_route_task (E : env) : M unit :=
  _ ← on_handle1 with_sent;
  ok ← send_backup E;
  _ ← (if (ok : bool) then mret tt else on_handle1 with_end);
  ended ← gets both_ended;
  if (ended : bool) then
    _ ← runs_call (cancel_reset_task E);
    _ ← call_sent_cb E failed;
    modify (set_state CTRL_STATE_IDLE)
  else mret tt.

(** The part of [packet_sent_cb] that finds out which packet was sent. *)
Definition sent_from (E : env) (status : sent_status_t) : M unit :=
  h0 ← gets m_send_handle0;
  h1 ← gets m_send_handle1;
  if sent_dest status =? h_address h0 then
    _ ← on_handle0 with_end;
    _ ← runs_call (cancel_backup_task E);
    if h_sent h1 then mret tt
    else if sent_success status then on_handle1 with_end
    else
      ok ← send_backup E;
      _ ← on_handle1 with_sent;
      if (ok : bool) then mret tt else on_handle1 with_end
  else if sent_dest status =? h_address h1 then on_handle1 with_end
  else
    _ ← on_handle0 (fun h => with_ack (with_end h));
    on_handle1 (fun h => with_ack (with_end h)).

Definition packet_sent_cb (E : env) (status : sent_status_t) : M unit :=
  st ← gets m_state;
  if negb (bool_decide (st = CTRL_STATE_BUSY)) then mret tt
  else
    _ ← sent_from E status;
    ended ← gets both_ended;
    _ ← (if sent_success status || ended then call_sent_cb E status else mret tt);
    ended ← gets both_ended;
    if (ended : bool) then
      _ ← runs_call (cancel_reset_task E);
      modify (set_state CTRL_STATE_IDLE)
    else mret tt.

(** ** Diagnostics *)

Definition diag_sent_cb (E : env) (status : sent_status_t) : M unit :=
  d ← gets m_diag_info;
  if sent_success status then
    now ← calls (getTimestampHp E);
    diff ← calls (getTimeDiffUs E now (dg_send_time_us d));
    modify (set_diag {| dg_success := u16 (dg_success d + 1); dg_error := dg_error d; dg_send_time_us := diff |})
  else
    modify (set_diag {| dg_success := dg_success d; dg_error := u16 (dg_error d + 1); dg_send_time_us := 0xFFFFFFFF |}).

(** [control_diag_t] *)
Definition diag_bytes (proc_seq stored_seq : Z) (d : diag_info_t) : list Z :=
  [u8 proc_seq; u8 stored_seq] ++ le_put 2 (dg_success d) ++ le_put 2 (dg_error d) ++ le_put 4 (dg_send_time_us d).

Definition diag_frame (bytes : list Z) (dest : Z) : app_lib_data_to_send_t :=
  {| to_bytes := bytes; to_num_bytes := Z.of_nat (length bytes); to_dest_address := dest; to_delay := 0;
     to_tracking_id := APP_LIB_DATA_NO_TRACKING_ID; to_qos := 0; to_flags := APP_LIB_DATA_SEND_FLAG_NONE;
     to_src_endpoint := CONTROL_DIAG_SRC_EP; to_dest_endpoint := CONTROL_DIAG_DEST_EP; to_hop_limit := 0;
     to_fragment_info := {| packet_id := 0; fragment_offset := 0; last_fragment := false |} |}.

Definition diagnostic_task (E : env) : M Z :=
  st ← gets m_state;
  if bool_decide (st = CTRL_STATE_UNINIT) then mret APP_SCHEDULER_STOP_TASK
  else
    bytes ← gets (fun s => diag_bytes (getProcessedSeq E (world s)) (getSeq E (world s)) (m_diag_info s));
    dest ← gets (fun s => get_da_router_address (getNbors E (world s)) 0);
    ok ← calls (send_diag E (diag_frame bytes dest));
    now ← calls (getTimestampHp E);
    d ← gets m_diag_info;
    _ ← modify (set_diag (if (ok : bool)
          then {| dg_success := dg_success d; dg_error := dg_error d; dg_send_time_us := now |}
          else {| dg_success := dg_success d; dg_error := u16 (dg_error d + 1); dg_send_time_us := 0xFFFFFFFF |}));
    gets (fun s => diag_period_ms (m_conf s)).

(** ** Acknowledgements *)

(** The packet from this address is on its way. *)
Definition awaited (src : Z) (h : send_handle_t) : bool := (src =? h_address h) && negb (h_end h).

Definition ack_received (E : env) (src : Z) (bytes : list Z) : M Z :=
  h0 ← gets m_send_handle0;
  h1 ← gets m_send_handle1;
  let ours := awaited src h0 || awaited src h1 in
  if ours && (h_ack h0 || h_ack h1) then mret APP_LIB_DATA_RECEIVE_RES_HANDLED
  else
    _ ← (if (ours : bool) then _ ← on_handle0 with_ack; on_handle1 with_ack else mret tt);
    c ← gets (fun s => ack_cb (m_conf s));
    _ ← match c with Some c => modify (on_ack E c bytes) | None => mret tt end;
    mret APP_LIB_DATA_RECEIVE_RES_HANDLED.

(** ** The interface *)

(** The result, and the configuration of the caller, which may be changed. *)
Definition Control_Node_init (E : env) (conf : control_node_conf_t) : M (control_node_ret_e * control_node_conf_t) :=
  let conf := if diag_period_ms conf <? MIN_DIAG_PERIOD_MS
              then {| diag_period_ms := APP_SCHEDULER_STOP_TASK; packet_ttl_ms := packet_ttl_ms conf; ack_cb := ack_cb conf |}
              else conf in
  role ← gets (fun s => getNodeRole E (world s));
  if negb (bool_decide (role = Some APP_LIB_SETTINGS_ROLE_ADVERTISER)) then mret (CONTROL_RET_INVALID_ROLE, conf)
  else
    _ ← modify (set_conf conf);
    _ ← modify (set_diag {| dg_success := 0; dg_error := 0; dg_send_time_us := 0 |});
    ok ← calls (setOptions E);
    if negb ok then mret (CONTROL_RET_ERROR, conf)
    else
      ok ← calls (setQueuingTimeHp E (packet_ttl_ms conf));
      if negb ok then mret (CONTROL_RET_ERROR, conf)
      else
        ok ← calls (addDataReceivedCb E);
        if negb ok then mret (CONTROL_RET_ERROR, conf)
        else
          ok ← (if diag_period_ms conf =? APP_SCHEDULER_STOP_TASK then mret true
                else calls (add_diag_task E (diag_period_ms conf)));
          if negb ok then mret (CONTROL_RET_ERROR, conf)
          else
            st ← gets m_state;
            _ ← (if bool_decide (st = CTRL_STATE_UNINIT) then modify (set_state CTRL_STATE_IDLE) else mret tt);
            mret (CONTROL_RET_OK, conf).

(** The timers, once a packet is on its way. *)
Definition start_timers (E : env) : M control_node_ret_e :=
  ttl ← gets (fun s => packet_ttl_ms (m_conf s));
  _ ← calls (add_reset_task E (u32 (ttl * 2)));
  h1 ← gets m_send_handle1;
  if (h_address h1 =? NO_ROUTE_FOUND_ADDRESS) || h_sent h1 then
    _ ← on_handle1 with_end;
    mret CONTROL_RET_OK
  else
    ok ← calls (add_backup_task E (ttl / 2));
    _ ← (if (ok : bool) then mret tt else on_handle1 with_end);
    mret CONTROL_RET_OK.

(** [bytes] is the memory at [data->bytes]. *)
Definition Control_Node_send (E : env) (bytes : option (list Z)) (data : app_lib_data_to_send_t) (sent_cb : option fn)
    : M control_node_ret_e :=
  st ← gets m_state;
  if negb (bool_decide (st = CTRL_STATE_IDLE)) then mret CONTROL_RET_INVALID_STATE
  else
    match bytes with
    | None => mret CONTROL_RET_INVALID_PARAM
    | Some bytes =>
        if (to_num_bytes data =? 0) || (MAX_PAYLOAD <? to_num_bytes data) then mret CONTROL_RET_INVALID_PARAM
        else
          _ ← modify (set_state CTRL_STATE_BUSY);
          now ← calls (getTimestampCoarse E);
          _ ← modify (set_time_sent now);
          nbors ← gets (fun s => getNbors E (world s));
          let primary := get_da_router_address nbors 0 in
          let backup := get_da_router_address nbors primary in
          _ ← modify (set_handles (fresh_handle primary) (fresh_handle backup));
          _ ← modify (fun s => set_buff (blit 0 (take (Z.to_nat (to_num_bytes data)) bytes) (m_data_buff s)) s);
          _ ← modify (set_data data);
          _ ← modify (set_sent_cb sent_cb);
          _ ← on_handle0 with_sent;
          ok ← send_to E primary (to_delay data);
          if (ok : bool) then start_timers E
          else
            _ ← on_handle0 with_end;
            if backup =? NO_ROUTE_FOUND_ADDRESS then
              _ ← modify (set_state CTRL_STATE_IDLE);
              mret CONTROL_RET_SEND_ERROR
            else
              _ ← on_handle1 with_sent;
              ok ← send_to E backup (to_delay data);
              if (ok : bool) then start_timers E
              else
                _ ← modify (set_state CTRL_STATE_IDLE);
                mret CONTROL_RET_SEND_ERROR
    end.

End ControlNode.

Arguments state : clear implicits.
Arguments env : clear implicits.

(** * Properties *)

(** ** The choice of a router *)

Definition eligible (exclude : Z) (n : nbor_t) : Prop := nb_address n <> exclude /\ nb_diradv n = true.
Definition seen_lately (n : nbor_t) : Prop := nb_last_update n < NBOR_MAX_TIME_LAST_SEEN.

(** A pair of the loop: the strength and the index of the best neighbour among
    those before [k] that satisfy [P], or the initial pair when there is none. *)
Definition is_best (P : nbor_t -> Prop) (l : list nbor_t) (k : nat) (b : Z * nat) : Prop :=
  (forall i n, (i < k)%nat -> l !! i = Some n -> P n -> nb_norm_rssi n <= b.1) /\
  (b = (INT8_MIN, MAX_NBORS) \/ exists n, (b.2 < k)%nat /\ l !! b.2 = Some n /\ P n /\ nb_norm_rssi n = b.1).

Lemma is_best_step (P : nbor_t -> Prop) l k b n (t : bool) :
  is_best P l k b -> l !! k = Some n -> (t = true -> P n /\ b.1 < nb_norm_rssi n) ->
  (t = false -> P n -> nb_norm_rssi n <= b.1) -> is_best P l (S k) (if t then (nb_norm_rssi n, k) else b).
Proof.
  intros [Hall Hone] Hn Ht Hf. destruct t.
  - destruct (Ht eq_refl) as [HP Hlt]. split; cbn [fst snd].
    + intros i m Hi Hm HPm. destruct (decide (i = k)) as [->|]; [rewrite Hn in Hm; by injection Hm as ->|].
      specialize (Hall i m ltac:(lia) Hm HPm). lia.
    + right. exists n. split_and!; [lia|done..].
  - split.
    + intros i m Hi Hm HPm. destruct (decide (i = k)) as [->|]; [rewrite Hn in Hm; injection Hm as ->; by apply Hf|].
      by apply (Hall i m ltac:(lia)).
    + destruct Hone as [->|(m & ? & ?)]; [by left|right]. exists m. split; [lia|done].
Qed.

(** One round, as two conditional updates. *)
Lemma best_step_if exclude b k n :
  let e := negb (nb_address n =? exclude) && nb_diradv n in
  in_window (best_step exclude b k n) =
    (if e && ((nb_last_update n <? NBOR_MAX_TIME_LAST_SEEN) && ((in_window b).1 <? nb_norm_rssi n))
     then (nb_norm_rssi n, k) else in_window b) /\
  any_time (best_step exclude b k n) = (if e && ((any_time b).1 <? nb_norm_rssi n) then (nb_norm_rssi n, k) else any_time b).
Proof. cbn zeta. unfold best_step. destruct (_ && nb_diradv n); done. Qed.

Lemma eligible_bool exclude n : negb (nb_address n =? exclude) && nb_diradv n = true <-> eligible exclude n.
Proof. unfold eligible. rewrite andb_true_iff, negb_true_iff, Z.eqb_neq. done. Qed.

Definition best_ok (exclude : Z) (l : list nbor_t) (k : nat) (b : best_t) : Prop :=
  is_best (fun n => eligible exclude n /\ seen_lately n) l k (in_window b) /\ is_best (eligible exclude) l k (any_time b).

Lemma best_step_ok exclude l k b n : best_ok exclude l k b -> l !! k = Some n -> best_ok exclude l (S k) (best_step exclude b k n).
Proof.
  intros [Hw Ha] Hn. unfold best_ok. destruct (best_step_if exclude b k n) as [-> ->].
  split; (apply is_best_step; [done|done| |]).
  - intros (He & H)%andb_true_iff. apply eligible_bool in He. bool_props. done.
  - intros Hf [He Hs]. apply eligible_bool in He. rewrite He in Hf. unfold seen_lately in Hs.
    rewrite (proj2 (Z.ltb_lt _ _) Hs) in Hf. cbn [andb] in Hf. bool_props. lia.
  - intros (He & H)%andb_true_iff. apply eligible_bool in He. bool_props. done.
  - intros Hf He. apply eligible_bool in He. rewrite He in Hf. cbn [andb] in Hf. bool_props. lia.
Qed.

Lemma best_loop_ok exclude l k b :
  best_ok exclude l k b -> (k <= length l)%nat -> best_ok exclude l (length l) (best_loop exclude k (drop k l) b).
Proof.
  remember (length l - k)%nat as d eqn:Hd. revert k b Hd. induction d as [|d IH]; intros k b Hd Hb Hk.
  - rewrite drop_ge by lia. cbn [best_loop]. by replace (length l) with k by lia.
  - destruct (lookup_lt_is_Some_2 l k ltac:(lia)) as [n Hn]. rewrite (drop_S _ _ _ Hn). cbn [best_loop].
    apply IH; [lia|by apply best_step_ok|lia].
Qed.

Lemma best0_ok exclude l : best_ok exclude l 0 best0.
Proof. split; (split; [lia|by left]). Qed.

(** A strength that the loop can see. *)
Definition audible (n : nbor_t) : Prop := INT8_MIN < nb_norm_rssi n.

(** What a pair says about the neighbours that satisfy [P]. *)
Lemma is_best_end (P : nbor_t -> Prop) l b :
  is_best P l (length l) b -> (length l <= MAX_NBORS)%nat ->
  if (b.2 =? MAX_NBORS)%nat then forall n, n ∈ l -> P n -> ~ audible n
  else exists n, l !! b.2 = Some n /\ P n /\ forall m, m ∈ l -> P m -> nb_norm_rssi m <= nb_norm_rssi n.
Proof.
  intros [Hall Hone] Hl.
  assert (Hall' : forall n, n ∈ l -> P n -> nb_norm_rssi n <= b.1).
  { intros n (i & Hi)%list_elem_of_lookup HP. eapply Hall; [by eapply lookup_lt_Some|done|done]. }
  destruct Hone as [->|(n & Hlt & Hn & HP & Hr)].
  - cbn [snd]. rewrite Nat.eqb_refl. intros n Hn HP Ha. specialize (Hall' n Hn HP). unfold audible in Ha. cbn in Hall'. lia.
  - destruct (Nat.eqb_spec b.2 MAX_NBORS); [lia|]. exists n. split_and!; [done|done|]. intros m Hm HPm. rewrite Hr. by apply Hall'.
Qed.

(** the router chosen is the strongest one that supports advertisers, is not
    the excluded one and was heard in the last minute; if there is none, the
    strongest of any age; and the address zero only if there is none at all. *)
Theorem router_choice nbors exclude :
  (length nbors <= MAX_NBORS)%nat ->
  let best P n := n ∈ nbors /\ P n /\ forall m, m ∈ nbors -> P m -> nb_norm_rssi m <= nb_norm_rssi n in
  let lately n := eligible exclude n /\ seen_lately n in
  let a := get_da_router_address nbors exclude in
  (exists n, best lately n /\ a = nb_address n) \/
  ((forall n, n ∈ nbors -> lately n -> ~ audible n) /\ exists n, best (eligible exclude) n /\ a = nb_address n) \/
  ((forall n, n ∈ nbors -> eligible exclude n -> ~ audible n) /\ a = NO_ROUTE_FOUND_ADDRESS).
Proof.
  intros Hl. cbn zeta. unfold get_da_router_address, address_at.
  destruct (best_loop_ok exclude nbors 0 best0 (best0_ok exclude nbors) ltac:(lia)) as [Hw Ha]. rewrite drop_0 in *.
  set (b := best_loop exclude 0 nbors best0) in *.
  apply is_best_end in Hw; [|done]. apply is_best_end in Ha; [|done].
  destruct (_ =? MAX_NBORS)%nat; cbn [negb].
  - right. destruct (_ =? MAX_NBORS)%nat; cbn [negb]; [by right|]. left. split; [done|].
    destruct Ha as (n & Hn & HP & Hm). rewrite Hn. exists n. split; [|done].
    split; [by eapply list_elem_of_lookup_2|done].
  - left. destruct Hw as (n & Hn & HP & Hm). rewrite Hn. exists n. split; [|done].
    split; [by eapply list_elem_of_lookup_2|done].
Qed.

(** ** The surroundings *)

(** What the proofs watch of the surroundings: whether the two timers run, and
    the functions of the application that were called, the last one at the end. *)
Record obs := { o_reset : bool; o_backup : bool; o_answered : list fn }.

Definition obs_reset (b : bool) (o : obs) : obs := {| o_reset := b; o_backup := o_backup o; o_answered := o_answered o |}.
Definition obs_backup (b : bool) (o : obs) : obs := {| o_reset := o_reset o; o_backup := b; o_answered := o_answered o |}.
Definition obs_answer (c : fn) (o : obs) : obs :=
  {| o_reset := o_reset o; o_backup := o_backup o; o_answered := o_answered o ++ [c] |}.

(** A scheduler that runs what was added and not cancelled and has room for the
    reset task, calls that leave the timers alone, and functions of the
    application that do not call the library. *)
Class Surroundings {W} (E : env W) := {
  observe : W -> obs;
  sr_coarse : forall w, observe (getTimestampCoarse E w).2 = observe w;
  sr_hp : forall w, observe (getTimestampHp E w).2 = observe w;
  sr_diff : forall a b w, observe (getTimeDiffUs E a b w).2 = observe w;
  sr_send : forall d w, observe (send_packet E d w).2 = observe w;
  sr_send_diag : forall d w, observe (send_diag E d w).2 = observe w;
  sr_add_reset : forall t w, observe (add_reset_task E t w).2 = obs_reset true (observe w);
  sr_add_backup : forall t w, observe (add_backup_task E t w).2 =
                    obs_backup ((add_backup_task E t w).1 || o_backup (observe w)) (observe w);
  sr_add_diag : forall t w, observe (add_diag_task E t w).2 = observe w;
  sr_cancel_reset : forall w, observe (cancel_reset_task E w) = obs_reset false (observe w);
  sr_cancel_backup : forall w, observe (cancel_backup_task E w) = obs_backup false (observe w);
  sr_options : forall w, observe (setOptions E w).2 = observe w;
  sr_queuing : forall t w, observe (setQueuingTimeHp E t w).2 = observe w;
  sr_received : forall w, observe (addDataReceivedCb E w).2 = observe w;
  sr_on_sent : forall c st s, exists w, on_sent E c st s = set_world w s /\ observe w = obs_answer c (observe (world s));
  sr_on_ack : forall c bs s, exists w, on_ack E c bs s = set_world w s /\ observe w = observe (world s) }.

(** ** Any sequence of events *)

Inductive event :=
| Init (conf : control_node_conf_t)
| Send (bytes : option (list Z)) (data : app_lib_data_to_send_t) (sent_cb : option fn)
| Sent (status : sent_status_t)
| ResetFires
| BackupFires
| Ack (src : Z) (bytes : list Z)
| DiagFires
| DiagSent (status : sent_status_t).

Section Run.
Context {W : Type} (E : env W) `{!Surroundings E}.

(** A task that runs is no longer scheduled; it returns [APP_SCHEDULER_STOP_TASK].
    The result is the function of an accepted packet. *)
Definition handle (ev : event) : st (state W) (option fn) :=
  match ev with
  | Init conf => _ ← Control_Node_init E conf; mret None
  | Send bytes data c =>
      r ← Control_Node_send E bytes data c;
      mret (if bool_decide (r = CONTROL_RET_OK) then c else None)
  | Sent status => _ ← packet_sent_cb E status; mret None
  | ResetFires => _ ← runs_call (cancel_reset_task E); _ ← reset_task E; mret None
  | BackupFires => _ ← runs_call (cancel_backup_task E); _ ← backup_route_task E; mret None
  | Ack src bytes => _ ← ack_received E src bytes; mret None
  | DiagFires => _ ← diagnostic_task E; mret None
  | DiagSent status => _ ← diag_sent_cb E status; mret None
  end.

(** When an event can come: a task fires if it is scheduled; a report is about
    a packet that was sent. *)
Definition enabled (ev : event) (s : state W) : Prop :=
  match ev with
  | ResetFires => o_reset (observe (world s)) = true
  | BackupFires => o_backup (observe (world s)) = true
  | Sent status =>
      m_state s = CTRL_STATE_BUSY ->
      sent_dest status = h_address (m_send_handle0 s) \/
      sent_dest status = h_address (m_send_handle1 s) /\ h_sent (m_send_handle1 s) = true
  | _ => True
  end.

(** States that are reached, with the functions of all packets accepted so far. *)
Inductive reached : state W -> list fn -> Prop :=
| reached_boot s :
    m_state s = CTRL_STATE_UNINIT -> observe (world s) = {| o_reset := false; o_backup := false; o_answered := [] |} ->
    reached s []
| reached_step s accepted ev :
    reached s accepted -> enabled ev s ->
    reached (handle ev s).2 (accepted ++ option_list (handle ev s).1).

(** The functions that are still to be called. *)
Definition outstanding (s : state W) : list fn :=
  match m_state s with CTRL_STATE_BUSY => option_list (m_sent_cb s) | _ => [] end.

Record inv (s : state W) (accepted : list fn) : Prop := {
  inv_once : accepted = o_answered (observe (world s)) ++ outstanding s;
  inv_reset : o_reset (observe (world s)) = bool_decide (m_state s = CTRL_STATE_BUSY);
  inv_backup : o_backup (observe (world s)) = true ->
    m_state s = CTRL_STATE_BUSY /\ h_end (m_send_handle0 s) = false /\ h_sent (m_send_handle1 s) = false }.

Lemma outstanding_idle s : m_state s <> CTRL_STATE_BUSY -> outstanding s = [].
Proof. unfold outstanding. by destruct (m_state s). Qed.

Lemma call_sent_cb_spec status s :
  exists w, (call_sent_cb E status s).2 = set_sent_cb None (set_world w s) /\
    o_answered (observe w) = o_answered (observe (world s)) ++ option_list (m_sent_cb s) /\
    o_reset (observe w) = o_reset (observe (world s)) /\ o_backup (observe w) = o_backup (observe (world s)).
Proof.
  unfold call_sent_cb. rewrite bindE. unfold gets. cbn [fst snd]. destruct (m_sent_cb s) as [c|] eqn:Ec.
  - rewrite bindE. unfold modify. cbn [fst snd]. destruct (sr_on_sent c status s) as (w & -> & Hw).
    exists w. split; [done|]. by rewrite Hw.
  - exists (world s). split; [cbn; rewrite <- Ec; by destruct s|]. by rewrite app_nil_r.
Qed.

Lemma send_to_spec dest delay s :
  exists ok d w, send_to E dest delay s = (ok, set_world w (set_data d s)) /\ observe w = observe (world s).
Proof.
  unfold send_to. rewrite !bindE. unfold modify, gets, calls. cbn [fst snd]. eexists _, _, _. split; [reflexivity|]. apply sr_send.
Qed.

Lemma send_backup_spec s :
  exists ok d w, send_backup E s = (ok, set_world w (set_data d s)) /\ observe w = observe (world s).
Proof.
  unfold send_backup. rewrite !bindE. unfold gets, calls. cbn [fst snd].
  match goal with |- context [send_to E ?d ?t ?s0] => destruct (send_to_spec d t s0) as (ok & d' & w & -> & Hw) end.
  eexists _, _, _. split; [reflexivity|]. rewrite Hw. cbn. apply sr_coarse.
Qed.

Lemma reset_task_inv s accepted :
  inv s accepted -> enabled ResetFires s -> inv (handle ResetFires s).2 accepted /\
    m_state (handle ResetFires s).2 = CTRL_STATE_IDLE /\ o_answered (observe (world (handle ResetFires s).2)) = accepted.
Proof.
  intros [Ho Hr Hb] Hen. cbn in Hen. rewrite Hr in Hen. apply bool_decide_eq_true in Hen as Hst.
  cbn [handle]. unfold reset_task. rewrite !bindE. unfold runs_call, on_handle0, on_handle1, modify. cbn [fst snd].
  match goal with |- context [call_sent_cb E failed ?s0] => destruct (call_sent_cb_spec failed s0) as (w & -> & Ha & H1 & H2) end.
  cbn in *. rewrite sr_cancel_backup, sr_cancel_reset in *. cbn in *. unfold outstanding in Ho. rewrite Hst in Ho.
  assert (Hx : o_answered (observe w) = accepted) by by rewrite Ha, Ho.
  split_and!; [|done|done]. constructor; cbn.
  - by rewrite app_nil_r.
  - done.
  - by rewrite H2.
Qed.

Lemma backup_inv s accepted : inv s accepted -> enabled BackupFires s -> inv (handle BackupFires s).2 accepted.
Proof.
  intros [Ho Hr Hb] Hen. cbn in Hen. destruct (Hb Hen) as (Hst & He0 & Hs1).
  cbn [handle]. unfold backup_route_task. rewrite !bindE. unfold runs_call, on_handle1, modify. cbn [fst snd].
  match goal with |- context [send_backup E ?s0] => destruct (send_backup_spec s0) as (ok & d & w & -> & Hw) end.
  cbn [fst snd]. cbn in Hw. rewrite sr_cancel_backup in Hw.
  destruct ok; unfold mret, st_ret, gets, both_ended; cbn; rewrite He0; cbn;
    (constructor; cbn; rewrite ?Hw; [done|done|done]).
Qed.

Lemma set_data_id (s : state W) : set_data (m_data s) s = s.
Proof. by destruct s. Qed.

Lemma sent_from_spec status s accepted :
  inv s accepted -> enabled (Sent status) s -> m_state s = CTRL_STATE_BUSY ->
  exists d w a b, (sent_from E status s).2 = set_handles a b (set_world w (set_data d s)) /\
    o_answered (observe w) = o_answered (observe (world s)) /\ o_reset (observe w) = o_reset (observe (world s)) /\
    (o_backup (observe w) = true -> h_end a = false /\ h_sent b = false).
Proof.
  intros [_ _ Hb] Hen Hst. specialize (Hen Hst). unfold sent_from. rewrite !bindE. unfold gets. cbn [fst snd].
  destruct (Z.eqb_spec (sent_dest status) (h_address (m_send_handle0 s))) as [Hd|Hd].
  - rewrite !bindE. unfold on_handle0, runs_call, modify. cbn [fst snd].
    set (s1 := set_world _ _).
    assert (Hs1 : s1 = set_handles (with_end (m_send_handle0 s)) (m_send_handle1 s)
                        (set_world (cancel_backup_task E (world s)) (set_data (m_data s) s))) by (by rewrite set_data_id).
    assert (Ho : observe (world s1) = obs_backup false (observe (world s))) by (rewrite Hs1; cbn; apply sr_cancel_backup).
    destruct (h_sent (m_send_handle1 s)).
    + eexists _, _, _, _. split; [exact Hs1|]. rewrite Hs1 in Ho. cbn in Ho. rewrite Ho. done.
    + destruct (sent_success status).
      * eexists _, _, _, _. split; [by rewrite Hs1|]. rewrite Hs1 in Ho. cbn in Ho. rewrite Ho. done.
      * rewrite !bindE. destruct (send_backup_spec s1) as (ok & d & w & -> & Hw). cbn [fst snd]. rewrite Ho in Hw.
        rewrite Hs1. destruct ok; (eexists d, w, _, _; split; [reflexivity|]; rewrite Hw; done).
  - destruct Hen as [|[Hd1 Hs1]]; [done|]. rewrite (proj2 (Z.eqb_eq _ _) Hd1).
    eexists (m_data s), (world s), _, _. split; [rewrite set_data_id; by destruct s|]. split; [done|]. split; [done|].
    intros Hx. destruct (Hb Hx) as (_ & _ & ?). congruence.
Qed.

Lemma sent_inv status s accepted : inv s accepted -> enabled (Sent status) s -> inv (handle (Sent status) s).2 accepted.
Proof.
  intros Hi Hen. cbn [handle]. unfold packet_sent_cb. rewrite !bindE. unfold gets. cbn [fst snd].
  destruct (bool_decide (m_state s = CTRL_STATE_BUSY)) eqn:Hst; cbn [negb]; [|done]. apply bool_decide_eq_true in Hst.
  destruct (sent_from_spec status s accepted Hi Hen Hst) as (d & w & a & b & Hs & Ha & Hr & Hb).
  destruct Hi as [Ho Hri _]. rewrite bool_decide_eq_true_2 in Hri by done. unfold outstanding in Ho. rewrite Hst in Ho.
  rewrite !bindE. rewrite Hs. set (s1 := set_handles _ _ _).
  unfold gets. cbn [fst snd].
  assert (Hend : both_ended s1 = h_end a && h_end b) by done. rewrite Hend.
  (* after the function of the application *)
  assert (Hcb : exists w2, (if sent_success status || (h_end a && h_end b) then call_sent_cb E status else mret tt) s1 =
      (tt, set_sent_cb (if sent_success status || (h_end a && h_end b) then None else m_sent_cb s) (set_world w2 s1)) /\
    accepted = o_answered (observe w2) ++ (if sent_success status || (h_end a && h_end b) then [] else option_list (m_sent_cb s)) /\
    o_reset (observe w2) = true /\ o_backup (observe w2) = o_backup (observe w)).
  { destruct (_ || _).
    - destruct (call_sent_cb_spec status s1) as (w2 & E2 & Ha2 & Hr2 & Hb2). exists w2.
      destruct (call_sent_cb E status s1) as [[] s2]. cbn in E2. rewrite E2. split; [done|]. cbn in *.
      split_and!; [by rewrite app_nil_r, Ha2, Ha, Ho|congruence|congruence].
    - exists w. split; [|split_and!; [by rewrite Ho, Ha|congruence|done]]. by subst s1. }
  destruct Hcb as (w2 & Hcb & Hacc & Hr2 & Hb2).
  rewrite Hcb. cbn [snd]. change (both_ended (set_sent_cb _ (set_world w2 s1))) with (h_end a && h_end b).
  destruct (h_end a && h_end b) eqn:Hends.
  - rewrite orb_true_r in *. rewrite bindE. unfold runs_call, modify, mret, st_ret. cbn. constructor; cbn.
    + by rewrite sr_cancel_reset.
    + by rewrite sr_cancel_reset.
    + rewrite sr_cancel_reset. cbn. rewrite Hb2. intros Hx. destruct (Hb Hx) as [Hx1 Hx2].
      apply andb_true_iff in Hends as [? _]. congruence.
  - unfold mret, st_ret. cbn. constructor; cbn.
    + unfold outstanding. cbn. rewrite Hst, orb_false_r in *. by destruct (sent_success status).
    + by rewrite Hst, bool_decide_eq_true_2.
    + rewrite Hb2. intros Hx. by destruct (Hb Hx).
Qed.

(** ** The other events *)

(** Events that leave the packet alone. *)
Lemma diag_sent_inv status s accepted : inv s accepted -> inv (handle (DiagSent status) s).2 accepted.
Proof.
  intros [Ho Hr Hb]. cbn [handle]. unfold diag_sent_cb. rewrite !bindE. unfold gets. cbn [fst snd].
  destruct (sent_success status).
  - rewrite !bindE. unfold calls, modify, mret, st_ret. cbn.
    constructor; cbn; rewrite ?sr_diff, ?sr_hp; cbn; rewrite ?sr_hp; [done|done|done].
  - by constructor.
Qed.

Lemma diag_fires_inv s accepted : inv s accepted -> inv (handle DiagFires s).2 accepted.
Proof.
  intros [Ho Hr Hb]. cbn [handle]. unfold diagnostic_task. rewrite !bindE. unfold gets. cbn [fst snd].
  destruct (bool_decide (m_state s = CTRL_STATE_UNINIT)); [exact (Build_inv _ _ Ho Hr Hb)|]. rewrite !bindE. unfold calls, modify, mret, st_ret, gets. cbn.
  constructor; cbn; rewrite ?sr_hp; cbn; rewrite ?sr_send_diag; [done|done|done].
Qed.

Lemma ack_inv src bs s accepted : inv s accepted -> inv (handle (Ack src bs) s).2 accepted.
Proof.
  intros [Ho Hr Hb]. cbn [handle]. unfold ack_received. rewrite !bindE. unfold gets. cbn [fst snd].
  destruct (awaited _ _ || _); cbn [andb].
  - destruct (h_ack _ || _); [by constructor|]. rewrite !bindE. unfold on_handle0, on_handle1, modify, mret, st_ret. cbn.
    destruct (ack_cb (m_conf s)) as [c|]; cbn.
    + match goal with |- context [on_ack E c bs ?s0] => destruct (sr_on_ack c bs s0) as (w & -> & Hw) end. cbn in Hw.
      constructor; cbn; rewrite ?Hw; [done|done|done].
    + constructor; cbn; [done|done|done].
  - rewrite !bindE. unfold modify, mret, st_ret. cbn. destruct (ack_cb (m_conf s)) as [c|]; cbn.
    + destruct (sr_on_ack c bs s) as (w & -> & Hw). constructor; cbn; rewrite ?Hw; [done|done|done].
    + by constructor.
Qed.

Abbreviation keeps_inv accepted m := (triple (fun s => inv s accepted) m (fun _ s => inv s accepted)).

Lemma calls_inv {A} (f : W -> A * W) accepted : (forall w, observe (f w).2 = observe w) -> keeps_inv accepted (calls f).
Proof. intros Hf s [Ho Hr Hb]. unfold calls. constructor; cbn; rewrite Hf; done. Qed.

Lemma modify_inv (f : state W -> state W) accepted :
  (forall s, m_state (f s) = m_state s /\ m_sent_cb (f s) = m_sent_cb s /\ m_send_handle0 (f s) = m_send_handle0 s /\
             m_send_handle1 (f s) = m_send_handle1 s /\ world (f s) = world s) -> keeps_inv accepted (modify f).
Proof.
  intros Hf s [Ho Hr Hb]. destruct (Hf s) as (H1 & H2 & H3 & H4 & H5).
  constructor; cbn [modify snd]; unfold outstanding; rewrite ?H5, ?H1, ?H2, ?H3, ?H4; done.
Qed.

Lemma keep_ret {A} (x : A) accepted : keeps_inv accepted (mret x).
Proof. by intros s Hs. Qed.

(** The last step of [Control_Node_init]. *)
Lemma boot_inv (conf : control_node_conf_t) accepted :
  keeps_inv accepted (st ← gets m_state;
    _ ← (if bool_decide (st = CTRL_STATE_UNINIT) then modify (set_state CTRL_STATE_IDLE) else mret tt);
    mret (CONTROL_RET_OK, conf)).
Proof.
  intros s Hi. rewrite !bindE. unfold gets. cbn [fst snd].
  destruct (bool_decide (m_state s = CTRL_STATE_UNINIT)) eqn:Est; [|exact Hi]. apply bool_decide_eq_true in Est.
  destruct Hi as [Ho Hr Hb]. unfold modify, mret, st_ret. cbn. rewrite Est in *. constructor; cbn.
  - unfold outstanding in Ho. by rewrite Est in Ho.
  - done.
  - intros Hx. by destruct (Hb Hx).
Qed.

Lemma init_inv conf s accepted : inv s accepted -> inv (handle (Init conf) s).2 accepted.
Proof.
  revert s. change (keeps_inv accepted (handle (Init conf))). cbn [handle].
  apply triple_skip; [|intros x; apply keep_ret]. unfold Control_Node_init. set (c := if _ <? _ then _ else _).
  apply triple_skip; [by intros s Hs|intros role]. destruct (negb _); [apply keep_ret|].
  apply triple_skip; [by apply modify_inv|intros _]. apply triple_skip; [by apply modify_inv|intros _].
  apply triple_skip; [apply calls_inv, sr_options|intros ok1]. destruct (negb ok1); [apply keep_ret|].
  apply triple_skip; [apply calls_inv, sr_queuing|intros ok2]. destruct (negb ok2); [apply keep_ret|].
  apply triple_skip; [apply calls_inv, sr_received|intros ok3]. destruct (negb ok3); [apply keep_ret|].
  apply triple_skip; [destruct (_ =? _); [apply keep_ret|apply calls_inv, sr_add_diag]|intros ok4].
  destruct (negb ok4); [apply keep_ret|]. apply boot_inv.
Qed.

Lemma start_timers_spec s :
  exists w b, start_timers E s = (CONTROL_RET_OK, set_handles (m_send_handle0 s) b (set_world w s)) /\
    o_answered (observe w) = o_answered (observe (world s)) /\ o_reset (observe w) = true /\
    (o_backup (observe w) = true -> o_backup (observe (world s)) = true \/ h_sent (m_send_handle1 s) = false) /\
    h_sent b = h_sent (m_send_handle1 s).
Proof.
  unfold start_timers. rewrite !bindE. unfold gets, calls. cbn [fst snd].
  set (s1 := set_world _ s). assert (Hs1 : observe (world s1) = obs_reset true (observe (world s))) by (cbn; apply sr_add_reset).
  change (m_send_handle1 s1) with (m_send_handle1 s).
  destruct (h_sent (m_send_handle1 s)) eqn:Hsent.
  - rewrite orb_true_r, bindE. unfold on_handle1, modify, mret, st_ret. cbn [fst snd].
    eexists (world s1), _. split; [reflexivity|]. rewrite Hs1. split_and!; [done|done|by left|done].
  - rewrite orb_false_r. destruct (_ =? _).
    + rewrite bindE. unfold on_handle1, modify, mret, st_ret. cbn [fst snd].
      eexists (world s1), _. split; [reflexivity|]. rewrite Hs1. split_and!; [done|done|by left|done].
    + rewrite !bindE. cbn [fst snd]. set (t := packet_ttl_ms _ / 2).
      assert (Hw : o_answered (observe (add_backup_task E t (world s1)).2) = o_answered (observe (world s)) /\
                   o_reset (observe (add_backup_task E t (world s1)).2) = true) by (by rewrite sr_add_backup, Hs1).
      destruct (add_backup_task E t (world s1)).1; unfold on_handle1, modify, mret, st_ret; cbn [fst snd];
        eexists (add_backup_task E t (world s1)).2, _; (split; [|split; [apply Hw|split; [apply Hw|split; [by right|]]]]).
      * by destruct s.
      * done.
      * by destruct s.
      * done.
Qed.

(** What a call that comes to the sending leaves. *)
Definition prepared (s : state W) (bytes : list Z) (data : app_lib_data_to_send_t) (c : option fn) (a b : Z) (w : W) (t : Z) : state W :=
  {| m_state := CTRL_STATE_BUSY; m_send_handle0 := with_sent (fresh_handle a); m_send_handle1 := fresh_handle b;
     m_data := data; m_data_buff := blit 0 (take (Z.to_nat (to_num_bytes data)) bytes) (m_data_buff s);
     m_sent_cb := c; m_time_sent := t; m_conf := m_conf s; m_diag_info := m_diag_info s; world := w |}.

(** An accepted packet: the timers have been started. *)
Lemma accepted_inv (s0 s1 : state W) (c : option fn) accepted :
  m_state s1 = CTRL_STATE_BUSY -> m_sent_cb s1 = c -> accepted = o_answered (observe (world s1)) ->
  o_backup (observe (world s1)) = false -> h_end (m_send_handle0 s1) = false \/ h_sent (m_send_handle1 s1) = true ->
  (start_timers E s1).1 = CONTROL_RET_OK /\ inv (start_timers E s1).2 (accepted ++ option_list c).
Proof.
  intros Hst Hc Ho Hb Hh. destruct (start_timers_spec s1) as (w & b & -> & Ha & Hr & Hbk & Hsb). split; [done|].
  constructor; cbn.
  - unfold outstanding. cbn. by rewrite Hst, Hc, Ha, Ho.
  - by rewrite Hr, Hst.
  - intros Hx. destruct (Hbk Hx) as [Hy|Hy]; [congruence|]. rewrite Hsb. split_and!; [done| |done].
    destruct Hh; congruence.
Qed.

(** A packet that both routers refused. *)
Lemma refused_inv (s1 : state W) accepted :
  accepted = o_answered (observe (world s1)) -> o_backup (observe (world s1)) = false -> o_reset (observe (world s1)) = false ->
  inv (set_state CTRL_STATE_IDLE s1) accepted.
Proof.
  intros Ho Hb Hr. constructor; cbn; [by rewrite app_nil_r|done|congruence].
Qed.

(** The result of a call, and the functions accepted after it. *)
Definition answered_call (c : option fn) (accepted : list fn) (p : control_node_ret_e * state W) : Prop :=
  inv p.2 (accepted ++ option_list (if bool_decide (p.1 = CONTROL_RET_OK) then c else None)).

Lemma answered_no c accepted r s : r <> CONTROL_RET_OK -> inv s accepted -> answered_call c accepted (r, s).
Proof. intros Hr Hi. unfold answered_call. cbn [fst snd]. rewrite bool_decide_eq_false_2 by done. by rewrite app_nil_r. Qed.

Lemma answered_timers c accepted s1 :
  m_state s1 = CTRL_STATE_BUSY -> m_sent_cb s1 = c -> accepted = o_answered (observe (world s1)) ->
  o_backup (observe (world s1)) = false -> h_end (m_send_handle0 s1) = false \/ h_sent (m_send_handle1 s1) = true ->
  answered_call c accepted (start_timers E s1).
Proof.
  intros H1 H2 H3 H4 H5. unfold answered_call. destruct (accepted_inv s1 s1 c accepted H1 H2 H3 H4 H5) as [-> Hi].
  by rewrite bool_decide_eq_true_2.
Qed.

Lemma send_answered bytes data c s accepted :
  inv s accepted -> answered_call c accepted (Control_Node_send E bytes data c s).
Proof.
  intros Hi. unfold Control_Node_send. rewrite bindE. unfold gets. cbn [fst snd].
  destruct (bool_decide (m_state s = CTRL_STATE_IDLE)) eqn:Hst; cbn [negb]; [|by apply answered_no].
  apply bool_decide_eq_true in Hst. destruct bytes as [bytes|]; [|by apply answered_no].
  destruct (_ || _); [by apply answered_no|].
  destruct Hi as [Ho Hr Hb]. unfold outstanding in Ho. rewrite Hst in Ho, Hr. rewrite app_nil_r in Ho. cbn in Hr.
  assert (Hb0 : o_backup (observe (world s)) = false).
  { destruct (o_backup _); [|done]. destruct (Hb eq_refl) as [? _]. congruence. }
  rewrite !bindE. unfold modify, calls, on_handle0, modify. cbn [fst snd].
  set (w1 := (getTimestampCoarse E _).2). set (t := (getTimestampCoarse E _).1).
  set (a := get_da_router_address _ 0). set (b := get_da_router_address _ a).
  match goal with |- context [send_to E a (to_delay data) ?s0] => change s0 with (prepared s bytes data c a b w1 t) end.
  destruct (send_to_spec a (to_delay data) (prepared s bytes data c a b w1 t)) as (ok & d & w & -> & Hw). cbn [fst snd].
  cbn in Hw. assert (Hw1 : observe w = observe (world s)) by (rewrite Hw; apply sr_coarse).
  destruct ok; [apply answered_timers; cbn; try done; [by rewrite Hw1|by rewrite Hw1|by left]|].
  rewrite bindE. cbn [fst snd]. destruct (b =? NO_ROUTE_FOUND_ADDRESS).
  - rewrite bindE. unfold mret, st_ret. cbn [fst snd]. apply answered_no; [done|]. apply refused_inv; cbn; by rewrite Hw1.
  - rewrite !bindE. unfold on_handle1, modify. cbn [fst snd].
    match goal with |- context [send_to E b (to_delay data) ?s0] => destruct (send_to_spec b (to_delay data) s0) as (ok2 & d2 & w2 & -> & Hw2) end.
    cbn [fst snd]. cbn in Hw2. rewrite Hw1 in Hw2.
    destruct ok2; [apply answered_timers; cbn; try done; [by rewrite Hw2|by rewrite Hw2|by right]|].
    rewrite bindE. unfold mret, st_ret. cbn [fst snd]. apply answered_no; [done|]. apply refused_inv; cbn; by rewrite Hw2.
Qed.

Lemma reached_inv s accepted : reached s accepted -> inv s accepted.
Proof.
  induction 1 as [s Hs Hw|s accepted ev _ IH Hen].
  - constructor; rewrite Hw; [|by rewrite Hs|done]. unfold outstanding. by rewrite Hs.
  - assert (Hno : (handle ev s).1 = None -> inv (handle ev s).2 accepted -> inv (handle ev s).2 (accepted ++ option_list (handle ev s).1))
      by (intros -> ?; by rewrite app_nil_r).
    destruct ev; (apply Hno; [cbn [handle]; rewrite ?bindE; done|]) || idtac.
    + exact (init_inv conf s accepted IH).
    + cbn [handle]. rewrite bindE. exact (send_answered bytes data sent_cb s accepted IH).
    + exact (sent_inv status s accepted IH Hen).
    + exact (proj1 (reset_task_inv s accepted IH Hen)).
    + exact (backup_inv s accepted IH Hen).
    + exact (ack_inv src bytes s accepted IH).
    + exact (diag_fires_inv s accepted IH).
    + exact (diag_sent_inv status s accepted IH).
Qed.


(** the library never stays busy: whenever a packet is on its way the reset
    task is scheduled, and when that runs the library is idle again and every
    accepted packet has been answered. *)
Theorem busy_ends s accepted :
  reached s accepted -> m_state s = CTRL_STATE_BUSY ->
  enabled ResetFires s /\ m_state (handle ResetFires s).2 = CTRL_STATE_IDLE /\
  o_answered (observe (world (handle ResetFires s).2)) = accepted.
Proof.
  intros Hr Hs. pose proof (reached_inv s accepted Hr) as Hi.
  assert (Hen : enabled ResetFires s) by (cbn; rewrite (inv_reset _ _ Hi); by apply bool_decide_eq_true_2).
  split; [done|]. by apply reset_task_inv.
Qed.

(** Several events. *)
Fixpoint run (evs : list event) (s : state W) : state W :=
  match evs with [] => s | ev :: evs => run evs (handle ev s).2 end.
Fixpoint accepted_by (evs : list event) (s : state W) : list fn :=
  match evs with [] => [] | ev :: evs => option_list (handle ev s).1 ++ accepted_by evs (handle ev s).2 end.
Fixpoint all_enabled (evs : list event) (s : state W) : Prop :=
  match evs with [] => True | ev :: evs => enabled ev s /\ all_enabled evs (handle ev s).2 end.

Lemma reached_run evs s accepted :
  reached s accepted -> all_enabled evs s -> reached (run evs s) (accepted ++ accepted_by evs s).
Proof.
  revert s accepted. induction evs as [|ev evs IH]; intros s accepted Hs He; cbn [run accepted_by]; [by rewrite app_nil_r|].
  destruct He as [He1 He2]. rewrite app_assoc. apply IH; [by apply reached_step|done].
Qed.

End Run.

(** ** The router *)

Module Router.
Section Router.
Context {W : Type}.

Record state := { m_conf : option fn; m_initialized : bool; world : W }.

Record env := {
  sendData : app_lib_data_to_send_t -> W -> bool * W;
  getNodeRole : W -> option Z;
  setRouterAckGenCb : fn -> W -> W;
  addDataReceivedCb : W -> bool * W }.

Abbreviation M := (sf state).

Definition set_world (w : W) (s : state) : state := {| m_conf := m_conf s; m_initialized := m_initialized s; world := w |}.
Definition calls {A} (f : W -> A * W) : M A := fun s => Some ((f (world s)).1, set_world (f (world s)).2 s).

(** [sizeof(control_diag_t)] *)
Definition DIAG_SIZE : nat := 10.

(** A packet of another length is reported in the log, and forwarded.  [bytes]
    is the memory at [data->bytes]; a copy of less than it holds is a fault. *)
Definition data_received (E : env) (src : Z) (bytes : list Z) : M Z :=
  ini ← asks m_initialized;
  if negb ini then mret APP_LIB_DATA_RECEIVE_RES_NOT_FOR_APP
  else
    diag ← reads (fun _ => if (length bytes <? DIAG_SIZE)%nat then None else Some (take DIAG_SIZE bytes));
    _ ← calls (sendData E (diag_frame (le_put 4 src ++ diag) APP_ADDR_ANYSINK));
    mret APP_LIB_DATA_RECEIVE_RES_HANDLED.

Definition Control_Router_init (E : env) (ack_gen_cb : option fn) : M control_node_ret_e :=
  match ack_gen_cb with
  | None => mret CONTROL_RET_INVALID_PARAM
  | Some c =>
      role ← asks (fun s => getNodeRole E (world s));
      match role with
      | None => mret CONTROL_RET_INVALID_ROLE
      | Some _ =>
          _ ← puts (fun s => {| m_conf := Some c; m_initialized := m_initialized s; world := world s |});
          _ ← puts (fun s => set_world (setRouterAckGenCb E c (world s)) s);
          ok ← calls (addDataReceivedCb E);
          if negb ok then mret CONTROL_RET_ERROR
          else _ ← puts (fun s => {| m_conf := m_conf s; m_initialized := true; world := world s |}); mret CONTROL_RET_OK
      end
  end.

End Router.

Arguments state : clear implicits.
Arguments env : clear implicits.

(** What the sink finds in a forwarded packet: the node, the two sequences, the
    counters and the time. *)
Definition sink_reads (bytes : list Z) : Z * (Z * Z) * diag_info_t :=
  (field 0 4 bytes, (field 4 1 bytes, field 5 1 bytes),
   {| dg_success := field 6 2 bytes; dg_error := field 8 2 bytes; dg_send_time_us := field 10 4 bytes |}).

(** The diagnostics of a node come to the sink as the node sent them. *)
Lemma diagnostics_forwarded {W} (E : env W) src p q d s :
  is_u32 src -> is_u8 p -> is_u8 q -> is_u16 (dg_success d) -> is_u16 (dg_error d) -> is_u32 (dg_send_time_us d) ->
  m_initialized s = true ->
  exists frame, data_received E src (diag_bytes p q d) s =
      Some (APP_LIB_DATA_RECEIVE_RES_HANDLED, set_world (sendData E frame (world s)).2 s) /\
    to_dest_address frame = APP_ADDR_ANYSINK /\ to_num_bytes frame = 14 /\ sink_reads (to_bytes frame) = (src, (p, q), d).
Proof.
  intros Hs Hp Hq H1 H2 H3 Hi. unfold data_received. rewrite asksE, Hi. cbn [negb].
  eexists. split; [reflexivity|]. split; [done|]. split; [done|].
  change (to_bytes _) with (le_put 4 src ++ [u8 p] ++ [u8 q] ++ le_put 2 (dg_success d) ++ le_put 2 (dg_error d) ++ le_put 4 (dg_send_time_us d)).
  unfold sink_reads, field.
  change (slice 0 4 _) with (le_put 4 src). change (slice 4 1 _) with [u8 p]. change (slice 5 1 _) with [u8 q].
  change (slice 6 2 _) with (le_put 2 (dg_success d)). change (slice 8 2 _) with (le_put 2 (dg_error d)).
  change (slice 10 4 _) with (le_put 4 (dg_send_time_us d)). rewrite !le_get_put. cbn [le_get].
  rewrite !Z.mul_0_r, !Z.add_0_r, !uwrap_small by done. by destruct d.
Qed.

End Router.

(** ** Examples *)

Module Examples.

(** The world: what is watched, and the addresses of the packets that were sent. *)
Definition world0 : Type := obs * list Z.

Definition nbors0 : list nbor_t :=
  [{| nb_address := 5; nb_norm_rssi := -80; nb_last_update := 3; nb_diradv := true |};
   {| nb_address := 6; nb_norm_rssi := -60; nb_last_update := 90; nb_diradv := true |};
   {| nb_address := 7; nb_norm_rssi := -70; nb_last_update := 10; nb_diradv := true |};
   {| nb_address := 8; nb_norm_rssi := -50; nb_last_update := 1; nb_diradv := false |}].

Definition env_with (nbors : list nbor_t) (on_sent : fn -> sent_status_t -> state world0 -> state world0) : env world0 := {|
  getNbors := fun _ => nbors; getTimestampCoarse := fun w => (0, w); getTimestampHp := fun w => (0, w);
  getTimeDiffUs := fun a b w => (u32 (a - b), w);
  send_packet := fun d w => (true, (w.1, w.2 ++ [to_dest_address d])); send_diag := fun _ w => (true, w);
  add_reset_task := fun _ w => (true, (obs_reset true w.1, w.2));
  add_backup_task := fun _ w => (true, (obs_backup true w.1, w.2)); add_diag_task := fun _ w => (true, w);
  cancel_reset_task := fun w => (obs_reset false w.1, w.2); cancel_backup_task := fun w => (obs_backup false w.1, w.2);
  getProcessedSeq := fun _ => 1; getSeq := fun _ => 2; getNodeRole := fun _ => Some APP_LIB_SETTINGS_ROLE_ADVERTISER;
  setOptions := fun w => (true, w); setQueuingTimeHp := fun _ w => (true, w); addDataReceivedCb := fun w => (true, w);
  on_sent := on_sent; on_ack := fun _ _ s => s |}.

Definition quiet (c : fn) (status : sent_status_t) (s : state world0) : state world0 :=
  set_world (obs_answer c (world s).1, (world s).2) s.

Definition env0 : env world0 := env_with nbors0 quiet.

#[export] Instance surroundings0 nbors : Surroundings (env_with nbors quiet).
Proof.
  refine {| observe := fun w : world0 => w.1 |}; try done.
  - intros c st s. by eexists.
  - intros c bs s. exists (world s). split; [by destruct s|done].
Defined.

Definition conf0 : control_node_conf_t := {| diag_period_ms := 60000; packet_ttl_ms := 250; ack_cb := None |}.
Definition frame0 : app_lib_data_to_send_t := diag_frame [1; 2; 3] 0.
Definition handle0 : send_handle_t := {| h_sent := false; h_ack := false; h_end := false; h_address := 0 |}.

Definition state0 : state world0 := {|
  m_state := CTRL_STATE_UNINIT; m_send_handle0 := handle0; m_send_handle1 := handle0; m_data := frame0;
  m_data_buff := repeat 0 102; m_sent_cb := None; m_time_sent := 0; m_conf := conf0;
  m_diag_info := {| dg_success := 0; dg_error := 0; dg_send_time_us := 0 |};
  world := ({| o_reset := false; o_backup := false; o_answered := [] |}, []) |}.

Definition send (c : fn) : event := Send (Some [1; 2; 3]) frame0 (Some c).
Definition report (dest : Z) (ok : bool) : event := Sent {| sent_dest := dest; sent_success := ok |}.

(** One packet through the backup router, after the first one failed; one that
    was sent twice; one that is still on its way. *)
Definition events0 : list event :=
  [Init conf0; send 11; report 7 false; report 5 true; send 12; send 99; BackupFires; report 5 true; report 7 false; send 13].

Lemma reached0 : reached env0 (run env0 events0 state0) ([] ++ accepted_by env0 events0 state0).
Proof. apply reached_run; [by apply reached_boot|]. vm_compute. repeat split; auto. Qed.


Lemma busy_ends_witness :
  enabled env0 ResetFires (run env0 events0 state0) /\
  m_state (handle env0 ResetFires (run env0 events0 state0)).2 = CTRL_STATE_IDLE /\
  o_answered (observe (E := env0) (world (handle env0 ResetFires (run env0 events0 state0)).2)) = [11; 12; 13]%positive.
Proof. exact (busy_ends env0 _ _ reached0 eq_refl). Defined.

Lemma router_choice_witness :
  get_da_router_address nbors0 0 = 7 /\ get_da_router_address nbors0 7 = 5 /\
  let best P n := n ∈ nbors0 /\ P n /\ forall m, m ∈ nbors0 -> P m -> nb_norm_rssi m <= nb_norm_rssi n in
  let lately n := eligible 7 n /\ seen_lately n in
  let a := get_da_router_address nbors0 7 in
  (exists n, best lately n /\ a = nb_address n) \/
  ((forall n, n ∈ nbors0 -> lately n -> ~ audible n) /\ exists n, best (eligible 7) n /\ a = nb_address n) \/
  ((forall n, n ∈ nbors0 -> eligible 7 n -> ~ audible n) /\ a = NO_ROUTE_FOUND_ADDRESS).
Proof. split; [done|]. split; [done|]. exact (router_choice nbors0 7 ltac:(cbn; unfold MAX_NBORS; lia)). Defined.

(** A function of the application that sends the next packet when the last one
    timed out: the library drops the function of the new packet, which is never called. *)
Definition env_again : env world0 :=
  env_with nbors0 (fun c status s => (handle env0 (send 21) (quiet c status s)).2).

Lemma function_of_next_packet_lost :
  let s := run env_again [Init conf0; send 11; ResetFires] state0 in
  m_state s = CTRL_STATE_BUSY /\ m_sent_cb s = None /\ (world s).2 = [7; 7].
Proof. by vm_compute. Qed.

(** Without a second router, a packet that failed is sent to the address zero. *)
Lemma backup_to_no_address :
  let s := run (env_with (take 1 nbors0) quiet) [Init conf0; send 11; report 5 false] state0 in
  (world s).2 = [5; 0] /\ m_state s = CTRL_STATE_IDLE.
Proof. by vm_compute. Qed.

(** A report on an older packet ends the current one and leaves the backup task
    scheduled, which then sends a packet in the idle state. *)
Lemma late_report :
  let s := run env0 [Init conf0; send 11; report 33 true] state0 in
  m_state s = CTRL_STATE_IDLE /\ o_backup (world s).1 = true /\ (world (run env0 [BackupFires] s)).2 = [7; 5].
Proof. by vm_compute. Qed.

(** A router forwards ten bytes, however many the packet has. *)
Lemma short_diagnostics_forwarded :
  let E := {| Router.sendData := fun d w => (true, w ++ [to_bytes d]); Router.getNodeRole := fun _ => Some 1;
              Router.setRouterAckGenCb := fun _ w => w; Router.addDataReceivedCb := fun w => (true, w) |} in
  let s := {| Router.m_conf := None; Router.m_initialized := true; Router.world := [] |} in
  Router.data_received E 9 [1; 2; 3] s = None /\
  (fun x => Router.world x.2) <$> Router.data_received E 9 ([1; 2; 3] ++ repeat 77 7) s =
    Some [[9; 0; 0; 0; 1; 2; 3; 77; 77; 77; 77; 77; 77; 77]].
Proof. by vm_compute. Qed.

End Examples.
